(* ===== verification/_CoqProject ===== *)
-Q . S2P
Prelude.v
Klib.v
Pmm.v
PageAlloc.v
Heap.v
Path.v
State.v
Sched.v
SchedSpec.v
Sync.v
KernelInv.v
Kernel.v
KernelProps.v
NetSum.v
NetAddr.v
Mmu.v
MmuInv.v
MmuMap.v
MmuProps.v
UserCopy.v
Rief.v
RiefSpec.v
Disk.v
Process.v
Service.v
Leases.v
Syscall.v
Confine.v
Partition.v
PartitionSpec.v
Fat.v
FatSpec.v
FatRead.v
FatWrite.v
FatConfine.v
FatNames.v
RamFs.v
RamFsSpec.v
Net.v
Tcp.v
NetInput.v
NetSock.v
TcpStream.v
NetFragments.v
TcpMachine.v
NetSafe.v
NetOutput.v
TcpSteps.v
TcpInput.v
NetHandle.v
NetCalls.v
NetStack.v
NetEnds.v
Native.v
Ext.v
Ntfs.v
NativeRead.v
ExtWrite.v
NtfsWrite.v
NtfsCreate.v
Vfs.v
NativeFs.v
DiskStore.v
NativeDemo.v
NativeLogic.v
NativeRuns.v
NativeReads.v
NativeStage.v
NativeSafe.v
NativeConfine.v
NativeData.v
NativeSpec.v
NativeProbe.v
NtfsCodec.v
