(* ===== verification/Prelude.v ===== *)
(** * The EfiShell kernel: a verification development

    This library models the kernel of EfiShell -- [src/kernel-src] of the
    repository -- as executable functions, and proves the properties that make
    its parts correct: memory isolation, process privileges, scheduling,
    program loading, file systems on untrusted disks and a network stack on
    untrusted packets.  This file is its root: the documentation below, then
    the vocabulary that every other file uses.

    ** How the code is modelled

    A C object of type [UINT8] ... [UINT64] is a [Z], with the wrap-around
    written ([u8] ... [u64], [s64]) wherever the source computes a value that
    may leave its range.  Memory and buffers are stores of bytes ([zmap]: zero
    where nothing was written); a string is the list of its bytes before the
    terminating zero; a static array is a [table].  A pointer to an array
    element is its index, a pointer into a buffer its offset.  A function
    that the source runs under a lock ([pmm_lock], [heap_lock], [sched_lock],
    [net_lock], the process and file system mutexes) is one atomic step on the
    state that the lock protects; blocking calls are cut where they release
    it.  Error codes are those of [include/kernel.h].  [for (i = lo; i < hi;)]
    loops are [fold_range] and, with early exits, [for_range], whose result
    [flow] says whether the loop was left.

    ** The parts of the program and their files

    The kernel gets physical memory from the firmware's map and gives it out
    by the page; the heap, the page tables, the RAM files and the buffers of
    the other file systems take their pages there.  A process has an address
    space made of page tables, a RIEF image loaded into it and tasks that the
    scheduler runs; it reaches everything else by system calls, which are
    checked against what the process is.  The file system resolves a path,
    chooses the volume and calls the driver of its format, which sees a disk as
    sectors.  The network stack turns frames into socket data and back.

    - Helpers.  [Klib]: the memory and string routines and the little-endian
      accessors of [kernel/kernel.c].
    - Physical memory, [kernel/mm/physical.c].  [Pmm]: the bitmaps and their
      operations.  [PageAlloc]: the class [PageSource] of what clients use,
      its laws [PageSourceLaws], and [Pmm] as an instance.
    - Heap, [kernel/mm/heap.c].  [Heap].
    - Kernel state, [include/kernel_internal.h].  [State]: tasks, processors,
      address spaces, processes.
    - Scheduler and synchronisation, [kernel/kernel.c], [arch/x86_64/cpu.c].
      [Sched], [Sync]: the operations; [SchedSpec], [KernelInv]: what each does;
      [Kernel]: the transition system of all of them on all processors and the
      states it reaches; [KernelProps]: what every interleaving guarantees.
    - Page tables, [arch/x86_64/mmu.c], [vm_features.c].  [Mmu]: the
      operations; [MmuInv]: disjoint trees of tables; [MmuMap], [MmuProps]:
      what mapping, allocating and freeing change; [UserCopy]: copies between
      the kernel and user memory.
    - Loader, [rief_load_locked] and others of [kernel/process.c].  [Rief];
      [RiefSpec]: the well-formed images, declaratively, and what loading does.
    - Processes, services and system calls, [kernel/process.c].  [Process],
      [Service], [Syscall]; [Leases]: what destruction releases; [Confine]:
      what an unprivileged process cannot do.
    - Path names, [fs/fs.c].  [Path].
    - Disks and partitions, [drivers/storage/storage.c] seen from [fs/fs.c].
      [Disk]: the class [Disks] of a machine's disks and the laws of their
      contents [DiskContents]; [DiskStore]: an instance, a disk kept as its
      bytes.  [Partition], [PartitionSpec]: the MBR and GUID tables.
    - FAT volumes, [fs/fs.c].  [Fat], [FatWrite]: the driver; [FatSpec],
      [FatRead], [FatNames], [FatConfine]: what it guarantees.
    - ext and NTFS volumes, [fs/fs.c].  [Native]: volumes, ranges of bytes, run
      tables; [Ext], [Ntfs]: reading the two formats; [NativeRead]: opening,
      reading, listing, recognising; [ExtWrite], [NtfsWrite], [NtfsCreate]:
      writing; [NativeFs]: the table of volumes.  [NativeLogic]: a program
      logic for all of them; [NativeRuns], [NativeReads], [NativeStage],
      [NativeSafe]: the rules of each operation; [NativeConfine], [NativeData],
      [NativeSpec], [NativeProbe], [NtfsCodec]: what the drivers guarantee;
      [NativeDemo]: two small volumes on which the examples run.
    - RAM files and the file system, [fs/fs.c].  [RamFs], [RamFsSpec]: files in
      memory and the tree they stand for; [Vfs]: every [k_vfs] call and mounting,
      over the class [Natives], of which [NativeFs] gives the instance.
    - Network, [drivers/net/networking.c], [ethernet.c].  [NetSum], [NetAddr]:
      checksums and textual addresses; [Net]: state, routes, neighbours and
      output; [Tcp]: segments and the state machine; [NetInput]: what arrives;
      [NetSock]: socket calls and the worker.  [TcpMachine]: the abstract TCP
      connection; [NetSafe], [NetOutput], [TcpSteps], [TcpInput], [NetHandle],
      [NetCalls]: every operation keeps the invariant and refines the machine;
      [NetStack]: the stack from its boot; [TcpStream], [NetFragments]: what
      receivers get; [NetEnds]: its recursions end.

    ** What the theorems show

    - Isolation.  [MmuProps.map_isolated] and [as_alloc_transactional]: a
      mapping changes one page of one address space, an allocation happens
      wholly or not at all.  [UserCopy.user_copy_roundtrip].
      [Confine.no_escalation]: no system call of an unprivileged process makes
      a privileged one or takes a partition, the input or a service name.
      [Leases.leases_released].  [Path.resolve_named_contained].
    - Loading.  [RiefSpec.rief_layout_decides]: the checks accept exactly the
      well-formed images; [rief_load_contract]: a load succeeds completely or
      leaves the process as it was.
    - Scheduling.  [Kernel.kernel_invariant] holds after any interleaving;
      [SchedSpec.schedule_picks_minimum]; [Kernel.wakeups_complete];
      [KernelProps.mutex_exclusion], [mailbox_fifo], [reap_safe].
    - Memory.  [Pmm.pmm_invariant], [pmm_alloc_sound], [pmm_alloc_complete],
      [pmm_free_restores]; [Heap.heap_blocks_disjoint], [heap_alloc_safe],
      [heap_free_live], and [heap_large_truncates], a defect: the 32-bit
      alignment of a large block masks the high half of its address.
    - Untrusted disks.  [FatConfine.fat_confined] and
      [NativeConfine.native_confined]: whatever a disk holds, a driver stays in
      the sectors of its volume; [native_frozen]: a read-only or failed volume
      is not written; [NativeProbe.native_probe_sound]: what is mounted has a
      geometry these theorems can start from;
      [PartitionSpec.partition_tables_sound], [crc_detects].
    - File contents.  [FatRead.fat_read_correct], [NativeSpec.ext_read_correct],
      [ntfs_read_correct], [run_write_read], [native_write_exact];
      [FatNames.created_name_listed]; [NtfsCodec.ntfs_runs_roundtrip] and
      [ntfs_fixup_roundtrip]: what the NTFS driver encodes it decodes;
      [RamFsSpec.ramfs_refines], [ramfs_put_read].
    - Untrusted packets.  [NetStack.net_invariant] after any frames and calls;
      [tcp_refines_machine]; [TcpStream.tcp_stream_in_order];
      [NetFragments.reassembly_any_order]; [NetAddr.net_parse_grammar],
      [net_format_roundtrip]; [NetSum.checksum_verifies].
    - Termination.  [FatConfine.fat_loops_end], [NativeConfine.native_ends],
      [NetEnds.net_recursion_ends], [UserCopy.copies_terminate].

    ** Fuel

    A loop of the source whose end is not that of a counter runs on fuel, and a
    theorem says that the fuel given is enough.  Copies and string loops take the number of
    bytes ([copies_terminate]).  Loops over FAT chains take a bound on the
    clusters, as the source's own cycle detection does ([fat_loops_end]).
    Loops over records, extents, attributes, index entries and sectors of ext
    and NTFS volumes take one round per byte of the range they run over; one
    that needed more would be [Stuck], and [native_ends] says that none is.
    [net_ip_send] has two levels, because the solicitation sent for an unknown
    neighbour goes to a multicast address; [net_tcp_pump] calls itself at most
    once; [SEND_FUEL] is one more than the transmit buffer
    ([net_recursion_ends]).  Extent trees are walked by structural recursion on
    their depth, which the source bounds.

    ** What is assumed

    Only the classes named above stand for code that is not modelled: [Disks]
    with [DiskContents] (a read returns the bytes last written and changes
    none; a write changes no byte outside its sectors and, when it succeeds,
    those to its data), [Nics] (an adapter takes a frame and returns a code),
    [Devices] (the files, the input and the console as processes see them),
    [Cycles] (the cycle counter as a source of fresh numbers).  [PageSourceLaws]
    and [Natives] have instances proved or defined here.

    ** What is not modelled

    Register-level drivers -- storage and USB controllers, network adapters,
    audio, display, keyboard, mouse, PCI -- and processor set-up
    ([arch/x86_64] other than page tables and the context switch) act on
    devices, not on the kernel's data.  The user programs [os/os.c] and
    [os/features.c] run on the system calls; [tools/rief.c] is a host tool.  Of
    the network stack: [k_net_init] (a PCI scan), [k_net_attach],
    [k_net_diagnose], [k_net_get], [net_syscall] (a parameter of [Syscall]) and
    the Wi-Fi calls with [k_wifi_decode_beacon].  Of [fs.c]: [native_description], a text.
    Concurrency finer than the locks, and time other than the values
    that the clocks return, are outside the model. *)
From stdpp Require Export base tactics list numbers gmap.
#[global] Open Scope Z_scope.
#[global] Set Default Goal Selector "!".

(** Below: machine-width integers, the error codes, zero-initialised stores,
    bounded C loops and their invariant rules, record update, and the
    automation every component file uses. *)

(** * Machine integers

    A C object of type [UINT8] ... [UINT64] is a [Z] together with an explicit
    wrap-around wherever the source computes a value that may leave its range. *)
Definition u8 (x : Z) : Z := x mod 2 ^ 8.
Definition u16 (x : Z) : Z := x mod 2 ^ 16.
Definition u32 (x : Z) : Z := x mod 2 ^ 32.
Definition u64 (x : Z) : Z := x mod 2 ^ 64.

(** Reinterpretation of a 64-bit (32-bit) pattern as [INT64] ([INT32]). *)
Definition s64 (x : Z) : Z := let y := u64 x in if y <? 2 ^ 63 then y else y - 2 ^ 64.
Definition s32 (x : Z) : Z := let y := u32 x in if y <? 2 ^ 31 then y else y - 2 ^ 32.

Definition is_u8 (x : Z) : Prop := 0 <= x < 2 ^ 8.
Definition is_u16 (x : Z) : Prop := 0 <= x < 2 ^ 16.
Definition is_u32 (x : Z) : Prop := 0 <= x < 2 ^ 32.
Definition is_u64 (x : Z) : Prop := 0 <= x < 2 ^ 64.

(** [ALIGN_UP] of [kernel_internal.h] with both operands 64-bit wide. *)
Definition ALIGN_UP (x a : Z) : Z := Z.land (u64 (u64 (x + a) - 1)) (u64 (Z.lnot (u64 (a - 1)))).
(** The same macro with a 32-bit second operand: C converts the 32-bit value
    [~(a - 1)] to 64 bits by zero extension. *)
Definition ALIGN_UP_u32 (x a : Z) : Z := Z.land (u64 (u64 (x + a) - 1)) (u32 (Z.lnot (u32 (a - 1)))).

(** * Error codes *)
Definition K_OK := 0.
Definition K_EINVAL := -1.
Definition K_ENOMEM := -2.
Definition K_ENOENT := -3.
Definition K_EBUSY := -4.
Definition K_EFAULT := -5.
Definition K_ENOTSUP := -6.
Definition K_EIO := -7.
Definition K_ETIMEDOUT := -8.
Definition K_EROFS := -9.
Definition K_EAGAIN := -10.
Definition K_EPERM := -11.
Definition K_E2BIG := -12.
Definition K_ENOEXEC := -13.
Definition K_EDEADLK := -14.
Definition K_EEXIST := -15.
Definition K_ENOSPC := -16.

(** * Zero-initialised stores

    Byte-addressed memory and the large static arrays of the kernel: a finite
    map in which every absent index reads as zero. *)
Abbreviation zmap := (gmap Z Z).
Definition zget (m : zmap) (i : Z) : Z := default 0 (m !! i).
Definition zput (m : zmap) (i v : Z) : zmap := <[i := v]> m.

Lemma zget_put (m : zmap) i j v : zget (zput m i v) j = if i =? j then v else zget m j.
Proof.
  unfold zget, zput. destruct (Z.eqb_spec i j) as [->|Hne].
  - by rewrite lookup_insert_eq.
  - by rewrite lookup_insert_ne.
Qed.
Lemma zget_put_eq (m : zmap) i v : zget (zput m i v) i = v.
Proof. by rewrite zget_put, Z.eqb_refl. Qed.
Lemma zget_put_ne (m : zmap) i j v : i <> j -> zget (zput m i v) j = zget m j.
Proof. intros Hne. rewrite zget_put. by destruct (Z.eqb_spec i j). Qed.
Lemma zget_empty i : zget ∅ i = 0.
Proof. unfold zget. by rewrite lookup_empty. Qed.

(** ** Static arrays of structures

    A zero-initialised C array is the empty table whose elements read as the
    type's zero value (its [Inhabited] instance). *)
Abbreviation table A := (gmap Z A).
Definition tmod {A} `{Inhabited A} (i : Z) (f : A -> A) (m : table A) : table A := <[i := f (m !!! i)]> m.
Lemma tmod_lookup {A} `{Inhabited A} i f (m : table A) j :
  tmod i f m !!! j = if decide (i = j) then f (m !!! j) else m !!! j.
Proof. unfold tmod. rewrite lookup_total_insert. by case_decide; subst. Qed.
Lemma tmod_eq {A} `{Inhabited A} i f (m : table A) : tmod i f m !!! i = f (m !!! i).
Proof. rewrite tmod_lookup. by rewrite decide_True. Qed.
Lemma tmod_ne {A} `{Inhabited A} i f (m : table A) j : i <> j -> tmod i f m !!! j = m !!! j.
Proof. intros. rewrite tmod_lookup. by rewrite decide_False. Qed.

(** * Record update

    [r <| f := v |>] is the record [r] with field [f] replaced; a record is
    made updatable by giving its eta-expansion as an instance of [Updatable]. *)
Class Updatable (R : Type) := expand : R -> R.
Class Setter {R T : Type} (field : R -> T) := modify : (T -> T) -> R -> R.

Ltac build_setter :=
  lazymatch goal with
  | |- @Setter ?R ?T ?field =>
      let body := eval hnf in (@expand R _) in
      refine (fun (field_fn : T -> T) (old_record : R) =>
                ltac:(let e := eval cbv beta in (body old_record) in
                      lazymatch e with
                      | context C [field old_record] =>
                          let e' := context C [field_fn (field old_record)] in exact e'
                      end))
  end.
#[export] Hint Extern 0 (Setter _) => build_setter : typeclass_instances.

Declare Scope update_scope.
#[global] Open Scope update_scope.
Notation "r <| field := v |>" := (modify (field := field) (fun _ => v) r)
  (at level 1, left associativity) : update_scope.
Notation "r <| field ::= f |>" := (modify (field := field) f r)
  (at level 1, left associativity) : update_scope.

(** * C loops

    [for (i = lo; i < hi; ++i)] with a body that threads a state and may leave
    the function early ([Exit]). *)
Inductive flow (S R : Type) :=
  | Next (s : S)
  | Exit (r : R).
Arguments Next {S R} s.
Arguments Exit {S R} r.

Fixpoint for_loop {S R} (n : nat) (i : Z) (body : Z -> S -> flow S R) (s : S) : flow S R :=
  match n with
  | O => Next s
  | Datatypes.S n' =>
      match body i s with
      | Next s' => for_loop n' (i + 1) body s'
      | Exit r => Exit r
      end
  end.
Definition for_range {S R} (lo hi : Z) (body : Z -> S -> flow S R) (s : S) : flow S R :=
  for_loop (Z.to_nat (hi - lo)) lo body s.

(** The same loop with a body that never leaves early. *)
Fixpoint fold_loop {S} (n : nat) (i : Z) (body : Z -> S -> S) (s : S) : S :=
  match n with
  | O => s
  | Datatypes.S n' => fold_loop n' (i + 1) body (body i s)
  end.
Definition fold_range {S} (lo hi : Z) (body : Z -> S -> S) (s : S) : S :=
  fold_loop (Z.to_nat (hi - lo)) lo body s.

(** [for (...) if (p(i)) return i;] *)
Fixpoint find_loop (n : nat) (i : Z) (p : Z -> bool) : option Z :=
  match n with
  | O => None
  | Datatypes.S n' => if p i then Some i else find_loop n' (i + 1) p
  end.
Definition find_range (lo hi : Z) (p : Z -> bool) : option Z := find_loop (Z.to_nat (hi - lo)) lo p.

(** Number of indices of [lo, hi) that satisfy [p], and the boolean quantifiers. *)
Definition count_range_def (lo hi : Z) (p : Z -> bool) : Z :=
  fold_range lo hi (fun i n => if p i then n + 1 else n) 0.
Definition all_range (lo hi : Z) (p : Z -> bool) : bool :=
  match find_range lo hi (fun i => negb (p i)) with Some _ => false | None => true end.
Definition any_range (lo hi : Z) (p : Z -> bool) : bool :=
  match find_range lo hi p with Some _ => true | None => false end.

(** ** Invariant rules *)
Lemma for_loop_inv {S R} (P : Z -> S -> Prop) (Q : R -> Prop) body n :
  forall i s,
    P i s ->
    (forall j t, i <= j < i + Z.of_nat n -> P j t ->
       match body j t with Next t' => P (j + 1) t' | Exit r => Q r end) ->
    match for_loop n i body s with Next t => P (i + Z.of_nat n) t | Exit r => Q r end.
Proof.
  induction n as [|n IH]; intros i s HP Hbody; cbn [for_loop].
  - by replace (i + Z.of_nat 0) with i by lia.
  - pose proof (Hbody i s ltac:(lia) HP) as Hi. destruct (body i s) as [t|r]; [|done].
    replace (i + Z.of_nat (Datatypes.S n)) with (i + 1 + Z.of_nat n) by lia.
    apply IH; [done|]. intros j u Hj. apply Hbody. lia.
Qed.

Lemma for_range_inv {S R} (P : Z -> S -> Prop) (Q : R -> Prop) body lo hi s :
  lo <= hi -> P lo s ->
  (forall i t, lo <= i < hi -> P i t ->
     match body i t with Next t' => P (i + 1) t' | Exit r => Q r end) ->
  match for_range lo hi body s with Next t => P hi t | Exit r => Q r end.
Proof.
  intros Hle HP Hbody. unfold for_range.
  pose proof (for_loop_inv P Q body (Z.to_nat (hi - lo)) lo s HP) as Hloop.
  replace (lo + Z.of_nat (Z.to_nat (hi - lo))) with hi in Hloop by lia.
  apply Hloop. intros j t Hj. apply Hbody. lia.
Qed.

Lemma for_range_pres {S R} (P : S -> Prop) (Q : R -> Prop) body lo hi s :
  P s -> (forall i t, P t -> match body i t with Next t' => P t' | Exit r => Q r end) ->
  match for_range lo hi body s with Next t => P t | Exit r => Q r end.
Proof.
  intros HP Hbody. unfold for_range. generalize (Z.to_nat (hi - lo)). intros n. revert lo s HP. induction n as [|n IH]; intros i t Ht; [exact Ht|].
  cbn [for_loop]. specialize (Hbody i t Ht). destruct (body i t); [by apply IH|exact Hbody].
Qed.
Lemma fold_loop_inv {S} (P : Z -> S -> Prop) body n :
  forall i s,
    P i s -> (forall j t, i <= j < i + Z.of_nat n -> P j t -> P (j + 1) (body j t)) ->
    P (i + Z.of_nat n) (fold_loop n i body s).
Proof.
  induction n as [|n IH]; intros i s HP Hbody; cbn [fold_loop].
  - by replace (i + Z.of_nat 0) with i by lia.
  - replace (i + Z.of_nat (Datatypes.S n)) with (i + 1 + Z.of_nat n) by lia.
    apply IH; [apply Hbody; [lia|done]|]. intros j t Hj. apply Hbody. lia.
Qed.

Lemma fold_range_inv {S} (P : Z -> S -> Prop) body lo hi s :
  lo <= hi -> P lo s -> (forall i t, lo <= i < hi -> P i t -> P (i + 1) (body i t)) ->
  P hi (fold_range lo hi body s).
Proof.
  intros Hle HP Hbody. unfold fold_range.
  pose proof (fold_loop_inv P body (Z.to_nat (hi - lo)) lo s HP) as Hloop.
  replace (lo + Z.of_nat (Z.to_nat (hi - lo))) with hi in Hloop by lia.
  apply Hloop. intros j t Hj. apply Hbody. lia.
Qed.

Lemma fold_range_nil {S} lo hi (body : Z -> S -> S) s : hi <= lo -> fold_range lo hi body s = s.
Proof. intros H. unfold fold_range. by replace (Z.to_nat (hi - lo)) with O by lia. Qed.
Lemma for_range_nil {S R} lo hi (body : Z -> S -> flow S R) s :
  hi <= lo -> for_range lo hi body s = Next s.
Proof. intros H. unfold for_range. by replace (Z.to_nat (hi - lo)) with O by lia. Qed.
Lemma fold_range_step {S} lo hi (body : Z -> S -> S) s :
  lo < hi -> fold_range lo hi body s = fold_range (lo + 1) hi body (body lo s).
Proof.
  intros H. unfold fold_range.
  replace (Z.to_nat (hi - lo)) with (Datatypes.S (Z.to_nat (hi - (lo + 1)))) by lia. done.
Qed.
Lemma for_range_step {S R} lo hi (body : Z -> S -> flow S R) s :
  lo < hi ->
  for_range lo hi body s =
  match body lo s with Next t => for_range (lo + 1) hi body t | Exit r => Exit r end.
Proof.
  intros H. unfold for_range.
  replace (Z.to_nat (hi - lo)) with (Datatypes.S (Z.to_nat (hi - (lo + 1)))) by lia. done.
Qed.

Lemma fold_loop_app {S} (body : Z -> S -> S) a b : forall i s,
  fold_loop (a + b) i body s = fold_loop b (i + Z.of_nat a) body (fold_loop a i body s).
Proof.
  induction a as [|a IH]; intros i s; cbn [fold_loop Nat.add].
  - by replace (i + Z.of_nat 0) with i by lia.
  - rewrite IH. f_equal. lia.
Qed.
Lemma fold_range_app {S} lo mid hi (body : Z -> S -> S) s :
  lo <= mid <= hi -> fold_range lo hi body s = fold_range mid hi body (fold_range lo mid body s).
Proof.
  intros H. unfold fold_range.
  replace (Z.to_nat (hi - lo)) with (Z.to_nat (mid - lo) + Z.to_nat (hi - mid))%nat by lia.
  rewrite fold_loop_app. f_equal. lia.
Qed.
Lemma fold_range_last {S} lo hi (body : Z -> S -> S) s :
  lo <= hi -> fold_range lo (hi + 1) body s = body hi (fold_range lo hi body s).
Proof.
  intros H. rewrite (fold_range_app lo hi) by lia.
  rewrite fold_range_step by lia. by rewrite fold_range_nil by lia.
Qed.

Lemma find_loop_spec n p : forall i,
  match find_loop n i p with
  | Some j => i <= j < i + Z.of_nat n /\ p j = true /\ (forall k, i <= k < j -> p k = false)
  | None => forall k, i <= k < i + Z.of_nat n -> p k = false
  end.
Proof.
  induction n as [|n IH]; intros i; cbn [find_loop]; [lia|].
  destruct (p i) eqn:Hp; [repeat split; try lia; done|].
  specialize (IH (i + 1)). destruct (find_loop n (i + 1) p) as [j|].
  - destruct IH as (Hj & Hpj & Hk). repeat split; [lia|lia|done|].
    intros k Hrange. destruct (Z.eq_dec k i) as [->|]; [done|apply Hk; lia].
  - intros k Hrange. destruct (Z.eq_dec k i) as [->|]; [done|apply IH; lia].
Qed.
Lemma find_range_Some lo hi p j :
  find_range lo hi p = Some j ->
  lo <= j < hi /\ p j = true /\ (forall k, lo <= k < j -> p k = false).
Proof.
  unfold find_range. intros H. pose proof (find_loop_spec (Z.to_nat (hi - lo)) p lo) as Hs.
  rewrite H in Hs. destruct Hs as (Hr & Hp & Hk). repeat split; try done; lia.
Qed.
Lemma find_range_None lo hi p :
  find_range lo hi p = None <-> (forall k, lo <= k < hi -> p k = false).
Proof.
  unfold find_range. pose proof (find_loop_spec (Z.to_nat (hi - lo)) p lo) as Hs.
  destruct (find_loop _ lo p) as [j|]; split; intros H; try done.
  - destruct Hs as (Hr & Hp & _). rewrite H in Hp by lia. done.
  - intros k Hk. apply Hs. lia.
Qed.
Lemma all_range_spec lo hi p : all_range lo hi p = true <-> (forall k, lo <= k < hi -> p k = true).
Proof.
  unfold all_range. destruct (find_range lo hi _) as [j|] eqn:Hf.
  - split; [done|]. intros H. apply find_range_Some in Hf as (Hr & Hp & _).
    rewrite H in Hp by lia. done.
  - split; [|done]. intros _ k Hk. rewrite find_range_None in Hf.
    specialize (Hf k Hk). by apply negb_false_iff in Hf.
Qed.
Lemma any_range_spec lo hi p : any_range lo hi p = true <-> (exists k, lo <= k < hi /\ p k = true).
Proof.
  unfold any_range. destruct (find_range lo hi _) as [j|] eqn:Hf.
  - split; [|done]. intros _. apply find_range_Some in Hf as (Hr & Hp & _). by exists j.
  - split; [done|]. intros (k & Hk & Hp). rewrite find_range_None in Hf.
    rewrite Hf in Hp; done.
Qed.

(** ** Counting

    [count_range] only appears in specifications, over ranges as large as the
    whole page bitmap; it is sealed so that it is never evaluated. *)
Definition count_range_sealed : { f : Z -> Z -> (Z -> bool) -> Z | f = count_range_def }.
Proof. by exists count_range_def. Qed.
Definition count_range : Z -> Z -> (Z -> bool) -> Z := proj1_sig count_range_sealed.
Lemma count_range_eq : count_range = count_range_def.
Proof. exact (proj2_sig count_range_sealed). Qed.
Lemma count_range_nil lo hi p : hi <= lo -> count_range lo hi p = 0.
Proof. rewrite count_range_eq. apply fold_range_nil. Qed.
Lemma count_range_last lo hi p :
  lo <= hi -> count_range lo (hi + 1) p = count_range lo hi p + (if p hi then 1 else 0).
Proof.
  intros H. rewrite count_range_eq. unfold count_range_def. rewrite fold_range_last by done.
  destruct (p hi); lia.
Qed.
Lemma count_range_bounds lo hi p : lo <= hi -> 0 <= count_range lo hi p <= hi - lo.
Proof.
  intros H. rewrite count_range_eq. unfold count_range_def.
  apply (fold_range_inv (fun i n => 0 <= n <= i - lo)); [done|lia|].
  intros i n Hi Hn. destruct (p i); lia.
Qed.
Lemma range_ind (P : Z -> Prop) lo :
  P lo -> (forall i, lo <= i -> P i -> P (i + 1)) -> forall hi, lo <= hi -> P hi.
Proof.
  intros H0 HS hi Hle. replace hi with (lo + Z.of_nat (Z.to_nat (hi - lo))) by lia.
  induction (Z.to_nat (hi - lo)) as [|n IH].
  - by replace (lo + Z.of_nat 0) with lo by lia.
  - replace (lo + Z.of_nat (Datatypes.S n)) with (lo + Z.of_nat n + 1) by lia.
    apply HS; [lia|done].
Qed.
Lemma count_range_ext lo hi p q :
  (forall i, lo <= i < hi -> p i = q i) -> count_range lo hi p = count_range lo hi q.
Proof.
  intros H. destruct (Z.le_gt_cases lo hi) as [Hle|]; [|by rewrite !count_range_nil by lia].
  revert H. apply (range_ind (fun h => (forall i, lo <= i < h -> p i = q i) ->
                               count_range lo h p = count_range lo h q) lo); [| |done].
  - intros _. by rewrite !count_range_nil by lia.
  - intros i Hi IH H. rewrite !count_range_last by done.
    rewrite IH by (intros; apply H; lia). by rewrite H by lia.
Qed.
(** Flipping one index from false to true adds one to the count. *)
Lemma count_range_set lo hi p q k :
  lo <= k < hi -> p k = false -> q k = true ->
  (forall i, lo <= i < hi -> i <> k -> p i = q i) ->
  count_range lo hi q = count_range lo hi p + 1.
Proof.
  intros Hk Hp Hq H.
  apply (range_ind (fun h => k < h <= hi -> count_range lo h q = count_range lo h p + 1) (k + 1));
    [| |lia|lia].
  - intros _. rewrite !count_range_last by lia. rewrite Hp, Hq.
    rewrite (count_range_ext lo k p q); [lia|]. intros; apply H; lia.
  - intros i Hi IH Hr. rewrite !count_range_last by lia. rewrite IH by lia.
    rewrite (H i) by lia. lia.
Qed.

Lemma count_range_app lo mid hi p :
  lo <= mid <= hi -> count_range lo hi p = count_range lo mid p + count_range mid hi p.
Proof.
  intros [Hlo Hhi]. revert hi Hhi.
  apply (range_ind (fun h => count_range lo h p = count_range lo mid p + count_range mid h p)).
  - rewrite (count_range_nil mid mid) by lia. lia.
  - intros i Hi IH. rewrite !count_range_last by lia. lia.
Qed.
Lemma count_range_const lo hi p (b : bool) :
  lo <= hi -> (forall i, lo <= i < hi -> p i = b) -> count_range lo hi p = if b then hi - lo else 0.
Proof.
  intros Hle H. rewrite (count_range_ext lo hi p (fun _ => b)) by done. clear H p. revert hi Hle.
  apply (range_ind (fun h => count_range lo h (fun _ => b) = if b then h - lo else 0)).
  - rewrite count_range_nil by lia. destruct b; lia.
  - intros i Hi IH. rewrite count_range_last by lia. destruct b; lia.
Qed.
Lemma count_range_zero lo hi p i : lo <= i < hi -> count_range lo hi p = 0 -> p i = false.
Proof.
  intros Hi H0. destruct (p i) eqn:Hp; [exfalso|done].
  rewrite (count_range_app lo i), (count_range_app i (i + 1)) in H0 by lia.
  rewrite (count_range_const i (i + 1) p true) in H0; [|lia|intros j Hj; by replace j with i by lia].
  pose proof (count_range_bounds lo i p ltac:(lia)).
  pose proof (count_range_bounds (i + 1) hi p ltac:(lia)). lia.
Qed.
(** Turning a whole sub-range from true to false subtracts its length. *)
Lemma count_range_clear lo a b hi p q :
  lo <= a -> a <= b -> b <= hi ->
  (forall i, a <= i < b -> p i = true) -> (forall i, a <= i < b -> q i = false) ->
  (forall i, lo <= i < hi -> i < a \/ b <= i -> p i = q i) ->
  count_range lo hi p = count_range lo hi q + (b - a).
Proof.
  intros Ha Hab Hb Hp Hq Hout. rewrite !(count_range_app lo a hi), !(count_range_app a b hi) by lia.
  rewrite (count_range_const a b p true), (count_range_const a b q false) by done.
  rewrite (count_range_ext lo a p q), (count_range_ext b hi p q); [lia| |];
    intros i Hi; apply Hout; lia.
Qed.

(** * Automation *)
Create HintDb kernel discriminated.

(** Reflect the boolean guards of the source into propositions. *)
Lemma negb_eq_true (b : bool) : negb b = true <-> b = false.
Proof. by destruct b. Qed.
Ltac reflect_bools :=
  repeat match goal with
  | H : (_ || _) = false |- _ => apply orb_false_elim in H as [? ?]
  | H : (_ && _) = true |- _ => apply andb_prop in H as [? ?]
  | H : (_ || _) = true |- _ => apply orb_prop in H
  | H : (_ && _) = false |- _ => apply andb_false_iff in H
  | H : negb _ = true |- _ => apply negb_true_iff in H
  | H : negb _ = false |- _ => apply negb_false_iff in H
  | H : (_ =? _) = true |- _ => apply Z.eqb_eq in H
  | H : (_ =? _) = false |- _ => apply Z.eqb_neq in H
  | H : (_ <? _) = true |- _ => apply Z.ltb_lt in H
  | H : (_ <? _) = false |- _ => apply Z.ltb_ge in H
  | H : (_ <=? _) = true |- _ => apply Z.leb_le in H
  | H : (_ <=? _) = false |- _ => apply Z.leb_gt in H
  end.
(** Split the innermost conditional of the goal and reflect it. *)
Ltac split_if :=
  match goal with
  | |- context [if ?b then _ else _] => let H := fresh "Hif" in destruct b eqn:H
  end; reflect_bools.
Ltac split_if_in H :=
  match type of H with
  | context [if ?b then _ else _] => let E := fresh "Hif" in destruct b eqn:E
  end; reflect_bools.
(** Linear arithmetic with divisions and remainders by constants. *)
Ltac dlia := Z.div_mod_to_equations; lia.
