(* ===== verification/Klib.v ===== *)
(** The freestanding helpers of [src/kernel-src/kernel/kernel.c]: byte-wise
    memory routines, C strings, little-endian accessors, range and
    power-of-two tests, and [overlap] of [kernel/process.c].  Memory is a
    zero-initialised store of bytes indexed by address. *)
From S2P Require Import Prelude.

(** * Memory routines *)
Definition mem_zero (m : zmap) (p n : Z) : zmap :=
  fold_range 0 n (fun i m => zput m (p + i) 0) m.
Definition mem_copy (m : zmap) (d s n : Z) : zmap :=
  fold_range 0 n (fun i m => zput m (d + i) (zget m (s + i))) m.
Definition memset (m : zmap) (p v n : Z) : zmap :=
  fold_range 0 n (fun i m => zput m (p + i) (u8 v)) m.
Definition memcpy (m : zmap) (d s n : Z) : zmap := mem_copy m d s n.
Definition memmove (m : zmap) (d s n : Z) : zmap :=
  if d <? s then memcpy m d s n
  else fold_range 0 n (fun k m => let i := n - 1 - k in zput m (d + i) (zget m (s + i))) m.
Definition memcmp (m : zmap) (a b n : Z) : Z :=
  match for_range 0 n (fun i (_ : unit) =>
          let x := zget m (a + i) in let y := zget m (b + i) in
          if x =? y then Next tt else Exit (x - y)) tt with
  | Next _ => 0
  | Exit r => r
  end.

(** Bytes given as a list stored at [p], a buffer that holds a list, and the bytes of a range. *)
Definition write_bytes (p : Z) (data : list Z) (m : zmap) : zmap := foldr (fun x m => zput m (fst x) (snd x)) m (imap (fun i v => (p + Z.of_nat i, v)) data).
Definition buffer (data : list Z) : zmap := write_bytes 0 data ∅.
Definition bytes_from (f : Z -> Z) (p n : Z) : list Z := (fun i => f (p + Z.of_nat i)) <$> seq 0 (Z.to_nat n).
Definition bytes_at (m : zmap) (p n : Z) : list Z := bytes_from (zget m) p n.

(** * C strings

    The loops of [str_len] and [str_eq] run until a NUL byte; the fuel bounds
    the number of bytes read and [None] means it ran out. *)
Fixpoint str_len (fuel : nat) (m : zmap) (s n : Z) : option Z :=
  match fuel with
  | O => None
  | S fuel' => if zget m (s + n) =? 0 then Some n else str_len fuel' m s (n + 1)
  end.
Fixpoint str_eq (fuel : nat) (m : zmap) (a b : Z) : option bool :=
  match fuel with
  | O => None
  | S fuel' =>
      if negb (zget m a =? 0) && (zget m a =? zget m b)
      then str_eq fuel' m (a + 1) (b + 1)
      else Some (zget m a =? zget m b)
  end.
Definition str_copy (m : zmap) (d s cap : Z) : zmap :=
  if cap =? 0 then m
  else
    match for_range 0 (cap - 1) (fun i m =>
            if zget m (s + i) =? 0 then Exit (zput m (d + i) 0)
            else Next (zput m (d + i) (zget m (s + i)))) m with
    | Next m' => zput m' (d + (cap - 1)) 0
    | Exit m' => m'
    end.

(** * Ranges and powers of two *)
Definition span_ok (off n size : Z) : bool := (off <=? size) && (n <=? size - off).
Definition power2 (n : Z) : bool := negb (n =? 0) && (Z.land n (u64 (n - 1)) =? 0).
Definition overlap (a n b m : Z) : bool :=
  negb (n =? 0) && negb (m =? 0) && (a <? u64 (b + m)) && (b <? u64 (a + n)).

(** * Little-endian accessors *)
Definition rd16 (m : zmap) (p : Z) : Z := Z.lor (zget m p) (Z.shiftl (zget m (p + 1)) 8).
Definition rd32 (m : zmap) (p : Z) : Z := Z.lor (rd16 m p) (Z.shiftl (rd16 m (p + 2)) 16).
Definition rd64 (m : zmap) (p : Z) : Z := Z.lor (rd32 m p) (Z.shiftl (rd32 m (p + 4)) 32).
Definition wr16 (m : zmap) (p v : Z) : zmap := zput (zput m p (u8 v)) (p + 1) (u8 (Z.shiftr v 8)).
Definition wr32 (m : zmap) (p v : Z) : zmap :=
  fold_range 0 4 (fun i m => zput m (p + i) (u8 (Z.shiftr v (i * 8)))) m.
Definition wr64 (m : zmap) (p v : Z) : zmap :=
  fold_range 0 8 (fun i m => zput m (p + i) (u8 (Z.shiftr v (i * 8)))) m.

(** * Lemmas: memory *)
Lemma fold_put_spec (m : zmap) p n (f : Z -> Z) :
  0 <= n -> forall a,
  zget (fold_range 0 n (fun i m => zput m (p + i) (f i)) m) a =
  if (p <=? a) && (a <? p + n) then f (a - p) else zget m a.
Proof.
  intros Hn.
  apply (fold_range_inv (fun k m' => forall a,
           zget m' a = if (p <=? a) && (a <? p + k) then f (a - p) else zget m a)); [done| |].
  - intros a. split_if; [lia|done].
  - intros i m' Hi IH a. rewrite zget_put. destruct (Z.eqb_spec (p + i) a) as [<-|Hne].
    + split_if; [f_equal; lia|lia].
    + rewrite IH. repeat split_if; try done; lia.
Qed.
Lemma mem_zero_spec (m : zmap) p n a :
  0 <= n -> zget (mem_zero m p n) a = if (p <=? a) && (a <? p + n) then 0 else zget m a.
Proof. intros Hn. unfold mem_zero. by rewrite (fold_put_spec m p n (fun _ => 0)). Qed.
Lemma memset_spec (m : zmap) p v n a :
  0 <= n -> zget (memset m p v n) a = if (p <=? a) && (a <? p + n) then u8 v else zget m a.
Proof. intros Hn. unfold memset. by rewrite (fold_put_spec m p n (fun _ => u8 v)). Qed.

(** The forward copy is right whenever the destination does not start inside
    the part of the source that is still to be read. *)
Lemma mem_copy_spec (m : zmap) d s n :
  0 <= n -> (d <= s \/ s + n <= d) -> forall a,
  zget (mem_copy m d s n) a = if (d <=? a) && (a <? d + n) then zget m (s + (a - d)) else zget m a.
Proof.
  intros Hn Hds. unfold mem_copy.
  apply (fold_range_inv (fun k m' => forall a,
           zget m' a = if (d <=? a) && (a <? d + k) then zget m (s + (a - d)) else zget m a));
    [done| |].
  - intros a. split_if; [lia|done].
  - intros i m' Hi IH a. rewrite zget_put. destruct (Z.eqb_spec (d + i) a) as [<-|Hne].
    + rewrite IH. repeat split_if; try lia; f_equal; lia.
    + rewrite IH. repeat split_if; try done; lia.
Qed.
Lemma memmove_back_spec (m : zmap) d s n :
  0 <= n -> s <= d -> forall a,
  zget (fold_range 0 n (fun k m => let i := n - 1 - k in zput m (d + i) (zget m (s + i))) m) a =
  if (d <=? a) && (a <? d + n) then zget m (s + (a - d)) else zget m a.
Proof.
  intros Hn Hds a.
  assert (forall a', zget (fold_range 0 n (fun k m => let i := n - 1 - k in
            zput m (d + i) (zget m (s + i))) m) a' =
          if (d + (n - n) <=? a') && (a' <? d + n) then zget m (s + (a' - d)) else zget m a') as H.
  { apply (fold_range_inv (fun k m' => forall a',
             zget m' a' = if (d + (n - k) <=? a') && (a' <? d + n)
                          then zget m (s + (a' - d)) else zget m a')); [done| |].
    - intros a'. split_if; [lia|done].
    - intros i m' Hi IH a'. cbv zeta. rewrite zget_put.
      destruct (Z.eqb_spec (d + (n - 1 - i)) a') as [<-|Hne].
      + rewrite IH. repeat split_if; try lia; f_equal; lia.
      + rewrite IH. repeat split_if; try done; lia. }
  rewrite H. by replace (d + (n - n)) with d by lia.
Qed.

(** * Lemmas: strings *)

(** [c_string m p s]: the bytes [s], none of them NUL, followed by a NUL. *)
Definition c_string (m : zmap) (p : Z) (s : list Z) : Prop :=
  Forall (fun c => c <> 0) s /\
  (forall i c, s !! i = Some c -> zget m (p + Z.of_nat i) = c) /\
  zget m (p + Z.of_nat (length s)) = 0.

Lemma c_string_cons (m : zmap) p c s :
  c_string m p (c :: s) <-> c <> 0 /\ zget m p = c /\ c_string m (p + 1) s.
Proof.
  unfold c_string. rewrite Forall_cons. split.
  - intros ((Hc & Hs) & Hget & Hend). repeat split; try done.
    + specialize (Hget 0%nat c eq_refl). by replace (p + Z.of_nat 0) with p in Hget by lia.
    + intros i x Hx. replace (p + 1 + Z.of_nat i) with (p + Z.of_nat (S i)) by lia. by apply Hget.
    + rewrite <- Hend. f_equal. cbn [length]. lia.
  - intros (Hc & Hp & Hs & Hget & Hend). repeat split; try done.
    + intros [|i] x Hx; cbn in Hx.
      * injection Hx as <-. by replace (p + Z.of_nat 0) with p by lia.
      * replace (p + Z.of_nat (S i)) with (p + 1 + Z.of_nat i) by lia. by apply Hget.
    + rewrite <- Hend. f_equal. cbn [length]. lia.
Qed.
Lemma c_string_nil (m : zmap) p : c_string m p [] <-> zget m p = 0.
Proof.
  unfold c_string. cbn [length]. replace (p + Z.of_nat 0) with p by lia.
  split; [by intros (_ & _ & H)|]. intros H. repeat split; [constructor| |done].
  intros i c Hi. by rewrite lookup_nil in Hi.
Qed.

Lemma str_len_go m s p n fuel :
  c_string m (p + n) s -> (length s < fuel)%nat -> str_len fuel m p n = Some (n + Z.of_nat (length s)).
Proof.
  revert n fuel. induction s as [|c s IH]; intros n [|fuel] Hs Hf; cbn [length] in Hf; try lia;
    cbn [str_len].
  - apply c_string_nil in Hs. rewrite Hs, Z.eqb_refl. f_equal. cbn [length]. lia.
  - apply c_string_cons in Hs as (Hc & Hp & Hs). rewrite Hp.
    destruct (Z.eqb_spec c 0); [done|].
    rewrite IH; [f_equal; cbn [length]; lia| |lia].
    by replace (p + (n + 1)) with (p + n + 1) by lia.
Qed.

Lemma str_eq_go m s t a b fuel :
  c_string m a s -> c_string m b t -> (length s < fuel)%nat ->
  str_eq fuel m a b = Some (bool_decide (s = t)).
Proof.
  revert t a b fuel. induction s as [|c s IH]; intros t a b [|fuel] Hs Ht Hf; cbn [length] in Hf;
    try lia; cbn [str_eq].
  - apply c_string_nil in Hs. rewrite Hs, Z.eqb_refl. cbn [negb andb]. f_equal.
    destruct t as [|c t].
    + apply c_string_nil in Ht. by rewrite Ht.
    + apply c_string_cons in Ht as (Hc & Hp & _). rewrite Hp.
      rewrite bool_decide_false by done. apply Z.eqb_neq. congruence.
  - apply c_string_cons in Hs as (Hc & Hp & Hs). rewrite Hp.
    rewrite (proj2 (Z.eqb_neq c 0)) by done. cbn [negb andb]. destruct t as [|c' t].
    + apply c_string_nil in Ht. rewrite Ht, (proj2 (Z.eqb_neq c 0)) by done.
      by rewrite bool_decide_false.
    + apply c_string_cons in Ht as (Hc' & Hp' & Ht). rewrite Hp'.
      destruct (Z.eqb_spec c c') as [->|Hne].
      * rewrite (IH t); [|done|done|lia]. f_equal. apply bool_decide_ext. naive_solver.
      * rewrite bool_decide_false; [done|]. congruence.
Qed.

(** * Lemmas: ranges and powers of two *)
Lemma span_ok_spec off n size : span_ok off n size = true <-> off <= size /\ off + n <= size.
Proof. unfold span_ok. rewrite andb_true_iff, !Z.leb_le. lia. Qed.

Lemma overlap_spec a n b m :
  0 <= a -> 0 <= b -> 0 <= n -> 0 <= m -> a + n < 2 ^ 64 -> b + m < 2 ^ 64 ->
  overlap a n b m = true <-> (exists x, a <= x < a + n /\ b <= x < b + m).
Proof.
  intros Ha Hb Hn Hm Han Hbm. unfold overlap, u64. rewrite !Z.mod_small by lia. split.
  - intros H. reflect_bools. exists (Z.max a b). lia.
  - intros (x & Hx & Hy). rewrite !andb_true_iff, !negb_true_iff, !Z.eqb_neq, !Z.ltb_lt. lia.
Qed.

Lemma power2_spec n : is_u64 n -> power2 n = true <-> (exists k, 0 <= k < 64 /\ n = 2 ^ k).
Proof.
  unfold is_u64, power2, u64. intros Hn.
  destruct (Z.eqb_spec n 0) as [->|Hne]; cbn [negb andb].
  { split; [done|]. intros (k & Hk & H). pose proof (Z.pow_pos_nonneg 2 k). lia. }
  rewrite Z.mod_small by lia. rewrite Z.eqb_eq. split.
  - intros Hland. exists (Z.log2 n).
    pose proof (Z.log2_spec n ltac:(lia)) as [Hlo Hhi]. rewrite Z.pow_succ_r in Hhi by apply Z.log2_nonneg.
    split; [split; [apply Z.log2_nonneg|apply Z.log2_lt_pow2; lia]|].
    destruct (Z.eq_dec n (2 ^ Z.log2 n)) as [|Hneq]; [done|exfalso].
    assert (Z.log2 (n - 1) = Z.log2 n) as Hl.
    { apply Z.log2_unique; [apply Z.log2_nonneg|].
      rewrite Z.pow_succ_r by apply Z.log2_nonneg. lia. }
    assert (Z.testbit (Z.land n (n - 1)) (Z.log2 n) = true) as Hbit.
    { rewrite Z.land_spec, Z.bit_log2 by lia. rewrite <- Hl. rewrite Z.bit_log2 by lia. done. }
    rewrite Hland, Z.testbit_0_l in Hbit. done.
  - intros (k & Hk & ->). replace (2 ^ k - 1) with (Z.ones k) by (rewrite Z.ones_equiv; lia).
    rewrite Z.land_ones by lia. apply Z.mod_same, Z.pow_nonzero; lia.
Qed.

(** * Lemmas: little-endian accessors *)
Lemma testbit_high x k n : 0 <= x < 2 ^ k -> k <= n -> Z.testbit x n = false.
Proof.
  intros Hx Hn. destruct (Z.le_gt_cases 0 k) as [Hk|Hk].
  - rewrite <- (Z.mod_small x (2 ^ k)) by done. apply Z.mod_pow2_bits_high. lia.
  - rewrite Z.pow_neg_r in Hx by lia. lia.
Qed.
Lemma lor_shiftl_add lo hi k : 0 <= k -> 0 <= lo < 2 ^ k -> Z.lor lo (Z.shiftl hi k) = lo + hi * 2 ^ k.
Proof.
  intros Hk Hlo. rewrite <- Z.shiftl_mul_pow2 by lia.
  assert (Z.land lo (Z.shiftl hi k) = 0) as Hland.
  { apply Z.bits_inj'. intros n Hn. rewrite Z.land_spec, Z.testbit_0_l.
    destruct (Z.lt_ge_cases n k).
    - rewrite (Z.shiftl_spec_low hi k n) by lia. apply andb_false_r.
    - by rewrite (testbit_high lo k n). }
  by rewrite Z.add_nocarry_lxor, Z.lxor_lor.
Qed.

(** Every byte of memory is a byte. *)
Definition bytes_ok (m : zmap) : Prop := forall a, is_u8 (zget m a).
Lemma u8_range x : is_u8 (u8 x).
Proof. unfold is_u8, u8. by apply Z.mod_pos_bound. Qed.
#[export] Hint Resolve u8_range : kernel.
Lemma bytes_ok_put m a v : bytes_ok m -> is_u8 v -> bytes_ok (zput m a v).
Proof. intros Hm Hv b. rewrite zget_put. by destruct (a =? b). Qed.
Lemma bytes_ok_empty : bytes_ok ∅.
Proof. intros a. rewrite zget_empty. unfold is_u8. lia. Qed.
#[export] Hint Resolve bytes_ok_put bytes_ok_empty : kernel.

(** * Lemmas: bytes as lists *)
Lemma bytes_from_length f p n : length (bytes_from f p n) = Z.to_nat n.
Proof. unfold bytes_from. by rewrite length_fmap, length_seq. Qed.
Lemma bytes_from_lookup f p n i : (i < Z.to_nat n)%nat -> bytes_from f p n !! i = Some (f (p + Z.of_nat i)).
Proof. intros Hi. unfold bytes_from. rewrite list_lookup_fmap, lookup_seq_lt by done. done. Qed.
Lemma bytes_from_ext f g p q n : (forall i, 0 <= i < n -> f (p + i) = g (q + i)) -> bytes_from f p n = bytes_from g q n.
Proof.
  intros E. unfold bytes_from. apply list_fmap_ext. intros i x Hi. apply lookup_seq in Hi as [-> Hi]. apply E. lia.
Qed.
Lemma bytes_from_app f p a b : 0 <= a -> 0 <= b -> bytes_from f p (a + b) = bytes_from f p a ++ bytes_from f (p + a) b.
Proof.
  intros Ha Hb. unfold bytes_from. rewrite Z2Nat.inj_add, seq_app, fmap_app by lia. f_equal.
  rewrite Nat.add_0_l. replace (Z.to_nat a) with (Z.to_nat a + 0)%nat by lia. rewrite <- fmap_add_seq, <- list_fmap_compose.
  apply list_fmap_ext. intros i x _. cbn. f_equal. lia.
Qed.
Lemma bytes_from_sub f p n a b : 0 <= a -> 0 <= b -> a + b <= n -> take (Z.to_nat b) (drop (Z.to_nat a) (bytes_from f p n)) = bytes_from f (p + a) b.
Proof.
  intros Ha Hb Hn. replace n with (a + (b + (n - a - b))) by lia. rewrite !bytes_from_app by lia.
  rewrite drop_app_length', take_app_length' by (by rewrite bytes_from_length). done.
Qed.
Lemma bytes_from_u8 f p n : (forall a, is_u8 (f a)) -> Forall is_u8 (bytes_from f p n).
Proof. intros Hf. unfold bytes_from. apply Forall_forall. intros x Hx. apply list_elem_of_fmap in Hx as (i & -> & _). apply Hf. Qed.
Lemma write_bytes_get p data m a :
  zget (write_bytes p data m) a = if (p <=? a) && (a <? p + Z.of_nat (length data)) then data !!! Z.to_nat (a - p) else zget m a.
Proof.
  unfold write_bytes. revert p. induction data as [|x data IH]; intros p; cbn [imap foldr length].
  - rewrite Z.add_0_r. split_if; [lia|done].
  - rewrite zget_put. cbn [fst snd]. rewrite Z.add_0_r. destruct (Z.eqb_spec p a) as [->|Hne].
    + split_if; [by rewrite Z.sub_diag|]. exfalso. destruct Hif; reflect_bools; lia.
    + rewrite (imap_ext _ (fun i v => (p + 1 + Z.of_nat i, v))) by (intros i v _; unfold compose; f_equal; lia). rewrite IH.
      destruct (decide (p + 1 <= a < p + 1 + Z.of_nat (length data))) as [Hin|Hout].
      * rewrite !(proj2 (andb_true_iff _ _)) by (split; [apply Z.leb_le|apply Z.ltb_lt]; lia).
        by replace (Z.to_nat (a - p)) with (S (Z.to_nat (a - (p + 1)))) by lia.
      * rewrite !(proj2 (andb_false_iff _ _)) by (rewrite Z.leb_gt, Z.ltb_ge; lia). done.
Qed.
Lemma buffer_get data a : 0 <= a < Z.of_nat (length data) -> zget (buffer data) a = data !!! Z.to_nat a.
Proof. intros Ha. unfold buffer. rewrite write_bytes_get, Z.sub_0_r. by split_if; [|lia]. Qed.
Lemma write_bytes_ok p data m : Forall is_u8 data -> bytes_ok m -> bytes_ok (write_bytes p data m).
Proof.
  intros Hd Hm a. rewrite write_bytes_get. split_if; [|apply Hm]. rewrite Forall_lookup in Hd. apply (Hd (Z.to_nat (a - p))).
  apply list_lookup_lookup_total_lt. lia.
Qed.
Lemma buffer_bytes data : Forall is_u8 data -> bytes_ok (buffer data).
Proof. intros Hd. by apply write_bytes_ok; [|apply bytes_ok_empty]. Qed.


Lemma rd16_add m p : is_u8 (zget m p) -> rd16 m p = zget m p + zget m (p + 1) * 2 ^ 8.
Proof. intros H. unfold rd16. by apply lor_shiftl_add. Qed.
Lemma rd16_range m p : is_u8 (zget m p) -> is_u8 (zget m (p + 1)) -> is_u16 (rd16 m p).
Proof. intros H1 H2. rewrite rd16_add by done. unfold is_u8, is_u16 in *. lia. Qed.
Lemma rd32_add m p : bytes_ok m -> rd32 m p = rd16 m p + rd16 m (p + 2) * 2 ^ 16.
Proof. intros H. unfold rd32. apply lor_shiftl_add; [done|]. by apply rd16_range. Qed.
Lemma rd32_range m p : bytes_ok m -> is_u32 (rd32 m p).
Proof.
  intros H. rewrite rd32_add by done. pose proof (rd16_range m p (H _) (H _)).
  pose proof (rd16_range m (p + 2) (H _) (H _)). unfold is_u16, is_u32 in *. lia.
Qed.
Lemma rd64_add m p : bytes_ok m -> rd64 m p = rd32 m p + rd32 m (p + 4) * 2 ^ 32.
Proof. intros H. unfold rd64. apply lor_shiftl_add; [done|]. by apply rd32_range. Qed.
Lemma rd64_range m p : bytes_ok m -> is_u64 (rd64 m p).
Proof.
  intros H. rewrite rd64_add by done. pose proof (rd32_range m p H).
  pose proof (rd32_range m (p + 4) H). unfold is_u32, is_u64 in *. lia.
Qed.

(** Storing a little-endian value changes exactly its bytes. *)
Lemma wr32_get m p v a :
  zget (wr32 m p v) a = if (p <=? a) && (a <? p + 4) then u8 (Z.shiftr v ((a - p) * 8)) else zget m a.
Proof. unfold wr32. by rewrite (fold_put_spec m p 4 (fun i => u8 (Z.shiftr v (i * 8)))). Qed.
Lemma wr64_get m p v a :
  zget (wr64 m p v) a = if (p <=? a) && (a <? p + 8) then u8 (Z.shiftr v ((a - p) * 8)) else zget m a.
Proof. unfold wr64. by rewrite (fold_put_spec m p 8 (fun i => u8 (Z.shiftr v (i * 8)))). Qed.
Lemma wr64_bytes_ok m p v : bytes_ok m -> bytes_ok (wr64 m p v).
Proof. intros H a. rewrite wr64_get. split_if; [apply u8_range|apply H]. Qed.
Lemma wr32_bytes_ok m p v : bytes_ok m -> bytes_ok (wr32 m p v).
Proof. intros H a. rewrite wr32_get. split_if; [apply u8_range|apply H]. Qed.
Lemma mem_zero_bytes_ok m p n : 0 <= n -> bytes_ok m -> bytes_ok (mem_zero m p n).
Proof. intros Hn H a. rewrite mem_zero_spec by done. split_if; [unfold is_u8; lia|apply H]. Qed.
#[export] Hint Resolve wr64_bytes_ok wr32_bytes_ok mem_zero_bytes_ok : kernel.

(** Two adjacent little-endian digits of [v]. *)
Lemma digits_join v a b : 0 <= a -> 0 <= b ->
  v mod 2 ^ a + (v / 2 ^ a) mod 2 ^ b * 2 ^ a = v mod 2 ^ (a + b).
Proof. intros Ha Hb. rewrite Z.pow_add_r, Z.rem_mul_r by lia. lia. Qed.
Lemma rd16_wr m p v q :
  zget m q = u8 (Z.shiftr v p) -> zget m (q + 1) = u8 (Z.shiftr v (p + 8)) -> 0 <= p ->
  rd16 m q = u16 (Z.shiftr v p).
Proof.
  intros H1 H2 Hp. rewrite rd16_add by (rewrite H1; apply u8_range). rewrite H1, H2.
  unfold u8, u16. rewrite <- Z.shiftr_shiftr by lia. rewrite (Z.shiftr_div_pow2 _ 8) by lia.
  apply (digits_join _ 8 8); lia.
Qed.
Lemma rd32_wr m p v q :
  bytes_ok m -> (forall i, 0 <= i < 4 -> zget m (q + i) = u8 (Z.shiftr v (p + i * 8))) -> 0 <= p ->
  rd32 m q = u32 (Z.shiftr v p).
Proof.
  intros Hm H Hp. rewrite rd32_add by done.
  rewrite (rd16_wr m p v q); [|by rewrite <- (Z.add_0_r q), H by lia; f_equal; f_equal; lia
                               |by rewrite H by lia|done].
  rewrite (rd16_wr m (p + 16) v (q + 2));
    [|by rewrite H by lia|replace (q + 2 + 1) with (q + 3) by lia;
                          rewrite H by lia; f_equal; f_equal; lia|lia].
  unfold u16, u32. rewrite <- Z.shiftr_shiftr by lia. rewrite (Z.shiftr_div_pow2 _ 16) by lia.
  apply (digits_join _ 16 16); lia.
Qed.
Lemma rd32_wr32 m p v : bytes_ok m -> rd32 (wr32 m p v) p = u32 v.
Proof.
  intros Hm. rewrite (rd32_wr _ 0 v p); [by rewrite Z.shiftr_0_r|auto with kernel| |lia].
  intros i Hi. rewrite wr32_get. split_if; [|lia]. do 2 f_equal. lia.
Qed.
Lemma rd64_wr64 m p v : bytes_ok m -> rd64 (wr64 m p v) p = u64 v.
Proof.
  intros Hm. rewrite rd64_add by auto with kernel.
  rewrite (rd32_wr _ 0 v p); [|auto with kernel| |lia];
    [rewrite (rd32_wr _ 32 v (p + 4)); [|auto with kernel| |lia]|].
  - rewrite Z.shiftr_0_r, (Z.shiftr_div_pow2 v 32) by lia. apply (digits_join v 32 32); lia.
  - intros i Hi. rewrite wr64_get. split_if; [|lia]. do 2 f_equal. lia.
  - intros i Hi. rewrite wr64_get. split_if; [|lia]. do 2 f_equal. lia.
Qed.
(** A read is not affected by stores outside its bytes. *)
Lemma rd32_ext m m' p : (forall i, 0 <= i < 4 -> zget m (p + i) = zget m' (p + i)) -> rd32 m p = rd32 m' p.
Proof.
  intros H. pose proof (H 0 ltac:(lia)) as H0. rewrite Z.add_0_r in H0.
  unfold rd32, rd16. replace (p + 2 + 1) with (p + 3) by lia. rewrite H0, !H by lia. done.
Qed.
Lemma rd64_ext m m' p : (forall i, 0 <= i < 8 -> zget m (p + i) = zget m' (p + i)) -> rd64 m p = rd64 m' p.
Proof.
  intros H. unfold rd64. rewrite (rd32_ext m m' p), (rd32_ext m m' (p + 4)); [done| |].
  - intros i Hi. rewrite <- Z.add_assoc. apply H. lia.
  - intros i Hi. apply H. lia.
Qed.

(** Reading back a 64-bit store, whatever the memory held before. *)
Lemma rd64_stored m p v : rd64 (wr64 m p v) p = u64 v.
Proof.
  rewrite (rd64_ext _ (wr64 ∅ p v)); [apply rd64_wr64, bytes_ok_empty|].
  intros i Hi. rewrite !wr64_get. split_if; [done|lia].
Qed.
Lemma lxor_u64 x y : is_u64 x -> is_u64 y -> u64 (Z.lxor x y) = Z.lxor x y.
Proof.
  intros Hx Hy. apply Z.bits_inj'. intros n Hn. unfold u64. destruct (Z.lt_ge_cases n 64).
  - by rewrite Z.mod_pow2_bits_low.
  - rewrite Z.mod_pow2_bits_high, Z.lxor_spec by lia.
    by rewrite (testbit_high x 64 n), (testbit_high y 64 n).
Qed.

(** The bytes of [m'] are those of [m] with [n] bytes copied from [s] to [d]. *)
Definition copied (m : zmap) (d s n : Z) (m' : zmap) : Prop :=
  forall a, zget m' a = if (d <=? a) && (a <? d + n) then zget m (s + (a - d)) else zget m a.

Lemma copied_step m d s n m' :
  copied m d s n m' -> 0 <= n -> copied m d s (n + 1) (zput m' (d + n) (zget m (s + n))).
Proof.
  intros H Hn a. rewrite zget_put. destruct (Z.eqb_spec (d + n) a) as [<-|].
  - split_if; [f_equal; lia|lia].
  - rewrite H. repeat split_if; try done; lia.
Qed.
Lemma c_string_nonzero m p s i :
  c_string m p s -> 0 <= i <= Z.of_nat (length s) ->
  (zget m (p + i) = 0 <-> i = Z.of_nat (length s)).
Proof.
  intros (Hnz & Hget & Hend) Hi. split; [|by intros ->].
  intros Hz. destruct (Z.eq_dec i (Z.of_nat (length s))) as [|Hne]; [done|exfalso].
  destruct (lookup_lt_is_Some_2 s (Z.to_nat i)) as [c Hc]; [lia|].
  pose proof (Hget _ _ Hc) as Hg. rewrite Z2Nat.id in Hg by lia.
  rewrite Forall_lookup in Hnz. apply (Hnz _ _ Hc). congruence.
Qed.

(** The copy loop of [str_copy]: it leaves through the NUL test exactly when the
    source is shorter than the destination. *)
Lemma str_copy_loop m d s cap str :
  c_string m s str -> 0 < cap -> d + cap <= s \/ s + Z.of_nat (length str) + 1 <= d ->
  match for_range 0 (cap - 1) (fun i m =>
          if zget m (s + i) =? 0 then Exit (zput m (d + i) 0)
          else Next (zput m (d + i) (zget m (s + i)))) m with
  | Next m' => cap - 1 <= Z.of_nat (length str) /\ copied m d s (cap - 1) m'
  | Exit m' => Z.of_nat (length str) < cap - 1 /\
      exists m1, copied m d s (Z.of_nat (length str)) m1 /\
                 m' = zput m1 (d + Z.of_nat (length str)) 0
  end.
Proof.
  intros Hstr Hcap Hdis.
  apply (for_range_inv (fun i m' => i <= Z.of_nat (length str) /\ copied m d s i m')); [lia| |].
  - split; [lia|]. intros a. split_if; [lia|done].
  - intros i t Hi [Hle Ht].
    assert (zget t (s + i) = zget m (s + i)) as -> by (rewrite Ht; split_if; [lia|done]).
    pose proof (c_string_nonzero m s str i Hstr ltac:(lia)) as Hnz.
    destruct (Z.eqb_spec (zget m (s + i)) 0) as [Hz|Hz].
    + assert (i = Z.of_nat (length str)) as -> by tauto. split; [lia|]. by exists t.
    + split; [|apply copied_step; [done|lia]]. assert (i <> Z.of_nat (length str)) by tauto. lia.
Qed.
Lemma str_copy_get m d s cap str a :
  c_string m s str -> 0 < cap -> d + cap <= s \/ s + Z.of_nat (length str) + 1 <= d ->
  zget (str_copy m d s cap) a =
  let n := Z.min (cap - 1) (Z.of_nat (length str)) in
  if (d <=? a) && (a <? d + n) then zget m (s + (a - d))
  else if d + n =? a then 0 else zget m a.
Proof.
  intros Hstr Hcap Hdis. cbv zeta. unfold str_copy. destruct (Z.eqb_spec cap 0); [lia|].
  pose proof (str_copy_loop m d s cap str Hstr Hcap Hdis) as Hloop.
  destruct (for_range _ _ _ _) as [m'|m'].
  - destruct Hloop as [Hle Hc]. rewrite Z.min_l by lia. rewrite zget_put, Hc.
    repeat split_if; try done; lia.
  - destruct Hloop as (Hle & m1 & Hc & ->). rewrite Z.min_r by lia. rewrite zget_put, Hc.
    repeat split_if; try done; lia.
Qed.

(** * Tables updated entry by entry *)
Lemma fold_table {A} `{Inhabited A} (f : A -> bool) (g : A -> A) n (t : table A) j :
  fold_range 0 n (fun i t => if f (t !!! i) then <[i := g (t !!! i)]> t else t) t !!! j =
  if (0 <=? j) && (j <? n) && f (t !!! j) then g (t !!! j) else t !!! j.
Proof.
  destruct (Z.lt_ge_cases n 0) as [Hneg|Hn].
  { rewrite fold_range_nil by lia. by destruct (Z.leb_spec 0 j), (Z.ltb_spec j n); try lia. }
  apply (fold_range_inv (fun k u => u !!! j = if (0 <=? j) && (j <? k) && f (t !!! j) then g (t !!! j) else t !!! j)); [done| |].
  - by destruct (Z.leb_spec 0 j), (Z.ltb_spec j 0); try lia.
  - intros i u Hi IH. destruct (Z.eqb_spec i j) as [<-|Hne].
    + rewrite (proj2 (Z.ltb_ge i i)), andb_false_r in IH by lia. cbn [andb] in IH. rewrite IH.
      rewrite (proj2 (Z.leb_le 0 i)), (proj2 (Z.ltb_lt i (i + 1))) by lia. cbn [andb]. destruct (f (t !!! i)); [|done].
      by rewrite lookup_total_insert_eq.
    + replace (j <? i + 1) with (j <? i) by (destruct (Z.ltb_spec j i), (Z.ltb_spec j (i + 1)); lia).
      rewrite <- IH. destruct (f (u !!! i)); [|done]. by rewrite lookup_total_insert_ne.
Qed.

(** * Alignment *)
Lemma clear_low x k : 0 <= k <= 63 -> is_u64 x -> Z.land x (u64 (Z.lnot (2 ^ k - 1))) = x / 2 ^ k * 2 ^ k.
Proof.
  intros Hk Hx. replace (2 ^ k - 1) with (Z.ones k) by (rewrite Z.ones_equiv; lia).
  transitivity (Z.shiftl (Z.shiftr x k) k); [|rewrite Z.shiftl_mul_pow2, Z.shiftr_div_pow2 by lia; done].
  apply Z.bits_inj'. intros i Hi. rewrite Z.land_spec. unfold u64. destruct (Z.lt_ge_cases i 64).
  - rewrite Z.mod_pow2_bits_low, Z.lnot_spec, Z.testbit_ones by lia. destruct (Z.ltb_spec i k).
    + rewrite (Z.shiftl_spec_low _ k) by lia. rewrite (proj2 (Z.leb_le 0 i)) by lia. by rewrite andb_false_r.
    + rewrite Z.shiftl_spec, Z.shiftr_spec by lia. replace (i - k + k) with i by lia. rewrite andb_false_r. by rewrite andb_true_r.
  - rewrite (testbit_high x 64) by (done || lia). rewrite Z.shiftl_spec, Z.shiftr_spec by lia. rewrite (testbit_high x 64) by (done || lia). done.
Qed.
Lemma align_up_page x : 0 <= x < 2 ^ 63 -> ALIGN_UP x 4096 = (x + 4095) / 4096 * 4096.
Proof.
  intros Hx. unfold ALIGN_UP. unfold u64 at 2. rewrite (Z.mod_small (x + 4096)) by lia. unfold u64 at 1. rewrite (Z.mod_small (x + 4096 - 1)) by lia.
  change (u64 (4096 - 1)) with (2 ^ 12 - 1). rewrite clear_low by (unfold is_u64; lia). change (2 ^ 12) with 4096. do 2 f_equal. lia.
Qed.

(** * Properties *)

(** [memmove] copies the original source bytes to the destination and
    leaves every other byte alone, whatever the overlap of the two blocks. *)
Theorem memmove_correct m d s n a :
  0 <= n ->
  zget (memmove m d s n) a =
  if (d <=? a) && (a <? d + n) then zget m (s + (a - d)) else zget m a.
Proof.
  intros Hn. unfold memmove. destruct (Z.ltb_spec d s).
  - unfold memcpy. apply mem_copy_spec; lia.
  - apply memmove_back_spec; lia.
Qed.
Lemma memmove_correct_witness :
  zget (memmove (zput (zput (zput ∅ 10 1) 11 2) 12 3) 11 10 3) 13 = 3.
Proof. rewrite (memmove_correct _ 11 10 3 13); [reflexivity|lia]. Defined.

(** A 64-bit value stored by [wr64] is read back by [rd64], and the bytes
    outside its eight are unchanged. *)
Theorem wr64_rd64 m p v :
  rd64 (wr64 m p v) p = u64 v /\
  (forall a, a < p \/ p + 8 <= a -> zget (wr64 m p v) a = zget m a).
Proof.
  split; [apply rd64_stored|]. intros a Ha. rewrite wr64_get. split_if; [lia|done].
Qed.
(** [str_copy] into a buffer of [cap] bytes disjoint from the source stores
    the longest prefix of the source that fits, always NUL-terminated, and
    writes nothing outside the buffer. *)
Theorem str_copy_correct m d s cap str :
  c_string m s str -> 0 < cap -> d + cap <= s \/ s + Z.of_nat (length str) + 1 <= d ->
  c_string (str_copy m d s cap) d (take (Z.to_nat (cap - 1)) str) /\
  (forall a, a < d \/ d + cap <= a -> zget (str_copy m d s cap) a = zget m a).
Proof.
  intros Hstr Hcap Hdis. pose proof Hstr as (Hnz & Hget & Hend). split.
  - repeat split.
    + by apply Forall_take.
    + intros i c Hi. apply lookup_take_Some in Hi as [Hi Hlt].
      pose proof (lookup_lt_Some _ _ _ Hi). rewrite (str_copy_get m d s cap str) by done.
      cbv zeta. split_if; [|lia]. rewrite <- (Hget i c Hi). f_equal. lia.
    + rewrite (str_copy_get m d s cap str) by done. cbv zeta. rewrite length_take.
      repeat split_if; try done; lia.
  - intros a Ha. rewrite (str_copy_get m d s cap str) by done. cbv zeta.
    repeat split_if; try done; lia.
Qed.
Lemma str_copy_correct_witness :
  c_string (str_copy (zput (zput ∅ 100 65) 101 66) 200 100 2) 200 [65].
Proof.
  refine (proj1 (str_copy_correct (zput (zput ∅ 100 65) 101 66) 200 100 2 [65; 66] _ _ _)).
  - rewrite !c_string_cons, c_string_nil. split; [lia|]. split; [done|]. split; [lia|done].
  - lia.
  - cbn. lia.
Defined.
