(* ===== verification/Pmm.v ===== *)
(** The physical page allocator, [src/kernel-src/kernel/mm/physical.c].

    Two bitmaps of [PMM_MAX_PAGES] bits are kept as byte stores, exactly as in
    the source; a set bit of [page_bitmap] is a free page, a set bit of
    [eligible_bitmap] a page the firmware handed over at boot.  Each operation
    runs under [pmm_lock] and is one atomic transition of the record [pmm]. *)
From S2P Require Import Prelude Klib.

Definition PMM_MAX_PAGES : Z := 256 * 262144.

(** A descriptor of the EFI memory map; the type codes are the firmware's. *)
Record efi_memory_descriptor := mk_efi_memory_descriptor {
  Type_ : Z;
  PhysicalStart : Z;
  NumberOfPages : Z;
  Attribute : Z
}.

Record pmm := mk_pmm {
  page_bitmap : zmap;
  eligible_bitmap : zmap;
  pmm_free_pages : Z;
  pmm_total_pages_managed : Z;
  pmm_search_cursor : Z;
  pmm_high_page : Z;
  boot_map : list efi_memory_descriptor;
  boot_desc_size : Z
}.
#[export] Instance pmm_updatable : Updatable pmm := fun r =>
  mk_pmm (page_bitmap r) (eligible_bitmap r) (pmm_free_pages r) (pmm_total_pages_managed r)
         (pmm_search_cursor r) (pmm_high_page r) (boot_map r) (boot_desc_size r).

(** * Bitmaps *)
Definition bit_get (b : zmap) (n : Z) : bool :=
  negb (Z.land (Z.shiftr (zget b (Z.shiftr n 3)) (Z.land n 7)) 1 =? 0).
Definition bit_set (b : zmap) (n : Z) : zmap :=
  zput b (Z.shiftr n 3) (Z.lor (zget b (Z.shiftr n 3)) (u8 (Z.shiftl 1 (Z.land n 7)))).
Definition bit_clear (b : zmap) (n : Z) : zmap :=
  zput b (Z.shiftr n 3) (Z.land (zget b (Z.shiftr n 3)) (u8 (Z.lnot (Z.shiftl 1 (Z.land n 7))))).

(** * Boot-time seeding

    [EfiConventionalMemory] is the firmware's type code of ordinary RAM.  The
    result is [None] where the source halts the machine. *)
Definition seed_page (p : Z) (s : pmm) : pmm :=
  if bit_get (eligible_bitmap s) p then s
  else s <| eligible_bitmap ::= (fun b => bit_set b p) |>
         <| page_bitmap ::= (fun b => bit_set b p) |>
         <| pmm_free_pages ::= Z.succ |>
         <| pmm_total_pages_managed ::= Z.succ |>.

Definition seed_descriptor (EfiConventionalMemory : Z) (s : pmm) (d : efi_memory_descriptor) : pmm :=
  if negb (Type_ d =? EfiConventionalMemory) || negb (Z.land (PhysicalStart d) 4095 =? 0) then s
  else
    let first := PhysicalStart d / 4096 in
    if PMM_MAX_PAGES <=? first then s
    else
      let last := first + Z.min (NumberOfPages d) (PMM_MAX_PAGES - first) in
      let first := if first <? 256 then 256 else first in
      let s := fold_range first last seed_page s in
      if pmm_high_page s <? last then s <| pmm_high_page := last |> else s.

Definition pmm_seed_from_efi_map (EfiConventionalMemory sizeof_descriptor : Z) (scheduler_ready : bool)
    (map : option (list efi_memory_descriptor)) (stride : Z) : option pmm :=
  match map with
  | Some descriptors =>
      if scheduler_ready || (stride <? sizeof_descriptor) then None
      else Some (fold_left (seed_descriptor EfiConventionalMemory) descriptors
                   (mk_pmm ∅ ∅ 0 0 0 0 descriptors stride))
  | None => None
  end.

(** * Allocation *)

(** One page of the search loop: [run] free pages have been seen from [start]. *)
Definition scan_page (bitmap : zmap) (count alignment p : Z) (st : Z * Z) : flow (Z * Z) Z :=
  let '(run, start) := st in
  if bit_get bitmap p then
    if (run =? 0) && negb (Z.land p (alignment - 1) =? 0) then Next (run, start)
    else
      let start := if run =? 0 then p else start in
      if run + 1 =? count then Exit start else Next (run + 1, start)
  else Next (0, start).

Definition scan_pass (bitmap : zmap) (count alignment lo hi : Z) : flow (Z * Z) Z :=
  for_range lo hi (scan_page bitmap count alignment) (0, 0).

Definition k_pmm_alloc_aligned (s : pmm) (ram : zmap) (count alignment maximum : Z) : pmm * zmap * Z :=
  if negb (power2 alignment) then (s, ram, 0)
  else if count =? 0 then (s, ram, 0)
  else
    let limit := if maximum =? 0 then pmm_high_page s else Z.min (maximum / 4096) (pmm_high_page s) in
    if (pmm_free_pages s <? count) || (limit <? count) then (s, ram, 0)
    else
      let cursor := if (count =? 1) && (pmm_search_cursor s <? limit) then pmm_search_cursor s else 256 in
      let found :=
        match scan_pass (page_bitmap s) count alignment cursor limit with
        | Exit start => Some start
        | Next _ =>
            match scan_pass (page_bitmap s) count alignment 256 cursor with
            | Exit start => Some start
            | Next _ => None
            end
        end in
      match found with
      | Some start =>
          (s <| page_bitmap ::= (fun b => fold_range start (start + count) (fun j b => bit_clear b j) b) |>
             <| pmm_free_pages ::= (fun n => n - count) |>
             <| pmm_search_cursor := start + count |>,
           mem_zero ram (start * 4096) (count * 4096),
           start * 4096)
      | None => (s, ram, 0)
      end.

Definition k_pmm_alloc_pages (s : pmm) (ram : zmap) (n max : Z) : pmm * zmap * Z :=
  k_pmm_alloc_aligned s ram n 1 max.
Definition pmm_alloc_page (s : pmm) (ram : zmap) : pmm * zmap * Z := k_pmm_alloc_pages s ram 1 0.

(** * Release: refused as a whole when one page is foreign or already free. *)
Definition k_pmm_free_pages (s : pmm) (phys count : Z) : pmm :=
  if (count =? 0) || negb (Z.land phys 4095 =? 0) || (PMM_MAX_PAGES <=? phys / 4096)
     || (PMM_MAX_PAGES - phys / 4096 <? count) then s
  else
    let start := phys / 4096 in
    if any_range start (start + count) (fun p =>
         negb (bit_get (eligible_bitmap s) p) || bit_get (page_bitmap s) p) then s
    else
      let s := s <| page_bitmap ::= (fun b => fold_range start (start + count) (fun j b => bit_set b j) b) |>
                 <| pmm_free_pages ::= (fun n => n + count) |> in
      if start <? pmm_search_cursor s then s <| pmm_search_cursor := start |> else s.
Definition pmm_free_page (s : pmm) (phys : Z) : pmm := k_pmm_free_pages s phys 1.

(** * Statistics *)
Definition k_pmm_free_count (s : pmm) : Z := pmm_free_pages s.
Definition kernel_pmm_managed_mib (s : pmm) : Z := pmm_total_pages_managed s / 256.
Definition kernel_pmm_free_mib (s : pmm) : Z := k_pmm_free_count s / 256.
Definition kernel_pmm_used_mib (s : pmm) : Z := (pmm_total_pages_managed s - k_pmm_free_count s) / 256.

(** * Bitmap lemmas *)
Lemma land7_mod n : Z.land n 7 = n mod 8.
Proof. change 7 with (Z.ones 3). by rewrite Z.land_ones. Qed.
Lemma shiftr3_div n : Z.shiftr n 3 = n / 8.
Proof. by rewrite Z.shiftr_div_pow2. Qed.

Lemma bit_get_testbit b n : bit_get b n = Z.testbit (zget b (n / 8)) (n mod 8).
Proof.
  unfold bit_get. rewrite shiftr3_div, land7_mod. pose proof (Z.mod_pos_bound n 8 ltac:(lia)).
  change 1 with (Z.ones 1) at 1. rewrite Z.land_ones, Z.shiftr_div_pow2 by lia.
  rewrite Z.testbit_eqb by lia. change (2 ^ 1) with 2.
  pose proof (Z.mod_pos_bound (zget b (n / 8) / 2 ^ (n mod 8)) 2 ltac:(lia)).
  destruct (Z.eqb_spec (zget b (n / 8) / 2 ^ (n mod 8) mod 2) 0),
           (Z.eqb_spec (zget b (n / 8) / 2 ^ (n mod 8) mod 2) 1); try done; lia.
Qed.
Lemma bit_set_mask k j : 0 <= k < 8 -> 0 <= j -> Z.testbit (u8 (Z.shiftl 1 k)) j = (k =? j).
Proof.
  intros Hk Hj. rewrite Z.shiftl_1_l. unfold u8. rewrite Z.mod_small.
  - apply Z.pow2_bits_eqb. lia.
  - split; [apply Z.pow_nonneg; lia|apply Z.pow_lt_mono_r; lia].
Qed.
Lemma bit_clear_mask k j : 0 <= k < 8 -> 0 <= j < 8 ->
  Z.testbit (u8 (Z.lnot (Z.shiftl 1 k))) j = negb (k =? j).
Proof.
  intros Hk Hj. unfold u8. rewrite Z.mod_pow2_bits_low by lia. rewrite Z.lnot_spec by lia.
  rewrite Z.shiftl_1_l, Z.pow2_bits_eqb by lia. done.
Qed.

Lemma bit_set_get b n m : bit_get (bit_set b n) m = (n =? m) || bit_get b m.
Proof.
  rewrite !bit_get_testbit. unfold bit_set. rewrite shiftr3_div, land7_mod, zget_put.
  pose proof (Z.mod_pos_bound n 8 ltac:(lia)). pose proof (Z.mod_pos_bound m 8 ltac:(lia)).
  destruct (Z.eqb_spec (n / 8) (m / 8)) as [He|Hne].
  - rewrite Z.lor_spec, bit_set_mask, He by lia. rewrite orb_comm. f_equal.
    destruct (Z.eqb_spec (n mod 8) (m mod 8)), (Z.eqb_spec n m); try done; dlia.
  - destruct (Z.eqb_spec n m) as [->|]; [lia|done].
Qed.
Lemma bit_clear_get b n m : bit_get (bit_clear b n) m = negb (n =? m) && bit_get b m.
Proof.
  rewrite !bit_get_testbit. unfold bit_clear. rewrite shiftr3_div, land7_mod, zget_put.
  pose proof (Z.mod_pos_bound n 8 ltac:(lia)). pose proof (Z.mod_pos_bound m 8 ltac:(lia)).
  destruct (Z.eqb_spec (n / 8) (m / 8)) as [He|Hne].
  - rewrite Z.land_spec, bit_clear_mask, He by lia. rewrite andb_comm. f_equal.
    destruct (Z.eqb_spec (n mod 8) (m mod 8)), (Z.eqb_spec n m); try done; dlia.
  - destruct (Z.eqb_spec n m) as [->|]; [lia|done].
Qed.
Lemma bit_set_range_get b lo hi m :
  lo <= hi ->
  bit_get (fold_range lo hi (fun j b => bit_set b j) b) m = (lo <=? m) && (m <? hi) || bit_get b m.
Proof.
  intros Hle. apply (fold_range_inv (fun k b' =>
    bit_get b' m = (lo <=? m) && (m <? k) || bit_get b m)); [done| |].
  - destruct (Z.leb_spec lo m), (Z.ltb_spec m lo); try done; lia.
  - intros i b' Hi IH. rewrite bit_set_get, IH.
    destruct (Z.eqb_spec i m), (Z.leb_spec lo m), (Z.ltb_spec m i), (Z.ltb_spec m (i + 1)); try done; lia.
Qed.
Lemma bit_clear_range_get b lo hi m :
  lo <= hi ->
  bit_get (fold_range lo hi (fun j b => bit_clear b j) b) m =
  negb ((lo <=? m) && (m <? hi)) && bit_get b m.
Proof.
  intros Hle. apply (fold_range_inv (fun k b' =>
    bit_get b' m = negb ((lo <=? m) && (m <? k)) && bit_get b m)); [done| |].
  - destruct (Z.leb_spec lo m), (Z.ltb_spec m lo); try done; lia.
  - intros i b' Hi IH. rewrite bit_clear_get, IH.
    destruct (Z.eqb_spec i m), (Z.leb_spec lo m), (Z.ltb_spec m i), (Z.ltb_spec m (i + 1)); try done; lia.
Qed.

(** * The search loop *)

(** A block of [count] free pages whose first page is a multiple of [alignment]. *)
Definition free_run (bitmap : zmap) (count alignment q : Z) : Prop :=
  Z.land q (alignment - 1) = 0 /\ (forall j, q <= j < q + count -> bit_get bitmap j = true).

Section Scan.
Context (bitmap : zmap) (count alignment lo hi : Z).
Hypothesis Hcount : 0 < count.

(** Before page [p]: the current run is maximal, and no block ends before [p]. *)
Definition scan_inv (p : Z) (st : Z * Z) : Prop :=
  let '(run, start) := st in
  0 <= run < count /\
  (0 < run -> start = p - run /\ lo <= start /\ Z.land start (alignment - 1) = 0 /\
              forall j, start <= j < p -> bit_get bitmap j = true) /\
  (forall q, lo <= q < p -> Z.land q (alignment - 1) = 0 ->
             (forall j, q <= j < p -> bit_get bitmap j = true) -> 0 < run /\ start <= q) /\
  (forall q, lo <= q -> q + count <= p -> ~ free_run bitmap count alignment q).

Definition scan_found (start : Z) : Prop :=
  lo <= start /\ start + count <= hi /\ free_run bitmap count alignment start.

Lemma scan_step p st :
  lo <= p < hi -> scan_inv p st ->
  match scan_page bitmap count alignment p st with
  | Next st' => scan_inv (p + 1) st'
  | Exit start => scan_found start
  end.
Proof.
  destruct st as [run start]. intros Hp (Hrun & Hstart & Hcand & Hnone). unfold scan_page.
  destruct (bit_get bitmap p) eqn:Hfree.
  - destruct ((run =? 0) && negb (Z.land p (alignment - 1) =? 0)) eqn:Hskip; reflect_bools.
    + (* an unaligned page cannot start a block *)
      subst run. unfold scan_inv. split; [lia|]. split; [lia|]. split.
      * intros q Hq Hal Hall. destruct (Z.eq_dec q p) as [->|]; [done|].
        apply Hcand; [lia|done|]. intros j Hj. apply Hall. lia.
      * intros q Hq Hend [Hal Hall]. destruct (Z.eq_dec q p) as [->|]; [done|].
        destruct (Z.le_gt_cases (q + count) p); [by apply (Hnone q)|].
        destruct (Hcand q) as [? _]; [lia|done| |lia]. intros j Hj. apply Hall. lia.
    + set (start' := if run =? 0 then p else start).
      assert (start' = p - run /\ lo <= start' /\ Z.land start' (alignment - 1) = 0 /\
              (forall j, start' <= j < p + 1 -> bit_get bitmap j = true)) as (Hs & Hlo & Hal & Hall).
      { subst start'. destruct (Z.eqb_spec run 0) as [->|Hne].
        - destruct Hskip as [|Hskip]; [done|]. reflect_bools. repeat split; try lia.
          intros j Hj. by replace j with p by lia.
        - destruct Hstart as (? & ? & ? & Hall); [lia|]. repeat split; try done.
          intros j Hj. destruct (Z.eq_dec j p) as [->|]; [done|apply Hall; lia]. }
      destruct (Z.eqb_spec (run + 1) count) as [Heq|Hneq].
      * split; [done|]. split; [lia|]. split; [done|]. intros j Hj. apply Hall. lia.
      * unfold scan_inv. split; [lia|]. split; [intros _; repeat split; try done; lia|]. split.
        -- intros q Hq Hqal Hqall. split; [lia|].
           destruct (Z.eq_dec q p) as [->|]; [lia|].
           destruct (Hcand q) as [? ?]; [lia|done| |].
           { intros j Hj. apply Hqall. lia. }
           destruct Hstart as (? & _); [done|]. lia.
        -- intros q Hq Hend [Hqal Hqall].
           destruct (Z.le_gt_cases (q + count) p); [by apply (Hnone q)|].
           destruct (Z.eq_dec q p) as [->|]; [lia|].
           destruct (Hcand q) as [? ?]; [lia|done| |].
           { intros j Hj. apply Hqall. lia. }
           destruct Hstart as (? & _); [done|]. lia.
  - unfold scan_inv. split; [lia|]. split; [lia|]. split.
    + intros q Hq Hal Hall. rewrite Hall in Hfree by lia. done.
    + intros q Hq Hend [Hal Hall]. destruct (Z.le_gt_cases (q + count) p); [by apply (Hnone q)|].
      rewrite Hall in Hfree by lia. done.
Qed.

(** The pass is sound and complete: it finds a block when there is one. *)
Lemma scan_pass_spec :
  match scan_pass bitmap count alignment lo hi with
  | Exit start => scan_found start
  | Next _ => forall q, lo <= q -> q + count <= hi -> ~ free_run bitmap count alignment q
  end.
Proof.
  unfold scan_pass. destruct (Z.le_gt_cases lo hi) as [Hle|Hgt].
  - pose proof (for_range_inv scan_inv scan_found (scan_page bitmap count alignment) lo hi (0, 0) Hle)
      as Hloop.
    destruct (for_range _ _ _ _) as [[run start]|r].
    + destruct Hloop as (_ & _ & _ & Hnone); [| |done].
      * split; [lia|]. split; [lia|]. split; intros; lia.
      * intros p st. apply scan_step.
    + apply Hloop; [|intros p st; apply scan_step].
      split; [lia|]. split; [lia|]. split; intros; lia.
  - rewrite for_range_nil by lia. intros; lia.
Qed.
End Scan.

(** * Invariant of the allocator *)
Record pmm_inv (s : pmm) : Prop := {
  inv_high : 0 <= pmm_high_page s <= PMM_MAX_PAGES;
  inv_cursor : 0 <= pmm_search_cursor s;
  inv_eligible : forall p, bit_get (eligible_bitmap s) p = true -> 256 <= p < pmm_high_page s;
  inv_free : forall p, bit_get (page_bitmap s) p = true -> bit_get (eligible_bitmap s) p = true;
  inv_free_count : pmm_free_pages s = count_range 0 PMM_MAX_PAGES (bit_get (page_bitmap s));
  inv_total : pmm_total_pages_managed s = count_range 0 PMM_MAX_PAGES (bit_get (eligible_bitmap s))
}.

(** The highest page an allocation may touch. *)
Definition alloc_limit (s : pmm) (maximum : Z) : Z :=
  if maximum =? 0 then pmm_high_page s else Z.min (maximum / 4096) (pmm_high_page s).

Lemma free_run_count s count alignment q :
  pmm_inv s -> 0 < count -> free_run (page_bitmap s) count alignment q ->
  256 <= q /\ q + count <= pmm_high_page s /\ count <= pmm_free_pages s.
Proof.
  intros Hs Hc [Hal Hall].
  assert (forall j, q <= j < q + count -> 256 <= j < pmm_high_page s) as Hr.
  { intros j Hj. apply (inv_eligible s Hs), (inv_free s Hs), Hall, Hj. }
  pose proof (Hr q ltac:(lia)). pose proof (Hr (q + count - 1) ltac:(lia)).
  pose proof (inv_high s Hs). split; [lia|]. split; [lia|].
  rewrite (inv_free_count s Hs), (count_range_app 0 q), (count_range_app q (q + count)) by lia.
  rewrite (count_range_const q (q + count) _ true) by (done || lia).
  pose proof (count_range_bounds 0 q (bit_get (page_bitmap s)) ltac:(lia)).
  pose proof (count_range_bounds (q + count) PMM_MAX_PAGES (bit_get (page_bitmap s)) ltac:(lia)). lia.
Qed.

(** What [k_pmm_alloc_aligned] does, in terms of blocks of free pages. *)
Inductive alloc_spec (s : pmm) (ram : zmap) (count alignment maximum : Z) : pmm * zmap * Z -> Prop :=
  | alloc_found start :
      256 <= start -> start + count <= alloc_limit s maximum ->
      free_run (page_bitmap s) count alignment start ->
      alloc_spec s ram count alignment maximum
        (s <| page_bitmap ::= (fun b => fold_range start (start + count) (fun j b => bit_clear b j) b) |>
           <| pmm_free_pages ::= (fun n => n - count) |>
           <| pmm_search_cursor := start + count |>,
         mem_zero ram (start * 4096) (count * 4096), start * 4096)
  | alloc_none :
      (forall q, 256 <= q -> q + count <= alloc_limit s maximum ->
                 ~ free_run (page_bitmap s) count alignment q) ->
      alloc_spec s ram count alignment maximum (s, ram, 0).

Lemma alloc_aligned_spec s ram count alignment maximum :
  pmm_inv s -> 0 < count -> power2 alignment = true ->
  alloc_spec s ram count alignment maximum (k_pmm_alloc_aligned s ram count alignment maximum).
Proof.
  intros Hs Hc Hal. unfold k_pmm_alloc_aligned. rewrite Hal. cbn [negb].
  destruct (Z.eqb_spec count 0); [lia|]. cbv zeta. fold (alloc_limit s maximum).
  set (limit := alloc_limit s maximum).
  destruct ((pmm_free_pages s <? count) || (limit <? count)) eqn:Hguard.
  { apply alloc_none. intros q Hq Hend Hrun.
    destruct (free_run_count s count alignment q Hs Hc Hrun) as (_ & _ & ?).
    reflect_bools. destruct Hguard; reflect_bools; lia. }
  set (cursor := if (count =? 1) && (pmm_search_cursor s <? limit) then pmm_search_cursor s else 256).
  pose proof (scan_pass_spec (page_bitmap s) count alignment cursor limit Hc) as H1.
  pose proof (scan_pass_spec (page_bitmap s) count alignment 256 cursor Hc) as H2.
  assert (cursor = 256 \/ count = 1 /\ 0 <= cursor < limit) as Hcur.
  { subst cursor. pose proof (inv_cursor s Hs). split_if; lia. }
  destruct (scan_pass _ _ _ cursor limit) as [|start].
  - destruct (scan_pass _ _ _ 256 cursor) as [|start].
    + apply alloc_none. intros q Hq Hend. destruct (Z.le_gt_cases cursor q); [by apply H1|apply H2; lia].
    + destruct H2 as (Hlo & Hhi & Hrun). apply alloc_found; [done|lia|done].
  - destruct H1 as (Hlo & Hhi & Hrun). apply alloc_found; [|done|done].
    by destruct (free_run_count s count alignment start Hs Hc Hrun).
Qed.

(** * Preservation of the invariant *)
Lemma seed_page_inv_eligible (s : pmm) p q :
  bit_get (eligible_bitmap (seed_page p s)) q = (p =? q) || bit_get (eligible_bitmap s) q.
Proof.
  unfold seed_page. destruct (bit_get (eligible_bitmap s) p) eqn:He; cbn.
  - destruct (Z.eqb_spec p q) as [<-|]; [done|done].
  - apply bit_set_get.
Qed.

Record seed_inv (top : Z) (s : pmm) : Prop := {
  seed_cursor : pmm_search_cursor s = 0;
  seed_high : 0 <= pmm_high_page s <= PMM_MAX_PAGES;
  seed_eligible : forall p, bit_get (eligible_bitmap s) p = true ->
                            256 <= p < Z.max top (pmm_high_page s);
  seed_free : forall p, bit_get (page_bitmap s) p = bit_get (eligible_bitmap s) p;
  seed_count : pmm_free_pages s = count_range 0 PMM_MAX_PAGES (bit_get (page_bitmap s));
  seed_total : pmm_total_pages_managed s = pmm_free_pages s
}.
Lemma seed_page_inv p s :
  256 <= p < PMM_MAX_PAGES -> seed_inv p s -> seed_inv (p + 1) (seed_page p s).
Proof.
  intros Hp [Hc Hh He Hf Hn Ht]. unfold seed_page.
  destruct (bit_get (eligible_bitmap s) p) eqn:Hbit; split; cbn; try done.
  - intros q Hq. specialize (He q Hq). lia.
  - intros q. rewrite bit_set_get. intros Hq. reflect_bools.
    destruct Hq as [Hq|Hq]; reflect_bools; [lia|]. specialize (He q Hq). lia.
  - intros q. by rewrite !bit_set_get, Hf.
  - rewrite Hn. symmetry. apply (count_range_set 0 PMM_MAX_PAGES _ _ p).
    + lia.
    + by rewrite Hf.
    + by rewrite bit_set_get, Z.eqb_refl.
    + intros i Hi Hne. rewrite bit_set_get. by destruct (Z.eqb_spec p i); [lia|].
  - by rewrite Ht.
Qed.
Lemma seed_descriptor_inv code s d :
  0 <= PhysicalStart d -> 0 <= NumberOfPages d -> seed_inv 0 s -> seed_inv 0 (seed_descriptor code s d).
Proof.
  intros Hps Hnp Hs. unfold seed_descriptor. split_if; [done|]. cbv zeta.
  destruct (Z.leb_spec PMM_MAX_PAGES (PhysicalStart d / 4096)) as [|Hlt]; [done|].
  set (first := PhysicalStart d / 4096) in *. assert (0 <= first) by (subst first; dlia).
  set (last := first + Z.min (NumberOfPages d) (PMM_MAX_PAGES - first)).
  set (f := if first <? 256 then 256 else first).
  assert (256 <= f) by (subst f; split_if; lia).
  assert (seed_inv last (fold_range f last seed_page s)) as Hfold.
  { destruct (Z.le_gt_cases f last) as [Hle|Hgt].
    - apply (fold_range_inv (fun i t => seed_inv i t)); [done| |].
      + destruct Hs as [Hc Hh He Hf Hn Ht]. split; try done. intros p Hp. specialize (He p Hp). lia.
      + intros i t Hi. apply seed_page_inv. lia.
    - rewrite fold_range_nil by lia.
      destruct Hs as [Hc Hh He Hf Hn Ht]. split; try done. intros p Hp. specialize (He p Hp). lia. }
  destruct Hfold as [Hc Hh He Hf Hn Ht].
  destruct (Z.ltb_spec (pmm_high_page (fold_range f last seed_page s)) last); split; cbn; try done.
  - lia.
  - intros p Hp. specialize (He p Hp). lia.
  - intros p Hp. specialize (He p Hp). lia.
Qed.
Lemma seed_empty_inv descriptors stride : seed_inv 0 (mk_pmm ∅ ∅ 0 0 0 0 descriptors stride).
Proof.
  assert (forall p, bit_get ∅ p = false) as Hb.
  { intros p. rewrite bit_get_testbit, zget_empty. apply Z.testbit_0_l. }
  split; cbn; try done.
  - intros p. by rewrite Hb.
  - rewrite (count_range_const 0 PMM_MAX_PAGES _ false); [done|unfold PMM_MAX_PAGES; lia|auto].
Qed.
Lemma seed_fold_inv code ds s :
  (forall d, d ∈ ds -> 0 <= PhysicalStart d /\ 0 <= NumberOfPages d) ->
  seed_inv 0 s -> seed_inv 0 (fold_left (seed_descriptor code) ds s).
Proof.
  revert s. induction ds as [|d ds IH]; intros s Hd Hs; [done|]. cbn [fold_left].
  apply IH; [intros d' Hd'; apply Hd; by right|].
  destruct (Hd d) as [? ?]; [by left|]. by apply seed_descriptor_inv.
Qed.
Lemma pmm_seed_inv code size ready map stride s :
  pmm_seed_from_efi_map code size ready map stride = Some s ->
  (forall d, d ∈ boot_map s -> 0 <= PhysicalStart d /\ 0 <= NumberOfPages d) ->
  pmm_inv s.
Proof.
  unfold pmm_seed_from_efi_map. destruct map as [ds|]; [|done]. split_if; [done|].
  intros [= <-].
  assert (forall l t, boot_map (fold_left (seed_descriptor code) l t) = boot_map t) as Hmap.
  { assert (forall f l t, boot_map (fold_range f l seed_page t) = boot_map t) as Hfold.
    { intros f l t. destruct (Z.le_gt_cases f l); [|by rewrite fold_range_nil by lia].
      apply (fold_range_inv (fun _ u => boot_map u = boot_map t)); [done|done|].
      intros i u _ <-. unfold seed_page. by destruct (bit_get _ _). }
    induction l as [|d l IH]; intros t; [done|]. cbn [fold_left]. rewrite IH.
    unfold seed_descriptor. repeat split_if; try done; cbn; apply Hfold. }
  rewrite Hmap. cbn [boot_map]. intros Hd.
  assert (seed_inv 0 (fold_left (seed_descriptor code) ds (mk_pmm ∅ ∅ 0 0 0 0 ds stride))) as Hinv.
  { apply seed_fold_inv; [done|apply seed_empty_inv]. }
  destruct Hinv as [Hc Hh He Hf Hn Ht]. split.
  - done.
  - lia.
  - intros p Hp. specialize (He p Hp). lia.
  - intros p Hp. by rewrite <- Hf.
  - done.
  - rewrite Ht, Hn. apply count_range_ext. intros. apply Hf.
Qed.
Lemma pmm_alloc_inv s ram count alignment maximum s' ram' r :
  pmm_inv s -> 0 < count -> power2 alignment = true ->
  k_pmm_alloc_aligned s ram count alignment maximum = (s', ram', r) -> pmm_inv s'.
Proof.
  intros Hs Hc Hal Heq. pose proof (alloc_aligned_spec s ram count alignment maximum Hs Hc Hal) as Hspec.
  rewrite Heq in Hspec. inversion Hspec as [start Hlo Hhi Hrun|]; subst; [|done].
  destruct (free_run_count s count alignment start Hs Hc Hrun) as (_ & Hhigh & _).
  destruct Hrun as [_ Hall]. pose proof (inv_high s Hs). destruct Hs as [Hh Hcur He Hf Hn Ht].
  split; cbn; try done.
  - lia.
  - intros p. rewrite bit_clear_range_get by lia. intros Hp. reflect_bools. by apply Hf.
  - rewrite Hn. rewrite (count_range_clear 0 start (start + count) PMM_MAX_PAGES _ (bit_get
      (fold_range start (start + count) (fun j b => bit_clear b j) (page_bitmap s)))); try lia; try done.
    + intros i Hi. rewrite bit_clear_range_get by lia.
      destruct (Z.leb_spec start i), (Z.ltb_spec i (start + count)); try done; lia.
    + intros i Hi Hout. rewrite bit_clear_range_get by lia.
      destruct (Z.leb_spec start i), (Z.ltb_spec i (start + count)); try done; lia.
Qed.
(** Either the release is refused, or every page was owned and is free now. *)
Lemma pmm_free_cases s phys count :
  0 <= phys -> 0 <= count ->
  k_pmm_free_pages s phys count = s \/
  (0 < count /\ phys mod 4096 = 0 /\ phys / 4096 + count <= PMM_MAX_PAGES /\
   (forall p, phys / 4096 <= p < phys / 4096 + count ->
      bit_get (eligible_bitmap s) p = true /\ bit_get (page_bitmap s) p = false) /\
   exists c, k_pmm_free_pages s phys count =
     s <| page_bitmap ::= (fun b => fold_range (phys / 4096) (phys / 4096 + count) (fun j b => bit_set b j) b) |>
       <| pmm_free_pages ::= (fun n => n + count) |> <| pmm_search_cursor := c |> /\
     c = Z.min (phys / 4096) (pmm_search_cursor s)).
Proof.
  intros Hp Hc. unfold k_pmm_free_pages. split_if; [by left|]. cbv zeta.
  destruct (any_range _ _ _) eqn:Hany; [by left|]. right.
  assert (Z.land phys 4095 = phys mod 4096) as Hm by (change 4095 with (Z.ones 12); by rewrite Z.land_ones).
  split; [lia|]. split; [lia|]. split; [lia|]. split.
  - intros p Hrange.
    destruct (negb (bit_get (eligible_bitmap s) p) || bit_get (page_bitmap s) p) eqn:Hbad.
    + rewrite (proj2 (any_range_spec _ _ _)) in Hany; [done|]. by exists p.
    + reflect_bools. done.
  - cbn [pmm_search_cursor modify]. destruct (Z.ltb_spec (phys / 4096) (pmm_search_cursor s)).
    + exists (phys / 4096). split; [done|lia].
    + exists (pmm_search_cursor s). split; [by destruct s|lia].
Qed.
Lemma pmm_free_ok s phys count :
  0 <= phys -> 0 < count -> phys mod 4096 = 0 -> phys / 4096 + count <= PMM_MAX_PAGES ->
  (forall p, phys / 4096 <= p < phys / 4096 + count ->
     bit_get (eligible_bitmap s) p = true /\ bit_get (page_bitmap s) p = false) ->
  k_pmm_free_pages s phys count =
  s <| page_bitmap ::= (fun b => fold_range (phys / 4096) (phys / 4096 + count) (fun j b => bit_set b j) b) |>
    <| pmm_free_pages ::= (fun n => n + count) |>
    <| pmm_search_cursor := Z.min (phys / 4096) (pmm_search_cursor s) |>.
Proof.
  intros Hp Hc Hal Hmax Hown. unfold k_pmm_free_pages.
  assert (Z.land phys 4095 = phys mod 4096) as Hm by (change 4095 with (Z.ones 12); by rewrite Z.land_ones).
  rewrite Hm, Hal, Z.eqb_refl. cbn [negb orb].
  rewrite (proj2 (Z.eqb_neq count 0)), (proj2 (Z.leb_gt _ _)), (proj2 (Z.ltb_ge _ _)) by lia. cbn [orb].
  destruct (any_range _ _ _) eqn:Hany.
  - apply any_range_spec in Hany as (p & Hrange & Hbad). destruct (Hown p Hrange) as [He Hf].
    rewrite He, Hf in Hbad. done.
  - cbn [pmm_search_cursor modify]. destruct (Z.ltb_spec (phys / 4096) (pmm_search_cursor s)).
    + by rewrite Z.min_l by lia.
    + rewrite Z.min_r by lia. by destruct s.
Qed.
(** A non-zero result comes from a block of free pages. *)
Lemma alloc_nonzero s ram count alignment maximum s' ram' r :
  pmm_inv s -> is_u32 count ->
  k_pmm_alloc_aligned s ram count alignment maximum = (s', ram', r) -> r <> 0 ->
  exists start, 0 < count /\ 256 <= start /\ start + count <= pmm_high_page s /\
    free_run (page_bitmap s) count alignment start /\ r = start * 4096 /\
    s' = s <| page_bitmap ::= (fun b => fold_range start (start + count) (fun j b => bit_clear b j) b) |>
           <| pmm_free_pages ::= (fun n => n - count) |> <| pmm_search_cursor := start + count |> /\
    ram' = mem_zero ram (start * 4096) (count * 4096) /\ start + count <= alloc_limit s maximum.
Proof.
  intros Hs Hc Heq Hr. unfold is_u32 in Hc.
  assert (power2 alignment = true /\ 0 < count) as [Hal Hpos].
  { unfold k_pmm_alloc_aligned in Heq. destruct (power2 alignment); cbn [negb] in Heq; [|by simplify_eq].
    destruct (Z.eqb_spec count 0); [by simplify_eq|]. split; [done|lia]. }
  pose proof (alloc_aligned_spec s ram count alignment maximum Hs Hpos Hal) as Hspec.
  rewrite Heq in Hspec. inversion Hspec as [start Hlo Hhi Hrun|]; subst; [|done].
  destruct (free_run_count s count alignment start Hs Hpos Hrun) as (_ & Hhigh & _).
  by exists start.
Qed.
Lemma pmm_free_inv s phys count :
  pmm_inv s -> 0 <= phys -> 0 <= count -> pmm_inv (k_pmm_free_pages s phys count).
Proof.
  intros Hs Hp Hc.
  destruct (pmm_free_cases s phys count Hp Hc) as [->|(Hpos & Hal & Hmax & Hown & c & -> & Hcur)]; [done|].
  assert (0 <= phys / 4096) by dlia. destruct Hs as [Hh Hc0 He Hf Hn Ht]. split; cbn; try done.
  - lia.
  - intros p. rewrite bit_set_range_get by lia. intros Hb. reflect_bools.
    destruct Hb as [Hb|Hb]; [|by apply Hf]. reflect_bools. apply Hown. lia.
  - rewrite Hn. rewrite (count_range_clear 0 (phys / 4096) (phys / 4096 + count) PMM_MAX_PAGES
      (bit_get (fold_range (phys / 4096) (phys / 4096 + count) (fun j b => bit_set b j) (page_bitmap s)))
      (bit_get (page_bitmap s))); try lia.
    + intros i Hi. rewrite bit_set_range_get by lia.
      destruct (Z.leb_spec (phys / 4096) i), (Z.ltb_spec i (phys / 4096 + count)); try done; lia.
    + intros i Hi. by apply Hown.
    + intros i Hi Hout. rewrite bit_set_range_get by lia.
      destruct (Z.leb_spec (phys / 4096) i), (Z.ltb_spec i (phys / 4096 + count)); try done; lia.
Qed.

(** * Reachable states

    Any sequence of allocations and releases after boot-time seeding. *)
Inductive pmm_reachable : pmm -> Prop :=
  | reach_seed code size ready map stride s :
      pmm_seed_from_efi_map code size ready map stride = Some s ->
      (forall d, d ∈ boot_map s -> is_u64 (PhysicalStart d) /\ is_u64 (NumberOfPages d)) ->
      pmm_reachable s
  | reach_alloc s ram count alignment maximum s' ram' r :
      pmm_reachable s -> is_u32 count -> is_u32 alignment ->
      k_pmm_alloc_aligned s ram count alignment maximum = (s', ram', r) -> pmm_reachable s'
  | reach_free s phys count :
      pmm_reachable s -> is_u64 phys -> is_u32 count -> pmm_reachable (k_pmm_free_pages s phys count).

(** A three-page machine used by the witnesses: pages 256 to 258 are RAM. *)
Definition demo_map : list efi_memory_descriptor := [mk_efi_memory_descriptor 7 0x100000 3 0].
Definition demo_pmm : pmm :=
  default (mk_pmm ∅ ∅ 0 0 0 0 [] 0) (pmm_seed_from_efi_map 7 40 false (Some demo_map) 48).
Lemma demo_seed : pmm_seed_from_efi_map 7 40 false (Some demo_map) 48 = Some demo_pmm.
Proof. vm_compute. reflexivity. Qed.
Lemma demo_inv : pmm_inv demo_pmm.
Proof.
  apply (pmm_seed_inv 7 40 false (Some demo_map) 48); [exact demo_seed|].
  intros d Hd. change (boot_map demo_pmm) with demo_map in Hd.
  apply list_elem_of_singleton in Hd as ->. cbn. lia.
Qed.

(** * Properties *)


(** C32: a successful allocation returns a block of [count] pages that is
    aligned as asked, lies above 1 MiB and below the caller's limit, was
    entirely free, is now entirely owned and zero-filled; every other page and
    every byte outside the block is untouched. *)
Theorem pmm_alloc_sound s ram count alignment maximum s' ram' r :
  pmm_inv s -> is_u32 count -> is_u64 maximum ->
  k_pmm_alloc_aligned s ram count alignment maximum = (s', ram', r) -> r <> 0 ->
  r mod 4096 = 0 /\ Z.land (r / 4096) (alignment - 1) = 0 /\ 0x100000 <= r /\
  (maximum <> 0 -> r + count * 4096 <= maximum) /\
  (forall p, r / 4096 <= p < r / 4096 + count ->
     bit_get (page_bitmap s) p = true /\ bit_get (page_bitmap s') p = false) /\
  (forall p, p < r / 4096 \/ r / 4096 + count <= p ->
     bit_get (page_bitmap s') p = bit_get (page_bitmap s) p) /\
  (forall a, zget ram' a = if (r <=? a) && (a <? r + count * 4096) then 0 else zget ram a) /\
  pmm_free_pages s' = pmm_free_pages s - count.
Proof.
  intros Hs Hc Hmax Heq Hr.
  destruct (alloc_nonzero _ _ _ _ _ _ _ _ Hs Hc Heq Hr)
    as (start & Hpos & Hlo & Hhigh & [Hst Hall] & -> & -> & -> & Hlim). clear Hr Heq.
  rewrite Z.mod_mul, Z.div_mul by lia. repeat split; cbn; try done; try lia.
  - intros Hne. unfold alloc_limit in Hlim. destruct (Z.eqb_spec maximum 0); [done|]. dlia.
  - by apply Hall.
  - rewrite bit_clear_range_get by lia.
    destruct (Z.leb_spec start p), (Z.ltb_spec p (start + count)); try done; lia.
  - intros p Hp. rewrite bit_clear_range_get by lia.
    destruct (Z.leb_spec start p), (Z.ltb_spec p (start + count)); try done; lia.
  - intros a. rewrite mem_zero_spec by lia. done.
Qed.
Lemma pmm_alloc_sound_witness :
  let '(s', ram', r) := k_pmm_alloc_aligned demo_pmm ∅ 2 2 0 in
  r = 0x100000 /\ bit_get (page_bitmap s') 257 = false.
Proof.
  destruct (k_pmm_alloc_aligned demo_pmm ∅ 2 2 0) as [[s' ram'] r] eqn:Heq.
  assert (r = 0x100000) as Hr.
  { change r with (snd (s', ram', r)). rewrite <- Heq. vm_compute. reflexivity. }
  split; [done|].
  destruct (pmm_alloc_sound demo_pmm ∅ 2 2 0 s' ram' r demo_inv) as (_ & _ & _ & _ & H & _);
    [unfold is_u32; lia|unfold is_u64; lia|done|lia|]. subst r. apply (H 257).
  change (0x100000 / 4096) with 256. lia.
Defined.

(** C33: the search is complete: an allocation fails exactly when no suitably
    aligned block of free pages exists below the limit, although the code
    scans in two passes from a moving cursor. *)
Theorem pmm_alloc_complete s ram count alignment maximum :
  pmm_inv s -> 0 < count -> power2 alignment = true ->
  snd (k_pmm_alloc_aligned s ram count alignment maximum) = 0 <->
  (forall q, 256 <= q -> q + count <= alloc_limit s maximum ->
             ~ free_run (page_bitmap s) count alignment q).
Proof.
  intros Hs Hc Hal. pose proof (alloc_aligned_spec s ram count alignment maximum Hs Hc Hal) as Hspec.
  inversion Hspec as [start Hlo Hhi Hrun Heq|Hnone Heq]; cbn [snd].
  - split; [lia|]. intros H. by destruct (H start Hlo Hhi).
  - by split.
Qed.
Lemma pmm_alloc_complete_witness :
  ~ free_run (page_bitmap (fst (fst (k_pmm_alloc_aligned demo_pmm ∅ 1 1 0)))) 2 2 256.
Proof.
  destruct (k_pmm_alloc_aligned demo_pmm ∅ 1 1 0) as [[s1 ram1] r1] eqn:Heq. cbn [fst].
  assert (pmm_inv s1) as Hinv by (by apply (pmm_alloc_inv demo_pmm ∅ 1 1 0 s1 ram1 r1 demo_inv)).
  assert (s1 = fst (fst (k_pmm_alloc_aligned demo_pmm ∅ 1 1 0))) as Hs1 by (by rewrite Heq).
  apply (proj1 (pmm_alloc_complete s1 ∅ 2 2 0 Hinv ltac:(lia) eq_refl)).
  - rewrite Hs1. vm_compute. reflexivity.
  - lia.
  - rewrite Hs1. vm_compute. discriminate.
Defined.

(** Releasing a block that an allocation returned gives every page of the
    bitmap and the free counter their values from before the allocation. *)
Theorem pmm_free_restores s ram count alignment maximum s' ram' r :
  pmm_inv s -> is_u32 count ->
  k_pmm_alloc_aligned s ram count alignment maximum = (s', ram', r) -> r <> 0 ->
  pmm_free_pages (k_pmm_free_pages s' r count) = pmm_free_pages s /\
  (forall p, bit_get (page_bitmap (k_pmm_free_pages s' r count)) p = bit_get (page_bitmap s) p).
Proof.
  intros Hs Hc Heq Hr.
  destruct (alloc_nonzero _ _ _ _ _ _ _ _ Hs Hc Heq Hr)
    as (start & Hpos & Hlo & Hhigh & [_ Hall] & -> & -> & _). clear Hr Heq.
  rewrite pmm_free_ok; cbn [page_bitmap eligible_bitmap modify]; rewrite ?Z.div_mul by lia.
  - cbn. split; [lia|]. intros p.
    rewrite bit_set_range_get, bit_clear_range_get by lia.
    destruct (Z.leb_spec start p), (Z.ltb_spec p (start + count)); cbn; try done.
    symmetry. apply Hall. lia.
  - lia.
  - done.
  - apply Z.mod_mul. lia.
  - pose proof (inv_high s Hs). lia.
  - intros p Hp. split.
    + apply (inv_free s Hs), Hall. done.
    + rewrite bit_clear_range_get by lia.
      destruct (Z.leb_spec start p), (Z.ltb_spec p (start + count)); try done; lia.
Qed.
Lemma pmm_free_restores_witness :
  let '(s', ram', r) := k_pmm_alloc_aligned demo_pmm ∅ 2 1 0 in
  pmm_free_pages (k_pmm_free_pages s' r 2) = 3.
Proof.
  destruct (k_pmm_alloc_aligned demo_pmm ∅ 2 1 0) as [[s' ram'] r] eqn:Heq.
  refine (proj1 (pmm_free_restores demo_pmm ∅ 2 1 0 s' ram' r demo_inv _ Heq _)).
  - unfold is_u32. lia.
  - change r with (snd (s', ram', r)). rewrite <- Heq. vm_compute. discriminate.
Defined.

(** A release that names a page the allocator does not manage, or one that
    is already free (a double free), changes nothing at all. *)
Theorem pmm_free_refused s phys count p :
  is_u64 phys -> is_u32 count ->
  phys / 4096 <= p < phys / 4096 + count ->
  bit_get (eligible_bitmap s) p = false \/ bit_get (page_bitmap s) p = true ->
  k_pmm_free_pages s phys count = s.
Proof.
  intros Hphys Hc Hp Hbad. unfold is_u64, is_u32 in *.
  destruct (pmm_free_cases s phys count) as [|(_ & _ & _ & Hown & _)]; [lia|lia|done|].
  destruct (Hown p Hp) as [He Hf]. destruct Hbad; congruence.
Qed.
Lemma pmm_free_refused_witness : k_pmm_free_pages demo_pmm 0x100000 2 = demo_pmm.
Proof.
  apply (pmm_free_refused demo_pmm 0x100000 2 257).
  - unfold is_u64. lia.
  - unfold is_u32. lia.
  - change (0x100000 / 4096) with 256. lia.
  - right. vm_compute. reflexivity.
Defined.
