(* ===== verification/PageAlloc.v ===== *)
(** The contract between the physical page allocator and its clients (the
    kernel heap, the page tables): what a page source promises, as a type
    class, and the proof that [Pmm] keeps the promise. *)
From S2P Require Import Prelude Klib Pmm.

(** Operations of a page source over a state [St] and byte memory. *)
Class PageSource (St : Type) := {
  pa_alloc : St -> zmap -> Z -> Z -> St * zmap * Z;   (** [k_pmm_alloc_pages] *)
  pa_alloc_aligned : St -> zmap -> Z -> Z -> Z -> St * zmap * Z;   (** [k_pmm_alloc_aligned] *)
  pa_free : St -> Z -> Z -> St;                       (** [k_pmm_free_pages] *)
  pa_ok : St -> Prop;                                 (** well-formedness *)
  pa_available : St -> Z -> bool;                     (** the page may be handed out *)
  pa_managed : St -> Z -> bool                        (** the page belongs to the source *)
}.

Record page_grant {St} `{PageSource St} (s : St) (ram : zmap) (n : Z) (s' : St) (ram' : zmap) (r : Z) : Prop := {
  grant_page : r mod 4096 = 0;
  grant_low : 0x100000 <= r;
  grant_high : r + n * 4096 <= PMM_MAX_PAGES * 4096;
  grant_before : forall p, r / 4096 <= p < r / 4096 + n -> pa_available s p = true;
  grant_after : forall p, pa_available s' p =
                  if (r / 4096 <=? p) && (p <? r / 4096 + n) then false else pa_available s p;
  grant_managed : forall p, pa_managed s' p = pa_managed s p;
  grant_ram : forall a, zget ram' a = if (r <=? a) && (a <? r + n * 4096) then 0 else zget ram a
}.

Class PageSourceLaws (St : Type) `{PageSource St} := {
  pa_managed_law : forall s p, pa_ok s -> pa_available s p = true -> pa_managed s p = true;
  pa_alloc_law : forall s ram n max s' ram' r,
    pa_ok s -> is_u32 n -> is_u64 max -> pa_alloc s ram n max = (s', ram', r) ->
    pa_ok s' /\ ((r = 0 /\ s' = s /\ ram' = ram) \/ (r <> 0 /\ 0 < n /\ page_grant s ram n s' ram' r));
  pa_alloc_aligned_law : forall s ram n align max s' ram' r,
    pa_ok s -> is_u32 n -> is_u64 max -> is_u64 align -> 0 < align -> pa_alloc_aligned s ram n align max = (s', ram', r) ->
    pa_ok s' /\ ((r = 0 /\ s' = s /\ ram' = ram) \/
      (r <> 0 /\ 0 < n /\ r mod (align * 4096) = 0 /\ page_grant s ram n s' ram' r));
  pa_free_law : forall s r n,
    pa_ok s -> is_u64 r -> is_u32 n -> 0 < n -> r mod 4096 = 0 -> r + n * 4096 <= PMM_MAX_PAGES * 4096 ->
    (forall p, r / 4096 <= p < r / 4096 + n -> pa_managed s p = true /\ pa_available s p = false) ->
    pa_ok (pa_free s r n) /\
    (forall p, pa_available (pa_free s r n) p =
       if (r / 4096 <=? p) && (p <? r / 4096 + n) then true else pa_available s p) /\
    (forall p, pa_managed (pa_free s r n) p = pa_managed s p)
}.

(** * The physical page allocator is such a page source *)
#[export] Instance pmm_page_source : PageSource pmm := {
  pa_alloc := k_pmm_alloc_pages;
  pa_alloc_aligned := k_pmm_alloc_aligned;
  pa_free := k_pmm_free_pages;
  pa_ok := pmm_inv;
  pa_available := fun s => bit_get (page_bitmap s);
  pa_managed := fun s => bit_get (eligible_bitmap s)
}.

Lemma pmm_alloc_grant s ram n align max s' ram' r :
  pmm_inv s -> is_u32 n -> is_u64 max -> is_u64 align -> 0 < align -> k_pmm_alloc_aligned s ram n align max = (s', ram', r) -> r <> 0 ->
  0 < n /\ r mod (align * 4096) = 0 /\ page_grant s ram n s' ram' r.
Proof.
  intros Hs Hn Hmax Hu64 Hal Heq Hr.
  assert (power2 align = true) as Hp2.
  { unfold k_pmm_alloc_aligned in Heq. destruct (power2 align); [done|]. cbn [negb] in Heq. by simplify_eq. }
  apply power2_spec in Hp2 as (e & He & ->); [|done].
  destruct (alloc_nonzero _ _ _ _ _ _ _ _ Hs Hn Heq Hr)
    as (start & Hpos & Hlo & Hhigh & [Hst Hall] & -> & -> & -> & _).
  pose proof (inv_high s Hs). split; [done|]. split.
  { rewrite Z.mul_mod_distr_r by lia. replace (2 ^ e - 1) with (Z.ones e) in Hst by (rewrite Z.ones_equiv; lia).
    rewrite Z.land_ones in Hst by lia. by rewrite Hst. }
  split; cbn [pa_available pa_managed pmm_page_source]; rewrite ?Z.div_mul by lia; try done; try lia.
  - apply Z.mod_mul. lia.
  - intros p. cbn. rewrite bit_clear_range_get by lia.
    by destruct ((start <=? p) && (p <? start + n)).
  - intros a. by rewrite mem_zero_spec by lia.
Qed.
Lemma pmm_alloc_aligned_law s ram n align max s' ram' r :
  pmm_inv s -> is_u32 n -> is_u64 max -> is_u64 align -> 0 < align -> k_pmm_alloc_aligned s ram n align max = (s', ram', r) ->
  pmm_inv s' /\ ((r = 0 /\ s' = s /\ ram' = ram) \/
    (r <> 0 /\ 0 < n /\ r mod (align * 4096) = 0 /\ page_grant s ram n s' ram' r)).
Proof.
  intros Hs Hn Hmax Hu64 Hal Heq. destruct (Z.eq_dec n 0) as [->|Hne].
  { unfold k_pmm_alloc_aligned in Heq. rewrite Z.eqb_refl in Heq. destruct (negb (power2 align)); simplify_eq; split; auto. }
  destruct (power2 align) eqn:Hp2.
  2: { unfold k_pmm_alloc_aligned in Heq. rewrite Hp2 in Heq. cbn [negb] in Heq. simplify_eq; split; auto. }
  assert (0 < n) as Hpos by (unfold is_u32 in Hn; lia).
  split; [by apply (pmm_alloc_inv s ram n align max s' ram' r)|].
  destruct (Z.eq_dec r 0) as [->|Hr]; [left|right; split; [done|by apply (pmm_alloc_grant s ram n align max)]].
  pose proof (alloc_aligned_spec s ram n align max Hs Hpos Hp2) as Hspec.
  rewrite Heq in Hspec. inversion Hspec; subst; [lia|done].
Qed.

#[export] Instance pmm_page_source_laws : PageSourceLaws pmm.
Proof.
  split; cbn [pa_alloc pa_alloc_aligned pa_free pa_ok pa_available pa_managed pmm_page_source].
  - intros s p Hs. apply (inv_free s Hs).
  - intros s ram n max s' ram' r Hs Hn Hmax Heq. unfold k_pmm_alloc_pages in Heq.
    destruct (pmm_alloc_aligned_law s ram n 1 max s' ram' r Hs Hn Hmax ltac:(unfold is_u64; lia) ltac:(lia) Heq) as [Hi [?|(? & ? & _ & ?)]]; auto.
  - exact pmm_alloc_aligned_law.
  - intros s r n Hs Hr Hn Hpos Hal Hmax Hown. unfold is_u64, is_u32 in *.
    split; [apply pmm_free_inv; [done|lia|lia]|].
    rewrite pmm_free_ok; [|lia|done|done|dlia|done]. cbn. split; [|done].
    intros p. rewrite bit_set_range_get by lia.
    by destruct ((r / 4096 <=? p) && (p <? r / 4096 + n)).
Qed.
