(* ===== verification/Heap.v ===== *)
(** The kernel heap, [src/kernel-src/kernel/mm/heap.c]: 64 arenas of 1024
    64-byte units carved out of 16 pages each, and 64 slots for blocks of more
    than 32 KiB or page-exceeding alignment.  The heap draws pages from an
    abstract page source ([PageAlloc]); each operation runs under [heap_lock]
    and is one transition of the record [heap]. *)
From S2P Require Import Prelude Klib Pmm PageAlloc.

Definition ARENAS : Z := 64.
Definition UNITS : Z := 1024.
Definition UNIT : Z := 64.
Definition CANARY : Z := 0xd831ad7e56b0c429.

Record arena := mk_arena {
  a_base : Z;
  a_used : zmap;
  a_length : zmap;
  a_requested : zmap;
  a_live : Z
}.
#[export] Instance arena_updatable : Updatable arena := fun r =>
  mk_arena (a_base r) (a_used r) (a_length r) (a_requested r) (a_live r).
Record large_block := mk_large_block {
  l_base : Z;
  l_pointer : Z;
  l_requested : Z;
  l_pages : Z
}.
Record k_heap_info := mk_k_heap_info {
  committed_bytes : Z;
  live_bytes : Z;
  allocations : Z;
  errors : Z
}.
#[export] Instance k_heap_info_updatable : Updatable k_heap_info := fun r =>
  mk_k_heap_info (committed_bytes r) (live_bytes r) (allocations r) (errors r).

(** [mem_zero(a, sizeof( *a))] and the zero-initialised statics. *)
Definition arena0 : arena := mk_arena 0 ∅ ∅ ∅ 0.
Definition large0 : large_block := mk_large_block 0 0 0 0.
#[export] Instance arena_inhabited : Inhabited arena := populate arena0.
#[export] Instance large_inhabited : Inhabited large_block := populate large0.

Record heap (St : Type) := mk_heap {
  arenas : list arena;
  large : list large_block;
  heap_stats : k_heap_info;
  pages : St;
  ram : zmap
}.
Arguments mk_heap {St}. Arguments arenas {St}. Arguments large {St}.
Arguments heap_stats {St}. Arguments pages {St}. Arguments ram {St}.
#[export] Instance heap_updatable St : Updatable (heap St) := fun r =>
  mk_heap (arenas r) (large r) (heap_stats r) (pages r) (ram r).

(** * Unit bitmap of an arena: 64-bit words *)
Definition occupied (a : arena) (u : Z) : bool :=
  negb (Z.land (Z.shiftr (zget (a_used a) (u / 64)) (u mod 64)) 1 =? 0).
Definition mark_unit (u : Z) (used : zmap) : zmap :=
  zput used (u / 64) (Z.lor (zget used (u / 64)) (u64 (Z.shiftl 1 (u mod 64)))).
Definition clear_unit (u : Z) (used : zmap) : zmap :=
  zput used (u / 64) (Z.land (zget used (u / 64)) (u64 (Z.lnot (u64 (Z.shiftl 1 (u mod 64)))))).

(** [while (j < needed && !occupied(a, u + j)) ++j;] *)
Definition free_prefix (a : arena) (u needed : Z) : Z :=
  match find_range 0 needed (fun j => occupied a (u + j)) with Some j => j | None => needed end.

(** The first-fit loop over start units; it advances by at least one unit per
    iteration, so [UNITS + 1] iterations always suffice. *)
Fixpoint first_fit (fuel : nat) (a : arena) (alignment needed u : Z) : option Z :=
  match fuel with
  | O => None
  | S fuel' =>
      if u + needed <=? UNITS then
        if negb (Z.land (u64 (a_base a + u * UNIT)) (alignment - 1) =? 0)
        then first_fit fuel' a alignment needed (u + 1)
        else
          let j := free_prefix a u needed in
          if j =? needed then Some u else first_fit fuel' a alignment needed (u + (j + 1))
      else None
  end.
Definition fit_fuel : nat := S (Z.to_nat UNITS).

Definition take_units (a : arena) (u needed bytes : Z) : arena :=
  a <| a_used ::= fold_range 0 needed (fun j => mark_unit (u + j)) |>
    <| a_length ::= (fun l => zput l u (u16 needed)) |>
    <| a_requested ::= (fun r => zput r u (u32 bytes)) |>
    <| a_live ::= (fun n => u32 (n + 1)) |>.

Section Heap.
Context {St : Type} `{PageSource St}.

Definition set_arena (i : Z) (a : arena) (h : heap St) : heap St :=
  h <| arenas ::= <[Z.to_nat i := a]> |>.
Definition set_large (i : Z) (b : large_block) (h : heap St) : heap St :=
  h <| large ::= <[Z.to_nat i := b]> |>.
Definition add_committed (n : Z) (h : heap St) : heap St :=
  h <| heap_stats ::= (fun i => i <| committed_bytes ::= (fun c => u64 (c + n)) |>) |>.

(** One iteration of the search for a free large slot. *)
Definition large_step (bytes alignment i : Z) (h : heap St) : flow (heap St) (heap St * Z) :=
  if negb (l_base (large h !!! Z.to_nat i) =? 0) then Next h
  else
    let n := u32 ((bytes + alignment + 7 + 4095) / 4096) in
    let '(p, m, base) := pa_alloc (pages h) (ram h) n 0 in
    let h := h <| pages := p |> <| ram := m |> in
    if base =? 0 then Exit (h, 0)
    else
      let result := ALIGN_UP_u32 base alignment in
      Exit (add_committed (n * 4096) (set_large i (mk_large_block base result bytes n) h), result).

(** Give an arena without memory its 16 pages; the flag says whether it has some now. *)
Definition open_arena (i : Z) (h : heap St) : heap St * bool :=
  if negb (a_base (arenas h !!! Z.to_nat i) =? 0) then (h, true)
  else
    let '(p, m, base) := pa_alloc (pages h) (ram h) 16 0 in
    let h := h <| pages := p |> <| ram := m |> in
    let h := set_arena i ((arenas h !!! Z.to_nat i) <| a_base := base |>) h in
    if base =? 0 then (h, false) else (add_committed 65536 h, true).

(** One iteration of the search through the arenas. *)
Definition arena_step (bytes alignment i : Z) (h : heap St) : flow (heap St) (heap St * Z) :=
  let needed := u32 ((bytes + 8 + UNIT - 1) / UNIT) in
  let '(h, opened) := open_arena i h in
  if negb opened then Exit (h, 0)
  else
    let a := arenas h !!! Z.to_nat i in
    match first_fit fit_fuel a alignment needed 0 with
    | Some u => Exit (set_arena i (take_units a u needed bytes) h, u64 (a_base a + u * UNIT))
    | None => Next h
    end.

(** Zero the block, seal it with its canary and account for it. *)
Definition seal_block (bytes : Z) (h : heap St) (result : Z) : heap St :=
  h <| ram ::= (fun m => wr64 (mem_zero m result bytes) (result + bytes)
                              (Z.lxor (Z.lxor CANARY result) bytes)) |>
    <| heap_stats ::= (fun i => i <| live_bytes ::= (fun n => u64 (n + bytes)) |>
                                  <| allocations ::= (fun n => u64 (n + 1)) |>) |>.

Definition k_heap_alloc (h : heap St) (bytes alignment : Z) : heap St * Z :=
  if (bytes =? 0) || (64 * 1024 * 1024 <? bytes) || negb (power2 alignment) || (0x200000 <? alignment)
  then (h, 0)
  else
    let alignment := if alignment <? 16 then 16 else alignment in
    let search :=
      if (32768 <? bytes + 8) || (4096 <? alignment)
      then for_range 0 64 (large_step bytes alignment) h
      else for_range 0 ARENAS (arena_step bytes alignment) h in
    let '(h, result) := match search with Next h => (h, 0) | Exit r => r end in
    (if result =? 0 then h else seal_block bytes h result, result).

(** * Release *)
Definition canary_ok (h : heap St) (p bytes : Z) : bool :=
  rd64 (ram h) (p + bytes) =? Z.lxor (Z.lxor CANARY p) bytes.

Definition add_error (h : heap St) : heap St :=
  h <| heap_stats ::= (fun i => i <| errors ::= (fun n => u64 (n + 1)) |>) |>.

Definition free_large (h : heap St) (p i : Z) : heap St * Z :=
  let b := large h !!! Z.to_nat i in
  if negb (canary_ok h p (l_requested b)) then (h, K_EFAULT)
  else
    (set_large i large0
       (h <| heap_stats ::= (fun s => s <| live_bytes ::= (fun n => u64 (n - l_requested b)) |>
                                        <| committed_bytes ::= (fun n => u64 (n - l_pages b * 4096)) |>) |>
          <| pages ::= (fun s => pa_free s (l_base b) (l_pages b)) |>), 0).

Definition free_unit_block (h : heap St) (p i : Z) : heap St * Z :=
  let a := arenas h !!! Z.to_nat i in
  let u := (p - a_base a) / UNIT in
  let n := zget (a_length a) u in
  let bytes := zget (a_requested a) u in
  if (n =? 0) || (UNITS - u <? n) then (h, K_EINVAL)
  else if negb (canary_ok h p bytes) then (h, K_EFAULT)
  else if any_range 0 n (fun j => negb (occupied a (u + j))) then (h, K_EFAULT)
  else
    let h := h <| ram ::= (fun m => mem_zero m p (n * UNIT)) |> in
    let a := a <| a_used ::= fold_range 0 n (fun j => clear_unit (u + j)) |>
               <| a_length ::= (fun l => zput l u 0) |>
               <| a_requested ::= (fun r => zput r u 0) |> in
    let h := h <| heap_stats ::= (fun s => s <| live_bytes ::= (fun k => u64 (k - bytes)) |>) |> in
    let live := u32 (a_live a - 1) in
    if live =? 0 then
      (set_arena i arena0
         (h <| pages ::= (fun s => pa_free s (a_base a) 16) |>
            <| heap_stats ::= (fun s => s <| committed_bytes ::= (fun k => u64 (k - 65536)) |>) |>), 0)
    else (set_arena i (a <| a_live := live |>) h, 0).

Definition k_heap_free (h : heap St) (p : Z) : heap St * Z :=
  if p =? 0 then (h, 0)
  else
    let '(h, e) :=
      match find_range 0 64 (fun i => l_pointer (large h !!! Z.to_nat i) =? p) with
      | Some i => free_large h p i
      | None =>
          match find_range 0 ARENAS (fun i =>
                  let b := a_base (arenas h !!! Z.to_nat i) in
                  negb ((b =? 0) || (p <? b) || (65536 <=? p - b) || negb ((p - b) mod UNIT =? 0))) with
          | Some i => free_unit_block h p i
          | None => (h, K_EINVAL)
          end
      end in
    (if e =? 0 then h else add_error h, e).

Definition k_heap_get (h : heap St) (out : bool) : Z * option k_heap_info :=
  if negb out then (K_EINVAL, None) else (0, Some (heap_stats h)).
End Heap.

(** * Unit bitmap lemmas *)
Lemma occupied_testbit a u : occupied a u = Z.testbit (zget (a_used a) (u / 64)) (u mod 64).
Proof.
  unfold occupied. pose proof (Z.mod_pos_bound u 64 ltac:(lia)).
  change 1 with (Z.ones 1) at 1. rewrite Z.land_ones, Z.shiftr_div_pow2 by lia.
  rewrite Z.testbit_eqb by lia. change (2 ^ 1) with 2.
  pose proof (Z.mod_pos_bound (zget (a_used a) (u / 64) / 2 ^ (u mod 64)) 2 ltac:(lia)).
  destruct (Z.eqb_spec (zget (a_used a) (u / 64) / 2 ^ (u mod 64) mod 2) 0),
           (Z.eqb_spec (zget (a_used a) (u / 64) / 2 ^ (u mod 64) mod 2) 1); try done; lia.
Qed.
(** Reading unit [k] of a bitmap kept apart from its arena. *)
Definition unit_bit (used : zmap) (k : Z) : bool := Z.testbit (zget used (k / 64)) (k mod 64).
Lemma occupied_bit a u : occupied a u = unit_bit (a_used a) u.
Proof. apply occupied_testbit. Qed.

Lemma pow2_u64 k : 0 <= k < 64 -> u64 (Z.shiftl 1 k) = 2 ^ k.
Proof.
  intros Hk. rewrite Z.shiftl_1_l. unfold u64. apply Z.mod_small.
  split; [apply Z.pow_nonneg; lia|apply Z.pow_lt_mono_r; lia].
Qed.
Lemma mark_unit_bit used u k : unit_bit (mark_unit u used) k = (u =? k) || unit_bit used k.
Proof.
  unfold unit_bit, mark_unit. rewrite zget_put.
  pose proof (Z.mod_pos_bound u 64 ltac:(lia)). pose proof (Z.mod_pos_bound k 64 ltac:(lia)).
  rewrite pow2_u64 by lia. destruct (Z.eqb_spec (u / 64) (k / 64)) as [He|Hne].
  - rewrite Z.lor_spec, Z.pow2_bits_eqb, He by lia. rewrite orb_comm. f_equal.
    destruct (Z.eqb_spec (u mod 64) (k mod 64)), (Z.eqb_spec u k); try done; dlia.
  - destruct (Z.eqb_spec u k) as [->|]; [lia|done].
Qed.
Lemma clear_unit_bit used u k : unit_bit (clear_unit u used) k = negb (u =? k) && unit_bit used k.
Proof.
  unfold unit_bit, clear_unit. rewrite zget_put.
  pose proof (Z.mod_pos_bound u 64 ltac:(lia)). pose proof (Z.mod_pos_bound k 64 ltac:(lia)).
  rewrite pow2_u64 by lia. destruct (Z.eqb_spec (u / 64) (k / 64)) as [He|Hne].
  - rewrite Z.land_spec. unfold u64. rewrite Z.mod_pow2_bits_low by lia.
    rewrite Z.lnot_spec, Z.pow2_bits_eqb, He by lia. rewrite andb_comm. f_equal.
    destruct (Z.eqb_spec (u mod 64) (k mod 64)), (Z.eqb_spec u k); try done; dlia.
  - destruct (Z.eqb_spec u k) as [->|]; [lia|done].
Qed.
Lemma mark_units_bit used u n k :
  0 <= n ->
  unit_bit (fold_range 0 n (fun j => mark_unit (u + j)) used) k =
  (u <=? k) && (k <? u + n) || unit_bit used k.
Proof.
  intros Hn. apply (fold_range_inv (fun i used' =>
    unit_bit used' k = (u <=? k) && (k <? u + i) || unit_bit used k)); [done| |].
  - destruct (Z.leb_spec u k), (Z.ltb_spec k (u + 0)); try done; lia.
  - intros i used' Hi IH. rewrite mark_unit_bit, IH.
    destruct (Z.eqb_spec (u + i) k), (Z.leb_spec u k), (Z.ltb_spec k (u + i)),
             (Z.ltb_spec k (u + (i + 1))); try done; lia.
Qed.
Lemma clear_units_bit used u n k :
  0 <= n ->
  unit_bit (fold_range 0 n (fun j => clear_unit (u + j)) used) k =
  negb ((u <=? k) && (k <? u + n)) && unit_bit used k.
Proof.
  intros Hn. apply (fold_range_inv (fun i used' =>
    unit_bit used' k = negb ((u <=? k) && (k <? u + i)) && unit_bit used k)); [done| |].
  - destruct (Z.leb_spec u k), (Z.ltb_spec k (u + 0)); try done; lia.
  - intros i used' Hi IH. rewrite clear_unit_bit, IH.
    destruct (Z.eqb_spec (u + i) k), (Z.leb_spec u k), (Z.ltb_spec k (u + i)),
             (Z.ltb_spec k (u + (i + 1))); try done; lia.
Qed.

(** * First fit *)
Definition fits (a : arena) (alignment needed u : Z) : Prop :=
  u + needed <= UNITS /\ Z.land (u64 (a_base a + u * UNIT)) (alignment - 1) = 0 /\
  (forall k, u <= k < u + needed -> occupied a k = false).

Lemma free_prefix_spec a u needed :
  0 < needed ->
  0 <= free_prefix a u needed <= needed /\
  (forall k, u <= k < u + free_prefix a u needed -> occupied a k = false) /\
  (free_prefix a u needed < needed -> occupied a (u + free_prefix a u needed) = true).
Proof.
  intros Hn. unfold free_prefix. destruct (find_range _ _ _) as [j|] eqn:Hf.
  - apply find_range_Some in Hf as (Hj & Hocc & Hfree). split; [lia|]. split; [|done].
    intros k Hk. replace k with (u + (k - u)) by lia. apply Hfree. lia.
  - rewrite find_range_None in Hf. split; [lia|]. split; [|lia].
    intros k Hk. replace k with (u + (k - u)) by lia. apply Hf. lia.
Qed.

(** With enough fuel the loop returns the lowest unit that fits, and [None]
    exactly when nothing fits. *)
Lemma first_fit_spec a alignment needed fuel : forall u,
  0 < needed -> UNITS - u < Z.of_nat fuel ->
  match first_fit fuel a alignment needed u with
  | Some v => u <= v /\ fits a alignment needed v /\
              (forall w, u <= w < v -> ~ fits a alignment needed w)
  | None => forall v, u <= v -> ~ fits a alignment needed v
  end.
Proof.
  induction fuel as [|fuel IH]; intros u Hn Hfuel; cbn [first_fit].
  { intros v Hv (Hend & _). lia. }
  destruct (Z.leb_spec (u + needed) UNITS) as [Hle|Hgt]; [|intros v Hv (Hend & _); lia].
  destruct (Z.eqb_spec (Z.land (u64 (a_base a + u * UNIT)) (alignment - 1)) 0) as [Hal|Hnal]; cbn [negb].
  - destruct (free_prefix_spec a u needed Hn) as (Hj & Hfree & Hocc). cbv zeta.
    set (j := free_prefix a u needed) in *.
    destruct (Z.eqb_spec j needed) as [Heq|Hneq].
    + split; [lia|]. split; [|lia]. split; [done|]. split; [done|]. intros k Hk. apply Hfree. lia.
    + assert (forall v, u <= v < u + (j + 1) -> ~ fits a alignment needed v) as Hskip.
      { intros v Hv (_ & _ & Hv'). specialize (Hocc ltac:(lia)). rewrite Hv' in Hocc; [done|lia]. }
      specialize (IH (u + (j + 1)) Hn ltac:(lia)). destruct (first_fit fuel _ _ _ _) as [v|].
      * destruct IH as (Hv & Hfit & Hmin). split; [lia|]. split; [done|]. intros w Hw.
        destruct (Z.lt_ge_cases w (u + (j + 1))); [apply Hskip; lia|apply Hmin; lia].
      * intros v Hv. destruct (Z.lt_ge_cases v (u + (j + 1))); [apply Hskip; lia|apply IH; lia].
  - assert (~ fits a alignment needed u) as Hskip by (intros (_ & Hal & _); done).
    specialize (IH (u + 1) Hn ltac:(lia)). destruct (first_fit fuel _ _ _ _) as [v|].
    + destruct IH as (Hv & Hfit & Hmin). split; [lia|]. split; [done|]. intros w Hw.
      destruct (Z.eq_dec w u) as [->|]; [done|apply Hmin; lia].
    + intros v Hv. destruct (Z.eq_dec v u) as [->|]; [done|apply IH; lia].
Qed.

(** * Well-formed arenas

    The non-zero entries of [a_length] are disjoint blocks of units, a unit is
    marked used exactly when a block covers it, and [a_live] counts them. *)
Definition block_len (a : arena) (u : Z) : Z := zget (a_length a) u.
Record arena_wf (a : arena) : Prop := {
  wf_len : forall u, 0 <= u < UNITS -> 0 <= block_len a u /\ u + block_len a u <= UNITS;
  wf_disjoint : forall u v, 0 <= u < v -> v < UNITS -> 0 < block_len a u -> 0 < block_len a v ->
                            u + block_len a u <= v;
  wf_used : forall k, 0 <= k < UNITS ->
              occupied a k = true <-> (exists u, 0 <= u <= k /\ k < u + block_len a u);
  wf_requested : forall u, 0 <= u < UNITS -> 0 < block_len a u ->
              0 < zget (a_requested a) u /\ zget (a_requested a) u + 8 <= block_len a u * UNIT;
  wf_live : a_live a = count_range 0 UNITS (fun u => 0 <? block_len a u)
}.

Lemma arena_wf_empty base : arena_wf (arena0 <| a_base := base |>).
Proof.
  assert (forall u, block_len (arena0 <| a_base := base |>) u = 0) as Hl.
  { intros u. unfold block_len. cbn. apply zget_empty. }
  split.
  - intros u Hu. rewrite Hl. lia.
  - intros u v. rewrite !Hl. lia.
  - intros k Hk. rewrite occupied_bit. unfold unit_bit. cbn. rewrite zget_empty, Z.testbit_0_l.
    split; [done|]. intros (u & Hu & Hlt). rewrite Hl in Hlt. lia.
  - intros u Hu. rewrite Hl. lia.
  - cbn. rewrite (count_range_const 0 UNITS _ false); [done|unfold UNITS; lia|].
    intros i Hi. by rewrite Hl.
Qed.

Lemma take_units_len a u n b k :
  0 < n < 2 ^ 16 -> block_len (take_units a u n b) k = if u =? k then n else block_len a k.
Proof. intros Hn. unfold block_len, take_units. cbn. rewrite zget_put. unfold u16. by rewrite Z.mod_small by lia. Qed.
Lemma take_units_requested a u n b k :
  is_u32 b -> zget (a_requested (take_units a u n b)) k = if u =? k then b else zget (a_requested a) k.
Proof. intros Hb. unfold take_units. cbn. rewrite zget_put. unfold u32. by rewrite Z.mod_small by done. Qed.
Lemma take_units_occupied a u n b k :
  0 <= n -> occupied (take_units a u n b) k = (u <=? k) && (k <? u + n) || occupied a k.
Proof. intros Hn. rewrite !occupied_bit. unfold take_units. cbn. by apply mark_units_bit. Qed.

Lemma take_units_wf a u n b :
  arena_wf a -> 0 <= u -> 0 < n -> u + n <= UNITS ->
  (forall k, u <= k < u + n -> occupied a k = false) ->
  0 < b -> b + 8 <= n * UNIT -> arena_wf (take_units a u n b).
Proof.
  intros [Hlen Hdis Hused Hreq Hlive] Hu Hn Hend Hfree Hb Hfit. unfold UNITS, UNIT in *.
  assert (forall v, 0 <= v <= u + n - 1 -> v + block_len a v <= u \/ block_len a v = 0) as Hgap.
  { intros v Hv. destruct (Hlen v ltac:(lia)) as [H0 _].
    destruct (Z.le_gt_cases (v + block_len a v) u); [by left|].
    destruct (Z.eq_dec (block_len a v) 0); [by right|exfalso].
    pose proof (Hfree (Z.max u v) ltac:(lia)) as Hf.
    rewrite (proj2 (Hused (Z.max u v) ltac:(lia))) in Hf; [done|]. exists v. lia. }
  split; unfold UNITS, UNIT.
  - intros v Hv. rewrite take_units_len by lia. destruct (Z.eqb_spec u v); [lia|by apply Hlen].
  - intros v w Hvw Hw. rewrite !take_units_len by lia.
    destruct (Z.eqb_spec u v) as [<-|], (Z.eqb_spec u w) as [<-|]; intros Hv Hw'; try lia.
    + destruct (Z.le_gt_cases (u + n) w); [done|]. destruct (Hgap w); lia.
    + destruct (Hgap v); lia.
    + by apply Hdis.
  - intros k Hk. rewrite take_units_occupied by lia. rewrite orb_true_iff, Hused by done. split.
    + intros [Hin|(v & Hv & Hlt)].
      * reflect_bools. exists u. rewrite take_units_len, Z.eqb_refl by lia. lia.
      * exists v. rewrite take_units_len by lia. destruct (Z.eqb_spec u v) as [<-|]; [|done].
        destruct (Hgap u); lia.
    + intros (v & Hv & Hlt). rewrite take_units_len in Hlt by lia.
      destruct (Z.eqb_spec u v) as [<-|]; [left|right; by exists v].
      apply andb_true_iff. rewrite Z.leb_le, Z.ltb_lt. lia.
  - intros v Hv. rewrite take_units_len, take_units_requested by (unfold is_u32; lia).
    destruct (Z.eqb_spec u v); [lia|by apply Hreq].
  - rewrite (count_range_set 0 1024 (fun v => 0 <? block_len a v) _ u); [|lia| | |].
    + unfold take_units. cbn. rewrite Hlive.
      pose proof (count_range_bounds 0 1024 (fun v => 0 <? block_len a v) ltac:(lia)).
      unfold u32. apply Z.mod_small. lia.
    + destruct (Hgap u ltac:(lia)); apply Z.ltb_ge; [|lia]. destruct (Hlen u); lia.
    + rewrite take_units_len, Z.eqb_refl by lia. by apply Z.ltb_lt.
    + intros i Hi Hne. rewrite take_units_len by lia. by destruct (Z.eqb_spec u i); [lia|].
Qed.

(** Removing the block that starts at unit [u]. *)
Definition drop_units (a : arena) (u n : Z) : arena :=
  a <| a_used ::= fold_range 0 n (fun j => clear_unit (u + j)) |>
    <| a_length ::= (fun l => zput l u 0) |>
    <| a_requested ::= (fun r => zput r u 0) |>
    <| a_live := u32 (a_live a - 1) |>.
Lemma drop_units_len a u n k : block_len (drop_units a u n) k = if u =? k then 0 else block_len a k.
Proof. unfold block_len, drop_units. cbn. apply zget_put. Qed.
Lemma drop_units_wf a u n :
  arena_wf a -> 0 <= u < UNITS -> block_len a u = n -> 0 < n ->
  arena_wf (drop_units a u n) /\ a_live (drop_units a u n) = a_live a - 1.
Proof.
  intros [Hlen Hdis Hused Hreq Hlive] Hu Hl Hn. unfold UNITS in *.
  assert (count_range 0 1024 (fun v => 0 <? block_len a v) =
          count_range 0 1024 (fun v => 0 <? block_len (drop_units a u n) v) + 1) as Hcount.
  { apply (count_range_set 0 1024 _ _ u); [lia| | |].
    - by rewrite drop_units_len, Z.eqb_refl.
    - apply Z.ltb_lt. lia.
    - intros i Hi Hne. rewrite drop_units_len. by destruct (Z.eqb_spec u i); [lia|]. }
  assert (a_live (drop_units a u n) = a_live a - 1) as Hlive'.
  { unfold drop_units. cbn. unfold u32. apply Z.mod_small. rewrite Hlive.
    pose proof (count_range_bounds 0 1024 (fun v => 0 <? block_len a v) ltac:(lia)).
    pose proof (count_range_bounds 0 1024 (fun v => 0 <? block_len (drop_units a u n) v) ltac:(lia)). lia. }
  split; [|done]. split; unfold UNITS.
  - intros v Hv. rewrite drop_units_len. destruct (Z.eqb_spec u v); [lia|by apply Hlen].
  - intros v w Hvw Hw. rewrite !drop_units_len.
    destruct (Z.eqb_spec u v), (Z.eqb_spec u w); try lia. by apply Hdis.
  - intros k Hk. rewrite occupied_bit. unfold drop_units at 1. cbn. rewrite clear_units_bit by lia.
    rewrite <- occupied_bit, andb_true_iff, Hused by done. split.
    + intros [Hout (v & Hv & Hlt)]. reflect_bools. exists v. rewrite drop_units_len.
      destruct (Z.eqb_spec u v) as [<-|]; [|done]. destruct Hout; reflect_bools; lia.
    + intros (v & Hv & Hlt). rewrite drop_units_len in Hlt. destruct (Z.eqb_spec u v); [lia|].
      split; [|by exists v].
      apply negb_true_iff, andb_false_iff. rewrite Z.leb_gt, Z.ltb_ge.
      destruct (Z.lt_ge_cases v u).
      * pose proof (Hdis v u). lia.
      * pose proof (Hdis u v). lia.
  - intros v Hv. rewrite drop_units_len. unfold drop_units. cbn. rewrite zget_put.
    destruct (Z.eqb_spec u v); [lia|by apply Hreq].
  - rewrite Hlive', Hlive. lia.
Qed.

(** * Alignment of the large path *)
Lemma land_high_mask x k w : 0 <= k <= w -> Z.land x (2 ^ w - 2 ^ k) = (x mod 2 ^ w) / 2 ^ k * 2 ^ k.
Proof.
  intros Hk.
  assert (2 ^ w - 2 ^ k = Z.shiftl (Z.ones (w - k)) k) as ->.
  { rewrite Z.shiftl_mul_pow2, Z.ones_equiv by lia.
    replace w with ((w - k) + k) at 1 by lia. rewrite Z.pow_add_r by lia. lia. }
  rewrite <- Z.shiftl_mul_pow2, <- Z.shiftr_div_pow2 by lia.
  apply Z.bits_inj'. intros n Hn. rewrite Z.land_spec.
  destruct (Z.lt_ge_cases n k).
  - rewrite !Z.shiftl_spec_low by lia. apply andb_false_r.
  - rewrite !Z.shiftl_spec by lia. rewrite Z.shiftr_spec by lia.
    replace (n - k + k) with n by lia. rewrite Z.testbit_ones_nonneg by lia.
    destruct (Z.ltb_spec (n - k) (w - k)).
    + rewrite Z.mod_pow2_bits_low by lia. apply andb_true_r.
    + rewrite Z.mod_pow2_bits_high by lia. apply andb_false_r.
Qed.
Lemma align_up_u32_eq x k :
  0 <= k < 32 -> 0 <= x -> x + 2 ^ k < 2 ^ 64 ->
  ALIGN_UP_u32 x (2 ^ k) = ((x + 2 ^ k - 1) mod 2 ^ 32) / 2 ^ k * 2 ^ k.
Proof.
  intros Hk Hx Hlt. pose proof (Z.pow_pos_nonneg 2 k ltac:(lia) ltac:(lia)).
  assert (2 ^ k < 2 ^ 32) by (apply Z.pow_lt_mono_r; lia).
  unfold ALIGN_UP_u32, u64, u32. rewrite (Z.mod_small (x + 2 ^ k)) by lia.
  rewrite (Z.mod_small (x + 2 ^ k - 1)), (Z.mod_small (2 ^ k - 1)) by lia.
  replace (Z.lnot (2 ^ k - 1) mod 2 ^ 32) with (2 ^ 32 - 2 ^ k).
  { apply land_high_mask. lia. }
  unfold Z.lnot. replace (Z.pred (- (2 ^ k - 1))) with (- (2 ^ k)) by lia.
  apply (Z.mod_unique _ _ (-1)); lia.
Qed.

(** * Page ownership of the heap

    The heap owns one page range per open arena ([inl]) and per large block
    ([inr]); a base of zero means the slot is empty. *)
Section Ownership.
Context {St : Type} `{PageSourceLaws St}.

Definition region_in (ps : St) (b n : Z) : Prop :=
  b mod 4096 = 0 /\ 0x100000 <= b /\ 0 < n /\ is_u32 n /\ b + n * 4096 <= PMM_MAX_PAGES * 4096 /\
  (forall p, b / 4096 <= p < b / 4096 + n -> pa_managed ps p = true /\ pa_available ps p = false).
Definition apart (r1 r2 : Z * Z) : Prop :=
  fst r1 + snd r1 * 4096 <= fst r2 \/ fst r2 + snd r2 * 4096 <= fst r1.
Record regions_ok (ps : St) (reg : nat + nat -> Z * Z) : Prop := {
  ro_in : forall k, fst (reg k) <> 0 -> region_in ps (fst (reg k)) (snd (reg k));
  ro_apart : forall k1 k2, k1 <> k2 -> fst (reg k1) <> 0 -> fst (reg k2) <> 0 -> apart (reg k1) (reg k2)
}.

(** A newly granted range is disjoint from everything the heap owned. *)
Lemma regions_grant ps m n ps' m' r k reg reg' :
  pa_ok ps -> regions_ok ps reg -> 0 < n -> is_u32 n -> page_grant ps m n ps' m' r ->
  fst (reg k) = 0 -> reg' k = (r, n) -> (forall k', k' <> k -> reg' k' = reg k') ->
  regions_ok ps' reg'.
Proof.
  intros Hok [Hin Hap] Hn Hn32 [Hpg Hlo Hhi Hbefore Hafter Hman _] Hk Hk' Hother.
  assert (forall k', k' <> k -> fst (reg k') <> 0 -> apart (reg k') (r, n)) as Hnew.
  { intros k' Hne Hnz. destruct (Hin k' Hnz) as (Hm & Hl & Hpos & _ & _ & Hown).
    unfold apart. cbn [fst snd].
    destruct (Z.le_gt_cases (fst (reg k') + snd (reg k') * 4096) r); [by left|].
    destruct (Z.le_gt_cases (r + n * 4096) (fst (reg k'))); [by right|exfalso].
    set (p := Z.max (fst (reg k') / 4096) (r / 4096)).
    pose proof (Hown p ltac:(subst p; dlia)) as [_ Hno].
    rewrite Hbefore in Hno by (subst p; dlia). done. }
  split.
  - intros k'. destruct (decide (k' = k)) as [->|Hne].
    + rewrite Hk'. cbn [fst snd]. intros _. split_and!; try done.
      intros p Hp. split.
      * rewrite Hman. apply pa_managed_law; [done|by apply Hbefore].
      * rewrite Hafter. split_if; [done|lia].
    + rewrite (Hother k' Hne). intros Hnz. destruct (Hin k' Hnz) as (Hm & Hl & Hpos & Hu & Hb & Hown).
      split_and!; try done. intros p Hp. split.
      * rewrite Hman. by apply Hown.
      * rewrite Hafter. split_if; [done|by apply Hown].
  - intros k1 k2 Hne. destruct (decide (k1 = k)) as [->|Hne1], (decide (k2 = k)) as [->|Hne2]; [done| | |].
    + rewrite Hk', (Hother k2) by done. intros _ Hnz. destruct (Hnew k2 Hne2 Hnz); [by right|by left].
    + rewrite Hk', (Hother k1) by done. intros Hnz _. by apply Hnew.
    + rewrite (Hother k1), (Hother k2) by done. by apply Hap.
Qed.

(** Returning one range leaves the others owned. *)
Lemma regions_release ps k reg reg' :
  pa_ok ps -> regions_ok ps reg -> fst (reg k) <> 0 -> fst (reg' k) = 0 ->
  (forall k', k' <> k -> reg' k' = reg k') ->
  pa_ok (pa_free ps (fst (reg k)) (snd (reg k))) /\
  regions_ok (pa_free ps (fst (reg k)) (snd (reg k))) reg'.
Proof.
  intros Hok [Hin Hap] Hnz Hk' Hother. destruct (Hin k Hnz) as (Hm & Hl & Hpos & Hu & Hb & Hown).
  assert (PMM_MAX_PAGES * 4096 < 2 ^ 64) by (unfold PMM_MAX_PAGES; lia).
  destruct (pa_free_law ps (fst (reg k)) (snd (reg k))) as (Hok' & Hav & Hman); try done.
  { unfold is_u64. lia. }
  split; [done|]. split.
  - intros k' Hnz'. destruct (decide (k' = k)) as [->|Hne]; [done|]. rewrite (Hother k' Hne) in *.
    destruct (Hin k' Hnz') as (Hm' & Hl' & Hpos' & Hu' & Hb' & Hown').
    split_and!; try done. intros p Hp. split; [rewrite Hman; by apply Hown'|].
    rewrite Hav. split_if; [|by apply Hown'].
    destruct (Hap k' k) as [Ha|Ha]; try done; exfalso; dlia.
  - intros k1 k2 Hne Hn1 Hn2.
    destruct (decide (k1 = k)) as [->|Hne1]; [done|]. destruct (decide (k2 = k)) as [->|Hne2]; [done|].
    rewrite (Hother k1), (Hother k2) in * by done. by apply Hap.
Qed.

Definition region (h : heap St) (k : nat + nat) : Z * Z :=
  match k with
  | inl i => (a_base (arenas h !!! i), 16)
  | inr i => (l_base (large h !!! i), l_pages (large h !!! i))
  end.

Record heap_inv (h : heap St) : Prop := {
  hi_pages : pa_ok (pages h);
  hi_arenas : length (arenas h) = 64%nat;
  hi_large : length (large h) = 64%nat;
  hi_regions : regions_ok (pages h) (region h);
  hi_wf : forall i, arena_wf (arenas h !!! i);
  hi_closed : forall i, a_base (arenas h !!! i) = 0 -> arenas h !!! i = arena0;
  hi_large_closed : forall i, l_base (large h !!! i) = 0 -> large h !!! i = large0
}.

(** * Live blocks *)
Record live_at (h : heap St) (i : nat) (u r b : Z) : Prop := {
  la_slot : (i < 64)%nat;
  la_open : a_base (arenas h !!! i) <> 0;
  la_unit : 0 <= u < UNITS;
  la_len : 0 < block_len (arenas h !!! i) u;
  la_addr : r = a_base (arenas h !!! i) + u * UNIT;
  la_size : b = zget (a_requested (arenas h !!! i)) u
}.
(** [r] is the address of a live arena block of [b] requested bytes; its
    extent, canary included, is [r, r + b + 8). *)
Definition live_block (h : heap St) (r b : Z) : Prop := exists i u, live_at h i u r b.

Lemma live_extent h i u r b :
  heap_inv h -> live_at h i u r b ->
  0x100000 <= a_base (arenas h !!! i) <= r /\ 0 < b /\
  r + b + 8 <= r + block_len (arenas h !!! i) u * UNIT /\
  r + block_len (arenas h !!! i) u * UNIT <= a_base (arenas h !!! i) + 65536 /\
  a_base (arenas h !!! i) + 65536 <= PMM_MAX_PAGES * 4096.
Proof.
  intros Hh [Hi Ho Hu Hl -> ->]. pose proof (hi_wf h Hh i) as Hwf.
  destruct (wf_len _ Hwf u Hu) as [_ Hend]. destruct (wf_requested _ Hwf u Hu Hl) as [Hr1 Hr2].
  destruct (ro_in _ _ (hi_regions h Hh) (inl i) Ho) as (_ & Hlo & _ & _ & Hhi & _).
  cbn [region fst snd] in *. unfold UNITS, UNIT in *. lia.
Qed.
Lemma live_units_disjoint h i u r b i' u' r' b' :
  heap_inv h -> live_at h i u r b -> live_at h i' u' r' b' ->
  (i = i' /\ u = u') \/ r + block_len (arenas h !!! i) u * UNIT <= r' \/
  r' + block_len (arenas h !!! i') u' * UNIT <= r.
Proof.
  intros Hh H1 H2. pose proof (live_extent h i u r b Hh H1). pose proof (live_extent h i' u' r' b' Hh H2).
  destruct (decide (i = i')) as [<-|Hne].
  - destruct H1 as [Hi Ho Hu Hl -> ->], H2 as [_ _ Hu' Hl' -> ->].
    pose proof (wf_disjoint _ (hi_wf h Hh i)) as Hd. unfold UNIT in *.
    destruct (Z.lt_trichotomy u u') as [Hlt|[->|Hgt]]; [right; left|by left|right; right].
    + specialize (Hd u u' ltac:(lia) ltac:(lia) Hl Hl'). lia.
    + specialize (Hd u' u ltac:(lia) ltac:(lia) Hl' Hl). lia.
  - right. destruct (ro_apart _ _ (hi_regions h Hh) (inl i) (inl i')) as [Ha|Ha].
    + congruence.
    + apply (la_open _ _ _ _ _ H1).
    + apply (la_open _ _ _ _ _ H2).
    + cbn [region fst snd] in Ha. lia.
    + cbn [region fst snd] in Ha. lia.
Qed.
Lemma live_disjoint h i u r b i' u' r' b' :
  heap_inv h -> live_at h i u r b -> live_at h i' u' r' b' ->
  (i = i' /\ u = u') \/ r + b + 8 <= r' \/ r' + b' + 8 <= r.
Proof.
  intros Hh H1 H2. pose proof (live_extent h i u r b Hh H1). pose proof (live_extent h i' u' r' b' Hh H2).
  destruct (live_units_disjoint h i u r b i' u' r' b' Hh H1 H2) as [?|[?|?]]; [by left|right; lia|right; lia].
Qed.

(** Everything live in [h] is live in [h'] with the same contents. *)
Definition preserves (h h' : heap St) : Prop :=
  forall i u r b, live_at h i u r b ->
    live_at h' i u r b /\ (forall a, r <= a < r + b + 8 -> zget (ram h') a = zget (ram h) a).
Lemma preserves_refl h : preserves h h.
Proof. by intros i u r b Hl. Qed.
Lemma preserves_trans h1 h2 h3 : preserves h1 h2 -> preserves h2 h3 -> preserves h1 h3.
Proof.
  intros H12 H23 i u r b Hl. destruct (H12 i u r b Hl) as [Hl2 Hm2].
  destruct (H23 i u r b Hl2) as [Hl3 Hm3]. split; [done|]. intros a Ha. rewrite Hm3, Hm2; done.
Qed.

Lemma set_arena_at (h : heap St) i a j :
  length (arenas h) = 64%nat -> 0 <= i < 64 ->
  arenas (set_arena i a h) !!! j = if decide (j = Z.to_nat i) then a else arenas h !!! j.
Proof.
  intros Hlen Hi. unfold set_arena. cbn. case_decide as Hj.
  - subst j. apply list_lookup_total_insert_eq. lia.
  - by apply list_lookup_total_insert_ne.
Qed.
Lemma set_large_at (h : heap St) i b j :
  length (large h) = 64%nat -> 0 <= i < 64 ->
  large (set_large i b h) !!! j = if decide (j = Z.to_nat i) then b else large h !!! j.
Proof.
  intros Hlen Hi. unfold set_large. cbn. case_decide as Hj.
  - subst j. apply list_lookup_total_insert_eq. lia.
  - by apply list_lookup_total_insert_ne.
Qed.

(** ** Changes that keep the page ranges *)
Lemma heap_inv_same (h h' : heap St) :
  heap_inv h -> pages h' = pages h -> arenas h' = arenas h -> large h' = large h -> heap_inv h'.
Proof.
  intros [Hp Ha Hl Hr Hw Hc Hlc] Ep Ea El. split; rewrite ?Ep, ?Ea, ?El; try done.
  destruct Hr as [Hin Hap]. split; intros *; unfold region in *; rewrite ?Ea, ?El.
  - apply Hin.
  - apply Hap.
Qed.
Lemma heap_inv_set_arena (h : heap St) i a :
  heap_inv h -> 0 <= i < 64 -> arena_wf a ->
  a_base a = a_base (arenas h !!! Z.to_nat i) -> a_base a <> 0 -> heap_inv (set_arena i a h).
Proof.
  intros [Hp Ha Hl Hr Hw Hc Hlc] Hi Hwf Hb Hnz.
  assert (forall k, region (set_arena i a h) k = region h k) as Hreg.
  { intros [j|j]; [|done]. cbn [region]. rewrite set_arena_at by done. case_decide; [|done].
    by subst j; rewrite Hb. }
  split; try done.
  - unfold set_arena. cbn. by rewrite length_insert.
  - destruct Hr as [Hin Hap]. split.
    + intros k. rewrite Hreg. apply Hin.
    + intros k1 k2. rewrite !Hreg. apply Hap.
  - intros j. rewrite set_arena_at by done. by case_decide.
  - intros j. rewrite set_arena_at by done. case_decide; [done|apply Hc].
Qed.

(** Two heaps with the same slots and page source. *)
Lemma heap_inv_slots (h h' : heap St) :
  heap_inv h -> pages h' = pages h -> length (arenas h') = 64%nat -> large h' = large h ->
  (forall j, arenas h' !!! j = arenas h !!! j) -> heap_inv h'.
Proof.
  intros [Hp Ha Hl [Hin Hap] Hw Hc Hlc] Ep Hlen El Ea.
  assert (forall k, region h' k = region h k) as Hreg.
  { intros [j|j]; cbn [region]; by rewrite ?Ea, ?El. }
  split; rewrite ?Ep, ?El; try done.
  - split; [intros k; rewrite Hreg; apply Hin|intros k1 k2; rewrite !Hreg; apply Hap].
  - intros j. by rewrite Ea.
  - intros j. rewrite Ea. apply Hc.
Qed.

(** Fresh pages hold no live block. *)
Lemma grant_keeps_blocks (h : heap St) n ps m r j u r0 b0 :
  heap_inv h -> page_grant (pages h) (ram h) n ps m r -> live_at h j u r0 b0 ->
  forall a, r0 <= a < r0 + b0 + 8 -> zget m a = zget (ram h) a.
Proof.
  intros Hh Hgr Hl a Ha. pose proof (live_extent h j u r0 b0 Hh Hl) as Hext.
  destruct Hl as [_ Hop _ _ _ _].
  rewrite (grant_ram _ _ _ _ _ _ Hgr). split_if; [exfalso|done].
  destruct (ro_in _ _ (hi_regions h Hh) (inl j) Hop) as (Hm & _ & _ & _ & _ & Hown).
  cbn [region fst snd] in Hm, Hown. pose proof (grant_page _ _ _ _ _ _ Hgr).
  pose proof (Hown (a / 4096) ltac:(dlia)) as [_ Hno].
  rewrite (grant_before _ _ _ _ _ _ Hgr) in Hno by dlia. done.
Qed.

(** ** Opening an arena *)
Section Opened.
Context (h h' : heap St) (i : nat) (r : Z).
Hypothesis Hh : heap_inv h.
Hypothesis Hgr : page_grant (pages h) (ram h) 16 (pages h') (ram h') r.
Hypothesis Hok : pa_ok (pages h').
Hypothesis Hr : r <> 0.
Hypothesis Hclosed : a_base (arenas h !!! i) = 0.
Hypothesis Hlen : length (arenas h') = 64%nat.
Hypothesis Hlarge : large h' = large h.
Hypothesis Hat : forall j, arenas h' !!! j =
  if decide (j = i) then arena0 <| a_base := r |> else arenas h !!! j.

Lemma opened_inv : heap_inv h'.
Proof.
  destruct Hh as [Hp Ha Hl Hreg Hw Hc Hlc]. split; rewrite ?Hlarge; try done.
  - apply (regions_grant (pages h) (ram h) 16 (pages h') (ram h') r (inl i) (region h)); try done.
    + cbn [region]. by rewrite Hat, decide_True by done.
    + intros [j|j] Hne; cbn [region]; [|by rewrite Hlarge]. by rewrite Hat, decide_False by congruence.
  - intros j. rewrite Hat. case_decide; [apply arena_wf_empty|apply Hw].
  - intros j. rewrite Hat. case_decide; [done|apply Hc].
Qed.
Lemma opened_preserves : preserves h h'.
Proof.
  intros j u r0 b0 Hl. pose proof (grant_keeps_blocks h 16 _ _ r j u r0 b0 Hh Hgr Hl) as Hram.
  destruct Hl as [? Hop ? ? ? ?].
  assert (j <> i) as Hne by (intros ->; done). split; [|done].
  split; rewrite ?Hat, ?decide_False by done; done.
Qed.
End Opened.

Lemma open_arena_ok (h : heap St) i h' ok :
  heap_inv h -> 0 <= i < 64 -> open_arena i h = (h', ok) ->
  heap_inv h' /\ preserves h h' /\ (ok = true -> a_base (arenas h' !!! Z.to_nat i) <> 0).
Proof.
  intros Hh Hi. unfold open_arena.
  destruct (Z.eqb_spec (a_base (arenas h !!! Z.to_nat i)) 0) as [Hb|Hb]; cbn [negb].
  2: { intros [= <- <-]. split; [done|]. split; [apply preserves_refl|done]. }
  destruct (pa_alloc (pages h) (ram h) 16 0) as [[ps m] r] eqn:Hal. cbv zeta.
  destruct (pa_alloc_law (pages h) (ram h) 16 0 ps m r) as [Hok Hcase];
    [apply (hi_pages h Hh)|unfold is_u32; lia|unfold is_u64; lia|done|].
  pose proof (hi_closed h Hh (Z.to_nat i) Hb) as Ha0.
  set (h1 := h <| pages := ps |> <| ram := m |>).
  change (arenas h1) with (arenas h). rewrite Ha0.
  pose proof (hi_arenas h Hh : length (arenas h1) = 64%nat) as Hlen.
  assert (forall a, length (arenas (set_arena i a h1)) = 64%nat) as Hlen'.
  { intros a. unfold set_arena. cbn. rewrite length_insert. apply Hlen. }
  destruct Hcase as [(-> & -> & ->)|(Hnz & Hpos & Hgr)].
  - cbn [Z.eqb]. intros [= <- <-].
    assert (forall j, arenas (set_arena i (arena0 <| a_base := 0 |>) h1) !!! j = arenas h !!! j) as Hsame.
    { intros j. rewrite set_arena_at by done. case_decide; [subst j; by rewrite Ha0|done]. }
    split; [|split; [|done]].
    + by apply (heap_inv_slots h).
    + intros j u r b [? ? ? ? ? ?]. split; [|done]. split; by rewrite ?Hsame.
  - destruct (Z.eqb_spec r 0); [done|]. intros [= <- <-].
    assert (forall j, arenas (add_committed 65536 (set_arena i (arena0 <| a_base := r |>) h1)) !!! j =
              if decide (j = Z.to_nat i) then arena0 <| a_base := r |> else arenas h !!! j) as Hat.
    { intros j. change (arenas (add_committed 65536 ?x)) with (arenas x). by rewrite set_arena_at. }
    split; [|split].
    + apply (opened_inv h _ (Z.to_nat i) r); try done. apply Hlen'.
    + by apply (opened_preserves h _ (Z.to_nat i) r).
    + intros _. by rewrite Hat, decide_True by done.
Qed.

(** ** Allocation from the arenas *)
(** What a successful allocation adds: the block is live at [r], everything
    that was live still is, with its contents, and is disjoint from it. *)
Definition fresh_block (h h' : heap St) (r b alignment : Z) : Prop :=
  Z.land r (alignment - 1) = 0 /\
  exists i u, live_at h' i u r b /\ (forall r0 b0, ~ live_at h i u r0 b0).

(** Claiming free units of an open arena adds one live block. *)
Lemma take_units_live (h : heap St) i u n bytes :
  heap_inv h -> 0 <= i < 64 -> a_base (arenas h !!! Z.to_nat i) <> 0 ->
  0 <= u -> 0 < n -> u + n <= UNITS -> 0 < bytes -> bytes + 8 <= n * UNIT ->
  (forall k, u <= k < u + n -> occupied (arenas h !!! Z.to_nat i) k = false) ->
  let h' := set_arena i (take_units (arenas h !!! Z.to_nat i) u n bytes) h in
  heap_inv h' /\ preserves h h' /\
  live_at h' (Z.to_nat i) u (a_base (arenas h !!! Z.to_nat i) + u * UNIT) bytes /\
  (forall r0 b0, ~ live_at h (Z.to_nat i) u r0 b0).
Proof.
  intros Hh Hi Hnz Hu Hn Hend Hb Hfit Hfree h'. set (a := arenas h !!! Z.to_nat i) in *.
  pose proof (hi_wf h Hh (Z.to_nat i) : arena_wf a) as Hwf.
  assert (heap_inv h') as Hh'.
  { apply heap_inv_set_arena; try done. by apply take_units_wf. }
  assert (forall j, arenas h' !!! j = if decide (j = Z.to_nat i) then take_units a u n bytes else arenas h !!! j) as Hat.
  { intros j. apply set_arena_at; [apply (hi_arenas h Hh)|done]. }
  assert (block_len a u = 0) as Hgap.
  { destruct (wf_len a Hwf u) as [Hge _]; [lia|].
    destruct (Z.eq_dec (block_len a u) 0) as [|Hne]; [done|exfalso].
    pose proof (Hfree u ltac:(lia)) as Hf. rewrite (proj2 (wf_used a Hwf u ltac:(lia))) in Hf; [done|].
    exists u. lia. }
  unfold UNITS, UNIT in *. split; [done|]. split; [|split].
  - intros j v r b [Hj Hjo Hv Hvl Hvr Hvb]. split; [|done].
    assert (j = Z.to_nat i -> v <> u) as Hnew by (intros -> ->; fold a in Hvl; lia).
    split; rewrite ?Hat; try done; case_decide as Hd; try done; specialize (Hnew Hd); subst j; try done.
    + rewrite take_units_len by lia. by destruct (Z.eqb_spec u v).
    + rewrite take_units_requested by (unfold is_u32; lia). by destruct (Z.eqb_spec u v).
  - split; rewrite ?Hat, ?decide_True by done; try done; try lia.
    + unfold UNITS. lia.
    + rewrite take_units_len, Z.eqb_refl by lia. lia.
    + rewrite take_units_requested, Z.eqb_refl by (unfold is_u32; lia). done.
  - intros r0 b0 [_ _ _ Hl _ _]. fold a in Hl. lia.
Qed.

Lemma arena_step_ok bytes alignment i (h : heap St) :
  heap_inv h -> 0 <= i < 64 -> 0 < bytes <= 32760 ->
  match arena_step bytes alignment i h with
  | Next h' => heap_inv h' /\ preserves h h'
  | Exit (h', r) => heap_inv h' /\ preserves h h' /\ (r <> 0 -> fresh_block h h' r bytes alignment)
  end.
Proof.
  intros Hh Hi Hb. unfold arena_step. cbv zeta.
  destruct (open_arena i h) as [h1 ok] eqn:Hopen.
  destruct (open_arena_ok h i h1 ok Hh Hi Hopen) as (Hh1 & Hpre & Hnz).
  destruct ok; cbn [negb]; [|done]. specialize (Hnz eq_refl).
  set (needed := u32 ((bytes + 8 + UNIT - 1) / UNIT)).
  assert (needed = (bytes + 71) / 64) as Hneed.
  { subst needed. unfold u32, UNIT. replace (bytes + 8 + 64 - 1) with (bytes + 71) by lia.
    apply Z.mod_small. dlia. }
  assert (0 < needed /\ bytes + 8 <= needed * UNIT) as (Hn1 & Hn3) by (unfold UNIT; dlia).
  pose proof (first_fit_spec (arenas h1 !!! Z.to_nat i) alignment needed fit_fuel 0 Hn1
                ltac:(vm_compute; reflexivity)) as Hfit.
  destruct (first_fit fit_fuel _ alignment needed 0) as [u|]; [|done].
  destruct Hfit as (Hu & (Hend & Hal & Hfree) & _).
  destruct (take_units_live h1 i u needed bytes) as (Hh2 & Hp2 & Hl2 & Hno); try done; [lia|].
  split; [done|]. split; [by apply (preserves_trans h h1)|]. intros _. split; [done|].
  pose proof (live_extent _ _ _ _ _ Hh2 Hl2) as Hext.
  assert (PMM_MAX_PAGES * 4096 < 2 ^ 64) by (unfold PMM_MAX_PAGES; lia).
  exists (Z.to_nat i), u. split.
  - unfold u64. rewrite Z.mod_small; [done|].
    pose proof (hi_wf _ Hh2 (Z.to_nat i)). destruct Hl2 as [_ _ _ Hl2 _ _].
    unfold UNIT in *. lia.
  - intros r0 b0 Hl. apply (Hno r0 b0). by apply Hpre.
Qed.

Lemma arena_search_ok bytes alignment (h : heap St) h' r :
  heap_inv h -> 0 < bytes <= 32760 ->
  match for_range 0 ARENAS (arena_step bytes alignment) h with Next h1 => (h1, 0) | Exit x => x end = (h', r) ->
  heap_inv h' /\ preserves h h' /\ (r <> 0 -> fresh_block h h' r bytes alignment).
Proof.
  intros Hh Hb.
  pose proof (for_range_inv (fun _ h1 => heap_inv h1 /\ preserves h h1)
    (fun x => heap_inv (fst x) /\ preserves h (fst x) /\
              (snd x <> 0 -> fresh_block h (fst x) (snd x) bytes alignment))
    (arena_step bytes alignment) 0 ARENAS h ltac:(unfold ARENAS; lia)) as Hloop.
  pose proof (Hloop ltac:(split; [done|apply preserves_refl])) as Hrule. clear Hloop.
  assert (forall i h1, 0 <= i < ARENAS -> heap_inv h1 /\ preserves h h1 ->
    match arena_step bytes alignment i h1 with
    | Next h2 => heap_inv h2 /\ preserves h h2
    | Exit x => heap_inv (fst x) /\ preserves h (fst x) /\
                (snd x <> 0 -> fresh_block h (fst x) (snd x) bytes alignment)
    end) as Hstep.
  { intros i h1 Hi [Hi1 Hp1]. pose proof (arena_step_ok bytes alignment i h1 Hi1 Hi Hb) as Hs.
    destruct (arena_step _ _ _ _) as [h2|[h2 r2]].
    - destruct Hs as [? ?]. split; [done|by apply (preserves_trans h h1)].
    - destruct Hs as (? & ? & Hf). cbn [fst snd]. split; [done|].
      split; [by apply (preserves_trans h h1)|]. intros Hr.
      destruct (Hf Hr) as [Hal (j & u & Hl & Hno)]. split; [done|]. exists j, u. split; [done|].
      intros r0 b0 Hl0. apply (Hno r0 b0). by apply Hp1. }
  specialize (Hrule Hstep). destruct (for_range 0 ARENAS _ h) as [h1|x].
  - intros [= <- <-]. destruct Hrule. done.
  - intros ->. done.
Qed.

(** ** Large blocks *)
Lemma large_step_ok bytes alignment i (h : heap St) :
  heap_inv h -> 0 <= i < 64 -> 0 < bytes <= 64 * 1024 * 1024 -> 0 < alignment <= 0x200000 ->
  match large_step bytes alignment i h with
  | Next h' => h' = h
  | Exit (h', r) => heap_inv h' /\ preserves h h'
  end.
Proof.
  intros Hh Hi Hb Ha. unfold large_step.
  destruct (Z.eqb_spec (l_base (large h !!! Z.to_nat i)) 0) as [Hfree|]; cbn [negb]; [|done]. cbv zeta.
  set (n := u32 ((bytes + alignment + 7 + 4095) / 4096)).
  assert (is_u32 n) as Hn by (subst n; unfold u32, is_u32; by apply Z.mod_pos_bound).
  destruct (pa_alloc (pages h) (ram h) n 0) as [[ps m] base] eqn:Hal.
  destruct (pa_alloc_law (pages h) (ram h) n 0 ps m base) as [Hok Hcase];
    [apply (hi_pages h Hh)|done|unfold is_u64; lia|done|].
  destruct Hcase as [(-> & -> & ->)|(Hnz & Hpos & Hgr)].
  { cbn [Z.eqb]. split; [by apply (heap_inv_same h)|].
    intros j u r b [? ? ? ? ? ?]. split; [by split|done]. }
  destruct (Z.eqb_spec base 0); [done|].
  set (blk := mk_large_block base (ALIGN_UP_u32 base alignment) bytes n).
  set (h1 := h <| pages := ps |> <| ram := m |>).
  assert (forall j, large (add_committed (n * 4096) (set_large i blk h1)) !!! j =
            if decide (j = Z.to_nat i) then blk else large h !!! j) as Hat.
  { intros j. change (large (add_committed (n * 4096) ?x)) with (large x).
    by rewrite set_large_at; [|apply (hi_large h Hh)|]. }
  split.
  - destruct Hh as [Hp Hla Hll Hr Hw Hc Hlc]. split; try done.
    + cbn. by rewrite length_insert.
    + apply (regions_grant (pages h) (ram h) n ps m base (inr (Z.to_nat i)) (region h)); try done.
      * cbn [region]. by rewrite Hat, decide_True by done.
      * intros [j|j] Hne; cbn [region]; [done|]. by rewrite Hat, decide_False by congruence.
    + intros j. rewrite Hat. case_decide; [done|apply Hlc].
  - intros j u r b Hl. split; [|by apply (grant_keeps_blocks h n ps m base j u)].
    destruct Hl as [? ? ? ? ? ?]. by split.
Qed.
Lemma large_search_inv bytes alignment (h : heap St) h' r :
  heap_inv h -> 0 < bytes <= 64 * 1024 * 1024 -> 0 < alignment <= 0x200000 ->
  match for_range 0 64 (large_step bytes alignment) h with Next h1 => (h1, 0) | Exit x => x end = (h', r) ->
  heap_inv h'.
Proof.
  intros Hh Hb Ha.
  pose proof (for_range_inv (fun _ h1 => h1 = h) (fun x => heap_inv (fst x))
                (large_step bytes alignment) 0 64 h ltac:(lia) eq_refl) as Hloop.
  assert (forall i h1, 0 <= i < 64 -> h1 = h ->
    match large_step bytes alignment i h1 with Next h2 => h2 = h | Exit x => heap_inv (fst x) end) as Hstep.
  { intros i h1 Hi ->. pose proof (large_step_ok bytes alignment i h Hh Hi Hb Ha) as Hs.
    destruct (large_step _ _ _ _) as [|[? ?]]; [done|]. by destruct Hs. }
  specialize (Hloop Hstep). destruct (for_range 0 64 _ h) as [h1|x]; intros Heq.
  - simplify_eq. done.
  - by rewrite Heq in Hloop.
Qed.
Lemma heap_alloc_keeps_inv (h : heap St) bytes alignment :
  heap_inv h -> 0 <= bytes -> is_u32 alignment -> heap_inv (fst (k_heap_alloc h bytes alignment)).
Proof.
  intros Hh Hb Hal. unfold k_heap_alloc. split_if; [done|]. cbv zeta.
  set (al := if alignment <? 16 then 16 else alignment).
  assert (0 < al <= 0x200000).
  { subst al. unfold is_u32 in Hal. split_if; lia. }
  match goal with |- context [let '(_, _) := ?x in _] => destruct x as [h1 r] eqn:Hx end.
  assert (heap_inv h1) as Hh1.
  { destruct ((32768 <? bytes + 8) || (4096 <? al)) eqn:Hpath.
    - apply (large_search_inv bytes al h h1 r); try done; lia.
    - reflect_bools. apply (arena_search_ok bytes al h h1 r); try done; lia. }
  cbn [fst]. destruct (r =? 0); [done|]. by apply (heap_inv_same h1).
Qed.

(** ** Release of an arena block *)
(** Everything but the block at unit [u] of arena [i] stays live, unchanged. *)
Definition preserves_others (h h' : heap St) (i : nat) (u : Z) : Prop :=
  forall j v r b, live_at h j v r b -> ~ (j = i /\ v = u) ->
    live_at h' j v r b /\ (forall a, r <= a < r + b + 8 -> zget (ram h') a = zget (ram h) a).

Section Release.
Context (h : heap St) (i : Z) (p b : Z) (u : Z).
Hypothesis Hh : heap_inv h.
Hypothesis Hi : 0 <= i < 64.
Hypothesis Hl : live_at h (Z.to_nat i) u p b.
Let a : arena := arenas h !!! Z.to_nat i.
Let n : Z := block_len a u.

Lemma drop_ok : arena_wf (drop_units a u n) /\ a_live (drop_units a u n) = a_live a - 1.
Proof.
  apply drop_units_wf; [apply (hi_wf h Hh)|apply (la_unit _ _ _ _ _ Hl)|done|apply (la_len _ _ _ _ _ Hl)].
Qed.
Lemma zeroed_keeps_others j v r b0 x :
  live_at h j v r b0 -> ~ (j = Z.to_nat i /\ v = u) -> r <= x < r + b0 + 8 ->
  zget (mem_zero (ram h) p (n * UNIT)) x = zget (ram h) x.
Proof.
  intros Hl' Hne Hx. pose proof (la_len _ _ _ _ _ Hl).
  rewrite mem_zero_spec by (unfold UNIT; subst n a; lia). split_if; [exfalso|done].
  pose proof (live_extent h j v r b0 Hh Hl').
  destruct (live_units_disjoint h _ u p b j v r b0 Hh Hl Hl') as [[<- <-]|[?|?]]; [tauto| |];
    subst n a; lia.
Qed.

(** The arena stays open: only its tables and the block's bytes change. *)
Lemma release_keep h' :
  pages h' = pages h -> large h' = large h ->
  ram h' = mem_zero (ram h) p (n * UNIT) ->
  arenas h' = <[Z.to_nat i := drop_units a u n]> (arenas h) ->
  heap_inv h' /\ preserves_others h h' (Z.to_nat i) u /\
  (forall r0 b0, ~ live_at h' (Z.to_nat i) u r0 b0).
Proof.
  intros Ep El Er Ea. destruct drop_ok as [Hwf _].
  pose proof (la_open _ _ _ _ _ Hl) as Hop. fold a in Hop.
  assert (forall j, arenas h' !!! j = if decide (j = Z.to_nat i) then drop_units a u n else arenas h !!! j) as Hat.
  { intros j. rewrite Ea. apply (set_arena_at h i _ j); [apply (hi_arenas h Hh)|done]. }
  split; [|split].
  - apply (heap_inv_same (set_arena i (drop_units a u n) h)); try done.
    by apply heap_inv_set_arena.
  - intros j v r b0 Hl' Hne. split.
    + destruct Hl' as [? ? ? ? ? ?].
      assert (j = Z.to_nat i -> u <> v) as Hv by (intros ->; intros ->; tauto).
      split; rewrite ?Hat; try done; case_decide as Hd; try done; specialize (Hv Hd); subst j; try done.
      * rewrite drop_units_len. by destruct (Z.eqb_spec u v).
      * unfold drop_units. cbn. rewrite zget_put. by destruct (Z.eqb_spec u v).
    + intros x Hx. rewrite Er. by apply (zeroed_keeps_others j v r b0).
  - intros r0 b0 [_ _ _ Hlen _ _]. rewrite Hat, decide_True, drop_units_len, Z.eqb_refl in Hlen by done. lia.
Qed.

(** The last block of the arena: its pages go back to the page source. *)
Lemma release_close h' :
  a_live a = 1 ->
  pages h' = pa_free (pages h) (a_base a) 16 -> large h' = large h ->
  ram h' = mem_zero (ram h) p (n * UNIT) ->
  arenas h' = <[Z.to_nat i := arena0]> (arenas h) ->
  heap_inv h' /\ preserves_others h h' (Z.to_nat i) u /\
  (forall r0 b0, ~ live_at h' (Z.to_nat i) u r0 b0).
Proof.
  intros Hlive Ep El Er Ea. destruct drop_ok as [Hwf Hl0].
  pose proof (la_open _ _ _ _ _ Hl) as Hop. fold a in Hop.
  assert (forall j, arenas h' !!! j = if decide (j = Z.to_nat i) then arena0 else arenas h !!! j) as Hat.
  { intros j. rewrite Ea. apply (set_arena_at h i _ j); [apply (hi_arenas h Hh)|done]. }
  split; [|split].
  - destruct (regions_release (pages h) (inl (Z.to_nat i)) (region h) (region h')) as [Hok Hreg];
      [apply (hi_pages h Hh)|apply (hi_regions h Hh)|done| | |].
    + cbn [region fst]. by rewrite Hat, decide_True by done.
    + intros [j|j] Hne; cbn [region]; [by rewrite Hat, decide_False by congruence|by rewrite El].
    + destruct Hh as [Hp Hla Hll Hr Hw Hc Hlc]. split; rewrite ?Ep, ?El; try done.
      * rewrite Ea. by rewrite length_insert.
      * intros j. rewrite Hat. case_decide; [apply (arena_wf_empty 0)|apply Hw].
      * intros j. rewrite Hat. case_decide; [done|apply Hc].
  - intros j v r b0 Hl' Hne.
    assert (j <> Z.to_nat i) as Hj.
    { intros ->. destruct Hl' as [_ _ Hv Hlen _ _].
      assert ((0 <? block_len (drop_units a u n) v) = false) as Hz.
      { apply (count_range_zero 0 UNITS (fun v => 0 <? block_len (drop_units a u n) v)); [done|].
        rewrite <- (wf_live _ Hwf). lia. }
      rewrite drop_units_len in Hz. fold a in Hlen. destruct (Z.eqb_spec u v); [by destruct Hne|].
      apply Z.ltb_ge in Hz. lia. }
    split; [|intros x Hx; rewrite Er; by apply (zeroed_keeps_others j v r b0)].
    destruct Hl' as [? ? ? ? ? ?]. split; rewrite ?Hat, ?decide_False by done; done.
  - intros r0 b0 [_ Hopen _ _ _ _]. by rewrite Hat, decide_True in Hopen by done.
Qed.

(** [k_heap_free] of a live block, once its arena has been found. *)
Lemma free_unit_block_live :
  if canary_ok h p b
  then exists h', free_unit_block h p i = (h', 0) /\ heap_inv h' /\
         preserves_others h h' (Z.to_nat i) u /\ (forall r0 b0, ~ live_at h' (Z.to_nat i) u r0 b0)
  else free_unit_block h p i = (h, K_EFAULT).
Proof.
  pose proof (la_unit _ _ _ _ _ Hl) as Hu. pose proof (la_len _ _ _ _ _ Hl) as Hlen.
  pose proof (la_addr _ _ _ _ _ Hl) as Hp. pose proof (la_size _ _ _ _ _ Hl) as Hb. fold a in Hlen, Hp, Hb.
  pose proof (hi_wf h Hh (Z.to_nat i) : arena_wf a) as Hwf. destruct (wf_len a Hwf u Hu) as [_ Hend].
  unfold free_unit_block. fold a.
  assert ((p - a_base a) / UNIT = u) as ->.
  { rewrite Hp. replace (a_base a + u * UNIT - a_base a) with (u * UNIT) by lia.
    apply Z.div_mul. done. }
  change (zget (a_length a) u) with n. rewrite <- Hb.
  rewrite (proj2 (Z.eqb_neq n 0)), (proj2 (Z.ltb_ge (UNITS - u) n)) by (subst n; lia). cbn [orb].
  destruct (canary_ok h p b) eqn:Hcan; cbn [negb]; [|done].
  destruct (any_range 0 n _) eqn:Hany.
  { apply any_range_spec in Hany as (k & Hk & Hocc). apply negb_true_iff in Hocc.
    rewrite (proj2 (wf_used a Hwf (u + k) ltac:(subst n; lia))) in Hocc; [done|].
    exists u. subst n. lia. }
  destruct drop_ok as [Hwf' Hlive'].
  destruct (Z.eqb_spec (u32 (a_live a - 1)) 0) as [Hz|Hz].
  - eexists. split; [cbn [a_live modify]; rewrite (proj2 (Z.eqb_eq _ _) Hz); reflexivity|].
    apply release_close; try done.
    assert (a_live (drop_units a u n) = 0) by exact Hz. lia.
  - eexists. split; [cbn [a_live modify]; rewrite (proj2 (Z.eqb_neq _ _) Hz); reflexivity|].
    by apply release_keep.
Qed.
End Release.

(** ** Release in general *)
(** The arena test of [k_heap_free]. *)
Definition in_arena (h : heap St) (p i : Z) : bool :=
  let b := a_base (arenas h !!! Z.to_nat i) in
  negb ((b =? 0) || (p <? b) || (65536 <=? p - b) || negb ((p - b) mod UNIT =? 0)).
Lemma in_arena_spec (h : heap St) p i :
  in_arena h p i = true <->
  let b := a_base (arenas h !!! Z.to_nat i) in b <> 0 /\ b <= p < b + 65536 /\ (p - b) mod UNIT = 0.
Proof.
  unfold in_arena. cbv zeta.
  rewrite negb_true_iff, !orb_false_iff, negb_false_iff, Z.eqb_neq, Z.ltb_ge, Z.leb_gt, Z.eqb_eq. lia.
Qed.
Lemma find_arena_live (h : heap St) i u p b :
  heap_inv h -> live_at h i u p b -> find_range 0 ARENAS (in_arena h p) = Some (Z.of_nat i).
Proof.
  intros Hh Hl. pose proof (live_extent h i u p b Hh Hl) as Hext. destruct Hl as [Hi Ho Hu Hlen Hp Hb].
  assert (in_arena h p (Z.of_nat i) = true) as Hin.
  { apply in_arena_spec. rewrite Nat2Z.id. cbv zeta. split; [done|]. split; [lia|].
    replace (p - a_base (arenas h !!! i)) with (u * UNIT) by lia. by apply Z.mod_mul. }
  destruct (find_range 0 ARENAS (in_arena h p)) as [k|] eqn:Hf.
  - apply find_range_Some in Hf as (Hk & Hpk & _). apply in_arena_spec in Hpk as (Hk0 & Hkr & _).
    destruct (decide (Z.to_nat k = i)) as [<-|Hne]; [f_equal; lia|exfalso].
    destruct (ro_apart _ _ (hi_regions h Hh) (inl (Z.to_nat k)) (inl i)) as [Ha|Ha];
      [congruence|done|done| |]; cbn [region fst snd] in Ha; lia.
  - rewrite find_range_None in Hf. rewrite Hf in Hin; [done|]. unfold ARENAS. lia.
Qed.

Lemma free_unit_block_inv (h : heap St) p i :
  heap_inv h -> 0 <= i < 64 -> in_arena h p i = true -> heap_inv (fst (free_unit_block h p i)).
Proof.
  intros Hh Hi Hin. apply in_arena_spec in Hin as (Hb & Hr & Hm). unfold UNIT in Hm.
  set (u := (p - a_base (arenas h !!! Z.to_nat i)) / UNIT).
  assert (0 <= u < UNITS) as Hu by (subst u; unfold UNIT, UNITS; dlia).
  destruct (wf_len _ (hi_wf h Hh (Z.to_nat i)) u Hu) as [Hge _].
  destruct (Z.eq_dec (block_len (arenas h !!! Z.to_nat i) u) 0) as [Hz|Hnz].
  - unfold free_unit_block. fold u. unfold block_len in Hz. rewrite Hz, Z.eqb_refl. done.
  - assert (live_at h (Z.to_nat i) u p (zget (a_requested (arenas h !!! Z.to_nat i)) u)) as Hl.
    { split; try done; [lia|lia|]. subst u. unfold UNIT. dlia. }
    pose proof (free_unit_block_live h i p _ u Hh Hi Hl) as Hfree.
    destruct (canary_ok h p _).
    + destruct Hfree as (h' & -> & Hinv & _). done.
    + by rewrite Hfree.
Qed.
Lemma free_large_inv (h : heap St) p i :
  heap_inv h -> 0 <= i < 64 -> p <> 0 -> l_pointer (large h !!! Z.to_nat i) = p ->
  heap_inv (fst (free_large h p i)).
Proof.
  intros Hh Hi Hp Hptr. unfold free_large. split_if; [done|]. cbn [fst].
  set (b := large h !!! Z.to_nat i) in *.
  assert (l_base b <> 0) as Hb.
  { intros Hz. pose proof (hi_large_closed h Hh (Z.to_nat i) Hz) as Hl0. fold b in Hl0.
    rewrite Hl0 in Hptr. cbn in Hptr. lia. }
  match goal with |- heap_inv ?x => set (h' := x) end.
  assert (forall j, large h' !!! j = if decide (j = Z.to_nat i) then large0 else large h !!! j) as Hat.
  { intros j. subst h'. rewrite set_large_at; [done|apply (hi_large h Hh)|done]. }
  destruct (regions_release (pages h) (inr (Z.to_nat i)) (region h) (region h')) as [Hok Hreg];
    [apply (hi_pages h Hh)|apply (hi_regions h Hh)|done| | |].
  - cbn [region fst]. by rewrite Hat, decide_True by done.
  - intros [j|j] Hne; cbn [region]; [done|]. by rewrite Hat, decide_False by congruence.
  - destruct Hh as [Hps Hla Hll Hr Hw Hc Hlc]. split; try done.
    + cbn. by rewrite length_insert.
    + intros j. rewrite Hat. case_decide; [done|apply Hlc].
Qed.
Lemma heap_free_keeps_inv (h : heap St) p : heap_inv h -> heap_inv (fst (k_heap_free h p)).
Proof.
  intros Hh. unfold k_heap_free. destruct (Z.eqb_spec p 0) as [|Hp]; [done|].
  assert (forall x : heap St * Z, heap_inv (fst x) ->
    heap_inv (fst (let '(h1, e) := x in (if e =? 0 then h1 else add_error h1, e)))) as Hfin.
  { intros [h1 e] Hx. cbn [fst] in *. destruct (e =? 0); [done|]. by apply (heap_inv_same h1). }
  apply Hfin. destruct (find_range 0 64 _) as [i|] eqn:Hf.
  - apply find_range_Some in Hf as (Hi & Hptr & _). apply Z.eqb_eq in Hptr. by apply free_large_inv.
  - change (fun i => _) with (in_arena h p). destruct (find_range 0 ARENAS _) as [i|] eqn:Hfa; [|done].
    apply find_range_Some in Hfa as (Hi & Hin & _). by apply free_unit_block_inv.
Qed.
End Ownership.

(** * Reachable heaps *)
Section Reach.
Context {St : Type} `{PageSourceLaws St}.

Definition heap_init (ps : St) (m : zmap) : heap St :=
  mk_heap (replicate 64 arena0) (replicate 64 large0) (mk_k_heap_info 0 0 0 0) ps m.
Inductive heap_reachable : heap St -> Prop :=
  | hr_init ps m : pa_ok ps -> heap_reachable (heap_init ps m)
  | hr_alloc h bytes alignment :
      heap_reachable h -> is_u64 bytes -> is_u32 alignment ->
      heap_reachable (fst (k_heap_alloc h bytes alignment))
  | hr_free h p : heap_reachable h -> heap_reachable (fst (k_heap_free h p))
  (** the rest of the kernel may write to memory, through the blocks or not *)
  | hr_store h m : heap_reachable h -> heap_reachable (h <| ram := m |>).

Lemma heap_init_inv ps m : pa_ok ps -> heap_inv (heap_init ps m).
Proof.
  intros Hok.
  assert (forall i, arenas (heap_init ps m) !!! i = arena0) as Ha.
  { intros i. rewrite list_lookup_total_alt. cbn [heap_init arenas].
    destruct (replicate 64 arena0 !! i) eqn:E; [by apply lookup_replicate in E as [-> _]|done]. }
  assert (forall i, large (heap_init ps m) !!! i = large0) as Hl.
  { intros i. rewrite list_lookup_total_alt. cbn [heap_init large].
    destruct (replicate 64 large0 !! i) eqn:E; [by apply lookup_replicate in E as [-> _]|done]. }
  assert (forall k, fst (region (heap_init ps m) k) = 0) as Hr.
  { intros [i|i]; cbn [region fst]; by rewrite ?Ha, ?Hl. }
  split; try done.
  - split; [intros k Hk|intros k1 k2 _ Hk]; by rewrite Hr in Hk.
  - intros i. rewrite Ha. apply (arena_wf_empty 0).
Qed.
Lemma heap_reachable_inv h : heap_reachable h -> heap_inv h.
Proof.
  induction 1 as [ps m Hok|h bytes al _ IH Hb Hal|h p _ IH|h m _ IH].
  - by apply heap_init_inv.
  - apply heap_alloc_keeps_inv; [done|unfold is_u64 in Hb; lia|done].
  - by apply heap_free_keeps_inv.
  - by apply (heap_inv_same h).
Qed.

(** * Properties *)


(** A successful small allocation returns a zero-filled block, aligned as
    asked (to at least 16 bytes) and sealed by its canary, that is disjoint
    from every block that was live before; those blocks stay live and keep
    their contents. *)
Theorem heap_alloc_safe h bytes alignment h' r :
  heap_reachable h ->
  0 < bytes <= 32760 -> power2 alignment = true -> 0 < alignment <= 4096 ->
  k_heap_alloc h bytes alignment = (h', r) -> r <> 0 ->
  Z.land r ((if alignment <? 16 then 16 else alignment) - 1) = 0 /\
  (exists i u, live_at h' i u r bytes) /\
  (forall a, r <= a < r + bytes -> zget (ram h') a = 0) /\ canary_ok h' r bytes = true /\
  (forall i0 u0 r0 b0, live_at h i0 u0 r0 b0 ->
     live_at h' i0 u0 r0 b0 /\ (r0 + b0 + 8 <= r \/ r + bytes + 8 <= r0) /\
     (forall a, r0 <= a < r0 + b0 + 8 -> zget (ram h') a = zget (ram h) a)).
Proof.
  intros Hreach Hb Hpow Hal Heq Hr. pose proof (heap_reachable_inv h Hreach) as Hh.
  unfold k_heap_alloc in Heq. rewrite Hpow in Heq.
  rewrite (proj2 (Z.eqb_neq bytes 0)), (proj2 (Z.ltb_ge _ bytes)), (proj2 (Z.ltb_ge _ alignment)) in Heq by lia.
  cbn [negb orb] in Heq. cbv zeta in Heq. set (al := if alignment <? 16 then 16 else alignment) in *.
  assert (16 <= al <= 4096) by (subst al; split_if; lia).
  rewrite (proj2 (Z.ltb_ge 32768 (bytes + 8))), (proj2 (Z.ltb_ge 4096 al)) in Heq by lia. cbn [orb] in Heq.
  destruct (match for_range 0 ARENAS _ h with Next h1 => (h1, 0) | Exit x => x end) as [h1 r1] eqn:Hs.
  destruct (arena_search_ok bytes al h h1 r1 Hh Hb Hs) as (Hh1 & Hpre & Hfresh).
  injection Heq as <- <-. destruct (Z.eqb_spec r1 0); [done|].
  destruct (Hfresh Hr) as [Hali (i & u & Hl & Hno)].
  set (canary := Z.lxor (Z.lxor CANARY r1) bytes).
  assert (forall a, zget (ram (seal_block bytes h1 r1)) a =
            if (r1 + bytes <=? a) && (a <? r1 + bytes + 8) then u8 (Z.shiftr canary ((a - (r1 + bytes)) * 8))
            else if (r1 <=? a) && (a <? r1 + bytes) then 0 else zget (ram h1) a) as Hram.
  { intros a. cbn. rewrite wr64_get, mem_zero_spec by lia. done. }
  split; [done|]. split; [exists i, u; destruct Hl as [? ? ? ? ? ?]; by split|]. split; [|split].
  - intros a Ha. rewrite Hram. repeat split_if; try done; lia.
  - unfold canary_ok, seal_block. cbn. rewrite rd64_stored. apply Z.eqb_eq.
    pose proof (live_extent h1 i u r1 bytes Hh1 Hl). unfold PMM_MAX_PAGES in *.
    apply lxor_u64; [|unfold is_u64; lia]. rewrite <- lxor_u64; [unfold u64, is_u64; by apply Z.mod_pos_bound|done|].
    unfold is_u64. unfold UNIT in *. lia.
  - intros i0 u0 r0 b0 Hl0. destruct (Hpre _ _ _ _ Hl0) as [Hl1 Hm1].
    assert (r0 + b0 + 8 <= r1 \/ r1 + bytes + 8 <= r0) as Hdis.
    { destruct (live_disjoint h1 i0 u0 r0 b0 i u r1 bytes Hh1 Hl1 Hl) as [[-> ->]|?]; [|done].
      by destruct (Hno r0 b0). }
    split; [destruct Hl1 as [? ? ? ? ? ?]; by split|]. split; [done|].
    intros a Ha. rewrite Hram. repeat split_if; try lia. by apply Hm1.
Qed.

(** Releasing a live block whose canary is intact succeeds, removes
    exactly that block and leaves all others live with their contents; a
    damaged canary is reported as [K_EFAULT] and only the error counter
    changes. *)
Theorem heap_free_live h i u p b :
  heap_reachable h -> live_at h i u p b -> (forall j, l_pointer (large h !!! j) <> p) ->
  if canary_ok h p b
  then exists h', k_heap_free h p = (h', 0) /\ preserves_others h h' i u /\
                  (forall r0 b0, ~ live_at h' i u r0 b0)
  else k_heap_free h p = (add_error h, K_EFAULT).
Proof.
  intros Hreach Hl Hptr. pose proof (heap_reachable_inv h Hreach) as Hh.
  pose proof (live_extent h i u p b Hh Hl) as Hext. pose proof (la_slot _ _ _ _ _ Hl).
  unfold k_heap_free. destruct (Z.eqb_spec p 0); [lia|].
  destruct (find_range 0 64 _) as [k|] eqn:Hf.
  { apply find_range_Some in Hf as (_ & Hk & _). apply Z.eqb_eq in Hk. by destruct (Hptr (Z.to_nat k)). }
  change (fun i => negb _) with (in_arena h p). rewrite (find_arena_live h i u p b Hh Hl).
  assert (i = Z.to_nat (Z.of_nat i)) as Hi by lia. rewrite Hi in Hl.
  pose proof (free_unit_block_live h (Z.of_nat i) p b u Hh ltac:(lia) Hl) as Hfree.
  destruct (canary_ok h p b).
  - destruct Hfree as (h' & -> & _ & Hp & Hno). rewrite Nat2Z.id in Hp, Hno. by exists h'.
  - by rewrite Hfree.
Qed.

(** A large allocation whose pages lie below 4 GiB returns an aligned
    pointer with room for the block and its canary inside those pages. *)
Theorem heap_large_low h i bytes k h' r :
  heap_reachable h -> 0 <= i < 64 -> 4 <= k <= 21 -> 0 < bytes <= 64 * 1024 * 1024 ->
  large_step bytes (2 ^ k) i h = Exit (h', r) -> r <> 0 ->
  let b := large h' !!! Z.to_nat i in
  l_base b + l_pages b * 4096 <= 2 ^ 32 ->
  l_pointer b = r /\ l_requested b = bytes /\ r mod 2 ^ k = 0 /\
  l_base b <= r /\ r + bytes + 8 <= l_base b + l_pages b * 4096.
Proof.
  intros Hreach Hi Hk Hb Hstep Hr b. pose proof (heap_reachable_inv h Hreach) as Hh.
  assert (2 ^ 4 <= 2 ^ k <= 2 ^ 21) by (split; apply Z.pow_le_mono_r; lia).
  pose proof (large_step_ok bytes (2 ^ k) i h Hh Hi Hb ltac:(lia)) as Hok. rewrite Hstep in Hok.
  unfold large_step in Hstep.
  destruct (negb _); [done|]. cbv zeta in Hstep.
  destruct (pa_alloc _ _ _ _) as [[ps m] base] eqn:Hal.
  destruct (Z.eqb_spec base 0) as [|Hbz]; [by simplify_eq|]. injection Hstep as <- <-. subst b.
  change (large (add_committed ?n ?x)) with (large x).
  rewrite set_large_at, decide_True by (done || apply (hi_large h Hh)).
  cbn [l_base l_pages l_pointer l_requested]. intros Hlow. split; [done|]. split; [done|].
  set (n := u32 ((bytes + 2 ^ k + 7 + 4095) / 4096)) in *.
  assert (n = (bytes + 2 ^ k + 7 + 4095) / 4096) as Hn.
  { subst n. unfold u32. apply Z.mod_small. dlia. }
  assert (bytes + 2 ^ k + 7 <= n * 4096) by dlia.
  assert (0 <= base).
  { destruct (pa_alloc_law (pages h) (ram h) n 0 ps m base) as [_ [[-> _]|(_ & _ & Hg)]]; try done.
    - apply (hi_pages h Hh).
    - unfold is_u32. subst n. unfold u32. by apply Z.mod_pos_bound.
    - pose proof (grant_low _ _ _ _ _ _ Hg). lia. }
  rewrite align_up_u32_eq in * by lia. rewrite (Z.mod_small (base + 2 ^ k - 1)) in * by lia.
  split; [apply Z.mod_mul; lia|].
  pose proof (Z.div_mod (base + 2 ^ k - 1) (2 ^ k) ltac:(lia)) as Hdm.
  pose proof (Z.mod_pos_bound (base + 2 ^ k - 1) (2 ^ k) ltac:(lia)). lia.
Qed.
End Reach.

(** C39: the alignment of a large block is computed with a 32-bit mask, so when
    the page source grants pages at or above 4 GiB the pointer that
    [k_heap_alloc] returns is below 4 GiB, outside the granted pages. *)
Theorem heap_large_truncates {St} `{PageSource St} (h : heap St) bytes k ps m base :
  0 < bytes <= 64 * 1024 * 1024 -> 4 <= k <= 21 -> 32768 < bytes + 8 \/ 12 < k ->
  l_base (large h !!! 0%nat) = 0 ->
  pa_alloc (pages h) (ram h) (u32 ((bytes + 2 ^ k + 7 + 4095) / 4096)) 0 = (ps, m, base) ->
  2 ^ 32 <= base < 2 ^ 63 ->
  snd (k_heap_alloc h bytes (2 ^ k)) < 2 ^ 32 <= base.
Proof.
  intros Hb Hk Hpath Hslot Hal Hbase. split; [|lia].
  assert (2 ^ 4 <= 2 ^ k <= 2 ^ 21) by (split; apply Z.pow_le_mono_r; lia).
  unfold k_heap_alloc.
  rewrite (proj2 (power2_spec (2 ^ k) ltac:(unfold is_u64; lia))) by (exists k; lia).
  rewrite (proj2 (Z.eqb_neq bytes 0)), (proj2 (Z.ltb_ge _ bytes)), (proj2 (Z.ltb_ge _ (2 ^ k))) by lia.
  cbn [negb orb]. rewrite (proj2 (Z.ltb_ge (2 ^ k) 16)) by lia. cbv zeta.
  assert ((32768 <? bytes + 8) || (4096 <? 2 ^ k) = true) as ->.
  { apply orb_true_iff. rewrite !Z.ltb_lt. destruct Hpath; [by left|right].
    change 4096 with (2 ^ 12). apply Z.pow_lt_mono_r; lia. }
  rewrite for_range_step by lia. unfold large_step at 1. change (Z.to_nat 0) with 0%nat.
  rewrite Hslot, Z.eqb_refl. cbn [negb]. cbv zeta. rewrite Hal.
  destruct (Z.eqb_spec base 0); [lia|]. cbn [snd].
  rewrite align_up_u32_eq by lia.
  pose proof (Z.mod_pos_bound (base + 2 ^ k - 1) (2 ^ 32) ltac:(lia)).
  pose proof (Z.div_mod ((base + 2 ^ k - 1) mod 2 ^ 32) (2 ^ k) ltac:(lia)).
  pose proof (Z.mod_pos_bound ((base + 2 ^ k - 1) mod 2 ^ 32) (2 ^ k) ltac:(lia)). lia.
Qed.

(** * Witnesses *)

(** A machine with 32 pages of RAM at 1 MiB. *)
Definition demo_heap_pmm : pmm :=
  default (mk_pmm ∅ ∅ 0 0 0 0 [] 0)
    (pmm_seed_from_efi_map 7 40 false (Some [mk_efi_memory_descriptor 7 0x100000 32 0]) 48).
Definition demo_heap : heap pmm := heap_init demo_heap_pmm ∅.
Lemma demo_heap_reachable : heap_reachable demo_heap.
Proof.
  apply hr_init. cbn [pa_ok pmm_page_source].
  apply (pmm_seed_inv 7 40 false (Some [mk_efi_memory_descriptor 7 0x100000 32 0]) 48).
  - vm_compute. reflexivity.
  - intros d Hd. vm_compute in Hd. apply list_elem_of_singleton in Hd as ->. cbn. lia.
Qed.
(** Two blocks of 100 and 40 bytes. *)
Definition demo_heap1 : heap pmm := fst (k_heap_alloc demo_heap 100 16).
Definition demo_heap2 : heap pmm := fst (k_heap_alloc demo_heap1 40 64).
Lemma demo_heap1_reachable : heap_reachable demo_heap1.
Proof. apply hr_alloc; [apply demo_heap_reachable|unfold is_u64; lia|unfold is_u32; lia]. Qed.
Lemma demo_heap2_reachable : heap_reachable demo_heap2.
Proof. apply hr_alloc; [apply demo_heap1_reachable|unfold is_u64; lia|unfold is_u32; lia]. Qed.

Lemma heap_alloc_safe_witness : zget (ram demo_heap2) 0x100085 = 0.
Proof.
  destruct (k_heap_alloc demo_heap1 40 64) as [h' r] eqn:Heq.
  assert (r = 0x100080) as Hr.
  { change r with (snd (h', r)). rewrite <- Heq. vm_compute. reflexivity. }
  assert (demo_heap2 = h') as -> by (unfold demo_heap2; by rewrite Heq).
  destruct (heap_alloc_safe demo_heap1 40 64 h' r demo_heap1_reachable) as (_ & _ & Hz & _);
    [lia|reflexivity|lia|done|lia|]. apply Hz. lia.
Defined.
Lemma heap_free_live_witness : snd (k_heap_free demo_heap1 0x100000) = 0.
Proof.
  pose proof (heap_free_live demo_heap1 0 0 0x100000 100 demo_heap1_reachable) as Hfree.
  assert (canary_ok demo_heap1 0x100000 100 = true) as Hc by (vm_compute; reflexivity).
  rewrite Hc in Hfree. destruct Hfree as (h' & -> & _); [| |done].
  - split; try (unfold UNITS; lia); vm_compute; (reflexivity || discriminate).
  - intros j. assert (large demo_heap1 = replicate 64 large0) as -> by (vm_compute; reflexivity).
    rewrite list_lookup_total_alt.
    destruct (replicate 64 large0 !! j) eqn:E; [apply lookup_replicate in E as [-> _]|]; cbn; lia.
Defined.
Lemma heap_large_low_witness :
  exists h' r, large_step 40000 (2 ^ 4) 0 demo_heap = Exit (h', r) /\ r mod 2 ^ 4 = 0.
Proof.
  destruct (large_step 40000 (2 ^ 4) 0 demo_heap) as [h'|[h' r]] eqn:Heq.
  - exfalso. assert (match large_step 40000 (2 ^ 4) 0 demo_heap with Next _ => false | Exit _ => true end = true)
      as Hx by (vm_compute; reflexivity). by rewrite Heq in Hx.
  - exists h', r. split; [done|].
    assert (match large_step 40000 (2 ^ 4) 0 demo_heap with Next _ => (0, 0, 0)
      | Exit (h', r) => (r, l_base (large h' !!! Z.to_nat 0), l_pages (large h' !!! Z.to_nat 0)) end
      = (0x100000, 0x100000, 10)) as Hx by (vm_compute; reflexivity).
    rewrite Heq in Hx. injection Hx as Hr Hbase Hn.
    destruct (heap_large_low demo_heap 0 40000 4 h' r demo_heap_reachable) as (_ & _ & Hm & _);
      [lia|lia|lia|done|lia|rewrite Hbase, Hn; lia|done].
Defined.

(** A page source whose next grant lies above 4 GiB, as on a machine with 8 GiB of RAM. *)
Definition high_source : PageSource Z := {|
  pa_alloc := fun next m n _ => (next + n * 4096, m, next);
  pa_alloc_aligned := fun next m n a _ => let r := ALIGN_UP next (a * 4096) in (r + n * 4096, m, r);
  pa_free := fun next _ _ => next;
  pa_ok := fun _ => True;
  pa_available := fun next p => next / 4096 <=? p;
  pa_managed := fun _ _ => true
|}.
Lemma heap_large_truncates_witness :
  snd (@k_heap_alloc Z high_source (heap_init 0x100001000 ∅) 40000 (2 ^ 4)) < 2 ^ 32.
Proof.
  apply (@heap_large_truncates Z high_source (heap_init 0x100001000 ∅) 40000 4
           (0x100001000 + 10 * 4096) ∅ 0x100001000).
  - lia.
  - lia.
  - left. lia.
  - reflexivity.
  - vm_compute. reflexivity.
  - lia.
Defined.
