(* ===== verification/Path.v ===== *)
(** Path names, [src/kernel-src/fs/fs.c] lines 61-178 and 270-283: resolution
    of absolute, relative and [@root] paths, the table of named roots, and the
    choice of a mount point.  A C string is the list of its bytes (none of them
    NUL); the buffer [out\[K_PATH_MAX\]] is the string it holds, so its length is
    the source's [len]. *)
From stdpp Require Import strings.
From S2P Require Import Prelude.

Definition K_PATH_MAX : Z := 256.
Definition K_NAME_MAX : Z := 255.
Definition MAX_ROOTS : Z := 64.
Definition SLASH : Z := 47.
Definition DOT : Z := 46.
Definition AT : Z := 64.

Abbreviation cstr := (list Z).
Definition zlen (s : cstr) : Z := Z.of_nat (length s).

Record root_entry := mk_root { root_name : cstr; root_path : cstr }.

(** * Resolution *)

(** [while ( *path && *path != '/')]: the characters up to the next slash, and the rest. *)
Fixpoint span_component (p : cstr) : cstr * cstr :=
  match p with
  | [] => ([], [])
  | c :: p' => if c =? SLASH then ([], p) else let '(a, b) := span_component p' in (c :: a, b)
  end.
Definition printable (c : Z) : bool := negb ((c <? 32) || (126 <? c)).

(** [while (next > 1 && out\[next - 1\] != '/') --next; if (next > 1) --next;] *)
Fixpoint back_to_slash (out : cstr) (next : nat) : nat :=
  match next with
  | S (S k as next') =>
      if bool_decide (out !! next' = Some SLASH) then next else back_to_slash out next'
  | _ => next
  end.
Definition parent_length (out : cstr) : Z :=
  let next := Z.of_nat (back_to_slash out (length out)) in if 1 <? next then next - 1 else next.

(** The scanning loop; every iteration consumes at least one character, so the
    length of the path bounds their number. *)
Fixpoint resolve_loop (fuel : nat) (named : bool) (floor scanned : Z) (path out : cstr) : Z + cstr :=
  match fuel, path with
  | _, [] => inr out
  | O, _ => inl K_E2BIG
  | S fuel', c :: rest =>
      let scanned := scanned + 1 in
      if 4096 <? scanned then inl K_E2BIG
      else if c =? SLASH then resolve_loop fuel' named floor scanned rest out
      else
        let '(name, path) := span_component path in
        if negb (forallb printable name) || (K_NAME_MAX <? zlen name) then inl K_EINVAL
        else if bool_decide (name = [DOT]) then resolve_loop fuel' named floor scanned path out
        else if bool_decide (name = [DOT; DOT]) then
          if zlen out <=? floor then
            if named then inl K_EPERM else resolve_loop fuel' named floor scanned path out
          else
            let next := parent_length out in
            if next <? floor then inl K_EPERM
            else resolve_loop fuel' named floor scanned path (take (Z.to_nat next) out)
        else
          let slash := if 1 <? zlen out then 1 else 0 in
          if K_PATH_MAX - zlen out <=? zlen name + slash then inl K_E2BIG
          else resolve_loop fuel' named floor scanned path
                 (out ++ (if slash =? 1 then [SLASH] else []) ++ name)
  end.

(** [path], [cwd]: [None] is a null pointer; [out] says whether the caller
    passed a buffer. *)
Definition k_path_resolve (roots : list root_entry) (path cwd : option cstr) (out : bool) : Z + cstr :=
  match path, cwd with
  | Some ((c :: p) as path), Some cwd =>
      if negb out then inl K_EINVAL
      else if c =? AT then
        let '(name, path) := span_component p in
        if 31 <? zlen name then inl K_E2BIG
        else
          match List.find (fun r => bool_decide (root_name r = name)) roots with
          | None => inl K_ENOENT
          | Some r =>
              let start := take (Z.to_nat (K_PATH_MAX - 1)) (root_path r) in
              resolve_loop (length path) true (zlen start) 0 path start
          end
      else if negb (c =? SLASH) then
        if negb (bool_decide (head cwd = Some SLASH)) || (K_PATH_MAX <=? zlen cwd) then inl K_EINVAL
        else resolve_loop (length path) false 1 0 path cwd
      else resolve_loop (length path) false 1 0 path [SLASH]
  | _, _ => inl K_EINVAL
  end.

(** * Named roots *)
Definition alnum (c : Z) : bool :=
  (97 <=? c) && (c <=? 122) || (65 <=? c) && (c <=? 90) || (48 <=? c) && (c <=? 57).
Definition root_char (c : Z) : bool := alnum c || (c =? 95) || (c =? 45).

Definition k_root_bind (cpu : Z) (roots : list root_entry) (name path : option cstr) : list root_entry * Z :=
  if negb (cpu =? 0) then (roots, K_EPERM)
  else
    match name, path with
    | Some name, Some path =>
        if bool_decide (name = []) || (31 <? zlen name) || negb (bool_decide (head path = Some SLASH))
        then (roots, K_EINVAL)
        else if negb (forallb root_char name) then (roots, K_EINVAL)
        else
          match k_path_resolve roots (Some path) (Some [SLASH]) true with
          | inl e => (roots, e)
          | inr normalized =>
              match List.find (fun r => bool_decide (root_name r = name)) roots with
              | Some r => (roots, if bool_decide (normalized = root_path r) then 0 else K_EEXIST)
              | None =>
                  if Z.of_nat (length roots) =? MAX_ROOTS then (roots, K_E2BIG)
                  else (roots ++ [mk_root name normalized], 0)
              end
          end
    | _, _ => (roots, K_EINVAL)
    end.

(** * Mount points *)
Definition path_prefix (p root : cstr) : bool :=
  let n := zlen root in
  bool_decide (take (Z.to_nat (Z.min n (zlen p))) p = take (Z.to_nat (Z.min n (zlen p))) root) &&
  (n <=? zlen p) &&
  ((n =? 1) || bool_decide (p !! Z.to_nat n = None) || bool_decide (p !! Z.to_nat n = Some SLASH)).

Fixpoint choose_from (i : Z) (mounts : list cstr) (path : cstr) (best longest : Z) : Z :=
  match mounts with
  | [] => best
  | m :: rest =>
      if path_prefix path m && (longest <? zlen m)
      then choose_from (i + 1) rest path i (zlen m)
      else choose_from (i + 1) rest path best longest
  end.
Definition choose_mount (mounts : list cstr) (path : cstr) : Z := choose_from 0 mounts path (-1) 0.

(** [while (split && path\[split - 1\] != '/') --split;]: the length of the path up to its last slash. *)
Fixpoint after_slash (p : cstr) (n : nat) : nat :=
  match n with
  | O => O
  | S k => if bool_decide (p !! k = Some SLASH) then n else after_slash p k
  end.

(** * Canonical paths *)
Definition valid_name (n : cstr) : Prop :=
  n <> [] /\ n <> [DOT] /\ n <> [DOT; DOT] /\ zlen n <= K_NAME_MAX /\
  Forall (fun c => 32 <= c <= 126 /\ c <> SLASH) n.
Definition join (cs : list cstr) : cstr := concat (map (cons SLASH) cs).
(** The canonical path of a list of names. *)
Definition render (cs : list cstr) : cstr := match cs with [] => [SLASH] | _ => join cs end.
Definition canonical (p : cstr) : Prop := exists cs, Forall valid_name cs /\ p = render cs.

(** Meaning of one path component: what the loop should do to the name list,
    never going above the first [floor] names. *)
Definition step_name (cs : list cstr) (n : cstr) : list cstr :=
  if bool_decide (n = [DOT]) then cs
  else if bool_decide (n = [DOT; DOT]) then removelast cs
  else cs ++ [n].
(** The components of a path, empty ones dropped. *)
Fixpoint split_path (fuel : nat) (p : cstr) : list cstr :=
  match fuel, p with
  | _, [] => []
  | O, _ => []
  | S fuel', c :: rest =>
      if c =? SLASH then split_path fuel' rest
      else let '(n, p') := span_component p in n :: split_path fuel' p'
  end.
Definition components (p : cstr) : list cstr := split_path (length p) p.
Definition of_string (s : string) : cstr := map (fun c => Z.of_nat (Ascii.nat_of_ascii c)) (String.list_ascii_of_string s).

(** * Lemmas: components and canonical paths *)
Lemma span_component_spec p :
  let '(a, b) := span_component p in
  p = a ++ b /\ Forall (fun c => c <> SLASH) a /\ (b = [] \/ exists b', b = SLASH :: b').
Proof.
  induction p as [|c p IH]; cbn [span_component]; [by split; [|split; [|left]]|].
  destruct (Z.eqb_spec c SLASH) as [->|Hne].
  - split; [done|]. split; [done|right; by exists p].
  - destruct (span_component p) as [a b]. destruct IH as (-> & Ha & Hb).
    split; [done|]. split; [by constructor|done].
Qed.
Lemma span_component_name n p :
  Forall (fun c => c <> SLASH) n -> p = [] \/ (exists p', p = SLASH :: p') ->
  span_component (n ++ p) = (n, p).
Proof.
  intros Hn Hp. induction n as [|c n IH]; cbn [app span_component].
  - destruct Hp as [->|[p' ->]]; [done|]. cbn [span_component]. by rewrite Z.eqb_refl.
  - apply Forall_cons in Hn as [Hc Hn]. rewrite (proj2 (Z.eqb_neq c SLASH)) by done. by rewrite IH.
Qed.

Lemma join_app cs ds : join (cs ++ ds) = join cs ++ join ds.
Proof. unfold join. by rewrite map_app, concat_app. Qed.
Lemma join_one c : join [c] = SLASH :: c.
Proof. unfold join. cbn. by rewrite app_nil_r. Qed.
Lemma render_nonempty cs : cs <> [] -> render cs = join cs.
Proof. by destruct cs. Qed.
Lemma zlen_app (a b : cstr) : zlen (a ++ b) = zlen a + zlen b.
Proof. unfold zlen. rewrite length_app. lia. Qed.
Lemma zlen_cons c (a : cstr) : zlen (c :: a) = 1 + zlen a.
Proof. unfold zlen. cbn [length]. lia. Qed.
Lemma zlen_nonneg (a : cstr) : 0 <= zlen a.
Proof. unfold zlen. lia. Qed.
#[export] Hint Resolve zlen_nonneg : kernel.
Lemma valid_name_pos n : valid_name n -> 0 < zlen n.
Proof. intros (Hn & _). unfold zlen. destruct n; [done|cbn [length]; lia]. Qed.
Lemma join_pos cs : Forall valid_name cs -> cs <> [] -> 1 < zlen (join cs).
Proof.
  intros Hv Hne. destruct cs as [|c cs]; [done|]. apply Forall_cons in Hv as [Hc _].
  change (c :: cs) with ([c] ++ cs). rewrite join_app, join_one, zlen_app, zlen_cons.
  pose proof (valid_name_pos c Hc). pose proof (zlen_nonneg (join cs)). lia.
Qed.
Lemma render_pos cs : 1 <= zlen (render cs).
Proof.
  destruct cs as [|c cs]; [done|]. rewrite render_nonempty by done.
  change (c :: cs) with ([c] ++ cs). rewrite join_app, join_one, zlen_app, zlen_cons.
  pose proof (zlen_nonneg (join cs)). pose proof (zlen_nonneg c). lia.
Qed.
Lemma render_snoc cs c :
  Forall valid_name cs ->
  render (cs ++ [c]) = render cs ++ (if 1 <? zlen (render cs) then [SLASH] else []) ++ c.
Proof.
  intros Hv. rewrite (render_nonempty (cs ++ [c])) by (by destruct cs). rewrite join_app, join_one.
  destruct (decide (cs = [])) as [->|Hne]; [done|].
  rewrite render_nonempty by done. pose proof (join_pos cs Hv Hne).
  by rewrite (proj2 (Z.ltb_lt _ _)).
Qed.
Lemma render_longer fs e : Forall valid_name (fs ++ e) -> e <> [] -> zlen (render fs) < zlen (render (fs ++ e)).
Proof.
  intros Hv He. rewrite (render_nonempty (fs ++ e)) by (destruct fs; [by destruct e|done]).
  rewrite join_app, zlen_app. apply Forall_app in Hv as [Hf He'].
  pose proof (join_pos e He' He). destruct (decide (fs = [])) as [->|Hne]; [change (zlen (render [])) with 1; change (zlen (join [])) with 0; lia|].
  rewrite (render_nonempty fs) by done. lia.
Qed.

Lemma back_to_slash_eq out k :
  back_to_slash out (S (S k)) =
  if bool_decide (out !! S k = Some SLASH) then S (S k) else back_to_slash out (S k).
Proof. done. Qed.
Lemma back_to_slash_spec a c k :
  Forall (fun x => x <> SLASH) c -> (k <= length c)%nat ->
  back_to_slash (a ++ SLASH :: c) (length a + 1 + k) = (length a + 1)%nat.
Proof.
  intros Hc. induction k as [|k IH]; intros Hk.
  - rewrite Nat.add_0_r, Nat.add_1_r. cbn [back_to_slash]. destruct (length a) as [|m] eqn:Hm; [done|].
    rewrite bool_decide_true; [done|]. rewrite <- Hm. by rewrite list_lookup_middle.
  - replace (length a + 1 + S k)%nat with (S (S (length a + k))) by lia. rewrite back_to_slash_eq.
    rewrite bool_decide_false.
    + replace (S (length a + k)) with (length a + 1 + k)%nat by lia. apply IH. lia.
    + replace (S (length a + k)) with (length a + S k)%nat by lia.
      rewrite lookup_app_r by lia. replace (length a + S k - length a)%nat with (S k) by lia.
      cbn. intros Hx. rewrite Forall_lookup in Hc. by apply (Hc _ _ Hx).
Qed.
Lemma valid_no_slash c : valid_name c -> Forall (fun x => x <> SLASH) c.
Proof. intros (_ & _ & _ & _ & Hc). eapply Forall_impl; [exact Hc|]. cbn. tauto. Qed.
Lemma parent_length_render cs c :
  Forall valid_name (cs ++ [c]) -> parent_length (render (cs ++ [c])) = zlen (render cs).
Proof.
  intros Hv. apply Forall_app in Hv as [Hcs Hc]. apply Forall_cons in Hc as [Hc _].
  unfold parent_length. rewrite (render_nonempty (cs ++ [c])) by (by destruct cs).
  rewrite join_app, join_one. rewrite length_app. cbn [length].
  replace (length (join cs) + S (length c))%nat with (length (join cs) + 1 + length c)%nat by lia.
  rewrite back_to_slash_spec; [|by apply valid_no_slash|lia].
  destruct (decide (cs = [])) as [->|Hne]; [done|].
  rewrite render_nonempty by done. pose proof (join_pos cs Hcs Hne). unfold zlen in *.
  rewrite (proj2 (Z.ltb_lt 1 _)) by lia. lia.
Qed.
Lemma take_render cs c :
  Forall valid_name cs -> take (Z.to_nat (zlen (render cs))) (render (cs ++ [c])) = render cs.
Proof.
  intros Hv. rewrite render_snoc by done. unfold zlen at 1. rewrite Nat2Z.id. by rewrite take_app_length.
Qed.

(** * The loop computes on names *)
Fixpoint resolve_names (named : bool) (floor : nat) (cs : list cstr) (ns : list cstr) : option (list cstr) :=
  match ns with
  | [] => Some cs
  | n :: ns' =>
      if bool_decide (n = [DOT]) then resolve_names named floor cs ns'
      else if bool_decide (n = [DOT; DOT]) then
        if (length cs <=? floor)%nat then if named then None else resolve_names named floor cs ns'
        else resolve_names named floor (removelast cs) ns'
      else resolve_names named floor (cs ++ [n]) ns'
  end.

Lemma forallb_printable n : forallb printable n = true -> Forall (fun c => 32 <= c <= 126) n.
Proof.
  induction n as [|c n IH]; cbn [forallb]; [constructor|]. intros H. reflect_bools. constructor; [|by apply IH].
  unfold printable in *. reflect_bools. lia.
Qed.

Lemma resolve_loop_spec named fs fuel : forall scanned path e,
  (length path <= fuel)%nat -> Forall valid_name (fs ++ e) -> zlen (render (fs ++ e)) < K_PATH_MAX ->
  match resolve_loop fuel named (zlen (render fs)) scanned path (render (fs ++ e)) with
  | inr out => exists e', resolve_names named (length fs) (fs ++ e) (split_path fuel path) = Some (fs ++ e') /\
                 Forall valid_name (fs ++ e') /\ out = render (fs ++ e') /\ zlen out < K_PATH_MAX
  | inl err => err = K_E2BIG \/ err = K_EINVAL \/ (err = K_EPERM /\ named = true)
  end.
Proof.
  induction fuel as [|fuel IH]; intros scanned path e Hfuel Hv Hlen.
  { destruct path; cbn [length] in Hfuel; [|lia]. cbn. by exists e. }
  destruct path as [|c rest]; [cbn; by exists e|]. cbn [length] in Hfuel. cbn [resolve_loop split_path].
  destruct (4096 <? scanned + 1); [by left|].
  destruct (Z.eqb_spec c SLASH) as [->|Hc]; [apply IH; [lia|done|done]|].
  pose proof (span_component_spec (c :: rest)) as Hspan.
  destruct (span_component (c :: rest)) as [n p] eqn:Hnp. destruct Hspan as (Hpath & Hns & _).
  assert (n <> []) as Hn0.
  { intros ->. cbn in Hnp. rewrite (proj2 (Z.eqb_neq c SLASH)) in Hnp by done.
    by destruct (span_component rest). }
  assert (length p <= fuel)%nat as Hp.
  { pose proof (f_equal length Hpath) as Hl. rewrite length_app in Hl. cbn [length] in Hl.
    destruct n; [done|]. cbn [length] in Hl. lia. }
  destruct (negb (forallb printable n) || (K_NAME_MAX <? zlen n)) eqn:Hbad; [right; by left|]. reflect_bools.
  cbn [resolve_names].
  destruct (bool_decide (n = [DOT])) eqn:Hdot; [by apply IH|]. apply bool_decide_eq_false in Hdot.
  destruct (bool_decide (n = [DOT; DOT])) eqn:Hdd.
  - destruct (decide (e = [])) as [->|He].
    + rewrite app_nil_r in *. rewrite Z.leb_refl, Nat.leb_refl. destruct named; [right; right; done|].
      specialize (IH (scanned + 1) p []). rewrite app_nil_r in IH. by apply IH.
    + pose proof (render_longer fs e Hv He). rewrite (proj2 (Z.leb_gt _ _)) by lia.
      destruct (exists_last He) as (e1 & x & ->). rewrite app_assoc in *.
      rewrite parent_length_render by done. rewrite (proj2 (Nat.leb_gt _ _)) by (rewrite !length_app; cbn; lia).
      rewrite removelast_last. apply Forall_app in Hv as [Hv Hx].
      assert (zlen (render fs) <= zlen (render (fs ++ e1)) < zlen (render ((fs ++ e1) ++ [x]))) as Hz.
      { split; [|apply render_longer; [by apply Forall_app|done]].
        destruct (decide (e1 = [])) as [->|He1]; [by rewrite app_nil_r|]. apply Z.lt_le_incl. by apply render_longer. }
      rewrite (proj2 (Z.ltb_ge _ _)) by lia. rewrite take_render by done. apply IH; [done|done|lia].
  - apply bool_decide_eq_false in Hdd.
    set (slash := if 1 <? zlen (render (fs ++ e)) then 1 else 0).
    destruct (Z.leb_spec (K_PATH_MAX - zlen (render (fs ++ e))) (zlen n + slash)) as [|Hfit]; [by left|].
    assert (valid_name n) as Hvn.
    { split_and!; try done. apply Forall_and. split; [by apply forallb_printable|done]. }
    assert (render (fs ++ e) ++ (if slash =? 1 then [SLASH] else []) ++ n = render (fs ++ (e ++ [n]))) as Hr.
    { rewrite (app_assoc fs e [n]), render_snoc by done. subst slash. by destruct (1 <? zlen (render (fs ++ e))). }
    rewrite Hr, app_assoc. rewrite <- (app_assoc fs e [n]) in *. apply IH; [done| |].
    + rewrite app_assoc. apply Forall_app. split; [done|by apply Forall_singleton].
    + rewrite <- Hr, !zlen_app. subst slash. destruct (1 <? zlen (render (fs ++ e))); cbn [Z.eqb Pos.eqb] in *; [change (zlen [SLASH]) with 1|change (zlen []) with 0]; lia.
Qed.

Lemma resolve_names_fold ns : forall cs, resolve_names false 0 cs ns = Some (fold_left step_name ns cs).
Proof.
  induction ns as [|n ns IH]; intros cs; [done|]. cbn [resolve_names fold_left]. unfold step_name at 2.
  destruct (bool_decide (n = [DOT])); [done|]. destruct (bool_decide (n = [DOT; DOT])); [|apply IH].
  destruct cs as [|c cs]; cbn [length Nat.leb]; apply IH.
Qed.

(** A bound that makes resolution succeed: the output, the input still to be
    read, and the two separators that may be pending. *)
Definition at_name (path : cstr) : Z :=
  match path with c :: _ => if c =? SLASH then 0 else 1 | [] => 0 end.
Definition separator (out : cstr) : Z := if 1 <? zlen out then 1 else 0.
Definition fits (out path : cstr) : Prop := zlen out + zlen path + separator out + at_name path <= K_PATH_MAX.

Lemma at_name_bounds p : 0 <= at_name p <= 1.
Proof. destruct p as [|c p]; cbn [at_name]; [lia|]. destruct (c =? SLASH); lia. Qed.
Lemma separator_bounds p : 0 <= separator p <= 1.
Proof. unfold separator. destruct (1 <? zlen p); lia. Qed.
Lemma at_name_rest p : p = [] \/ (exists p', p = SLASH :: p') -> at_name p = 0.
Proof. by intros [->|[p' ->]]. Qed.
Lemma separator_mono a b : zlen a <= zlen b -> separator a <= separator b.
Proof. unfold separator. intros. destruct (Z.ltb_spec 1 (zlen a)), (Z.ltb_spec 1 (zlen b)); lia. Qed.
Lemma at_name_name n p : n <> [] -> Forall (fun c => c <> SLASH) n -> at_name (n ++ p) = 1.
Proof.
  intros Hn Hs. destruct n as [|c n]; [done|]. apply Forall_cons in Hs as [Hc _]. cbn [app at_name].
  by rewrite (proj2 (Z.eqb_neq _ _)).
Qed.
Lemma fits_slash out rest : fits out (SLASH :: rest) -> fits out rest.
Proof.
  unfold fits. rewrite zlen_cons. pose proof (at_name_bounds rest).
  change (at_name (SLASH :: rest)) with 0. lia.
Qed.
Lemma fits_shorter out out' n p :
  n <> [] -> Forall (fun c => c <> SLASH) n -> p = [] \/ (exists p', p = SLASH :: p') ->
  zlen out' <= zlen out -> fits out (n ++ p) -> fits out' p.
Proof.
  unfold fits. intros Hn Hs Hp Hle. rewrite at_name_name, zlen_app, (at_name_rest p) by done.
  pose proof (separator_mono out' out Hle). pose proof (zlen_nonneg n). lia.
Qed.
Lemma fits_grow out out' n p :
  n <> [] -> Forall (fun c => c <> SLASH) n -> p = [] \/ (exists p', p = SLASH :: p') ->
  zlen out' = zlen out + separator out + zlen n ->
  fits out (n ++ p) -> fits out' p /\ zlen n + separator out < K_PATH_MAX - zlen out.
Proof.
  unfold fits. intros Hn Hs Hp Hlen. rewrite at_name_name, zlen_app, (at_name_rest p) by done.
  pose proof (separator_bounds out'). pose proof (zlen_nonneg p). lia.
Qed.

Lemma span_shorter c rest n p :
  c <> SLASH -> span_component (c :: rest) = (n, p) ->
  c :: rest = n ++ p /\ n <> [] /\ Forall (fun x => x <> SLASH) n /\ zlen p <= zlen rest /\
  (p = [] \/ exists p', p = SLASH :: p').
Proof.
  intros Hc Hnp. pose proof (span_component_spec (c :: rest)) as Hs. rewrite Hnp in Hs.
  destruct Hs as (Hcat & Hn & Hp). cbn [span_component] in Hnp. rewrite (proj2 (Z.eqb_neq c SLASH)) in Hnp by done.
  destruct (span_component rest) as [a b]. injection Hnp as <- <-. split_and!; try done.
  apply (f_equal zlen) in Hcat. rewrite zlen_app, !zlen_cons in Hcat. pose proof (zlen_nonneg a). lia.
Qed.
Lemma zlen_parent e : Forall valid_name e -> e <> [] -> exists e1 x, e = e1 ++ [x] /\ Forall valid_name e1 /\
  zlen (render []) <= zlen (render e1) < zlen (render e) /\ take (Z.to_nat (zlen (render e1))) (render e) = render e1
  /\ parent_length (render e) = zlen (render e1).
Proof.
  intros Hv He. destruct (exists_last He) as (e1 & x & ->). exists e1, x. pose proof Hv as Hv'.
  apply Forall_app in Hv as [Hv _]. rewrite parent_length_render, take_render by done.
  split_and!; try done; [change (zlen (render [])) with 1; apply render_pos|by apply render_longer].
Qed.
Lemma separator_render e n : Forall valid_name (e ++ [n]) -> zlen (render (e ++ [n])) = zlen (render e) + separator (render e) + zlen n.
Proof.
  intros Hv. apply Forall_app in Hv as [Hv _]. rewrite render_snoc by done. unfold separator. rewrite !zlen_app.
  destruct (1 <? zlen (render e)); [change (zlen [SLASH]) with 1|change (zlen []) with 0]; lia.
Qed.
Lemma resolve_loop_total fuel : forall scanned path e,
  (length path <= fuel)%nat -> Forall valid_name e -> scanned + zlen path <= 4096 ->
  forallb printable path = true -> fits (render e) path ->
  exists out, resolve_loop fuel false (zlen (render [])) scanned path (render e) = inr out.
Proof.
  induction fuel as [|fuel IH]; intros scanned path e Hfuel Hv Hscan Hpr Hfit.
  { destruct path; cbn [length] in Hfuel; [by eexists|lia]. }
  destruct path as [|c rest]; [by eexists|]. cbn [length] in Hfuel. cbn [resolve_loop]. rewrite zlen_cons in Hscan.
  rewrite (proj2 (Z.ltb_ge 4096 _)) by (pose proof (zlen_nonneg rest); lia).
  destruct (Z.eqb_spec c SLASH) as [->|Hc].
  { apply IH; [lia|done|lia| |by apply fits_slash]. cbn [forallb] in Hpr. by apply andb_true_iff in Hpr as [_ Hpr]. }
  destruct (span_component (c :: rest)) as [n p] eqn:Hnp.
  destruct (span_shorter c rest n p Hc Hnp) as (Hcat & Hn0 & Hns & Hle & Hp).
  rewrite Hcat in Hpr, Hfit. rewrite forallb_app in Hpr. apply andb_true_iff in Hpr as [Hprn Hprp].
  assert (length p <= fuel)%nat as Hfuel' by (unfold zlen in Hle; lia).
  destruct (fits_grow (render e) (render e ++ (if 1 <? zlen (render e) then [SLASH] else []) ++ n) n p) as [Hg Hroom]; try done.
  { rewrite !zlen_app. unfold separator. destruct (1 <? zlen (render e)); [change (zlen [SLASH]) with 1|change (zlen []) with 0]; lia. }
  rewrite Hprn. pose proof (render_pos e). pose proof (separator_bounds (render e)).
  assert (zlen n <= K_NAME_MAX) as Hnm by (unfold K_NAME_MAX, K_PATH_MAX in *; lia).
  rewrite (proj2 (Z.ltb_ge K_NAME_MAX _)) by done. cbn [negb orb].
  destruct (bool_decide (n = [DOT])) eqn:Hdot.
  { apply IH; [done|done|lia|done|by apply (fits_shorter (render e) (render e) n)]. }
  destruct (bool_decide (n = [DOT; DOT])) eqn:Hdd.
  - destruct (decide (e = [])) as [->|He].
    { rewrite Z.leb_refl. apply IH; [done|done|lia|done|by apply (fits_shorter (render []) (render []) n)]. }
    destruct (zlen_parent e Hv He) as (e1 & x & -> & Hv1 & Hz & Ht & Hpl). rewrite Hpl, Ht.
    rewrite (proj2 (Z.leb_gt _ _)) by lia. rewrite (proj2 (Z.ltb_ge _ _)) by lia.
    apply IH; [done|done|lia|done|]. apply (fits_shorter (render (e1 ++ [x])) (render e1) n); [done..|lia|done].
  - fold (separator (render e)). rewrite (proj2 (Z.leb_gt _ _)) by done.
    apply bool_decide_eq_false in Hdot, Hdd.
    assert (valid_name n) as Hvn.
    { split_and!; try done. apply Forall_and. split; [by apply forallb_printable|done]. }
    replace (render e ++ (if separator (render e) =? 1 then [SLASH] else []) ++ n) with (render (e ++ [n]))
      by (rewrite render_snoc by done; unfold separator; by destruct (1 <? zlen (render e))).
    rewrite <- render_snoc in Hg by done. apply IH; [done| |lia|done|done].
    apply Forall_app. split; [done|by constructor].
Qed.

Definition start_names (cs : list cstr) (path : cstr) : list cstr :=
  if bool_decide (head path = Some SLASH) then [] else cs.
Lemma start_names_valid cs path : Forall valid_name cs -> Forall valid_name (start_names cs path).
Proof. intros. unfold start_names. by destruct (bool_decide _). Qed.
Lemma head_render cs : head (render cs) = Some SLASH.
Proof. by destruct cs. Qed.

(** The unnamed branches of [k_path_resolve] run the loop from [start_names]. *)
Lemma resolve_unnamed roots c rest cs :
  Forall valid_name cs -> zlen (render cs) < K_PATH_MAX -> c <> AT ->
  k_path_resolve roots (Some (c :: rest)) (Some (render cs)) true =
  resolve_loop (length (c :: rest)) false (zlen (render [])) 0 (c :: rest) (render (start_names cs (c :: rest))).
Proof.
  intros Hv Hlen Hat. unfold k_path_resolve, start_names. cbn [negb head].
  rewrite (proj2 (Z.eqb_neq c AT)) by done. rewrite (bool_decide_true (head (render cs) = Some SLASH)) by apply head_render.
  rewrite (proj2 (Z.leb_gt K_PATH_MAX _)) by lia. cbn [negb orb].
  destruct (Z.eqb_spec c SLASH) as [->|Hne]; cbn [negb].
  - rewrite bool_decide_true by done. change (zlen (render [])) with 1. reflexivity.
  - rewrite bool_decide_false by congruence. reflexivity.
Qed.
Lemma components_render cs : Forall valid_name cs -> components (render cs) = cs.
Proof.
  intros Hv. assert (forall fuel, (length (join cs) <= fuel)%nat -> split_path fuel (join cs) = cs) as Hj.
  { induction Hv as [|n cs Hn Hcs IH]; intros fuel Hfuel; [by destruct fuel|].
    change (join (n :: cs)) with (SLASH :: n ++ join cs) in *. cbn [length] in Hfuel. rewrite length_app in Hfuel.
    destruct fuel as [|fuel]; [lia|]. cbn [split_path]. rewrite Z.eqb_refl.
    assert (join cs = [] \/ exists p', join cs = SLASH :: p') as Hrest.
    { destruct cs; [by left|right; by eexists]. }
    pose proof (valid_no_slash n Hn) as Hns. destruct n as [|c n]; [by destruct Hn|]. cbn [length] in Hfuel.
    destruct fuel as [|fuel]; [lia|]. cbn [app split_path].
    rewrite (proj2 (Z.eqb_neq c SLASH)) by (by apply Forall_cons in Hns as [? _]).
    change (c :: n ++ join cs) with ((c :: n) ++ join cs). rewrite span_component_name by done.
    f_equal. apply IH. lia. }
  destruct cs as [|n cs]; [done|]. unfold components. rewrite render_nonempty by done. by apply Hj.
Qed.
Lemma fold_step_valid ns : forall cs, Forall valid_name ns -> fold_left step_name ns cs = cs ++ ns.
Proof.
  induction ns as [|n ns IH]; intros cs Hv; [by rewrite app_nil_r|]. apply Forall_cons in Hv as [Hn Hv]. cbn [fold_left].
  rewrite IH by done. unfold step_name. destruct Hn as (_ & H1 & H2 & _). rewrite !bool_decide_false by done.
  by rewrite <- app_assoc.
Qed.
Lemma valid_printable n : valid_name n -> forallb printable n = true.
Proof.
  intros (_ & _ & _ & _ & Hc). induction Hc as [|c n Hc _ IH]; [done|]. cbn [forallb]. rewrite IH.
  unfold printable. rewrite (proj2 (Z.ltb_ge c 32)), (proj2 (Z.ltb_ge 126 c)) by lia. done.
Qed.
Lemma render_printable cs : Forall valid_name cs -> forallb printable (render cs) = true.
Proof.
  intros Hv. destruct cs as [|n cs]; [done|]. rewrite render_nonempty by done.
  induction Hv as [|m l Hm _ IH]; [done|]. change (join (m :: l)) with (SLASH :: m ++ join l).
  cbn [forallb]. by rewrite forallb_app, IH, valid_printable.
Qed.

(** * Properties *)

(** Resolving a path that names no root computes the canonical path of its
    components: relative to the working directory unless it starts with a
    slash, empty and [.] components dropped, [..] removing the last name and
    stopping at the root directory.  The result always fits the 256-byte
    buffer and is canonical (no empty, [.] or [..] component); the only errors
    are [K_EINVAL] and [K_E2BIG], and a printable path that fits the buffer is
    never refused. *)
Theorem resolve_canonical roots c rest cs :
  Forall valid_name cs -> zlen (render cs) < K_PATH_MAX -> c <> AT ->
  let path := c :: rest in
  let result := k_path_resolve roots (Some path) (Some (render cs)) true in
  match result with
  | inr out => out = render (fold_left step_name (components path) (start_names cs path)) /\
               canonical out /\ zlen out < K_PATH_MAX
  | inl e => e = K_EINVAL \/ e = K_E2BIG
  end /\
  (forallb printable path = true -> fits (render (start_names cs path)) path -> exists out, result = inr out).
Proof.
  intros Hv Hlen Hat path result. subst result. unfold path. rewrite resolve_unnamed by done.
  pose proof (start_names_valid cs path Hv) as Hsv. fold path.
  assert (zlen (render (start_names cs path)) < K_PATH_MAX) as Hs by (unfold start_names; by destruct (bool_decide _)).
  split.
  - pose proof (resolve_loop_spec false [] (length path) 0 path (start_names cs path)) as Hloop.
    specialize (Hloop ltac:(done) Hsv Hs). rewrite app_nil_l in Hloop.
    destruct (resolve_loop _ _ _ _ _ _) as [e|out].
    { destruct Hloop as [->|[->|[_ Hf]]]; [by right|by left|discriminate]. }
    destruct Hloop as (e' & Hnames & Hv' & -> & Hz). rewrite !app_nil_l in *. rewrite resolve_names_fold in Hnames.
    apply (inj Some) in Hnames. unfold components. rewrite Hnames. split; [done|]. split; [by exists e'|done].
  - intros Hpr Hfit. apply resolve_loop_total; try done. unfold fits in Hfit.
    pose proof (separator_bounds (render (start_names cs path))). pose proof (at_name_bounds path).
    pose proof (zlen_nonneg (render (start_names cs path))). unfold K_PATH_MAX in Hfit. lia.
Qed.
Lemma resolve_canonical_witness :
  k_path_resolve [] (Some (of_string "../b/./c")) (Some (of_string "/a/x")) true = inr (of_string "/a/b/c") /\
  of_string "/a/b/c" = render (fold_left step_name (components (of_string "../b/./c")) [of_string "a"; of_string "x"]).
Proof.
  split; [by vm_compute|].
  pose proof (resolve_canonical [] (DOT) (of_string "./b/./c") [of_string "a"; of_string "x"]) as H.
  destruct H as [H _]; [|done|done|exact (proj1 H)].
  unfold valid_name. repeat constructor; try (by vm_compute); intros ?; discriminate.
Defined.

(** C34: a path [@name/...] resolves to a path at or below the directory the root
    [name] is bound to: whatever [..] components it contains, the resolved
    path has all the names of the root's path as a prefix. *)
Theorem resolve_named_contained roots name rest cwd fs r out :
  List.find (fun r => bool_decide (root_name r = name)) roots = Some r ->
  root_path r = render fs -> Forall valid_name fs -> zlen (render fs) < K_PATH_MAX ->
  Forall (fun c => c <> SLASH) name -> rest = [] \/ (exists rest', rest = SLASH :: rest') ->
  k_path_resolve roots (Some (AT :: name ++ rest)) (Some cwd) true = inr out ->
  exists extra, out = render (fs ++ extra) /\ Forall valid_name (fs ++ extra) /\ zlen out < K_PATH_MAX.
Proof.
  intros Hfind Hpath Hv Hlen Hname Hrest. unfold k_path_resolve. cbn [negb]. rewrite Z.eqb_refl.
  rewrite span_component_name by done. destruct (31 <? zlen name); [done|]. rewrite Hfind, Hpath.
  rewrite take_ge by (unfold zlen, K_PATH_MAX in *; lia).
  pose proof (resolve_loop_spec true fs (length rest) 0 rest []) as Hloop. rewrite app_nil_r in Hloop.
  specialize (Hloop ltac:(done) Hv Hlen). destruct (resolve_loop _ _ _ _ _ _) as [e|o]; [done|].
  intros [= <-]. destruct Hloop as (e' & _ & Hv' & -> & Hz). by exists e'.
Qed.
Lemma resolve_named_contained_witness :
  k_path_resolve [mk_root (of_string "sys") (of_string "/a")] (Some (of_string "@sys/x/../y")) (Some [SLASH]) true
    = inr (of_string "/a/y") /\
  exists extra, of_string "/a/y" = render ([of_string "a"] ++ extra) /\
    Forall valid_name ([of_string "a"] ++ extra) /\ zlen (of_string "/a/y") < K_PATH_MAX.
Proof.
  split; [by vm_compute|].
  apply (resolve_named_contained [mk_root (of_string "sys") (of_string "/a")] (of_string "sys")
           (of_string "/x/../y") [SLASH] [of_string "a"] (mk_root (of_string "sys") (of_string "/a")));
    [done|done| |done| |right; by eexists|by vm_compute].
  - unfold valid_name. repeat constructor; try (by vm_compute); intros ?; discriminate.
  - by repeat constructor.
Defined.

(** Resolution is idempotent: a canonical path that fits the buffer resolves to
    itself, whatever the working directory. *)
Theorem resolve_idempotent roots p cwd :
  canonical p -> zlen p < K_PATH_MAX -> k_path_resolve roots (Some p) (Some cwd) true = inr p.
Proof.
  intros (cs & Hv & ->) Hlen.
  assert (exists rest, render cs = SLASH :: rest) as [rest Hp] by (destruct cs; by eexists).
  assert (k_path_resolve roots (Some (render cs)) (Some cwd) true =
          k_path_resolve roots (Some (render cs)) (Some (render [])) true) as -> by (by rewrite Hp).
  assert (exists out, k_path_resolve roots (Some (render cs)) (Some (render [])) true = inr out) as [out Hout].
  { rewrite Hp. rewrite resolve_unnamed by done. rewrite <- Hp. apply resolve_loop_total; try done.
    - rewrite Hp. unfold start_names. rewrite bool_decide_true by done. constructor.
    - unfold K_PATH_MAX in *. lia.
    - by apply render_printable.
    - unfold start_names, fits. rewrite bool_decide_true by (by rewrite Hp). rewrite Hp at 2. change (zlen (render [])) with 1.
      change (separator (render [])) with 0. change (at_name (SLASH :: rest)) with 0. lia. }
  rewrite Hout. f_equal.
  pose proof (resolve_loop_spec false [] (length (render cs)) 0 (render cs) [] ltac:(done)) as Hl.
  cbn [app] in Hl. specialize (Hl ltac:(constructor) ltac:(done)).
  rewrite Hp, resolve_unnamed in Hout by done. rewrite <- Hp in Hout. unfold start_names in Hout.
  rewrite bool_decide_true in Hout by (by rewrite Hp). rewrite Hout in Hl.
  destruct Hl as (e & Hn & _ & -> & _). rewrite resolve_names_fold in Hn.
  fold (components (render cs)) in Hn. rewrite components_render, fold_step_valid in Hn by done. by injection Hn as <-.
Qed.
Lemma resolve_idempotent_witness :
  canonical (of_string "/boot/efi") /\
  k_path_resolve [] (Some (of_string "/boot/efi")) (Some (of_string "/tmp")) true = inr (of_string "/boot/efi").
Proof.
  assert (canonical (of_string "/boot/efi")) as H.
  { exists [of_string "boot"; of_string "efi"]. split; [|done].
    unfold valid_name. repeat constructor; try (by vm_compute); intros ?; discriminate. }
  split; [exact H|]. apply resolve_idempotent; [exact H|done].
Defined.

(** * The table of named roots *)
Definition find_root (roots : list root_entry) (name : cstr) : option root_entry :=
  List.find (fun r => bool_decide (root_name r = name)) roots.
Definition root_ok (r : root_entry) : Prop :=
  root_name r <> [] /\ zlen (root_name r) <= 31 /\ forallb root_char (root_name r) = true /\
  canonical (root_path r) /\ zlen (root_path r) < K_PATH_MAX.
Definition roots_wf (roots : list root_entry) : Prop :=
  NoDup (map root_name roots) /\ Forall root_ok roots /\ Z.of_nat (length roots) <= MAX_ROOTS.

Lemma find_root_none roots name : find_root roots name = None -> ~ In name (map root_name roots).
Proof.
  intros Hf Hin. apply in_map_iff in Hin as (r & <- & Hr). pose proof (find_none _ _ Hf _ Hr) as H.
  cbn in H. by apply bool_decide_eq_false in H.
Qed.
Lemma find_root_app roots r name :
  find_root (roots ++ [r]) name =
  match find_root roots name with Some x => Some x | None => if bool_decide (root_name r = name) then Some r else None end.
Proof.
  unfold find_root. induction roots as [|x roots IH]; cbn [app List.find]; [done|].
  by destruct (bool_decide (root_name x = name)).
Qed.
Lemma bind_path_canonical rest cs out :
  k_path_resolve cs (Some (SLASH :: rest)) (Some [SLASH]) true = inr out -> canonical out /\ zlen out < K_PATH_MAX.
Proof.
  change [SLASH] with (render []). rewrite resolve_unnamed by done. intros Hout.
  pose proof (resolve_loop_spec false [] (length (SLASH :: rest)) 0 (SLASH :: rest) [] ltac:(done)) as Hl.
  rewrite app_nil_l in Hl. specialize (Hl ltac:(constructor) ltac:(done)).
  unfold start_names in Hout. rewrite bool_decide_true in Hout by done. rewrite Hout in Hl.
  destruct Hl as (e & _ & Hv & -> & Hz). split; [by exists e|done].
Qed.
Lemma roots_wf_snoc roots name p :
  roots_wf roots -> find_root roots name = None -> root_ok (mk_root name p) ->
  Z.of_nat (length roots) <> MAX_ROOTS -> roots_wf (roots ++ [mk_root name p]).
Proof.
  intros (Hnd & Hok & Hlen) Hnone Hr Hmax. split_and!.
  - rewrite map_app. apply NoDup_app. split_and!; [done| |apply NoDup_singleton]. intros x Hx Hin.
    apply list_elem_of_singleton in Hin as ->. apply (find_root_none _ _ Hnone). by apply list_elem_of_In.
  - apply Forall_app. split; [done|by constructor].
  - rewrite length_app. cbn [length]. lia.
Qed.

(** Binding a named root keeps the table well formed: names unique, non-empty, at
    most 31 characters from [A-Za-z0-9_-]; paths canonical and shorter than
    256; at most 64 entries.  Existing bindings never change.  On success the
    name is bound to the resolved path; on an error the table is unchanged. *)
Theorem root_bind_invariant cpu roots name path :
  roots_wf roots ->
  let '(roots', e) := k_root_bind cpu roots name path in
  roots_wf roots' /\
  (forall n r, find_root roots n = Some r -> find_root roots' n = Some r) /\
  (e <> 0 -> roots' = roots) /\
  (e = 0 -> cpu = 0 /\ exists n p out, name = Some n /\ path = Some p /\
     k_path_resolve roots (Some p) (Some [SLASH]) true = inr out /\ find_root roots' n = Some (mk_root n out)).
Proof.
  intros Hwf. unfold k_root_bind. destruct (Z.eqb_spec cpu 0) as [Hcpu|]; cbn [negb]; [|split_and!; done].
  destruct name as [n|]; [|split_and!; done]. destruct path as [p|]; [|split_and!; done].
  destruct (bool_decide (n = []) || _ || _) eqn:Hg; [split_and!; done|].
  destruct (forallb root_char n) eqn:Hchars; cbn [negb]; [|split_and!; done].
  apply orb_false_iff in Hg as [Hg Hhead]. apply orb_false_iff in Hg as [Hne Hlen].
  apply negb_false_iff, bool_decide_eq_true in Hhead. apply bool_decide_eq_false in Hne. apply Z.ltb_ge in Hlen.
  destruct p as [|c rest]; [done|]. cbn [head] in Hhead. injection Hhead as ->.
  destruct (k_path_resolve roots (Some (SLASH :: rest)) (Some [SLASH]) true) as [e|out] eqn:Hres.
  { assert (e <> 0) as He.
    { pose proof (resolve_loop_spec false [] (length (SLASH :: rest)) 0 (SLASH :: rest) [] ltac:(done) ltac:(constructor) ltac:(done)) as Hl.
      rewrite app_nil_l in Hl. change [SLASH] with (render []) in Hres. rewrite resolve_unnamed in Hres by done.
      unfold start_names in Hres. rewrite bool_decide_true in Hres by done. rewrite Hres in Hl.
      destruct Hl as [->|[->|[-> _]]]; discriminate. }
    split_and!; done. }
  fold (find_root roots n). destruct (find_root roots n) as [r|] eqn:Hfind.
  - pose proof (find_some _ _ Hfind) as [_ Hname]. cbn in Hname. apply bool_decide_eq_true in Hname.
    destruct (bool_decide_reflect (out = root_path r)) as [->|]; split_and!; try done.
    intros _. split; [done|]. exists n, (SLASH :: rest), (root_path r). rewrite Hfind. destruct r. cbn in *. by subst.
  - destruct (Z.eqb_spec (Z.of_nat (length roots)) MAX_ROOTS) as [|Hmax]; [split_and!; done|].
    destruct (bind_path_canonical rest roots out Hres) as [Hcan Hz]. split_and!; [|..|done|].
    + by apply roots_wf_snoc.
    + intros m r Hm. by rewrite find_root_app, Hm.
    + intros _. split; [done|]. exists n, (SLASH :: rest), out. split_and!; try done.
      rewrite find_root_app, Hfind. by rewrite bool_decide_true.
Qed.
Lemma root_bind_invariant_witness :
  roots_wf [] /\
  let '(roots', e) := k_root_bind 0 [] (Some (of_string "sys")) (Some (of_string "/a/../b")) in
  e = 0 /\ find_root roots' (of_string "sys") = Some (mk_root (of_string "sys") (of_string "/b")) /\ roots_wf roots'.
Proof.
  assert (roots_wf []) as H by (split_and!; [constructor|constructor|done]). split; [exact H|].
  split; [by vm_compute|]. split; [by vm_compute|].
  exact (proj1 (root_bind_invariant 0 [] (Some (of_string "sys")) (Some (of_string "/a/../b")) H)).
Defined.

(** * The mount table *)
Lemma path_prefix_split p root :
  path_prefix p root = true <->
  exists t, p = root ++ t /\ (zlen root = 1 \/ t = [] \/ exists t', t = SLASH :: t').
Proof.
  unfold path_prefix. rewrite !andb_true_iff, !orb_true_iff, bool_decide_eq_true, Z.leb_le, Z.eqb_eq, !bool_decide_eq_true.
  split.
  - intros [[Htake Hle] Hb]. rewrite Z.min_l in Htake by lia. unfold zlen in *. rewrite Nat2Z.id in *.
    rewrite (take_ge root) in Htake by lia. exists (drop (length root) p).
    rewrite <- Htake at 1. rewrite take_drop. split; [done|].
    destruct Hb as [[?|Hn]|Hs]; [by left|right; left|right; right].
    + apply drop_ge. by apply lookup_ge_None.
    + eexists. by apply drop_S.
  - intros (t & -> & Hb). rewrite zlen_app. pose proof (zlen_nonneg t). rewrite Z.min_l by lia.
    split; [split; [|lia]|].
    + unfold zlen. rewrite Nat2Z.id. by rewrite take_app_length, take_ge.
    + unfold zlen at 2 3. rewrite Nat2Z.id. rewrite !lookup_app_r, Nat.sub_diag by lia.
      destruct Hb as [?|[->|[t' ->]]]; [by left; left|by left; right|by right].
Qed.
Lemma join_prefix ds : forall cs t,
  Forall valid_name ds -> Forall valid_name cs -> join cs = join ds ++ t -> t = [] \/ (exists t', t = SLASH :: t') ->
  exists e, cs = ds ++ e.
Proof.
  induction ds as [|d ds IH]; intros cs t Hd Hc Heq Ht; [by exists cs|].
  apply Forall_cons in Hd as [Hd Hds]. destruct cs as [|c cs]; [done|]. apply Forall_cons in Hc as [Hc Hcs].
  change (join (c :: cs)) with (SLASH :: c ++ join cs) in Heq.
  change (join (d :: ds) ++ t) with (SLASH :: (d ++ join ds) ++ t) in Heq. injection Heq as Heq. rewrite <- app_assoc in Heq.
  assert (forall l, join l = [] \/ exists p', join l = SLASH :: p') as Hj by (intros [|? ?]; [by left|right; by eexists]).
  pose proof (span_component_name c (join cs) (valid_no_slash c Hc) (Hj cs)) as H1.
  assert (join ds ++ t = [] \/ exists p', join ds ++ t = SLASH :: p') as Hjt.
  { destruct (Hj ds) as [->|[p' ->]]; [done|right; by eexists]. }
  pose proof (span_component_name d (join ds ++ t) (valid_no_slash d Hd) Hjt) as H2.
  rewrite Heq, H2 in H1. injection H1 as <- H1. destruct (IH cs t Hds Hcs (eq_sym H1) Ht) as [e ->]. by exists e.
Qed.
Lemma path_prefix_names cs ds : Forall valid_name cs -> Forall valid_name ds ->
  path_prefix (render cs) (render ds) = true <-> ds `prefix_of` cs.
Proof.
  intros Hc Hd. rewrite path_prefix_split. split.
  - intros (t & Heq & Hb). destruct (decide (ds = [])) as [->|Hne]; [apply prefix_nil|].
    pose proof (join_pos ds Hd Hne). rewrite (render_nonempty ds) in * by done.
    destruct cs as [|c cs]; [exfalso; apply (f_equal zlen) in Heq; rewrite zlen_app in Heq;
      change (zlen (render [])) with 1 in Heq; pose proof (zlen_nonneg t); lia|].
    rewrite render_nonempty in Heq by done. destruct Hb as [?|Hb]; [lia|].
    destruct (join_prefix ds (c :: cs) t Hd Hc Heq Hb) as [e He]. by exists e.
  - intros [e ->]. destruct (decide (ds = [])) as [->|Hne].
    + rewrite app_nil_l. destruct e as [|x e]; [exists []; split; [done|by left]|].
      exists (tail (render (x :: e))). split; [done|by left].
    + exists (join e). rewrite !render_nonempty, join_app by (by destruct ds).
      split; [done|right]. destruct e; [by left|right; by eexists].
Qed.

Definition best_mount (mounts : list cstr) (path : cstr) (i : Z) : Prop :=
  (i = -1 /\ forall m, m ∈ mounts -> path_prefix path m = true -> zlen m = 0) \/
  exists m, 0 <= i /\ mounts !! Z.to_nat i = Some m /\ path_prefix path m = true /\
    (forall j m', mounts !! j = Some m' -> path_prefix path m' = true -> zlen m' <= zlen m /\ (Z.of_nat j < i -> zlen m' < zlen m)).
Lemma choose_from_best path mounts : forall done best longest,
  0 <= longest ->
  (forall j m, done !! j = Some m -> path_prefix path m = true ->
     zlen m <= longest /\ (0 <= best -> Z.of_nat j < best -> zlen m < longest)) ->
  (best = -1 /\ longest = 0 \/ 0 <= best /\ exists m, done !! Z.to_nat best = Some m /\ path_prefix path m = true /\ zlen m = longest) ->
  best_mount (done ++ mounts) path (choose_from (Z.of_nat (length done)) mounts path best longest).
Proof.
  induction mounts as [|m mounts IH]; intros dn best longest Hl Hall Hbest; cbn [choose_from].
  - rewrite app_nil_r. destruct Hbest as [[-> ->]|[Hb (m & Hm & Hp & Hz)]].
    + left. split; [done|]. intros m Hm Hp. apply list_elem_of_lookup in Hm as [j Hj].
      destruct (Hall j m Hj Hp) as [? _]. pose proof (zlen_nonneg m). lia.
    + right. exists m. split_and!; try done. intros j m' Hj Hp'. destruct (Hall j m' Hj Hp') as [H1 H2]. split; [lia|].
      intros Hlt. specialize (H2 Hb Hlt). lia.
  - replace (Z.of_nat (length dn) + 1) with (Z.of_nat (length (dn ++ [m]))) by (rewrite length_app; cbn [length]; lia).
    change (m :: mounts) with ([m] ++ mounts). rewrite app_assoc.
    destruct (path_prefix path m && (longest <? zlen m)) eqn:Hpick.
    + apply andb_true_iff in Hpick as [Hp Hlt]. apply Z.ltb_lt in Hlt. apply IH; [lia| |].
      * intros j m' Hj Hp'. apply lookup_app_Some in Hj as [Hj|[Hge Hj]].
        { destruct (Hall j m' Hj Hp') as [? _]. lia. }
        apply list_lookup_singleton_Some in Hj as [? <-]. lia.
      * right. split; [lia|]. exists m. rewrite Nat2Z.id, list_lookup_middle by done. done.
    + apply IH; [done| |].
      * intros j m' Hj Hp'. apply lookup_app_Some in Hj as [Hj|[Hge Hj]]; [by apply (Hall j)|].
        apply list_lookup_singleton_Some in Hj as [? <-]. rewrite Hp' in Hpick. cbn in Hpick. apply Z.ltb_ge in Hpick.
        split; [done|]. intros Hb Hlt. destruct Hbest as [[-> _]|[_ (m' & Hm & _)]]; [lia|].
        apply lookup_lt_Some in Hm. lia.
      * destruct Hbest as [?|[Hb (m' & Hm & Hr)]]; [by left|right]. split; [done|]. exists m'.
        split; [by apply lookup_app_l_Some|done].
Qed.

(** The mount chosen for a path is the deepest one above it: mount points and
    path being canonical, the chosen mount's names are a prefix of the path's
    names, every other mount above the path has no more names, and [-1] is
    returned only when no mount is above the path. *)
Theorem choose_mount_deepest mounts cs dss :
  Forall valid_name cs -> Forall (Forall valid_name) dss -> mounts = map render dss ->
  let i := choose_mount mounts (render cs) in
  (i = -1 /\ forall ds, ds ∈ dss -> ~ ds `prefix_of` cs) \/
  exists ds, 0 <= i /\ dss !! Z.to_nat i = Some ds /\ ds `prefix_of` cs /\
    (forall ds', ds' ∈ dss -> ds' `prefix_of` cs -> ds' `prefix_of` ds).
Proof.
  intros Hc Hd -> i. rewrite Forall_forall in Hd.
  assert (best_mount (map render dss) (render cs) i) as Hbest.
  { apply (choose_from_best (render cs) (map render dss) []); [done|intros j m Hj; by rewrite lookup_nil in Hj|by left]. }
  destruct Hbest as [[Hi Hnone]|(m & Hi & Hm & Hp & Hall)].
  - left. split; [done|]. intros ds Hds Hpre. apply path_prefix_names in Hpre; [|done|by apply Hd].
    specialize (Hnone (render ds)). pose proof (render_pos ds).
    enough (zlen (render ds) = 0) by lia. apply Hnone; [|done]. by apply list_elem_of_fmap_2.
  - right. rewrite list_lookup_fmap in Hm. destruct (dss !! Z.to_nat i) as [ds|] eqn:Hds; [|done].
    injection Hm as <-. exists ds. pose proof (list_elem_of_lookup_2 _ _ _ Hds) as Hin.
    apply path_prefix_names in Hp as Hpre; [|done|by apply Hd]. split_and!; try done.
    intros ds' Hin' Hpre'. destruct (prefix_weak_total _ _ _ Hpre' Hpre) as [?|[[|x e] ->]]; [done|by rewrite app_nil_r|].
    exfalso. apply list_elem_of_lookup in Hin' as Hj. destruct Hj as [j Hj].
    destruct (Hall j (render (ds ++ x :: e))) as [Hle _].
    + by rewrite list_lookup_fmap, Hj.
    + apply path_prefix_names; [done|by apply Hd|done].
    + pose proof (render_longer ds (x :: e) (Hd _ Hin') ltac:(done)). lia.
Qed.
Lemma choose_mount_deepest_witness :
  choose_mount [of_string "/"; of_string "/efi"; of_string "/ef"] (of_string "/efi/boot") = 1 /\
  ((1 = -1 /\ forall ds, ds ∈ [[]; [of_string "efi"]; [of_string "ef"]] -> ~ ds `prefix_of` [of_string "efi"; of_string "boot"]) \/
   exists ds, 0 <= 1 /\ [[]; [of_string "efi"]; [of_string "ef"]] !! Z.to_nat 1 = Some ds /\
     ds `prefix_of` [of_string "efi"; of_string "boot"] /\
     (forall ds', ds' ∈ [[]; [of_string "efi"]; [of_string "ef"]] -> ds' `prefix_of` [of_string "efi"; of_string "boot"] -> ds' `prefix_of` ds)).
Proof.
  split; [by vm_compute|].
  apply (choose_mount_deepest [of_string "/"; of_string "/efi"; of_string "/ef"] [of_string "efi"; of_string "boot"]
           [[]; [of_string "efi"]; [of_string "ef"]]); [| |done];
    unfold valid_name; repeat constructor; try (by vm_compute); intros ?; discriminate.
Defined.
