(* ===== verification/State.v ===== *)
(** The kernel's shared state, [src/kernel-src/include/kernel_internal.h]: tasks,
    CPUs, address spaces and processes, the static arrays that hold them and
    the scheduler's globals.  A pointer to an array element is its index
    ([None] for a null pointer); [hw] records the calls that only drive the
    hardware (timer programming, inter-processor wake-ups). *)
From S2P Require Import Prelude Klib PageAlloc.

Definition K_MAX_CPUS : Z := 32.
Definition K_MAX_TASKS : Z := 128.
Definition MAX_PROCESSES : Z := 64.
Definition MAIL_DEPTH : Z := 16.
Definition K_IPC_BYTES : Z := 128.
Definition STACK_PAGES : Z := 32.

Inductive k_task_state :=
  | K_TASK_UNUSED | K_TASK_READY | K_TASK_RUNNING | K_TASK_SLEEPING | K_TASK_BLOCKED
  | K_TASK_ZOMBIE | K_TASK_STOPPED.
#[export] Instance k_task_state_eq_dec : EqDecision k_task_state.
Proof. solve_decision. Defined.
Definition state_code (s : k_task_state) : Z :=
  match s with
  | K_TASK_UNUSED => 0 | K_TASK_READY => 1 | K_TASK_RUNNING => 2 | K_TASK_SLEEPING => 3
  | K_TASK_BLOCKED => 4 | K_TASK_ZOMBIE => 5 | K_TASK_STOPPED => 6
  end.

(** What a blocked task waits for: distinct kernel objects have distinct addresses. *)
Inductive wait_target := Wait_mutex (address : Z) | Wait_semaphore (address : Z).
#[export] Instance wait_target_eq_dec : EqDecision wait_target.
Proof. solve_decision. Defined.

(** [k_message]: [m_bytes] is the whole 128-byte array. *)
Record k_message := mk_message { m_sender : Z; m_size : Z; m_bytes : list Z }.
Definition message0 : k_message := mk_message 0 0 [].
#[export] Instance message_inhabited : Inhabited k_message := populate message0.

Record task := mk_task {
  t_id : Z; t_cpu : Z; t_state : k_task_state; t_weight : Z;
  t_name : list Z; t_frame : Z; t_stack : Z; t_stack_top : Z;
  t_vruntime : Z; t_runtime : Z; t_switches : Z; t_wake : Z;
  t_entry : Z; t_arg : Z; t_process : option Z; t_wait_object : option wait_target;
  t_exit_code : Z; t_preempt_depth : Z; t_mail_head : Z; t_mail_count : Z;
  t_idle : bool; t_tls_base : Z; t_control_request : Z; t_mail : table k_message; t_arch : Z }.
#[export] Instance task_updatable : Updatable task := fun r =>
  mk_task (t_id r) (t_cpu r) (t_state r) (t_weight r) (t_name r) (t_frame r) (t_stack r)
    (t_stack_top r) (t_vruntime r) (t_runtime r) (t_switches r) (t_wake r) (t_entry r) (t_arg r)
    (t_process r) (t_wait_object r) (t_exit_code r) (t_preempt_depth r) (t_mail_head r)
    (t_mail_count r) (t_idle r) (t_tls_base r) (t_control_request r) (t_mail r) (t_arch r).
Definition task0 : task :=
  mk_task 0 0 K_TASK_UNUSED 0 [] 0 0 0 0 0 0 0 0 0 None None 0 0 0 0 false 0 0 ∅ 0.
#[export] Instance task_inhabited : Inhabited task := populate task0.

(** [cpu_state], with the registers [arch_task_switch] loads: the FS base, the
    floating-point state, CR3, and the kernel stack of the task-state segment
    (also kept in [entry.syscall_stack]). *)
Record cpu_state := mk_cpu {
  c_stack_owner : option Z; c_current : option Z; c_online : bool;
  c_ticks : Z; c_switches : Z; c_fair_floor : Z; c_idle_ticks : Z;
  c_slice : Z; c_work_pending : bool; c_idle : option Z;
  c_fs_base : Z; c_fx : Z; c_cr3 : Z; c_rsp0 : Z; c_syscall_stack : Z }.
#[export] Instance cpu_updatable : Updatable cpu_state := fun r =>
  mk_cpu (c_stack_owner r) (c_current r) (c_online r) (c_ticks r) (c_switches r) (c_fair_floor r)
    (c_idle_ticks r) (c_slice r) (c_work_pending r) (c_idle r) (c_fs_base r) (c_fx r) (c_cr3 r)
    (c_rsp0 r) (c_syscall_stack r).
Definition cpu0 : cpu_state := mk_cpu None None false 0 0 0 0 0 false None 0 0 0 0 0.
#[export] Instance cpu_inhabited : Inhabited cpu_state := populate cpu0.

(** [as_slots] is the bitmap [mmu.owned_slots]: four 64-bit words. *)
Record k_address_space := mk_space {
  as_used : bool; as_root : Z; as_slots : zmap; as_next : Z; as_pages : Z; as_owner : option Z }.
#[export] Instance space_updatable : Updatable k_address_space := fun r =>
  mk_space (as_used r) (as_root r) (as_slots r) (as_next r) (as_pages r) (as_owner r).
Definition space0 : k_address_space := mk_space false 0 ∅ 0 0 None.
#[export] Instance space_inhabited : Inhabited k_address_space := populate space0.

Record k_file := mk_file {
  f_kind : Z; f_object : Z; f_cluster : Z; f_attributes : Z; f_size : Z; f_directory_offset : Z }.
#[export] Instance file_updatable : Updatable k_file := fun r =>
  mk_file (f_kind r) (f_object r) (f_cluster r) (f_attributes r) (f_size r) (f_directory_offset r).
Definition file0 : k_file := mk_file 0 0 0 0 0 0.
#[export] Instance file_inhabited : Inhabited k_file := populate file0.

(** [k_process]; [p_regions] pairs [region_base] with [region_size], [p_exports]
    names with addresses, and their lengths are the two counts. *)
Record k_process := mk_process {
  p_used : bool; p_loaded : bool; p_parent : Z; p_execution_class : Z;
  p_uuid : Z * Z; p_tls : Z; p_arguments : list Z;
  p_id : Z; p_task_id : Z; p_state : k_task_state; p_fault_vector : Z; p_exit_code : Z;
  p_fault_address : Z; p_fault_ip : Z; p_entry : Z; p_user_stack : Z;
  p_name : list Z; p_as : option Z;
  p_regions : list (Z * Z); p_exports : list (list Z * Z); p_grants : list Z;
  p_files : table k_file; p_fd_used : zmap; p_fd_flags : zmap; p_fd_offset : zmap }.
#[export] Instance process_updatable : Updatable k_process := fun r =>
  mk_process (p_used r) (p_loaded r) (p_parent r) (p_execution_class r) (p_uuid r) (p_tls r)
    (p_arguments r) (p_id r) (p_task_id r) (p_state r) (p_fault_vector r) (p_exit_code r)
    (p_fault_address r) (p_fault_ip r) (p_entry r) (p_user_stack r) (p_name r) (p_as r)
    (p_regions r) (p_exports r) (p_grants r) (p_files r) (p_fd_used r) (p_fd_flags r) (p_fd_offset r).
Definition process0 : k_process :=
  mk_process false false 0 0 (0, 0) 0 [] 0 0 K_TASK_UNUSED 0 0 0 0 0 0 [] None [] [] [] ∅ ∅ ∅ ∅.
#[export] Instance process_inhabited : Inhabited k_process := populate process0.

Inductive hw_event :=
  | Wake_cpu (cpu : Z)
  | Invalidate_page (address : Z)
  | Write_cr3 (root : Z)
  | Timer_arm (idle : bool) (deadline : Z).

(** Everything the scheduler lock protects, over a page source [St]. *)
Record kernel (St : Type) := mk_kernel {
  k_pages : St; k_ram : zmap;
  cpus : table cpu_state; tasks : table task; processes : table k_process; spaces : table k_address_space;
  next_task_id : Z; interrupts_ready : bool; scheduler_ready : bool; discovered_cpus : Z; kernel_pml4 : Z;
  initial_fx : Z; task_bootstrap : Z; idle_entry : Z; mutexes : zmap; semaphores : zmap; hw : list hw_event }.
Arguments mk_kernel {St}. Arguments k_pages {St}. Arguments k_ram {St}. Arguments cpus {St}.
Arguments tasks {St}. Arguments processes {St}. Arguments spaces {St}. Arguments next_task_id {St}.
Arguments interrupts_ready {St}. Arguments scheduler_ready {St}. Arguments discovered_cpus {St}.
Arguments kernel_pml4 {St}. Arguments initial_fx {St}. Arguments task_bootstrap {St}. Arguments idle_entry {St}.
Arguments mutexes {St}. Arguments semaphores {St}. Arguments hw {St}.
#[export] Instance kernel_updatable St : Updatable (kernel St) := fun r =>
  mk_kernel (k_pages r) (k_ram r) (cpus r) (tasks r) (processes r) (spaces r) (next_task_id r)
    (interrupts_ready r) (scheduler_ready r) (discovered_cpus r) (kernel_pml4 r) (initial_fx r)
    (task_bootstrap r) (idle_entry r) (mutexes r) (semaphores r) (hw r).

(** The state before [k_scheduler_init]: every static array zero, identifiers from 1,
    the boot CPU online with the kernel's page tables. *)
Definition kernel_boot {St} (pages : St) (ram : zmap) (discovered pml4 fx bootstrap idle : Z) : kernel St :=
  mk_kernel pages ram {[ 0 := cpu0 <| c_online := true |> <| c_cr3 := pml4 |> ]} ∅ ∅ ∅ 1 true false discovered pml4 fx bootstrap idle ∅ ∅ [].

Section Access.
Context {St : Type}.
Implicit Types k : kernel St.
Definition upd_task (i : Z) (f : task -> task) (k : kernel St) : kernel St := k <| tasks ::= tmod i f |>.
Definition upd_cpu (c : Z) (f : cpu_state -> cpu_state) (k : kernel St) : kernel St := k <| cpus ::= tmod c f |>.
Definition upd_process (i : Z) (f : k_process -> k_process) (k : kernel St) : kernel St :=
  k <| processes ::= tmod i f |>.
Definition emit (e : hw_event) (k : kernel St) : kernel St := k <| hw ::= (fun l => l ++ [e]) |>.
(** [current_task()] on CPU [c]. *)
Definition current_task (k : kernel St) (c : Z) : option Z := c_current (cpus k !!! c).
End Access.
