(* ===== verification/Sched.v ===== *)
(** The scheduler, [src/kernel-src/kernel/kernel.c] lines 152-535: task creation
    and start-up, the fair scheduler, sleeping, exit, reaping and task
    queries, with the context switch of [arch/x86_64/cpu.c].  Every operation
    that runs under [sched_lock] is one atomic transition of the kernel state;
    [c] is the CPU it runs on ([k_cpu_id()]). *)
From stdpp Require Import strings.
From S2P Require Import Prelude Klib PageAlloc State.

Definition max_u64 : Z := 2 ^ 64 - 1.

(** [k_strerror]. *)
Definition error_names : list string :=
  ["ok"; "invalid argument"; "out of memory"; "not found"; "busy"; "invalid memory"; "unsupported";
   "I/O error"; "timeout"; "read-only"; "try again"; "permission denied"; "limit exceeded";
   "invalid RIEF"; "deadlock"; "already exists"; "no space left on volume"; "network down"; "no route";
   "connection refused"; "connection reset"; "address in use"; "message too large";
   "connection in progress"; "canceled"]%string.
Definition k_strerror (e : Z) : string :=
  if (e <=? 0) && (- e <? Z.of_nat (length error_names))
  then nth (Z.to_nat (- e)) error_names "unknown error"%string else "unknown error"%string.

Section Sched.
Context {St : Type} `{PageSource St}.
Implicit Types k : kernel St.

Definition k_task_id (k : kernel St) (c : Z) : Z :=
  match current_task k c with Some i => t_id (tasks k !!! i) | None => 0 end.
Definition k_preempt_disable (k : kernel St) (c : Z) : kernel St :=
  match current_task k c with
  | Some i => upd_task i (fun t => t <| t_preempt_depth ::= (fun n => u32 (n + 1)) |>) k
  | None => k
  end.
Definition k_preempt_enable (k : kernel St) (c : Z) : kernel St :=
  match current_task k c with
  | Some i =>
      if negb (t_preempt_depth (tasks k !!! i) =? 0)
      then upd_task i (fun t => t <| t_preempt_depth ::= (fun n => u32 (n - 1)) |>) k else k
  | None => k
  end.

(** * Fairness floor and wake-up *)
Definition runnable (t : task) : bool :=
  bool_decide (t_state t = K_TASK_READY) || bool_decide (t_state t = K_TASK_RUNNING).
Definition min_vruntime (k : kernel St) (cpu : Z) : Z :=
  fold_range 0 K_MAX_TASKS
    (fun i m => let t := tasks k !!! i in
       if (t_cpu t =? cpu) && negb (t_idle t) && runnable t && (t_vruntime t <? m) then t_vruntime t else m) max_u64.
Definition cpu_floor (k : kernel St) (cpu : Z) : kernel St * Z :=
  let m := min_vruntime k cpu in
  let k := if negb (m =? max_u64) && (c_fair_floor (cpus k !!! cpu) <? m)
           then upd_cpu cpu (fun s => s <| c_fair_floor := m |>) k else k in
  (k, c_fair_floor (cpus k !!! cpu)).
Definition task_ready (i : Z) (k : kernel St) : kernel St :=
  let cpu := t_cpu (tasks k !!! i) in
  let '(k, floor) := cpu_floor k cpu in
  let k := upd_task i (fun t => (if t_vruntime t <? floor then t <| t_vruntime := floor |> else t)
                                  <| t_state := K_TASK_READY |> <| t_wait_object := None |>) k in
  emit (Wake_cpu cpu) (upd_cpu cpu (fun s => s <| c_work_pending := true |>) k).

(** * Creation *)

(** [arch_task_context_init]: an interrupt frame at the top of the new stack. *)
Definition sizeof_irq_frame : Z := 176.
Definition arch_task_context_init (k : kernel St) (i : Z) (entry : Z) : kernel St :=
  let top := t_stack_top (tasks k !!! i) in
  let frame := Z.land (u64 (top - 64 - sizeof_irq_frame)) (u64 (Z.lnot 15)) in
  let k := k <| k_ram ::= (fun m =>
    wr64 (wr64 (wr64 (wr64 (wr64 (mem_zero m frame sizeof_irq_frame) (frame + 136) entry)
      (frame + 144) 8) (frame + 168) 0x10) (frame + 152) 0x202) (frame + 160) (u64 (top - 40))) |> in
  upd_task i (fun t => t <| t_frame := frame |> <| t_arch := initial_fx k |>) k.

Definition str_fit (name : list Z) : list Z := take 31 name.
Definition new_task (k : kernel St) (name : list Z) (entry arg weight cpu : Z) (idle : bool) : kernel St * option Z :=
  if next_task_id k =? 0 then (k, None)
  else
    match find_range 0 K_MAX_TASKS (fun i => bool_decide (t_state (tasks k !!! i) = K_TASK_UNUSED)) with
    | None => (k, None)
    | Some i =>
        let k := upd_task i (fun _ => task0) k in
        let '(pages, ram, stack) := pa_alloc (k_pages k) (k_ram k) STACK_PAGES 0 in
        let k := k <| k_pages := pages |> <| k_ram := ram |> in
        if stack =? 0 then (k, None)
        else
          let k := upd_task i (fun t => t <| t_id := next_task_id k |> <| t_cpu := cpu |> <| t_weight := weight |>
            <| t_stack := stack |> <| t_stack_top := u64 (stack + STACK_PAGES * 4096) |>
            <| t_entry := entry |> <| t_arg := arg |> <| t_idle := idle |>) k in
          let k := k <| next_task_id := u32 (next_task_id k + 1) |> in
          let k := arch_task_context_init k i (task_bootstrap k) in
          let k := upd_task i (fun t => t <| t_name := str_fit name |>) k in
          let '(k, floor) := cpu_floor k cpu in
          let k := upd_task i (fun t => t <| t_vruntime := floor |> <| t_state := K_TASK_READY |>) k in
          let k := if idle then k
                   else emit (Wake_cpu cpu) (upd_cpu cpu (fun s => s <| c_work_pending := true |>) k) in
          (k, Some i)
    end.

Definition boot_name : list Z := [98; 111; 111; 116].
Definition idle_name : list Z := [105; 100; 108; 101].
Definition k_scheduler_init (k : kernel St) : kernel St * Z :=
  if negb (interrupts_ready k) || scheduler_ready k then (k, K_EINVAL)
  else
    let k := upd_task 0 (fun t => t <| t_id := next_task_id k |> <| t_cpu := 0 |> <| t_weight := 1024 |>
      <| t_state := K_TASK_RUNNING |> <| t_name := boot_name |> <| t_arch := initial_fx k |>) k in
    let k := k <| next_task_id := u32 (next_task_id k + 1) |> in
    let k := upd_cpu 0 (fun s => s <| c_current := Some 0 |> <| c_stack_owner := Some 0 |>) k in
    let '(k, idle) := new_task k idle_name (idle_entry k) 0 1 0 true in
    match idle with
    | None => (k, K_ENOMEM)
    | Some i => (upd_cpu 0 (fun s => s <| c_idle := Some i |>) k <| scheduler_ready := true |>, 0)
    end.

(** [name], [entry] and [id] are pointers: a null name or entry is refused. *)
Definition k_task_create (k : kernel St) (name : option (list Z)) (entry arg weight cpu : Z) (id : bool)
  : kernel St * Z * Z :=
  match name with
  | Some name =>
      if negb (scheduler_ready k) || (entry =? 0) || negb id || (weight =? 0) || (4096 <? weight) ||
         (discovered_cpus k <=? cpu) || negb (c_online (cpus k !!! cpu))
      then (k, K_EINVAL, 0)
      else
        match new_task k name entry arg weight cpu false with
        | (k, Some i) => (k, 0, t_id (tasks k !!! i))
        | (k, None) => (k, K_ENOMEM, 0)
        end
  | None => (k, K_EINVAL, 0)
  end.

(** * The scheduler *)

(** The virtual time one tick or one voluntary switch costs. *)
Definition charge (t : task) : Z := (1024 * 1024 + t_weight t - 1) / t_weight t.
Definition charge_task (t : task) : task := t <| t_vruntime ::= (fun v => u64 (v + charge t)) |>.

(** Wake the sleepers of CPU [c] that are due; the others give the next deadline. *)
Definition wake_sleeper (c now i : Z) (s : kernel St * bool * Z) : kernel St * bool * Z :=
  let '(k, sleepers, deadline) := s in
  let t := tasks k !!! i in
  if (t_cpu t =? c) && bool_decide (t_state t = K_TASK_SLEEPING) then
    if t_wake t <=? now then (task_ready i k, sleepers, deadline)
    else (k, true, if t_wake t <? deadline then t_wake t else deadline)
  else s.
Definition wake_sleepers (k : kernel St) (c now : Z) : kernel St * bool * Z :=
  fold_range 0 K_MAX_TASKS (wake_sleeper c now) (k, false, max_u64).

(** The candidate of the selection loop and the total weight so far. *)
Definition pick_step (k : kernel St) (c i : Z) (s : option Z * Z) : option Z * Z :=
  let '(best, weights) := s in
  let t := tasks k !!! i in
  if negb (t_cpu t =? c) || negb (bool_decide (t_state t = K_TASK_READY)) || t_idle t then s
  else
    let weights := u64 (weights + t_weight t) in
    match best with
    | None => (Some i, weights)
    | Some b =>
        let bt := tasks k !!! b in
        if (t_vruntime t <? t_vruntime bt) || ((t_vruntime t =? t_vruntime bt) && (t_id t <? t_id bt))
        then (Some i, weights) else (best, weights)
    end.
Definition pick (k : kernel St) (c : Z) : option Z * Z := fold_range 0 K_MAX_TASKS (pick_step k c) (None, 0).

(** The page-table root a task runs with. *)
Definition task_root (k : kernel St) (t : task) : Z :=
  match t_process t with
  | Some p => match p_as (processes k !!! p) with Some a => as_root (spaces k !!! a) | None => 0 end
  | None => kernel_pml4 k
  end.
Definition arch_task_switch (k : kernel St) (c old next : Z) : kernel St :=
  let k := upd_task old (fun t => t <| t_tls_base := c_fs_base (cpus k !!! c) |>) k in
  let k := upd_cpu c (fun s => s <| c_fs_base := t_tls_base (tasks k !!! next) |>) k in
  let k := upd_task old (fun t => t <| t_arch := c_fx (cpus k !!! c) |>) k in
  let k := upd_cpu c (fun s => s <| c_fx := t_arch (tasks k !!! next) |>) k in
  let top := t_stack_top (tasks k !!! next) in
  let k := upd_cpu c (fun s => s <| c_current := Some next |> <| c_rsp0 := top |> <| c_syscall_stack := top |>) k in
  let root := task_root k (tasks k !!! next) in
  if negb (root =? task_root k (tasks k !!! old)) then upd_cpu c (fun s => s <| c_cr3 := root |>) k else k.

Definition set_state (i : Z) (s : k_task_state) (k : kernel St) : kernel St :=
  let k := upd_task i (fun t => t <| t_state := s |>) k in
  match t_process (tasks k !!! i) with
  | Some p => upd_process p (fun q => q <| p_state := s |>) k
  | None => k
  end.

(** The accounting at the top of [kernel_schedule]. *)
Definition account (k : kernel St) (c old : Z) (frame : Z) (forced : bool) : kernel St :=
  let k := upd_task old (fun t => t <| t_frame := frame |>) k in
  let t := tasks k !!! old in
  if forced then
    if bool_decide (t_state t = K_TASK_RUNNING) && negb (t_idle t) && (t_preempt_depth t =? 0)
    then upd_task old charge_task k else k
  else
    let k := upd_task old (fun t => t <| t_runtime ::= (fun n => u64 (n + 1)) |>) k in
    let k := if t_idle t then k else upd_task old charge_task k in
    if c_slice (cpus k !!! c) =? 0 then k else upd_cpu c (fun s => s <| c_slice ::= (fun n => u32 (n - 1)) |>) k.

(** The choice and the switch; [None] is the null dereference of a CPU without an idle task. *)
Definition dispatch (k : kernel St) (c old : Z) (sleepers : bool) (deadline : Z) : option (kernel St * Z) :=
  let k := if bool_decide (t_state (tasks k !!! old) = K_TASK_RUNNING) then set_state old K_TASK_READY k else k in
  let '(best, weights) := pick k c in
  match (match best with Some b => Some b | None => c_idle (cpus k !!! c) end) with
  | None => None
  | Some best =>
      let bt := tasks k !!! best in
      let k := upd_cpu c (fun s => s <| c_work_pending := negb (t_idle bt) || sleepers |>) k in
      let k := set_state best K_TASK_RUNNING k in
      let k := fst (cpu_floor k c) in
      let slice := if weights =? 0 then 1 else (8 * t_weight bt + weights - 1) / weights in
      let slice := u32 (Z.min slice 8) in
      let k := upd_cpu c (fun s => s <| c_slice := if slice =? 0 then 1 else slice |>) k in
      let k := if best =? old then k
               else upd_task best (fun t => t <| t_switches ::= (fun n => u64 (n + 1)) |>)
                      (upd_cpu c (fun s => s <| c_switches ::= (fun n => u64 (n + 1)) |>)
                         (arch_task_switch k c old best)) in
      let k := emit (Timer_arm (t_idle bt) deadline) k in
      Some (k, t_frame (tasks k !!! best))
  end.

Definition kernel_schedule (k : kernel St) (c now frame : Z) (forced : bool) : option (kernel St * Z) :=
  match current_task k c with
  | None => Some (k, frame)
  | Some old =>
      let quiet := negb forced && t_idle (tasks k !!! old) in
      let k := if quiet then upd_cpu c (fun s => s <| c_idle_ticks ::= (fun n => u64 (n + 1)) |>) k else k in
      if quiet && negb (c_work_pending (cpus k !!! c)) then
        Some (emit (Timer_arm true max_u64)
                (upd_task old (fun t => t <| t_runtime ::= (fun n => u64 (n + 1)) |>) k), frame)
      else
        let k := account k c old frame forced in
        let '(k, sleepers, deadline) := wake_sleepers k c now in
        let t := tasks k !!! old in
        if bool_decide (t_state t = K_TASK_RUNNING) &&
           (negb (t_preempt_depth t =? 0) || (negb forced && negb (c_slice (cpus k !!! c) =? 0) && negb (t_idle t)))
        then Some (emit (Timer_arm false deadline) k, frame)
        else dispatch k c old sleepers deadline
  end.

(** [k_yield] reschedules through an interrupt; here the call of the handler. *)
Definition k_yield (k : kernel St) (c now frame : Z) : option (kernel St * Z) :=
  if scheduler_ready k then kernel_schedule k c now frame true else Some (k, frame).

(** * Sleep, exit, reap *)

(** The flag says that the call ends in [k_yield]. *)
Definition k_sleep (k : kernel St) (c now timer_hz ms : Z) : kernel St * bool :=
  if negb (scheduler_ready k) || (ms =? 0) then (k, true)
  else
    match current_task k c with
    | None => (k, false)
    | Some i =>
        if negb (t_preempt_depth (tasks k !!! i) =? 0) then (k, false)
        else
          let ms := if 86400000 <? ms then 86400000 else ms in
          let ticks := u64 (ms * timer_hz + 999) / 1000 in
          (upd_task i (fun t => t <| t_wake := u64 (now + ticks) |> <| t_state := K_TASK_SLEEPING |>) k, true)
    end.

(** [None]: [kernel_halt].  Otherwise the task is a zombie and yields for good. *)
Definition k_task_exit (k : kernel St) (c code : Z) : option (kernel St) :=
  match current_task k c with
  | None => None
  | Some i =>
      if t_idle (tasks k !!! i) || (t_id (tasks k !!! i) =? 1) then None
      else
        let k := upd_task i (fun t => t <| t_exit_code := code |> <| t_state := K_TASK_ZOMBIE |>
                                        <| t_preempt_depth := 0 |>) k in
        Some match t_process (tasks k !!! i) with
             | Some p => upd_process p (fun q => q <| p_exit_code := code |> <| p_state := K_TASK_ZOMBIE |>) k
             | None => k
             end
  end.

Definition free_task (i : Z) (k : kernel St) : kernel St :=
  let t := tasks k !!! i in
  let k := if t_stack t =? 0 then k
           else k <| k_pages ::= (fun s => pa_free s (t_stack t) STACK_PAGES) |> in
  upd_task i (fun _ => task0) k.

(** A CPU still runs the task or stands on its stack. *)
Definition on_cpu (k : kernel St) (i c : Z) : bool :=
  bool_decide (c_current (cpus k !!! c) = Some i) || bool_decide (c_stack_owner (cpus k !!! c) = Some i).
Definition k_task_reap (k : kernel St) (id : Z) : kernel St * Z * Z :=
  match find_range 0 K_MAX_TASKS
          (fun i => negb (bool_decide (t_state (tasks k !!! i) = K_TASK_UNUSED)) && (t_id (tasks k !!! i) =? id)) with
  | None => (k, K_ENOENT, 0)
  | Some i =>
      let t := tasks k !!! i in
      if negb (bool_decide (t_state t = K_TASK_ZOMBIE)) then (k, K_EBUSY, 0)
      else if any_range 0 (discovered_cpus k) (on_cpu k i) then (k, K_EBUSY, 0)
      else if bool_decide (t_process t <> None) then (k, K_EPERM, 0)
      else (free_task i k, 0, t_exit_code t)
  end.
(** The assembly epilogue of an interrupt: the CPU now stands on the stack of its current task. *)
Definition stack_handoff (k : kernel St) (c : Z) : kernel St :=
  upd_cpu c (fun s => s <| c_stack_owner := c_current s |>) k.

(** * Starting the other processors *)

(** The part of [x86_64_smp_start] that prepares CPU [i] before its start-up signals. *)
Definition smp_prepare (k : kernel St) (i : Z) : kernel St * Z :=
  match new_task k idle_name (idle_entry k) 0 1 i true with
  | (k, None) => (k, K_ENOMEM)
  | (k, Some t) =>
      (upd_task t (fun x => x <| t_state := K_TASK_RUNNING |>)
         (upd_cpu i (fun s => s <| c_idle := Some t |> <| c_current := Some t |>) k), 0)
  end.
(** [ap_main]: the CPU starts on its idle task, with the kernel's page tables. *)
Definition ap_main (k : kernel St) (i : Z) : kernel St :=
  match c_idle (cpus k !!! i) with
  | None => k
  | Some t =>
      let k := upd_cpu i (fun s => s <| c_cr3 := kernel_pml4 k |> <| c_fx := initial_fx k |>
        <| c_current := Some t |> <| c_stack_owner := Some t |>) k in
      let k := upd_task t (fun x => x <| t_state := K_TASK_RUNNING |>) k in
      let top := t_stack_top (tasks k !!! t) in
      upd_cpu i (fun s => s <| c_rsp0 := top |> <| c_syscall_stack := top |> <| c_online := true |>) k
  end.

(** * Queries *)
Record k_task_info := mk_task_info {
  ti_id : Z; ti_cpu : Z; ti_state : k_task_state; ti_weight : Z; ti_process_id : Z;
  ti_runtime : Z; ti_vruntime : Z; ti_switches : Z; ti_exit_code : Z; ti_name : list Z }.
Definition task_snapshot (k : kernel St) (t : task) : k_task_info :=
  mk_task_info (t_id t) (t_cpu t) (t_state t) (t_weight t)
    (match t_process t with Some p => p_id (processes k !!! p) | None => 0 end)
    (t_runtime t) (t_vruntime t) (t_switches t) (t_exit_code t) (t_name t).
Definition k_task_get (k : kernel St) (i : Z) (out : bool) : Z + k_task_info :=
  if (K_MAX_TASKS <=? i) || negb out then inl K_EINVAL
  else if bool_decide (t_state (tasks k !!! i) = K_TASK_UNUSED) then inl K_ENOENT
  else inr (task_snapshot k (tasks k !!! i)).
Definition k_task_query (k : kernel St) (id : Z) (out : bool) : Z + k_task_info :=
  if (id =? 0) || negb out then inl K_EINVAL
  else
    match find_range 0 K_MAX_TASKS
            (fun i => (t_id (tasks k !!! i) =? id) && negb (bool_decide (t_state (tasks k !!! i) = K_TASK_UNUSED))) with
    | Some i => inr (task_snapshot k (tasks k !!! i))
    | None => inl K_ENOENT
    end.
End Sched.
