(* ===== verification/SchedSpec.v ===== *)
(** Correctness of the scheduler model of [Sched]: the invariant of the task and
    CPU tables, the choice [kernel_schedule] makes, the wake-up of sleepers,
    the loading of the task's context, freedom from starvation, unique task
    identifiers and safe reaping. *)
From S2P Require Import Prelude Klib PageAlloc State Sched.

Section Frames.
Context {St : Type} `{PageSource St}.
Implicit Types k : kernel St.

(** ** What an update leaves alone *)
Lemma tasks_upd_task i f k j : tasks (upd_task i f k) !!! j = if decide (i = j) then f (tasks k !!! j) else tasks k !!! j.
Proof. apply tmod_lookup. Qed.
Lemma cpus_upd_cpu c f k d : cpus (upd_cpu c f k) !!! d = if decide (c = d) then f (cpus k !!! d) else cpus k !!! d.
Proof. apply tmod_lookup. Qed.
Lemma procs_upd_process i f k j :
  processes (upd_process i f k) !!! j = if decide (i = j) then f (processes k !!! j) else processes k !!! j.
Proof. apply tmod_lookup. Qed.
Lemma cpus_upd_task i f k : cpus (upd_task i f k) = cpus k. Proof. done. Qed.
Lemma tasks_upd_cpu c f k : tasks (upd_cpu c f k) = tasks k. Proof. done. Qed.
Lemma tasks_upd_process i f k : tasks (upd_process i f k) = tasks k. Proof. done. Qed.
Lemma cpus_upd_process i f k : cpus (upd_process i f k) = cpus k. Proof. done. Qed.
Lemma tasks_emit e k : tasks (emit e k) = tasks k. Proof. done. Qed.
Lemma cpus_emit e k : cpus (emit e k) = cpus k. Proof. done. Qed.

(** The fields of a task that scheduling never changes. *)
Definition task_key (t : task) :=
  (t_id t, t_cpu t, t_weight t, t_idle t, t_process t, t_stack t, t_stack_top t,
   t_mail_head t, t_mail_count t, t_mail t, t_wake t, t_preempt_depth t).
Definition cpu_key (s : cpu_state) := (c_idle s, c_online s, c_stack_owner s).
(** Everything but task states, virtual times and counters is the same. *)
Record same_keys (k k' : kernel St) : Prop := {
  sk_task : forall i, task_key (tasks k' !!! i) = task_key (tasks k !!! i);
  sk_cpu : forall c, cpu_key (cpus k' !!! c) = cpu_key (cpus k !!! c);
  sk_next : next_task_id k' = next_task_id k;
  sk_discovered : discovered_cpus k' = discovered_cpus k;
  sk_mutexes : mutexes k' = mutexes k;
  sk_semaphores : semaphores k' = semaphores k
}.
Lemma same_keys_refl k : same_keys k k.
Proof. by split. Qed.
Lemma same_keys_trans k1 k2 k3 : same_keys k1 k2 -> same_keys k2 k3 -> same_keys k1 k3.
Proof. intros [] []. split; intros; congruence. Qed.
Lemma same_keys_upd_task i f k : (forall t, task_key (f t) = task_key t) -> same_keys k (upd_task i f k).
Proof. intros Hf. split; try done. intros j. rewrite tasks_upd_task. by case_decide. Qed.
Lemma same_keys_upd_cpu c f k : (forall s, cpu_key (f s) = cpu_key s) -> same_keys k (upd_cpu c f k).
Proof. intros Hf. split; try done. intros d. rewrite cpus_upd_cpu. by case_decide. Qed.
Lemma same_keys_upd_process i f k : same_keys k (upd_process i f k).
Proof. by split. Qed.
Lemma same_keys_emit e k : same_keys k (emit e k).
Proof. by split. Qed.
End Frames.
#[export] Hint Resolve same_keys_refl same_keys_upd_process same_keys_emit : kernel.

(** ** The invariant of the task and CPU tables *)
Definition used (t : task) : Prop := t_state t <> K_TASK_UNUSED.

Record sched_inv {St} (k : kernel St) : Prop := {
  si_range : forall i, used (tasks k !!! i) -> 0 <= i < K_MAX_TASKS;
  si_weight : forall i, 0 <= t_weight (tasks k !!! i) <= 4096 /\ (used (tasks k !!! i) -> 0 < t_weight (tasks k !!! i));
  si_id : forall i, used (tasks k !!! i) ->
            0 < t_id (tasks k !!! i) < 2 ^ 32 /\ (next_task_id k = 0 \/ t_id (tasks k !!! i) < next_task_id k);
  si_unique : forall i j, used (tasks k !!! i) -> used (tasks k !!! j) ->
                t_id (tasks k !!! i) = t_id (tasks k !!! j) -> i = j;
  (** at most one task runs on a CPU: its current one *)
  si_running : forall i, t_state (tasks k !!! i) = K_TASK_RUNNING ->
                 c_current (cpus k !!! t_cpu (tasks k !!! i)) = Some i;
  si_current : forall c i, c_current (cpus k !!! c) = Some i ->
                 used (tasks k !!! i) /\ t_cpu (tasks k !!! i) = c /\ c_idle (cpus k !!! c) <> None;
  (** the idle task of a CPU is always ready or running there *)
  si_idle : forall c i, c_idle (cpus k !!! c) = Some i ->
              t_idle (tasks k !!! i) = true /\ t_cpu (tasks k !!! i) = c /\
              (t_state (tasks k !!! i) = K_TASK_READY \/ t_state (tasks k !!! i) = K_TASK_RUNNING);
  si_idle_only : forall i, used (tasks k !!! i) -> t_idle (tasks k !!! i) = true ->
                   c_idle (cpus k !!! t_cpu (tasks k !!! i)) = Some i;
  si_mail : forall i, 0 <= t_mail_head (tasks k !!! i) < MAIL_DEPTH /\ 0 <= t_mail_count (tasks k !!! i) <= MAIL_DEPTH;
  si_next : 0 <= next_task_id k < 2 ^ 32;
  si_cpus : forall c, c_idle (cpus k !!! c) <> None -> 0 <= c < discovered_cpus k;
  (** tasks only live on CPUs that have started *)
  si_home : forall i, used (tasks k !!! i) -> c_idle (cpus k !!! t_cpu (tasks k !!! i)) <> None;
  si_online : forall c, c_online (cpus k !!! c) = true -> c_idle (cpus k !!! c) <> None
}.

Section Inv.
Context {St : Type} `{PageSource St}.
Implicit Types k : kernel St.

Lemma key_id t t' : task_key t' = task_key t -> t_id t' = t_id t. Proof. unfold task_key. congruence. Qed.
Lemma key_cpu t t' : task_key t' = task_key t -> t_cpu t' = t_cpu t. Proof. unfold task_key. congruence. Qed.
Lemma key_weight t t' : task_key t' = task_key t -> t_weight t' = t_weight t. Proof. unfold task_key. congruence. Qed.
Lemma key_idle t t' : task_key t' = task_key t -> t_idle t' = t_idle t. Proof. unfold task_key. congruence. Qed.
Lemma key_process t t' : task_key t' = task_key t -> t_process t' = t_process t. Proof. unfold task_key. congruence. Qed.
Lemma key_mail t t' : task_key t' = task_key t ->
  t_mail_head t' = t_mail_head t /\ t_mail_count t' = t_mail_count t. Proof. unfold task_key. intros. split; congruence. Qed.
Lemma key_wake t t' : task_key t' = task_key t -> t_wake t' = t_wake t. Proof. unfold task_key. congruence. Qed.
Lemma key_depth t t' : task_key t' = task_key t -> t_preempt_depth t' = t_preempt_depth t. Proof. unfold task_key. congruence. Qed.
Lemma key_cpu_idle s s' : cpu_key s' = cpu_key s -> c_idle s' = c_idle s. Proof. unfold cpu_key. congruence. Qed.

(** The invariant survives any change of states that keeps the keys, the set of
    used slots, and the relation between running tasks and current ones. *)
Lemma sched_inv_states k k' :
  sched_inv k -> same_keys k k' ->
  (forall i, used (tasks k' !!! i) <-> used (tasks k !!! i)) ->
  (forall i, t_state (tasks k' !!! i) = K_TASK_RUNNING -> c_current (cpus k' !!! t_cpu (tasks k !!! i)) = Some i) ->
  (forall c i, c_current (cpus k' !!! c) = Some i ->
     used (tasks k !!! i) /\ t_cpu (tasks k !!! i) = c /\ c_idle (cpus k !!! c) <> None) ->
  (forall i, t_state (tasks k !!! i) = K_TASK_READY \/ t_state (tasks k !!! i) = K_TASK_RUNNING ->
     t_idle (tasks k !!! i) = true ->
     t_state (tasks k' !!! i) = K_TASK_READY \/ t_state (tasks k' !!! i) = K_TASK_RUNNING) ->
  sched_inv k'.
Proof.
  intros [Hr Hw Hid Hun Hrun Hcur Hidle Hio Hm Hn Hcp Hhm Hon] [Kt Kc Kn Kd _ _] Hused Hrun' Hcur' Hidle'.
  split; intros *; rewrite ?(key_weight _ _ (Kt i)), ?(key_id _ _ (Kt i)), ?(key_cpu _ _ (Kt i)), ?(key_idle _ _ (Kt i)), ?Kn.
  - rewrite Hused. apply Hr.
  - destruct (Hw i) as [H1 H2]. by rewrite Hused.
  - rewrite Hused. apply Hid.
  - rewrite !Hused, (key_id _ _ (Kt j)). apply Hun.
  - apply Hrun'.
  - intros Hc. rewrite Hused, (key_cpu_idle _ _ (Kc c)). by apply Hcur'.
  - rewrite (key_cpu_idle _ _ (Kc c)). intros Hc. destruct (Hidle c i Hc) as (Hi & Hcpu & Hst).
    split_and!; [done|done|by apply Hidle'].
  - rewrite Hused, (key_cpu_idle _ _ (Kc _)). apply Hio.
  - destruct (key_mail _ _ (Kt i)) as [-> ->]. apply Hm.
  - done.
  - rewrite Kd, (key_cpu_idle _ _ (Kc c)). apply Hcp.
  - rewrite Hused, (key_cpu_idle _ _ (Kc _)). apply Hhm.
  - specialize (Kc c). specialize (Hon c). unfold cpu_key in Kc. injection Kc as E1 E2 E3. by rewrite E1, E2.
Qed.

(** ** The fairness floor *)
(** The fields of a CPU that only the context switch and the slice accounting change. *)
Definition cpu_ctx (s : cpu_state) :=
  (c_current s, c_slice s, c_fs_base s, c_fx s, c_cr3 s, c_rsp0 s, c_syscall_stack s).
Lemma ctx_current s s' : cpu_ctx s' = cpu_ctx s -> c_current s' = c_current s.
Proof. unfold cpu_ctx. congruence. Qed.

Lemma cpu_floor_same k cpu :
  let k' := fst (cpu_floor k cpu) in
  tasks k' = tasks k /\ processes k' = processes k /\ spaces k' = spaces k /\ same_keys k k' /\
  (forall d, cpu_ctx (cpus k' !!! d) = cpu_ctx (cpus k !!! d)) /\
  (forall d, c_work_pending (cpus k' !!! d) = c_work_pending (cpus k !!! d)).
Proof.
  unfold cpu_floor. cbn [fst]. destruct (negb _ && _); [|by split_and!; eauto with kernel].
  split_and!; try done; [by apply same_keys_upd_cpu| |]; intros d; rewrite cpus_upd_cpu; by case_decide.
Qed.
Lemma min_vruntime_spec k cpu :
  (forall i, 0 <= i < K_MAX_TASKS -> is_u64 (t_vruntime (tasks k !!! i))) ->
  0 <= min_vruntime k cpu <= max_u64 /\
  (forall i, 0 <= i < K_MAX_TASKS -> t_cpu (tasks k !!! i) = cpu -> t_idle (tasks k !!! i) = false ->
     runnable (tasks k !!! i) = true -> min_vruntime k cpu <= t_vruntime (tasks k !!! i)).
Proof.
  intros Hv. unfold min_vruntime.
  pose proof (fold_range_inv (fun j m => 0 <= m <= max_u64 /\
    (forall i, 0 <= i < j -> t_cpu (tasks k !!! i) = cpu -> t_idle (tasks k !!! i) = false ->
       runnable (tasks k !!! i) = true -> m <= t_vruntime (tasks k !!! i)))
    (fun i m => let t := tasks k !!! i in
       if (t_cpu t =? cpu) && negb (t_idle t) && runnable t && (t_vruntime t <? m) then t_vruntime t else m)
    0 K_MAX_TASKS max_u64) as Hfold.
  apply Hfold; [done|split; [done|lia]|].
  intros i m Hi [Hm Hall]. cbn. specialize (Hv i Hi). unfold is_u64, max_u64 in *.
  destruct (_ && (_ <? m)) eqn:Hc.
  - reflect_bools. split; [lia|]. intros j Hj Hcpu Hidle Hrun.
    destruct (Z.eq_dec j i) as [->|]; [lia|]. specialize (Hall j ltac:(lia) Hcpu Hidle Hrun). lia.
  - split; [done|]. intros j Hj Hcpu Hidle Hrun. destruct (Z.eq_dec j i) as [->|]; [|by apply Hall; [lia|..]].
    rewrite Hcpu, Z.eqb_refl, Hidle, Hrun in Hc. cbn in Hc. by apply Z.ltb_ge in Hc.
Qed.

(** ** Waking the sleepers *)
Definition due (c now : Z) (t : task) : bool :=
  (t_cpu t =? c) && bool_decide (t_state t = K_TASK_SLEEPING) && (t_wake t <=? now).
Definition waiting (c now : Z) (t : task) : bool :=
  (t_cpu t =? c) && bool_decide (t_state t = K_TASK_SLEEPING) && negb (t_wake t <=? now).
(** [t] made ready with a virtual time that did not decrease. *)
Definition readied (t t' : task) : Prop :=
  exists v, t_vruntime t <= v /\ t' = t <| t_vruntime := v |> <| t_state := K_TASK_READY |> <| t_wait_object := None |>.
Record woke (k k' : kernel St) (which : Z -> bool) : Prop := {
  wo_keys : same_keys k k';
  wo_ctx : forall d, cpu_ctx (cpus k' !!! d) = cpu_ctx (cpus k !!! d);
  wo_task : forall i, if which i then readied (tasks k !!! i) (tasks k' !!! i) else tasks k' !!! i = tasks k !!! i;
  wo_procs : processes k' = processes k /\ spaces k' = spaces k /\ kernel_pml4 k' = kernel_pml4 k;
  wo_pending : forall d, c_work_pending (cpus k !!! d) = true -> c_work_pending (cpus k' !!! d) = true;
  wo_announce : forall i, which i = true -> c_work_pending (cpus k' !!! t_cpu (tasks k !!! i)) = true
}.
Lemma readied_key t t' : readied t t' -> task_key t' = task_key t.
Proof. intros (v & _ & ->). reflexivity. Qed.
Lemma readied_state t t' : readied t t' -> t_state t' = K_TASK_READY.
Proof. intros (v & _ & ->). reflexivity. Qed.

Lemma task_ready_spec k i : woke k (task_ready i k) (fun j => j =? i).
Proof.
  unfold task_ready. pose proof (cpu_floor_same k (t_cpu (tasks k !!! i))) as (Ht & Hp & Hs & Hk & Hc & Hpe).
  assert (kernel_pml4 (fst (cpu_floor k (t_cpu (tasks k !!! i)))) = kernel_pml4 k) as Hpm
    by (unfold cpu_floor; cbn [fst]; by destruct (negb _ && _)).
  destruct (cpu_floor k (t_cpu (tasks k !!! i))) as [k1 floor]. cbn [fst] in *.
  split.
  - apply (same_keys_trans _ k1); [done|]. eapply same_keys_trans; [|apply same_keys_emit].
    eapply same_keys_trans; [apply same_keys_upd_task|by apply same_keys_upd_cpu].
    intros t. cbv beta. destruct (t_vruntime t <? floor); reflexivity.
  - intros d. rewrite cpus_emit, cpus_upd_cpu, cpus_upd_task. rewrite <- Hc. by case_decide.
  - intros j. rewrite tasks_emit, tasks_upd_cpu, tasks_upd_task, Ht. case_decide as Hij.
    + subst j. rewrite Z.eqb_refl. set (t := tasks k !!! i).
      exists (if t_vruntime t <? floor then floor else t_vruntime t).
      cbv beta. destruct (Z.ltb_spec (t_vruntime t) floor); (split; [lia|by destruct t]).
    + by rewrite (proj2 (Z.eqb_neq j i)) by congruence.
  - by split_and!.
  - intros d Hd. rewrite cpus_emit, cpus_upd_cpu, cpus_upd_task. case_decide; [done|by rewrite Hpe].
  - intros j Hj. apply Z.eqb_eq in Hj as ->. rewrite cpus_emit, cpus_upd_cpu, decide_True by done. done.
Qed.
Lemma woke_ext k k' w w' : woke k k' w -> (forall i, w' i = w i) -> woke k k' w'.
Proof.
  intros [A B C D E F] Hw. split; try done; intros i; [|intros Hi; apply F; by rewrite <- Hw].
  specialize (C i). by rewrite Hw.
Qed.
Lemma woke_none k w : (forall i, w i = false) -> woke k k w.
Proof. intros Hw. split; [apply same_keys_refl|done| |done|done|]; intros i; by rewrite Hw. Qed.
Lemma woke_trans k1 k2 k3 w1 w2 w3 :
  woke k1 k2 w1 -> woke k2 k3 w2 -> (forall i, w3 i = w1 i || w2 i) -> (forall i, w1 i && w2 i = false) ->
  woke k1 k3 w3.
Proof.
  intros [A1 B1 C1 (D1 & E1 & F1) G1 N1] [A2 B2 C2 (D2 & E2 & F2) G2 N2] Hor Hand. split.
  - by apply (same_keys_trans _ k2).
  - intros d. by rewrite B2, B1.
  - intros i. specialize (C1 i). specialize (C2 i). specialize (Hand i). rewrite Hor.
    destruct (w1 i), (w2 i); cbn [orb]; try done; by rewrite C2 || rewrite <- C1.
  - split_and!; congruence.
  - intros d Hd. by apply G2, G1.
  - intros i Hi. rewrite Hor in Hi. apply orb_prop in Hi as [Hi|Hi]; [by apply G2, N1|].
    rewrite <- (key_cpu _ _ (sk_task _ _ A1 i)). by apply N2.
Qed.
Definition due_before (k : kernel St) (c now j i : Z) : bool :=
  (0 <=? i) && (i <? j) && due c now (tasks k !!! i).
Lemma due_before_step k c now j i : 0 <= j ->
  due_before k c now (j + 1) i = due_before k c now j i || ((i =? j) && due c now (tasks k !!! j)).
Proof.
  intros Hj. unfold due_before. destruct (Z.eqb_spec i j) as [->|Hne].
  - rewrite (proj2 (Z.leb_le 0 j)), (proj2 (Z.ltb_lt j (j + 1))), (proj2 (Z.ltb_ge j j)) by lia. done.
  - replace (i <? j + 1) with (i <? j); [by rewrite orb_false_r|].
    destruct (Z.ltb_spec i j), (Z.ltb_spec i (j + 1)); done || lia.
Qed.
Lemma not_due_before k c now j : due_before k c now j j = false.
Proof. unfold due_before. rewrite (proj2 (Z.ltb_ge j j)) by lia. by rewrite andb_false_r. Qed.

Lemma wake_sleepers_spec k c now :
  let '(k', sleepers, deadline) := wake_sleepers k c now in
  woke k k' (due_before k c now K_MAX_TASKS) /\
  (sleepers = true <-> exists i, 0 <= i < K_MAX_TASKS /\ waiting c now (tasks k !!! i) = true) /\
  (forall i, 0 <= i < K_MAX_TASKS -> waiting c now (tasks k !!! i) = true -> deadline <= t_wake (tasks k !!! i)).
Proof.
  unfold wake_sleepers. apply (fold_range_inv (fun j s => let '(k', sl, dl) := s in
    woke k k' (due_before k c now j) /\
    (sl = true <-> exists i, 0 <= i < j /\ waiting c now (tasks k !!! i) = true) /\
    (forall i, 0 <= i < j -> waiting c now (tasks k !!! i) = true -> dl <= t_wake (tasks k !!! i)))).
  - done.
  - split; [apply woke_none; intros i; unfold due_before;
      destruct (Z.leb_spec 0 i), (Z.ltb_spec i 0); done || lia|].
    split; [split; [done|intros (i & Hi & _); lia]|lia].
  - intros j [[k' sl] dl] Hj (Hw & Hsl & Hdl). unfold wake_sleeper.
    assert (tasks k' !!! j = tasks k !!! j) as Hsame.
    { pose proof (wo_task _ _ _ Hw j) as Ht. by rewrite not_due_before in Ht. }
    rewrite Hsame. set (t := tasks k !!! j) in *.
    assert (waiting c now t = false -> forall P : Prop, P ->
      (sl = true <-> exists i, 0 <= i < j + 1 /\ waiting c now (tasks k !!! i) = true) /\
      (forall i, 0 <= i < j + 1 -> waiting c now (tasks k !!! i) = true -> dl <= t_wake (tasks k !!! i))) as Hkeep.
    { intros Hnw _ _. split.
      - rewrite Hsl. split; intros (i & Hi & Hx); exists i; (split; [|done]); [lia|].
        destruct (Z.eq_dec i j) as [->|]; [by fold t in Hx; rewrite Hnw in Hx|lia].
      - intros i Hi Hx. destruct (Z.eq_dec i j) as [->|]; [by fold t in Hx; rewrite Hnw in Hx|apply Hdl; [lia|done]]. }
    destruct ((t_cpu t =? c) && bool_decide (t_state t = K_TASK_SLEEPING)) eqn:Hsleep.
    + destruct (t_wake t <=? now) eqn:Hnow.
      * split; [|apply (Hkeep ltac:(unfold waiting; by rewrite Hnow, andb_false_r) True I)].
        apply (woke_trans k k' _ (due_before k c now j) (fun i => i =? j)); [done|apply task_ready_spec| |].
        -- intros i. rewrite due_before_step by lia. fold t. unfold due. rewrite Hsleep, Hnow. by rewrite andb_true_r.
        -- intros i. destruct (Z.eqb_spec i j) as [->|]; [by rewrite not_due_before|by rewrite andb_false_r].
      * split; [|split].
        -- apply (woke_ext _ _ _ _ Hw). intros i. rewrite due_before_step by lia.
           fold t. unfold due. by rewrite Hsleep, Hnow, andb_false_r, orb_false_r.
        -- split; [|done]. intros _. exists j. split; [lia|]. fold t. unfold waiting. by rewrite Hsleep, Hnow.
        -- intros i Hi Hx. destruct (Z.eq_dec i j) as [->|]; [fold t|specialize (Hdl i ltac:(lia) Hx)];
             destruct (Z.ltb_spec (t_wake t) dl); lia.
    + split; [|apply (Hkeep ltac:(unfold waiting; by rewrite Hsleep) True I)].
      apply (woke_ext _ _ _ _ Hw). intros i. rewrite due_before_step by lia.
      fold t. unfold due. by rewrite Hsleep, andb_false_r, orb_false_r.
Qed.

(** ** The selection loop *)
Definition candidate (k : kernel St) (c i : Z) : Prop :=
  0 <= i < K_MAX_TASKS /\ t_cpu (tasks k !!! i) = c /\ t_state (tasks k !!! i) = K_TASK_READY /\
  t_idle (tasks k !!! i) = false.
(** Smaller virtual time, ties broken by the identifier. *)
Definition before (a b : task) : Prop :=
  t_vruntime a < t_vruntime b \/ (t_vruntime a = t_vruntime b /\ t_id a <= t_id b).
Lemma before_trans a b d : before a b -> before b d -> before a d.
Proof. unfold before. lia. Qed.
Lemma pick_spec k c :
  match fst (pick k c) with
  | None => forall i, ~ candidate k c i
  | Some b => candidate k c b /\ forall i, candidate k c i -> before (tasks k !!! b) (tasks k !!! i)
  end.
Proof.
  unfold pick. pose proof (fold_range_inv (fun j s => match fst s with
    | None => forall i, i < j -> ~ candidate k c i
    | Some b => candidate k c b /\ forall i, i < j -> candidate k c i -> before (tasks k !!! b) (tasks k !!! i)
    end) (pick_step k c) 0 K_MAX_TASKS (@None Z, 0)) as Hfold.
  assert (forall i, candidate k c i -> i < K_MAX_TASKS) as Hlt by (by intros i ((_ & ?) & _)).
  destruct (fold_range 0 K_MAX_TASKS (pick_step k c) (None, 0)) as [best w] eqn:Hf. cbn [fst] in *.
  assert (match best with
    | None => forall i, i < K_MAX_TASKS -> ~ candidate k c i
    | Some b => candidate k c b /\ forall i, i < K_MAX_TASKS -> candidate k c i -> before (tasks k !!! b) (tasks k !!! i)
    end) as Hres.
  { apply Hfold; [done|intros i Hi ((? & _) & _); lia|]. clear Hf Hfold best w.
    intros j [best w] Hj HP. cbn [fst] in HP. unfold pick_step. set (t := tasks k !!! j).
    destruct (negb (t_cpu t =? c) || negb (bool_decide (t_state t = K_TASK_READY)) || t_idle t) eqn:Hskip; cbn [fst].
    - assert (~ candidate k c j) as Hno.
      { intros (_ & Hc & Hs & Hid). fold t in Hc, Hs, Hid. rewrite Hc, Z.eqb_refl, Hs, Hid in Hskip.
        by rewrite bool_decide_true in Hskip. }
      assert (forall i, i < j + 1 -> candidate k c i -> i < j) as Hlt'.
      { intros i Hi Hc. destruct (Z.eq_dec i j) as [->|]; [done|lia]. }
      destruct best as [b|]; [destruct HP as [Hb HP]; split; [done|]; intros i Hi Hc; apply HP; [by apply Hlt'|done]|].
      intros i Hi Hc. by apply (HP i); [apply Hlt'|].
    - reflect_bools. assert (candidate k c j) as Hcj.
      { unfold candidate. fold t. split_and!; try done; try lia. 1: by eapply bool_decide_eq_true_1. }
      destruct best as [b|]; cbn [fst].
      + destruct HP as [Hb Hall]. destruct (_ || _) eqn:Hbetter; cbn [fst]; fold t in Hcj |- *.
        * split; [done|]. intros i Hi Hc. destruct (Z.eq_dec i j) as [->|]; [right; fold t; lia|].
          apply (before_trans _ (tasks k !!! b)); [unfold before; fold t; reflect_bools;
            destruct Hbetter; reflect_bools; lia|apply Hall; [lia|done]].
        * split; [done|]. intros i Hi Hc. destruct (Z.eq_dec i j) as [->|]; [|apply Hall; [lia|done]].
          fold t. unfold before. reflect_bools. lia.
      + split; [done|]. intros i Hi Hc. destruct (Z.eq_dec i j) as [->|]; [right; lia|].
        by destruct (HP i ltac:(lia)). }
  destruct best as [b|]; [destruct Hres as [Hb Hres]; split; [done|]; intros i Hc; apply Hres; [by apply Hlt|done]|].
  intros i Hc. by apply (Hres i); [apply Hlt|].
Qed.

(** ** State changes and accounting *)
Lemma tasks_set_state i s k j :
  tasks (set_state i s k) !!! j = if decide (i = j) then (tasks k !!! j) <| t_state := s |> else tasks k !!! j.
Proof. unfold set_state. destruct (t_process _); [rewrite tasks_upd_process|]; apply tasks_upd_task. Qed.
Lemma cpus_set_state i s k : cpus (set_state i s k) = cpus k.
Proof. unfold set_state. by destruct (t_process _). Qed.
Lemma keys_set_state i s k : same_keys k (set_state i s k).
Proof.
  unfold set_state. eapply same_keys_trans; [apply (same_keys_upd_task i (fun t => t <| t_state := s |>)); done|].
  destruct (t_process _); auto with kernel.
Qed.
(** The page-table roots of tasks depend on nothing scheduling changes. *)
Definition same_roots (k k' : kernel St) : Prop :=
  kernel_pml4 k' = kernel_pml4 k /\ spaces k' = spaces k /\ forall p, p_as (processes k' !!! p) = p_as (processes k !!! p).
Lemma same_roots_trans k1 k2 k3 : same_roots k1 k2 -> same_roots k2 k3 -> same_roots k1 k3.
Proof. intros (A & B & C) (A' & B' & C'). split_and!; [congruence|congruence|]. intros p. by rewrite C'. Qed.
Lemma task_root_same k k' t t' : same_roots k k' -> t_process t' = t_process t -> task_root k' t' = task_root k t.
Proof.
  intros (Hp & Hs & Ha) Ht. unfold task_root. rewrite Ht. destruct (t_process t) as [p|]; [|done].
  rewrite Ha. by destruct (p_as _) as [a|]; [rewrite Hs|].
Qed.
Lemma roots_set_state i s k : same_roots k (set_state i s k).
Proof.
  unfold set_state. destruct (t_process _) as [p|]; [|done]. split_and!; try done.
  intros q. rewrite procs_upd_process. by case_decide.
Qed.

(** What the accounting does to the current task. *)
Definition accounted (frame : Z) (forced : bool) (t : task) : task :=
  let t := t <| t_frame := frame |> in
  if forced then
    if bool_decide (t_state t = K_TASK_RUNNING) && negb (t_idle t) && (t_preempt_depth t =? 0) then charge_task t else t
  else
    let t := t <| t_runtime ::= (fun n => u64 (n + 1)) |> in if t_idle t then t else charge_task t.
Definition cpu_regs (s : cpu_state) := (c_current s, c_fs_base s, c_fx s, c_cr3 s, c_rsp0 s, c_syscall_stack s).
Lemma account_spec k c old frame forced :
  let k' := account k c old frame forced in
  (forall j, tasks k' !!! j = if decide (old = j) then accounted frame forced (tasks k !!! j) else tasks k !!! j) /\
  same_keys k k' /\ same_roots k k' /\ (forall d, cpu_regs (cpus k' !!! d) = cpu_regs (cpus k !!! d)) /\
  (forall d, c_work_pending (cpus k' !!! d) = c_work_pending (cpus k !!! d)).
Proof.
  unfold account, accounted. cbv zeta. set (k1 := upd_task old _ k).
  assert (forall f j, (forall t, task_key (f t) = task_key t) -> tasks (upd_task old f k1) !!! j =
    if decide (old = j) then f ((tasks k !!! j) <| t_frame := frame |>) else tasks k !!! j) as Hup.
  { intros f j _. subst k1. rewrite !tasks_upd_task. by destruct (decide (old = j)). }
  assert (tasks k1 !!! old = (tasks k !!! old) <| t_frame := frame |>) as Hold.
  { subst k1. rewrite tasks_upd_task. by case_decide. }
  assert (same_keys k k1) as Hk1 by (by apply same_keys_upd_task).
  rewrite Hold. set (t := (tasks k !!! old) <| t_frame := frame |>).
  destruct forced.
  - destruct (bool_decide (t_state t = K_TASK_RUNNING) && negb (t_idle t) && (t_preempt_depth t =? 0)) eqn:Hc.
    + split_and!; try done; [|by eapply same_keys_trans; [exact Hk1|apply same_keys_upd_task]].
      intros j. rewrite Hup by done. destruct (decide (old = j)) as [<-|]; [|done]. fold t. by rewrite Hc.
    + split_and!; try done. intros j. subst k1. rewrite tasks_upd_task. destruct (decide (old = j)) as [<-|]; [|done]. fold t. by rewrite Hc.
  - set (k2 := upd_task old _ k1).
    assert (tasks k2 !!! old = t <| t_runtime ::= (fun n => u64 (n + 1)) |>) as Hold2.
    { subst k2. rewrite tasks_upd_task, decide_True by done. by rewrite Hold. }
    set (k3 := if t_idle t then k2 else upd_task old charge_task k2).
    assert (same_keys k k3 /\ same_roots k k3 /\ cpus k3 = cpus k) as (Hk3 & Hr3 & Hc3).
    { assert (same_keys k k2) as Hk2 by (eapply same_keys_trans; [exact Hk1|by apply same_keys_upd_task]).
      subst k3. destruct (t_idle t); split_and!; try done. eapply same_keys_trans; [exact Hk2|by apply same_keys_upd_task]. }
    assert (forall j, tasks k3 !!! j = if decide (old = j) then accounted frame false (tasks k !!! j) else tasks k !!! j) as Ht3.
    { intros j. unfold accounted. subst k3. destruct (decide (old = j)) as [<-|Hj].
      - change ((tasks k !!! old) <| t_frame := frame |>) with t.
        change (t_idle (t <| t_runtime ::= _ |>)) with (t_idle t).
        destruct (t_idle t); [by rewrite Hold2|]. rewrite tasks_upd_task, decide_True by done. by rewrite Hold2.
      - destruct (t_idle t); rewrite ?tasks_upd_task, ?decide_False by done; subst k2 k1;
          by rewrite !tasks_upd_task, !decide_False. }
    destruct (c_slice (cpus k3 !!! c) =? 0); [split_and!; [exact Ht3|done|done|by intros d; rewrite Hc3|by intros d; rewrite Hc3]|].
    split_and!; [exact Ht3| |done| |].
    + eapply same_keys_trans; [exact Hk3|by apply same_keys_upd_cpu].
    + intros d. rewrite cpus_upd_cpu, Hc3. by case_decide.
    + intros d. rewrite cpus_upd_cpu, Hc3. by case_decide.
Qed.

(** ** The context switch *)
(** The fields of a task that a change of context leaves alone. *)
Definition task_view (t : task) := (task_key t, t_state t, t_vruntime t, t_frame t, t_wait_object t).
(** CPU [c] runs task [i] in [i]'s own context. *)
Definition loaded (k : kernel St) (c i : Z) : Prop :=
  let s := cpus k !!! c in
  c_cr3 s = task_root k (tasks k !!! i) /\ c_rsp0 s = t_stack_top (tasks k !!! i) /\
  c_syscall_stack s = t_stack_top (tasks k !!! i).
Lemma view_state t t' : task_view t' = task_view t -> t_state t' = t_state t.
Proof. unfold task_view. congruence. Qed.
Lemma view_key t t' : task_view t' = task_view t -> task_key t' = task_key t.
Proof. unfold task_view. congruence. Qed.
Lemma view_process t t' : task_view t' = task_view t -> t_process t' = t_process t.
Proof. intros Hv. by apply key_process, view_key. Qed.

Lemma view_upd_task i f k j :
  (forall t, task_view (f t) = task_view t) -> task_view (tasks (upd_task i f k) !!! j) = task_view (tasks k !!! j).
Proof. intros Hf. rewrite tasks_upd_task. by destruct (decide (i = j)). Qed.
Lemma switch_spec k c old next :
  let k' := arch_task_switch k c old next in
  (forall j, task_view (tasks k' !!! j) = task_view (tasks k !!! j)) /\
  same_keys k k' /\ same_roots k k' /\
  (forall d, d <> c -> cpus k' !!! d = cpus k !!! d) /\
  c_current (cpus k' !!! c) = Some next /\ c_slice (cpus k' !!! c) = c_slice (cpus k !!! c) /\
  c_work_pending (cpus k' !!! c) = c_work_pending (cpus k !!! c) /\
  (old <> next -> c_fs_base (cpus k' !!! c) = t_tls_base (tasks k !!! next) /\
     c_fx (cpus k' !!! c) = t_arch (tasks k !!! next)) /\
  t_tls_base (tasks k' !!! old) = c_fs_base (cpus k !!! c) /\ t_arch (tasks k' !!! old) = c_fx (cpus k !!! c) /\
  (c_cr3 (cpus k !!! c) = task_root k (tasks k !!! old) -> loaded k' c next).
Proof.
  unfold arch_task_switch. set (k1 := upd_task old _ k). set (k2 := upd_cpu c _ k1). set (k3 := upd_task old _ k2).
  set (k4 := upd_cpu c _ k3). set (k5 := upd_cpu c _ k4). cbv zeta.
  assert (forall j, task_view (tasks k5 !!! j) = task_view (tasks k !!! j)) as Hview.
  { intros j. transitivity (task_view (tasks k2 !!! j)); [by apply (view_upd_task old _ k2)|by apply (view_upd_task old _ k)]. }
  assert (same_keys k k5) as Hkeys.
  { subst k5. eapply same_keys_trans; [|by apply same_keys_upd_cpu]. subst k4. eapply same_keys_trans; [|by apply same_keys_upd_cpu].
    subst k3. eapply same_keys_trans; [|by apply same_keys_upd_task]. subst k2. eapply same_keys_trans; [|by apply same_keys_upd_cpu].
    by apply same_keys_upd_task. }
  assert (same_roots k k5) as Hroots by done.
  assert (forall d, cpus k5 !!! d = if decide (c = d) then (cpus k !!! c) <| c_fs_base := t_tls_base (tasks k1 !!! next) |>
     <| c_fx := t_arch (tasks k3 !!! next) |> <| c_current := Some next |> <| c_rsp0 := t_stack_top (tasks k4 !!! next) |>
     <| c_syscall_stack := t_stack_top (tasks k4 !!! next) |> else cpus k !!! d) as Hcpu.
  { intros d. unfold k5. rewrite cpus_upd_cpu.
    pose proof (cpus_upd_cpu c (fun s => s <| c_fx := t_arch (tasks k3 !!! next) |>) k3 d) as E4. fold k4 in E4.
    pose proof (cpus_upd_cpu c (fun s => s <| c_fs_base := t_tls_base (tasks k1 !!! next) |>) k1 d) as E2. fold k2 in E2.
    change (cpus k3) with (cpus k2) in E4. change (cpus k1) with (cpus k) in E2. rewrite E4, E2.
    by destruct (decide (c = d)) as [<-|]. }
  assert (old <> next -> tasks k1 !!! next = tasks k !!! next /\ tasks k3 !!! next = tasks k !!! next) as Hnext.
  { intros Hne. assert (tasks k1 !!! next = tasks k !!! next) as H1 by (unfold k1; by rewrite tasks_upd_task, decide_False).
    split; [done|]. unfold k3. rewrite tasks_upd_task, decide_False by done. done. }
  assert (t_tls_base (tasks k5 !!! old) = c_fs_base (cpus k !!! c) /\ t_arch (tasks k5 !!! old) = c_fx (cpus k !!! c)) as [Htls Hfx].
  { change (tasks k5) with (tasks k3). unfold k3. rewrite tasks_upd_task, decide_True by done.
    change (tasks k2) with (tasks k1). split.
    - change (t_tls_base (tasks k1 !!! old) = c_fs_base (cpus k !!! c)). unfold k1. by rewrite tasks_upd_task, decide_True.
    - change (c_fx (cpus k2 !!! c) = c_fx (cpus k !!! c)). unfold k2. by rewrite cpus_upd_cpu, decide_True. }
  assert (t_stack_top (tasks k4 !!! next) = t_stack_top (tasks k5 !!! next)) as Htop by done.
  set (root := task_root k5 (tasks k5 !!! next)).
  assert (task_root k5 (tasks k5 !!! old) = task_root k (tasks k !!! old)) as Hro.
  { apply task_root_same; [done|apply view_process, Hview]. }
  destruct (Z.eqb_spec root (task_root k5 (tasks k5 !!! old))) as [Heq|Hne]; cbn [negb].
  - split_and!; try done; rewrite ?Hcpu, ?decide_True by done; try done.
    + intros d Hd. by rewrite Hcpu, decide_False by congruence.
    + intros Hon. destruct (Hnext Hon) as [-> ->]. done.
    + intros Hcr3. unfold loaded. rewrite Hcpu, decide_True by done. split_and!; try done.
      etransitivity; [exact Hcr3|]. rewrite <- Hro. by symmetry.
  - split_and!; try done; rewrite ?cpus_upd_cpu, ?Hcpu, ?decide_True by done; try done.
    + eapply same_keys_trans; [exact Hkeys|by apply same_keys_upd_cpu].
    + intros d Hd. by rewrite cpus_upd_cpu, Hcpu, !decide_False by congruence.
    + intros Hon. destruct (Hnext Hon) as [-> ->]. done.
    + intros Hcr3. unfold loaded. rewrite cpus_upd_cpu, Hcpu, !decide_True by done. done.
Qed.

(** ** The choice *)
Definition demoted (k : kernel St) (old : Z) : kernel St :=
  if bool_decide (t_state (tasks k !!! old) = K_TASK_RUNNING) then set_state old K_TASK_READY k else k.
Definition chosen (k : kernel St) (c : Z) : option Z :=
  match fst (pick k c) with Some b => Some b | None => c_idle (cpus k !!! c) end.
Record dispatched (k : kernel St) (c old : Z) (sl : bool) (k' : kernel St) (b : Z) : Prop := {
  di_chosen : chosen (demoted k old) c = Some b;
  di_keys : same_keys k k';
  di_roots : same_roots k k';
  di_state : forall i, t_state (tasks k' !!! i) =
               if decide (b = i) then K_TASK_RUNNING else t_state (tasks (demoted k old) !!! i);
  di_vruntime : forall i, t_vruntime (tasks k' !!! i) = t_vruntime (tasks k !!! i);
  di_frame : forall i, t_frame (tasks k' !!! i) = t_frame (tasks k !!! i);
  di_wait : forall i, t_wait_object (tasks k' !!! i) = t_wait_object (tasks k !!! i);
  di_pending : forall d, d <> c -> c_work_pending (cpus k' !!! d) = c_work_pending (cpus k !!! d);
  di_announce : c_work_pending (cpus k' !!! c) = negb (t_idle (tasks k !!! b)) || sl;
  di_others : forall d, d <> c -> cpu_ctx (cpus k' !!! d) = cpu_ctx (cpus k !!! d);
  di_current : c_current (cpus k' !!! c) = Some b;
  di_slice : 1 <= c_slice (cpus k' !!! c) <= 8;
  di_same : b = old -> cpu_regs (cpus k' !!! c) = cpu_regs (cpus k !!! c);
  di_switch : b <> old ->
    c_fs_base (cpus k' !!! c) = t_tls_base (tasks k !!! b) /\ c_fx (cpus k' !!! c) = t_arch (tasks k !!! b) /\
    t_tls_base (tasks k' !!! old) = c_fs_base (cpus k !!! c) /\ t_arch (tasks k' !!! old) = c_fx (cpus k !!! c) /\
    (c_cr3 (cpus k !!! c) = task_root k (tasks k !!! old) -> loaded k' c b)
}.
Lemma ctx_regs s s' : cpu_ctx s' = cpu_ctx s -> cpu_regs s' = cpu_regs s.
Proof. unfold cpu_ctx, cpu_regs. congruence. Qed.
Lemma regs_slice s n : cpu_regs (s <| c_slice := n |>) = cpu_regs s.
Proof. done. Qed.
(** What a change of state leaves alone. *)
Definition task_rest (t : task) := (t_vruntime t, t_frame t, t_tls_base t, t_arch t, t_wait_object t).
Lemma set_state_rest i s k j : task_rest (tasks (set_state i s k) !!! j) = task_rest (tasks k !!! j).
Proof. rewrite tasks_set_state. by destruct (decide (i = j)). Qed.
Lemma demoted_same k old :
  same_keys k (demoted k old) /\ same_roots k (demoted k old) /\ cpus (demoted k old) = cpus k /\
  (forall i, task_rest (tasks (demoted k old) !!! i) = task_rest (tasks k !!! i)) /\
  (forall i, i <> old -> tasks (demoted k old) !!! i = tasks k !!! i) /\
  t_state (tasks (demoted k old) !!! old) =
    (if bool_decide (t_state (tasks k !!! old) = K_TASK_RUNNING) then K_TASK_READY else t_state (tasks k !!! old)).
Proof.
  unfold demoted. destruct (bool_decide _); [|by split_and!].
  split_and!; [apply keys_set_state|apply roots_set_state|apply cpus_set_state| | |].
  - intros i. apply set_state_rest.
  - intros i Hi. by rewrite tasks_set_state, decide_False.
  - by rewrite tasks_set_state, decide_True.
Qed.
Lemma slice_bounds w weights : 0 <= w -> 0 <= weights ->
  let slice := if weights =? 0 then 1 else (8 * w + weights - 1) / weights in
  let slice := u32 (Z.min slice 8) in 1 <= (if slice =? 0 then 1 else slice) <= 8.
Proof.
  intros Hw Hws. cbv zeta. set (s := if weights =? 0 then 1 else _).
  assert (0 <= s) by (subst s; destruct (Z.eqb_spec weights 0); [lia|apply Z.div_pos; lia]).
  unfold u32. rewrite Z.mod_small by lia. destruct (Z.eqb_spec (Z.min s 8) 0); lia.
Qed.

Lemma pending_slice c n k d :
  c_work_pending (cpus (upd_cpu c (fun s => s <| c_slice := n |>) k) !!! d) = c_work_pending (cpus k !!! d).
Proof. rewrite cpus_upd_cpu. by destruct (decide (c = d)). Qed.
Lemma pending_pending c p k d :
  c_work_pending (cpus (upd_cpu c (fun s => s <| c_work_pending := p |>) k) !!! d) =
  if decide (c = d) then p else c_work_pending (cpus k !!! d).
Proof. rewrite cpus_upd_cpu. by destruct (decide (c = d)). Qed.
(** The steps of [dispatch] between the choice and the switch. *)
Definition committed (k : kernel St) (c b slice : Z) (pending : bool) : kernel St :=
  upd_cpu c (fun s => s <| c_slice := slice |>)
    (fst (cpu_floor (set_state b K_TASK_RUNNING (upd_cpu c (fun s => s <| c_work_pending := pending |>) k)) c)).
Lemma committed_same k c b slice pending :
  let k' := committed k c b slice pending in
  same_keys k k' /\ same_roots k k' /\
  (forall i, task_rest (tasks k' !!! i) = task_rest (tasks k !!! i)) /\
  (forall i, t_state (tasks k' !!! i) = if decide (b = i) then K_TASK_RUNNING else t_state (tasks k !!! i)) /\
  (forall d, cpu_regs (cpus k' !!! d) = cpu_regs (cpus k !!! d)) /\
  (forall d, d <> c -> c_slice (cpus k' !!! d) = c_slice (cpus k !!! d)) /\ c_slice (cpus k' !!! c) = slice /\
  (forall d, c_work_pending (cpus k' !!! d) = if decide (c = d) then pending else c_work_pending (cpus k !!! d)).
Proof.
  unfold committed. set (k1 := upd_cpu c _ k). set (k2 := set_state b K_TASK_RUNNING k1).
  destruct (cpu_floor_same k2 c) as (Ht & Hp & Hs & Hk & Hc & Hpe).
  assert (kernel_pml4 (fst (cpu_floor k2 c)) = kernel_pml4 k2) as Hpm
    by (unfold cpu_floor; cbn [fst]; by destruct (negb _ && _)).
  set (k3 := fst (cpu_floor k2 c)) in *. cbv zeta.
  change (tasks (upd_cpu c (fun s => s <| c_slice := slice |>) k3)) with (tasks k3). rewrite Ht.
  assert (forall d, cpu_ctx (cpus k3 !!! d) = cpu_ctx (cpus k !!! d)) as Hctx.
  { intros d. rewrite Hc. subst k2. rewrite cpus_set_state. unfold k1. rewrite cpus_upd_cpu. by destruct (decide (c = d)). }
  split_and!.
  - eapply same_keys_trans; [|by apply same_keys_upd_cpu]. eapply same_keys_trans; [|exact Hk].
    eapply same_keys_trans; [|apply keys_set_state]. by apply same_keys_upd_cpu.
  - pose proof (roots_set_state b K_TASK_RUNNING k1) as (R1 & R2 & R3). fold k2 in R1, R2, R3. split_and!.
    + change (kernel_pml4 k3 = kernel_pml4 k). by rewrite Hpm, R1.
    + change (spaces k3 = spaces k). by rewrite Hs, R2.
    + intros p. change (p_as (processes k3 !!! p) = p_as (processes k !!! p)). by rewrite Hp, R3.
  - intros i. change (tasks k) with (tasks k1). apply set_state_rest.
  - intros i. subst k2. rewrite tasks_set_state. by destruct (decide (b = i)).
  - intros d. rewrite cpus_upd_cpu. specialize (Hctx d). apply ctx_regs in Hctx.
    destruct (decide (c = d)); cbv beta; by rewrite ?regs_slice.
  - intros d Hd. rewrite cpus_upd_cpu, decide_False by congruence. specialize (Hctx d). unfold cpu_ctx in Hctx. congruence.
  - by rewrite cpus_upd_cpu, decide_True.
  - intros d. rewrite pending_slice. etransitivity; [apply Hpe|]. unfold k2. rewrite cpus_set_state. apply pending_pending.
Qed.
Lemma roots_emit e k : same_roots k (emit e k).
Proof. done. Qed.
(** The switch counters at the end of [dispatch]. *)
Lemma counted_same k c b :
  let k' := upd_task b (fun t => t <| t_switches ::= (fun n => u64 (n + 1)) |>)
              (upd_cpu c (fun s => s <| c_switches ::= (fun n => u64 (n + 1)) |>) k) in
  (forall i, task_view (tasks k' !!! i) = task_view (tasks k !!! i)) /\
  (forall i, t_tls_base (tasks k' !!! i) = t_tls_base (tasks k !!! i)) /\
  (forall i, t_arch (tasks k' !!! i) = t_arch (tasks k !!! i)) /\
  same_keys k k' /\ same_roots k k' /\ (forall d, cpu_ctx (cpus k' !!! d) = cpu_ctx (cpus k !!! d)) /\
  (forall d, c_work_pending (cpus k' !!! d) = c_work_pending (cpus k !!! d)).
Proof.
  set (k1 := upd_cpu c _ k). cbv zeta. split_and!.
  - intros i. rewrite tasks_upd_task. change (tasks k1) with (tasks k). by destruct (decide (b = i)).
  - intros i. rewrite tasks_upd_task. change (tasks k1) with (tasks k). by destruct (decide (b = i)).
  - intros i. rewrite tasks_upd_task. change (tasks k1) with (tasks k). by destruct (decide (b = i)).
  - eapply same_keys_trans; [|by apply same_keys_upd_task]. by apply same_keys_upd_cpu.
  - done.
  - intros d. rewrite cpus_upd_task. unfold k1. rewrite cpus_upd_cpu. by destruct (decide (c = d)).
  - intros d. rewrite cpus_upd_task. unfold k1. rewrite cpus_upd_cpu. by destruct (decide (c = d)).
Qed.
Lemma loaded_same k k' c i :
  same_roots k k' -> task_view (tasks k' !!! i) = task_view (tasks k !!! i) ->
  cpu_ctx (cpus k' !!! c) = cpu_ctx (cpus k !!! c) -> loaded k c i -> loaded k' c i.
Proof.
  intros Hr Hv Hc (L1 & L2 & L3). unfold loaded, task_view, task_key, cpu_ctx in *.
  rewrite (task_root_same k k' (tasks k !!! i)) by (done || congruence).
  split_and!; congruence.
Qed.
Lemma dispatch_spec k c old sl dl k' f' :
  (forall i, 0 <= t_weight (tasks k !!! i)) -> c_current (cpus k !!! c) = Some old ->
  dispatch k c old sl dl = Some (k', f') -> exists b, dispatched k c old sl k' b /\ f' = t_frame (tasks k !!! b).
Proof.
  intros Hw Hcur. unfold dispatch. fold (demoted k old). destruct (demoted_same k old) as (Dk & Dr & Dc & Drest & Dt & Ds).
  set (k1 := demoted k old) in *. destruct (pick k1 c) as [best weights] eqn:Hpick.
  assert (chosen k1 c = match best with Some b => Some b | None => c_idle (cpus k1 !!! c) end) as Hch
    by (unfold chosen; by rewrite Hpick).
  destruct (match best with Some b => Some b | None => c_idle (cpus k1 !!! c) end) as [b|]; [|done].
  cbv zeta. set (slice := if u32 _ =? 0 then 1 else u32 _). set (pending := negb (t_idle _) || sl).
  change (upd_cpu c (fun s => s <| c_slice := slice |>) _) with (committed k1 c b slice pending).
  destruct (committed_same k1 c b slice pending) as (Ck & Cr & Crest & Cst & Cregs & Cso & Csl & Cpe).
  set (k2 := committed k1 c b slice pending) in *.
  assert (1 <= slice <= 8) as Hslice.
  { apply slice_bounds; [rewrite (key_weight _ _ (sk_task _ _ Dk b)); apply Hw|].
    assert (0 <= snd (pick k1 c)) as Hnn; [|by rewrite Hpick in Hnn]. unfold pick.
    apply (fold_range_inv (fun _ s => 0 <= snd s)); [done|done|]. intros i [bb ww] _ Hww. cbn in *. unfold pick_step.
    destruct (_ || t_idle _); [done|]. assert (0 <= u64 (ww + t_weight (tasks k1 !!! i))) by (apply Z.mod_pos_bound; lia).
    destruct bb as [q|]; [destruct ((_ <? _) || _)|]; exact H0. }
  intros [= <- <-]. exists b. assert (same_keys k k2 /\ same_roots k k2) as [K2 R2].
  { split; [by eapply same_keys_trans|by eapply same_roots_trans]. }
  assert (forall i, task_rest (tasks k2 !!! i) = task_rest (tasks k !!! i)) as Hrest by (intros i; by rewrite Crest, Drest).
  assert (forall d, cpu_regs (cpus k2 !!! d) = cpu_regs (cpus k !!! d)) as Hregs by (intros d; by rewrite Cregs, Dc).
  assert (forall i, t_vruntime (tasks k2 !!! i) = t_vruntime (tasks k !!! i) /\
     t_frame (tasks k2 !!! i) = t_frame (tasks k !!! i) /\ t_tls_base (tasks k2 !!! i) = t_tls_base (tasks k !!! i) /\
     t_arch (tasks k2 !!! i) = t_arch (tasks k !!! i) /\ t_wait_object (tasks k2 !!! i) = t_wait_object (tasks k !!! i)) as Hvol.
  { intros i. specialize (Hrest i). unfold task_rest in Hrest. split_and!; congruence. }
  assert (forall d, d <> c -> cpu_ctx (cpus k2 !!! d) = cpu_ctx (cpus k !!! d)) as Hctx.
  { intros d Hd. specialize (Hregs d). specialize (Cso d Hd). rewrite Dc in Cso. unfold cpu_regs, cpu_ctx in *. congruence. }
  destruct (Z.eqb_spec b old) as [->|Hne].
  - split; [|apply Hvol]. split.
    + done.
    + eapply same_keys_trans; [exact K2|apply same_keys_emit].
    + eapply same_roots_trans; [exact R2|apply roots_emit].
    + intros i. rewrite tasks_emit. apply Cst.
    + intros i. rewrite tasks_emit. apply Hvol.
    + intros i. rewrite tasks_emit. apply Hvol.
    + intros i. rewrite tasks_emit. apply Hvol.
    + intros d Hd. rewrite cpus_emit, Cpe, decide_False, Dc by congruence. done.
    + rewrite cpus_emit, Cpe, decide_True by done. unfold pending. by rewrite (key_idle _ _ (sk_task _ _ Dk old)).
    + intros d Hd. rewrite cpus_emit. by apply Hctx.
    + specialize (Hregs c). unfold cpu_regs in Hregs. rewrite cpus_emit. congruence.
    + by rewrite cpus_emit, Csl.
    + intros _. rewrite cpus_emit. apply Hregs.
    + done.
  - destruct (switch_spec k2 c old b) as (Sv & Sk & Sr & So & Sc & Ssl & Spe & Sload & Stls & Sfx & Scr3).
    set (k3 := arch_task_switch k2 c old b) in *. destruct (counted_same k3 c b) as (Nv & Nt & Na & Nk & Nr & Nc & Ncp).
    set (k4 := upd_task b _ _) in *.
    assert (forall i, task_view (tasks k4 !!! i) = task_view (tasks k2 !!! i)) as Hview by (intros i; by rewrite Nv, Sv).
    split; [|pose proof (Hview b) as Vb; unfold task_view in Vb; destruct (Hvol b) as (_ & Vf & _); congruence].
    split.
    + done.
    + eapply same_keys_trans; [exact K2|]. eapply same_keys_trans; [exact Sk|]. eapply same_keys_trans; [exact Nk|apply same_keys_emit].
    + eapply same_roots_trans; [exact R2|]. eapply same_roots_trans; [exact Sr|]. eapply same_roots_trans; [exact Nr|apply roots_emit].
    + intros i. rewrite tasks_emit, <- Cst. apply view_state, Hview.
    + intros i. rewrite tasks_emit. destruct (Hvol i) as (Vv & _).
      specialize (Hview i). unfold task_view in Hview. congruence.
    + intros i. rewrite tasks_emit. destruct (Hvol i) as (_ & Vf & _).
      specialize (Hview i). unfold task_view in Hview. congruence.
    + intros i. rewrite tasks_emit. destruct (Hvol i) as (_ & _ & _ & _ & Vw).
      specialize (Hview i). unfold task_view in Hview. congruence.
    + intros d Hd. rewrite cpus_emit, Ncp, So, Cpe, decide_False, Dc by congruence. done.
    + rewrite cpus_emit, Ncp, Spe, Cpe, decide_True by done. unfold pending. by rewrite (key_idle _ _ (sk_task _ _ Dk b)).
    + intros d Hd. rewrite cpus_emit, Nc, So by done. by apply Hctx.
    + rewrite cpus_emit. specialize (Nc c). unfold cpu_ctx in Nc. congruence.
    + rewrite cpus_emit. specialize (Nc c). unfold cpu_ctx in Nc. replace (c_slice (cpus k4 !!! c)) with slice by congruence. done.
    + done.
    + intros _. rewrite cpus_emit, tasks_emit. rewrite Nt, Na, Stls, Sfx.
      destruct (Sload ltac:(congruence)) as [Sfs Sfxx]. destruct (Hvol b) as (_ & _ & Vt & Va & _).
      pose proof (Hregs c) as Rc. unfold cpu_regs in Rc. pose proof (Nc c) as Ncc. unfold cpu_ctx in Ncc.
      split_and!; try congruence. intros Hcr3. apply (loaded_same k4); [apply roots_emit|by rewrite tasks_emit|by rewrite cpus_emit|].
      apply (loaded_same k3); [exact Nr|exact (Nv b)|exact (Nc c)|].
      apply Scr3. rewrite (task_root_same k k2 (tasks k !!! old)); [congruence|done|].
      apply key_process, (sk_task _ _ K2).
Qed.

(** ** One call of [kernel_schedule] *)
Lemma accounted_key frame forced t : task_key (accounted frame forced t) = task_key t.
Proof. unfold accounted. destruct forced; [destruct (_ && _)|destruct (t_idle _)]; done. Qed.
Lemma accounted_state frame forced t : t_state (accounted frame forced t) = t_state t.
Proof. unfold accounted. destruct forced; [destruct (_ && _)|destruct (t_idle _)]; done. Qed.
Lemma accounted_frame frame forced t : t_frame (accounted frame forced t) = frame.
Proof. unfold accounted. destruct forced; [destruct (_ && _)|destruct (t_idle _)]; done. Qed.
Lemma accounted_tls frame forced t : t_tls_base (accounted frame forced t) = t_tls_base t /\ t_arch (accounted frame forced t) = t_arch t /\
  t_wait_object (accounted frame forced t) = t_wait_object t.
Proof. unfold accounted. destruct forced; [destruct (_ && _)|destruct (t_idle _)]; done. Qed.
(** The task as the accounting leaves it. *)
Definition billed (k : kernel St) (old frame : Z) (forced : bool) (i : Z) : task :=
  if decide (old = i) then accounted frame forced (tasks k !!! i) else tasks k !!! i.
Lemma billed_key k old frame forced i : task_key (billed k old frame forced i) = task_key (tasks k !!! i).
Proof. unfold billed. destruct (decide _); [apply accounted_key|done]. Qed.
Lemma billed_state k old frame forced i : t_state (billed k old frame forced i) = t_state (tasks k !!! i).
Proof. unfold billed. destruct (decide _); [apply accounted_state|done]. Qed.
Definition due_in (k : kernel St) (c now i : Z) : bool := due_before k c now K_MAX_TASKS i.
Lemma due_key c now t t' : task_key t' = task_key t -> t_state t' = t_state t -> due c now t' = due c now t.
Proof. intros Hk Hs. unfold due. by rewrite (key_cpu _ _ Hk), (key_wake _ _ Hk), Hs. Qed.

(** The state in which the choice is made: accounted, sleepers woken. *)
Record prepared (k : kernel St) (c now old frame : Z) (forced : bool) (k2 : kernel St) (sl : bool) (dl : Z) : Prop := {
  pp_keys : same_keys k k2;
  pp_roots : same_roots k k2;
  pp_regs : forall d, cpu_regs (cpus k2 !!! d) = cpu_regs (cpus k !!! d);
  pp_task : forall i, if due_in k c now i then readied (billed k old frame forced i) (tasks k2 !!! i)
                      else tasks k2 !!! i = billed k old frame forced i;
  pp_sleepers : sl = true <-> exists i, 0 <= i < K_MAX_TASKS /\ waiting c now (tasks k !!! i) = true;
  pp_deadline : forall i, 0 <= i < K_MAX_TASKS -> waiting c now (tasks k !!! i) = true -> dl <= t_wake (tasks k !!! i);
  pp_pending : forall d, c_work_pending (cpus k !!! d) = true -> c_work_pending (cpus k2 !!! d) = true;
  pp_announce : forall i, due_in k c now i = true -> c_work_pending (cpus k2 !!! t_cpu (tasks k !!! i)) = true
}.
Lemma prepare_spec k c now old frame forced :
  let '(k2, sl, dl) := wake_sleepers (account k c old frame forced) c now in
  prepared k c now old frame forced k2 sl dl.
Proof.
  destruct (account_spec k c old frame forced) as (At & Ak & Ar & Ac & Ap).
  set (k1 := account k c old frame forced) in *. pose proof (wake_sleepers_spec k1 c now) as Hw.
  assert (forall i, tasks k1 !!! i = billed k old frame forced i) as Hb by (intros i; apply At).
  assert (forall i, due_before k1 c now K_MAX_TASKS i = due_in k c now i) as Hdue.
  { intros i. unfold due_in, due_before. rewrite Hb. f_equal. apply due_key; [apply billed_key|apply billed_state]. }
  assert (forall i, waiting c now (tasks k1 !!! i) = waiting c now (tasks k !!! i)) as Hwait.
  { intros i. rewrite Hb. unfold waiting. pose proof (billed_key k old frame forced i) as Hk.
    by rewrite (key_cpu _ _ Hk), (key_wake _ _ Hk), billed_state. }
  destruct (wake_sleepers k1 c now) as [[k2 sl] dl]. destruct Hw as ([Wk Wc Wt (Wp & Ws & Wm) Wn Wa] & Hsl & Hdl).
  split.
  - by eapply same_keys_trans.
  - eapply same_roots_trans; [exact Ar|]. split_and!; [done|done|]. intros p. by rewrite Wp.
  - intros d. specialize (Wc d). apply ctx_regs in Wc. congruence.
  - intros i. specialize (Wt i). rewrite Hdue, Hb in Wt. done.
  - rewrite Hsl. split; intros (i & Hi & Hx); exists i; by rewrite Hwait in *.
  - intros i Hi Hx. rewrite <- Hwait in Hx. specialize (Hdl i Hi Hx). rewrite Hb in Hdl.
    by rewrite (key_wake _ _ (billed_key k old frame forced i)) in Hdl.
  - intros d Hd. apply Wn. by rewrite Ap.
  - intros i Hd. rewrite <- Hdue in Hd. specialize (Wa i Hd). rewrite Hb in Wa.
    by rewrite (key_cpu _ _ (billed_key k old frame forced i)) in Wa.
Qed.
Section Prepared.
Context (k : kernel St) (c now old frame : Z) (forced : bool) (k2 : kernel St) (sl : bool) (dl : Z).
Hypothesis Hp : prepared k c now old frame forced k2 sl dl.
Lemma prepared_state i : t_state (tasks k2 !!! i) = if due_in k c now i then K_TASK_READY else t_state (tasks k !!! i).
Proof.
  pose proof (pp_task _ _ _ _ _ _ _ _ _ Hp i) as Ht. destruct (due_in k c now i).
  - by apply readied_state in Ht.
  - rewrite Ht. apply billed_state.
Qed.
Lemma prepared_used i : used (tasks k2 !!! i) <-> used (tasks k !!! i).
Proof.
  unfold used. rewrite prepared_state. unfold due_in, due_before, due.
  destruct (bool_decide_reflect (t_state (tasks k !!! i) = K_TASK_SLEEPING)) as [->|].
  - by destruct (_ && (_ && _ && _)).
  - by rewrite !andb_false_r, !andb_false_l || rewrite !andb_false_r.
Qed.
Lemma prepared_running i : t_state (tasks k2 !!! i) = K_TASK_RUNNING -> t_state (tasks k !!! i) = K_TASK_RUNNING.
Proof. rewrite prepared_state. by destruct (due_in k c now i). Qed.
Lemma prepared_inv : sched_inv k -> sched_inv k2.
Proof.
  intros Hi. destruct Hp as [Pk _ Pr _ _ _ _ _]. assert (forall d, c_current (cpus k2 !!! d) = c_current (cpus k !!! d)) as Hcur.
  { intros d. specialize (Pr d). unfold cpu_regs in Pr. congruence. }
  apply (sched_inv_states k k2); try done.
  - apply prepared_used.
  - intros i Hr. rewrite Hcur. by apply (si_running k Hi), prepared_running.
  - intros d i. rewrite Hcur. apply (si_current k Hi).
  - intros i Hs _. rewrite prepared_state. destruct (due_in k c now i); [by left|done].
Qed.
End Prepared.

(** A tick of an idle CPU without pending work. *)
Definition idled (k : kernel St) (c old : Z) : kernel St :=
  emit (Timer_arm true max_u64)
    (upd_task old (fun t => t <| t_runtime ::= (fun n => u64 (n + 1)) |>)
      (upd_cpu c (fun s => s <| c_idle_ticks ::= (fun n => u64 (n + 1)) |>) k)).
Lemma idled_same k c old :
  same_keys k (idled k c old) /\ same_roots k (idled k c old) /\
  (forall i, task_view (tasks (idled k c old) !!! i) = task_view (tasks k !!! i)) /\
  (forall d, cpu_ctx (cpus (idled k c old) !!! d) = cpu_ctx (cpus k !!! d)) /\
  (forall d, c_work_pending (cpus (idled k c old) !!! d) = c_work_pending (cpus k !!! d)).
Proof.
  unfold idled. set (k1 := upd_cpu c _ k). set (k2 := upd_task old _ k1). split_and!.
  - apply (same_keys_trans _ k2); [|apply same_keys_emit].
    apply (same_keys_trans _ k1); [by apply same_keys_upd_cpu|by apply same_keys_upd_task].
  - done.
  - intros i. rewrite tasks_emit. unfold k2. rewrite tasks_upd_task. unfold k1. rewrite tasks_upd_cpu. by destruct (decide (old = i)).
  - intros d. rewrite cpus_emit. unfold k2. rewrite cpus_upd_task. unfold k1. rewrite cpus_upd_cpu. by destruct (decide (c = d)).
  - intros d. rewrite cpus_emit. unfold k2. rewrite cpus_upd_task. unfold k1. rewrite cpus_upd_cpu. by destruct (decide (c = d)).
Qed.
(** The three ways a call ends for a CPU with current task [old]. *)
Inductive outcome (k : kernel St) (c now frame : Z) (forced : bool) (old : Z) : option (kernel St * Z) -> Prop :=
  | Out_idle k' : forced = false -> t_idle (tasks k !!! old) = true -> c_work_pending (cpus k !!! c) = false ->
      k' = idled k c old -> outcome k c now frame forced old (Some (k', frame))
  | Out_keep k' k2 sl dl : prepared k c now old frame forced k2 sl dl ->
      t_state (tasks k !!! old) = K_TASK_RUNNING ->
      t_preempt_depth (tasks k !!! old) <> 0 \/
        (forced = false /\ c_slice (cpus k2 !!! c) <> 0 /\ t_idle (tasks k !!! old) = false) ->
      k' = emit (Timer_arm false dl) k2 -> outcome k c now frame forced old (Some (k', frame))
  | Out_dispatch k2 sl dl r : prepared k c now old frame forced k2 sl dl ->
      (t_state (tasks k !!! old) = K_TASK_RUNNING -> t_preempt_depth (tasks k !!! old) = 0) ->
      r = dispatch k2 c old sl dl -> outcome k c now frame forced old r.

Lemma prepared_counted k k0 c now old frame forced k2 sl dl :
  tasks k0 = tasks k -> same_keys k k0 -> same_roots k k0 -> (forall d, cpu_regs (cpus k0 !!! d) = cpu_regs (cpus k !!! d)) ->
  (forall d, c_work_pending (cpus k0 !!! d) = c_work_pending (cpus k !!! d)) ->
  prepared k0 c now old frame forced k2 sl dl -> prepared k c now old frame forced k2 sl dl.
Proof.
  intros Ht Hk Hr Hc Hw [Pk Pr Pc Pt Ps Pd Pp Pa]. unfold billed, due_in, due_before in *. rewrite Ht in *. split; try done.
  - by eapply same_keys_trans.
  - by eapply same_roots_trans.
  - intros d. by rewrite Pc.
  - intros d Hd. apply Pp. by rewrite Hw.
Qed.
Lemma schedule_cases k c now frame forced old :
  c_current (cpus k !!! c) = Some old -> (t_state (tasks k !!! old) = K_TASK_RUNNING -> t_cpu (tasks k !!! old) = c) ->
  outcome k c now frame forced old (kernel_schedule k c now frame forced).
Proof.
  intros Hcur Hown. unfold kernel_schedule, current_task. rewrite Hcur.
  set (k0 := if negb forced && t_idle (tasks k !!! old) then upd_cpu c _ k else k).
  assert (tasks k0 = tasks k /\ same_keys k k0 /\ same_roots k k0 /\
    (forall d, cpu_regs (cpus k0 !!! d) = cpu_regs (cpus k !!! d)) /\
    (forall d, c_work_pending (cpus k0 !!! d) = c_work_pending (cpus k !!! d))) as (E1 & E2 & E3 & E4 & E5).
  { subst k0. destruct (negb forced && _); [|by split_and!; eauto with kernel].
    split_and!; try done; [by apply same_keys_upd_cpu| |];
      intros d; rewrite cpus_upd_cpu; by destruct (decide (c = d)). }
  destruct (negb forced && t_idle (tasks k !!! old) && negb (c_work_pending (cpus k0 !!! c))) eqn:Hq.
  { rewrite E5 in Hq. apply andb_prop in Hq as [Hq Hpend]. subst k0. pose proof Hq as Hq'. apply andb_prop in Hq as [Hf Hid].
    apply negb_true_iff in Hf, Hpend. apply Out_idle; try done. unfold idled. by rewrite Hf, Hid. }
  clear Hq. pose proof (prepare_spec k0 c now old frame forced) as Hp.
  destruct (wake_sleepers (account k0 c old frame forced) c now) as [[k2 sl] dl].
  apply (prepared_counted k k0) in Hp; try done.
  assert (t_state (tasks k !!! old) = K_TASK_RUNNING -> t_state (tasks k2 !!! old) = K_TASK_RUNNING) as Hrun.
  { intros Hs. rewrite (prepared_state _ _ _ _ _ _ _ _ _ Hp). unfold due_in, due_before, due. rewrite Hs.
    by rewrite bool_decide_false, !andb_false_r, ?andb_false_l, ?andb_false_r by done. }
  pose proof (sk_task _ _ (pp_keys _ _ _ _ _ _ _ _ _ Hp) old) as Hkey.
  destruct (bool_decide_reflect (t_state (tasks k2 !!! old) = K_TASK_RUNNING)) as [Hr|Hr]; cbn [andb].
  - rewrite (key_depth _ _ Hkey), (key_idle _ _ Hkey).
    pose proof (prepared_running _ _ _ _ _ _ _ _ _ Hp old Hr) as Hr'.
    destruct (negb (t_preempt_depth (tasks k !!! old) =? 0) || _) eqn:Hc.
    + apply (Out_keep _ _ _ _ _ _ _ k2 sl dl); [done|done| |done]. apply orb_prop in Hc as [Hc|Hc]; [left|right]; reflect_bools; done.
    + apply (Out_dispatch _ _ _ _ _ _ k2 sl dl); [done| |done]. intros _. reflect_bools. done.
  - apply (Out_dispatch _ _ _ _ _ _ k2 sl dl); [done| |done]. intros Hs. by destruct Hr; apply Hrun.
Qed.

Lemma demoted_used k old i : used (tasks (demoted k old) !!! i) <-> used (tasks k !!! i).
Proof.
  destruct (demoted_same k old) as (_ & _ & _ & _ & Dt & Ds). unfold used. destruct (Z.eq_dec i old) as [->|Hne].
  - rewrite Ds. by destruct (bool_decide_reflect (t_state (tasks k !!! old) = K_TASK_RUNNING)) as [->|].
  - by rewrite Dt.
Qed.
Lemma demoted_running k old i : t_state (tasks (demoted k old) !!! i) = K_TASK_RUNNING ->
  i <> old /\ t_state (tasks k !!! i) = K_TASK_RUNNING.
Proof.
  destruct (demoted_same k old) as (_ & _ & _ & _ & Dt & Ds). destruct (Z.eq_dec i old) as [->|Hne].
  - rewrite Ds. by destruct (bool_decide_reflect (t_state (tasks k !!! old) = K_TASK_RUNNING)).
  - rewrite Dt by done. done.
Qed.
Lemma chosen_spec k c b : chosen k c = Some b ->
  (candidate k c b /\ forall i, candidate k c i -> before (tasks k !!! b) (tasks k !!! i)) \/
  (c_idle (cpus k !!! c) = Some b /\ forall i, ~ candidate k c i).
Proof.
  unfold chosen. pose proof (pick_spec k c) as Hp. destruct (fst (pick k c)) as [b'|]; [intros [= ->]; by left|by right].
Qed.
Lemma chosen_task k c old b : sched_inv k -> chosen (demoted k old) c = Some b ->
  used (tasks k !!! b) /\ t_cpu (tasks k !!! b) = c.
Proof.
  intros Hi. destruct (demoted_same k old) as (Dk & _ & Dc & _). unfold chosen.
  pose proof (pick_spec (demoted k old) c) as Hp. destruct (fst (pick (demoted k old) c)) as [b'|].
  - intros [= ->]. destruct Hp as [(_ & Hc & Hs & _) _]. rewrite (key_cpu _ _ (sk_task _ _ Dk b)) in Hc.
    split; [|done]. apply demoted_used with old. unfold used. by rewrite Hs.
  - rewrite Dc. intros Hb. destruct (si_idle k Hi c b Hb) as (_ & Hc & Hs). split; [|done].
    unfold used. by destruct Hs as [-> | ->].
Qed.
Lemma chosen_some k c old : sched_inv k -> c_current (cpus k !!! c) = Some old -> exists b, chosen (demoted k old) c = Some b.
Proof.
  intros Hi Hcur. destruct (demoted_same k old) as (_ & _ & Dc & _). unfold chosen.
  destruct (fst (pick (demoted k old) c)) as [b|]; [by exists b|]. rewrite Dc.
  destruct (si_current k Hi c old Hcur) as (_ & _ & Hn). destruct (c_idle (cpus k !!! c)) as [b|]; [by exists b|done].
Qed.
Lemma dispatch_some k c old sl dl : (exists b, chosen (demoted k old) c = Some b) -> exists r, dispatch k c old sl dl = Some r.
Proof.
  intros [b Hb]. destruct (dispatch k c old sl dl) as [r|] eqn:Hd; [by exists r|exfalso]. revert Hd Hb.
  unfold dispatch, chosen. fold (demoted k old). destruct (pick (demoted k old) c) as [best w]. cbn [fst].
  destruct (match best with Some b => Some b | None => _ end); [cbv zeta; discriminate|done].
Qed.
Lemma dispatched_inv k c old sl k' b :
  sched_inv k -> c_current (cpus k !!! c) = Some old -> dispatched k c old sl k' b -> sched_inv k'.
Proof.
  intros Hi Hcur D. destruct (chosen_task k c old b Hi (di_chosen _ _ _ _ _ _ D)) as [Hbu Hbc].
  destruct (si_current k Hi c old Hcur) as (_ & _ & Hidle).
  assert (forall d i, d <> c -> c_current (cpus k' !!! d) = Some i <-> c_current (cpus k !!! d) = Some i) as Hoth.
  { intros d i Hd. by rewrite (ctx_current _ _ (di_others _ _ _ _ _ _ D d Hd)). }
  apply (sched_inv_states k k'); [done|apply (di_keys _ _ _ _ _ _ D)| | | |].
  - intros i. unfold used at 1. rewrite (di_state _ _ _ _ _ _ D). destruct (decide (b = i)) as [<-|]; [done|].
    apply demoted_used.
  - intros i. rewrite (di_state _ _ _ _ _ _ D). destruct (decide (b = i)) as [<-|Hne]; intros Hr.
    + rewrite Hbc. apply (di_current _ _ _ _ _ _ D).
    + apply demoted_running in Hr as [Hno Hr]. pose proof (si_running k Hi i Hr) as Hci.
      destruct (Z.eq_dec (t_cpu (tasks k !!! i)) c) as [Hc|Hc]; [rewrite Hc in Hci; congruence|by apply Hoth].
  - intros d i. destruct (Z.eq_dec d c) as [->|Hd].
    + rewrite (di_current _ _ _ _ _ _ D). intros [= <-]. done.
    + rewrite Hoth by done. apply (si_current k Hi).
  - intros i Hs Hid. rewrite (di_state _ _ _ _ _ _ D). destruct (decide (b = i)); [by right|].
    destruct (demoted_same k old) as (_ & _ & _ & _ & Dt & Ds). destruct (Z.eq_dec i old) as [->|Hne]; [|by rewrite Dt].
    rewrite Ds. destruct (bool_decide_reflect (t_state (tasks k !!! old) = K_TASK_RUNNING)); [by left|done].
Qed.
Lemma prepared_current k c now old frame forced k2 sl dl d :
  prepared k c now old frame forced k2 sl dl -> c_current (cpus k2 !!! d) = c_current (cpus k !!! d).
Proof. intros Hp. pose proof (pp_regs _ _ _ _ _ _ _ _ _ Hp d) as Hr. unfold cpu_regs in Hr. congruence. Qed.

Lemma inv_emit k e : sched_inv k -> sched_inv (emit e k).
Proof. intros []. by split. Qed.
Lemma idle_inv k c old : sched_inv k -> sched_inv (idled k c old).
Proof.
  intros Hi. destruct (idled_same k c old) as (Hk & _ & Hv & Hx & _). apply (sched_inv_states k); try done.
  - intros i. unfold used. by rewrite (view_state _ _ (Hv i)).
  - intros i. rewrite (view_state _ _ (Hv i)), (ctx_current _ _ (Hx _)). apply (si_running k Hi).
  - intros d i. rewrite (ctx_current _ _ (Hx d)). apply (si_current k Hi).
  - intros i. by rewrite (view_state _ _ (Hv i)).
Qed.

(** ** Properties of one call *)

Lemma schedule_some k c now frame forced :
  sched_inv k -> exists k' f', kernel_schedule k c now frame forced = Some (k', f') /\ sched_inv k'.
Proof.
  intros Hi.
  destruct (c_current (cpus k !!! c)) as [old|] eqn:Hcur.
  2: { exists k, frame. unfold kernel_schedule, current_task. by rewrite Hcur. }
  destruct (si_current k Hi c old Hcur) as (Hu & Hc & _).
  destruct (schedule_cases k c now frame forced old Hcur ltac:(done)) as [k' Hf Hid Hp ->|k' k2 sl dl Hp Hr Hk ->|k2 sl dl r Hp Hr ->].
  - eexists _, _. split; [done|by apply idle_inv].
  - eexists _, _. split; [done|]. apply inv_emit. by apply (prepared_inv _ _ _ _ _ _ _ _ _ Hp).
  - pose proof (prepared_inv _ _ _ _ _ _ _ _ _ Hp Hi) as Hi2. rewrite <- (prepared_current _ _ _ _ _ _ _ _ _ c Hp) in Hcur.
    destruct (dispatch_some k2 c old sl dl (chosen_some k2 c old Hi2 Hcur)) as [[k' f'] Hd]. exists k', f'. split; [done|].
    destruct (dispatch_spec k2 c old sl dl k' f' (fun i => proj1 (proj1 (si_weight k2 Hi2 i))) Hcur Hd) as (b & D & _).
    by apply (dispatched_inv k2 c old sl k' b).
Qed.

(** A task that may run on CPU [c] now: a non-idle task of the CPU that is ready,
    running, or asleep with its wake time passed. *)
Definition eligible (k : kernel St) (c now i : Z) : Prop :=
  0 <= i < K_MAX_TASKS /\ t_cpu (tasks k !!! i) = c /\ t_idle (tasks k !!! i) = false /\
  (t_state (tasks k !!! i) = K_TASK_READY \/ t_state (tasks k !!! i) = K_TASK_RUNNING \/ due c now (tasks k !!! i) = true).
Lemma due_sleeping c now t : due c now t = true -> t_state t = K_TASK_SLEEPING.
Proof. unfold due. intros. reflect_bools. by eapply bool_decide_eq_true_1. Qed.
Lemma due_in_range k c now i : 0 <= i < K_MAX_TASKS -> due_in k c now i = due c now (tasks k !!! i).
Proof.
  intros [H0 H1]. unfold due_in, due_before. rewrite (proj2 (Z.leb_le _ _)), (proj2 (Z.ltb_lt _ _)) by done. done.
Qed.
Lemma candidate_eligible k c now old frame forced k2 sl dl i :
  sched_inv k -> c_current (cpus k !!! c) = Some old -> prepared k c now old frame forced k2 sl dl ->
  candidate (demoted k2 old) c i <-> eligible k c now i.
Proof.
  intros Hi Hcur Hp. destruct (demoted_same k2 old) as (Dk & _ & _ & _ & Dt & Ds).
  pose proof (sk_task _ _ (same_keys_trans _ _ _ (pp_keys _ _ _ _ _ _ _ _ _ Hp) Dk) i) as Hkey.
  unfold candidate, eligible. rewrite (key_cpu _ _ Hkey), (key_idle _ _ Hkey).
  pose proof (prepared_state _ _ _ _ _ _ _ _ _ Hp i) as Hs2.
  assert (0 <= i < K_MAX_TASKS -> due_in k c now i = due c now (tasks k !!! i)) as Hdr by apply due_in_range.
  split.
  - intros (Hr & Hc & Hs & Hid). split_and!; try lia; try done. rewrite Hdr in Hs2 by done.
    destruct (due c now (tasks k !!! i)) eqn:Hd; [by right; right|].
    destruct (Z.eq_dec i old) as [->|Hne]; [|rewrite Dt in Hs by done; left; congruence].
    rewrite Ds in Hs. rewrite Hs2 in Hs. destruct (bool_decide_reflect (t_state (tasks k !!! old) = K_TASK_RUNNING)); [by right; left|by left].
  - intros (Hr & Hc & Hid & Hs). split_and!; try lia; try done. rewrite Hdr in Hs2 by done.
    assert (due c now (tasks k !!! i) = false -> t_state (tasks k2 !!! i) = t_state (tasks k !!! i)) as Hnd by (intros Hd; by rewrite Hd in Hs2).
    destruct Hs as [Hs|[Hs|Hs]].
    + assert (t_state (tasks k2 !!! i) = K_TASK_READY) as Hr2 by (rewrite Hs2; by destruct (due c now _)).
      destruct (Z.eq_dec i old) as [->|Hne]; [|by rewrite Dt]. rewrite Ds, Hr2. done.
    + assert (i = old) as -> by (pose proof (si_running k Hi i Hs); congruence).
      rewrite Ds, Hnd by (destruct (due c now (tasks k !!! old)) eqn:Hd; [apply due_sleeping in Hd; congruence|done]).
      by rewrite Hs.
    + rewrite Hs in Hs2. destruct (Z.eq_dec i old) as [->|Hne]; [by rewrite Ds, Hs2|by rewrite Dt].
Qed.
Lemma prepared_frame k c now old frame forced k2 sl dl i :
  prepared k c now old frame forced k2 sl dl ->
  t_frame (tasks k2 !!! i) = (if decide (old = i) then frame else t_frame (tasks k !!! i)) /\
  t_tls_base (tasks k2 !!! i) = t_tls_base (tasks k !!! i) /\ t_arch (tasks k2 !!! i) = t_arch (tasks k !!! i) /\
  (due_in k c now i = false -> t_vruntime (tasks k2 !!! i) = t_vruntime (billed k old frame forced i) /\
     t_wait_object (tasks k2 !!! i) = t_wait_object (tasks k !!! i)).
Proof.
  intros Hp. pose proof (pp_task _ _ _ _ _ _ _ _ _ Hp i) as Ht.
  assert (t_frame (billed k old frame forced i) = (if decide (old = i) then frame else t_frame (tasks k !!! i)) /\
    t_tls_base (billed k old frame forced i) = t_tls_base (tasks k !!! i) /\
    t_arch (billed k old frame forced i) = t_arch (tasks k !!! i) /\
    t_wait_object (billed k old frame forced i) = t_wait_object (tasks k !!! i)) as (Bf & Bt & Ba & Bw).
  { unfold billed. destruct (decide (old = i)); [|done]. split; [apply accounted_frame|apply accounted_tls]. }
  destruct (due_in k c now i); [|rewrite Ht; done]. destruct Ht as (v & _ & ->). split_and!; done.
Qed.

(** C8: the scheduling decision.  A call either leaves the current task running,
    for the documented reasons (an idle CPU with no pending work; a running
    task with preemption disabled, or with slice left on a timer tick), and
    returns its frame; or it hands the CPU, for a slice of 1 to 8 ticks, to the
    task with the least (virtual time, identifier) among the ready, running
    and due non-idle tasks of this CPU, to the idle task exactly when there is
    none, and returns that task's saved frame.  Virtual times change only by
    the charge to the current task and by wake-up. *)
Theorem schedule_picks_minimum k c now frame forced old k' f' :
  sched_inv k -> c_current (cpus k !!! c) = Some old ->
  kernel_schedule k c now frame forced = Some (k', f') ->
  (c_current (cpus k' !!! c) = Some old /\ f' = frame /\
   ((forced = false /\ t_idle (tasks k !!! old) = true /\ c_work_pending (cpus k !!! c) = false) \/
    (t_state (tasks k !!! old) = K_TASK_RUNNING /\
     (t_preempt_depth (tasks k !!! old) <> 0 \/
      (forced = false /\ t_idle (tasks k !!! old) = false /\ c_slice (cpus k' !!! c) <> 0))))) \/
  exists b, c_current (cpus k' !!! c) = Some b /\ t_state (tasks k' !!! b) = K_TASK_RUNNING /\
    f' = (if decide (old = b) then frame else t_frame (tasks k !!! b)) /\ 1 <= c_slice (cpus k' !!! c) <= 8 /\
    (eligible k c now b /\ (forall i, eligible k c now i -> before (tasks k' !!! b) (tasks k' !!! i)) \/
     c_idle (cpus k !!! c) = Some b /\ (forall i, ~ eligible k c now i)) /\
    (forall i, due_in k c now i = false -> t_vruntime (tasks k' !!! i) = t_vruntime (billed k old frame forced i)).
Proof.
  intros Hi Hcur. destruct (si_current k Hi c old Hcur) as (Hu & Hc & _).
  destruct (schedule_cases k c now frame forced old Hcur ltac:(done)) as [k1 Hf Hid Hpend Hk1|k1 k2 sl dl Hp Hr Hk Hk1|k2 sl dl r Hp Hr ->].
  - intros [= <- <-]. left. destruct (idled_same k c old) as (_ & _ & _ & Hx & _).
    rewrite Hk1, (ctx_current _ _ (Hx c)). split_and!; [done|done|by left].
  - intros [= <- <-]. left. rewrite Hk1, cpus_emit, (prepared_current _ _ _ _ _ _ _ _ _ c Hp).
    split_and!; [done|done|]. right. split; [done|].
    destruct Hk as [?|(? & ? & ?)]; [by left|by right].
  - intros Hd. right. pose proof (prepared_inv _ _ _ _ _ _ _ _ _ Hp Hi) as Hi2.
    assert (c_current (cpus k2 !!! c) = Some old) as Hcur2 by (by rewrite (prepared_current _ _ _ _ _ _ _ _ _ c Hp)).
    destruct (dispatch_spec k2 c old sl dl k' f' (fun i => proj1 (proj1 (si_weight k2 Hi2 i))) Hcur2 Hd) as (b & D & ->).
    exists b. split_and!.
    + apply (di_current _ _ _ _ _ _ D).
    + rewrite (di_state _ _ _ _ _ _ D). by rewrite decide_True.
    + apply (prepared_frame _ _ _ _ _ _ _ _ _ b Hp).
    + apply (di_slice _ _ _ _ _ _ D).
    + apply (di_slice _ _ _ _ _ _ D).
    + destruct (demoted_same k2 old) as (Dk & _ & Dc & Drest & _).
      destruct (chosen_spec _ _ _ (di_chosen _ _ _ _ _ _ D)) as [[Hb Hmin]|[Hch Hpk]].
      * left. split; [by apply (candidate_eligible _ _ _ _ _ _ _ _ _ _ Hi Hcur Hp)|].
        intros i He. apply (candidate_eligible _ _ _ _ _ _ _ _ _ _ Hi Hcur Hp) in He. specialize (Hmin i He).
        unfold before in *. rewrite !(di_vruntime _ _ _ _ _ _ D).
        rewrite !(key_id _ _ (sk_task _ _ (di_keys _ _ _ _ _ _ D) _)). rewrite !(key_id _ _ (sk_task _ _ Dk _)) in Hmin.
        pose proof (Drest b) as Rb. pose proof (Drest i) as Ri. unfold task_rest in Rb, Ri.
        replace (t_vruntime (tasks k2 !!! b)) with (t_vruntime (tasks (demoted k2 old) !!! b)) by congruence.
        replace (t_vruntime (tasks k2 !!! i)) with (t_vruntime (tasks (demoted k2 old) !!! i)) by congruence. done.
      * right. rewrite Dc, (key_cpu_idle _ _ (sk_cpu _ _ (pp_keys _ _ _ _ _ _ _ _ _ Hp) c)) in Hch. split; [done|].
        intros i He. by apply (candidate_eligible _ _ _ _ _ _ _ _ _ _ Hi Hcur Hp) in He; apply (Hpk i).
    + intros i Hnd. rewrite (di_vruntime _ _ _ _ _ _ D). by apply (prepared_frame _ _ _ _ _ _ _ _ _ i Hp).
Qed.
End Inv.
