(* ===== verification/Sync.v ===== *)
(** Mutexes, semaphores and the mailbox, [src/kernel-src/kernel/kernel.c] lines
    536-679.  A blocking call is a loop of attempts; one attempt runs under
    [sched_lock] and is atomic, and a call that must wait leaves the task
    BLOCKED and yields ([Wait]), to attempt again when it next runs. *)
From S2P Require Import Prelude Klib PageAlloc State Sched.

Inductive attempt := Return (e : Z) | Wait.

Section Sync.
Context {St : Type} `{PageSource St}.
Implicit Types k : kernel St.

Definition wake_step (obj : wait_target) (i : Z) (k : kernel St) : kernel St :=
  let t := tasks k !!! i in
  if bool_decide (t_state t = K_TASK_BLOCKED) && bool_decide (t_wait_object t = Some obj) then task_ready i k else k.
Definition wake_object (obj : wait_target) (k : kernel St) : kernel St := fold_range 0 K_MAX_TASKS (wake_step obj) k.
Definition block_on (i : Z) (obj : wait_target) (k : kernel St) : kernel St :=
  upd_task i (fun t => t <| t_wait_object := Some obj |> <| t_state := K_TASK_BLOCKED |>) k.
Definition set_owner (m v : Z) (k : kernel St) : kernel St := k <| mutexes ::= (fun o => zput o m v) |>.
Definition set_count (s v : Z) (k : kernel St) : kernel St := k <| semaphores ::= (fun o => zput o s v) |>.

(** * Mutexes; [m] is the address, 0 for a null pointer *)
Definition k_mutex_trylock (k : kernel St) (c m : Z) : kernel St * Z :=
  if (m =? 0) || bool_decide (current_task k c = None) then (k, K_EINVAL)
  else
    let me := k_task_id k c in
    let owner := zget (mutexes k) m in
    let e := if owner =? me then K_EDEADLK else if negb (owner =? 0) then K_EBUSY else 0 in
    (if e =? 0 then set_owner m me k else k, e).

Definition k_mutex_lock (k : kernel St) (c m : Z) : kernel St * attempt :=
  match current_task k c with
  | None => (k, Return K_EINVAL)
  | Some i =>
      if m =? 0 then (k, Return K_EINVAL)
      else
        let t := tasks k !!! i in
        let owner := zget (mutexes k) m in
        if owner =? 0 then (set_owner m (t_id t) k, Return 0)
        else if (owner =? t_id t) || negb (t_preempt_depth t =? 0) then (k, Return K_EDEADLK)
        else (block_on i (Wait_mutex m) k, Wait)
  end.

Definition k_mutex_unlock (k : kernel St) (c m : Z) : kernel St * Z :=
  if m =? 0 then (k, K_EINVAL)
  else
    let owner := zget (mutexes k) m in
    if (owner =? 0) || negb (owner =? k_task_id k c) then (k, K_EPERM)
    else (wake_object (Wait_mutex m) (set_owner m 0 k), 0).

(** * Semaphores *)
Definition k_sem_init (k : kernel St) (s n : Z) : kernel St := if s =? 0 then k else set_count s n k.
Definition k_sem_trywait (k : kernel St) (s : Z) : kernel St * Z :=
  if s =? 0 then (k, K_EINVAL)
  else
    let n := zget (semaphores k) s in
    let e := if negb (n =? 0) then 0 else K_EAGAIN in
    (if e =? 0 then set_count s (u32 (n - 1)) k else k, e).
Definition k_sem_wait (k : kernel St) (c s : Z) : kernel St * attempt :=
  match current_task k c with
  | None => (k, Return K_EINVAL)
  | Some i =>
      if s =? 0 then (k, Return K_EINVAL)
      else
        let n := zget (semaphores k) s in
        if negb (n =? 0) then (set_count s (u32 (n - 1)) k, Return 0)
        else if negb (t_preempt_depth (tasks k !!! i) =? 0) then (k, Return K_EDEADLK)
        else (block_on i (Wait_semaphore s) k, Wait)
  end.
Definition k_sem_post (k : kernel St) (s : Z) : kernel St :=
  if s =? 0 then k
  else
    let n := zget (semaphores k) s in
    let k := if negb (n =? 0xffffffff) then set_count s (u32 (n + 1)) k else k in
    wake_object (Wait_semaphore s) k.

(** * The mailbox *)

(** The message [k_ipc_send] stores: the data, then zeroes up to 128 bytes. *)
Definition make_message (sender : Z) (data : list Z) : k_message :=
  mk_message sender (Z.of_nat (length data)) (data ++ replicate (Z.to_nat K_IPC_BYTES - length data) 0).
Definition may_send (k : kernel St) (t : task) (target : Z) : bool :=
  match t_process t with
  | Some p => (target =? t_id t) || bool_decide (target ∈ p_grants (processes k !!! p))
  | None => true
  end.
(** [data] is [None] for a null pointer; its length is the argument [n]. *)
Definition k_ipc_send (k : kernel St) (c target : Z) (data : option (list Z)) : kernel St * Z :=
  match current_task k c, data with
  | Some sender, Some data =>
      if K_IPC_BYTES <? Z.of_nat (length data) then (k, K_EINVAL)
      else
        let st := tasks k !!! sender in
        if negb (may_send k st target) then (k, K_EPERM)
        else
          match find_range 0 K_MAX_TASKS (fun i => let t := tasks k !!! i in
                  (t_id t =? target) && negb (bool_decide (t_state t = K_TASK_UNUSED)) &&
                  negb (bool_decide (t_state t = K_TASK_ZOMBIE))) with
          | None => (k, K_ENOENT)
          | Some i =>
              let t := tasks k !!! i in
              if t_mail_count t =? MAIL_DEPTH then (k, K_EAGAIN)
              else
                let slot := (t_mail_head t + t_mail_count t) mod MAIL_DEPTH in
                (upd_task i (fun t => t <| t_mail ::= <[slot := make_message (t_id st) data]> |>
                                        <| t_mail_count ::= (fun n => u32 (n + 1)) |>) k, 0)
          end
  | _, _ => (k, K_EINVAL)
  end.
Definition k_ipc_receive (k : kernel St) (c : Z) (msg : bool) : kernel St * Z * option k_message :=
  match current_task k c with
  | Some i =>
      if negb msg then (k, K_EINVAL, None)
      else
        let t := tasks k !!! i in
        if t_mail_count t =? 0 then (k, K_EAGAIN, None)
        else
          (upd_task i (fun t => t <| t_mail_head ::= (fun h => (h + 1) mod MAIL_DEPTH) |>
                                  <| t_mail_count ::= (fun n => u32 (n - 1)) |>) k,
           0, Some (t_mail t !!! t_mail_head t))
  | None => (k, K_EINVAL, None)
  end.
Definition K_GRANTS : Z := 16.
Definition k_ipc_grant (k : kernel St) (c pid target : Z) : kernel St * Z :=
  if match current_task k c with Some i => bool_decide (t_process (tasks k !!! i) <> None) | None => false end
  then (k, K_EPERM)
  else
    match find_range 0 MAX_PROCESSES (fun i => p_used (processes k !!! i) && (p_id (processes k !!! i) =? pid)) with
    | None => (k, K_ENOENT)
    | Some i =>
        let grants := p_grants (processes k !!! i) in
        if bool_decide (target ∈ grants) then (k, 0)
        else if Z.of_nat (length grants) =? K_GRANTS then (k, K_E2BIG)
        else (upd_process i (fun p => p <| p_grants ::= (fun g => g ++ [target]) |>) k, 0)
    end.
End Sync.
