(* ===== verification/KernelInv.v ===== *)
(** The invariants of the whole scheduler state and their preservation by every
    operation of [Sched] and [Sync]: the tables are well formed, an idle CPU
    with work has it announced, no waiter misses a wake-up, and every online
    CPU runs its current task in that task's context. *)
From S2P Require Import Prelude Klib PageAlloc State Sched SchedSpec Sync.

(** A non-idle task that is or will be ready makes its CPU pending while it idles. *)
Definition workable (t : task) : Prop := t_state t = K_TASK_READY \/ t_state t = K_TASK_SLEEPING.
Definition pending_inv {St} (k : kernel St) : Prop := forall c i j,
  c_current (cpus k !!! c) = Some i -> t_idle (tasks k !!! i) = true ->
  t_cpu (tasks k !!! j) = c -> t_idle (tasks k !!! j) = false -> workable (tasks k !!! j) ->
  c_work_pending (cpus k !!! c) = true.
(** A task blocked on a mutex or semaphore waits for one that is taken or exhausted. *)
Definition exhausted {St} (k : kernel St) (obj : wait_target) : Prop :=
  match obj with
  | Wait_mutex m => zget (mutexes k) m <> 0
  | Wait_semaphore s => zget (semaphores k) s = 0
  end.
Definition wait_inv {St} (k : kernel St) : Prop := forall j,
  t_state (tasks k !!! j) = K_TASK_BLOCKED ->
  exists obj, t_wait_object (tasks k !!! j) = Some obj /\ exhausted k obj.
Definition context_inv {St} (k : kernel St) : Prop := forall c i,
  c_online (cpus k !!! c) = true -> c_current (cpus k !!! c) = Some i -> loaded k c i.

Record kernel_ok {St} (k : kernel St) : Prop := {
  ko_sched : sched_inv k;
  ko_pending : pending_inv k;
  ko_wait : wait_inv k;
  ko_context : context_inv k
}.

(** ** Changes that neither switch tasks nor create or destroy any *)
Definition inv_key (t : task) := (t_id t, t_cpu t, t_weight t, t_idle t, t_process t, t_stack_top t).
Definition mail_ok (t : task) : Prop := 0 <= t_mail_head t < MAIL_DEPTH /\ 0 <= t_mail_count t <= MAIL_DEPTH.
Record calm {St} (k k' : kernel St) : Prop := {
  ca_key : forall j, inv_key (tasks k' !!! j) = inv_key (tasks k !!! j);
  ca_mail : forall j, mail_ok (tasks k' !!! j);
  ca_cpu : forall d, cpu_regs (cpus k' !!! d) = cpu_regs (cpus k !!! d) /\
    c_idle (cpus k' !!! d) = c_idle (cpus k !!! d) /\ c_online (cpus k' !!! d) = c_online (cpus k !!! d);
  ca_next : next_task_id k' = next_task_id k /\ discovered_cpus k' = discovered_cpus k;
  ca_roots : same_roots k k';
  ca_used : forall j, used (tasks k' !!! j) <-> used (tasks k !!! j);
  ca_running : forall j, t_state (tasks k' !!! j) = K_TASK_RUNNING -> t_state (tasks k !!! j) = K_TASK_RUNNING;
  ca_idle : forall j, t_idle (tasks k !!! j) = true -> t_state (tasks k' !!! j) = t_state (tasks k !!! j);
  ca_pending : forall d, c_work_pending (cpus k !!! d) = true -> c_work_pending (cpus k' !!! d) = true;
  ca_work : forall j, workable (tasks k' !!! j) ->
    workable (tasks k !!! j) \/ c_work_pending (cpus k' !!! t_cpu (tasks k !!! j)) = true \/
    (exists i, c_current (cpus k !!! t_cpu (tasks k !!! j)) = Some i /\ t_idle (tasks k !!! i) = false);
  ca_wait : wait_inv k'
}.

Section Calm.
Context {St : Type} `{PageSource St}.
Implicit Types k : kernel St.

Lemma calm_ok k k' : kernel_ok k -> calm k k' -> kernel_ok k'.
Proof.
  intros [[Hr Hw Hid Hun Hrun Hcur Hidle Hio Hm Hn Hcp Hhm Hon] Hpend _ Hctx] [Ck Cm Cc [Cn Cd] Cro Cu Crun Cid Cp Cwk Cw].
  assert (forall j, t_id (tasks k' !!! j) = t_id (tasks k !!! j) /\ t_cpu (tasks k' !!! j) = t_cpu (tasks k !!! j) /\
    t_weight (tasks k' !!! j) = t_weight (tasks k !!! j) /\ t_idle (tasks k' !!! j) = t_idle (tasks k !!! j) /\
    t_process (tasks k' !!! j) = t_process (tasks k !!! j) /\ t_stack_top (tasks k' !!! j) = t_stack_top (tasks k !!! j)) as Hk.
  { intros j. specialize (Ck j). unfold inv_key in Ck. split_and!; congruence. }
  assert (forall d, c_current (cpus k' !!! d) = c_current (cpus k !!! d)) as Hcc.
  { intros d. destruct (Cc d) as [Hc _]. unfold cpu_regs in Hc. congruence. }
  split; [split| |done|].
  - intros i. rewrite Cu. apply Hr.
  - intros i. destruct (Hk i) as (_ & _ & -> & _). rewrite Cu. apply Hw.
  - intros i. destruct (Hk i) as (-> & _). rewrite Cu, Cn. apply Hid.
  - intros i j. destruct (Hk i) as (-> & _), (Hk j) as (-> & _). rewrite !Cu. apply Hun.
  - intros i Hi. destruct (Hk i) as (_ & -> & _). rewrite Hcc. by apply Hrun, Crun.
  - intros c i. rewrite Hcc. destruct (Hk i) as (_ & -> & _), (Cc c) as (_ & -> & _). rewrite Cu. apply Hcur.
  - intros c i. destruct (Hk i) as (_ & -> & _ & -> & _), (Cc c) as (_ & -> & _). intros Hc.
    destruct (Hidle c i Hc) as (H1 & H2 & H3). by rewrite (Cid i H1).
  - intros i. destruct (Hk i) as (_ & -> & _ & -> & _). rewrite Cu. destruct (Cc (t_cpu (tasks k !!! i))) as (_ & -> & _). apply Hio.
  - exact Cm.
  - by rewrite Cn.
  - intros c. destruct (Cc c) as (_ & -> & _). rewrite Cd. apply Hcp.
  - intros i. destruct (Hk i) as (_ & -> & _). rewrite Cu. destruct (Cc (t_cpu (tasks k !!! i))) as (_ & -> & _). apply Hhm.
  - intros c. destruct (Cc c) as (_ & -> & ->). apply Hon.
  - intros c i j. rewrite Hcc. destruct (Hk i) as (_ & _ & _ & -> & _), (Hk j) as (_ & -> & _ & -> & _).
    intros Hc Hi Hj Hji Hwk. destruct (Cwk j Hwk) as [Hwk'|[Hp|(i' & Hi' & Hn')]].
    + apply Cp. by apply (Hpend c i j).
    + congruence.
    + congruence.
  - intros c i. destruct (Cc c) as (Hregs & _ & ->). rewrite Hcc. intros Ho Hc. destruct (Hctx c i Ho Hc) as (L1 & L2 & L3).
    unfold loaded. rewrite (task_root_same k k' (tasks k !!! i)) by (done || apply Hk).
    destruct (Hk i) as (_ & _ & _ & _ & _ & ->). unfold cpu_regs in Hregs. split_and!; congruence.
Qed.

(** ** Scheduling *)
Lemma prepared_workable k c now old frame forced k2 sl dl j :
  prepared k c now old frame forced k2 sl dl -> workable (tasks k2 !!! j) ->
  workable (tasks k !!! j) /\ (due_in k c now j = false -> t_state (tasks k2 !!! j) = t_state (tasks k !!! j)).
Proof.
  intros Hp. unfold workable. rewrite (prepared_state _ _ _ _ _ _ _ _ _ Hp).
  destruct (due_in k c now j) eqn:Hd; [|done]. intros _. split; [right|done].
  unfold due_in, due_before in Hd. reflect_bools. by apply due_sleeping with c now.
Qed.
Lemma prepared_ok k c now old frame forced k2 sl dl :
  kernel_ok k -> prepared k c now old frame forced k2 sl dl -> kernel_ok k2.
Proof.
  intros [Hs Hp Hw Hc] P. pose proof (fun d => prepared_current _ _ _ _ _ _ _ _ _ d P) as Hcur.
  pose proof (sk_task _ _ (pp_keys _ _ _ _ _ _ _ _ _ P)) as Hk. split.
  - by apply (prepared_inv _ _ _ _ _ _ _ _ _ P).
  - intros d i j. rewrite Hcur, (key_idle _ _ (Hk i)), (key_cpu _ _ (Hk j)), (key_idle _ _ (Hk j)).
    intros H1 H2 H3 H4 H5. apply (pp_pending _ _ _ _ _ _ _ _ _ P), (Hp d i j); try done.
    by apply (prepared_workable _ _ _ _ _ _ _ _ _ j P).
  - intros j Hj. pose proof (prepared_state _ _ _ _ _ _ _ _ _ P j) as Hst. rewrite Hj in Hst.
    destruct (due_in k c now j) eqn:Hd; [done|]. destruct (Hw j (eq_sym Hst)) as (obj & Ho & Hx). exists obj.
    destruct (prepared_frame _ _ _ _ _ _ _ _ _ j P) as (_ & _ & _ & Hnd). destruct (Hnd Hd) as [_ ->]. split; [done|].
    unfold exhausted in *. destruct obj; [by rewrite (sk_mutexes _ _ (pp_keys _ _ _ _ _ _ _ _ _ P))|
      by rewrite (sk_semaphores _ _ (pp_keys _ _ _ _ _ _ _ _ _ P))].
  - intros d i Ho. rewrite Hcur. intros Hci.
    assert (c_online (cpus k !!! d) = true) as Ho'.
    { pose proof (sk_cpu _ _ (pp_keys _ _ _ _ _ _ _ _ _ P) d) as Hkc. unfold cpu_key in Hkc. congruence. }
    destruct (Hc d i Ho' Hci) as (L1 & L2 & L3). pose proof (pp_regs _ _ _ _ _ _ _ _ _ P d) as Hr. unfold cpu_regs in Hr.
    specialize (Hk i). unfold loaded. rewrite (task_root_same k k2 (tasks k !!! i));
      [|apply (pp_roots _ _ _ _ _ _ _ _ _ P)|by apply key_process]. unfold task_key in Hk. split_and!; congruence.
Qed.
Lemma emit_ok k e : kernel_ok k -> kernel_ok (emit e k).
Proof. intros [Hs Hp Hw Hc]. split; [by apply inv_emit|exact Hp|exact Hw|exact Hc]. Qed.
Lemma idled_ok k c old : kernel_ok k -> kernel_ok (idled k c old).
Proof.
  intros [Hs Hp Hw Hc]. destruct (idled_same k c old) as (Hk & Hr & Hv & Hx & Hpe). split.
  - by apply idle_inv.
  - intros d i j. pose proof (view_key _ _ (Hv i)) as Ki. pose proof (view_key _ _ (Hv j)) as Kj. unfold workable.
    rewrite (ctx_current _ _ (Hx d)), Hpe, (key_idle _ _ Ki), (key_cpu _ _ Kj), (key_idle _ _ Kj), (view_state _ _ (Hv j)). apply Hp.
  - intros j. rewrite (view_state _ _ (Hv j)). intros Hj. destruct (Hw j Hj) as (obj & Ho & He). exists obj.
    specialize (Hv j). unfold task_view in Hv. split; [congruence|]. unfold exhausted in *.
    destruct obj; [by rewrite (sk_mutexes _ _ Hk)|by rewrite (sk_semaphores _ _ Hk)].
  - intros d i Ho Hci. rewrite (ctx_current _ _ (Hx d)) in Hci.
    apply (loaded_same k); [done|apply Hv|apply Hx|]. apply Hc; [|done].
    pose proof (sk_cpu _ _ Hk d) as Hkc. unfold cpu_key in Hkc. congruence.
Qed.

Section Dispatched.
Context (k : kernel St) (c old : Z) (sl : bool) (k' : kernel St) (b : Z).
Hypothesis Hk : kernel_ok k.
Hypothesis Hcur : c_current (cpus k !!! c) = Some old.
Hypothesis D : dispatched k c old sl k' b.
Hypothesis Hsl : forall j, t_state (tasks k !!! j) = K_TASK_SLEEPING -> t_cpu (tasks k !!! j) = c -> sl = true.

Lemma dispatched_workable j : workable (tasks k' !!! j) -> j <> b /\
  t_state (tasks k' !!! j) = t_state (tasks (demoted k old) !!! j).
Proof.
  unfold workable. rewrite (di_state _ _ _ _ _ _ D). destruct (decide (b = j)) as [<-|Hne]; [by intros [?|?]|].
  split; congruence.
Qed.
Lemma dispatched_pending : pending_inv k'.
Proof.
  destruct Hk as [Hs Hp _ _]. destruct (demoted_same k old) as (Dk & _ & Dc & _ & Dt & Ds).
  pose proof (sk_task _ _ (di_keys _ _ _ _ _ _ D)) as Ht.
  intros d i j. rewrite (key_idle _ _ (Ht i)), (key_cpu _ _ (Ht j)), (key_idle _ _ (Ht j)). intros H1 H2 H3 H4 H5.
  destruct (dispatched_workable j H5) as [Hjb Hst]. destruct (Z.eq_dec d c) as [->|Hd].
  - rewrite (di_current _ _ _ _ _ _ D) in H1. injection H1 as <-. rewrite (di_announce _ _ _ _ _ _ D), H2. cbn [negb orb].
    unfold workable in H5. rewrite Hst in H5.
    destruct (chosen_spec _ _ _ (di_chosen _ _ _ _ _ _ D)) as [[(_ & _ & _ & Hid) _]|[_ Hno]].
    { rewrite (key_idle _ _ (sk_task _ _ Dk b)) in Hid. congruence. }
    destruct H5 as [H5|H5].
    + exfalso. apply (Hno j). split; [|by rewrite (key_cpu _ _ (sk_task _ _ Dk j)), (key_idle _ _ (sk_task _ _ Dk j))].
      apply (si_range k Hs). apply (demoted_used k old). unfold used. by rewrite H5.
    + apply (Hsl j); [|done]. destruct (Z.eq_dec j old) as [->|Hne]; [|by rewrite <- Dt].
      rewrite Ds in H5. by destruct (bool_decide _).
  - rewrite (di_pending _ _ _ _ _ _ D) by done. rewrite (ctx_current _ _ (di_others _ _ _ _ _ _ D d Hd)) in H1.
    apply (Hp d i j); try done. unfold workable in *. rewrite Hst in H5.
    destruct (Z.eq_dec j old) as [->|Hne]; [|by rewrite Dt in H5].
    destruct (si_current k Hs c old Hcur) as (_ & Hc' & _). congruence.
Qed.
Lemma dispatched_wait : wait_inv k'.
Proof.
  destruct Hk as [Hs _ Hw _]. destruct (demoted_same k old) as (_ & _ & _ & _ & Dt & Ds). intros j.
  rewrite (di_state _ _ _ _ _ _ D). destruct (decide (b = j)) as [<-|Hne]; [done|]. intros Hj.
  assert (t_state (tasks k !!! j) = K_TASK_BLOCKED) as Hj'.
  { destruct (Z.eq_dec j old) as [->|Hno]; [|by rewrite Dt in Hj]. rewrite Ds in Hj. by destruct (bool_decide _). }
  destruct (Hw j Hj') as (obj & Ho & Hx). exists obj. rewrite (di_wait _ _ _ _ _ _ D). split; [done|].
  unfold exhausted in *. destruct obj; [by rewrite (sk_mutexes _ _ (di_keys _ _ _ _ _ _ D))|
    by rewrite (sk_semaphores _ _ (di_keys _ _ _ _ _ _ D))].
Qed.
Lemma dispatched_context : context_inv k'.
Proof.
  destruct Hk as [Hs _ _ Hc]. pose proof (di_keys _ _ _ _ _ _ D) as Kk. intros d i Ho Hci.
  assert (c_online (cpus k !!! d) = true) as Ho'.
  { pose proof (sk_cpu _ _ Kk d) as Hkc. unfold cpu_key in Hkc. congruence. }
  assert (forall j, cpu_regs (cpus k' !!! d) = cpu_regs (cpus k !!! d) -> loaded k d j -> loaded k' d j) as Hmove.
  { intros j Hr (L1 & L2 & L3). pose proof (sk_task _ _ Kk j) as Hkj. unfold loaded, cpu_regs in *.
    rewrite (task_root_same k k' (tasks k !!! j)); [|apply (di_roots _ _ _ _ _ _ D)|by apply key_process].
    unfold task_key in Hkj. split_and!; congruence. }
  destruct (Z.eq_dec d c) as [->|Hd].
  - rewrite (di_current _ _ _ _ _ _ D) in Hci. injection Hci as <-. pose proof (Hc c old Ho' Hcur) as Hl.
    destruct (Z.eq_dec b old) as [Hb|Hb].
    + pose proof (di_same _ _ _ _ _ _ D Hb) as Hr. rewrite Hb. by apply Hmove.
    + apply (di_switch _ _ _ _ _ _ D Hb). apply Hl.
  - pose proof (di_others _ _ _ _ _ _ D d Hd) as Hr. rewrite (ctx_current _ _ Hr) in Hci.
    apply Hmove; [by apply ctx_regs|by apply Hc].
Qed.
End Dispatched.
Lemma schedule_ok k c now frame forced k' f' :
  kernel_ok k -> kernel_schedule k c now frame forced = Some (k', f') -> kernel_ok k'.
Proof.
  intros Hk. destruct (c_current (cpus k !!! c)) as [old|] eqn:Hcur.
  2: { unfold kernel_schedule, current_task. rewrite Hcur. by intros [= <- <-]. }
  destruct (si_current k (ko_sched k Hk) c old Hcur) as (Hu & Hc & _).
  destruct (schedule_cases k c now frame forced old Hcur ltac:(done)) as [k1 _ _ _ Hk1|k1 k2 sl dl Hp _ _ Hk1|k2 sl dl r Hp _ ->].
  - intros [= <- <-]. rewrite Hk1. by apply idled_ok.
  - intros [= <- <-]. rewrite Hk1. apply emit_ok. by apply (prepared_ok _ _ _ _ _ _ _ _ _ Hk Hp).
  - intros Hd. pose proof (prepared_ok _ _ _ _ _ _ _ _ _ Hk Hp) as Hk2. pose proof (ko_sched _ Hk2) as Hi2.
    rewrite <- (prepared_current _ _ _ _ _ _ _ _ _ c Hp) in Hcur.
    destruct (dispatch_spec k2 c old sl dl k' f' (fun i => proj1 (proj1 (si_weight k2 Hi2 i))) Hcur Hd) as (b & D & _).
    assert (forall j, t_state (tasks k2 !!! j) = K_TASK_SLEEPING -> t_cpu (tasks k2 !!! j) = c -> sl = true) as Hsl.
    { intros j Hst Hcj. apply (pp_sleepers _ _ _ _ _ _ _ _ _ Hp).
      pose proof (si_range k2 Hi2 j ltac:(unfold used; by rewrite Hst)) as Hr. exists j. split; [done|].
      destruct (prepared_workable _ _ _ _ _ _ _ _ _ j Hp (or_intror Hst)) as [_ Hs].
      pose proof (prepared_state _ _ _ _ _ _ _ _ _ Hp j) as Hps. rewrite Hst in Hps. rewrite due_in_range in Hps by done.
      rewrite (key_cpu _ _ (sk_task _ _ (pp_keys _ _ _ _ _ _ _ _ _ Hp) j)) in Hcj.
      destruct (due c now (tasks k !!! j)) eqn:Hdue; [done|]. unfold due in Hdue. unfold waiting.
      rewrite Hcj, Z.eqb_refl, <- Hps in *. rewrite bool_decide_true in * by done. cbn [andb] in *. by rewrite Hdue. }
    split; [by apply (dispatched_inv k2 c old sl k' b)|by apply (dispatched_pending k2 c old sl k' b)|
      by apply (dispatched_wait k2 c old sl k' b)|by apply (dispatched_context k2 c old sl k' b)].
Qed.

(** ** Updates of one task, and wake-ups *)
Lemma upd_task_ok k i f : kernel_ok k ->
  let t := tasks k !!! i in
  inv_key (f t) = inv_key t -> mail_ok (f t) -> (used (f t) <-> used t) ->
  (t_state (f t) = K_TASK_RUNNING -> t_state t = K_TASK_RUNNING) ->
  (t_idle t = true -> t_state (f t) = t_state t) ->
  (workable (f t) -> workable t \/ exists j, c_current (cpus k !!! t_cpu t) = Some j /\ t_idle (tasks k !!! j) = false) ->
  (t_state (f t) = K_TASK_BLOCKED -> exists obj, t_wait_object (f t) = Some obj /\ exhausted k obj) ->
  kernel_ok (upd_task i f k).
Proof.
  intros Hk t H1 H2 H3 H4 H5 H6 H7. pose proof (si_mail k (ko_sched k Hk)) as Hm.
  apply (calm_ok k); [done|].
  split; try done; intros j; rewrite ?tasks_upd_task; (destruct (decide (i = j)) as [<-|]; [fold t|]); try done; try (by left).
  - apply Hm.
  - intros Hw. destruct (H6 Hw) as [?|?]; [by left|by right; right].
  - apply (ko_wait k Hk).
Qed.
Lemma woke_calm k k0 k' w : kernel_ok k ->
  tasks k0 = tasks k -> cpus k0 = cpus k -> next_task_id k0 = next_task_id k -> discovered_cpus k0 = discovered_cpus k -> same_roots k k0 ->
  woke k0 k' w -> (forall i, w i = true -> t_state (tasks k !!! i) = K_TASK_BLOCKED) -> wait_inv k' -> calm k k'.
Proof.
  intros Hk Et Ec En Ed Er [Wk Wc Wt (Wp & Ws & Wm) Wn Wa] Hw Hwait. rewrite Et, Ec in *. pose proof (ko_sched k Hk) as Hs.
  assert (forall j, task_key (tasks k' !!! j) = task_key (tasks k !!! j)) as Hkey.
  { intros j. pose proof (sk_task _ _ Wk j) as Hj. by rewrite Et in Hj. }
  assert (forall j, t_state (tasks k' !!! j) = if w j then K_TASK_READY else t_state (tasks k !!! j)) as Hst.
  { intros j. specialize (Wt j). destruct (w j); [by apply readied_state in Wt|by rewrite Wt]. }
  split; try done.
  - intros j. specialize (Wt j). destruct (w j); [destruct Wt as (v & _ & ->); done|by rewrite Wt].
  - intros j. unfold mail_ok. destruct (key_mail _ _ (Hkey j)) as [-> ->]. apply (si_mail k Hs).
  - intros d. pose proof (sk_cpu _ _ Wk d) as Hd. rewrite Ec in Hd. unfold cpu_key in Hd.
    split_and!; [by apply ctx_regs|congruence|congruence].
  - by rewrite (sk_next _ _ Wk), (sk_discovered _ _ Wk).
  - eapply same_roots_trans; [exact Er|]. split_and!; [done|done|]. intros p. by rewrite Wp.
  - intros j. unfold used. rewrite Hst. destruct (w j) eqn:Hj; [by rewrite (Hw j Hj)|done].
  - intros j. rewrite Hst. by destruct (w j).
  - intros j Hid. rewrite Hst. destruct (w j) eqn:Hj; [|done]. pose proof (Hw j Hj) as Hb.
    assert (used (tasks k !!! j)) as Hu by (unfold used; by rewrite Hb).
    destruct (si_idle k Hs _ j (si_idle_only k Hs j Hu Hid)) as (_ & _ & [Hx|Hx]); congruence.
  - intros j Hwk. destruct (w j) eqn:Hj; [right; left; by apply Wa|left].
    unfold workable in *. by rewrite Hst, Hj in Hwk.
Qed.
Definition waits_on (k : kernel St) (obj : wait_target) (i : Z) : bool :=
  (0 <=? i) && (i <? K_MAX_TASKS) && bool_decide (t_state (tasks k !!! i) = K_TASK_BLOCKED) &&
  bool_decide (t_wait_object (tasks k !!! i) = Some obj).
Lemma wake_object_spec k obj : woke k (wake_object obj k) (waits_on k obj).
Proof.
  unfold wake_object.
  set (p j i := (0 <=? i) && (i <? j) && bool_decide (t_state (tasks k !!! i) = K_TASK_BLOCKED) &&
                bool_decide (t_wait_object (tasks k !!! i) = Some obj)).
  change (waits_on k obj) with (p K_MAX_TASKS).
  apply (fold_range_inv (fun j k' => woke k k' (p j))); [done| |].
  - apply woke_none. intros i. subst p. cbv beta. destruct (Z.leb_spec 0 i), (Z.ltb_spec i 0); done || lia.
  - intros j k' Hj Hw. unfold wake_step.
    assert (forall i, i <> j -> p (j + 1) i = p j i) as Hpi.
    { intros i Hi. subst p. cbv beta. replace (i <? j + 1) with (i <? j); [done|].
      destruct (Z.ltb_spec i j), (Z.ltb_spec i (j + 1)); done || lia. }
    assert (p j j = false) as Hpj by (subst p; cbv beta; by rewrite (proj2 (Z.ltb_ge j j)), andb_false_r by lia).
    assert (tasks k' !!! j = tasks k !!! j) as -> by (pose proof (wo_task _ _ _ Hw j) as Ht; by rewrite Hpj in Ht).
    assert (p (j + 1) j = bool_decide (t_state (tasks k !!! j) = K_TASK_BLOCKED) &&
      bool_decide (t_wait_object (tasks k !!! j) = Some obj)) as Hpn.
    { subst p. cbv beta. rewrite (proj2 (Z.leb_le 0 j)), (proj2 (Z.ltb_lt j (j + 1))) by lia. done. }
    rewrite <- Hpn. destruct (p (j + 1) j) eqn:Hb.
    + apply (woke_trans k k' _ (p j) (fun i => i =? j)); [done|apply task_ready_spec| |].
      * intros i. destruct (Z.eqb_spec i j) as [->|Hi]; [by rewrite Hb, orb_true_r|by rewrite Hpi, orb_false_r].
      * intros i. destruct (Z.eqb_spec i j) as [->|Hi]; [by rewrite Hpj|by rewrite andb_false_r].
    + apply (woke_ext _ _ _ _ Hw). intros i. destruct (Z.eq_dec i j) as [->|Hi]; [by rewrite Hb|by apply Hpi].
Qed.

(** ** The operations of the current task *)

(** CPU [c] runs an ordinary task: the idle task only halts and never calls the kernel. *)
Definition runs_task (k : kernel St) (c : Z) : Prop :=
  exists i, c_current (cpus k !!! c) = Some i /\ t_idle (tasks k !!! i) = false.

Lemma preempt_disable_ok k c : kernel_ok k -> kernel_ok (k_preempt_disable k c).
Proof.
  intros Hk. unfold k_preempt_disable. destruct (current_task k c) as [i|]; [|done].
  apply upd_task_ok; try done; [apply (si_mail k (ko_sched k Hk))|by left|apply (ko_wait k Hk)].
Qed.
Lemma preempt_enable_ok k c : kernel_ok k -> kernel_ok (k_preempt_enable k c).
Proof.
  intros Hk. unfold k_preempt_enable. destruct (current_task k c) as [i|]; [|done]. destruct (negb _); [|done].
  apply upd_task_ok; try done; [apply (si_mail k (ko_sched k Hk))|by left|apply (ko_wait k Hk)].
Qed.
Lemma current_used k c i : kernel_ok k -> c_current (cpus k !!! c) = Some i ->
  used (tasks k !!! i) /\ t_cpu (tasks k !!! i) = c.
Proof. intros Hk Hc. destruct (si_current k (ko_sched k Hk) c i Hc) as (? & ? & _). done. Qed.
Lemma sleep_ok k c now hz ms : kernel_ok k -> runs_task k c -> kernel_ok (fst (k_sleep k c now hz ms)).
Proof.
  intros Hk (i & Hc & Hid). unfold k_sleep, current_task. destruct (negb _ || _); [done|]. rewrite Hc.
  destruct (negb _); [done|]. cbn [fst]. destruct (current_used k c i Hk Hc) as [Hu Hcpu].
  apply upd_task_ok; try done; [apply (si_mail k (ko_sched k Hk))|congruence|].
  intros _. right. exists i. by rewrite Hcpu.
Qed.
Lemma block_ok k c i obj : kernel_ok k -> c_current (cpus k !!! c) = Some i -> t_idle (tasks k !!! i) = false ->
  exhausted k obj -> kernel_ok (block_on i obj k).
Proof.
  intros Hk Hc Hid Hx. destruct (current_used k c i Hk Hc) as [Hu Hcpu].
  apply upd_task_ok; try done; [apply (si_mail k (ko_sched k Hk))|congruence|by intros [?|?]|].
  intros _. by exists obj.
Qed.
Lemma objects_ok k k' : kernel_ok k ->
  tasks k' = tasks k -> cpus k' = cpus k -> next_task_id k' = next_task_id k -> discovered_cpus k' = discovered_cpus k -> same_roots k k' ->
  wait_inv k' -> kernel_ok k'.
Proof.
  intros Hk Et Ec En Ed Er Hw. apply (calm_ok k); [done|].
  split; rewrite ?Et, ?Ec; try done; [apply (si_mail k (ko_sched k Hk))|by left].
Qed.
Lemma set_owner_wait k m v : kernel_ok k -> v <> 0 -> wait_inv (set_owner m v k).
Proof.
  intros Hk Hv j Hj. destruct (ko_wait k Hk j Hj) as (obj & Ho & Hx). exists obj. split; [done|].
  destruct obj as [a|a]; [|done]. cbn. rewrite zget_put. destruct (m =? a); [done|exact Hx].
Qed.
Lemma set_count_wait k s v : kernel_ok k -> zget (semaphores k) s <> 0 -> wait_inv (set_count s v k).
Proof.
  intros Hk Hn j Hj. destruct (ko_wait k Hk j Hj) as (obj & Ho & Hx). exists obj. split; [done|].
  destruct obj as [a|a]; [done|]. cbn in *. rewrite zget_put. destruct (Z.eqb_spec s a) as [->|]; [done|exact Hx].
Qed.
Lemma task_id_pos k c i : kernel_ok k -> c_current (cpus k !!! c) = Some i -> t_id (tasks k !!! i) <> 0.
Proof. intros Hk Hc. destruct (current_used k c i Hk Hc) as [Hu _]. pose proof (si_id k (ko_sched k Hk) i Hu). lia. Qed.
Lemma mutex_trylock_ok k c m : kernel_ok k -> kernel_ok (fst (k_mutex_trylock k c m)).
Proof.
  intros Hk. unfold k_mutex_trylock, k_task_id, current_task. destruct (c_current (cpus k !!! c)) as [i|] eqn:Hc.
  2: { rewrite bool_decide_true by done. by rewrite orb_true_r. }
  destruct ((m =? 0) || _); [done|]. cbn [fst]. destruct (_ =? t_id _); [done|]. destruct (negb _); [done|]. cbn [Z.eqb].
  apply (objects_ok k); try done. apply set_owner_wait; [done|by apply (task_id_pos k c)].
Qed.
Lemma mutex_lock_ok k c m : kernel_ok k -> runs_task k c -> kernel_ok (fst (k_mutex_lock k c m)).
Proof.
  intros Hk (i & Hc & Hid). unfold k_mutex_lock, current_task. rewrite Hc. destruct (m =? 0); [done|].
  destruct (Z.eqb_spec (zget (mutexes k) m) 0) as [H0|H0].
  - apply (objects_ok k); try done. apply set_owner_wait; [done|by apply (task_id_pos k c)].
  - destruct (_ || _); [done|]. by apply (block_ok k c i).
Qed.
(** After the wake-up of [obj] nobody is blocked on it. *)
Lemma wake_wait k k0 k' obj : kernel_ok k -> tasks k0 = tasks k -> woke k0 k' (waits_on k0 obj) ->
  (forall obj', obj' <> obj -> exhausted k obj' -> exhausted k' obj') -> wait_inv k'.
Proof.
  intros Hk Et Hw Hx j Hj. pose proof (wo_task _ _ _ Hw j) as Ht. destruct (waits_on k0 obj j) eqn:Hwj.
  { apply readied_state in Ht. congruence. }
  rewrite Ht, Et in Hj |- *. destruct (ko_wait k Hk j Hj) as (o & Ho & He). exists o. split; [done|]. apply Hx; [|done].
  intros ->. unfold waits_on in Hwj. rewrite Et, Hj, Ho in Hwj. rewrite !bool_decide_true, !andb_true_r in Hwj by done.
  pose proof (si_range k (ko_sched k Hk) j ltac:(unfold used; by rewrite Hj)). reflect_bools. lia.
Qed.
Lemma waits_on_blocked k obj i : waits_on k obj i = true -> t_state (tasks k !!! i) = K_TASK_BLOCKED.
Proof. unfold waits_on. intros. reflect_bools. by eapply bool_decide_eq_true_1. Qed.
Lemma mutex_unlock_ok k c m : kernel_ok k -> kernel_ok (fst (k_mutex_unlock k c m)).
Proof.
  intros Hk. unfold k_mutex_unlock. destruct (m =? 0); [done|]. destruct (_ || _); [done|]. cbn [fst].
  pose proof (wake_object_spec (set_owner m 0 k) (Wait_mutex m)) as Hw. set (k0 := set_owner m 0 k) in *.
  apply (calm_ok k); [done|]. apply (woke_calm k k0 _ (waits_on k0 (Wait_mutex m))); [done|done|done|done|done|done|exact Hw| |].
  - intros i Hi. by apply (waits_on_blocked k0) in Hi.
  - apply (wake_wait k k0 _ (Wait_mutex m)); try done. intros obj' Hne Hx. unfold exhausted in *.
    rewrite (sk_mutexes _ _ (wo_keys _ _ _ Hw)), (sk_semaphores _ _ (wo_keys _ _ _ Hw)).
    destruct obj' as [a|a]; [|done]. unfold k0. cbn. rewrite zget_put_ne by congruence. done.
Qed.
Lemma sem_trywait_ok k s : kernel_ok k -> kernel_ok (fst (k_sem_trywait k s)).
Proof.
  intros Hk. unfold k_sem_trywait. destruct (s =? 0); [done|]. cbn [fst].
  destruct (Z.eqb_spec (zget (semaphores k) s) 0); cbn [negb Z.eqb]; [done|].
  apply (objects_ok k); try done. by apply set_count_wait.
Qed.
Lemma sem_wait_ok k c s : kernel_ok k -> runs_task k c -> kernel_ok (fst (k_sem_wait k c s)).
Proof.
  intros Hk (i & Hc & Hid). unfold k_sem_wait, current_task. rewrite Hc. destruct (s =? 0); [done|].
  destruct (Z.eqb_spec (zget (semaphores k) s) 0) as [H0|H0]; cbn [negb].
  - destruct (negb _); [done|]. by apply (block_ok k c i).
  - apply (objects_ok k); try done. by apply set_count_wait.
Qed.
Lemma sem_post_ok k s : kernel_ok k -> kernel_ok (k_sem_post k s).
Proof.
  intros Hk. unfold k_sem_post. destruct (s =? 0); [done|].
  set (k0 := if negb _ then set_count s _ k else k).
  assert (tasks k0 = tasks k /\ cpus k0 = cpus k /\ next_task_id k0 = next_task_id k /\ discovered_cpus k0 = discovered_cpus k /\ same_roots k k0 /\
    mutexes k0 = mutexes k /\ (forall a, a <> s -> zget (semaphores k0) a = zget (semaphores k) a)) as (E1 & E2 & E3 & E3' & E4 & E5 & E6).
  { subst k0. destruct (negb _); [|done]. split_and!; try done. intros a Ha. cbn. by rewrite zget_put_ne by congruence. }
  pose proof (wake_object_spec k0 (Wait_semaphore s)) as Hw.
  apply (calm_ok k); [done|]. apply (woke_calm k k0 _ (waits_on k0 (Wait_semaphore s))); [done|done|done|done|done|done|exact Hw| |].
  - intros i Hi. apply (waits_on_blocked k0) in Hi. by rewrite E1 in Hi.
  - apply (wake_wait k k0 _ (Wait_semaphore s)); try done. intros obj' Hne Hx. unfold exhausted in *.
    rewrite (sk_mutexes _ _ (wo_keys _ _ _ Hw)), (sk_semaphores _ _ (wo_keys _ _ _ Hw)), E5.
    destruct obj' as [a|a]; [done|]. rewrite E6 by congruence. done.
Qed.
Lemma sem_init_ok k s n : kernel_ok k -> (forall i, waits_on k (Wait_semaphore s) i = false) -> kernel_ok (k_sem_init k s n).
Proof.
  intros Hk Hno. unfold k_sem_init. destruct (s =? 0); [done|]. apply (objects_ok k); try done.
  intros j Hj. destruct (ko_wait k Hk j Hj) as (obj & Ho & Hx). exists obj. split; [done|].
  destruct obj as [a|a]; [done|]. cbn in *. rewrite zget_put. destruct (Z.eqb_spec s a) as [->|]; [exfalso|done].
  specialize (Hno j). unfold waits_on in Hno. change (tasks (set_count a n k)) with (tasks k) in *.
  rewrite Hj, Ho, !bool_decide_true, !andb_true_r in Hno by done.
  pose proof (si_range k (ko_sched k Hk) j ltac:(unfold used; by rewrite Hj)). reflect_bools. lia.
Qed.

Lemma ipc_send_ok k c target data : kernel_ok k -> kernel_ok (fst (k_ipc_send k c target data)).
Proof.
  intros Hk. unfold k_ipc_send. destruct (current_task k c) as [i|]; [|done]. destruct data as [data|]; [|done].
  destruct (_ <? _); [done|]. destruct (negb _); [done|]. destruct (find_range _ _ _) as [j|]; [|done].
  destruct (Z.eqb_spec (t_mail_count (tasks k !!! j)) MAIL_DEPTH); [done|]. cbn [fst].
  destruct (si_mail k (ko_sched k Hk) j) as [Hh Hcnt]. unfold MAIL_DEPTH in *.
  apply upd_task_ok; try done; [|by left|apply (ko_wait k Hk)].
  split; [done|]. cbn. unfold u32, MAIL_DEPTH. rewrite Z.mod_small by lia. lia.
Qed.
Lemma ipc_receive_ok k c msg : kernel_ok k -> kernel_ok (fst (fst (k_ipc_receive k c msg))).
Proof.
  intros Hk. unfold k_ipc_receive. destruct (current_task k c) as [i|]; [|done]. destruct (negb _); [done|].
  destruct (Z.eqb_spec (t_mail_count (tasks k !!! i)) 0); [done|]. cbn [fst].
  destruct (si_mail k (ko_sched k Hk) i) as [Hh Hcnt]. unfold MAIL_DEPTH in *.
  apply upd_task_ok; try done; [|by left|apply (ko_wait k Hk)].
  split; cbn; unfold MAIL_DEPTH; [apply Z.mod_pos_bound; lia|]. unfold u32. rewrite Z.mod_small by lia. lia.
Qed.
Lemma upd_process_ok k p f : kernel_ok k -> (forall q, p_as (f q) = p_as q) -> kernel_ok (upd_process p f k).
Proof.
  intros Hk Hf. apply (objects_ok k); try done; [|apply (ko_wait k Hk)].
  split_and!; try done. intros q. rewrite procs_upd_process. by destruct (decide (p = q)).
Qed.
Lemma ipc_grant_ok k c pid target : kernel_ok k -> kernel_ok (fst (k_ipc_grant k c pid target)).
Proof.
  intros Hk. unfold k_ipc_grant. destruct (match current_task k c with Some i => _ | None => _ end); [done|].
  destruct (find_range _ _ _) as [i|]; [|done]. destruct (bool_decide _); [done|]. destruct (_ =? _); [done|].
  by apply upd_process_ok.
Qed.
Lemma exit_ok k c code k' : kernel_ok k -> k_task_exit k c code = Some k' -> kernel_ok k'.
Proof.
  intros Hk. unfold k_task_exit, current_task. destruct (c_current (cpus k !!! c)) as [i|] eqn:Hc; [|done].
  destruct (t_idle (tasks k !!! i)) eqn:Hid; [done|]. destruct (_ =? 1); [done|]. cbn [orb].
  set (k1 := upd_task i _ k). assert (kernel_ok k1) as Hk1.
  { destruct (current_used k c i Hk Hc) as [Hu _].
    apply upd_task_ok; try done; [apply (si_mail k (ko_sched k Hk))|congruence|by intros [?|?]]. }
  destruct (t_process _) as [p|]; intros [= <-]; [by apply upd_process_ok|done].
Qed.
Lemma handoff_ok k c : kernel_ok k -> kernel_ok (stack_handoff k c).
Proof.
  intros Hk. apply (calm_ok k); [done|]. unfold stack_handoff.
  split; try done; rewrite ?tasks_upd_cpu; intros d; rewrite ?cpus_upd_cpu; try (by destruct (decide (c = d))).
  - apply (si_mail k (ko_sched k Hk)).
  - by left.
  - apply (ko_wait k Hk).
Qed.

(** ** Creation and destruction of tasks *)

(** [k'] is [k] with slot [i] replaced, CPU registers and tables untouched. *)
Record slot_change (k k' : kernel St) (i : Z) (t' : task) : Prop := {
  sc_task : forall j, tasks k' !!! j = if decide (i = j) then t' else tasks k !!! j;
  sc_cpu : forall d, cpu_key (cpus k' !!! d) = cpu_key (cpus k !!! d) /\ cpu_ctx (cpus k' !!! d) = cpu_ctx (cpus k !!! d);
  sc_pending : forall d, c_work_pending (cpus k !!! d) = true -> c_work_pending (cpus k' !!! d) = true;
  sc_roots : same_roots k k';
  sc_discovered : discovered_cpus k' = discovered_cpus k;
  sc_objects : mutexes k' = mutexes k /\ semaphores k' = semaphores k;
  sc_next : 0 <= next_task_id k' < 2 ^ 32 /\
    forall x, 0 < x < 2 ^ 32 -> next_task_id k = 0 \/ x < next_task_id k -> next_task_id k' = 0 \/ x < next_task_id k';
  sc_mail : mail_ok t';
  sc_weight : 0 <= t_weight t' <= 4096
}.
Definition detached (k : kernel St) (i : Z) : Prop :=
  (forall c, c_current (cpus k !!! c) <> Some i) /\ (forall c, c_idle (cpus k !!! c) <> Some i).
(** What a newly occupied slot must satisfy. *)
Definition fresh_task (k k' : kernel St) (i : Z) (t' : task) : Prop :=
  0 <= i < K_MAX_TASKS /\ 0 < t_weight t' /\ 0 < t_id t' < 2 ^ 32 /\
  (next_task_id k' = 0 \/ t_id t' < next_task_id k') /\
  (forall j, used (tasks k !!! j) -> t_id (tasks k !!! j) <> t_id t').

Lemma slot_ok k k' i t' : kernel_ok k -> slot_change k k' i t' -> detached k i ->
  (used t' -> fresh_task k k' i t' /\ t_state t' = K_TASK_READY /\ t_idle t' = false /\
     c_work_pending (cpus k' !!! t_cpu t') = true /\ c_idle (cpus k !!! t_cpu t') <> None) -> kernel_ok k'.
Proof.
  intros [[Hr Hw Hid Hun Hrun Hcur Hidle Hio Hm Hn Hcp Hhm Hon] Hpend Hwait Hctx] [St' Sc Sp Sr Sd [So1 So2] [Sn1 Sn2] Sm Sw] [Hd1 Hd2] Hnew.
  assert (forall d, c_current (cpus k' !!! d) = c_current (cpus k !!! d)) as Ecur by (intros d; apply ctx_current, Sc).
  assert (forall d, c_idle (cpus k' !!! d) = c_idle (cpus k !!! d)) as Eidle by (intros d; apply key_cpu_idle, Sc).
  split; [split| | |].
  - intros j. rewrite St'. destruct (decide (i = j)) as [<-|]; [|apply Hr]. intros Hu. by destruct (Hnew Hu) as ((? & _) & _).
  - intros j. rewrite St'. destruct (decide (i = j)); [|apply Hw]. split; [done|]. intros Hu. by destruct (Hnew Hu) as ((_ & ? & _) & _).
  - intros j. rewrite St'. destruct (decide (i = j)) as [<-|]; intros Hu.
    + by destruct (Hnew Hu) as ((_ & _ & ? & ? & _) & _).
    + destruct (Hid j Hu) as [H1 H2]. split; [done|]. by apply Sn2.
  - intros j1 j2. rewrite !St'. destruct (decide (i = j1)) as [<-|], (decide (i = j2)) as [<-|]; intros Hu1 Hu2 He; [done| | |by apply Hun].
    + destruct (Hnew Hu1) as ((_ & _ & _ & _ & Hne) & _). by destruct (Hne j2 Hu2).
    + destruct (Hnew Hu2) as ((_ & _ & _ & _ & Hne) & _). by destruct (Hne j1 Hu1).
  - intros j. rewrite St'. destruct (decide (i = j)); [|rewrite Ecur; apply Hrun]. intros Hs.
    destruct (Hnew ltac:(unfold used; congruence)) as (_ & Hs' & _). congruence.
  - intros c j. rewrite Ecur, Eidle, St'. intros Hc. destruct (decide (i = j)) as [<-|]; [by destruct (Hd1 c)|by apply Hcur].
  - intros c j. rewrite Eidle, St'. intros Hc. destruct (decide (i = j)) as [<-|]; [by destruct (Hd2 c)|by apply Hidle].
  - intros j. rewrite St'. destruct (decide (i = j)) as [<-|]; [|rewrite Eidle; apply Hio]. intros Hu Hi.
    destruct (Hnew Hu) as (_ & _ & ? & _). congruence.
  - intros j. rewrite St'. destruct (decide (i = j)); [done|apply Hm].
  - done.
  - intros c. rewrite Eidle, Sd. apply Hcp.
  - intros j. rewrite St', Eidle. destruct (decide (i = j)) as [<-|]; [|apply Hhm]. intros Hu. by destruct (Hnew Hu) as (_ & _ & _ & _ & ?).
  - intros c. rewrite Eidle. destruct (Sc c) as [Hkc _]. unfold cpu_key in Hkc. intros Ho. apply Hon. congruence.
  - intros c i' j. rewrite Ecur, !St'. intros Hc. destruct (decide (i = i')) as [<-|]; [by destruct (Hd1 c)|].
    destruct (decide (i = j)) as [<-|].
    + intros _ <- _ Hwk. destruct (Hnew) as (_ & _ & _ & ? & _); [|done]. unfold used. by destruct Hwk as [-> | ->].
    + intros H1 H2 H3 H4. apply Sp. by apply (Hpend c i' j).
  - intros j. rewrite St'. destruct (decide (i = j)); intros Hj.
    + destruct (Hnew ltac:(unfold used; congruence)) as (_ & Hs' & _). congruence.
    + destruct (Hwait j Hj) as (obj & Ho & Hx). exists obj. unfold exhausted in *. by rewrite So1, So2.
  - intros c j Ho Hc. rewrite Ecur in Hc. destruct (Sc c) as [Hkc Hcc]. unfold cpu_key in Hkc.
    destruct (Hctx c j ltac:(congruence) Hc) as (L1 & L2 & L3). unfold loaded. rewrite St'.
    destruct (decide (i = j)) as [<-|]; [by destruct (Hd1 c)|]. rewrite (task_root_same k k' (tasks k !!! j) (tasks k !!! j)) by done.
    unfold cpu_ctx in Hcc. split_and!; congruence.
Qed.

(** Only slot [i] and bookkeeping differ. *)
Record slot_only (k k' : kernel St) (i : Z) : Prop := {
  so_task : forall j, i <> j -> tasks k' !!! j = tasks k !!! j;
  so_cpu : forall d, cpu_key (cpus k' !!! d) = cpu_key (cpus k !!! d) /\ cpu_ctx (cpus k' !!! d) = cpu_ctx (cpus k !!! d);
  so_pending : forall d, c_work_pending (cpus k !!! d) = true -> c_work_pending (cpus k' !!! d) = true;
  so_roots : same_roots k k';
  so_discovered : discovered_cpus k' = discovered_cpus k;
  so_objects : mutexes k' = mutexes k /\ semaphores k' = semaphores k
}.
Lemma slot_only_trans k1 k2 k3 i : slot_only k1 k2 i -> slot_only k2 k3 i -> slot_only k1 k3 i.
Proof.
  intros [A1 B1 C1 D1 E1 [F1 G1]] [A2 B2 C2 D2 E2 [F2 G2]]. split.
  - intros j Hj. by rewrite A2, A1.
  - intros d. destruct (B1 d) as [-> ->] || idtac. destruct (B1 d), (B2 d). split; congruence.
  - intros d Hd. by apply C2, C1.
  - by eapply same_roots_trans.
  - congruence.
  - split; congruence.
Qed.
Lemma slot_only_upd k i f : slot_only k (upd_task i f k) i.
Proof. split; try done. intros j Hj. by rewrite tasks_upd_task, decide_False. Qed.
Lemma slot_only_pages k i p m : slot_only k (k <| k_pages := p |> <| k_ram := m |>) i.
Proof. by split. Qed.
Lemma slot_only_next k i n : slot_only k (k <| next_task_id := n |>) i.
Proof. by split. Qed.
Lemma slot_only_context k i e : slot_only k (arch_task_context_init k i e) i.
Proof.
  unfold arch_task_context_init. set (frame := Z.land _ _). set (g := fun m : zmap => wr64 _ _ _).
  apply (slot_only_trans _ (k <| k_ram ::= g |>)); [by split|apply slot_only_upd].
Qed.
Lemma context_task k i e :
  tasks (arch_task_context_init k i e) !!! i =
    (tasks k !!! i) <| t_frame := Z.land (u64 (t_stack_top (tasks k !!! i) - 64 - sizeof_irq_frame)) (u64 (Z.lnot 15)) |>
                    <| t_arch := initial_fx k |>.
Proof. unfold arch_task_context_init. by rewrite tasks_upd_task, decide_True. Qed.
Lemma context_next k i e : next_task_id (arch_task_context_init k i e) = next_task_id k.
Proof. done. Qed.
Lemma slot_only_floor k i cpu : slot_only k (fst (cpu_floor k cpu)) i.
Proof.
  destruct (cpu_floor_same k cpu) as (Ht & Hp & Hs & Hk & Hc & Hpe). split.
  - intros j _. by rewrite Ht.
  - intros d. split; [apply (sk_cpu _ _ Hk)|apply Hc].
  - intros d. by rewrite Hpe.
  - split_and!; [|done|intros p; by rewrite Hp]. unfold cpu_floor. cbn [fst]. by destruct (negb _ && _).
  - apply (sk_discovered _ _ Hk).
  - split; [apply (sk_mutexes _ _ Hk)|apply (sk_semaphores _ _ Hk)].
Qed.
Lemma slot_only_announce k i cpu e :
  slot_only k (emit e (upd_cpu cpu (fun s => s <| c_work_pending := true |>) k)) i.
Proof.
  split; try done; intros d; rewrite cpus_emit, cpus_upd_cpu; by destruct (decide (cpu = d)).
Qed.

(** What [new_task] returns. *)
Inductive created (k : kernel St) (weight cpu : Z) (idle : bool) : kernel St * option Z -> Prop :=
  | Created_none : created k weight cpu idle (k, None)
  | Created_cleared i k' : t_state (tasks k !!! i) = K_TASK_UNUSED -> slot_only k k' i ->
      tasks k' !!! i = task0 -> next_task_id k' = next_task_id k -> created k weight cpu idle (k', None)
  | Created_some i k' stack frame name entry arg floor : 0 <= i < K_MAX_TASKS ->
      t_state (tasks k !!! i) = K_TASK_UNUSED -> next_task_id k <> 0 -> stack <> 0 -> slot_only k k' i ->
      tasks k' !!! i = task0 <| t_id := next_task_id k |> <| t_cpu := cpu |> <| t_weight := weight |>
        <| t_stack := stack |> <| t_stack_top := u64 (stack + STACK_PAGES * 4096) |> <| t_entry := entry |>
        <| t_arg := arg |> <| t_idle := idle |> <| t_frame := frame |> <| t_arch := initial_fx k |>
        <| t_name := str_fit name |> <| t_vruntime := floor |> <| t_state := K_TASK_READY |> ->
      next_task_id k' = u32 (next_task_id k + 1) ->
      (idle = false -> c_work_pending (cpus k' !!! cpu) = true) -> created k weight cpu idle (k', Some i).
Lemma floor_fst k cpu : cpu_floor k cpu = (fst (cpu_floor k cpu), snd (cpu_floor k cpu)).
Proof. by destruct (cpu_floor k cpu). Qed.
Lemma floor_next k cpu : next_task_id (fst (cpu_floor k cpu)) = next_task_id k.
Proof. unfold cpu_floor. cbn [fst]. by destruct (negb _ && _). Qed.
Lemma new_task_spec k name entry arg weight cpu idle : created k weight cpu idle (new_task k name entry arg weight cpu idle).
Proof.
  unfold new_task. destruct (Z.eqb_spec (next_task_id k) 0); [constructor|].
  destruct (find_range _ _ _) as [i|] eqn:Hfind; [|constructor].
  apply find_range_Some in Hfind as (Hi & Hu & _). apply bool_decide_eq_true_1 in Hu.
  set (k1 := upd_task i (fun _ => task0) k). assert (slot_only k k1 i) as S1 by apply slot_only_upd.
  assert (tasks k1 !!! i = task0) as T1 by (unfold k1; by rewrite tasks_upd_task, decide_True).
  destruct (pa_alloc (k_pages k1) (k_ram k1) STACK_PAGES 0) as [[p m] stack]. cbv zeta.
  set (k2 := k1 <| k_pages := p |> <| k_ram := m |>).
  assert (slot_only k k2 i) as S2 by (apply (slot_only_trans _ k1); [exact S1|apply slot_only_pages]).
  destruct (Z.eqb_spec stack 0) as [|Hst]; [by apply (Created_cleared _ _ _ _ i)|].
  set (k3 := upd_task i _ k2). assert (slot_only k k3 i) as S3 by (apply (slot_only_trans _ k2); [exact S2|apply slot_only_upd]).
  set (k4 := k3 <| next_task_id := _ |>). assert (slot_only k k4 i) as S4 by (apply (slot_only_trans _ k3); [exact S3|apply slot_only_next]).
  assert (tasks k4 !!! i = task0 <| t_id := next_task_id k |> <| t_cpu := cpu |> <| t_weight := weight |>
        <| t_stack := stack |> <| t_stack_top := u64 (stack + STACK_PAGES * 4096) |> <| t_entry := entry |>
        <| t_arg := arg |> <| t_idle := idle |>) as T4.
  { change (tasks k4) with (tasks k3). unfold k3. rewrite tasks_upd_task, decide_True by done.
    change (tasks k2) with (tasks k1). by rewrite T1. }
  assert (next_task_id k4 = u32 (next_task_id k + 1) /\ initial_fx k4 = initial_fx k) as [N4 F4] by done.
  pose proof (context_task k4 i (task_bootstrap k4)) as T5. pose proof (slot_only_context k4 i (task_bootstrap k4)) as S5.
  pose proof (context_next k4 i (task_bootstrap k4)) as N5. rewrite T4, F4 in T5. rewrite N4 in N5.
  apply (slot_only_trans _ _ _ _ S4) in S5. generalize dependent (arch_task_context_init k4 i (task_bootstrap k4)).
  clear S1 S2 S3 S4 T1 T4 N4 F4. clearbody k4. clear k1 k2 k3. intros k5 T5 S5 N5.
  pose proof (slot_only_upd k5 i (fun t => t <| t_name := str_fit name |>)) as S6. apply (slot_only_trans _ _ _ _ S5) in S6.
  pose proof (tasks_upd_task i (fun t => t <| t_name := str_fit name |>) k5 i) as T6. rewrite decide_True, T5 in T6 by done.
  assert (next_task_id (upd_task i (fun t => t <| t_name := str_fit name |>) k5) = u32 (next_task_id k + 1)) as N6 by done.
  generalize dependent (upd_task i (fun t => t <| t_name := str_fit name |>) k5). clear S5 T5 N5 k5. intros k6 S6 T6 N6.
  rewrite floor_fst. pose proof (slot_only_floor k6 i cpu) as S7. apply (slot_only_trans _ _ _ _ S6) in S7.
  destruct (cpu_floor_same k6 cpu) as (T7 & _). rewrite <- (floor_next k6 cpu) in N6.
  generalize dependent (fst (cpu_floor k6 cpu)). generalize (snd (cpu_floor k6 cpu)). intros floor k7 N7 S7 T7. rewrite <- T7 in T6.
  set (k8 := upd_task i _ k7). assert (slot_only k k8 i) as S8 by (apply (slot_only_trans _ k7); [exact S7|apply slot_only_upd]).
  pose proof (tasks_upd_task i (fun t => t <| t_vruntime := floor |> <| t_state := K_TASK_READY |>) k7 i) as T8.
  fold k8 in T8. rewrite decide_True, T6 in T8 by done.
  assert (next_task_id k8 = u32 (next_task_id k + 1)) as N8 by done. clearbody k8.
  destruct idle.
  - by eapply (Created_some k weight cpu true i k8 stack _ name entry arg floor Hi Hu n Hst S8 T8 N8).
  - eapply (Created_some k weight cpu false i _ stack _ name entry arg floor Hi Hu n Hst).
    + exact (slot_only_trans _ _ _ _ S8 (slot_only_announce k8 i cpu (Wake_cpu cpu))).
    + rewrite tasks_emit, tasks_upd_cpu. exact T8.
    + exact N8.
    + intros _. by rewrite cpus_emit, cpus_upd_cpu, decide_True.
Qed.

Lemma slot_only_change k k' i : kernel_ok k -> slot_only k k' i -> mail_ok (tasks k' !!! i) ->
  0 <= t_weight (tasks k' !!! i) <= 4096 ->
  next_task_id k' = next_task_id k \/ (next_task_id k <> 0 /\ next_task_id k' = u32 (next_task_id k + 1)) ->
  slot_change k k' i (tasks k' !!! i).
Proof.
  intros Hk [A B C D E F] Hm Hw Hn. pose proof (si_next k (ko_sched k Hk)) as Hr. split; try done.
  - intros j. destruct (decide (i = j)) as [<-|]; [done|by apply A].
  - destruct Hn as [-> | [Hne ->]]; [done|]. unfold u32. split; [apply Z.mod_pos_bound; lia|]. intros x Hx [H0|Hlt].
    + lia.
    + destruct (Z.eq_dec (next_task_id k + 1) (2 ^ 32)) as [->|]; [by left|right]. rewrite Z.mod_small by lia. lia.
Qed.

Lemma unused_detached k i : kernel_ok k -> t_state (tasks k !!! i) = K_TASK_UNUSED -> detached k i.
Proof.
  intros Hk Hu. split; intros c Hc.
  - destruct (si_current k (ko_sched k Hk) c i Hc) as (Hx & _). done.
  - destruct (si_idle k (ko_sched k Hk) c i Hc) as (_ & _ & [?|?]); congruence.
Qed.
Lemma task0_mail : mail_ok task0.
Proof. done. Qed.
(** The identifier [new_task] hands out is new. *)
Lemma next_fresh k i k' t' weight : kernel_ok k -> 0 <= i < K_MAX_TASKS -> next_task_id k <> 0 ->
  next_task_id k' = u32 (next_task_id k + 1) -> t_id t' = next_task_id k -> t_weight t' = weight -> 0 < weight ->
  fresh_task k k' i t'.
Proof.
  intros Hk Hi Hn Hn' Hid Hw Hpos. pose proof (si_next k (ko_sched k Hk)) as Hr. unfold fresh_task. rewrite Hid, Hw, Hn'.
  split_and!; try lia.
  - destruct (Z.eq_dec (next_task_id k + 1) (2 ^ 32)) as [->|]; [by left|right]. unfold u32. rewrite Z.mod_small by lia. lia.
  - intros j Hj. destruct (si_id k (ko_sched k Hk) j Hj) as [H1 [H2|H2]]; lia.
Qed.
Lemma new_task_ok k name entry arg weight cpu : kernel_ok k -> 0 < weight <= 4096 -> c_idle (cpus k !!! cpu) <> None ->
  kernel_ok (fst (new_task k name entry arg weight cpu false)).
Proof.
  intros Hk Hw Hcpu. pose proof (new_task_spec k name entry arg weight cpu false) as Hc. inversion Hc as
    [He|i k' Hu So Ht Hn He|i k' stack frame nm en ar fl Hi Hu Hnz Hst So Ht Hn Hp He]; cbn [fst].
  - done.
  - apply (slot_ok k k' i (tasks k' !!! i)); [done| |by apply unused_detached|].
    + apply slot_only_change; rewrite ?Ht; try done. by left.
    + rewrite Ht. by intros [].
  - apply (slot_ok k k' i (tasks k' !!! i)); [done| |by apply unused_detached|].
    + apply slot_only_change; rewrite ?Ht; try done; [cbn; lia|by right].
    + intros _. split; [apply (next_fresh k i k' _ weight); try done; [by rewrite Ht|by rewrite Ht|lia]|].
      rewrite Ht. cbn. split_and!; [done|done|by apply Hp|done].
Qed.
Lemma create_ok k name entry arg weight cpu id : kernel_ok k -> 0 <= weight ->
  kernel_ok (fst (fst (k_task_create k name entry arg weight cpu id))).
Proof.
  intros Hk Hw. unfold k_task_create. destruct name as [name|]; [|done].
  destruct (_ || negb (c_online (cpus k !!! cpu))) eqn:Hg; [done|].
  assert (0 < weight <= 4096) as Hw' by (reflect_bools; lia).
  assert (c_idle (cpus k !!! cpu) <> None) as Hcpu by (apply (si_online k (ko_sched k Hk)); by reflect_bools).
  pose proof (new_task_ok k name entry arg weight cpu Hk Hw' Hcpu) as Hok.
  by destruct (new_task k name entry arg weight cpu false) as [k' [i|]].
Qed.
Lemma free_ok k i : kernel_ok k -> detached k i -> kernel_ok (free_task i k).
Proof.
  intros Hk Hd. unfold free_task. set (k0 := if t_stack (tasks k !!! i) =? 0 then k else _).
  assert (slot_only k k0 i /\ next_task_id k0 = next_task_id k) as [S0 N0] by (subst k0; by destruct (_ =? 0)).
  set (k1 := upd_task i _ k0).
  assert (tasks k1 !!! i = task0) as T1 by (unfold k1; by rewrite tasks_upd_task, decide_True).
  apply (slot_ok k k1 i (tasks k1 !!! i)); [done| |done|].
  - apply slot_only_change; [done| |by rewrite T1|by rewrite T1|by left].
    apply (slot_only_trans _ k0); [exact S0|apply slot_only_upd].
  - rewrite T1. by intros [].
Qed.
Lemma reap_detached k i : kernel_ok k -> t_state (tasks k !!! i) = K_TASK_ZOMBIE ->
  any_range 0 (discovered_cpus k) (on_cpu k i) = false -> detached k i.
Proof.
  intros Hk Hz Hno. pose proof (ko_sched k Hk) as Hs. split; intros c Hc.
  - destruct (si_current k Hs c i Hc) as (_ & _ & Hidle). pose proof (si_cpus k Hs c Hidle) as Hr.
    assert (any_range 0 (discovered_cpus k) (on_cpu k i) = true) as Ht; [|congruence].
    apply any_range_spec. exists c. split; [done|]. unfold on_cpu. by rewrite Hc, bool_decide_true.
  - destruct (si_idle k Hs c i Hc) as (_ & _ & [?|?]); congruence.
Qed.
Lemma reap_ok k id : kernel_ok k -> kernel_ok (fst (fst (k_task_reap k id))).
Proof.
  intros Hk. unfold k_task_reap. destruct (find_range _ _ _) as [i|]; [|done].
  destruct (bool_decide_reflect (t_state (tasks k !!! i) = K_TASK_ZOMBIE)) as [Hz|]; [|done]. cbn [negb].
  destruct (any_range _ _ _) eqn:Hno; [done|]. destruct (bool_decide _); [done|]. cbn [fst].
  by apply free_ok, reap_detached.
Qed.

(** ** Starting CPUs *)
Section Register.
Context (k k' : kernel St) (c t : Z) (x : task).
Hypothesis Hk : kernel_ok k.
Hypothesis Hc : 0 <= c < discovered_cpus k.
Hypothesis Hcur : c_current (cpus k !!! c) = None.
Hypothesis Hidle : c_idle (cpus k !!! c) = None.
Hypothesis Hunused : t_state (tasks k !!! t) = K_TASK_UNUSED.
Hypothesis Htask : forall j, tasks k' !!! j = if decide (t = j) then x else tasks k !!! j.
Hypothesis Hfresh : fresh_task k k' t x.
Hypothesis Hmail : mail_ok x.
Hypothesis Hweight : 0 <= t_weight x <= 4096.
Hypothesis Hx : t_cpu x = c /\ t_idle x = true /\ t_state x = K_TASK_RUNNING.
Hypothesis Hothers : forall d, d <> c -> cpu_key (cpus k' !!! d) = cpu_key (cpus k !!! d) /\
  cpu_ctx (cpus k' !!! d) = cpu_ctx (cpus k !!! d) /\
  (c_work_pending (cpus k !!! d) = true -> c_work_pending (cpus k' !!! d) = true).
Hypothesis Hcpu : c_idle (cpus k' !!! c) = Some t /\ c_current (cpus k' !!! c) = Some t /\ c_online (cpus k' !!! c) = false.
Hypothesis Hroots : same_roots k k'.
Hypothesis Hdisc : discovered_cpus k' = discovered_cpus k.
Hypothesis Hobj : mutexes k' = mutexes k /\ semaphores k' = semaphores k.
Hypothesis Hnext : 0 <= next_task_id k' < 2 ^ 32 /\
  forall y, 0 < y < 2 ^ 32 -> next_task_id k = 0 \/ y < next_task_id k -> next_task_id k' = 0 \/ y < next_task_id k'.

Lemma elsewhere j : used (tasks k !!! j) -> t <> j /\ t_cpu (tasks k !!! j) <> c.
Proof.
  intros Hu. split; [intros <-; done|]. intros Hj. pose proof (si_home k (ko_sched k Hk) j Hu). congruence.
Qed.
Lemma other_cpu d : d <> c -> c_current (cpus k' !!! d) = c_current (cpus k !!! d) /\
  c_idle (cpus k' !!! d) = c_idle (cpus k !!! d) /\ c_online (cpus k' !!! d) = c_online (cpus k !!! d).
Proof.
  intros Hd. destruct (Hothers d Hd) as (H1 & H2 & _). unfold cpu_key in H1. split_and!; [by apply ctx_current|congruence|congruence].
Qed.
Lemma register_sched : sched_inv k'.
Proof.
  destruct Hk as [[Hr Hw Hid Hun Hrun Hcu Hi Hio Hm Hn Hcp Hhm Hon] _ _ _]. destruct Hfresh as (F1 & F2 & F3 & F4 & F5).
  destruct Hx as (X1 & X2 & X3), Hcpu as (C1 & C2 & C3), Hnext as [N1 N2].
  assert (used x) as Hux by (unfold used; by rewrite X3). split; try done.
  - intros j. rewrite Htask. destruct (decide (t = j)) as [<-|]; [done|apply Hr].
  - intros j. rewrite Htask. destruct (decide (t = j)); [done|apply Hw].
  - intros j. rewrite Htask. destruct (decide (t = j)) as [<-|]; [done|]. intros Hu. destruct (Hid j Hu). split; [done|by apply N2].
  - intros j1 j2. rewrite !Htask. destruct (decide (t = j1)) as [<-|], (decide (t = j2)) as [<-|]; intros Hu1 Hu2 He; [done| | |by apply Hun].
    + by destruct (F5 j2 Hu2).
    + by destruct (F5 j1 Hu1).
  - intros j. rewrite Htask. destruct (decide (t = j)) as [<-|]; [by rewrite X1|]. intros Hs.
    destruct (elsewhere j ltac:(unfold used; by rewrite Hs)) as [_ He]. destruct (other_cpu _ He) as (-> & _). by apply Hrun.
  - intros d j. destruct (Z.eq_dec d c) as [->|Hd].
    + rewrite C2, C1. intros [= <-]. by rewrite Htask, decide_True.
    + destruct (other_cpu d Hd) as (-> & -> & _). intros Hcj. destruct (Hcu d j Hcj) as (Hu & Hjc & Hne).
      destruct (elsewhere j Hu) as [Ht _]. by rewrite Htask, decide_False.
  - intros d j. destruct (Z.eq_dec d c) as [->|Hd].
    + rewrite C1. intros [= <-]. rewrite Htask, decide_True by done. split_and!; [done|done|by right].
    + destruct (other_cpu d Hd) as (_ & -> & _). intros Hij. destruct (Hi d j Hij) as (H1 & H2 & H3).
      destruct (elsewhere j ltac:(unfold used; by destruct H3 as [-> | ->])) as [Ht _]. by rewrite Htask, decide_False.
  - intros j. rewrite Htask. destruct (decide (t = j)) as [<-|]; [intros _ _; by rewrite X1|]. intros Hu Hij.
    destruct (elsewhere j Hu) as [_ He]. destruct (other_cpu _ He) as (_ & -> & _). by apply Hio.
  - intros j. rewrite Htask. destruct (decide (t = j)); [done|apply Hm].
  - intros d. rewrite Hdisc. destruct (Z.eq_dec d c) as [->|Hd]; [done|]. destruct (other_cpu d Hd) as (_ & -> & _). apply Hcp.
  - intros j. rewrite Htask. destruct (decide (t = j)) as [<-|]; [intros _; rewrite X1; congruence|]. intros Hu.
    destruct (elsewhere j Hu) as [_ He]. destruct (other_cpu _ He) as (_ & -> & _). by apply Hhm.
  - intros d. destruct (Z.eq_dec d c) as [->|Hd]; [congruence|]. destruct (other_cpu d Hd) as (_ & -> & ->). apply Hon.
Qed.
Lemma register_ok : kernel_ok k'.
Proof.
  pose proof register_sched as Hs'. destruct Hk as [Hs Hp Hw Hctx]. destruct Hx as (X1 & X2 & X3), Hcpu as (C1 & C2 & C3).
  split; [done| | |].
  - intros d i j. destruct (Z.eq_dec d c) as [->|Hd].
    + intros _ _. rewrite Htask. destruct (decide (t = j)) as [<-|]; [intros _; congruence|]. intros Hj _ Hwk.
      destruct (elsewhere j ltac:(unfold used; by destruct Hwk as [-> | ->])). congruence.
    + destruct (other_cpu d Hd) as (-> & _). rewrite !Htask. intros Hci.
      destruct (si_current k Hs d i Hci) as (Hu & _). destruct (elsewhere i Hu) as [Ht _]. rewrite (decide_False (P := t = i)) by done.
      destruct (decide (t = j)) as [<-|]; [congruence|]. intros. apply (Hothers d Hd). by apply (Hp d i j).
  - intros j. rewrite Htask. destruct (decide (t = j)); [congruence|]. intros Hj. destruct (Hw j Hj) as (obj & Ho & He).
    exists obj. unfold exhausted in *. destruct Hobj as [-> ->]. done.
  - intros d i. destruct (Z.eq_dec d c) as [->|Hd]; [congruence|]. destruct (other_cpu d Hd) as (-> & _ & ->). intros Ho Hci.
    destruct (si_current k Hs d i Hci) as (Hu & _). destruct (elsewhere i Hu) as [Ht _].
    destruct (Hctx d i Ho Hci) as (L1 & L2 & L3). destruct (Hothers d Hd) as (_ & Hcc & _). unfold loaded.
    rewrite Htask, decide_False by done. rewrite (task_root_same k k' (tasks k !!! i) (tasks k !!! i)) by done.
    unfold cpu_ctx in Hcc. split_and!; congruence.
Qed.
End Register.
Lemma smp_prepare_ok k c : kernel_ok k -> 0 <= c < discovered_cpus k -> c_current (cpus k !!! c) = None ->
  c_idle (cpus k !!! c) = None -> kernel_ok (fst (smp_prepare k c)).
Proof.
  intros Hk Hc Hcur Hidle. unfold smp_prepare.
  pose proof (new_task_spec k idle_name (idle_entry k) 0 1 c true) as Hcr.
  destruct (new_task k idle_name (idle_entry k) 0 1 c true) as [k' [t|]]; cbn [fst].
  - inversion Hcr as [| |i k'' stack frame nm en ar fl Hi Hu Hnz Hst [St0 So Sp Sr Sd Sobj] Ht Hn _]; subst.
    set (k1 := upd_cpu c _ k'). set (x := (tasks k' !!! t) <| t_state := K_TASK_RUNNING |>).
    assert (x = (tasks k' !!! t) <| t_state := K_TASK_RUNNING |>) as Ex0 by done. clearbody x. pose proof Ex0 as Ex. rewrite Ht in Ex.
    assert (c_online (cpus k !!! c) = false) as Hon.
    { destruct (c_online (cpus k !!! c)) eqn:Ho; [|done]. by apply (si_online k (ko_sched k Hk)) in Ho. }
    assert (forall j, tasks (upd_task t (fun y => y <| t_state := K_TASK_RUNNING |>) k1) !!! j =
              if decide (t = j) then x else tasks k !!! j) as Htask.
    { intros j. rewrite tasks_upd_task. change (tasks k1) with (tasks k'). destruct (decide (t = j)) as [<-|Hne].
      - symmetry. exact Ex0.
      - by apply St0. }
    apply (register_ok k _ c t x); try done.
    + apply (next_fresh k t _ x 1); try done; by rewrite Ex.
    + by rewrite Ex.
    + by rewrite Ex.
    + by rewrite Ex.
    + intros d Hd. rewrite cpus_upd_task. unfold k1. rewrite cpus_upd_cpu, decide_False by congruence.
      destruct (So d). split_and!; [done|done|apply Sp].
    + rewrite cpus_upd_task. unfold k1. rewrite cpus_upd_cpu, decide_True by done. destruct (So c) as [Hkc _].
      unfold cpu_key in Hkc. split_and!; [done|done|]. cbn. congruence.
    + assert (slot_change k k' t (tasks k' !!! t)) as Hch.
      { apply slot_only_change; rewrite ?Ht; try done. by right. }
      exact (sc_next _ _ _ _ Hch).
  - inversion Hcr as [|i k'' Hu So Ht Hn|]; subst; [done|].
    apply (slot_ok k k' i (tasks k' !!! i)); [done| |by apply unused_detached|].
    + apply slot_only_change; rewrite ?Ht; try done. by left.
    + rewrite Ht. by intros [].
Qed.

Lemma ap_main_ok k c t : kernel_ok k -> c_idle (cpus k !!! c) = Some t -> c_current (cpus k !!! c) = Some t ->
  c_online (cpus k !!! c) = false -> t_process (tasks k !!! t) = None -> kernel_ok (ap_main k c).
Proof.
  intros Hk Hidle Hcur Hoff Hproc. unfold ap_main. rewrite Hidle. set (k1 := upd_cpu c _ k). set (k2 := upd_task t _ k1).
  set (k3 := upd_cpu c _ k2).
  assert (forall j, tasks k3 !!! j = if decide (t = j) then (tasks k !!! j) <| t_state := K_TASK_RUNNING |> else tasks k !!! j) as Ht.
  { intros j. change (tasks k3) with (tasks k2). unfold k2. rewrite tasks_upd_task. done. }
  assert (forall d, d <> c -> cpus k3 !!! d = cpus k !!! d) as Hd.
  { intros d Hne. unfold k3. rewrite cpus_upd_cpu, decide_False by congruence. change (cpus k2) with (cpus k1).
    unfold k1. by rewrite cpus_upd_cpu, decide_False by congruence. }
  assert (c_idle (cpus k3 !!! c) = Some t /\ c_current (cpus k3 !!! c) = Some t /\
    c_work_pending (cpus k3 !!! c) = c_work_pending (cpus k !!! c) /\ c_cr3 (cpus k3 !!! c) = kernel_pml4 k /\
    c_rsp0 (cpus k3 !!! c) = t_stack_top (tasks k2 !!! t) /\ c_syscall_stack (cpus k3 !!! c) = t_stack_top (tasks k2 !!! t))
    as (C1 & C2 & C3 & C4 & C5 & C6).
  { unfold k3. rewrite cpus_upd_cpu, decide_True by done. change (cpus k2 !!! c) with (cpus k1 !!! c).
    unfold k1. rewrite cpus_upd_cpu, decide_True by done. split_and!; done. }
  change (tasks k2) with (tasks k3) in C5, C6.
  destruct Hk as [[Hr Hw Hid Hun Hrun Hcu Hi Hio Hm Hn Hcp Hhm Hon] Hp Hwt Hctx]. destruct (Hi c t Hidle) as (I1 & I2 & I3).
  assert (used (tasks k !!! t)) as Hut by (unfold used; by destruct I3 as [-> | ->]).
  assert (forall j, inv_key (tasks k3 !!! j) = inv_key (tasks k !!! j) /\ mail_ok (tasks k3 !!! j) /\
    (used (tasks k3 !!! j) <-> used (tasks k !!! j))) as Hj.
  { intros j. rewrite Ht. destruct (decide (t = j)) as [<-|]; split_and!; try done; apply Hm. }
  assert (forall d, c_idle (cpus k3 !!! d) = c_idle (cpus k !!! d) /\ c_current (cpus k3 !!! d) = c_current (cpus k !!! d) /\
    c_work_pending (cpus k3 !!! d) = c_work_pending (cpus k !!! d)) as Hcd.
  { intros d. destruct (Z.eq_dec d c) as [->|Hne]; [split_and!; congruence|by rewrite Hd]. }
  assert (forall j, t_id (tasks k3 !!! j) = t_id (tasks k !!! j) /\ t_cpu (tasks k3 !!! j) = t_cpu (tasks k !!! j) /\
    t_weight (tasks k3 !!! j) = t_weight (tasks k !!! j) /\ t_idle (tasks k3 !!! j) = t_idle (tasks k !!! j)) as Hf.
  { intros j. destruct (Hj j) as (Hkj & _). unfold inv_key in Hkj. split_and!; congruence. }
  split; [split| | |]; try done.
  - intros j. rewrite (proj2 (proj2 (Hj j))). apply Hr.
  - intros j. destruct (Hf j) as (_ & _ & -> & _). rewrite (proj2 (proj2 (Hj j))). apply Hw.
  - intros j. destruct (Hf j) as (-> & _). rewrite (proj2 (proj2 (Hj j))). apply Hid.
  - intros j1 j2. destruct (Hf j1) as (-> & _), (Hf j2) as (-> & _). rewrite (proj2 (proj2 (Hj j1))), (proj2 (proj2 (Hj j2))). apply Hun.
  - intros j. destruct (Hf j) as (_ & -> & _). destruct (Hcd (t_cpu (tasks k !!! j))) as (_ & -> & _). rewrite Ht.
    destruct (decide (t = j)) as [<-|]; [intros _; congruence|apply Hrun].
  - intros d j. destruct (Hf j) as (_ & -> & _), (Hcd d) as (-> & -> & _). rewrite (proj2 (proj2 (Hj j))). apply Hcu.
  - intros d j. destruct (Hf j) as (_ & -> & _ & ->), (Hcd d) as (-> & _). intros Hij. destruct (Hi d j Hij) as (H1 & H2 & H3).
    split_and!; [done|done|]. rewrite Ht. destruct (decide (t = j)); [by right|done].
  - intros j. destruct (Hf j) as (_ & -> & _ & ->). rewrite (proj2 (proj2 (Hj j))). destruct (Hcd (t_cpu (tasks k !!! j))) as (-> & _). apply Hio.
  - apply Hj.
  - intros d. destruct (Hcd d) as (-> & _). apply Hcp.
  - intros j. destruct (Hf j) as (_ & -> & _). rewrite (proj2 (proj2 (Hj j))). destruct (Hcd (t_cpu (tasks k !!! j))) as (-> & _). apply Hhm.
  - intros d. destruct (Hcd d) as (-> & _). destruct (Z.eq_dec d c) as [->|Hne]; [congruence|rewrite Hd by done; apply Hon].
  - intros d i j. destruct (Hf i) as (_ & _ & _ & ->), (Hf j) as (_ & -> & _ & ->), (Hcd d) as (_ & -> & ->). intros A B C D E.
    apply (Hp d i j); try done. rewrite Ht in E. destruct (decide (t = j)) as [<-|]; [congruence|done].
  - intros j. rewrite Ht. destruct (decide (t = j)) as [<-|]; [done|]. apply Hwt.
  - intros d i Ho. destruct (Hcd d) as (_ & -> & _). intros Hci. destruct (Z.eq_dec d c) as [->|Hne].
    + assert (i = t) as -> by congruence. unfold loaded. rewrite C4, C5, C6. split_and!; [|done|done].
      unfold task_root. rewrite Ht, decide_True by done. cbn. by rewrite Hproc.
    + rewrite Hd in Ho by done. destruct (Hctx d i Ho Hci) as (L1 & L2 & L3). unfold loaded. rewrite Hd by done.
      assert (t <> i) as Hti.
      { intros <-. destruct (Hcu d t Hci) as (_ & Hx & _). congruence. }
      rewrite Ht, decide_False by done. split_and!; done.
Qed.

(** ** The first kernel state *)
Definition boot_task (fx : Z) : task :=
  task0 <| t_id := 1 |> <| t_cpu := 0 |> <| t_weight := 1024 |> <| t_state := K_TASK_RUNNING |>
        <| t_name := boot_name |> <| t_arch := fx |>.
Lemma boot_used j (k : kernel St) i x fx : (forall j, tasks k !!! j = if decide (0 = j) then boot_task fx else if decide (i = j) then x else task0) ->
  used (tasks k !!! j) -> j = 0 \/ (j = i /\ 0 <> j).
Proof.
  intros Ht. rewrite Ht. destruct (decide (0 = j)) as [<-|]; [by left|]. destruct (decide (i = j)) as [<-|]; [by right|by intros []].
Qed.
Section Boot.
Context (k : kernel St) (i : Z) (x : task) (fx pml4 disc : Z).
Hypothesis Hi : 0 < i < K_MAX_TASKS.
Hypothesis Hdisc : 0 < disc.
Hypothesis Htask : forall j, tasks k !!! j = if decide (0 = j) then boot_task fx else if decide (i = j) then x else task0.
Hypothesis Hx : t_id x = 2 /\ t_cpu x = 0 /\ t_weight x = 1 /\ t_idle x = true /\ t_state x = K_TASK_READY /\ mail_ok x.
Hypothesis Hcpu : forall d, c_idle (cpus k !!! d) = (if decide (0 = d) then Some i else None) /\
  c_current (cpus k !!! d) = (if decide (0 = d) then Some 0 else None) /\
  c_online (cpus k !!! d) = bool_decide (0 = d) /\ c_rsp0 (cpus k !!! d) = 0 /\ c_syscall_stack (cpus k !!! d) = 0.
Hypothesis Hcr3 : c_cr3 (cpus k !!! 0) = kernel_pml4 k.
Hypothesis Hk : discovered_cpus k = disc /\ next_task_id k = 3.

Lemma boot_current d j : c_current (cpus k !!! d) = Some j -> d = 0 /\ j = 0.
Proof. destruct (Hcpu d) as (_ & -> & _). destruct (decide (0 = d)) as [<-|]; [by intros [= <-]|done]. Qed.
Lemma boot_idle d j : c_idle (cpus k !!! d) = Some j -> d = 0 /\ j = i.
Proof. destruct (Hcpu d) as (-> & _). destruct (decide (0 = d)) as [<-|]; [by intros [= <-]|done]. Qed.
Lemma boot_at0 : tasks k !!! 0 = boot_task fx.
Proof. by rewrite Htask, decide_True. Qed.
Lemma boot_ati : tasks k !!! i = x.
Proof. rewrite Htask, decide_False by lia. by rewrite decide_True. Qed.
Lemma boot_sched : sched_inv k.
Proof.
  destruct Hx as (X1 & X2 & X3 & X4 & X5 & X6), Hk as [K1 K2]. pose proof boot_at0 as T0. pose proof boot_ati as Ti.
  assert (c_idle (cpus k !!! 0) = Some i /\ c_current (cpus k !!! 0) = Some 0) as [I0 C0].
  { destruct (Hcpu 0) as (-> & -> & _). by rewrite !decide_True. }
  split.
  - intros j Hu. destruct (boot_used j k i x fx Htask Hu) as [->|[-> _]]; [done|lia].
  - intros j. rewrite Htask. destruct (decide (0 = j)); [done|]. destruct (decide (i = j)); [|done]. rewrite X3. lia.
  - intros j Hu. rewrite K2. destruct (boot_used j k i x fx Htask Hu) as [->|[-> _]]; [rewrite T0; split; [done|by right]|].
    rewrite Ti, X1. split; [done|by right].
  - intros j1 j2 H1 H2. destruct (boot_used j1 k i x fx Htask H1) as [->|[-> _]], (boot_used j2 k i x fx Htask H2) as [->|[-> _]];
      try done; rewrite T0, Ti, X1; done.
  - intros j Hs. destruct (boot_used j k i x fx Htask ltac:(unfold used; by rewrite Hs)) as [->|[-> _]]; [by rewrite T0|].
    rewrite Ti in Hs. congruence.
  - intros d j Hc. destruct (boot_current d j Hc) as [-> ->]. rewrite T0, I0. done.
  - intros d j Hc. destruct (boot_idle d j Hc) as [-> ->]. rewrite Ti. split_and!; [done|done|by left].
  - intros j Hu Hj. destruct (boot_used j k i x fx Htask Hu) as [->|[-> _]]; [by rewrite T0 in Hj|]. by rewrite Ti, X2.
  - intros j. rewrite Htask. destruct (decide (0 = j)); [done|]. destruct (decide (i = j)); [apply X6|done].
  - rewrite K2. lia.
  - intros d Hd. destruct (Hcpu d) as (Hi' & _). rewrite Hi' in Hd. destruct (decide (0 = d)) as [<-|]; [lia|done].
  - intros j Hu. destruct (boot_used j k i x fx Htask Hu) as [->|[-> _]]; [rewrite T0; change (t_cpu (boot_task fx)) with 0|rewrite Ti, X2]; by rewrite I0.
  - intros d. destruct (Hcpu d) as (-> & _ & -> & _). intros Hd. apply bool_decide_eq_true_1 in Hd as <-. by rewrite decide_True.
Qed.
Lemma boot_ok : kernel_ok k.
Proof.
  destruct Hx as (X1 & X2 & X3 & X4 & X5 & X6). pose proof boot_at0 as T0. split; [apply boot_sched| | |].
  - intros d j l Hc Hid. destruct (boot_current d j Hc) as [-> ->]. by rewrite T0 in Hid.
  - intros j. rewrite Htask. destruct (decide (0 = j)); [done|]. destruct (decide (i = j)); [congruence|done].
  - intros d j _ Hc. destruct (boot_current d j Hc) as [-> ->]. unfold loaded. destruct (Hcpu 0) as (_ & _ & _ & -> & ->).
    rewrite T0, Hcr3. done.
Qed.
End Boot.
Lemma init_ok pages ram disc pml4 fx bootstrap idle k : 0 < disc ->
  k_scheduler_init (kernel_boot pages ram disc pml4 fx bootstrap idle) = (k, 0) -> kernel_ok k.
Proof.
  intros Hdisc. unfold k_scheduler_init. change (negb (interrupts_ready _) || scheduler_ready _) with false. cbv iota.
  set (k1 := upd_cpu 0 _ _). set (e := idle_entry k1). clearbody e.
  assert (forall j, tasks k1 !!! j = if decide (0 = j) then boot_task fx else task0) as T1.
  { intros j. change (tasks k1) with (tmod 0 (fun t => t <| t_id := 1 |> <| t_cpu := 0 |> <| t_weight := 1024 |>
      <| t_state := K_TASK_RUNNING |> <| t_name := boot_name |> <| t_arch := fx |>) ∅).
    rewrite tmod_lookup. by destruct (decide (0 = j)). }
  assert (forall d, cpus k1 !!! d = if decide (0 = d) then cpu0 <| c_online := true |> <| c_cr3 := pml4 |>
     <| c_current := Some 0 |> <| c_stack_owner := Some 0 |> else cpu0) as C1.
  { intros d. unfold k1. rewrite cpus_upd_cpu. destruct (decide (0 = d)) as [<-|Hd]; [done|].
    change (({[0 := cpu0 <| c_online := true |> <| c_cr3 := pml4 |>]} : table cpu_state) !!! d = cpu0).
    unfold lookup_total, map_lookup_total. by rewrite lookup_singleton_ne. }
  assert (next_task_id k1 = 2 /\ discovered_cpus k1 = disc /\ kernel_pml4 k1 = pml4) as (N1 & D1 & P1) by done. clearbody k1.
  pose proof (new_task_spec k1 idle_name e 0 1 0 true) as Hc.
  destruct (new_task k1 idle_name e 0 1 0 true) as [k2 [i|]]; [|done]. intros [= <-].
  inversion Hc as [| |j k'' stack frame nm en ar fl Hi Hu Hnz Hst [St0 So Sp Sr Sd Sobj] Ht Hn _]; subst.
  assert (i <> 0) as Hi0 by (intros ->; by rewrite T1, decide_True in Hu).
  apply (boot_ok _ i (tasks k2 !!! i) fx (discovered_cpus k1)); [lia|done| | | | |].
  - intros j. change (tasks k2 !!! j = if decide (0 = j) then boot_task fx else if decide (i = j) then tasks k2 !!! i else task0).
    destruct (decide (i = j)) as [<-|Hj]; [by rewrite decide_False|]. rewrite St0, T1 by done. done.
  - rewrite Ht, N1. done.
  - intros d. change (cpus _ !!! d) with (tmod 0 (fun s => s <| c_idle := Some i |>) (cpus k2) !!! d). rewrite tmod_lookup.
    destruct (So d) as [Hkc Hcc]. rewrite C1 in Hkc, Hcc. unfold cpu_key, cpu_ctx in *.
    destruct (decide (0 = d)) as [<-|Hd].
    + rewrite bool_decide_true by done. cbn in Hkc, Hcc |- *. split_and!; congruence.
    + rewrite bool_decide_false by done. cbn in Hkc, Hcc |- *. split_and!; congruence.
  - change (cpus _ !!! 0) with (tmod 0 (fun s => s <| c_idle := Some i |>) (cpus k2) !!! 0). rewrite tmod_eq.
    destruct (So 0) as [_ Hcc]. rewrite C1, decide_True in Hcc by done. unfold cpu_ctx in *. destruct Sr as (Sr1 & _).
    transitivity (kernel_pml4 k2); [cbn in Hcc |- *; congruence|reflexivity].
  - split; [exact Sd|]. change (next_task_id k2 = 3). by rewrite Hn, N1.
Qed.

(** After the wake-up of [obj]: its waiters are ready and announced. *)
Lemma woken_complete k k0 k' obj i : sched_inv k -> tasks k0 = tasks k -> woke k0 k' (waits_on k0 obj) ->
  (t_state (tasks k !!! i) = K_TASK_BLOCKED -> t_wait_object (tasks k !!! i) = Some obj ->
     t_state (tasks k' !!! i) = K_TASK_READY /\ c_work_pending (cpus k' !!! t_cpu (tasks k !!! i)) = true) /\
  ~ (t_state (tasks k' !!! i) = K_TASK_BLOCKED /\ t_wait_object (tasks k' !!! i) = Some obj).
Proof.
  intros Hs Et Hw. rewrite <- Et.
  assert (t_state (tasks k0 !!! i) = K_TASK_BLOCKED -> t_wait_object (tasks k0 !!! i) = Some obj -> waits_on k0 obj i = true) as Hon.
  { intros Hb Ho. unfold waits_on. rewrite Hb, Ho, !bool_decide_true, !andb_true_r by done. rewrite Et in Hb.
    destruct (si_range k Hs i ltac:(unfold used; by rewrite Hb)) as [H1 H2].
    by rewrite (proj2 (Z.leb_le _ _) H1), (proj2 (Z.ltb_lt _ _) H2). }
  pose proof (wo_task _ _ _ Hw i) as Ht. split.
  - intros Hb Ho. specialize (Hon Hb Ho). rewrite Hon in Ht. split; [by apply readied_state in Ht|by apply (wo_announce _ _ _ Hw)].
  - intros [Hb Ho]. destruct (waits_on k0 obj i) eqn:Hwi; [apply readied_state in Ht; congruence|].
    rewrite Ht in Hb, Ho. by specialize (Hon Hb Ho).
Qed.
End Calm.
