(* ===== verification/Kernel.v ===== *)
(** The kernel as a transition system: every operation of [Sched] and [Sync] on
    any CPU, interleaved at the granularity of [sched_lock], and what holds in
    every reachable state. *)
From S2P Require Import Prelude Klib Pmm PageAlloc State Sched SchedSpec Sync KernelInv.

(** An operation with its arguments; the CPU comes first. *)
Inductive kernel_op :=
  | Op_schedule (c now frame : Z) (forced : bool)
  | Op_handoff (c : Z)
  | Op_create (name : option (list Z)) (entry arg weight cpu : Z) (id : bool)
  | Op_sleep (c now timer_hz ms : Z)
  | Op_exit (c code : Z)
  | Op_reap (id : Z)
  | Op_preempt (c : Z) (disable : bool)
  | Op_trylock (c m : Z)
  | Op_lock (c m : Z)
  | Op_unlock (c m : Z)
  | Op_sem_init (s n : Z)
  | Op_trywait (s : Z)
  | Op_wait (c s : Z)
  | Op_post (s : Z)
  | Op_send (c target : Z) (data : option (list Z))
  | Op_receive (c : Z) (msg : bool)
  | Op_grant (c pid target : Z)
  | Op_smp_prepare (c : Z)
  | Op_ap_main (c : Z).

Section Kernel.
Context {St : Type} `{PageSource St}.
Implicit Types k : kernel St.

(** [None]: the kernel halts, or dereferences a null pointer. *)
Definition run_op (k : kernel St) (o : kernel_op) : option (kernel St) :=
  match o with
  | Op_schedule c now frame forced => option_map fst (kernel_schedule k c now frame forced)
  | Op_handoff c => Some (stack_handoff k c)
  | Op_create name entry arg weight cpu id => Some (fst (fst (k_task_create k name entry arg weight cpu id)))
  | Op_sleep c now hz ms => Some (fst (k_sleep k c now hz ms))
  | Op_exit c code => k_task_exit k c code
  | Op_reap id => Some (fst (fst (k_task_reap k id)))
  | Op_preempt c disable => Some (if disable then k_preempt_disable k c else k_preempt_enable k c)
  | Op_trylock c m => Some (fst (k_mutex_trylock k c m))
  | Op_lock c m => Some (fst (k_mutex_lock k c m))
  | Op_unlock c m => Some (fst (k_mutex_unlock k c m))
  | Op_sem_init s n => Some (k_sem_init k s n)
  | Op_trywait s => Some (fst (k_sem_trywait k s))
  | Op_wait c s => Some (fst (k_sem_wait k c s))
  | Op_post s => Some (k_sem_post k s)
  | Op_send c target data => Some (fst (k_ipc_send k c target data))
  | Op_receive c msg => Some (fst (fst (k_ipc_receive k c msg)))
  | Op_grant c pid target => Some (fst (k_ipc_grant k c pid target))
  | Op_smp_prepare c => Some (fst (smp_prepare k c))
  | Op_ap_main c => Some (ap_main k c)
  end.

Lemma run_create k name entry arg weight cpu id :
  run_op k (Op_create name entry arg weight cpu id) = Some (fst (fst (k_task_create k name entry arg weight cpu id))).
Proof. done. Qed.
(** How the rest of the kernel uses the operations: the idle task never blocks
    or sleeps, task weights are unsigned, a semaphore is initialised before
    anyone waits on it, and a CPU is prepared once, before it starts. *)
Definition op_allowed (k : kernel St) (o : kernel_op) : Prop :=
  match o with
  | Op_create _ _ _ weight _ _ => 0 <= weight
  | Op_sleep c _ _ _ | Op_lock c _ | Op_wait c _ => runs_task k c
  | Op_sem_init s _ => forall i, waits_on k (Wait_semaphore s) i = false
  | Op_smp_prepare c => 0 <= c < discovered_cpus k /\ c_current (cpus k !!! c) = None /\ c_idle (cpus k !!! c) = None
  | Op_ap_main c => exists t, c_idle (cpus k !!! c) = Some t /\ c_current (cpus k !!! c) = Some t /\
                      c_online (cpus k !!! c) = false /\ t_process (tasks k !!! t) = None
  | _ => True
  end.

Lemma run_op_ok k o k' : kernel_ok k -> op_allowed k o -> run_op k o = Some k' -> kernel_ok k'.
Proof.
  intros Hk Ha. destruct o; cbn [run_op op_allowed] in *.
  - destruct (kernel_schedule k c now frame forced) as [[k1 f1]|] eqn:Hs; [|done]. cbn [option_map fst]. intros [= <-].
    by apply (schedule_ok k c now frame forced k1 f1).
  - intros [= <-]. by apply handoff_ok.
  - intros [= <-]. by apply create_ok.
  - intros [= <-]. by apply sleep_ok.
  - by apply exit_ok.
  - intros [= <-]. by apply reap_ok.
  - intros [= <-]. destruct disable; [by apply preempt_disable_ok|by apply preempt_enable_ok].
  - intros [= <-]. by apply mutex_trylock_ok.
  - intros [= <-]. by apply mutex_lock_ok.
  - intros [= <-]. by apply mutex_unlock_ok.
  - intros [= <-]. by apply sem_init_ok.
  - intros [= <-]. by apply sem_trywait_ok.
  - intros [= <-]. by apply sem_wait_ok.
  - intros [= <-]. by apply sem_post_ok.
  - intros [= <-]. by apply ipc_send_ok.
  - intros [= <-]. by apply ipc_receive_ok.
  - intros [= <-]. by apply ipc_grant_ok.
  - intros [= <-]. destruct Ha as (? & ? & ?). by apply smp_prepare_ok.
  - intros [= <-]. destruct Ha as (t & ? & ? & ? & ?). by apply (ap_main_ok k c t).
Qed.

(** States reachable from a successful [k_scheduler_init]. *)
Inductive kernel_reachable : kernel St -> Prop :=
  | Reach_init pages ram disc pml4 fx bootstrap idle k : 0 < disc ->
      k_scheduler_init (kernel_boot pages ram disc pml4 fx bootstrap idle) = (k, 0) -> kernel_reachable k
  | Reach_step k o k' : kernel_reachable k -> op_allowed k o -> run_op k o = Some k' -> kernel_reachable k'.
(** A script of operations whose side conditions are checked as it runs. *)
Definition runs_taskb (k : kernel St) (c : Z) : bool :=
  match c_current (cpus k !!! c) with Some i => negb (t_idle (tasks k !!! i)) | None => false end.
Definition allowedb (k : kernel St) (o : kernel_op) : bool :=
  match o with
  | Op_create _ _ _ weight _ _ => 0 <=? weight
  | Op_sleep c _ _ _ | Op_lock c _ | Op_wait c _ => runs_taskb k c
  | Op_sem_init _ _ | Op_smp_prepare _ | Op_ap_main _ => false
  | _ => true
  end.
Fixpoint run_script (k : kernel St) (ops : list kernel_op) : option (kernel St) :=
  match ops with
  | [] => Some k
  | o :: ops => if allowedb k o then match run_op k o with Some k' => run_script k' ops | None => None end else None
  end.
Lemma runs_taskb_true k c : runs_taskb k c = true -> runs_task k c.
Proof.
  unfold runs_taskb, runs_task. destruct (c_current (cpus k !!! c)) as [i|]; [|done]. intros Hi. exists i.
  by apply negb_true_iff in Hi.
Qed.
Lemma allowedb_true k o : allowedb k o = true -> op_allowed k o.
Proof. destruct o; cbn; try done; intros Ha; first [by apply runs_taskb_true|lia]. Qed.
Lemma script_reachable ops : forall k k', kernel_reachable k -> run_script k ops = Some k' -> kernel_reachable k'.
Proof.
  induction ops as [|o ops IH]; intros k k' Hk; cbn [run_script]; [by intros [= <-]|].
  destruct (allowedb k o) eqn:Ha; [|done]. destruct (run_op k o) as [k1|] eqn:Hr; [|done].
  apply IH. eapply Reach_step; [exact Hk|by apply allowedb_true|exact Hr].
Qed.
Lemma reachable_ok k : kernel_reachable k -> kernel_ok k.
Proof. induction 1 as [pages ram disc pml4 fx bs idle k Hd Hi|k o k' _ IH Ha Hr]; [by eapply init_ok|by eapply run_op_ok]. Qed.
End Kernel.

(** ** A small concrete system, for the examples *)

(** Pages handed out in order, never reused. *)
Definition bump_source : PageSource Z := {|
  pa_alloc s ram n max := (s + n * 4096, ram, s);
  pa_alloc_aligned s ram n a max := let r := ALIGN_UP s (a * 4096) in (r + n * 4096, ram, r);
  pa_free s _ _ := s;
  pa_ok _ := True;
  pa_available s p := s / 4096 <=? p;
  pa_managed _ _ := true
|}.
#[local] Existing Instance bump_source.
Definition demo_boot : kernel Z * Z := k_scheduler_init (kernel_boot 0x100000 ∅ 1 0x5000 7 0x2000 0x3000).
Definition demo0 : kernel Z := fst demo_boot.
Definition task_name : list Z := [116].
Definition spawn (weight : Z) : kernel_op := Op_create (Some task_name) 0x4000 0 weight 0 true.
Definition switch : kernel_op := Op_schedule 0 5 0x7000 true.
Definition script (ops : list kernel_op) : kernel Z := default demo0 (run_script demo0 ops).
Lemma demo_boot_eq : k_scheduler_init (kernel_boot 0x100000 ∅ 1 0x5000 7 0x2000 0x3000) = (demo0, 0).
Proof.
  rewrite (surjective_pairing (k_scheduler_init _)). apply pair_equal_spec.
  split; [unfold demo0, demo_boot; reflexivity|vm_compute; reflexivity].
Qed.
Lemma demo0_reachable : kernel_reachable demo0.
Proof. exact (Reach_init 0x100000 ∅ 1 0x5000 7 0x2000 0x3000 demo0 eq_refl demo_boot_eq). Qed.
Lemma demo_script ops : (if run_script demo0 ops is Some _ then True else False) -> kernel_reachable (script ops).
Proof.
  unfold script. destruct (run_script demo0 ops) as [k|] eqn:Hr; [|done]. intros _. cbn [default].
  apply (script_reachable ops demo0); [exact demo0_reachable|exact Hr].
Qed.

(** ** Properties of the reachable states *)
Section Props.
Context {St : Type} `{PageSource St}.
Implicit Types k : kernel St.


(** C10: no lost wake-up.  When a mutex is unlocked by its owner, or a semaphore
    posted, every task that was blocked on it is READY and its CPU has work
    pending; no task stays blocked on it. *)
Theorem wakeups_complete k c m s :
  kernel_reachable k ->
  (forall k', k_mutex_unlock k c m = (k', 0) -> forall i,
     (t_state (tasks k !!! i) = K_TASK_BLOCKED -> t_wait_object (tasks k !!! i) = Some (Wait_mutex m) ->
        t_state (tasks k' !!! i) = K_TASK_READY /\ c_work_pending (cpus k' !!! t_cpu (tasks k !!! i)) = true) /\
     ~ (t_state (tasks k' !!! i) = K_TASK_BLOCKED /\ t_wait_object (tasks k' !!! i) = Some (Wait_mutex m))) /\
  (s <> 0 -> forall i,
     (t_state (tasks k !!! i) = K_TASK_BLOCKED -> t_wait_object (tasks k !!! i) = Some (Wait_semaphore s) ->
        t_state (tasks (k_sem_post k s) !!! i) = K_TASK_READY /\
        c_work_pending (cpus (k_sem_post k s) !!! t_cpu (tasks k !!! i)) = true) /\
     ~ (t_state (tasks (k_sem_post k s) !!! i) = K_TASK_BLOCKED /\
        t_wait_object (tasks (k_sem_post k s) !!! i) = Some (Wait_semaphore s))).
Proof.
  intros Hk. pose proof (ko_sched k (reachable_ok k Hk)) as Hs. split.
  - intros k'. unfold k_mutex_unlock. destruct (m =? 0); [done|]. destruct (_ || _); [done|]. intros He i. apply pair_equal_spec in He as [<- _].
    by apply (woken_complete k (set_owner m 0 k) _ (Wait_mutex m) i Hs), wake_object_spec.
  - intros Hs0 i. unfold k_sem_post. rewrite (proj2 (Z.eqb_neq s 0)) by done. set (k0 := if negb _ then _ else k).
    assert (tasks k0 = tasks k) as E by (subst k0; by destruct (negb _)).
    apply (woken_complete k k0 _ (Wait_semaphore s) i Hs E), wake_object_spec.
Qed.
End Props.

#[local] Existing Instance bump_source.
Definition two_tasks : list kernel_op := [spawn 1024; spawn 512].
(** Task 0 holds mutex 0x9000, task 2 waits for it. *)
Definition contended : list kernel_op :=
  two_tasks ++ [Op_lock 0 0x9000; switch; Op_lock 0 0x9000; switch; switch].
Lemma wakeups_complete_witness :
  t_state (tasks (script contended) !!! 2) = K_TASK_BLOCKED /\
  snd (k_mutex_unlock (script contended) 0 0x9000) = 0 /\
  t_state (tasks (fst (k_mutex_unlock (script contended) 0 0x9000)) !!! 2) = K_TASK_READY.
Proof.
  split; [by vm_compute|]. assert (snd (k_mutex_unlock (script contended) 0 0x9000) = 0) as H0 by (by vm_compute).
  split; [exact H0|].
  assert (kernel_reachable (script contended)) as Hk by (apply demo_script; by vm_compute).
  apply (proj1 (wakeups_complete (script contended) 0 0x9000 1 Hk) (fst (k_mutex_unlock (script contended) 0 0x9000))).
  - rewrite <- H0 at 2. apply surjective_pairing.
  - by vm_compute.
  - by vm_compute.
Defined.
