(* ===== verification/KernelProps.v ===== *)
(** What every interleaving of kernel operations guarantees about mutexes, the
    mailbox and the life of a task. *)
From S2P Require Import Prelude Klib PageAlloc State Sched SchedSpec Sync KernelInv Kernel.

Section KernelProps.
Context {St : Type} `{PageSource St}.
Implicit Types k : kernel St.

(** ** Who may change a mutex *)
Lemma schedule_mutexes k c now frame forced k' f' :
  sched_inv k -> kernel_schedule k c now frame forced = Some (k', f') -> mutexes k' = mutexes k.
Proof.
  intros Hi Hs. destruct (c_current (cpus k !!! c)) as [old|] eqn:Hcur.
  2: { revert Hs. unfold kernel_schedule, current_task. rewrite Hcur. intros He. by injection He as <- _. }
  destruct (si_current k Hi c old Hcur) as (_ & Hc & _).
  destruct (schedule_cases k c now frame forced old Hcur ltac:(done)) as [k1 _ _ _ ->|k1 k2 sl dl Hp _ _ ->|k2 sl dl r Hp _ ->].
  - injection Hs as <- _. apply (sk_mutexes _ _ (proj1 (idled_same k c old))).
  - injection Hs as <- _. apply (sk_mutexes _ _ (pp_keys _ _ _ _ _ _ _ _ _ Hp)).
  - pose proof (prepared_inv _ _ _ _ _ _ _ _ _ Hp Hi) as Hi2.
    assert (c_current (cpus k2 !!! c) = Some old) as Hcur2 by (by rewrite (prepared_current _ _ _ _ _ _ _ _ _ c Hp)).
    destruct (dispatch_spec k2 c old sl dl k' f' (fun i => proj1 (proj1 (si_weight k2 Hi2 i))) Hcur2 Hs) as (b & D & _).
    rewrite (sk_mutexes _ _ (di_keys _ _ _ _ _ _ D)). apply (sk_mutexes _ _ (pp_keys _ _ _ _ _ _ _ _ _ Hp)).
Qed.
Lemma floor_mutexes k cpu : mutexes (fst (cpu_floor k cpu)) = mutexes k.
Proof. apply (sk_mutexes _ _ (proj1 (proj2 (proj2 (proj2 (cpu_floor_same k cpu)))))). Qed.
Lemma mutexes_upd_task i f k : mutexes (upd_task i f k) = mutexes k.
Proof. reflexivity. Qed.
Lemma mutexes_context k i e : mutexes (arch_task_context_init k i e) = mutexes k.
Proof. reflexivity. Qed.
Lemma mutexes_pages k p m : mutexes (k <| k_pages := p |> <| k_ram := m |>) = mutexes k.
Proof. reflexivity. Qed.
Lemma mutexes_next k n : mutexes (k <| next_task_id := n |>) = mutexes k.
Proof. reflexivity. Qed.
Lemma mutexes_announce k e cpu f : mutexes (emit e (upd_cpu cpu f k)) = mutexes k.
Proof. reflexivity. Qed.
Lemma new_task_mutexes k name entry arg weight cpu idle :
  mutexes (fst (new_task k name entry arg weight cpu idle)) = mutexes k.
Proof.
  unfold new_task. destruct (_ =? 0); [reflexivity|]. destruct (find_range _ _ _) as [i|]; [|reflexivity].
  destruct (pa_alloc _ _ _ _) as [[p m] stack]. cbv zeta. destruct (stack =? 0).
  { cbn [fst]. by rewrite mutexes_pages, mutexes_upd_task. }
  match goal with |- context [cpu_floor ?x cpu] => remember x as k1 eqn:E1 end.
  assert (mutexes k1 = mutexes k) as H1.
  { by rewrite E1, mutexes_upd_task, mutexes_context, mutexes_next, mutexes_upd_task, mutexes_pages, mutexes_upd_task. }
  clear E1. rewrite (floor_fst k1 cpu). pose proof (floor_mutexes k1 cpu) as Hf.
  destruct idle; cbn [fst]; rewrite ?mutexes_announce, mutexes_upd_task; congruence.
Qed.

(** The owner of [m], 0 when it is free. *)
Definition owner (k : kernel St) (m : Z) : Z := zget (mutexes k) m.
(** Operations that leave every mutex alone. *)
Definition mutex_op (o : kernel_op) : option (Z * Z) :=
  match o with Op_trylock c m | Op_lock c m | Op_unlock c m => Some (c, m) | _ => None end.
Lemma other_mutexes k o k' : kernel_ok k -> mutex_op o = None -> run_op k o = Some k' -> mutexes k' = mutexes k.
Proof.
  intros Hk Ho. destruct o; cbn [run_op mutex_op] in *; try done.
  - destruct (kernel_schedule k c now frame forced) as [[k1 f1]|] eqn:Hs; [|done]. cbn [option_map fst]. intros [= <-].
    by eapply schedule_mutexes; [apply ko_sched|].
  - by intros [= <-].
  - intros He. injection He as <-. unfold k_task_create. destruct name as [name|]; [|done]. destruct (_ || _); [done|].
    pose proof (new_task_mutexes k name entry arg weight cpu false) as Hn. by destruct (new_task _ _ _ _ _ _ _) as [? []].
  - intros He. injection He as <-. unfold k_sleep. destruct (_ || _); [done|]. destruct (current_task k c); [|done]. by destruct (negb _).
  - unfold k_task_exit. destruct (current_task k c) as [i|]; [|done]. destruct (_ || _); [done|]. cbv zeta.
    destruct (t_process _); intros He; by injection He as <-.
  - intros He. injection He as <-. unfold k_task_reap. destruct (find_range _ _ _) as [i|]; [|done]. cbv zeta.
    destruct (negb _); [done|]. destruct (any_range _ _ _); [done|]. destruct (bool_decide _); [done|]. cbn [fst].
    unfold free_task. by destruct (_ =? 0).
  - intros He. injection He as <-. destruct disable; [unfold k_preempt_disable; by destruct (current_task k c)|].
    unfold k_preempt_enable. destruct (current_task k c); [by destruct (negb _)|done].
  - intros He. injection He as <-. unfold k_sem_init. by destruct (s =? 0).
  - intros He. injection He as <-. unfold k_sem_trywait. destruct (s =? 0); [done|]. cbv zeta. by destruct (negb _).
  - intros He. injection He as <-. unfold k_sem_wait. destruct (current_task k c); [|done]. destruct (s =? 0); [done|].
    cbv zeta. destruct (negb _); [done|]. by destruct (negb _).
  - intros He. injection He as <-. unfold k_sem_post. destruct (s =? 0); [done|]. cbv zeta.
    set (k0 := if negb _ then _ else k). rewrite (sk_mutexes _ _ (wo_keys _ _ _ (wake_object_spec k0 (Wait_semaphore s)))).
    subst k0. by destruct (negb _).
  - intros He. injection He as <-. unfold k_ipc_send. destruct (current_task k c), data as [data|]; try done.
    destruct (_ <? _); [done|]. cbv zeta. destruct (negb _); [done|]. destruct (find_range _ _ _); [|done]. by destruct (_ =? _).
  - intros He. injection He as <-. unfold k_ipc_receive. destruct (current_task k c); [|done]. destruct (negb _); [done|]. cbv zeta.
    by destruct (_ =? _).
  - intros He. injection He as <-. unfold k_ipc_grant. destruct (match _ with Some _ => _ | None => _ end); [done|].
    destruct (find_range _ _ _); [|done]. cbv zeta. destruct (bool_decide _); [done|]. by destruct (_ =? _).
  - intros He. injection He as <-. unfold smp_prepare. pose proof (new_task_mutexes k idle_name (idle_entry k) 0 1 c true) as Hn.
    by destruct (new_task _ _ _ _ _ _ _) as [? []].
  - intros He. injection He as <-. unfold ap_main. by destruct (c_idle _).
Qed.

(** C35: mutual exclusion.  Whatever operation runs on whatever CPU, the owner of
    a mutex changes only in two ways: a free mutex is taken by the current task
    of the CPU that runs lock or trylock on it, or a held mutex is released by
    an unlock that its owner runs.  In particular a held mutex never passes to
    another task, and lock and trylock succeed exactly on a free mutex. *)
Theorem mutex_exclusion k o k' m : kernel_reachable k -> run_op k o = Some k' ->
  (owner k' m = owner k m \/
   (owner k m = 0 /\ exists c, (o = Op_lock c m \/ o = Op_trylock c m) /\ owner k' m = k_task_id k c /\ k_task_id k c <> 0) \/
   (owner k m <> 0 /\ exists c, o = Op_unlock c m /\ owner k m = k_task_id k c /\ owner k' m = 0)) /\
  (forall c, m <> 0 -> current_task k c <> None ->
     (snd (k_mutex_trylock k c m) = 0 <-> owner k m = 0) /\ (snd (k_mutex_lock k c m) = Return 0 <-> owner k m = 0)).
Proof.
  intros Hr Hrun. pose proof (reachable_ok k Hr) as Hk. unfold owner. split.
  - assert (forall c, current_task k c <> None -> k_task_id k c <> 0) as Hid.
    { intros c Hc. unfold k_task_id. unfold current_task in *. destruct (c_current (cpus k !!! c)) as [i|] eqn:Hcur; [|done]. by apply (task_id_pos k c i). }
    destruct (mutex_op o) as [[c a]|] eqn:Ho; [|left; by rewrite (other_mutexes k o k' Hk Ho Hrun)].
    destruct o; try done; cbn [run_op] in Hrun; injection Hrun as <-; injection Ho as -> ->.
    + unfold k_mutex_trylock. destruct (_ || _) eqn:Hg; [by left|]. apply orb_false_elim in Hg as [_ Hg].
      apply bool_decide_eq_false_1 in Hg. cbv zeta. destruct (_ =? k_task_id k c); [by left|].
      destruct (Z.eqb_spec (zget (mutexes k) a) 0) as [H0|]; cbn [negb]; [|by left].
      destruct (Z.eq_dec a m) as [->|Ha]; [|left; cbn; by rewrite zget_put_ne].
      right; left. split; [done|]. exists c. split; [by right|]. cbn. rewrite zget_put_eq. auto.
    + unfold k_mutex_lock. destruct (current_task k c) as [i|] eqn:Hcur; [|by left]. destruct (a =? 0); [by left|].
      cbv zeta. destruct (Z.eqb_spec (zget (mutexes k) a) 0) as [H0|].
      * destruct (Z.eq_dec a m) as [->|Ha]; [|left; cbn; by rewrite zget_put_ne].
        right; left. split; [done|]. exists c. split; [by left|]. cbn. rewrite zget_put_eq.
        unfold k_task_id. rewrite Hcur. split; [done|]. by apply (task_id_pos k c i).
      * destruct (_ || _); by left.
    + unfold k_mutex_unlock. destruct (a =? 0); [by left|]. cbv zeta. destruct (_ || _) eqn:Hg; [by left|]. reflect_bools.
      cbn [fst]. rewrite (sk_mutexes _ _ (wo_keys _ _ _ (wake_object_spec (set_owner a 0 k) (Wait_mutex a)))).
      destruct (Z.eq_dec a m) as [->|Ha]; [|left; cbn; by rewrite zget_put_ne].
      right; right. split; [done|]. exists c. split_and!; [done|done|]. cbn. by rewrite zget_put_eq.
  - intros c Hm Hc. unfold k_mutex_trylock, k_mutex_lock. rewrite (proj2 (Z.eqb_neq m 0)) by done.
    rewrite bool_decide_false by done. cbn [orb]. unfold k_task_id, current_task in *. destruct (c_current (cpus k !!! c)) as [i|] eqn:Hcur; [|done].
    pose proof (task_id_pos k c i Hk Hcur) as Hi. cbv zeta.
    destruct (Z.eqb_spec (zget (mutexes k) m) (t_id (tasks k !!! i))) as [E|E];
      destruct (Z.eqb_spec (zget (mutexes k) m) 0) as [E'|E']; cbn [negb orb snd]; try (split; split; done); try congruence.
    destruct (negb _); split; split; done.
Qed.
(** ** The mailbox as a queue *)

(** The messages waiting in a mailbox, oldest first. *)
Definition mailbox (t : task) : list k_message :=
  map (fun n => t_mail t !!! ((t_mail_head t + Z.of_nat n) mod MAIL_DEPTH)) (seq 0 (Z.to_nat (t_mail_count t))).
(** The bytes the receiver is told are valid. *)
Definition payload (m : k_message) : list Z := take (Z.to_nat (m_size m)) (m_bytes m).

Lemma mailbox_length t : mail_ok t -> Z.of_nat (length (mailbox t)) = t_mail_count t.
Proof. intros [_ Hc]. unfold mailbox. rewrite length_map, length_seq. lia. Qed.
Lemma mailbox_push t m :
  mail_ok t -> t_mail_count t <> MAIL_DEPTH ->
  mailbox (t <| t_mail ::= <[(t_mail_head t + t_mail_count t) mod MAIL_DEPTH := m]> |>
             <| t_mail_count ::= (fun n => u32 (n + 1)) |>) = mailbox t ++ [m].
Proof.
  intros [Hh Hc] Hfull. unfold MAIL_DEPTH in *. unfold mailbox.
  set (t' := t <| t_mail ::= _ |> <| t_mail_count ::= _ |>).
  assert (t_mail_count t' = t_mail_count t + 1) as Hc' by (cbn; unfold u32; apply Z.mod_small; lia).
  assert (t_mail_head t' = t_mail_head t) as Hh' by done.
  assert (t_mail t' = <[(t_mail_head t + t_mail_count t) mod MAIL_DEPTH := m]> (t_mail t)) as Hm' by done.
  clearbody t'. rewrite Hc', Hh', Hm', Z2Nat.inj_add, seq_app, map_app by lia.
  change (Z.to_nat 1) with 1%nat. rewrite Nat.add_0_l. cbn [seq map].
  f_equal.
  - apply map_ext_in. intros n Hn. apply in_seq in Hn. rewrite lookup_total_insert_ne; [done|]. unfold MAIL_DEPTH. dlia.
  - rewrite Z2Nat.id by lia. cbn [map app]. by rewrite lookup_total_insert_eq.
Qed.
Lemma mailbox_pop t :
  mail_ok t -> t_mail_count t <> 0 ->
  mailbox t = t_mail t !!! t_mail_head t ::
    mailbox (t <| t_mail_head ::= (fun h => (h + 1) mod MAIL_DEPTH) |> <| t_mail_count ::= (fun n => u32 (n - 1)) |>).
Proof.
  intros [Hh Hc] H0. unfold MAIL_DEPTH in *. unfold mailbox.
  set (t' := t <| t_mail_head ::= _ |> <| t_mail_count ::= _ |>).
  assert (t_mail_count t' = t_mail_count t - 1) as Hc' by (cbn; unfold u32; apply Z.mod_small; lia).
  assert (t_mail_head t' = (t_mail_head t + 1) mod 16) as Hh' by done.
  assert (t_mail t' = t_mail t) as Hm' by done. clearbody t'. rewrite Hc', Hh', Hm'.
  replace (Z.to_nat (t_mail_count t)) with (S (Z.to_nat (t_mail_count t - 1))) by lia. cbn [seq map].
  f_equal; [f_equal; unfold MAIL_DEPTH; dlia|]. rewrite <- seq_shift, map_map. apply map_ext_in. intros n _.
  f_equal. unfold MAIL_DEPTH. rewrite Zplus_mod_idemp_l. f_equal. lia.
Qed.
Lemma payload_make sender data : Z.of_nat (length data) <= K_IPC_BYTES -> payload (make_message sender data) = data.
Proof. intros _. unfold payload, make_message. cbn [m_size m_bytes]. rewrite Nat2Z.id. by rewrite take_app_length. Qed.

(** The mailbox is a bounded queue.  A successful send appends exactly one
    message, carrying the sender's identifier and the data, to the mailbox of
    the live task with the target identifier; a successful receive removes the
    oldest message of the caller's mailbox and returns it; no other task's
    mailbox changes, the mailbox never holds more than 16 messages, and a call
    that fails changes nothing.  Send refuses with K_EAGAIN exactly when the
    mailbox is full, receive exactly when it is empty. *)
Theorem mailbox_fifo k c :
  kernel_reachable k ->
  (forall target data k' e, k_ipc_send k c target (Some data) = (k', e) ->
     (e = 0 /\ exists s i, current_task k c = Some s /\ t_id (tasks k !!! i) = target /\ used (tasks k !!! i) /\
        (exists m, mailbox (tasks k' !!! i) = mailbox (tasks k !!! i) ++ [m] /\ m_sender m = t_id (tasks k !!! s) /\ payload m = data) /\
        Z.of_nat (length (mailbox (tasks k' !!! i))) <= MAIL_DEPTH /\ (forall j, i <> j -> tasks k' !!! j = tasks k !!! j)) \/
     (e <> 0 /\ k' = k /\ (e = K_EAGAIN -> exists i, t_id (tasks k !!! i) = target /\ Z.of_nat (length (mailbox (tasks k !!! i))) = MAIL_DEPTH))) /\
  (forall i k' e m, current_task k c = Some i -> k_ipc_receive k c true = (k', e, m) ->
     (e = K_EAGAIN /\ mailbox (tasks k !!! i) = [] /\ m = None /\ k' = k) \/
     (e = 0 /\ (exists x, m = Some x /\ mailbox (tasks k !!! i) = x :: mailbox (tasks k' !!! i)) /\
      (forall j, i <> j -> tasks k' !!! j = tasks k !!! j))).
Proof.
  intros Hr. pose proof (ko_sched k (reachable_ok k Hr)) as Hs. pose proof (si_mail k Hs : forall i, mail_ok (tasks k !!! i)) as Hm. split.
  - intros target data k' e. unfold k_ipc_send. destruct (current_task k c) as [s|] eqn:Hc; [|intros [= <- <-]; by right].
    destruct (Z.ltb_spec K_IPC_BYTES (Z.of_nat (length data))); [intros [= <- <-]; by right|]. cbv zeta.
    destruct (negb _); [intros [= <- <-]; by right|].
    destruct (find_range _ _ _) as [i|] eqn:Hf; [|intros [= <- <-]; by right].
    apply find_range_Some in Hf as (Hi & Hf & _). apply andb_prop in Hf as [Hf _]. apply andb_prop in Hf as [Hid Hu].
    apply Z.eqb_eq in Hid. apply negb_true_iff, bool_decide_eq_false_1 in Hu.
    destruct (Z.eqb_spec (t_mail_count (tasks k !!! i)) MAIL_DEPTH) as [Hfull|Hfull].
    { intros [= <- <-]. right. split_and!; [done|done|]. intros _. exists i. rewrite mailbox_length by apply Hm. done. }
    intros He. apply pair_equal_spec in He as [<- <-]. left. split; [done|]. exists s, i. rewrite tasks_upd_task, decide_True by done.
    rewrite mailbox_push by (apply Hm || done). split_and!; try done.
    + eexists. split; [done|]. split; [done|]. by apply payload_make.
    + rewrite length_app, Nat2Z.inj_add, mailbox_length by apply Hm. destruct (Hm i) as [_ ?]. cbn. lia.
    + intros j Hj. by rewrite tasks_upd_task, decide_False.
  - intros i k' e m Hc. unfold k_ipc_receive. rewrite Hc. cbn [negb]. cbv zeta.
    destruct (Z.eqb_spec (t_mail_count (tasks k !!! i)) 0) as [H0|H0].
    + intros [= <- <- <-]. left. split_and!; try done. unfold mailbox. by rewrite H0.
    + intros He. apply pair_equal_spec in He as [He <-]. apply pair_equal_spec in He as [<- <-]. right. split; [done|]. split.
      * eexists. split; [done|]. rewrite tasks_upd_task, decide_True by done. apply mailbox_pop; [apply Hm|done].
      * intros j Hj. by rewrite tasks_upd_task, decide_False.
Qed.

(** ** The end of a task *)

(** Reaping is safe.  [k_task_reap] succeeds only on a zombie that belongs
    to no process and on whose stack no CPU stands any more; it then returns
    the code the task exited with, gives the stack back, empties that one slot,
    and the identifier names no task any more.  A refused call changes nothing,
    and K_ENOENT means that no task has the identifier. *)
Theorem reap_safe k id k' e code : kernel_reachable k -> k_task_reap k id = (k', e, code) ->
  (e = 0 /\ exists i, t_id (tasks k !!! i) = id /\ t_state (tasks k !!! i) = K_TASK_ZOMBIE /\
     t_process (tasks k !!! i) = None /\ t_exit_code (tasks k !!! i) = code /\
     (forall c, c_current (cpus k !!! c) <> Some i) /\
     (forall c, 0 <= c < discovered_cpus k -> c_stack_owner (cpus k !!! c) <> Some i) /\
     tasks k' !!! i = task0 /\ (forall j, i <> j -> tasks k' !!! j = tasks k !!! j) /\ cpus k' = cpus k /\
     (t_stack (tasks k !!! i) <> 0 -> k_pages k' = pa_free (k_pages k) (t_stack (tasks k !!! i)) STACK_PAGES) /\
     (forall j, used (tasks k' !!! j) -> t_id (tasks k' !!! j) <> id)) \/
  (e <> 0 /\ k' = k /\ (e = K_ENOENT <-> forall i, used (tasks k !!! i) -> t_id (tasks k !!! i) <> id)).
Proof.
  intros Hr. pose proof (reachable_ok k Hr) as Hk. pose proof (ko_sched k Hk) as Hs. unfold k_task_reap.
  destruct (find_range _ _ _) as [i|] eqn:Hf.
  2: { intros [= <- <- <-]. right. split_and!; try done. split; [|done]. intros _ i Hu He.
       rewrite find_range_None in Hf. specialize (Hf i (si_range k Hs i Hu)). cbv beta in Hf.
       rewrite bool_decide_false, (proj2 (Z.eqb_eq _ _)) in Hf by done. done. }
  apply find_range_Some in Hf as (Hi & Hf & _). apply andb_prop in Hf as [Hu Hid]. apply Z.eqb_eq in Hid.
  apply negb_true_iff, bool_decide_eq_false_1 in Hu. cbv zeta.
  assert (~ forall i, used (tasks k !!! i) -> t_id (tasks k !!! i) <> id) as Hex by (intros Hno; by apply (Hno i)).
  destruct (bool_decide_reflect (t_state (tasks k !!! i) = K_TASK_ZOMBIE)) as [Hz|]; cbn [negb];
    [|intros [= <- <- <-]; right; by split_and!].
  destruct (any_range _ _ _) eqn:Ha; [intros [= <- <- <-]; right; by split_and!|].
  destruct (bool_decide_reflect (t_process (tasks k !!! i) <> None)) as [|Hp];
    [intros [= <- <- <-]; right; by split_and!|].
  intros He. apply pair_equal_spec in He as [He <-]. apply pair_equal_spec in He as [<- <-]. left. split; [done|]. exists i.
  assert (forall j, tasks (free_task i k) !!! j = if decide (i = j) then task0 else tasks k !!! j) as Ht.
  { intros j. unfold free_task. cbv zeta. rewrite tasks_upd_task. by destruct (_ =? 0). }
  split_and!; try done.
  - by destruct (t_process (tasks k !!! i)); [destruct Hp|].
  - apply (reap_detached k i Hk Hz Ha).
  - intros c Hc Ho. assert (any_range 0 (discovered_cpus k) (on_cpu k i) = true) as Ht'; [|congruence].
    apply any_range_spec. exists c. split; [done|]. unfold on_cpu. rewrite (bool_decide_true (c_stack_owner _ = _)) by done. apply orb_true_r.
  - by rewrite Ht, decide_True.
  - intros j Hj. by rewrite Ht, decide_False.
  - unfold free_task. cbv zeta. by destruct (_ =? 0).
  - intros Hst. unfold free_task. cbv zeta. by rewrite (proj2 (Z.eqb_neq _ _) Hst).
  - intros j. rewrite Ht. destruct (decide (i = j)) as [->|Hj]; [done|]. intros Huj He. apply Hj.
    apply (si_unique k Hs i j Hu Huj). congruence.
Qed.
End KernelProps.

#[local] Existing Instance bump_source.
Lemma schedule_picks_minimum_witness :
  exists k' f', kernel_schedule (script two_tasks) 0 5 0x7000 true = Some (k', f') /\
    (exists b, c_current (cpus k' !!! 0) = Some b) /\ c_current (cpus k' !!! 0) <> c_current (cpus (script two_tasks) !!! 0).
Proof.
  assert (kernel_reachable (script two_tasks)) as Hk by (apply demo_script; by vm_compute).
  destruct (schedule_some (script two_tasks) 0 5 0x7000 true (ko_sched _ (reachable_ok _ Hk))) as (k' & f' & He & _).
  exists k', f'. split; [exact He|].
  assert (c_current (cpus (script two_tasks) !!! 0) = Some 0) as Hc by (by vm_compute).
  assert (option_map (fun r => c_current (cpus (fst r) !!! 0)) (kernel_schedule (script two_tasks) 0 5 0x7000 true) = Some (Some 2)) as Hn by (by vm_compute).
  rewrite He in Hn. cbn [option_map fst] in Hn. injection Hn as Hn. split; [|rewrite Hn, Hc; discriminate].
  destruct (schedule_picks_minimum (script two_tasks) 0 5 0x7000 true 0 k' f' (ko_sched _ (reachable_ok _ Hk)) Hc He) as [(Hx & _)|(b & Hb & _)]; [exists 0; exact Hx|exists b; exact Hb].
Defined.

(** Task 2 holds mutex 0x9000; a trylock by the boot task fails, an unlock by it is refused. *)
Definition holding : list kernel_op := two_tasks ++ [Op_lock 0 0x9000].
Lemma mutex_exclusion_witness :
  owner (script two_tasks) 0x9000 = 0 /\
  (exists k', run_op (script two_tasks) (Op_lock 0 0x9000) = Some k' /\ owner k' 0x9000 = k_task_id (script two_tasks) 0) /\
  (snd (k_mutex_trylock (script holding) 0 0x9000) = 0 <-> owner (script holding) 0x9000 = 0).
Proof.
  assert (kernel_reachable (script two_tasks)) as Hk by (apply demo_script; by vm_compute).
  assert (kernel_reachable (script holding)) as Hh by (apply demo_script; by vm_compute).
  split; [by vm_compute|]. split.
  - eexists. split; [reflexivity|]. by vm_compute.
  - assert (current_task (script holding) 0 = Some 0) as Hc by (vm_compute; reflexivity).
    assert (run_op (script holding) (Op_sem_init 0 0) = Some (script holding)) as Hr by (cbn [run_op]; reflexivity).
    refine (proj1 (proj2 (mutex_exclusion (script holding) (Op_sem_init 0 0) (script holding) 0x9000 Hh Hr) 0 _ _)); [lia|].
    rewrite Hc. discriminate.
Defined.

(** The boot task sends three bytes to task 2. *)
Definition greeting : list Z := [104; 105; 33].
Lemma mailbox_fifo_witness :
  exists k', k_ipc_send (script two_tasks) 0 3 (Some greeting) = (k', 0) /\
    exists i m, mailbox (tasks k' !!! i) = mailbox (tasks (script two_tasks) !!! i) ++ [m] /\ payload m = greeting.
Proof.
  assert (kernel_reachable (script two_tasks)) as Hk by (apply demo_script; by vm_compute).
  assert (snd (k_ipc_send (script two_tasks) 0 3 (Some greeting)) = 0) as H0 by (by vm_compute).
  destruct (k_ipc_send (script two_tasks) 0 3 (Some greeting)) as [k' e] eqn:He. cbn [snd] in H0. subst e.
  exists k'. split; [reflexivity|].
  destruct (proj1 (mailbox_fifo (script two_tasks) 0 Hk) 3 greeting k' 0 He) as
    [(_ & s & i & _ & _ & _ & (m & Hm & _ & Hp) & _)|(Hne & _)]; [exact (ex_intro _ i (ex_intro _ m (conj Hm Hp)))|by destruct Hne].
Defined.

(** Task 2 runs, exits with code 9, and the boot task runs again. *)
Definition finished : list kernel_op := [spawn 1024; switch; Op_exit 0 9; switch; Op_handoff 0].
Lemma reap_safe_witness :
  exists k', k_task_reap (script finished) 3 = (k', 0, 9) /\ (forall j, used (tasks k' !!! j) -> t_id (tasks k' !!! j) <> 3).
Proof.
  assert (kernel_reachable (script finished)) as Hk by (apply demo_script; by vm_compute).
  assert (snd (fst (k_task_reap (script finished) 3)) = 0 /\ snd (k_task_reap (script finished) 3) = 9) as [H0 H9] by (by vm_compute).
  destruct (k_task_reap (script finished) 3) as [[k' e] code] eqn:He. cbn [fst snd] in H0, H9. subst e code.
  exists k'. split; [reflexivity|].
  destruct (reap_safe (script finished) 3 k' 0 9 Hk He) as [(_ & i & _ & _ & _ & _ & _ & _ & _ & _ & _ & _ & Hj)|(Hne & _)]; [exact Hj|by destruct Hne].
Defined.
