(* ===== verification/NetSum.v ===== *)
(** Byte order, the internet checksum and prefix matching,
    [src/kernel-src/drivers/net/networking.c] lines 91-160.  A packet is the
    list of its bytes. *)
From S2P Require Import Prelude Klib.

Definition bytes_ok (l : list Z) : Prop := Forall is_u8 l.
Lemma bytes_cons a l : bytes_ok (a :: l) <-> is_u8 a /\ bytes_ok l.
Proof. apply Forall_cons. Qed.
Lemma bytes_app a b : bytes_ok (a ++ b) <-> bytes_ok a /\ bytes_ok b.
Proof. apply Forall_app. Qed.

(** * Big-endian accessors *)
Definition net_be16 (b0 b1 : Z) : Z := u16 (Z.lor (Z.shiftl b0 8) b1).
Definition net_be32 (b0 b1 b2 b3 : Z) : Z :=
  u32 (Z.lor (Z.lor (Z.lor (u32 (Z.shiftl b0 24)) (u32 (Z.shiftl b1 16))) (u32 (Z.shiftl b2 8))) b3).
Definition net_put16 (x : Z) : list Z := [u8 (Z.shiftr x 8); u8 x].
Definition net_put32 (x : Z) : list Z := [u8 (Z.shiftr x 24); u8 (Z.shiftr x 16); u8 (Z.shiftr x 8); u8 x].
Fixpoint net_zero (l : list Z) : bool := match l with [] => true | b :: l => if negb (b =? 0) then false else net_zero l end.
Definition net_equal (a b : list Z) : bool := bool_decide (a = b).
Definition K_AF_INET : Z := 4.
Definition K_AF_INET6 : Z := 6.
Definition net_addr_bytes (family : Z) : Z := if family =? K_AF_INET then 4 else 16.
Definition net_multicast (family : Z) (a : list Z) : bool :=
  if family =? 4 then 224 <=? a !!! 0%nat else a !!! 0%nat =? 255.
(** [a] and [b] agree on their first [bits] bits. *)
Definition net_prefix (a b : list Z) (bits : Z) : bool :=
  match for_range 0 (bits / 8) (fun i _ => if negb (a !!! Z.to_nat i =? b !!! Z.to_nat i) then Exit false else Next tt) tt with
  | Exit r => r
  | Next _ =>
      (bits mod 8 =? 0) ||
      (Z.land (Z.lxor (a !!! Z.to_nat (bits / 8)) (b !!! Z.to_nat (bits / 8))) (u32 (Z.shiftl 0xff (8 - bits mod 8))) =? 0)
  end.

(** * The checksum *)
Fixpoint net_sum (sum : Z) (p : list Z) : Z :=
  match p with
  | b0 :: b1 :: p => net_sum (u32 (sum + net_be16 b0 b1)) p
  | [b0] => u32 (sum + Z.shiftl b0 8)
  | [] => sum
  end.
(** [while (sum >> 16) sum = (sum & 65535) + (sum >> 16)]. *)
Fixpoint finish_loop (fuel : nat) (sum : Z) : option Z :=
  match fuel with
  | O => None
  | S fuel => if Z.shiftr sum 16 =? 0 then Some sum else finish_loop fuel (u32 (Z.land sum 65535 + Z.shiftr sum 16))
  end.
Definition net_finish (sum : Z) : Z :=
  match finish_loop 3 sum with Some s => u16 (Z.lnot s) | None => 0 end.
Definition k_net_checksum (data : list Z) : Z := net_finish (net_sum 0 data).
Definition net_transport_sum (family : Z) (src dst : list Z) (proto : Z) (p : list Z) : Z :=
  let n := Z.of_nat (length p) in
  let sum := net_sum 0 (take (Z.to_nat (net_addr_bytes family)) src) in
  let sum := net_sum sum (take (Z.to_nat (net_addr_bytes family)) dst) in
  let sum := u32 (sum + (proto + Z.land n 65535 + Z.shiftr n 16)) in
  net_finish (net_sum sum p).

(** * Arithmetic of the accessors *)
Lemma be16_eq b0 b1 : is_u8 b0 -> is_u8 b1 -> net_be16 b0 b1 = 256 * b0 + b1.
Proof. intros H0 H1. unfold net_be16. rewrite Z.lor_comm, lor_shiftl_add by (done || lia). unfold is_u8, u16 in *. rewrite Z.mod_small; lia. Qed.
Lemma put16_eq x : is_u16 x -> net_put16 x = [x / 256; x mod 256].
Proof. intros Hx. unfold net_put16, u8, is_u16 in *. rewrite Z.shiftr_div_pow2 by lia. f_equal. change (2 ^ 8) with 256. apply Z.mod_small. dlia. Qed.
Lemma put16_bytes x : bytes_ok (net_put16 x).
Proof. unfold net_put16. repeat constructor; try apply Z.mod_pos_bound; lia. Qed.
Lemma be16_put16 x : is_u16 x -> net_be16 (u8 (Z.shiftr x 8)) (u8 x) = x.
Proof.
  intros Hx. pose proof (put16_eq x Hx) as Hp. unfold net_put16 in Hp. injection Hp as ->. change (u8 x) with (x mod 256). unfold is_u16 in Hx.
  rewrite be16_eq; unfold is_u8; dlia.
Qed.

(** * The sum *)

(** The sum of the 16-bit words, an odd byte padded with zero. *)
Fixpoint words (p : list Z) : Z :=
  match p with b0 :: b1 :: p => 256 * b0 + b1 + words p | [b0] => 256 * b0 | [] => 0 end.
Lemma pairs_ind (P : list Z -> Prop) : P [] -> (forall a, P [a]) -> (forall a b l, P l -> P (a :: b :: l)) -> forall l, P l.
Proof.
  intros H0 H1 H2 l. enough (P l /\ forall a, P (a :: l)) by tauto. induction l as [|b l [IH IH']]; split; auto.
Qed.
Lemma words_nonneg p : bytes_ok p -> 0 <= words p.
Proof.
  induction p as [|a|a b p IH] using pairs_ind; intros Hp; cbn [words]; rewrite ?bytes_cons in Hp; unfold is_u8 in *; [lia|lia|].
  destruct Hp as (? & ? & Hp). specialize (IH Hp). lia.
Qed.
Lemma words_bound p : bytes_ok p -> words p <= 65535 * ((Z.of_nat (length p) + 1) / 2).
Proof.
  induction p as [|a|a b p IH] using pairs_ind; intros Hp; cbn [words length].
  - dlia.
  - rewrite bytes_cons in Hp. unfold is_u8 in *. dlia.
  - rewrite !bytes_cons in Hp. destruct Hp as (Ha & Hb & Hq). specialize (IH Hq). unfold is_u8 in *.
    replace ((Z.of_nat (S (S (length p))) + 1) / 2) with ((Z.of_nat (length p) + 1) / 2 + 1) by dlia. lia.
Qed.
Lemma words_app p q : Nat.Even (length p) -> words (p ++ q) = words p + words q.
Proof.
  induction p as [|a|a b p IH] using pairs_ind; intros He; cbn [words app].
  - done.
  - destruct He as [x Hx]. cbn in Hx. lia.
  - rewrite IH; [lia|]. destruct He as [x Hx]. exists (Nat.pred x). cbn [length] in Hx. lia.
Qed.
Lemma net_sum_eq p : forall s, bytes_ok p -> 0 <= s -> s + words p < 2 ^ 32 -> net_sum s p = s + words p.
Proof.
  induction p as [|a|a b p IH] using pairs_ind; intros s Hp Hs Hlt; cbn [net_sum words] in *.
  - lia.
  - rewrite bytes_cons in Hp. unfold is_u8, u32 in *. rewrite Z.shiftl_mul_pow2 by lia. rewrite Z.mod_small; lia.
  - rewrite !bytes_cons in Hp. destruct Hp as (Ha & Hb & Hq). pose proof (words_nonneg p Hq).
    rewrite be16_eq by done. unfold is_u8, u32 in *. rewrite Z.mod_small by lia. rewrite IH by (done || lia). lia.
Qed.

(** The one's-complement value of a sum: its residue modulo 65535 in 1..65535, or 0. *)
Definition norm (s : Z) : Z := if s =? 0 then 0 else (s - 1) mod 65535 + 1.
Lemma norm_bound s : 0 <= norm s <= 65535.
Proof. unfold norm. destruct (s =? 0); [lia|]. pose proof (Z.mod_pos_bound (s - 1) 65535). lia. Qed.
(** Three rounds always suffice for a 32-bit sum. *)
Lemma finish_loop_eq s : is_u32 s -> finish_loop 3 s = Some (norm s).
Proof.
  intros Hs. unfold is_u32 in Hs.
  assert (forall x, 0 <= x < 2 ^ 32 -> Z.land x 65535 = x mod 65536 /\ Z.shiftr x 16 = x / 65536) as Hw.
  { intros x _. change 65535 with (Z.ones 16). rewrite Z.land_ones, Z.shiftr_div_pow2 by lia. done. }
  assert (forall x n, 0 <= x <= 65535 -> finish_loop (S n) x = Some x) as Hsmall.
  { intros x n Hx. cbn [finish_loop]. rewrite (proj2 (Hw x ltac:(lia))). rewrite (proj2 (Z.eqb_eq _ _)) by dlia. done. }
  assert (forall x n, 65536 <= x < 2 ^ 32 -> finish_loop (S n) x = finish_loop n (x mod 65536 + x / 65536)) as Hbig.
  { intros x n Hx. cbn [finish_loop]. destruct (Hw x ltac:(lia)) as [-> ->]. rewrite (proj2 (Z.eqb_neq _ _)) by dlia.
    unfold u32. rewrite (Z.mod_small (_ + _)) by dlia. done. }
  assert (forall x, 65536 <= x -> norm (x mod 65536 + x / 65536) = norm x) as Hn.
  { intros x Hx. unfold norm. rewrite !(proj2 (Z.eqb_neq _ _)) by dlia. f_equal.
    replace (x - 1) with (x mod 65536 + x / 65536 - 1 + x / 65536 * 65535) by dlia. by rewrite Z_mod_plus_full. }
  assert (forall x, 0 <= x <= 65535 -> norm x = x) as Hid.
  { intros x Hx. unfold norm. destruct (Z.eqb_spec x 0); [lia|]. rewrite Z.mod_small; lia. }
  destruct (Z.lt_ge_cases s 65536); [rewrite Hsmall, Hid by lia; done|]. rewrite Hbig by lia.
  rewrite <- (Hn s) by lia. set (s1 := s mod 65536 + s / 65536). assert (0 <= s1 <= 131070) by (subst s1; dlia).
  destruct (Z.lt_ge_cases s1 65536); [rewrite Hsmall, Hid by lia; done|]. rewrite Hbig by lia.
  rewrite <- (Hn s1) by lia. set (s2 := s1 mod 65536 + s1 / 65536). assert (0 <= s2 <= 65535) by (subst s2; dlia).
  rewrite Hsmall, Hid by lia. done.
Qed.
Lemma net_finish_eq s : is_u32 s -> net_finish s = 65535 - norm s.
Proof.
  intros Hs. unfold net_finish. rewrite finish_loop_eq by done. pose proof (norm_bound s). unfold u16, Z.lnot.
  replace (Z.pred (- norm s)) with (65535 - norm s + (-1) * 2 ^ 16) by lia. rewrite Z_mod_plus_full. apply Z.mod_small. lia.
Qed.
Lemma net_finish_u16 s : is_u32 s -> is_u16 (net_finish s).
Proof. intros Hs. rewrite net_finish_eq by done. pose proof (norm_bound s). unfold is_u16. lia. Qed.
(** A sum that includes its own checksum is valid; changing it by [d] keeps it so only if 65535 divides [d]. *)
Lemma norm_valid s c : 0 <= s -> c = 65535 - norm s \/ (norm s = 65535 /\ c = 65535) -> norm (s + c) = 65535.
Proof.
  unfold norm. intros Hs Hc. destruct (Z.eqb_spec s 0); destruct (Z.eqb_spec (s + c) 0); dlia.
Qed.
Lemma norm_shift s d : 0 < s -> norm s = 65535 -> 0 <= s + d -> -65535 <= d <= 65535 ->
  norm (s + d) = 65535 -> d = 0 \/ d = 65535 \/ d = - 65535.
Proof. unfold norm. intros Hs. destruct (Z.eqb_spec s 0); [lia|]. destruct (Z.eqb_spec (s + d) 0); dlia. Qed.

Lemma words_put16 c : is_u16 c -> words (net_put16 c) = c.
Proof. intros Hc. rewrite put16_eq by done. cbn [words]. unfold is_u16 in Hc. dlia. Qed.

(** A packet of [n] bytes whose sum cannot wrap, with the sum of what precedes it. *)
Definition summable (s0 : Z) (n : Z) : Prop := 0 <= s0 < 2 ^ 30 /\ n <= 65535.
Section Checked.
Context (s0 : Z) (pre post : list Z).
Context (Hpre : bytes_ok pre) (Hpost : bytes_ok post) (Heven : Nat.Even (length pre)).
Hypothesis Hs : summable s0 (Z.of_nat (length (pre ++ [0; 0] ++ post))).
Lemma sum_around c : is_u16 c ->
  net_sum s0 (pre ++ net_put16 c ++ post) = s0 + words pre + words post + c /\ is_u32 (s0 + words pre + words post + c).
Proof.
  intros Hc. assert (words (pre ++ net_put16 c ++ post) = words pre + words post + c) as Hw.
  { rewrite !words_app, words_put16 by (done || by exists 1%nat). lia. }
  destruct Hs as [H0 Hlt]. rewrite !length_app in Hlt. cbn [length] in Hlt.
  pose proof (words_nonneg pre Hpre). pose proof (words_nonneg post Hpost).
  pose proof (words_bound pre Hpre). pose proof (words_bound post Hpost). unfold is_u16, is_u32 in *.
  assert (s0 + words pre + words post + c < 2 ^ 32) by dlia. split; [|lia].
  rewrite net_sum_eq; [lia| |lia|lia]. rewrite !bytes_app. split_and!; [done|apply put16_bytes|done].
Qed.
(** Inserting the checksum of the packet with a zero field makes the packet valid. *)
Lemma inserted_valid : let c := net_finish (net_sum s0 (pre ++ [0; 0] ++ post)) in
  is_u16 c /\ net_finish (net_sum s0 (pre ++ net_put16 c ++ post)) = 0.
Proof.
  destruct (sum_around 0 ltac:(by unfold is_u16)) as [E0 R0]. change (net_put16 0) with [0; 0] in E0. rewrite E0. cbv zeta.
  set (c := net_finish _). assert (is_u16 c) as Hc by (by apply net_finish_u16). split; [done|].
  destruct (sum_around c Hc) as [-> R]. rewrite net_finish_eq by done.
  assert (c = 65535 - norm (s0 + words pre + words post)) as Ec.
  { unfold c. rewrite net_finish_eq by done. by rewrite Z.add_0_r. }
  rewrite norm_valid; [lia| |by left]. pose proof (words_nonneg pre Hpre). pose proof (words_nonneg post Hpost).
  destruct Hs. lia.
Qed.
(** A valid packet with its 16-bit word [c] replaced by [c'] is invalid, unless the
    two words are the two representations of zero. *)
Lemma corrupted_invalid c c' : is_u16 c -> is_u16 c' -> 0 < s0 + words pre + words post + c ->
  net_finish (net_sum s0 (pre ++ net_put16 c ++ post)) = 0 ->
  net_finish (net_sum s0 (pre ++ net_put16 c' ++ post)) = 0 -> c = c' \/ (c = 0 /\ c' = 65535) \/ (c = 65535 /\ c' = 0).
Proof.
  intros Hc Hc' Hpos. destruct (sum_around c Hc) as [-> R], (sum_around c' Hc') as [-> R'].
  rewrite !net_finish_eq by done. intros E E'. unfold is_u16 in *.
  destruct (norm_shift (s0 + words pre + words post + c) (c' - c)); try lia.
  - unfold is_u32 in R'. lia.
  - replace (s0 + words pre + words post + c + (c' - c)) with (s0 + words pre + words post + c') by lia. lia.
Qed.
End Checked.

(** The internet checksum.  Storing the checksum of a packet, computed with
    the field zero, at any even offset makes the packet verify (the sum over it
    is zero), for the plain checksum of IPv4 and ICMP and for the sum with the
    pseudo-header of ICMPv6, UDP and TCP, up to 65535 bytes; and no change of a
    single aligned 16-bit word of a packet that verifies goes unnoticed, except
    between the two representations of zero. *)
Theorem checksum_verifies pre post : bytes_ok pre -> bytes_ok post -> Nat.Even (length pre) ->
  Z.of_nat (length (pre ++ [0; 0] ++ post)) <= 65535 ->
  k_net_checksum (pre ++ net_put16 (k_net_checksum (pre ++ [0; 0] ++ post)) ++ post) = 0 /\
  (forall family src dst proto, bytes_ok src -> bytes_ok dst -> is_u8 proto ->
     (length src <= 16)%nat -> (length dst <= 16)%nat ->
     net_transport_sum family src dst proto
       (pre ++ net_put16 (net_transport_sum family src dst proto (pre ++ [0; 0] ++ post)) ++ post) = 0) /\
  (forall c c', is_u16 c -> is_u16 c' -> 0 < words (pre ++ net_put16 c ++ post) ->
     k_net_checksum (pre ++ net_put16 c ++ post) = 0 -> k_net_checksum (pre ++ net_put16 c' ++ post) = 0 ->
     c = c' \/ (c = 0 /\ c' = 65535) \/ (c = 65535 /\ c' = 0)).
Proof.
  intros Hpre Hpost He Hn. assert (summable 0 (Z.of_nat (length (pre ++ [0; 0] ++ post)))) as H0 by (unfold summable; lia).
  split_and!.
  - apply (inserted_valid 0 pre post Hpre Hpost He H0).
  - intros family src dst proto Hsrc Hdst Hp Ls Ld. unfold net_transport_sum.
    assert (forall c, length (pre ++ net_put16 c ++ post) = length (pre ++ [0; 0] ++ post)) as Hlen.
    { intros c. rewrite !length_app. done. }
    rewrite Hlen. set (n := Z.of_nat (length (pre ++ [0; 0] ++ post))) in *. cbv zeta. set (k := Z.to_nat (net_addr_bytes family)).
    assert (forall l, bytes_ok l -> (length l <= 16)%nat -> bytes_ok (take k l) /\ 0 <= words (take k l) <= 65535 * 8) as Hw.
    { intros l Hl Hll. assert (bytes_ok (take k l)) as Ht by (by apply Forall_take). split; [done|].
      pose proof (words_nonneg _ Ht). pose proof (words_bound _ Ht). pose proof (length_take l k). dlia. }
    destruct (Hw src Hsrc Ls) as [Bs Ws], (Hw dst Hdst Ld) as [Bd Wd].
    rewrite (net_sum_eq (take k src)), (net_sum_eq (take k dst)) by (done || lia).
    assert (Z.land n 65535 = n /\ Z.shiftr n 16 = 0) as [-> ->].
    { change 65535 with (Z.ones 16). rewrite Z.land_ones, Z.shiftr_div_pow2 by lia. dlia. }
    unfold is_u8 in Hp. unfold u32. rewrite (Z.mod_small (_ + (_ + _))) by lia.
    apply inserted_valid; try done. unfold summable. lia.
  - intros c c' Hc Hc' Hpos. rewrite !words_app, words_put16 in Hpos by (done || by exists 1%nat).
    apply (corrupted_invalid 0 pre post Hpre Hpost He H0 c c' Hc Hc'). lia.
Qed.
Lemma checksum_verifies_witness :
  let pre := [0x45; 0; 0; 28; 0; 1; 0; 0; 64; 17] in let post := [10; 0; 2; 15; 10; 0; 2; 2] in
  k_net_checksum (pre ++ [0; 0] ++ post) = 0x62c0 /\ k_net_checksum (pre ++ net_put16 (k_net_checksum (pre ++ [0; 0] ++ post)) ++ post) = 0.
Proof.
  intros pre post. split; [reflexivity|].
  assert (bytes_ok pre /\ bytes_ok post) as [Ha Hb] by (unfold bytes_ok, is_u8; split; repeat constructor; lia).
  refine (proj1 (checksum_verifies pre post Ha Hb _ _)); [by exists 5%nat|]. vm_compute. discriminate.
Defined.

(** * Prefixes *)
Definition bit_of (a : list Z) (i : Z) : bool := Z.testbit (a !!! Z.to_nat (i / 8)) (7 - i mod 8).
(** Equal bytes have equal bits. *)
Lemma byte_eq_bits x y : is_u8 x -> is_u8 y -> x = y <-> (forall j, 0 <= j < 8 -> Z.testbit x j = Z.testbit y j).
Proof.
  intros Hx Hy. split; [by intros ->|]. intros Hb. apply Z.bits_inj'. intros j Hj.
  destruct (Z.lt_ge_cases j 8); [by apply Hb|]. unfold is_u8 in *.
  rewrite <- (Z.mod_small x (2 ^ 8)), <- (Z.mod_small y (2 ^ 8)), !Z.mod_pow2_bits_high by lia. done.
Qed.
Lemma mask_bits x y r : is_u8 x -> is_u8 y -> 0 < r < 8 ->
  Z.land (Z.lxor x y) (u32 (Z.shiftl 0xff (8 - r))) = 0 <-> (forall j, 8 - r <= j < 8 -> Z.testbit x j = Z.testbit y j).
Proof.
  intros Hx Hy Hr.
  assert (forall j, 0 <= j -> Z.testbit (u32 (Z.shiftl 0xff (8 - r))) j = (8 - r <=? j) && (j <? 16 - r)) as Hm.
  { intros j Hj. unfold u32. destruct (Z.lt_ge_cases j 32).
    - rewrite Z.mod_pow2_bits_low, Z.shiftl_spec by lia. change 255 with (Z.ones 8).
      rewrite Z.testbit_ones by lia. f_equal; apply Bool.eq_iff_eq_true; rewrite ?Z.leb_le, ?Z.ltb_lt; lia.
    - rewrite Z.mod_pow2_bits_high by lia. symmetry. apply andb_false_intro2, Z.ltb_ge. lia. }
  assert (forall z j, is_u8 z -> 8 <= j -> Z.testbit z j = false) as Hz.
  { intros z j Hzr Hj. unfold is_u8 in Hzr. rewrite <- (Z.mod_small z (2 ^ 8)) by lia. by rewrite Z.mod_pow2_bits_high by lia. }
  split.
  - intros H0 j Hj. assert (Z.testbit (Z.land (Z.lxor x y) (u32 (Z.shiftl 0xff (8 - r)))) j = false) as Hb by (rewrite H0; apply Z.bits_0).
    rewrite Z.land_spec, Z.lxor_spec, Hm in Hb by lia. rewrite (proj2 (Z.leb_le _ _)), (proj2 (Z.ltb_lt _ _)) in Hb by lia.
    cbn in Hb. rewrite andb_true_r in Hb. by apply xorb_eq in Hb.
  - intros Hb. apply Z.bits_inj'. intros j Hj. rewrite Z.bits_0, Z.land_spec, Z.lxor_spec, Hm by done.
    destruct (Z.lt_ge_cases j 8); [|by rewrite !Hz by done].
    destruct (Z.leb_spec (8 - r) j); [|by rewrite andb_false_r]. rewrite Hb by lia. by rewrite xorb_nilpotent.
Qed.

(** Prefix matching.  [net_prefix] holds exactly when the two addresses agree
    on each of their first [bits] bits, most significant bit of each byte first. *)
Theorem net_prefix_correct a b bits : bytes_ok a -> bytes_ok b -> length a = 16%nat -> length b = 16%nat ->
  0 <= bits <= 128 -> net_prefix a b bits = true <-> (forall i, 0 <= i < bits -> bit_of a i = bit_of b i).
Proof.
  intros Ha Hb La Lb Hbits.
  assert (forall l i, bytes_ok l -> length l = 16%nat -> 0 <= i < 16 -> is_u8 (l !!! Z.to_nat i)) as Hbyte.
  { intros l i Hl Hll Hi. apply (Forall_lookup_total_1 is_u8 l); [done|lia]. }
  pose (same := fun q => forall i, 0 <= i < q -> a !!! Z.to_nat i = b !!! Z.to_nat i).
  assert (match for_range 0 (bits / 8) (fun i _ => if negb (a !!! Z.to_nat i =? b !!! Z.to_nat i) then Exit false else Next tt) tt with
          | Exit r => r = false /\ ~ same (bits / 8) | Next _ => same (bits / 8) end) as Hloop.
  { apply (for_range_inv (fun q (_ : unit) => same q) (fun r => r = false /\ ~ same (bits / 8))); [dlia| |].
    - intros i Hi. lia.
    - intros i t Hi Hsame. destruct (Z.eqb_spec (a !!! Z.to_nat i) (b !!! Z.to_nat i)) as [E|E]; cbn [negb].
      + intros j Hj. destruct (Z.eq_dec j i) as [->|]; [done|apply Hsame; lia].
      + split; [done|]. intros Hall. apply E, Hall. lia. }
  assert (same (bits / 8) <-> forall i, 0 <= i < bits / 8 * 8 -> bit_of a i = bit_of b i) as Hfull.
  { split.
    - intros Hsame i Hi. unfold bit_of. by rewrite Hsame by dlia.
    - intros Hall i Hi. apply byte_eq_bits; [apply Hbyte; (done || dlia)|apply Hbyte; (done || dlia)|]. intros j Hj.
      specialize (Hall (i * 8 + (7 - j)) ltac:(lia)). unfold bit_of in Hall.
      replace ((i * 8 + (7 - j)) / 8) with i in Hall by dlia. replace (7 - (i * 8 + (7 - j)) mod 8) with j in Hall by dlia. done. }
  unfold net_prefix. destruct (for_range _ _ _ _) as [u|r].
  - assert ((bits mod 8 =? 0) || (Z.land (Z.lxor (a !!! Z.to_nat (bits / 8)) (b !!! Z.to_nat (bits / 8))) (u32 (Z.shiftl 0xff (8 - bits mod 8))) =? 0) = true
      <-> forall i, bits / 8 * 8 <= i < bits -> bit_of a i = bit_of b i) as Hlast.
    { destruct (Z.eqb_spec (bits mod 8) 0) as [E|E]; cbn [orb]; [split; [intros _ i Hi; dlia|done]|]. rewrite Z.eqb_eq.
      rewrite mask_bits; [|apply Hbyte; (done || dlia)|apply Hbyte; (done || dlia)|dlia]. split.
      - intros Hj i Hi. unfold bit_of. replace (i / 8) with (bits / 8) by dlia. apply Hj. dlia.
      - intros Hi j Hj. specialize (Hi (bits / 8 * 8 + (7 - j)) ltac:(dlia)). unfold bit_of in Hi.
        replace ((bits / 8 * 8 + (7 - j)) / 8) with (bits / 8) in Hi by dlia.
        replace (7 - (bits / 8 * 8 + (7 - j)) mod 8) with j in Hi by dlia. done. }
    rewrite Hlast. rewrite Hfull in Hloop. split; intros Hx i Hi.
    + destruct (Z.lt_ge_cases i (bits / 8 * 8)); [apply Hloop; lia|apply Hx; lia].
    + apply Hx. dlia.
  - destruct Hloop as [-> Hno]. split; [done|]. intros Hx. exfalso. apply Hno, Hfull. intros i Hi. apply Hx. dlia.
Qed.
Lemma net_prefix_correct_witness :
  let a := [192; 168; 1; 7] ++ replicate 12 0 in let b := [192; 168; 3; 9] ++ replicate 12 0 in
  net_prefix a b 22 = true /\ (forall i, 0 <= i < 22 -> bit_of a i = bit_of b i).
Proof.
  intros a b. split; [reflexivity|].
  assert (bytes_ok a /\ bytes_ok b) as [Ha Hb] by (unfold bytes_ok, is_u8; split; repeat constructor; lia).
  refine (proj1 (net_prefix_correct a b 22 Ha Hb eq_refl eq_refl _) eq_refl). lia.
Defined.
