(* ===== verification/NetAddr.v ===== *)
(** Textual network addresses, [src/kernel-src/drivers/net/networking.c] lines
    216-346: [k_net_parse] and [k_net_format].  A C string is the list of its
    characters before the terminating zero. *)
From S2P Require Import Prelude Klib NetSum.

Definition K_NET_ANY_IF : Z := 0xffffffff.
Record k_net_address := mk_address {
  na_family : Z; na_interface : Z; na_port : Z; na_reserved : Z; na_bytes : list Z }.

(** * Parsing *)

(** The digits of one decimal part: value, number of digits, rest of the text. *)
Fixpoint digits4 (s : list Z) (x n : Z) : option (Z * Z * list Z) :=
  match s with
  | c :: s' =>
      if (48 <=? c) && (c <=? 57) then
        let x := x * 10 + (c - 48) in
        let n := n + 1 in
        if (3 <? n) || (255 <? x) then None else digits4 s' x n
      else Some (x, n, s)
  | [] => Some (x, n, s)
  end.
(** Parts [i], [i+1], ... of a dotted quad; [k] counts the parts to come. *)
Fixpoint parse4_parts (k : nat) (i : Z) (s : list Z) : option (list Z) :=
  match k with
  | O => Some []
  | S k =>
      match digits4 s 0 0 with
      | None => None
      | Some (x, n, s) =>
          if n =? 0 then None
          else if i <? 3 then
            match s with
            | c :: s => if negb (c =? 46) then None else option_map (cons (u8 x)) (parse4_parts k (i + 1) s)
            | [] => None
            end
          else match s with [] => option_map (cons (u8 x)) (parse4_parts k (i + 1) s) | _ => None end
      end
  end.
Definition net_parse4 (s : list Z) : option (list Z) := parse4_parts 4 0 s.

Definition hex_value (c : Z) : Z :=
  if (48 <=? c) && (c <=? 57) then c - 48
  else if (97 <=? c) && (c <=? 102) then c - 97 + 10
  else if (65 <=? c) && (c <=? 70) then c - 65 + 10 else 99.
(** The hexadecimal digits up to the next colon. *)
Fixpoint group6 (s : list Z) (v digits : Z) : option (Z * Z * list Z) :=
  match s with
  | c :: s' =>
      if c =? 58 then Some (v, digits, s)
      else
        let d := hex_value c in
        if (15 <? d) || (4 <? digits + 1) then None else group6 s' (Z.lor (u32 (Z.shiftl v 4)) d) (digits + 1)
  | [] => Some (v, digits, s)
  end.
(** [words] are the entries of the array filled so far; [room] more may follow. *)
Fixpoint parse6_loop (room : nat) (s words : list Z) (gap : option Z) : option (list Z * option Z) :=
  match s with
  | [] => Some (words, gap)
  | _ =>
      match room with
      | O => None
      | S room =>
          match group6 s 0 0 with
          | None => None
          | Some (v, digits, s) =>
              if digits =? 0 then None
              else
                let words := words ++ [u16 v] in
                match s with
                | [] => parse6_loop room [] words gap
                | _ :: s =>
                    match s with
                    | [] => None
                    | c :: s' =>
                        if c =? 58 then
                          match gap with
                          | Some _ => None
                          | None => parse6_loop room s' words (Some (Z.of_nat (length words)))
                          end
                        else parse6_loop room s words gap
                    end
                end
          end
      end
  end.
(** Move the words after the gap to the end of the array and clear the gap. *)
Definition spread (a : list Z) (n gap : Z) : list Z :=
  let shift := 8 - n in
  let a := fold_range 0 (n - gap) (fun j a => let i := n - 1 - j in <[Z.to_nat (i + shift) := a !!! Z.to_nat i]> a) a in
  fold_range gap (gap + shift) (fun i a => <[Z.to_nat i := 0]> a) a.
Definition k_net_parse (s : list Z) (family : Z) : Z + k_net_address :=
  if negb (family =? 4) && negb (family =? 6) then inl K_EINVAL
  else
    if family =? 4 then
      match net_parse4 s with
      | None => inl K_EINVAL
      | Some b => inr (mk_address family K_NET_ANY_IF 0 0 (b ++ replicate 12 0))
      end
    else
      match (match s with
             | c :: s' => if c =? 58 then match s' with
                                          | c' :: s' => if negb (c' =? 58) then None else Some (s', Some 0)
                                          | [] => None end
                          else Some (s, None)
             | [] => Some (s, None)
             end) with
      | None => inl K_EINVAL
      | Some (s, gap) =>
          match parse6_loop 8 s [] gap with
          | None => inl K_EINVAL
          | Some (words, gap) =>
              let n := Z.of_nat (length words) in
              let a := words ++ replicate (8 - length words) 0 in
              match gap with
              | None => if negb (n =? 8) then inl K_EINVAL
                        else inr (mk_address family K_NET_ANY_IF 0 0 (flat_map net_put16 a))
              | Some gap => if 8 <=? n then inl K_EINVAL
                            else inr (mk_address family K_NET_ANY_IF 0 0 (flat_map net_put16 (spread a n gap)))
              end
          end
      end.

(** * Formatting *)
Definition format_byte (v : Z) : list Z :=
  (if 100 <=? v then [48 + v / 100] else []) ++ (if 10 <=? v then [48 + v / 10 mod 10] else []) ++ [48 + v mod 10].
Definition hex_digit (d : Z) : Z := if d <? 10 then 48 + d else 97 + (d - 10).
(** The nibbles at [shift], [shift]-4, ..., 0. *)
Fixpoint format_word (k : nat) (v : Z) (shown : bool) : list Z :=
  match k with
  | O => []
  | S k' =>
      let shift := 4 * Z.of_nat k' in
      if negb (Z.shiftr v shift =? 0) || shown || (shift =? 0)
      then hex_digit (Z.land (Z.shiftr v shift) 15) :: format_word k' v true
      else format_word k' v shown
  end.
(** The text with a separator before every part but the first. *)
Fixpoint separated (sep : Z) (first : bool) (parts : list (list Z)) : list Z :=
  match parts with [] => [] | p :: parts => (if first then [] else [sep]) ++ p ++ separated sep false parts end.
Fixpoint pairs16 (b : list Z) : list Z := match b with b0 :: b1 :: b => net_be16 b0 b1 :: pairs16 b | _ => [] end.
Definition format_text (a : k_net_address) : list Z :=
  if na_family a =? 4 then separated 46 true (map format_byte (take 4 (na_bytes a)))
  else separated 58 true (map (fun v => format_word 4 v false) (pairs16 (na_bytes a))).
Definition k_net_format (a : k_net_address) (capacity : Z) : Z + list Z :=
  if negb (na_family a =? 4) && negb (na_family a =? 6) then inl K_EINVAL
  else
    let b := format_text a in
    if capacity <=? Z.of_nat (length b) then inl K_E2BIG else inr b.

(** [net_address_ok], with the number of interfaces. *)
Definition net_address_ok (devices : Z) (a : k_net_address) : bool :=
  ((na_family a =? 4) || (na_family a =? 6)) && (na_reserved a =? 0) &&
  ((na_interface a =? K_NET_ANY_IF) || (na_interface a <? devices)) &&
  (negb (na_family a =? 4) || net_zero (take 12 (drop 4 (na_bytes a)))).
Example parse_loopback : k_net_parse [58; 58; 49] 6 = inr (mk_address 6 K_NET_ANY_IF 0 0 (replicate 15 0 ++ [1])).
Proof. reflexivity. Qed.
Example parse_v6 : k_net_parse [102; 101; 56; 48; 58; 58; 49; 58; 50] 6 = inr (mk_address 6 K_NET_ANY_IF 0 0 ([254; 128] ++ replicate 11 0 ++ [1; 0; 2])).
Proof. reflexivity. Qed.

(** * The grammar of addresses *)
Fixpoint join (sep : Z) (parts : list (list Z)) : list Z :=
  match parts with [] => [] | [g] => g | g :: parts => g ++ sep :: join sep parts end.
Definition number (base : Z) (val : Z -> Z) (v : Z) (g : list Z) : Z := fold_left (fun v c => v * base + val c) g v.
Definition decimal (c : Z) : Prop := 48 <= c <= 57.
(** One to three decimal digits, at most 255; one to four hexadecimal digits. *)
Definition decgroup (g : list Z) (v : Z) : Prop :=
  (1 <= length g <= 3)%nat /\ Forall decimal g /\ v = number 10 (fun c => c - 48) 0 g /\ v <= 255.
Definition hexgroup (g : list Z) (v : Z) : Prop :=
  (1 <= length g <= 4)%nat /\ Forall (fun c => hex_value c <= 15) g /\ v = number 16 hex_value 0 g.
Definition text4 (s bytes : list Z) : Prop :=
  exists gs, length gs = 4%nat /\ Forall2 decgroup gs bytes /\ s = join 46 gs.
(** Eight groups, or at most seven with one double colon standing for the rest. *)
Definition text6 (s words : list Z) : Prop :=
  (exists gs, length gs = 8%nat /\ Forall2 hexgroup gs words /\ s = join 58 gs) \/
  (exists g1 g2 w1 w2, (length g1 + length g2 <= 7)%nat /\ Forall2 hexgroup g1 w1 /\ Forall2 hexgroup g2 w2 /\
     s = join 58 g1 ++ [58; 58] ++ join 58 g2 /\ words = w1 ++ replicate (8 - length g1 - length g2) 0 ++ w2).

Definition stops (P : Z -> Prop) (rest : list Z) : Prop := match rest with c :: _ => ~ P c | [] => True end.
Lemma hex_value_range c : hex_value c <= 15 -> 0 <= hex_value c.
Proof. unfold hex_value. repeat split_if; lia. Qed.
Lemma hex_value_colon c : hex_value c <= 15 -> c <> 58.
Proof. intros Hc ->. by vm_compute in Hc. Qed.
Lemma number_mono base val v g : 1 <= base -> 0 <= v -> Forall (fun c => 0 <= val c) g -> v <= number base val v g.
Proof.
  intros Hb. revert v. induction g as [|c g IH]; intros v Hv Hg; [done|]. apply Forall_cons in Hg as [Hc Hg].
  change (number base val v (c :: g)) with (number base val (v * base + val c) g).
  specialize (IH (v * base + val c) ltac:(nia) Hg). nia.
Qed.
Lemma decimal_nonneg g : Forall decimal g -> Forall (fun c => 0 <= c - 48) g.
Proof. intros Hg. apply (Forall_impl _ _ _ Hg). unfold decimal. lia. Qed.
Lemma digits4_spec s : forall x n x' n' rest, 0 <= x <= 255 -> 0 <= n <= 3 ->
  digits4 s x n = Some (x', n', rest) <->
  exists g, s = g ++ rest /\ stops decimal rest /\ Forall decimal g /\ x' = number 10 (fun c => c - 48) x g /\
    n' = n + Z.of_nat (length g) /\ n' <= 3 /\ x' <= 255.
Proof.
  induction s as [|c s IH]; intros x n x' n' rest Hx Hn; cbn [digits4].
  - split.
    + intros [= <- <- <-]. exists []. cbn. split_and!; done || lia.
    + intros ([|] & He & _ & _ & -> & -> & _); [|done]. cbn in He. subst rest. cbn. by rewrite Z.add_0_r.
  - destruct ((48 <=? c) && (c <=? 57)) eqn:Hd.
    + assert (decimal c) as Hc by (unfold decimal; reflect_bools; lia). destruct ((3 <? n + 1) || (255 <? x * 10 + (c - 48))) eqn:Hg.
      * split; [done|]. intros ([|c' g] & He & Hst & Hds & Hx' & Hn' & H3 & H255).
        { cbn in He. subst rest. by destruct Hst. }
        injection He as <- He. apply Forall_cons in Hds as [_ Hds].
        change (number _ _ x (c :: g)) with (number 10 (fun c => c - 48) (x * 10 + (c - 48)) g) in Hx'.
        unfold decimal in Hc. pose proof (number_mono 10 (fun c => c - 48) (x * 10 + (c - 48)) g ltac:(lia) ltac:(lia) (decimal_nonneg g Hds)).
        cbn [length] in Hn'. apply orb_prop in Hg as [Hg|Hg]; reflect_bools; lia.
      * apply orb_false_elim in Hg as [Hg1 Hg2]. apply Z.ltb_ge in Hg1, Hg2. unfold decimal in Hc.
        rewrite IH by lia. split.
        -- intros (g & -> & Hst & Hds & -> & -> & H3 & H255). exists (c :: g). cbn [length app].
           split_and!; try done; try (by constructor); lia.
        -- intros ([|c' g] & He & Hst & Hds & Hx' & Hn' & H3 & H255).
           { cbn in He. subst rest. by destruct Hst. }
           injection He as <- He. apply Forall_cons in Hds as [_ Hds]. exists g. cbn [length] in Hn'. split_and!; try done; lia.
    + assert (~ decimal c) as Hc by (unfold decimal; apply andb_false_iff in Hd as [Hd|Hd]; reflect_bools; lia). split.
      * intros [= <- <- <-]. exists []. cbn. split_and!; done || lia.
      * intros ([|c' g] & He & Hst & Hds & Hx' & Hn' & _).
        { cbn in He, Hx', Hn'. subst. by rewrite Z.add_0_r. }
        injection He as <- He. apply Forall_cons in Hds as [? _]. done.
Qed.

Lemma group6_spec s : forall v n v' n' rest, 0 <= n <= 4 -> 0 <= v < 16 ^ n ->
  group6 s v n = Some (v', n', rest) <->
  exists g, s = g ++ rest /\ (rest = [] \/ exists r, rest = 58 :: r) /\ Forall (fun c => hex_value c <= 15) g /\
    v' = number 16 hex_value v g /\ n' = n + Z.of_nat (length g) /\ n' <= 4.
Proof.
  induction s as [|c s IH]; intros v n v' n' rest Hn Hv; cbn [group6].
  - split.
    + intros [= <- <- <-]. exists []. cbn. split_and!; try done; [by left|lia|lia].
    + intros ([|] & He & _ & _ & -> & -> & _); [|done]. cbn in He. subst rest. cbn. by rewrite Z.add_0_r.
  - destruct (Z.eqb_spec c 58) as [->|Hc].
    + split.
      * intros [= <- <- <-]. exists []. cbn. split_and!; try done; [right; by exists s|lia|lia].
      * intros ([|c' g] & He & _ & Hh & Hv' & Hn' & _).
        { cbn in He, Hv', Hn'. subst. by rewrite Z.add_0_r. }
        injection He as <- He. apply Forall_cons in Hh as [Hh _]. by apply hex_value_colon in Hh.
    + cbv zeta. destruct ((15 <? hex_value c) || (4 <? n + 1)) eqn:Hg.
      * split; [done|]. intros ([|c' g] & He & Hst & Hh & _ & Hn' & H4).
        { cbn in He. subst rest. destruct Hst as [|[r Hr]]; [done|]. by injection Hr. }
        injection He as <- He. apply Forall_cons in Hh as [Hh _]. cbn [length] in Hn'.
        apply orb_prop in Hg as [Hg|Hg]; reflect_bools; lia.
      * apply orb_false_elim in Hg as [Hg1 Hg2]. apply Z.ltb_ge in Hg1, Hg2. pose proof (hex_value_range c Hg1).
        assert (16 ^ (n + 1) = 16 ^ n * 16) as Hp by (rewrite Z.pow_add_r by lia; lia).
        assert (16 ^ n <= 16 ^ 3) as Hp3 by (apply Z.pow_le_mono_r; lia).
        assert (Z.lor (u32 (Z.shiftl v 4)) (hex_value c) = v * 16 + hex_value c) as ->.
        { unfold u32. rewrite Z.mod_small by (rewrite Z.shiftl_mul_pow2 by lia; lia).
          rewrite Z.lor_comm, lor_shiftl_add by lia. lia. }
        rewrite IH by lia. split.
        -- intros (g & -> & Hst & Hh & -> & -> & H4). exists (c :: g). cbn [length app].
           split_and!; try done; try (by constructor); lia.
        -- intros ([|c' g] & He & Hst & Hh & Hv' & Hn' & H4).
           { cbn in He. subst rest. destruct Hst as [|[r Hr]]; [done|]. by injection Hr. }
           injection He as <- He. apply Forall_cons in Hh as [_ Hh]. exists g. cbn [length] in Hn'. split_and!; try done; lia.
Qed.
(** A group read from the start of a text. *)
Lemma group6_read s v n rest : group6 s 0 0 = Some (v, n, rest) -> n <> 0 ->
  exists g, s = g ++ rest /\ hexgroup g v /\ (rest = [] \/ exists r, rest = 58 :: r).
Proof.
  intros Hg Hn. apply group6_spec in Hg as (g & -> & Hr & Hh & -> & -> & H4); [|lia|lia].
  exists g. unfold hexgroup. split_and!; try done; lia.
Qed.
Lemma group6_write g v rest : hexgroup g v -> (rest = [] \/ exists r, rest = 58 :: r) ->
  group6 (g ++ rest) 0 0 = Some (v, Z.of_nat (length g), rest).
Proof.
  intros (Hl & Hh & ->) Hr. apply group6_spec; [lia|lia|]. exists g. split_and!; try done; lia.
Qed.
Lemma digits4_read s v n rest : digits4 s 0 0 = Some (v, n, rest) -> n <> 0 ->
  exists g, s = g ++ rest /\ decgroup g v /\ stops decimal rest.
Proof.
  intros Hg Hn. apply digits4_spec in Hg as (g & -> & Hr & Hh & -> & -> & H3 & H255); [|lia|lia].
  exists g. unfold decgroup. split_and!; try done; lia.
Qed.
Lemma digits4_write g v rest : decgroup g v -> stops decimal rest ->
  digits4 (g ++ rest) 0 0 = Some (v, Z.of_nat (length g), rest).
Proof.
  intros (Hl & Hh & -> & H255) Hr. apply digits4_spec; [lia|lia|]. exists g. split_and!; try done; lia.
Qed.
Lemma hexgroup_range g v : hexgroup g v -> is_u16 v.
Proof.
  intros (Hl & Hh & ->). unfold is_u16.
  assert (forall g v, Forall (fun c => hex_value c <= 15) g -> 0 <= v -> 0 <= number 16 hex_value v g < (v + 1) * 16 ^ Z.of_nat (length g)) as Hb.
  { clear. induction g as [|c g IH]; intros v Hg Hv; [cbn; lia|]. apply Forall_cons in Hg as [Hc Hg].
    pose proof (hex_value_range c Hc). change (number 16 hex_value v (c :: g)) with (number 16 hex_value (v * 16 + hex_value c) g).
    specialize (IH (v * 16 + hex_value c) Hg ltac:(lia)). cbn [length]. rewrite Nat2Z.inj_succ, Z.pow_succ_r by lia. nia. }
  specialize (Hb g 0 Hh ltac:(lia)). assert (16 ^ Z.of_nat (length g) <= 16 ^ 4) by (apply Z.pow_le_mono_r; lia). lia.
Qed.
Lemma decgroup_range g v : decgroup g v -> is_u8 v.
Proof.
  intros (_ & Hd & -> & Hv). pose proof (number_mono 10 (fun c => c - 48) 0 g ltac:(lia) ltac:(lia) (decimal_nonneg g Hd)).
  unfold is_u8. lia.
Qed.
Lemma join_cons sep g gs : gs <> [] -> join sep (g :: gs) = g ++ sep :: join sep gs.
Proof. by destruct gs. Qed.

(** ** Dotted quads *)
Lemma parse4_parts_spec k : forall i s bs, (1 <= k)%nat -> i = 4 - Z.of_nat k ->
  parse4_parts k i s = Some bs <-> exists gs, length gs = k /\ Forall2 decgroup gs bs /\ s = join 46 gs.
Proof.
  induction k as [|k IH]; intros i s bs Hk Hi; [lia|]. cbn [parse4_parts]. split.
  - destruct (digits4 s 0 0) as [[[x n] rest]|] eqn:Hd; [|done]. destruct (Z.eqb_spec n 0); [done|].
    apply digits4_read in Hd as (g & -> & Hg & Hst); [|done].
    assert (u8 x = x) as -> by (apply Z.mod_small; exact (decgroup_range g x Hg)).
    destruct (Z.ltb_spec i 3).
    + destruct rest as [|c rest]; [done|]. destruct (Z.eqb_spec c 46) as [->|]; cbn [negb]; [|done].
      destruct (parse4_parts k (i + 1) rest) as [bs'|] eqn:Hp; [|done]. intros [= <-].
      apply IH in Hp as (gs & Hl & Hf & ->); [|lia|lia]. exists (g :: gs). split_and!; [cbn; lia|by constructor|].
      rewrite join_cons; [done|]. intros ->. cbn in Hl. lia.
    + assert (k = 0%nat) as -> by lia. destruct rest; [|done]. cbn. intros [= <-]. exists [g]. cbn. rewrite app_nil_r.
      split_and!; try done. constructor; [done|constructor].
  - intros ([|g gs] & Hl & Hf & ->); [done|]. apply Forall2_cons_inv_l in Hf as (x & bs' & Hg & Hf & ->). cbn [length] in Hl.
    assert (u8 x = x) as Hx by (apply Z.mod_small; exact (decgroup_range g x Hg)).
    assert (Z.of_nat (length g) <> 0) as Hlg by (destruct Hg; lia).
    destruct gs as [|g' gs].
    + cbn [join]. rewrite <- (app_nil_r g), digits4_write with (v := x) by done.
      rewrite (proj2 (Z.eqb_neq _ _)) by done. cbn [length] in Hl. assert (k = 0%nat) as -> by lia.
      rewrite (proj2 (Z.ltb_ge _ _)) by lia. apply Forall2_nil_inv_l in Hf as ->. cbn. by rewrite Hx.
    + rewrite join_cons by done. rewrite digits4_write with (v := x); [|done|unfold stops, decimal; lia].
      rewrite (proj2 (Z.eqb_neq _ _)) by done. cbn [length] in Hl. rewrite (proj2 (Z.ltb_lt _ _)) by lia.
      rewrite Z.eqb_refl. cbn [negb]. rewrite (proj2 (IH (i + 1) _ bs' ltac:(lia) ltac:(lia))); [by rewrite Hx|].
      exists (g' :: gs). split_and!; [cbn; lia|done|done].
Qed.
Lemma net_parse4_spec s bs : net_parse4 s = Some bs <-> text4 s bs.
Proof. apply parse4_parts_spec; [lia|done]. Qed.

(** ** Colon-separated groups *)
Lemma sep_join_app sep g1 g2 : g1 <> [] -> g2 <> [] -> join sep (g1 ++ g2) = join sep g1 ++ sep :: join sep g2.
Proof.
  intros H1 H2. induction g1 as [|g g1 IH]; [done|]. destruct g1 as [|g' g1].
  - change ([g] ++ g2) with (g :: g2). by rewrite join_cons.
  - cbn [app]. rewrite !join_cons by done. rewrite <- app_comm_cons in IH. rewrite IH by done. by rewrite app_comm_cons, app_assoc.
Qed.
Lemma hexgroup_head g v rest : hexgroup g v -> exists c r, g ++ rest = c :: r /\ c <> 58.
Proof.
  intros (Hl & Hh & _). destruct g as [|c g]; [cbn in Hl; lia|]. apply Forall_cons in Hh as [Hc _].
  exists c, (g ++ rest). split; [done|]. by apply hex_value_colon.
Qed.
Lemma join_head g gs v : hexgroup g v -> exists c r, join 58 (g :: gs) = c :: r /\ c <> 58.
Proof.
  intros Hg. destruct gs as [|g' gs].
  - cbn [join]. destruct (hexgroup_head g v [] Hg) as (c & r & He & Hc). rewrite app_nil_r in He. eauto.
  - rewrite join_cons by done. by apply (hexgroup_head g v).
Qed.
(** One step of the loop on a group. *)
Lemma parse6_group room g v rest words gap : hexgroup g v -> (rest = [] \/ exists r, rest = 58 :: r) ->
  parse6_loop (S room) (g ++ rest) words gap =
    match rest with
    | [] => Some (words ++ [v], gap)
    | _ :: [] => None
    | _ :: c :: s' =>
        if c =? 58 then match gap with
                        | Some _ => None
                        | None => parse6_loop room s' (words ++ [v]) (Some (Z.of_nat (length (words ++ [v]))))
                        end
        else parse6_loop room (c :: s') (words ++ [v]) gap
    end.
Proof.
  intros Hg Hr. pose proof (group6_write g v rest Hg Hr) as Hw. destruct (hexgroup_head g v rest Hg) as (c & r & He & _).
  assert (u16 v = v) as Hu by (apply Z.mod_small; exact (hexgroup_range g v Hg)).
  rewrite He in *. cbn [parse6_loop]. rewrite Hw, Hu. destruct Hg as ([Hl _] & _ & _).
  rewrite (proj2 (Z.eqb_neq _ _)) by lia.
  destruct rest as [|c0 rest]; [by destruct room|]. destruct rest as [|c' s']; done.
Qed.
Lemma parse6_complete gs ws : Forall2 hexgroup gs ws -> forall room words gap, (length gs <= room)%nat ->
  parse6_loop room (join 58 gs) words gap = Some (words ++ ws, gap).
Proof.
  induction 1 as [|g v gs ws Hg Hgs IH]; intros room words gap Hr.
  - rewrite app_nil_r. by destruct room.
  - cbn [length] in Hr. destruct room as [|room]; [lia|]. destruct Hgs as [|g' v' gs ws Hg' Hgs].
    + cbn [join]. rewrite <- (app_nil_r g), (parse6_group room g v) by (done || by left). done.
    + rewrite join_cons by done. rewrite (parse6_group room g v) by (done || (right; by eexists)).
      specialize (IH room (words ++ [v]) gap ltac:(cbn [length] in *; lia)).
      destruct (join_head g' gs v' Hg') as (c & r & He & Hc). rewrite He in *.
      rewrite (proj2 (Z.eqb_neq _ _)) by done. rewrite IH, <- app_assoc. done.
Qed.
Lemma parse6_complete_gap g1 w1 g2 w2 : Forall2 hexgroup g1 w1 -> Forall2 hexgroup g2 w2 -> g1 <> [] ->
  forall room words, (length g1 + length g2 <= room)%nat ->
  parse6_loop room (join 58 g1 ++ 58 :: 58 :: join 58 g2) words None =
    Some (words ++ w1 ++ w2, Some (Z.of_nat (length words + length w1))).
Proof.
  intros H1 H2. induction H1 as [|g v gs ws Hg Hgs IH]; intros Hne room words Hr; [done|]. clear Hne.
  cbn [length] in Hr. destruct room as [|room]; [lia|]. destruct Hgs as [|g' v' gs ws Hg' Hgs].
  - cbn [join]. rewrite (parse6_group room g v) by (done || (right; by eexists)). rewrite Z.eqb_refl.
    rewrite (parse6_complete g2 w2 H2) by (cbn [length] in *; lia). rewrite length_app, <- app_assoc. done.
  - rewrite join_cons, <- app_assoc by done. cbn [app].
    rewrite (parse6_group room g v) by (done || (right; by eexists)).
    destruct (join_head g' gs v' Hg') as (c & r & He & Hc).
    specialize (IH ltac:(done) room (words ++ [v]) ltac:(cbn [length] in *; lia)). rewrite He in *. cbn [app] in *.
    rewrite (proj2 (Z.eqb_neq _ _)) by done. rewrite IH, <- app_assoc, length_app. cbn [app length]. do 3 f_equal. lia.
Qed.
(** What an accepted text consists of. *)
Lemma parse6_sound room : forall s words gap words' gap', parse6_loop room s words gap = Some (words', gap') ->
  exists gs ws, Forall2 hexgroup gs ws /\ (length gs <= room)%nat /\ words' = words ++ ws /\
    ((gap' = gap /\ s = join 58 gs) \/
     (gap = None /\ exists g1 g2, g1 <> [] /\ gs = g1 ++ g2 /\ gap' = Some (Z.of_nat (length words + length g1)) /\
        s = join 58 g1 ++ 58 :: 58 :: join 58 g2)).
Proof.
  assert (forall words gap, exists gs ws, Forall2 hexgroup gs ws /\ (length gs <= 0)%nat /\ words = words ++ ws /\
    ((gap = gap /\ [] = join 58 gs) \/
     (gap = @None Z /\ exists g1 g2, g1 <> [] /\ gs = g1 ++ g2 /\ gap = Some (Z.of_nat (length words + length g1)) /\
        [] = join 58 g1 ++ 58 :: 58 :: join 58 g2))) as Hnil.
  { intros words gap. exists [], []. rewrite app_nil_r. split_and!; try done. by left. }
  induction room as [|room IH]; intros s words gap words' gap'.
  { destruct s; [|done]. cbn. intros [= <- <-]. apply Hnil. }
  destruct s as [|c0 s0].
  { cbn. intros [= <- <-]. destruct (Hnil words gap) as (gs & ws & ? & ? & ? & ?). exists gs, ws. split_and!; try done; lia. }
  remember (c0 :: s0) as s eqn:Es. assert (s <> []) as Hs by (by subst). clear Es c0 s0.
  destruct (group6 s 0 0) as [[[v n] rest]|] eqn:Hg.
  2: { destruct s; [done|]. cbn [parse6_loop]. by rewrite Hg. }
  destruct (Z.eq_dec n 0) as [->|Hn].
  { destruct s; [done|]. cbn [parse6_loop]. by rewrite Hg. }
  apply group6_read in Hg as (g & -> & Hg & Hr); [|done]. rewrite (parse6_group room g v rest words gap Hg Hr).
  destruct Hr as [->|[r ->]].
  { intros [= <- <-]. exists [g], [v]. rewrite app_nil_r. split_and!; [constructor; [done|constructor]|cbn; lia|done|by left]. }
  destruct r as [|c s']; [done|]. destruct (Z.eqb_spec c 58) as [->|Hc].
  - destruct gap; [done|]. intros Hp. apply IH in Hp as (gs & ws & Hf & Hl & -> & [[-> ->]|[? _]]); [|done].
    exists (g :: gs), (v :: ws). split_and!; [by constructor|cbn; lia|by rewrite <- app_assoc|]. right. split; [done|].
    exists [g], gs. split_and!; try done. by rewrite length_app.
  - intros Hp. apply IH in Hp as (gs & ws & Hf & Hl & -> & Hcase). exists (g :: gs), (v :: ws).
    split_and!; [by constructor|cbn; lia|by rewrite <- app_assoc|]. destruct Hcase as [[-> Hj]|(-> & g1 & g2 & Hne & -> & -> & Hj)].
    + left. split; [done|]. rewrite Hj. rewrite join_cons; [done|]. intros ->. done.
    + right. split; [done|]. exists (g :: g1), g2. split_and!; [done|done| |].
      * rewrite length_app. cbn [length]. do 2 f_equal. lia.
      * rewrite join_cons by done. rewrite <- app_assoc. cbn [app]. by rewrite <- Hj.
Qed.

(** The two loops over the array of words put zeroes in the gap. *)
Lemma spread_spec w1 w2 : (length w1 + length w2 <= 7)%nat ->
  spread ((w1 ++ w2) ++ replicate (8 - length (w1 ++ w2)) 0) (Z.of_nat (length (w1 ++ w2))) (Z.of_nat (length w1)) =
  w1 ++ replicate (8 - length w1 - length w2) 0 ++ w2.
Proof.
  intros Hl. do 8 (destruct w1 as [|? w1]; [do 8 (destruct w2 as [|? w2]; [first [exfalso; cbn [length] in Hl; lia|reflexivity]|]); cbn [length] in Hl; lia|]).
  cbn [length] in Hl; lia.
Qed.
Definition parsed6 (ws : list Z) : k_net_address := mk_address 6 K_NET_ANY_IF 0 0 (flat_map net_put16 ws).
Lemma Forall2_len {A B} (R : A -> B -> Prop) l k : Forall2 R l k -> length l = length k.
Proof. apply Forall2_length. Qed.
(** The parser on a text with a gap. *)
Lemma parse_gap g1 g2 w1 w2 : (length g1 + length g2 <= 7)%nat -> Forall2 hexgroup g1 w1 -> Forall2 hexgroup g2 w2 ->
  k_net_parse (join 58 g1 ++ [58; 58] ++ join 58 g2) 6 = inr (parsed6 (w1 ++ replicate (8 - length g1 - length g2) 0 ++ w2)).
Proof.
  intros Hl H1 H2. pose proof (Forall2_len _ _ _ H1) as L1. pose proof (Forall2_len _ _ _ H2) as L2.
  unfold k_net_parse. cbn [negb andb Z.eqb Pos.eqb].
  assert ((8 <=? Z.of_nat (length (w1 ++ w2))) = false) as Hn by (apply Z.leb_gt; rewrite length_app; lia).
  rewrite L1, L2, <- spread_spec by lia. destruct g1 as [|g g1].
  - cbn [join app]. rewrite Z.eqb_refl. cbn [negb]. rewrite (parse6_complete g2 w2 H2) by (cbn [length] in *; lia).
    apply Forall2_nil_inv_l in H1 as ->. rewrite app_nil_l in *. by rewrite Hn.
  - pose proof H1 as H1'. apply Forall2_cons_inv_l in H1 as (v & w1' & Hg & _ & _).
    destruct (join_head g g1 v Hg) as (c & r & He & Hc).
    pose proof (parse6_complete_gap (g :: g1) w1 g2 w2 H1' H2 ltac:(done) 8 [] ltac:(lia)) as Hp. rewrite He in *.
    cbn [app] in *. rewrite (proj2 (Z.eqb_neq c 58)) by done. rewrite Hp, Hn. done.
Qed.
Lemma parse_full gs ws : length gs = 8%nat -> Forall2 hexgroup gs ws -> k_net_parse (join 58 gs) 6 = inr (parsed6 ws).
Proof.
  intros Hl Hf. pose proof (Forall2_len _ _ _ Hf) as L. unfold k_net_parse. cbn [negb andb Z.eqb Pos.eqb].
  destruct gs as [|g gs]; [done|]. pose proof Hf as Hf'. apply Forall2_cons_inv_l in Hf as (v & ws' & Hg & _ & _).
  destruct (join_head g gs v Hg) as (c & r & He & Hc). pose proof (parse6_complete (g :: gs) ws Hf' 8 [] None ltac:(lia)) as Hp.
  rewrite He in *. rewrite (proj2 (Z.eqb_neq c 58)) by done. rewrite Hp. cbn [app].
  rewrite <- L, Hl. cbn [Nat.sub replicate]. by rewrite app_nil_r.
Qed.
Lemma parse6_inv s a : k_net_parse s 6 = inr a -> exists ws, text6 s ws /\ a = parsed6 ws.
Proof.
  unfold k_net_parse. cbn [negb andb Z.eqb Pos.eqb].
  assert (forall s gap words gap', parse6_loop 8 s [] gap = Some (words, gap') ->
    (if match gap' with None => negb (Z.of_nat (length words) =? 8) | Some _ => 8 <=? Z.of_nat (length words) end then false else true) = true ->
    exists gs, Forall2 hexgroup gs words /\
     ((gap = gap' /\ s = join 58 gs /\ (gap = None -> length gs = 8%nat) /\ (gap <> None -> (length gs <= 7)%nat)) \/
      (gap = None /\ exists g1 g2, g1 <> [] /\ gs = g1 ++ g2 /\ (length gs <= 7)%nat /\ gap' = Some (Z.of_nat (length g1)) /\
         s = join 58 g1 ++ 58 :: 58 :: join 58 g2))) as Hloop.
  { intros s0 gap words gap' Hp Hn. apply parse6_sound in Hp as (gs & ws & Hf & Hl & -> & Hc). cbn [app length Nat.add] in *.
    pose proof (Forall2_len _ _ _ Hf) as L. exists gs. split; [done|]. destruct Hc as [[-> ->]|(-> & g1 & g2 & Hne & -> & -> & ->)].
    - left. split_and!; try done.
      + intros ->. destruct (Z.eqb_spec (Z.of_nat (length ws)) 8); [lia|done].
      + intros Hgap. destruct gap; [|done]. destruct (Z.leb_spec 8 (Z.of_nat (length ws))); [done|lia].
    - right. split; [done|]. exists g1, g2. split_and!; try done. destruct (Z.leb_spec 8 (Z.of_nat (length ws))); [done|lia]. }
  assert (forall s0, match parse6_loop 8 s0 [] None with None => inl K_EINVAL | Some (words, gap) =>
      match gap with
      | None => if negb (Z.of_nat (length words) =? 8) then inl K_EINVAL
                else inr (mk_address 6 K_NET_ANY_IF 0 0 (flat_map net_put16 (words ++ replicate (8 - length words) 0)))
      | Some gap => if 8 <=? Z.of_nat (length words) then inl K_EINVAL
                    else inr (mk_address 6 K_NET_ANY_IF 0 0 (flat_map net_put16 (spread (words ++ replicate (8 - length words) 0) (Z.of_nat (length words)) gap)))
      end end = inr a -> exists ws, text6 s0 ws /\ a = parsed6 ws) as Hplain.
  { intros s0. destruct (parse6_loop 8 s0 [] None) as [[words gap']|] eqn:Hp; [|done]. specialize (Hloop _ _ _ _ Hp).
    destruct gap' as [g|].
    - destruct (8 <=? Z.of_nat (length words)); [done|]. destruct (Hloop eq_refl) as (gs & Hf & [[? _]|(_ & g1 & g2 & Hne & -> & Hl & [= ->] & ->)]); [done|].
      intros [= <-]. apply Forall2_app_inv_l in Hf as (w1 & w2 & H1 & H2 & ->). rewrite length_app in Hl.
      exists (w1 ++ replicate (8 - length g1 - length g2) 0 ++ w2). split; [right; by exists g1, g2, w1, w2|].
      rewrite (Forall2_len _ _ _ H1), (Forall2_len _ _ _ H2) in *. by rewrite spread_spec.
    - destruct (negb _); [done|]. destruct (Hloop eq_refl) as (gs & Hf & [(_ & -> & Hl & _)|(_ & g1 & g2 & _ & _ & _ & ? & _)]); [|done].
      intros [= <-]. exists words. split; [left; exists gs; split_and!; auto|].
      rewrite <- (Forall2_len _ _ _ Hf), Hl by done. cbn [Nat.sub replicate]. by rewrite app_nil_r. }
  destruct s as [|c s0]; [apply Hplain|]. destruct (Z.eqb_spec c 58) as [->|Hc]; [|apply Hplain].
  destruct s0 as [|c' s']; [done|]. destruct (Z.eqb_spec c' 58) as [->|]; cbn [negb]; [|done].
  destruct (parse6_loop 8 s' [] (Some 0)) as [[words gap']|] eqn:Hp; [|done]. specialize (Hloop _ _ _ _ Hp).
  destruct gap' as [g|].
  - destruct (8 <=? Z.of_nat (length words)); [done|]. destruct (Hloop eq_refl) as (gs & Hf & [([= <-] & -> & _ & Hl)|(? & _)]); [|done].
    intros [= <-]. specialize (Hl ltac:(done)). exists ([] ++ replicate (8 - 0 - length gs) 0 ++ words).
    split; [right; exists [], gs, [], words; split_and!; try done; constructor|].
    rewrite (Forall2_len _ _ _ Hf) in *. change (length words) with (length ([] ++ words)) at 1 2. change words with ([] ++ words) at 1.
    change 0 with (Z.of_nat (length (@nil Z))) at 3. by rewrite spread_spec.
  - destruct (negb _); [done|]. by destruct (Hloop eq_refl) as (gs & Hf & [(? & _)|(? & _)]).
Qed.

(** C36: the parser accepts exactly the address grammar.  [k_net_parse] succeeds
    on a text exactly when it is a dotted quad of decimal parts up to 255
    (IPv4), or eight hexadecimal groups, or at most seven with one double colon
    that stands for the missing zero groups (IPv6); the result is the address
    with those parts, on any interface; every other text is refused with
    K_EINVAL. *)
Theorem net_parse_grammar s a :
  (k_net_parse s 4 = inr a <-> exists bs, text4 s bs /\ a = mk_address 4 K_NET_ANY_IF 0 0 (bs ++ replicate 12 0)) /\
  (k_net_parse s 6 = inr a <-> exists ws, text6 s ws /\ a = parsed6 ws) /\
  (forall family, match k_net_parse s family with inl e => e = K_EINVAL | inr _ => family = 4 \/ family = 6 end).
Proof.
  split_and!.
  - unfold k_net_parse. cbn [negb andb Z.eqb Pos.eqb]. destruct (net_parse4 s) as [bs|] eqn:Hp; split.
    + intros [= <-]. exists bs. split; [by apply net_parse4_spec|done].
    + intros (bs' & Ht & ->). apply net_parse4_spec in Ht. congruence.
    + done.
    + intros (bs' & Ht & ->). apply net_parse4_spec in Ht. congruence.
  - split; [apply parse6_inv|]. intros (ws & [(gs & Hl & Hf & ->)|(g1 & g2 & w1 & w2 & Hl & H1 & H2 & -> & ->)] & ->).
    + by apply parse_full.
    + by apply parse_gap.
  - intros family. unfold k_net_parse. destruct (Z.eqb_spec family 4); [by destruct (net_parse4 s); [left|]|].
    destruct (Z.eqb_spec family 6); [|done]. cbn [negb andb].
    destruct (match s with [] => _ | _ => _ end) as [[s' gap]|]; [|done].
    destruct (parse6_loop 8 s' [] gap) as [[words [g|]]|]; [| |done].
    + destruct (_ <=? _); [done|by right].
    + destruct (negb _); [done|by right].
Qed.

(** ** Formatting *)
Lemma format_byte_dec v : is_u8 v -> decgroup (format_byte v) v.
Proof.
  intros Hv. unfold is_u8 in Hv. unfold decgroup, format_byte, decimal, number.
  destruct (Z.leb_spec 100 v), (Z.leb_spec 10 v); try lia; cbn [app length fold_left];
    (split_and!; [lia|lia|repeat (apply List.Forall_cons; [dlia|]); apply List.Forall_nil|dlia|lia]).
Qed.
Lemma hex_digit_value d : 0 <= d < 16 -> hex_value (hex_digit d) = d.
Proof.
  intros Hd. unfold hex_value, hex_digit. destruct (Z.ltb_spec d 10).
  - rewrite (proj2 (Z.leb_le 48 _)), (proj2 (Z.leb_le _ 57)) by lia. cbn [andb]. lia.
  - rewrite (proj2 (Z.leb_gt _ 57)), andb_false_r, (proj2 (Z.leb_le 97 _)), (proj2 (Z.leb_le _ 102)) by lia. cbn [andb]. lia.
Qed.
Lemma format_word_hex v : is_u16 v -> hexgroup (format_word 4 v false) v.
Proof.
  intros Hv. unfold is_u16 in Hv.
  assert (forall s, 0 <= s -> Z.land (Z.shiftr v s) 15 = (v / 2 ^ s) mod 16) as Hland.
  { intros s Hs. change 15 with (Z.ones 4). by rewrite Z.land_ones, Z.shiftr_div_pow2 by lia. }
  assert (forall d, 0 <= d mod 16 < 16) as Hm by (intros d; apply Z.mod_pos_bound; lia).
  assert (forall l, (1 <= length l <= 4)%nat -> Forall (fun d => 0 <= d < 16) l -> v = fold_left (fun v d => v * 16 + d) l 0 ->
    hexgroup (map hex_digit l) v) as Hgroup.
  { intros l Hl Hd Hval. unfold hexgroup, number. rewrite length_map. split_and!; [lia|lia| |].
    - apply Forall_map. apply (Forall_impl _ _ _ Hd). intros d Hdr. cbn. rewrite hex_digit_value by done. lia.
    - rewrite Hval. clear Hl Hval. generalize 0. induction Hd as [|d l Hdr Hd IH]; intros x; [done|].
      cbn [map fold_left]. by rewrite hex_digit_value, IH by done. }
  cbn [format_word]. change (4 * Z.of_nat 3) with 12. change (4 * Z.of_nat 2) with 8. change (4 * Z.of_nat 1) with 4.
  change (4 * Z.of_nat 0) with 0. rewrite !Hland, !Z.shiftr_div_pow2 by lia.
  change (2 ^ 12) with 4096. change (2 ^ 8) with 256. change (2 ^ 4) with 16. change (2 ^ 0) with 1.
  destruct (Z.eqb_spec (v / 4096) 0); cbn [negb orb Z.eqb].
  1: destruct (Z.eqb_spec (v / 256) 0); cbn [negb orb Z.eqb]; [destruct (Z.eqb_spec (v / 16) 0); cbn [negb orb Z.eqb]|].
  - rewrite orb_true_r. apply (Hgroup [_]); [cbn; lia|apply List.Forall_cons; [apply Hm|apply List.Forall_nil]|cbn [fold_left]; dlia].
  - rewrite !orb_true_r. apply (Hgroup [_; _]); [cbn; lia|repeat (apply List.Forall_cons; [apply Hm|]); apply List.Forall_nil|cbn [fold_left]; dlia].
  - rewrite !orb_true_r. apply (Hgroup [_; _; _]); [cbn; lia|repeat (apply List.Forall_cons; [apply Hm|]); apply List.Forall_nil|cbn [fold_left]; dlia].
  - rewrite !orb_true_r. apply (Hgroup [_; _; _; _]); [cbn; lia|repeat (apply List.Forall_cons; [apply Hm|]); apply List.Forall_nil|cbn [fold_left]; dlia].
Qed.
Lemma separated_join sep parts : separated sep true parts = join sep parts.
Proof.
  destruct parts as [|g parts]; [done|]. cbn [separated app]. revert g.
  induction parts as [|g' parts IH]; intros g; [by rewrite app_nil_r|]. rewrite join_cons by done. f_equal.
  change (separated sep false (g' :: parts)) with (sep :: g' ++ separated sep false parts). by rewrite IH.
Qed.
Lemma join_length sep m parts : Forall (fun g => (length g <= m)%nat) parts -> (length (join sep parts) <= (m + 1) * length parts - 1)%nat.
Proof.
  induction 1 as [|g parts Hg Hp IH]; [cbn; lia|]. destruct parts as [|g' parts]; [cbn; lia|].
  rewrite join_cons by done. rewrite length_app. cbn [length] in *. nia.
Qed.
Lemma pairs16_length b n : length b = (2 * n)%nat -> length (pairs16 b) = n.
Proof.
  revert n. induction b as [|x|x y b IH] using pairs_ind; intros n Hn; cbn [pairs16 length] in *; [lia|lia|].
  rewrite (IH (n - 1)%nat); lia.
Qed.
Lemma pairs16_put16 b : bytes_ok b -> Nat.Even (length b) -> flat_map net_put16 (pairs16 b) = b /\ Forall is_u16 (pairs16 b).
Proof.
  induction b as [|x|x y b IH] using pairs_ind; intros Hb He; cbn [pairs16 flat_map].
  - done.
  - destruct He as [z Hz]. cbn in Hz. lia.
  - rewrite !bytes_cons in Hb. destruct Hb as (Hx & Hy & Hb).
    destruct IH as [IH IHf]; [done|destruct He as [z Hz]; exists (Nat.pred z); cbn [length] in Hz; lia|].
    rewrite be16_eq by done. unfold is_u8 in *. assert (is_u16 (256 * x + y)) as Hu by (unfold is_u16; lia).
    split; [|by constructor]. rewrite put16_eq, IH by done. cbn [app]. f_equal; [dlia|f_equal; dlia].
Qed.

(** What [format_text] writes, by family, and its length. *)
Definition address_ok (a : k_net_address) : Prop :=
  (na_family a = 4 \/ na_family a = 6) /\ bytes_ok (na_bytes a) /\ length (na_bytes a) = 16%nat /\
  (na_family a = 4 -> drop 4 (na_bytes a) = replicate 12 0).
Lemma format_text_spec a : address_ok a ->
  (na_family a = 4 -> text4 (format_text a) (take 4 (na_bytes a))) /\
  (na_family a = 6 -> text6 (format_text a) (pairs16 (na_bytes a))) /\ (length (format_text a) <= 39)%nat.
Proof.
  intros (Hf & Hb & Hl & _). unfold format_text. rewrite !separated_join. destruct Hf as [E|E]; rewrite E; cbn [Z.eqb Pos.eqb].
  - assert (Forall is_u8 (take 4 (na_bytes a))) as Ht by (by apply Forall_take). set (l := take 4 (na_bytes a)) in *.
    assert (length l = 4%nat) as Hl4 by (unfold l; rewrite length_take; lia).
    assert (Forall2 decgroup (map format_byte l) l) as H2.
    { apply Forall2_fmap_l. apply Forall_Forall2_diag. apply (Forall_impl _ _ _ Ht). apply format_byte_dec. }
    split_and!; [|done|].
    + intros _. exists (map format_byte l). rewrite length_map. done.
    + pose proof (join_length 46 3 (map format_byte l)) as Hj. rewrite length_map, Hl4 in Hj. etransitivity; [apply Hj|lia].
      apply Forall_map. apply (Forall_impl _ _ _ Ht). intros v Hv. destruct (format_byte_dec v Hv). cbn. lia.
  - destruct (pairs16_put16 (na_bytes a) Hb) as [_ Hu]; [rewrite Hl; by exists 8%nat|]. set (l := pairs16 (na_bytes a)) in *.
    assert (length l = 8%nat) as Hl8 by (by apply pairs16_length).
    assert (Forall2 hexgroup (map (fun v => format_word 4 v false) l) l) as H2.
    { apply Forall2_fmap_l. apply Forall_Forall2_diag. apply (Forall_impl _ _ _ Hu). apply format_word_hex. }
    split_and!; [done| |].
    + intros _. left. exists (map (fun v => format_word 4 v false) l). rewrite length_map. done.
    + pose proof (join_length 58 4 (map (fun v => format_word 4 v false) l)) as Hj. rewrite length_map, Hl8 in Hj.
      etransitivity; [apply Hj|lia]. apply Forall_map. apply (Forall_impl _ _ _ Hu). intros v Hv.
      destruct (format_word_hex v Hv). cbn -[format_word]. lia.
Qed.

(** Formatting and parsing are inverse.  For every address of family 4 or 6
    the text that [k_net_format] builds has at most 39 characters, so its 48
    byte buffer never overflows; with room for it and the terminator the call
    succeeds, and parsing the result gives back the family and the bytes; with
    less room the call fails with K_E2BIG and writes nothing. *)
Theorem net_format_roundtrip a capacity : address_ok a ->
  match k_net_format a capacity with
  | inr s => Z.of_nat (length s) < capacity /\ (length s <= 39)%nat /\
             k_net_parse s (na_family a) = inr (mk_address (na_family a) K_NET_ANY_IF 0 0 (na_bytes a))
  | inl e => e = K_E2BIG /\ capacity <= 39
  end.
Proof.
  intros Ha. destruct (format_text_spec a Ha) as (H4 & H6 & Hl). destruct Ha as (Hf & Hb & Hlen & Hz). unfold k_net_format.
  assert (negb (na_family a =? 4) && negb (na_family a =? 6) = false) as -> by (destruct Hf as [-> | ->]; done).
  destruct (Z.leb_spec capacity (Z.of_nat (length (format_text a)))); [split; [done|lia]|]. split_and!; [lia|done|].
  destruct Hf as [E|E]; rewrite E in *.
  - apply net_parse_grammar. exists (take 4 (na_bytes a)). split; [by apply H4|]. by rewrite <- Hz, take_drop.
  - apply net_parse_grammar. exists (pairs16 (na_bytes a)). split; [by apply H6|]. unfold parsed6.
    rewrite (proj1 (pairs16_put16 (na_bytes a) Hb ltac:(rewrite Hlen; by exists 8%nat))). done.
Qed.
Lemma net_format_roundtrip_witness :
  let a := mk_address 6 K_NET_ANY_IF 0 0 ([254; 128] ++ replicate 13 0 ++ [1]) in
  k_net_format a 48 = inr (format_text a) /\ k_net_parse (format_text a) 6 = inr a.
Proof.
  intros a. assert (k_net_format a 48 = inr (format_text a)) as Hf by reflexivity. split; [exact Hf|].
  assert (address_ok a) as Ha.
  { unfold address_ok. split_and!; [by right| |reflexivity|discriminate]. unfold bytes_ok, is_u8, a. cbn [na_bytes].
    repeat constructor; lia. }
  pose proof (net_format_roundtrip a 48 Ha) as Hr. rewrite Hf in Hr. exact (proj2 (proj2 Hr)).
Defined.
