(* ===== verification/Mmu.v ===== *)
(** Page tables and address spaces, [src/kernel-src/arch/x86_64/mmu.c] and
    [vm_features.c] (without [x86_64_vmm_init], which programs the processor).
    Tables live in byte memory: entry [i] of the table at physical address [t]
    is the 64-bit word at [t + 8 i], and the pages come from a page source. *)
From S2P Require Import Prelude Klib PageAlloc State.

Definition PAGE_PRESENT : Z := 1.
Definition PAGE_RW : Z := 2.
Definition PAGE_USER : Z := 4.
Definition PAGE_PWT : Z := 8.
Definition PAGE_PCD : Z := 16.
Definition PAGE_LARGE : Z := 0x80.
Definition X86_LAZY : Z := 0x200.
Definition PAGE_PAT_LARGE : Z := 0x1000.
Definition PAGE_NX : Z := 2 ^ 63.
Definition PHYS_MASK : Z := 0x000ffffffffff000.
Definition USER_SLOT : Z := 128.
Definition MAX_AS : Z := 72.
Definition MAX_USER_PAGES : Z := 16384.
Definition K_USER_BASE : Z := 0x0000400000000000.
Definition K_USER_LIMIT : Z := 0x0000408000000000.
Definition K_USER_CANON_LIMIT : Z := 0x0000800000000000.
Definition RIEF_REGION_R : Z := 1.
Definition RIEF_REGION_W : Z := 2.
Definition RIEF_REGION_X : Z := 4.
Definition K_VM_LAZY : Z := 1.
Definition K_VM_HUGE : Z := 2.

Definition has (e flag : Z) : bool := negb (Z.land e flag =? 0).
Definition canonical (a : Z) : bool := (Z.shiftr a 47 =? 0) || (Z.shiftr a 47 =? 0x1ffff).
(** [(v >> (12 + 9 * (level - 1))) & 511]. *)
Definition pt_index (v level : Z) : Z := Z.land (Z.shiftr v (12 + 9 * (level - 1))) 511.

(** The processor features and the kernel's own tables. *)
Record mmu_config := mk_config { nx : bool; vm_ready : bool; smp_started : bool; pml4 : Z }.

(** What the page-table code works on: the page source, memory, and the
    invalidations it issues. *)
Record vm (St : Type) := mk_vm { vm_pages : St; vm_ram : zmap; vm_hw : list hw_event }.
Arguments mk_vm {St}. Arguments vm_pages {St}. Arguments vm_ram {St}. Arguments vm_hw {St}.
#[export] Instance vm_updatable St : Updatable (vm St) := fun r => mk_vm (vm_pages r) (vm_ram r) (vm_hw r).

Section Mmu.
Context {St : Type} `{PageSource St} (cfg : mmu_config).
Implicit Types m : vm St.

Definition entry (m : vm St) (t i : Z) : Z := rd64 (vm_ram m) (t + 8 * i).
Definition set_entry (t i e : Z) (m : vm St) : vm St := m <| vm_ram ::= (fun r => wr64 r (t + 8 * i) e) |>.
Definition invalidate (v : Z) (m : vm St) : vm St := m <| vm_hw ::= (fun l => l ++ [Invalidate_page v]) |>.
(** [k_pmm_alloc_pages(n, max)] and [k_pmm_free_pages(p, n)]. *)
Definition vm_alloc (m : vm St) (n max : Z) : vm St * Z :=
  let '(s, ram, p) := pa_alloc (vm_pages m) (vm_ram m) n max in (mk_vm s ram (vm_hw m), p).
Definition vm_free (p n : Z) (m : vm St) : vm St := m <| vm_pages ::= (fun s => pa_free s p n) |>.
Definition vm_alloc_aligned (m : vm St) (n align max : Z) : vm St * Z :=
  let '(s, ram, p) := pa_alloc_aligned (vm_pages m) (vm_ram m) n align max in (mk_vm s ram (vm_hw m), p).

(** * Descending one level *)

(** The 512 entries that replace a large page. *)
Definition split_flags (e level : Z) : Z :=
  let flags := Z.land e (u64 (Z.lnot PHYS_MASK)) in
  if has e PAGE_PAT_LARGE then Z.lor flags (if level =? 3 then PAGE_PAT_LARGE else PAGE_LARGE)
  else if level =? 2 then Z.land flags (u64 (Z.lnot PAGE_LARGE)) else flags.
Definition split_base (e level : Z) : Z :=
  Z.land (Z.land e PHYS_MASK) (u64 (Z.lnot ((if level =? 3 then 0x40000000 else 0x200000) - 1))).
Definition fill_child (child e level : Z) (m : vm St) : vm St :=
  let stride := if level =? 3 then 0x200000 else 4096 in
  fold_range 0 512 (fun j m => set_entry child j (Z.lor (u64 (split_base e level + j * stride)) (split_flags e level)) m) m.
Definition pt_child (m : vm St) (table idx level : Z) (user : bool) : vm St * (Z + Z) :=
  let e := entry m table idx in
  let '(m, err) :=
    if negb (has e PAGE_PRESENT) then
      let '(m, p) := vm_alloc m 1 0 in
      if p =? 0 then (m, Some K_ENOMEM)
      else (set_entry table idx (Z.lor p (Z.lor PAGE_PRESENT (Z.lor PAGE_RW (if user then PAGE_USER else 0)))) m, None)
    else if has e PAGE_LARGE then
      if negb (level =? 2) && negb (level =? 3) then (m, Some K_EINVAL)
      else
        let '(m, p) := vm_alloc m 1 0 in
        if p =? 0 then (m, Some K_ENOMEM)
        else (set_entry table idx (Z.lor p (Z.lor PAGE_PRESENT (Z.lor PAGE_RW (Z.land e PAGE_USER)))) (fill_child p e level m), None)
    else (m, None) in
  match err with
  | Some e => (m, inl e)
  | None =>
      if user && negb (has (entry m table idx) PAGE_USER) then (m, inl K_EPERM)
      else (m, inr (Z.land (entry m table idx) PHYS_MASK))
  end.
(** [for (level = stop + n; level > stop; --level) { if (guard) return ...; pt_child(...); }]. *)
Fixpoint descend (n : nat) (guard : Z -> option Z) (m : vm St) (t v : Z) (user : bool) (stop : Z) : vm St * (Z + Z) :=
  match n with
  | O => (m, inr t)
  | S n' =>
      let level := stop + Z.of_nat n in
      match guard (entry m t (pt_index v level)) with
      | Some e => (m, inl e)
      | None =>
          match pt_child m t (pt_index v level) level user with
          | (m, inl e) => (m, inl e)
          | (m, inr t) => descend n' guard m t v user stop
          end
      end
  end.
Definition no_guard (_ : Z) : option Z := None.

(** * Mapping one page *)
Definition map_page_raw (m : vm St) (root v p flags : Z) (replace : bool) : vm St * Z :=
  if (root =? 0) || negb (canonical v) || negb (Z.land (Z.lor v p) 4095 =? 0) || negb (Z.land p (u64 (Z.lnot PHYS_MASK)) =? 0)
  then (m, K_EINVAL)
  else
    let user := has flags PAGE_USER in
    if user && ((v <? 0x10000) || (K_USER_CANON_LIMIT <=? v) ||
                (negb (pml4 cfg =? 0) && has (entry m (pml4 cfg) (Z.shiftr v 39)) PAGE_PRESENT))
    then (m, K_EPERM)
    else
      match descend 3 no_guard m root v user 1 with
      | (m, inl e) => (m, e)
      | (m, inr t) =>
          let idx := pt_index v 1 in
          if negb replace && negb (entry m t idx =? 0) then (m, K_EEXIST)
          else
            let m := set_entry t idx (Z.lor p (Z.lor flags PAGE_PRESENT)) m in
            (if vm_ready cfg then invalidate v m else m, 0)
      end.
Definition vmm_map_page (m : vm St) (root v p flags : Z) : vm St * Z :=
  if (smp_started cfg && (root =? pml4 cfg)) || has flags PAGE_USER then (m, K_EPERM)
  else map_page_raw m root v p flags false.
Definition vmm_unmap_page (m : vm St) (root v : Z) : vm St * Z :=
  if (root =? 0) || negb (canonical v) || negb (Z.land v 4095 =? 0) || (smp_started cfg && (root =? pml4 cfg))
  then (m, K_EINVAL)
  else
    match descend 3 (fun e => if has e PAGE_PRESENT then None else Some K_ENOENT) m root v false 1 with
    | (m, inl e) => (m, e)
    | (m, inr t) =>
        let idx := pt_index v 1 in
        if negb (has (entry m t idx) PAGE_PRESENT) then (m, K_ENOENT)
        else (invalidate v (set_entry t idx 0 m), 0)
    end.

(** * Translation: physical address and access flags *)
Definition leaf_entry (level e : Z) : bool := (level =? 1) || (((level =? 2) || (level =? 3)) && has e PAGE_LARGE).
Fixpoint translate_loop (n : nat) (m : vm St) (t v allow nxb : Z) : option (Z * Z) :=
  match n with
  | O => None
  | S n' =>
      let level := Z.of_nat n in
      let e := entry m t (pt_index v level) in
      if negb (has e PAGE_PRESENT) then None
      else
        let allow := Z.land allow e in
        let nxb := Z.lor nxb (Z.land e PAGE_NX) in
        if leaf_entry level e then
          let mask := Z.shiftl 1 (12 + 9 * (level - 1)) - 1 in
          Some (Z.lor (Z.land (Z.land e PHYS_MASK) (u64 (Z.lnot mask))) (Z.land v mask), Z.lor PAGE_PRESENT (Z.lor allow nxb))
        else translate_loop n' m (Z.land e PHYS_MASK) v allow nxb
  end.
(** [None] is K_EFAULT. *)
Definition vmm_translate (m : vm St) (root v : Z) : option (Z * Z) :=
  if (root =? 0) || negb (canonical v) then None
  else translate_loop 4 m root v (Z.lor PAGE_USER PAGE_RW) 0.

(** * Kernel identity mappings *)
Definition map_large (m : vm St) (v p flags : Z) : vm St * Z :=
  match descend 2 no_guard m (pml4 cfg) v false 2 with
  | (m, inl e) => (m, e)
  | (m, inr t) =>
      let idx := pt_index v 2 in
      if has (entry m t idx) PAGE_PRESENT && negb (has (entry m t idx) PAGE_LARGE) then
        match for_range 0 512 (fun j m =>
                match map_page_raw m (pml4 cfg) (u64 (v + j * 4096)) (u64 (p + j * 4096)) flags true with
                | (m, e) => if e =? 0 then Next m else Exit (m, e)
                end) m with
        | Next m => (m, 0)
        | Exit r => r
        end
      else (set_entry t idx (Z.lor p (Z.lor flags (Z.lor PAGE_PRESENT PAGE_LARGE))) m, 0)
  end.
(** The loop advances by 4 KiB at least: [fuel] bounds the number of rounds by the pages of the range. *)
Fixpoint identity_loop (fuel : nat) (m : vm St) (start end_ flags : Z) : option (vm St * Z) :=
  if negb (start <? end_) then Some (m, 0)
  else
    match fuel with
    | O => None
    | S fuel =>
        let '(m, e, next) :=
          if (Z.land start 0x1fffff =? 0) && (0x200000 <=? end_ - start)
          then (map_large m start start flags, start + 0x200000)
          else (map_page_raw m (pml4 cfg) start start flags true, start + 4096) in
        if negb (e =? 0) then Some (m, e) else identity_loop fuel m next end_ flags
    end.
Definition map_identity (m : vm St) (start size flags : Z) : option (vm St * Z) :=
  if size =? 0 then Some (m, 0)
  else if (K_USER_BASE <=? start) || (K_USER_BASE - start <? size) then Some (m, K_ENOTSUP)
  else
    let end_ := ALIGN_UP (start + size) 4096 in
    let start := Z.land start (u64 (Z.lnot 4095)) in
    identity_loop (Z.to_nat ((end_ - start) / 4096)) m start end_ flags.
Definition mmio_map (m : vm St) (p bytes : Z) : option (vm St * Z) :=
  if smp_started cfg || (p =? 0) || (bytes =? 0) || (K_USER_BASE <=? p) || (K_USER_BASE - p <? bytes) then Some (m, K_ENOTSUP)
  else
    match map_identity m p bytes (Z.lor PAGE_RW (Z.lor PAGE_PCD (Z.lor PAGE_PWT (if nx cfg then PAGE_NX else 0)))) with
    | None => None
    | Some (m, e) => Some (if vm_ready cfg then m <| vm_hw ::= (fun l => l ++ [Write_cr3 (pml4 cfg)]) |> else m, e)
    end.

(** * Address spaces *)
Definition owns_slot (as_ : k_address_space) (slot : Z) : bool :=
  negb (Z.land (zget (as_slots as_) (slot / 64)) (Z.shiftl 1 (slot mod 64)) =? 0).
Definition own_slot (slot : Z) (a : k_address_space) : k_address_space :=
  a <| as_slots ::= (fun w => zput w (slot / 64) (Z.lor (zget w (slot / 64)) (Z.shiftl 1 (slot mod 64)))) |>.
(** [mem_copy(p, kernel_pml4, 4096); p[USER_SLOT] = 0]. *)
Definition as_create (m : vm St) (spaces : table k_address_space) : vm St * table k_address_space * option Z :=
  match find_range 0 MAX_AS (fun i => negb (as_used (spaces !!! i))) with
  | None => (m, spaces, None)
  | Some i =>
      let '(m, p) := vm_alloc m 1 0 in
      if p =? 0 then (m, spaces, None)
      else
        let m := set_entry p USER_SLOT 0 (m <| vm_ram ::= (fun r => mem_copy r p (pml4 cfg) 4096) |>) in
        let a := own_slot USER_SLOT (space0 <| as_used := true |> <| as_root := p |> <| as_next := K_USER_BASE + 0x200000 |>) in
        (m, <[i := a]> spaces, Some i)
  end.

(** The page-table subtrees below a level, freed depth first. *)
Fixpoint free_user_tree (level : nat) (table : Z) (m : vm St) : vm St :=
  fold_range 0 512 (fun i m =>
    let e := entry m table i in
    if has e PAGE_PRESENT then
      let p := Z.land e PHYS_MASK in
      if (Nat.eqb level 2) && has e PAGE_LARGE then vm_free p 512 m
      else
        let m := match level with S ((S _) as below) => free_user_tree below p m | _ => m end in
        vm_free p 1 m
    else m) m.
(** The memory part of [x86_64_as_destroy], after its checks. *)
Definition as_free (m : vm St) (a : k_address_space) : vm St :=
  let m := fold_range 0 256 (fun slot m =>
    let e := entry m (as_root a) slot in
    if owns_slot a slot && has e PAGE_PRESENT
    then vm_free (Z.land e PHYS_MASK) 1 (free_user_tree 3 (Z.land e PHYS_MASK) m) else m) m in
  vm_free (as_root a) 1 m.

(** ** Allocation *)
Definition bad_rights (rwx : Z) : bool :=
  negb (Z.land rwx (u32 (Z.lnot 7)) =? 0) || negb (has rwx RIEF_REGION_R) ||
  (Z.land rwx (Z.lor RIEF_REGION_W RIEF_REGION_X) =? Z.lor RIEF_REGION_W RIEF_REGION_X).
Definition user_flags (rwx : Z) : Z :=
  Z.lor PAGE_USER (Z.lor (if has rwx RIEF_REGION_W then PAGE_RW else 0) (if has rwx RIEF_REGION_X then 0 else PAGE_NX)).
(** [for (; done < n; ++done) { allocate; map }]: the pages mapped so far and the error. *)
Fixpoint map_pages (n : nat) (m : vm St) (root v flags done : Z) : vm St * Z * Z :=
  match n with
  | O => (m, done, 0)
  | S n =>
      let '(m, p) := vm_alloc m 1 0 in
      if p =? 0 then (m, done, K_ENOMEM)
      else
        let '(m, e) := map_page_raw m root (v + done * 4096) p flags false in
        if negb (e =? 0) then (vm_free p 1 m, done, e) else map_pages n m root v flags (done + 1)
  end.
(** The table reached without creating anything. *)
Fixpoint plain_walk (n : nat) (m : vm St) (t v : Z) : Z :=
  match n with O => t | S n' => plain_walk n' m (Z.land (entry m t (pt_index v (Z.of_nat n + 1))) PHYS_MASK) v end.
Definition unmap_one (m : vm St) (root a : Z) : vm St :=
  let t := plain_walk 3 m root a in
  let p := Z.land (entry m t (pt_index a 1)) PHYS_MASK in
  vm_free p 1 (set_entry t (pt_index a 1) 0 m).
Definition unmap_pages (n : Z) (m : vm St) (root v : Z) : vm St :=
  fold_range 0 n (fun j m => unmap_one m root (v + j * 4096)) m.
(** [as] is [None] for a pointer outside the table or an unused slot. *)
Definition as_alloc (m : vm St) (as_ : option k_address_space) (bytes align rwx : Z) (base : bool)
  : vm St * option k_address_space * (Z + Z) :=
  match as_ with
  | None => (m, as_, inl K_EINVAL)
  | Some a =>
      if negb base || (bytes =? 0) || negb (power2 align) || (0x40000000 <? align) || bad_rights rwx then (m, as_, inl K_EINVAL)
      else if negb (nx cfg) then (m, as_, inl K_ENOTSUP)
      else if MAX_USER_PAGES * 4096 <? bytes then (m, as_, inl K_E2BIG)
      else
        let n := ALIGN_UP bytes 4096 / 4096 in
        let align := if align <? 4096 then 4096 else align in
        let v := ALIGN_UP (as_next a) align in
        if (u32 (MAX_USER_PAGES - as_pages a) <? n) || (K_USER_LIMIT <=? v) || (u64 (K_USER_LIMIT - v) <? n * 4096 + 4096)
        then (m, as_, inl K_ENOMEM)
        else
          let '(m, done, e) := map_pages (Z.to_nat n) m (as_root a) v (user_flags rwx) 0 in
          if negb (e =? 0) then (unmap_pages done m (as_root a) v, as_, inl e)
          else (m, Some (a <| as_next := u64 (v + n * 4096 + 4096) |> <| as_pages ::= (fun q => u32 (q + n)) |>), inr v)
  end.

(** ** Lazy and huge allocations *)
Definition leaf_for (m : vm St) (a : k_address_space) (v level : Z) (create : bool) : vm St * (Z + Z) :=
  match descend (Z.to_nat (4 - level))
          (fun e => if negb create && (negb (has e PAGE_PRESENT) || has e PAGE_LARGE) then Some K_EFAULT else None)
          m (as_root a) v true level with
  | (m, inl e) => (m, inl e)
  | (m, inr t) => (m, inr (t + 8 * pt_index v level))
  end.
(** The entry at an address, and its update. *)
Definition leaf (m : vm St) (p : Z) : Z := rd64 (vm_ram m) p.
Definition set_leaf (p e : Z) (m : vm St) : vm St := m <| vm_ram ::= (fun r => wr64 r p e) |>.
Definition alloc_ex_step (huge : bool) (a : k_address_space) (flags v : Z) (m : vm St) : vm St * Z :=
  match leaf_for m a v (if huge then 2 else 1) true with
  | (m, inl e) => (m, e)
  | (m, inr p) =>
      if negb (leaf m p =? 0) then (m, K_EEXIST)
      else if huge then
        let '(m, phys) := vm_alloc_aligned m 512 512 0 in
        if phys =? 0 then (m, K_ENOMEM)
        else (invalidate v (set_leaf p (Z.lor phys (Z.lor flags (Z.lor PAGE_PRESENT PAGE_LARGE))) m), 0)
      else (invalidate v (set_leaf p (Z.lor flags X86_LAZY) m), 0)
  end.
Fixpoint alloc_ex_loop (n : nat) (huge : bool) (a : k_address_space) (flags v unit_ done : Z) (m : vm St) : vm St * Z * Z :=
  match n with
  | O => (m, done, 0)
  | S n =>
      let '(m, e) := alloc_ex_step huge a flags (v + done) m in
      if negb (e =? 0) then (m, done, e) else alloc_ex_loop n huge a flags v unit_ (done + unit_) m
  end.
Definition undo_ex_step (huge : bool) (a : k_address_space) (v : Z) (m : vm St) : vm St :=
  match leaf_for m a v (if huge then 2 else 1) false with
  | (m, inl _) => m
  | (m, inr p) =>
      let m := if has (leaf m p) PAGE_PRESENT then vm_free (Z.land (leaf m p) PHYS_MASK) 512 m else m in
      invalidate v (set_leaf p 0 m)
  end.
Fixpoint undo_ex (n : nat) (huge : bool) (a : k_address_space) (v unit_ : Z) (m : vm St) : vm St :=
  match n with
  | O => m
  | S n' => undo_ex n' huge a v unit_ (undo_ex_step huge a (v + Z.of_nat n' * unit_) m)
  end.
Definition as_alloc_ex (m : vm St) (as_ : option k_address_space) (bytes align rwx options : Z) (base : bool)
  : vm St * option k_address_space * (Z + Z) :=
  if options =? 0 then as_alloc m as_ bytes align rwx base
  else
    match as_ with
    | None => (m, as_, inl K_EINVAL)
    | Some a =>
        if negb base || (bytes =? 0) || (MAX_USER_PAGES * 4096 <? bytes) || negb (power2 align) || (0x40000000 <? align) ||
           bad_rights rwx || (negb (options =? K_VM_LAZY) && negb (options =? K_VM_HUGE)) then (m, as_, inl K_EINVAL)
        else if negb (nx cfg) then (m, as_, inl K_ENOTSUP)
        else if (options =? K_VM_LAZY) && has rwx RIEF_REGION_X then (m, as_, inl K_EPERM)
        else
          let huge := options =? K_VM_HUGE in
          let unit_ := if huge then 0x200000 else 4096 in
          if huge && negb (Z.land bytes (unit_ - 1) =? 0) then (m, as_, inl K_EINVAL)
          else
            let align := if align <? unit_ then unit_ else align in
            let bytes := ALIGN_UP bytes 4096 in
            let v := ALIGN_UP (as_next a) align in
            if (u32 (MAX_USER_PAGES - as_pages a) <? bytes / 4096) || (K_USER_LIMIT <=? v) || (u64 (K_USER_LIMIT - v) <? bytes + 4096)
            then (m, as_, inl K_ENOMEM)
            else
              let '(m, done, e) := alloc_ex_loop (Z.to_nat (bytes / unit_)) huge a (user_flags rwx) v unit_ 0 m in
              if negb (e =? 0) then (undo_ex (Z.to_nat (done / unit_)) huge a v unit_ m, as_, inl e)
              else (m, Some (a <| as_next := u64 (v + bytes + 4096) |> <| as_pages ::= (fun q => u32 (q + bytes / 4096)) |>), inr v)
    end.
(** A page fault on a lazily allocated page. *)
Definition demand_fault (m : vm St) (as_ : option k_address_space) (address error : Z) : vm St * Z :=
  match as_ with
  | None => (m, K_EFAULT)
  | Some a =>
      if (address <? K_USER_BASE) || (K_USER_LIMIT <=? address) || negb (Z.land error (u64 (Z.lnot 6)) =? 0) then (m, K_EFAULT)
      else
        match leaf_for m a address 1 false with
        | (m, inl e) => (m, e)
        | (m, inr p) =>
            let e := leaf m p in
            if negb (has e X86_LAZY) || has e PAGE_PRESENT || negb (has e PAGE_USER) || (has error 2 && negb (has e PAGE_RW))
            then (m, K_EFAULT)
            else
              let '(m, phys) := vm_alloc m 1 0 in
              if phys =? 0 then (m, K_ENOMEM)
              else (invalidate address (set_leaf p (Z.lor phys (Z.lor (Z.land e (u64 (Z.lnot X86_LAZY))) PAGE_PRESENT)) m), 0)
        end
  end.
Fixpoint mapping_size_loop (n : nat) (m : vm St) (t address : Z) : Z + Z :=
  match n with
  | O => inl K_ENOENT
  | S n' =>
      let l := Z.of_nat n in
      let e := entry m t (pt_index address l) in
      if negb (has e PAGE_USER) then inl K_ENOENT
      else if negb (has e PAGE_PRESENT) then (if (l =? 1) && has e X86_LAZY then inr 0 else inl K_ENOENT)
      else if (l =? 1) || ((l =? 2) && has e PAGE_LARGE) then inr (Z.shiftl 1 (12 + 9 * (l - 1)))
      else mapping_size_loop n' m (Z.land e PHYS_MASK) address
  end.
Definition as_mapping_size (m : vm St) (as_ : option k_address_space) (address : Z) (bytes : bool) : Z + Z :=
  match as_ with
  | Some a => if negb bytes || (address <? 0x10000) || (K_USER_CANON_LIMIT <=? address) then inl K_EINVAL
              else mapping_size_loop 4 m (as_root a) address
  | None => inl K_EINVAL
  end.

(** ** Checked access to user memory *)
Definition accessible (m : vm St) (a : k_address_space) (v : Z) (write : bool) : bool :=
  match vmm_translate m (as_root a) v with
  | Some (_, flags) => has flags PAGE_USER && (negb write || has flags PAGE_RW)
  | None => false
  end.
(** One round of the loop over the pages of the range. *)
Definition check_page (as_ : option k_address_space) (a : k_address_space) (v : Z) (write : bool) (m : vm St) : flow (vm St) (vm St) :=
  let '(m, e) :=
    match vmm_translate m (as_root a) v with
    | None => demand_fault m as_ v (if write then 2 else 0)
    | Some _ => (m, 0)
    end in
  if negb (e =? 0) then Exit m else if accessible m a v write then Next m else Exit m.
Definition as_check (m : vm St) (as_ : option k_address_space) (address bytes : Z) (write : bool) : vm St * Z :=
  match as_ with
  | None => (m, K_EFAULT)
  | Some a =>
      if (address <? 0x10000) || (K_USER_CANON_LIMIT <=? address) || (K_USER_CANON_LIMIT - address <? bytes) then (m, K_EFAULT)
      else if bytes =? 0 then (m, 0)
      else
        let first := address / 4096 in
        let last := (address + bytes - 1) / 4096 in
        match for_range first (last + 1) (fun page m => check_page as_ a (page * 4096) write m) m with
        | Next m => (m, 0)
        | Exit m => (m, K_EFAULT)
        end
  end.

(** The chunks of a copy never cross a page; [fuel] counts them. *)
Fixpoint copy_in_loop (fuel : nat) (m : vm St) (root u : Z) (data : list Z) : option (vm St * Z) :=
  match data with
  | [] => Some (m, 0)
  | _ =>
      match fuel with
      | O => None
      | S fuel =>
          match vmm_translate m root u with
          | None => Some (m, K_EFAULT)
          | Some (p, _) =>
              let chunk := Z.min (Z.of_nat (length data)) (4096 - Z.land u 4095) in
              let m := m <| vm_ram ::= (fun r => fold_range 0 chunk (fun i r => zput r (p + i) (data !!! Z.to_nat i)) r) |> in
              copy_in_loop fuel m root (u + chunk) (drop (Z.to_nat chunk) data)
          end
      end
  end.
Fixpoint copy_out_loop (fuel : nat) (m : vm St) (root u n : Z) : option (Z + list Z) :=
  if n <=? 0 then Some (inr [])
  else
    match fuel with
    | O => None
    | S fuel =>
        match vmm_translate m root u with
        | None => Some (inl K_EFAULT)
        | Some (p, _) =>
            let chunk := Z.min n (4096 - Z.land u 4095) in
            match copy_out_loop fuel m root (u + chunk) (n - chunk) with
            | Some (inr l) => Some (inr (map (fun i => zget (vm_ram m) (p + Z.of_nat i)) (seq 0 (Z.to_nat chunk)) ++ l))
            | r => r
            end
        end
    end.
Definition copy_fuel (n : Z) : nat := S (S (Z.to_nat (n / 4096))).
(** [as_copy] to user memory; [loader] skips the write permission. *)
Definition as_copy_in (m : vm St) (as_ : option k_address_space) (u : Z) (data : list Z) (loader : bool) : option (vm St * Z) :=
  let n := Z.of_nat (length data) in
  match as_check m as_ u n (negb loader), as_ with
  | (m, e), Some a => if negb (e =? 0) then Some (m, e) else copy_in_loop (copy_fuel n) m (as_root a) u data
  | (m, e), None => Some (m, e)
  end.
(** [as_copy] from user memory. *)
Definition as_copy_out (m : vm St) (as_ : option k_address_space) (u n : Z) : option (vm St * (Z + list Z)) :=
  match as_check m as_ u n false, as_ with
  | (m, e), Some a => if negb (e =? 0) then Some (m, inl e)
                      else option_map (fun r => (m, r)) (copy_out_loop (copy_fuel n) m (as_root a) u n)
  | (m, e), None => Some (m, inl e)
  end.

(** ** Rolling back a failed load *)
Fixpoint rollback_tree (level : nat) (table base from : Z) (m : vm St) : vm St * bool :=
  let span := Z.shiftl 1 (12 + 9 * (Z.of_nat level - 1)) in
  fold_range 0 512 (fun i s =>
    let '(m, empty) := s in
    let e := entry m table i in
    let address := base + i * span in
    if negb (has e PAGE_PRESENT) then
      if has e X86_LAZY && (from <=? address) then (set_entry table i 0 m, empty)
      else if negb (e =? 0) then (m, false) else (m, empty)
    else
      let phys := Z.land e PHYS_MASK in
      if from <? address + span then
        if (Nat.eqb level 2) && has e PAGE_LARGE && (from <=? address) then (set_entry table i 0 (vm_free phys 512 m), empty)
        else
          match level with
          | S ((S _) as below) =>
              let '(m, sub) := rollback_tree below phys address from m in
              if sub then (set_entry table i 0 (vm_free phys 1 m), empty) else (m, false)
          | _ => (set_entry table i 0 (vm_free phys 1 m), empty)
          end
      else (m, false)) (m, true).
Definition as_rollback (m : vm St) (a : k_address_space) (old_next old_pages : Z) : vm St * k_address_space :=
  let e := entry m (as_root a) USER_SLOT in
  let m :=
    if has e PAGE_PRESENT then
      let phys := Z.land e PHYS_MASK in
      let '(m, empty) := rollback_tree 3 phys K_USER_BASE old_next m in
      if empty then set_entry (as_root a) USER_SLOT 0 (vm_free phys 1 m) else m
    else m in
  (m, a <| as_next := old_next |> <| as_pages := old_pages |>).

(** ** Mapping at a fixed address *)
Definition as_map_at (m : vm St) (a : k_address_space) (address bytes rwx : Z) : vm St * k_address_space * Z :=
  if (bytes =? 0) || (MAX_USER_PAGES * 4096 <? bytes) || negb (Z.land address 4095 =? 0) || (address <? 0x10000) ||
     (K_USER_CANON_LIMIT <=? address) || (K_USER_CANON_LIMIT - address <? bytes) || bad_rights rwx || negb (nx cfg)
  then (m, a, K_EINVAL)
  else
    let count := (bytes + 4095) / 4096 in
    let slot := Z.shiftr address 39 in
    if negb (Z.shiftr (address + count * 4096 - 1) 39 =? slot) then (m, a, K_EINVAL)
    else if has (entry m (pml4 cfg) slot) PAGE_PRESENT then (m, a, K_EPERM)
    else if u32 (MAX_USER_PAGES - as_pages a) <? count then (m, a, K_ENOMEM)
    else if any_range 0 count (fun i => bool_decide (vmm_translate m (as_root a) (address + i * 4096) <> None)) then (m, a, K_EEXIST)
    else
      let a := own_slot slot a in
      let '(m, made, e) := map_pages (Z.to_nat count) m (as_root a) address (user_flags rwx) 0 in
      if negb (e =? 0) then (unmap_pages made m (as_root a) address, a, e)
      else (m, a <| as_pages ::= (fun q => u32 (q + count)) |>, 0).
End Mmu.
