(* ===== verification/MmuInv.v ===== *)
(** Well-formed page tables: the tables reachable from a set of roots form
    disjoint trees of allocated pages, apart from the kernel part that the
    roots share; user frames are allocated, are no tables, and are mapped
    once.  The lemmas say how storing one entry changes the trees. *)
From S2P Require Import Prelude Klib Pmm PageAlloc State Mmu.

(** * Bits of entries *)
Lemma has_bit e n : 0 <= n -> has e (2 ^ n) = Z.testbit e n.
Proof.
  intros Hn. unfold has. destruct (Z.eqb_spec (Z.land e (2 ^ n)) 0) as [E|E]; cbn [negb].
  - symmetry. apply (f_equal (fun x => Z.testbit x n)) in E. rewrite Z.land_spec, Z.pow2_bits_true, andb_true_r, Z.bits_0 in E by done. done.
  - destruct (Z.testbit e n) eqn:Hb; [done|]. destruct E. apply Z.bits_inj'. intros i Hi.
    rewrite Z.land_spec, Z.bits_0. destruct (Z.eq_dec i n) as [->|Hne]; [by rewrite Hb|]. by rewrite (Z.pow2_bits_false n i), andb_false_r by lia.
Qed.
Lemma has_present e : has e PAGE_PRESENT = Z.testbit e 0.
Proof. apply (has_bit e 0). lia. Qed.
Lemma has_rw e : has e PAGE_RW = Z.testbit e 1.
Proof. apply (has_bit e 1). lia. Qed.
Lemma has_user e : has e PAGE_USER = Z.testbit e 2.
Proof. apply (has_bit e 2). lia. Qed.
Lemma has_large e : has e PAGE_LARGE = Z.testbit e 7.
Proof. apply (has_bit e 7). lia. Qed.
Lemma has_lazy e : has e X86_LAZY = Z.testbit e 9.
Proof. apply (has_bit e 9). lia. Qed.
Lemma has_pat e : has e PAGE_PAT_LARGE = Z.testbit e 12.
Proof. apply (has_bit e 12). lia. Qed.
Lemma has_nx e : has e PAGE_NX = Z.testbit e 63.
Proof. apply (has_bit e 63). lia. Qed.

(** [PHYS_MASK] selects the bits 12 to 51. *)
Lemma phys_bit i : 0 <= i -> Z.testbit PHYS_MASK i = (12 <=? i) && (i <? 52).
Proof.
  intros Hi. change PHYS_MASK with (Z.shiftl (Z.ones 40) 12). rewrite Z.shiftl_spec by done.
  destruct (Z.leb_spec 12 i); cbn [andb]; [|by rewrite Z.testbit_neg_r by lia].
  rewrite Z.testbit_ones by lia. rewrite (proj2 (Z.leb_le _ _)) by lia. cbn [andb].
  apply Bool.eq_iff_eq_true. rewrite !Z.ltb_lt. lia.
Qed.
Lemma phys_range e : 0 <= e -> Z.land e PHYS_MASK mod 4096 = 0 /\ 0 <= Z.land e PHYS_MASK < 2 ^ 52.
Proof.
  intros He. assert (0 <= Z.land e PHYS_MASK) by (apply Z.land_nonneg; by left). split.
  - change 4096 with (2 ^ 12). rewrite <- Z.land_ones by lia. apply Z.bits_inj'. intros i Hi.
    rewrite !Z.land_spec, phys_bit, Z.testbit_ones, Z.bits_0 by lia.
    destruct (Z.leb_spec 12 i), (Z.ltb_spec i 12); rewrite ?andb_false_r; (done || lia).
  - split; [done|]. destruct (Z.eq_dec (Z.land e PHYS_MASK) 0) as [->|]; [lia|].
    apply Z.log2_lt_pow2; [lia|]. apply Z.nle_gt. intros Hlog.
    pose proof (Z.bit_log2 (Z.land e PHYS_MASK) ltac:(lia)) as Hb. rewrite Z.land_spec, phys_bit in Hb by (apply Z.log2_nonneg).
    rewrite (proj2 (Z.ltb_ge _ _)), !andb_false_r in Hb by lia. done.
Qed.
(** A page address keeps its value under the mask, whatever flags it carries. *)
Lemma page_bits p i : p mod 4096 = 0 -> 0 <= p < 2 ^ 52 -> 0 <= i -> i < 12 \/ 52 <= i -> Z.testbit p i = false.
Proof.
  intros Hm Hp Hi [Hl|Hh].
  - rewrite <- (Z.mod_pow2_bits_low p 12 i) by lia. change (2 ^ 12) with 4096. by rewrite Hm, Z.bits_0.
  - by apply (testbit_high p 52).
Qed.
Lemma phys_lor p f : p mod 4096 = 0 -> 0 <= p < 2 ^ 52 -> Z.land f PHYS_MASK = 0 -> Z.land (Z.lor p f) PHYS_MASK = p.
Proof.
  intros Hm Hp Hf. rewrite Z.land_lor_distr_l, Hf, Z.lor_0_r. apply Z.bits_inj'. intros i Hi.
  rewrite Z.land_spec, phys_bit by done. destruct (Z.leb_spec 12 i), (Z.ltb_spec i 52); rewrite ?andb_true_r, ?andb_false_r; try done;
    symmetry; apply page_bits; try done; lia.
Qed.

(** * Indices *)
Definition prefix (v : Z) (n : nat) : Z := (v mod 2 ^ 48) / 2 ^ (48 - 9 * Z.of_nat n).
(** The index at depth [n]: level [4 - n]. *)
Definition idx (v : Z) (n : nat) : Z := pt_index v (4 - Z.of_nat n).
Lemma idx_range v n : 0 <= idx v n < 512.
Proof. unfold idx, pt_index. change 511 with (Z.ones 9). rewrite Z.land_ones by lia. by apply Z.mod_pos_bound. Qed.
Lemma prefix_S v n : (n <= 3)%nat -> prefix v (S n) = 512 * prefix v n + idx v n.
Proof.
  intros Hn. unfold prefix, idx, pt_index. change 511 with (Z.ones 9). rewrite Z.land_ones, Z.shiftr_div_pow2 by lia.
  do 4 (destruct n as [|n]; [cbn -[Z.modulo Z.div Z.pow Z.mul]; change (2 ^ (48 - 9 * 0)) with (2 ^ 48); cbn; dlia|]). lia.
Qed.
Lemma prefix_step v v' n : (n <= 3)%nat -> prefix v (S n) = prefix v' (S n) <-> prefix v n = prefix v' n /\ idx v n = idx v' n.
Proof. intros Hn. rewrite !prefix_S by done. pose proof (idx_range v n). pose proof (idx_range v' n). lia. Qed.
Lemma prefix_le v v' n k : (n <= 4)%nat -> (k <= n)%nat -> prefix v n = prefix v' n -> prefix v k = prefix v' k.
Proof.
  intros Hn Hk. induction n as [|n IH]; [by assert (k = 0%nat) as -> by lia|]. intros Hp.
  destruct (Nat.eq_dec k (S n)) as [->|]; [done|]. apply prefix_step in Hp as [Hp _]; [|lia]. apply IH; (done || lia).
Qed.

Lemma prefix1_range v' : 0 <= prefix v' 1 < 512.
Proof. rewrite prefix_S by lia. pose proof (idx_range v' 0). unfold prefix. change (2 ^ (48 - 9 * Z.of_nat 0)) with (2 ^ 48). dlia. Qed.

Section Tables.
Context {St : Type} `{PageSourceLaws St} (cfg : mmu_config).
Implicit Types m : vm St.

(** * Reading and writing entries *)
Definition page (t : Z) : Prop := t mod 4096 = 0.
Lemma entry_range m t i : bytes_ok (vm_ram m) -> is_u64 (entry m t i).
Proof. apply rd64_range. Qed.
Lemma entry_set m t i e t' i' : page t -> page t' -> 0 <= i < 512 -> 0 <= i' < 512 ->
  entry (set_entry t i e m) t' i' = if decide (t = t' /\ i = i') then u64 e else entry m t' i'.
Proof.
  unfold page. intros Ht Ht' Hi Hi'. unfold entry, set_entry. cbn [vm_ram modify].
  destruct (decide (t = t' /\ i = i')) as [[-> ->]|Hne]; [apply rd64_stored|].
  apply rd64_ext. intros j Hj. cbn. rewrite wr64_get.
  destruct (Z.leb_spec (t + 8 * i) (t' + 8 * i' + j)), (Z.ltb_spec (t' + 8 * i' + j) (t + 8 * i + 8)); try done. exfalso.
  apply Hne. assert (t + 8 * i = t' + 8 * i') by dlia. split; dlia.
Qed.
Lemma set_entry_bytes t i e m : bytes_ok (vm_ram m) -> bytes_ok (vm_ram (set_entry t i e m)).
Proof. apply wr64_bytes_ok. Qed.

(** ** A fresh page *)
Record fresh_page (m m' : vm St) (p : Z) : Prop := {
  fp_page : page p;
  fp_range : 0 < p /\ p + 4096 <= 2 ^ 52;
  fp_was : pa_available (vm_pages m) (p / 4096) = true;
  fp_pages : forall q, pa_available (vm_pages m') q = if q =? p / 4096 then false else pa_available (vm_pages m) q;
  fp_ok : pa_ok (vm_pages m');
  fp_bytes : bytes_ok (vm_ram m) -> bytes_ok (vm_ram m');
  fp_zero : forall i, 0 <= i < 512 -> entry m' p i = 0;
  fp_entry : forall t i, page t -> t <> p -> 0 <= i < 512 -> entry m' t i = entry m t i;
  fp_ram : forall a, a < p \/ p + 4096 <= a -> zget (vm_ram m') a = zget (vm_ram m) a;
  fp_clear : forall a, p <= a < p + 4096 -> zget (vm_ram m') a = 0;
  fp_hw : vm_hw m' = vm_hw m;
  fp_high : p + 4096 <= PMM_MAX_PAGES * 4096;
  fp_managed : forall q, pa_managed (vm_pages m') q = pa_managed (vm_pages m) q
}.
Lemma rd64_zero r a : (forall i, 0 <= i < 8 -> zget r (a + i) = 0) -> rd64 r a = 0.
Proof. intros Hz. rewrite (rd64_ext r ∅ a); [done|]. intros i Hi. by rewrite Hz, zget_empty. Qed.
Lemma grant_fresh m s ram p : pa_ok s -> page_grant (vm_pages m) (vm_ram m) 1 s ram p -> fresh_page m (mk_vm s ram (vm_hw m)) p.
Proof.
  intros Hs G. destruct (grant_page _ _ _ _ _ _ G); pose proof (grant_low _ _ _ _ _ _ G); pose proof (grant_high _ _ _ _ _ _ G).
  pose proof (grant_page _ _ _ _ _ _ G) as Hp. unfold PMM_MAX_PAGES in *.
  assert (forall a, zget ram a = if (p <=? a) && (a <? p + 4096) then 0 else zget (vm_ram m) a) as Hram
    by (intros a; rewrite (grant_ram _ _ _ _ _ _ G); by rewrite Z.mul_1_l).
  split; cbn [vm_pages vm_ram vm_hw]; try done.
  - lia.
  - apply (grant_before _ _ _ _ _ _ G). lia.
  - intros q. rewrite (grant_after _ _ _ _ _ _ G).
    destruct (Z.leb_spec (p / 4096) q), (Z.ltb_spec q (p / 4096 + 1)), (Z.eqb_spec q (p / 4096)); try done; lia.
  - intros Hb a. rewrite Hram. destruct (_ && _); [by unfold is_u8|apply Hb].
  - intros i Hi. apply rd64_zero. intros j Hj. cbn [vm_ram]. rewrite Hram.
    destruct (Z.leb_spec p (p + 8 * i + j)), (Z.ltb_spec (p + 8 * i + j) (p + 4096)); try done; lia.
  - intros t i Ht Hne Hi. apply rd64_ext. intros j Hj. cbn [vm_ram]. rewrite Hram. unfold page in Ht.
    destruct (Z.leb_spec p (t + 8 * i + j)), (Z.ltb_spec (t + 8 * i + j) (p + 4096)); try done. dlia.
  - intros a Ha. rewrite Hram. destruct (Z.leb_spec p a), (Z.ltb_spec a (p + 4096)); try done; lia.
  - intros a Ha. rewrite Hram. destruct (Z.leb_spec p a), (Z.ltb_spec a (p + 4096)); try done; lia.
  - apply (grant_managed _ _ _ _ _ _ G).
Qed.
Lemma vm_alloc_spec m m' p : pa_ok (vm_pages m) -> vm_alloc m 1 0 = (m', p) ->
  (p = 0 /\ m' = m) \/ (p <> 0 /\ fresh_page m m' p).
Proof.
  intros Hok. unfold vm_alloc. destruct (pa_alloc _ _ _ _) as [[s ram] q] eqn:Ha. intros [= <- <-].
  destruct (pa_alloc_law _ _ 1 0 s ram q Hok ltac:(unfold is_u32; lia) ltac:(unfold is_u64; lia) Ha)
    as [Hs [(-> & -> & ->)|(Hq & _ & G)]]; [left; by destruct m|right]. split; [done|]. by apply grant_fresh.
Qed.

(** * Walks *)
Definition points (e : Z) : bool := has e PAGE_PRESENT && negb (has e PAGE_LARGE).
(** The table at depth [n] on the path of [v]. *)
Fixpoint walk (m : vm St) (r v : Z) (n : nat) : option Z :=
  match n with
  | O => Some r
  | S n =>
      match walk m r v n with
      | Some t => let e := entry m t (idx v n) in if points e then Some (Z.land e PHYS_MASK) else None
      | None => None
      end
  end.
Lemma walk_S m r v n t : walk m r v (S n) = Some t ->
  exists t0, walk m r v n = Some t0 /\ points (entry m t0 (idx v n)) = true /\ t = Z.land (entry m t0 (idx v n)) PHYS_MASK.
Proof. cbn [walk]. destruct (walk m r v n) as [t0|]; [|done]. cbv zeta. destruct (points _) eqn:Hp; [|done]. intros [= <-]. by exists t0. Qed.
(** A walk depends only on the entries it reads and on the prefix of the address. *)
Lemma walk_prefix m r v v' n : (n <= 4)%nat -> prefix v n = prefix v' n -> walk m r v n = walk m r v' n.
Proof.
  induction n as [|n IH]; intros Hn Hp; [done|]. cbn [walk]. apply prefix_step in Hp as [Hp Hi]; [|lia].
  rewrite IH by (done || lia). by rewrite Hi.
Qed.
Lemma walk_ext m m' r v n : (n <= 4)%nat ->
  (forall k t, (k < n)%nat -> walk m r v k = Some t -> entry m' t (idx v k) = entry m t (idx v k)) ->
  walk m' r v n = walk m r v n.
Proof.
  induction n as [|n IH]; intros Hn He; [done|]. cbn [walk]. rewrite IH; [|lia|intros k t Hk; apply He; lia].
  destruct (walk m r v n) as [t|] eqn:Hw; [|done]. by rewrite He by (done || lia).
Qed.
Lemma walk_below m r v n k : (k <= n)%nat -> walk m r v n <> None -> walk m r v k <> None.
Proof.
  intros Hk. induction n as [|n IH]; [by assert (k = 0%nat) as -> by lia|]. intros Hw. destruct (Nat.eq_dec k (S n)) as [->|]; [done|].
  apply IH; [lia|]. intros E. apply Hw. cbn [walk]. by rewrite E.
Qed.

(** * Translation along a walk *)
Definition rights0 : Z := Z.lor PAGE_USER PAGE_RW.
Definition access_step (e : Z) (s : Z * Z) : Z * Z := (Z.land (fst s) e, Z.lor (snd s) (Z.land e PAGE_NX)).
(** The access bits collected above depth [n]. *)
Fixpoint access (m : vm St) (r v : Z) (n : nat) : Z * Z :=
  match n with
  | O => (rights0, 0)
  | S n => match walk m r v n with Some t => access_step (entry m t (idx v n)) (access m r v n) | None => access m r v n end
  end.
Definition translate_from (m : vm St) (t v : Z) (n : nat) (s : Z * Z) : option (Z * Z) :=
  translate_loop (4 - n) m t v (fst s) (snd s).
Lemma level_depth n : (n <= 3)%nat -> (4 - n)%nat = S (3 - n) /\ Z.of_nat (S (3 - n)) = 4 - Z.of_nat n.
Proof. lia. Qed.
(** What the loop returns at a leaf of depth [n]. *)
Definition leaf_result (v : Z) (n : nat) (e : Z) (s : Z * Z) : Z * Z :=
  let mask := Z.shiftl 1 (12 + 9 * (3 - Z.of_nat n)) - 1 in
  (Z.lor (Z.land (Z.land e PHYS_MASK) (u64 (Z.lnot mask))) (Z.land v mask),
   Z.lor PAGE_PRESENT (Z.lor (Z.land (fst s) e) (Z.lor (snd s) (Z.land e PAGE_NX)))).
Definition is_leaf (n : nat) (e : Z) : bool := Nat.eqb n 3 || (((Nat.eqb n 2) || (Nat.eqb n 1)) && has e PAGE_LARGE).
Lemma translate_from_S m t v n s : (n <= 3)%nat ->
  translate_from m t v n s =
    (let e := entry m t (idx v n) in
     if negb (has e PAGE_PRESENT) then None
     else if is_leaf n e then Some (leaf_result v n e s)
     else translate_from m (Z.land e PHYS_MASK) v (S n) (access_step e s)).
Proof.
  intros Hn. unfold translate_from, is_leaf, leaf_result, idx.
  do 4 (destruct n as [|n]; [reflexivity|]). lia.
Qed.
Lemma translate_walk m r v n t : (n <= 3)%nat -> walk m r v n = Some t ->
  translate_from m r v 0 (rights0, 0) = translate_from m t v n (access m r v n).
Proof.
  revert t. induction n as [|n IH]; intros t Hn Hw; [by injection Hw as ->|].
  apply walk_S in Hw as (t0 & Hw & Hp & ->). rewrite (IH t0) by (done || lia). rewrite translate_from_S by lia. cbv zeta.
  unfold points in Hp. apply andb_prop in Hp as [Hp Hl]. apply negb_true_iff in Hl. unfold is_leaf.
  rewrite Hp, Hl, andb_false_r, orb_false_r. cbn [negb]. rewrite (proj2 (Nat.eqb_neq n 3)) by lia. cbn [access]. by rewrite Hw.
Qed.
Lemma access_ext m m' r v n : (n <= 4)%nat ->
  (forall k t, (k < n)%nat -> walk m r v k = Some t -> entry m' t (idx v k) = entry m t (idx v k)) ->
  access m' r v n = access m r v n.
Proof.
  induction n as [|n IH]; intros Hn He; [done|]. cbn [access].
  rewrite IH by (try lia; intros; apply He; (done || lia)). rewrite (walk_ext m m') by (try lia; intros; apply He; (done || lia)).
  destruct (walk m r v n) as [t|] eqn:Hw; [|done]. by rewrite He by (done || lia).
Qed.
Lemma access_mask m r v n : Z.land (fst (access m r v n)) rights0 = fst (access m r v n) /\ Z.land (snd (access m r v n)) PAGE_NX = snd (access m r v n).
Proof.
  induction n as [|n [IH1 IH2]]; [done|]. cbn [access]. destruct (walk m r v n) as [t|]; [|done]. unfold access_step. cbn [fst snd]. split.
  - rewrite <- IH1 at 2. by rewrite <- !Z.land_assoc, (Z.land_comm _ rights0).
  - by rewrite Z.land_lor_distr_l, IH2, <- Z.land_assoc, Z.land_diag.
Qed.
(** Translation reads only the entries at the tables of the walk. *)
Lemma translate_ext m m' r v :
  (forall i, 0 <= i < 512 -> has (entry m r i) PAGE_PRESENT = true -> has (entry m r i) PAGE_LARGE = false) ->
  (forall k t, (k <= 3)%nat -> walk m r v k = Some t -> entry m' t (idx v k) = entry m t (idx v k)) ->
  translate_from m' r v 0 (rights0, 0) = translate_from m r v 0 (rights0, 0).
Proof.
  intros Htop He.
  assert (forall j n t s, (j + n = 3)%nat -> walk m r v n = Some t -> translate_from m' t v n s = translate_from m t v n s) as Hgo.
  { induction j as [|j IH]; intros n t s Hj Hw; rewrite !translate_from_S by lia; cbv zeta; rewrite He by (done || lia);
      destruct (has (entry m t (idx v n)) PAGE_PRESENT) eqn:Hp; cbn [negb]; try done.
    - assert (n = 3%nat) as -> by lia. done.
    - destruct (is_leaf n _) eqn:Hlf; [done|]. apply IH; [lia|]. cbn [walk]. rewrite Hw. cbv zeta. unfold points. rewrite Hp.
      assert (has (entry m t (idx v n)) PAGE_LARGE = false) as ->; [|done].
      unfold is_leaf in Hlf. destruct n as [|n].
      + injection Hw as <-. apply Htop; [apply idx_range|done].
      + apply orb_false_elim in Hlf as [_ Hlf]. destruct n as [|[|n]]; [done|done|lia]. }
  by apply (Hgo 3%nat).
Qed.

(** * Well-formed tables *)
Context (roots : Z -> Prop).
Definition kernel_slot (m : vm St) (s : Z) : bool := has (entry m (pml4 cfg) s) PAGE_PRESENT.
Definition user_address (v : Z) : Prop := 0 <= v < K_USER_CANON_LIMIT.
Definition maps (m : vm St) (r v p fl : Z) : Prop :=
  roots r /\ user_address v /\ translate_from m r v 0 (rights0, 0) = Some (p, fl) /\ has fl PAGE_USER = true.
Record tables_ok (m : vm St) : Prop := {
  ok_bytes : bytes_ok (vm_ram m);
  ok_source : pa_ok (vm_pages m);
  ok_page : forall r v n t, roots r -> (n <= 3)%nat -> walk m r v n = Some t ->
    page t /\ 0 < t /\ t + 4096 <= 2 ^ 52 /\ pa_available (vm_pages m) (t / 4096) = false;
  ok_tree : forall r v n r' v' n' t, roots r -> roots r' -> (n <= 3)%nat -> (n' <= 3)%nat ->
    walk m r v n = Some t -> walk m r' v' n' = Some t ->
    n = n' /\ prefix v n = prefix v' n /\ (r = r' \/ (1 <= n)%nat /\ kernel_slot m (prefix v 1) = true);
  ok_top : forall r i, roots r -> 0 <= i < 512 -> has (entry m r i) PAGE_PRESENT = true -> has (entry m r i) PAGE_LARGE = false;
  ok_links : forall r v n t, roots r -> (n <= 2)%nat -> walk m r v n = Some t -> points (entry m t (idx v n)) = true ->
    has (entry m t (idx v n)) PAGE_RW = true /\ has (entry m t (idx v n)) PAGE_NX = false;
  ok_frames : forall r v p fl, maps m r v p fl ->
    pa_available (vm_pages m) (p / 4096) = false /\
    (forall r' v' n t, roots r' -> (n <= 3)%nat -> walk m r' v' n = Some t -> t / 4096 <> p / 4096);
  ok_once : forall r v p fl r' v' p' fl', maps m r v p fl -> maps m r' v' p' fl' -> p / 4096 = p' / 4096 ->
    r = r' /\ v / 4096 = v' / 4096
}.
Hypothesis Hk0 : roots (pml4 cfg).
Lemma root_page m r : tables_ok m -> roots r -> page r.
Proof. intros Hm Hr. by destruct (ok_page m Hm r 0 0 r Hr ltac:(lia) eq_refl). Qed.
(** A table reached on a user path is not the kernel's, and belongs to one root only. *)
Lemma user_table m r v n t r' v' n' : tables_ok m -> roots r -> roots r' -> (n <= 3)%nat -> (n' <= 3)%nat ->
  walk m r v n = Some t -> walk m r' v' n' = Some t -> kernel_slot m (prefix v 1) = false ->
  r = r' /\ n = n' /\ prefix v n = prefix v' n.
Proof.
  intros Hm Hr Hr' Hn Hn' Hw Hw' Hk. destruct (ok_tree m Hm r v n r' v' n' t) as (E1 & E2 & [E3|[_ E3]]); try done. congruence.
Qed.

(** * A new table below an entry of a user path *)
Section NewChild.
Context (m m' : vm St) (r v : Z) (n : nat) (t p e1 : Z).
Hypothesis Hm : tables_ok m.
Hypothesis Hr : roots r.
Hypothesis Hrk : r <> pml4 cfg.
Hypothesis Hn : (n <= 2)%nat.
Hypothesis Hw : walk m r v n = Some t.
Hypothesis Huser : kernel_slot m (prefix v 1) = false.
Hypothesis Hold : points (entry m t (idx v n)) = false.
Hypothesis Hpage : page p /\ 0 < p /\ p + 4096 <= 2 ^ 52 /\ pa_available (vm_pages m) (p / 4096) = true.
Hypothesis Hbytes : bytes_ok (vm_ram m').
Hypothesis Hsource : pa_ok (vm_pages m').
Hypothesis Havail : forall q, pa_available (vm_pages m') q = if q =? p / 4096 then false else pa_available (vm_pages m) q.
Hypothesis Hsame : forall t' i, page t' -> t' <> p -> 0 <= i < 512 -> t' <> t \/ i <> idx v n -> entry m' t' i = entry m t' i.
Hypothesis He1 : entry m' t (idx v n) = e1 /\ points e1 = true /\ Z.land e1 PHYS_MASK = p /\ has e1 PAGE_RW = true /\ has e1 PAGE_NX = false.
Hypothesis Hchild : (n < 2)%nat -> forall j, 0 <= j < 512 -> points (entry m' p j) = false.
Hypothesis Hpath : forall v' s, prefix v' (S n) = prefix v (S n) -> Z.land (fst s) rights0 = fst s -> Z.land (snd s) PAGE_NX = snd s ->
  translate_from m' t v' n s = translate_from m t v' n s.

Lemma old_table r' v' n' t' : roots r' -> (n' <= 3)%nat -> walk m r' v' n' = Some t' -> page t' /\ t' <> p.
Proof.
  intros Hr' Hn' Hw'. destruct (ok_page m Hm r' v' n' t') as (Hp & _ & _ & Ha); try done. split; [done|]. intros ->.
  destruct Hpage as (_ & _ & _ & Hpa). congruence.
Qed.
Definition beyond (r' v' : Z) (n' : nat) : Prop := r' = r /\ prefix v' (S n) = prefix v (S n) /\ (S n <= n')%nat.
#[local] Instance beyond_dec r' v' n' : Decision (beyond r' v' n').
Proof. unfold beyond. apply _. Defined.
(** An old table sits at the changed entry exactly when its path passes there. *)
Lemma at_change r' v' k t' : roots r' -> (k <= 3)%nat -> walk m r' v' k = Some t' ->
  (t' = t /\ idx v' k = idx v n) <-> (r' = r /\ k = n /\ prefix v' (S n) = prefix v (S n)).
Proof.
  intros Hr' Hk Hw'. split.
  - intros [-> Hi]. destruct (user_table m r v n t r' v' k) as (-> & -> & Hp); try done; [lia|].
    split_and!; try done. apply prefix_step; [lia|done].
  - intros (-> & -> & Hp). apply prefix_step in Hp as [Hp Hi]; [|lia].
    rewrite (walk_prefix m r v' v n) in Hw' by (done || lia). rewrite Hw in Hw'. injection Hw' as <-. done.
Qed.
Lemma child_walk r' v' n' : roots r' -> (n' <= 3)%nat ->
  walk m' r' v' n' = if decide (beyond r' v' n') then (if Nat.eqb n' (S n) then Some p else None) else walk m r' v' n'.
Proof.
  intros Hr'. induction n' as [|k IH]; intros Hk; [rewrite decide_False; [done|intros (_ & _ & ?); lia]|].
  cbn [walk]. rewrite IH by lia. destruct (decide (beyond r' v' k)) as [(-> & Hp & Hle)|Hno].
  - rewrite decide_True by (split_and!; (done || lia)). rewrite (proj2 (Nat.eqb_neq (S k) (S n))) by lia.
    destruct (Nat.eqb_spec k (S n)) as [->|]; [|done]. cbv zeta. rewrite Hchild; [done|lia|apply idx_range].
  - destruct (walk m r' v' k) as [t'|] eqn:Hw'.
    2: { destruct (decide _) as [(-> & Hp & Hle)|]; [|done]. assert (k = n) as ->.
         { destruct (Nat.eq_dec k n); [done|]. destruct Hno. split_and!; (done || lia). }
         apply prefix_step in Hp as [Hp _]; [|lia]. rewrite (walk_prefix m r v' v n) in Hw' by (done || lia). congruence. }
    pose proof (at_change r' v' k t' Hr' ltac:(lia) Hw') as Hat. cbv zeta.
    destruct (decide (t' = t /\ idx v' k = idx v n)) as [Hc|Hc].
    + pose proof (proj1 Hat Hc) as (-> & -> & Hp). rewrite decide_True by (split_and!; (done || lia)). rewrite Nat.eqb_refl.
      destruct Hc as [-> ->]. destruct He1 as (-> & -> & -> & _). done.
    + destruct (old_table r' v' k t') as [Hpt Hne]; try done; [lia|].
      rewrite Hsame; [|done|done|apply idx_range|lia].
      rewrite decide_False; [done|]. intros (-> & Hp & Hle). apply Hc, Hat. split_and!; try done.
      destruct (Nat.eq_dec k n); [done|]. destruct Hno. split_and!; (done || lia).
Qed.
Lemma child_kernel s : 0 <= s < 512 -> entry m' (pml4 cfg) s = entry m (pml4 cfg) s.
Proof.
  intros Hs. destruct (old_table (pml4 cfg) 0 0 (pml4 cfg)) as [Hp Hne]; try done; [lia|].
  apply Hsame; try done. left. intros Et. destruct (user_table m r v n t (pml4 cfg) 0 0) as (E & _); try done; [lia|lia|by rewrite <- Et].
Qed.
Lemma child_translate r' v' : roots r' -> translate_from m' r' v' 0 (rights0, 0) = translate_from m r' v' 0 (rights0, 0).
Proof.
  intros Hr'. destruct (decide (r' = r /\ prefix v' (S n) = prefix v (S n))) as [[-> Hp]|Hno].
  - assert (walk m r v' n = Some t) as Hwv.
    { pose proof Hp as Hq. apply prefix_step in Hq as [Hq _]; [|lia]. by rewrite (walk_prefix m r v' v n) by (done || lia). }
    assert (forall k tk, (k < n)%nat -> walk m r v' k = Some tk -> entry m' tk (idx v' k) = entry m tk (idx v' k)) as Hbelow.
    { intros k tk Hk Hwk. destruct (old_table r v' k tk) as [Hpt Hne]; try done; [lia|]. apply Hsame; try done; [apply idx_range|].
      destruct (decide (tk = t)) as [->|]; [|by left]. right. intros Hi.
      pose proof (proj1 (at_change r v' k t Hr ltac:(lia) Hwk) (conj eq_refl Hi)). lia. }
    rewrite (translate_walk m r v' n t) by (done || lia). rewrite (translate_walk m' r v' n t).
    + rewrite (access_ext m m') by (done || lia). destruct (access_mask m r v' n). by apply Hpath.
    + lia.
    + rewrite (walk_ext m m'); [done|lia|done].
  - apply translate_ext; [intros i; by apply (ok_top m Hm)|]. intros k tk Hk Hwk.
    destruct (old_table r' v' k tk) as [Hpt Hne]; try done. apply Hsame; try done; [apply idx_range|].
    destruct (decide (tk = t)) as [->|]; [|by left]. right. intros Hi. apply Hno.
    pose proof (proj1 (at_change r' v' k t Hr' Hk Hwk) (conj eq_refl Hi)). tauto.
Qed.
Lemma child_maps r' v' q fl : maps m' r' v' q fl <-> maps m r' v' q fl.
Proof. unfold maps. split; intros (? & ? & He & ?); rewrite ?child_translate in * by done; done. Qed.
Lemma child_slot s : 0 <= s < 512 -> kernel_slot m' s = kernel_slot m s.
Proof. intros Hs. unfold kernel_slot. by rewrite child_kernel. Qed.
Lemma child_ok : tables_ok m'.
Proof.
  assert (forall r' v' n' t', roots r' -> (n' <= 3)%nat -> walk m' r' v' n' = Some t' ->
    (t' = p /\ n' = S n /\ r' = r /\ prefix v' (S n) = prefix v (S n)) \/ walk m r' v' n' = Some t') as Hcase.
  { intros r' v' n' t' Hr' Hn' Hw'. rewrite child_walk in Hw' by done. destruct (decide _) as [(-> & Hp & _)|]; [|by right].
    destruct (Nat.eqb_spec n' (S n)) as [->|]; [|done]. injection Hw' as <-. by left. }
  destruct Hpage as (Hp1 & Hp2 & Hp3 & Hp4). split; try done.
  - intros r' v' n' t' Hr' Hn' Hw'. rewrite Havail. destruct (Hcase _ _ _ _ Hr' Hn' Hw') as [(-> & _)|Ho]; [by rewrite Z.eqb_refl|].
    destruct (ok_page m Hm r' v' n' t') as (? & ? & ? & Ha); try done. rewrite Ha. by destruct (_ =? _).
  - intros ra va na rb vb nb t' Hra Hrb Hna Hnb Hwa Hwb. rewrite child_slot by apply prefix1_range.
    destruct (Hcase _ _ _ _ Hra Hna Hwa) as [(-> & -> & -> & Hpa)|Hoa], (Hcase _ _ _ _ Hrb Hnb Hwb) as [(Ep & -> & -> & Hpb)|Hob].
    + split_and!; [done|congruence|by left].
    + by destruct (old_table rb vb nb p Hrb Hnb Hob).
    + subst t'. by destruct (old_table ra va na p Hra Hna Hoa).
    + by apply (ok_tree m Hm ra va na rb vb nb t').
  - intros r' i Hr' Hi. destruct (old_table r' 0 0 r') as [Hpt Hne]; try done; [lia|].
    destruct (decide (r' = t /\ i = idx v n)) as [[-> ->]|Hc].
    + destruct He1 as (-> & Hpt1 & _). unfold points in Hpt1. apply andb_prop in Hpt1 as [_ Hl]. apply negb_true_iff in Hl. done.
    + rewrite Hsame; [by apply (ok_top m Hm)|done|done|done|lia].
  - intros r' v' n' t' Hr' Hn' Hw'. destruct (Hcase r' v' n' t' Hr' ltac:(lia) Hw') as [(-> & -> & _)|Ho].
    + rewrite Hchild; [done|lia|apply idx_range].
    + destruct (old_table r' v' n' t') as [Hpt Hne]; try done; [lia|]. destruct (decide (t' = t /\ idx v' n' = idx v n)) as [[-> ->]|Hc].
      * destruct He1 as (-> & _ & _ & ? & ?). done.
      * rewrite Hsame; [by apply (ok_links m Hm r')|done|done|apply idx_range|lia].
  - intros r' v' q fl Hmp. apply child_maps in Hmp. destruct (ok_frames m Hm r' v' q fl Hmp) as [Hq Hnt]. rewrite Havail.
    split; [rewrite Hq; by destruct (_ =? _)|]. intros ra va na t' Hra Hna Hwa.
    destruct (Hcase _ _ _ _ Hra Hna Hwa) as [(-> & _)|Ho]; [congruence|by apply (Hnt ra va na)].
  - intros ra va pa fa rb vb pb fb Ha Hb. apply child_maps in Ha, Hb. by apply (ok_once m Hm ra va pa fa rb vb pb fb).
Qed.
End NewChild.

(** * Splitting a large page *)
Lemma lor_low_add b y k : 0 <= k -> 0 <= y < 2 ^ k -> b mod 2 ^ k = 0 -> Z.lor b y = b + y.
Proof.
  intros Hk Hy Hb. assert (2 ^ k <> 0) by (apply Z.pow_nonzero; lia).
  replace b with (Z.shiftl (b / 2 ^ k) k) at 1 by (rewrite Z.shiftl_mul_pow2 by lia; pose proof (Z.div_mod b (2 ^ k)); lia).
  rewrite Z.lor_comm, lor_shiftl_add by done. pose proof (Z.div_mod b (2 ^ k)). lia.
Qed.
(** The shift of a page at depth [n]. *)
Definition shift_at (n : nat) : Z := 12 + 9 * (3 - Z.of_nat n).
Definition child_base (e : Z) (n : nat) : Z := Z.land e PHYS_MASK / 2 ^ shift_at n * 2 ^ shift_at n.
Definition child_addr (e : Z) (n : nat) (j : Z) : Z := child_base e n + j * 2 ^ shift_at (S n).
Definition child_entry (e : Z) (n : nat) (j : Z) : Z := Z.lor (child_addr e n j) (split_flags e (4 - Z.of_nat n)).
Lemma child_addr_range e n j : is_u64 e -> n = 1%nat \/ n = 2%nat -> 0 <= j < 512 ->
  child_addr e n j mod 2 ^ shift_at (S n) = 0 /\ 0 <= child_addr e n j < 2 ^ 52.
Proof.
  intros He Hn Hj. pose proof (phys_range e ltac:(unfold is_u64 in He; lia)) as [_ Hp]. unfold child_addr, child_base, shift_at.
  set (x := Z.land e PHYS_MASK) in *. destruct Hn as [-> | ->].
  - change (2 ^ (12 + 9 * (3 - Z.of_nat 2))) with (2 ^ 21). change (2 ^ (12 + 9 * (3 - Z.of_nat 1))) with (2 ^ 30). dlia.
  - change (2 ^ (12 + 9 * (3 - Z.of_nat 3))) with (2 ^ 12). change (2 ^ (12 + 9 * (3 - Z.of_nat 2))) with (2 ^ 21). dlia.
Qed.
Lemma fill_value e n j : is_u64 e -> n = 1%nat \/ n = 2%nat -> 0 <= j < 512 ->
  Z.lor (u64 (split_base e (4 - Z.of_nat n) + j * (if 4 - Z.of_nat n =? 3 then 0x200000 else 4096))) (split_flags e (4 - Z.of_nat n)) = child_entry e n j.
Proof.
  intros He Hn Hj. unfold child_entry. f_equal. destruct (child_addr_range e n j He Hn Hj) as [_ Hr].
  pose proof (phys_range e ltac:(unfold is_u64 in He; lia)) as [_ Hp].
  transitivity (u64 (child_addr e n j)); [|apply Z.mod_small; lia]. f_equal. unfold child_addr, child_base, split_base, shift_at.
  destruct Hn as [-> | ->]; cbn [Z.of_nat Pos.of_succ_nat Pos.succ Z.sub Z.add Z.opp Z.eqb Pos.eqb Z.pos_sub Pos.pred_double];
    change (4 - 1 =? 3) with true; change (4 - 2 =? 3) with false; cbv iota; f_equal;
    [apply (clear_low _ 30)|apply (clear_low _ 21)]; unfold is_u64; lia.
Qed.
Lemma split_flag_bits e n i : is_u64 e -> n = 1%nat \/ n = 2%nat -> 0 <= i ->
  Z.testbit (split_flags e (4 - Z.of_nat n)) i =
    if Nat.eqb n 1 then (Z.testbit e i && negb ((12 <=? i) && (i <? 52))) || ((i =? 12) && Z.testbit e 12)
    else (Z.testbit e i && negb ((12 <=? i) && (i <? 52)) && negb (i =? 7)) || ((i =? 7) && Z.testbit e 12).
Proof.
  intros He Hn Hi. unfold split_flags. rewrite has_pat.
  assert (Z.testbit (Z.land e (u64 (Z.lnot PHYS_MASK))) i = Z.testbit e i && negb ((12 <=? i) && (i <? 52))) as Hf.
  { rewrite Z.land_spec. unfold u64. destruct (Z.lt_ge_cases i 64).
    - by rewrite Z.mod_pow2_bits_low, Z.lnot_spec, phys_bit by lia.
    - by rewrite (testbit_high e 64) by (done || lia). }
  assert (forall k, 0 <= k -> Z.testbit (2 ^ k) i = (i =? k)) as Hpow.
  { intros k Hk. destruct (Z.eqb_spec i k) as [->|]; [by apply Z.pow2_bits_true|apply Z.pow2_bits_false; lia]. }
  destruct Hn as [-> | ->]; cbn [Nat.eqb].
  - change (4 - Z.of_nat 1 =? 3) with true. change (4 - Z.of_nat 1 =? 2) with false. cbv iota.
    destruct (Z.testbit e 12); [|by rewrite Hf, andb_false_r, orb_false_r]. rewrite Z.lor_spec, Hf.
    change PAGE_PAT_LARGE with (2 ^ 12). rewrite Hpow by lia. by rewrite andb_true_r.
  - change (4 - Z.of_nat 2 =? 3) with false. change (4 - Z.of_nat 2 =? 2) with true. cbv iota.
    destruct (Z.testbit e 12).
    + rewrite Z.lor_spec, Hf. change PAGE_LARGE with (2 ^ 7). rewrite Hpow by lia. rewrite andb_true_r.
      destruct (i =? 7); rewrite ?orb_true_r, ?andb_true_r; done.
    + rewrite Z.land_spec, Hf, andb_false_r, orb_false_r. unfold u64. destruct (Z.lt_ge_cases i 64).
      * rewrite Z.mod_pow2_bits_low, Z.lnot_spec by lia. change PAGE_LARGE with (2 ^ 7). by rewrite Hpow by lia.
      * by rewrite (testbit_high e 64) by (done || lia).
Qed.
(** The flags of a child entry, and what it points at. *)
Lemma child_flag e n j i : is_u64 e -> n = 1%nat \/ n = 2%nat -> 0 <= j < 512 -> i = 0 \/ i = 1 \/ i = 2 \/ i = 63 ->
  Z.testbit (child_entry e n j) i = Z.testbit e i.
Proof.
  intros He Hn Hj Hi. destruct (child_addr_range e n j He Hn Hj) as [Hm Hr]. unfold child_entry.
  assert (child_addr e n j mod 4096 = 0) as Hp.
  { destruct Hn as [-> | ->]; [|exact Hm]. unfold shift_at in Hm. change (2 ^ (12 + 9 * (3 - Z.of_nat 2))) with (2 ^ 21) in Hm. dlia. }
  rewrite Z.lor_spec, (page_bits (child_addr e n j)) by (done || lia). cbn [orb]. rewrite split_flag_bits by (done || lia).
  destruct Hi as [-> |[-> |[-> | ->]]]; destruct Hn as [-> | ->]; cbn -[Z.testbit]; by rewrite ?andb_true_r, ?orb_false_r.
Qed.
Lemma child_large e n j : n = 1%nat -> is_u64 e -> 0 <= j < 512 -> has e PAGE_LARGE = true -> has (child_entry e n j) PAGE_LARGE = true.
Proof.
  intros -> He Hj. rewrite !has_large. intros Hl. unfold child_entry. rewrite Z.lor_spec, split_flag_bits by (auto; lia). cbn -[Z.testbit]. by rewrite Hl, orb_true_r.
Qed.
Lemma child_phys e n j : is_u64 e -> n = 1%nat \/ n = 2%nat -> 0 <= j < 512 ->
  Z.land (Z.land (child_entry e n j) PHYS_MASK) (u64 (Z.lnot (2 ^ shift_at (S n) - 1))) = child_addr e n j.
Proof.
  intros He Hn Hj. destruct (child_addr_range e n j He Hn Hj) as [Hm Hr]. set (x := child_addr e n j) in *.
  assert (12 <= shift_at (S n) <= 21) as Hs by (unfold shift_at; destruct Hn as [-> | ->]; lia).
  apply Z.bits_inj'. intros i Hi. rewrite !Z.land_spec, phys_bit by done. unfold u64. destruct (Z.lt_ge_cases i 64).
  - rewrite Z.mod_pow2_bits_low, Z.lnot_spec by lia. replace (2 ^ shift_at (S n) - 1) with (Z.ones (shift_at (S n))) by (rewrite Z.ones_equiv; lia).
    rewrite Z.testbit_ones by lia. rewrite (proj2 (Z.leb_le 0 i)) by lia. cbn [andb]. unfold child_entry. fold x. rewrite Z.lor_spec.
    destruct (Z.ltb_spec i (shift_at (S n))).
    + rewrite andb_false_r. symmetry. rewrite <- (Z.mod_pow2_bits_low x (shift_at (S n)) i) by lia. by rewrite Hm, Z.bits_0.
    + destruct (Z.ltb_spec i 52).
      * rewrite (proj2 (Z.leb_le 12 i)) by lia. cbn [andb negb]. rewrite !andb_true_r. rewrite split_flag_bits by (done || lia).
        rewrite (proj2 (Z.leb_le 12 i)), (proj2 (Z.ltb_lt i 52)) by lia. cbn [andb negb]. rewrite !andb_false_r. cbn [andb orb].
        assert ((if Nat.eqb n 1 then (i =? 12) && Z.testbit e 12 else (i =? 7) && Z.testbit e 12) = false) as Hz.
        { destruct Hn as [-> | ->]; cbn [Nat.eqb]; [destruct (Z.eqb_spec i 12)|destruct (Z.eqb_spec i 7)]; try done; unfold shift_at in *; lia. }
        destruct (Nat.eqb n 1); rewrite Hz; by rewrite ?orb_false_r.
      * rewrite andb_false_r, andb_false_r. symmetry. by apply (testbit_high x 52).
  - rewrite (proj2 (Z.ltb_ge i 52)), !andb_false_r, andb_false_l by lia. symmetry. apply (testbit_high x 52); lia.
Qed.
Lemma land_pow2 e k : 0 <= k -> Z.land e (2 ^ k) = if Z.testbit e k then 2 ^ k else 0.
Proof.
  intros Hk. apply Z.bits_inj'. intros i Hi. rewrite Z.land_spec. destruct (Z.eq_dec i k) as [->|Hne].
  - rewrite Z.pow2_bits_true, andb_true_r by done. destruct (Z.testbit e k); [by rewrite Z.pow2_bits_true|by rewrite Z.bits_0].
  - rewrite (Z.pow2_bits_false k i), andb_false_r by lia. destruct (Z.testbit e k); [by rewrite Z.pow2_bits_false by lia|by rewrite Z.bits_0].
Qed.
Lemma rights0_bit i : 0 <= i -> Z.testbit rights0 i = (i =? 1) || (i =? 2).
Proof.
  intros Hi. change rights0 with (Z.lor (2 ^ 1) (2 ^ 2)). rewrite Z.lor_spec.
  destruct (Z.eqb_spec i 1) as [->|]; [done|]. destruct (Z.eqb_spec i 2) as [->|]; [done|].
  by rewrite !Z.pow2_bits_false by lia.
Qed.
Lemma masked_bit a b i : Z.land a b = a -> 0 <= i -> Z.testbit b i = false -> Z.testbit a i = false.
Proof. intros <- Hi Hb. by rewrite Z.land_spec, Hb, andb_false_r. Qed.
Definition splits_to (e e1 : Z) : Prop :=
  points e1 = true /\ has e1 PAGE_RW = true /\ has e1 PAGE_NX = false /\ has e1 PAGE_USER = has e PAGE_USER.
Lemma split_leaf e e1 n v s : is_u64 e -> n = 1%nat \/ n = 2%nat -> splits_to e e1 ->
  Z.land (fst s) rights0 = fst s -> Z.land (snd s) PAGE_NX = snd s ->
  leaf_result v (S n) (child_entry e n (idx v (S n))) (access_step e1 s) = leaf_result v n e s.
Proof.
  intros He Hn (_ & Hrw & Hnx & Hu) Ha Hx. rewrite has_rw in Hrw. rewrite has_nx in Hnx. rewrite !has_user in Hu.
  pose proof (idx_range v (S n)) as Hj. set (ce := child_entry e n (idx v (S n))).
  assert (forall i, i = 0 \/ i = 1 \/ i = 2 \/ i = 63 -> Z.testbit ce i = Z.testbit e i) as Hce by (intros i; by apply child_flag).
  unfold leaf_result, access_step. cbn [fst snd]. f_equal.
  - rewrite !Z.shiftl_1_l. change (12 + 9 * (3 - Z.of_nat (S n))) with (shift_at (S n)). change (12 + 9 * (3 - Z.of_nat n)) with (shift_at n).
    unfold ce. rewrite child_phys by done. assert (0 <= shift_at n <= 63 /\ 12 <= shift_at (S n) <= 21) as [Hs Hs'] by (unfold shift_at; destruct Hn as [-> | ->]; lia).
    pose proof (phys_range e ltac:(unfold is_u64 in He; lia)) as [_ Hp].
    rewrite clear_low by (unfold is_u64; lia). destruct (child_addr_range e n (idx v (S n)) He Hn Hj) as [Hm _].
    replace (2 ^ shift_at n - 1) with (Z.ones (shift_at n)) by (rewrite Z.ones_equiv; lia).
    replace (2 ^ shift_at (S n) - 1) with (Z.ones (shift_at (S n))) by (rewrite Z.ones_equiv; lia).
    rewrite !Z.land_ones by lia.
    assert (0 < 2 ^ shift_at n /\ 0 < 2 ^ shift_at (S n)) as [Hp1 Hp2] by (split; apply Z.pow_pos_nonneg; lia).
    rewrite (lor_low_add _ (v mod 2 ^ shift_at n) (shift_at n)); [|lia|by apply Z.mod_pos_bound|apply Z.mod_mul; lia].
    rewrite (lor_low_add _ (v mod 2 ^ shift_at (S n)) (shift_at (S n))); [|lia|by apply Z.mod_pos_bound|done].
    unfold child_addr, child_base. rewrite <- Z.add_assoc. f_equal. unfold idx, pt_index. change 511 with (Z.ones 9).
    rewrite Z.land_ones, Z.shiftr_div_pow2 by lia. unfold shift_at. destruct Hn as [-> | ->].
    + change (12 + 9 * (4 - Z.of_nat 2 - 1)) with 21. change (12 + 9 * (3 - Z.of_nat 2)) with 21. change (12 + 9 * (3 - Z.of_nat 1)) with 30. dlia.
    + change (12 + 9 * (4 - Z.of_nat 3 - 1)) with 12. change (12 + 9 * (3 - Z.of_nat 3)) with 12. change (12 + 9 * (3 - Z.of_nat 2)) with 21. dlia.
  - f_equal. f_equal.
    + apply Z.bits_inj'. intros i Hi. rewrite !Z.land_spec. destruct (Z.eq_dec i 1) as [->|]; [by rewrite Hrw, andb_true_r, Hce by auto|].
      destruct (Z.eq_dec i 2) as [->|]; [rewrite Hu, Hce by auto; destruct (Z.testbit e 2); by rewrite ?andb_true_r, ?andb_false_r|].
      rewrite (masked_bit (fst s) rights0 i); [done|done|done|]. rewrite rights0_bit by done. destruct (Z.eqb_spec i 1), (Z.eqb_spec i 2); done.
    + change PAGE_NX with (2 ^ 63). rewrite !land_pow2 by lia. rewrite Hnx, (Hce 63) by auto. by rewrite Z.lor_0_r.
Qed.
Lemma bits_u64 x : 0 <= x -> (forall i, 64 <= i -> Z.testbit x i = false) -> is_u64 x.
Proof.
  intros Hx Hb. split; [done|]. destruct (Z.eq_dec x 0) as [->|]; [lia|]. apply Z.log2_lt_pow2; [lia|]. apply Z.nle_gt. intros Hlog.
  pose proof (Z.bit_log2 x ltac:(lia)) as Hbit. by rewrite Hb in Hbit by done.
Qed.
Lemma child_u64 e n j : is_u64 e -> n = 1%nat \/ n = 2%nat -> 0 <= j < 512 -> is_u64 (child_entry e n j).
Proof.
  intros He Hn Hj. destruct (child_addr_range e n j He Hn Hj) as [_ Hr]. pose proof He as [He0 _]. apply bits_u64.
  - unfold child_entry. apply Z.lor_nonneg. split; [lia|]. unfold split_flags.
    assert (forall x, 0 <= Z.land e x) as Hl by (intros x; apply Z.land_nonneg; by left).
    destruct (has e PAGE_PAT_LARGE); [apply Z.lor_nonneg; split; [apply Hl|by destruct (_ =? _)]|].
    destruct (_ =? _); [apply Z.land_nonneg; left; apply Hl|apply Hl].
  - intros i Hi. unfold child_entry. rewrite Z.lor_spec, (testbit_high _ 52) by (done || lia). rewrite split_flag_bits by (done || lia).
    rewrite (testbit_high e 64) by (done || lia). rewrite (proj2 (Z.eqb_neq i 12)), (proj2 (Z.eqb_neq i 7)) by lia. by destruct (Nat.eqb n 1).
Qed.
(** The contents of a child page. *)
Lemma fill_ram m p e n a : page p -> a < p \/ p + 4096 <= a -> zget (vm_ram (fill_child p e (4 - Z.of_nat n) m)) a = zget (vm_ram m) a.
Proof.
  intros Hp Ha. unfold fill_child.
  apply (fold_range_inv (fun k m' => zget (vm_ram m') a = zget (vm_ram m) a)); [lia|reflexivity|].
  intros j m1 Hj IH. unfold set_entry. cbn [vm_ram modify]. rewrite wr64_get.
  assert (Hout : (p + 8 * j <=? a) && (a <? p + 8 * j + 8) = false) by (apply andb_false_iff; destruct Ha; [left; apply Z.leb_gt|right; apply Z.ltb_ge]; lia).
  rewrite Hout. exact IH.
Qed.
Lemma fill_child_spec m p e n : page p -> is_u64 e -> n = 1%nat \/ n = 2%nat -> bytes_ok (vm_ram m) ->
  let m' := fill_child p e (4 - Z.of_nat n) m in
  vm_pages m' = vm_pages m /\ bytes_ok (vm_ram m') /\
  (forall j, 0 <= j < 512 -> entry m' p j = u64 (child_entry e n j)) /\
  (forall t i, page t -> t <> p -> 0 <= i < 512 -> entry m' t i = entry m t i).
Proof.
  intros Hp He Hn Hb. cbv zeta. unfold fill_child.
  assert (forall f, (forall j, 0 <= j < 512 -> f j = child_entry e n j) ->
    let m' := fold_range 0 512 (fun j m => set_entry p j (f j) m) m in
    vm_pages m' = vm_pages m /\ bytes_ok (vm_ram m') /\ (forall j, 0 <= j < 512 -> entry m' p j = u64 (child_entry e n j)) /\
    (forall t i, page t -> t <> p -> 0 <= i < 512 -> entry m' t i = entry m t i)) as Hfill.
  { intros f Hf. pose proof (fold_range_inv (fun k m' => vm_pages m' = vm_pages m /\ bytes_ok (vm_ram m') /\
      (forall j, 0 <= j < k -> entry m' p j = u64 (child_entry e n j)) /\
      (forall t i, page t -> t <> p -> 0 <= i < 512 -> entry m' t i = entry m t i))
      (fun j m => set_entry p j (f j) m) 0 512 m ltac:(lia)) as Hinv. cbv zeta. apply Hinv; clear Hinv.
    { split; [reflexivity|]. split; [exact Hb|]. split; [intros j Hj; lia|reflexivity]. }
    intros k m1 Hk (I1 & I2 & I3 & I4). split_and!.
    - done.
    - by apply set_entry_bytes.
    - intros j Hj. rewrite entry_set by (done || lia). destruct (decide (p = p /\ k = j)) as [[_ ->]|Hne]; [by rewrite Hf by lia|].
      apply I3. lia.
    - intros t i Ht Hne Hi. rewrite entry_set by (done || lia). rewrite decide_False by (intros [-> _]; done). by apply I4. }
  apply Hfill. intros j Hj. by apply fill_value.
Qed.

(** * One state extends another *)
Definition is_table (m : vm St) (t : Z) : Prop := exists r v n, roots r /\ (n <= 3)%nat /\ walk m r v n = Some t.
(** [m'] has more tables than [m], but every address translates as before, and
    only tables and free pages were written. *)
Record extends (m m' : vm St) : Prop := {
  ex_ok : tables_ok m';
  ex_translate : forall r v, roots r -> translate_from m' r v 0 (rights0, 0) = translate_from m r v 0 (rights0, 0);
  ex_slot : forall s, 0 <= s < 512 -> kernel_slot m' s = kernel_slot m s;
  ex_avail : forall q, pa_available (vm_pages m') q = true -> pa_available (vm_pages m) q = true;
  ex_tables : forall t, is_table m' t -> is_table m t \/ pa_available (vm_pages m) (t / 4096) = true;
  ex_links : forall r v n t, roots r -> (n <= 2)%nat -> walk m r v n = Some t -> points (entry m t (idx v n)) = true ->
    entry m' t (idx v n) = entry m t (idx v n);
  ex_leaf : forall r v t, roots r -> walk m r v 3 = Some t -> entry m' t (idx v 3) = entry m t (idx v 3);
  ex_ram : forall a, pa_available (vm_pages m) (a / 4096) = false -> (forall t, is_table m t -> t / 4096 <> a / 4096) ->
    zget (vm_ram m') a = zget (vm_ram m) a;
  ex_managed : forall q, pa_managed (vm_pages m') q = pa_managed (vm_pages m) q
}.
Lemma extends_refl m : tables_ok m -> extends m m.
Proof. intros Hm. split; auto. Qed.
Lemma extends_walk m m' r v n t : extends m m' -> roots r -> (n <= 3)%nat -> walk m r v n = Some t -> walk m' r v n = Some t.
Proof.
  intros E Hr. revert t. induction n as [|n IH]; intros t Hn Hw; [done|]. apply walk_S in Hw as (t0 & Hw & Hp & ->).
  cbn [walk]. rewrite (IH t0) by (done || lia). cbv zeta. rewrite (ex_links m m' E r v n t0) by (done || lia). by rewrite Hp.
Qed.
Lemma extends_trans m1 m2 m3 : extends m1 m2 -> extends m2 m3 -> extends m1 m3.
Proof.
  intros E F. split.
  - apply (ex_ok _ _ F).
  - intros r v Hr. by rewrite (ex_translate _ _ F), (ex_translate _ _ E).
  - intros s Hs. by rewrite (ex_slot _ _ F), (ex_slot _ _ E).
  - intros q Hq. by apply (ex_avail _ _ E), (ex_avail _ _ F).
  - intros t Ht. destruct (ex_tables _ _ F t Ht) as [Ht2|Ht2]; [by apply (ex_tables _ _ E)|right; by apply (ex_avail _ _ E)].
  - intros r v n t Hr Hn Hw Hp. pose proof (ex_links _ _ E r v n t Hr Hn Hw Hp) as Hl.
    rewrite (ex_links _ _ F r v n t); [done|done|done|apply (extends_walk m1); (done || lia)|by rewrite Hl].
  - intros r v t Hr Hw. rewrite (ex_leaf _ _ F r v t), (ex_leaf _ _ E r v t); [done|done|done|done|]. by apply (extends_walk m1).
  - intros a Ha Ht. rewrite (ex_ram _ _ F), (ex_ram _ _ E); try done.
    + destruct (pa_available (vm_pages m2) (a / 4096)) eqn:H2; [|done]. apply (ex_avail _ _ E) in H2. congruence.
    + intros t Ht2. destruct (ex_tables _ _ E t Ht2) as [Ht1|Ht1]; [by apply Ht|]. congruence.
  - intros q. by rewrite (ex_managed _ _ F), (ex_managed _ _ E).
Qed.
Lemma extends_maps m m' r v p fl : extends m m' -> maps m' r v p fl <-> maps m r v p fl.
Proof. intros E. unfold maps. split; intros (? & ? & He & ?); rewrite ?(ex_translate _ _ E) in * by done; done. Qed.

(** Discharge the premises of [H] that are hypotheses. *)
Ltac feed H := repeat match type of H with ?P -> _ => match type of P with Prop => specialize (H ltac:(assumption)) end end.
(** Storing a link to a new page in an entry of a user path that did not point to a table. *)
Lemma new_link m0 m r v n t p e1 : tables_ok m -> roots r -> r <> pml4 cfg -> (n <= 2)%nat -> walk m r v n = Some t ->
  kernel_slot m (prefix v 1) = false -> points (entry m t (idx v n)) = false -> fresh_page m m0 p -> p <> 0 ->
  forall m1, vm_pages m1 = vm_pages m0 -> bytes_ok (vm_ram m1) ->
  (forall t' i, page t' -> t' <> p -> 0 <= i < 512 -> entry m1 t' i = entry m0 t' i) ->
  (forall a, a < p \/ p + 4096 <= a -> zget (vm_ram m1) a = zget (vm_ram m0) a) ->
  is_u64 e1 -> points e1 = true -> Z.land e1 PHYS_MASK = p -> has e1 PAGE_RW = true -> has e1 PAGE_NX = false ->
  ((n < 2)%nat -> forall j, 0 <= j < 512 -> points (entry m1 p j) = false) ->
  (forall v' s, prefix v' (S n) = prefix v (S n) -> Z.land (fst s) rights0 = fst s -> Z.land (snd s) PAGE_NX = snd s ->
     translate_from (set_entry t (idx v n) e1 m1) t v' n s = translate_from m t v' n s) ->
  extends m (set_entry t (idx v n) e1 m1) /\ walk (set_entry t (idx v n) e1 m1) r v (S n) = Some p /\
  entry (set_entry t (idx v n) e1 m1) t (idx v n) = e1.
Proof.
  intros Hm Hr Hrk Hn Hw Hk Hold F Hp0 m1 P1 B1 E1 R1 He1 Hpt Hph Hrw Hnx Hch Hpath. destruct F as [F1 F2 F3 F4 F5 F6 F7 F8 F9 F10 F11 F12 F13].
  set (m' := set_entry t (idx v n) e1 m1) in *. destruct (ok_page m Hm r v n t Hr ltac:(lia) Hw) as (Ht1 & Ht2 & Ht3 & Ht4).
  assert (t <> p) as Htp by (intros ->; congruence). pose proof (idx_range v n) as Hix.
  assert (entry m' t (idx v n) = e1) as Hnew.
  { unfold m'. rewrite entry_set by done. rewrite decide_True by done. apply Z.mod_small. exact He1. }
  assert (forall t' i, page t' -> t' <> p -> 0 <= i < 512 -> t' <> t \/ i <> idx v n -> entry m' t' i = entry m t' i) as Hsame.
  { intros t' i Hpt' Hne Hi Hd. unfold m'. rewrite entry_set by done. rewrite decide_False by (intros [E2 E3]; destruct Hd; congruence). by rewrite E1, F8. }
  assert (forall j, 0 <= j < 512 -> entry m' p j = entry m1 p j) as Hchp.
  { intros j Hj. unfold m'. rewrite entry_set by done. by rewrite decide_False by (intros [-> _]; done). }
  assert (bytes_ok (vm_ram m')) as Hb' by (by apply set_entry_bytes).
  assert (pa_ok (vm_pages m')) as Hs' by (unfold m'; cbn [vm_pages set_entry modify]; change (pa_ok (vm_pages m1)); by rewrite P1).
  assert (forall q, pa_available (vm_pages m') q = if q =? p / 4096 then false else pa_available (vm_pages m) q) as Hav.
  { intros q. change (vm_pages m') with (vm_pages m1). by rewrite P1. }
  assert ((n < 2)%nat -> forall j, 0 <= j < 512 -> points (entry m' p j) = false) as Hch' by (intros Hn2 j Hj; rewrite Hchp by done; by apply Hch).
  assert (page p /\ 0 < p /\ p + 4096 <= 2 ^ 52 /\ pa_available (vm_pages m) (p / 4096) = true) as Hpg by (destruct F2; done).
  assert (entry m' t (idx v n) = e1 /\ points e1 = true /\ Z.land e1 PHYS_MASK = p /\ has e1 PAGE_RW = true /\ has e1 PAGE_NX = false) as He by done.
  pose proof (child_walk m m' r v n t p e1) as CW. feed CW.
  split; [|split; [|done]].
  2: { rewrite CW by (done || lia).
       rewrite decide_True by done. by rewrite Nat.eqb_refl. }
  split.
  - pose proof (child_ok m m' r v n t p e1) as Hx. feed Hx. exact Hx.
  - intros r' v' Hr'. pose proof (child_translate m m' r v n t p e1) as Hx. feed Hx. by apply Hx.
  - intros s Hs. pose proof (child_slot m m' r v n t p) as Hx. feed Hx. by apply Hx.
  - intros q Hq. rewrite Hav in Hq. by destruct (_ =? _).
  - intros t' (r' & v' & n' & Hr' & Hn' & Hw').
    rewrite CW in Hw' by done.
    destruct (decide _); [destruct (Nat.eqb n' (S n)); [injection Hw' as <-; by right|done]|left; by exists r', v', n'].
  - intros r' v' n' t' Hr' Hn' Hw' Hpt'. destruct (ok_page m Hm r' v' n' t' Hr' ltac:(lia) Hw') as (Hq1 & _ & _ & Hq4).
    apply Hsame; [done|congruence|apply idx_range|]. destruct (decide (t' = t)) as [->|]; [|by left]. right. intros Hi. congruence.
  - intros r' v' t' Hr' Hw'. destruct (ok_page m Hm r' v' 3 t' Hr' ltac:(lia) Hw') as (Hq1 & _ & _ & Hq4).
    apply Hsame; [done|congruence|apply idx_range|]. left. intros ->.
    destruct (ok_tree m Hm r' v' 3 r v n t) as (? & _); try done; lia.
  - intros a Ha Hnt. transitivity (zget (vm_ram m1) a).
    + unfold m', set_entry. cbn [vm_ram modify]. rewrite wr64_get. assert (is_table m t) as Htt by (exists r, v, n; split_and!; (done || lia)). pose proof (Hnt t Htt) as Hta.
      unfold page in Ht1. destruct (Z.leb_spec (t + 8 * idx v n) a), (Z.ltb_spec a (t + 8 * idx v n + 8)); try done. exfalso. apply Hta. dlia.
    + assert (a < p \/ p + 4096 <= a) as Hap.
      { destruct (Z.lt_ge_cases a p); [by left|]. destruct (Z.le_gt_cases (p + 4096) a); [by right|]. exfalso.
        unfold page in F1. assert (a / 4096 = p / 4096) by dlia. congruence. }
      by rewrite R1, F9.
  - intros q. change (vm_pages m') with (vm_pages m1). rewrite P1. apply F13.
Qed.

(** * [pt_child] on a user path *)
Lemma link_entry p u : page p -> 0 < p /\ p + 4096 <= 2 ^ 52 -> u = 0 \/ u = PAGE_USER ->
  let e1 := Z.lor p (Z.lor PAGE_PRESENT (Z.lor PAGE_RW u)) in
  is_u64 e1 /\ points e1 = true /\ Z.land e1 PHYS_MASK = p /\ has e1 PAGE_RW = true /\ has e1 PAGE_NX = false /\
  has e1 PAGE_USER = has u PAGE_USER.
Proof.
  intros Hp Hr Hu. cbv zeta. unfold page in Hp. assert (0 <= Z.lor PAGE_PRESENT (Z.lor PAGE_RW u) < 2 ^ 12) as Hf by (destruct Hu as [-> | ->]; split; by vm_compute).
  assert (forall i, 0 <= i -> i < 12 \/ 52 <= i -> Z.testbit p i = false) as Hb by (intros i; apply page_bits; (done || lia)).
  unfold points. rewrite has_present, has_large, has_rw, has_nx, !has_user. rewrite !Z.lor_spec, !Hb by lia.
  split_and!.
  - rewrite (lor_low_add p _ 12) by (done || lia). unfold is_u64. lia.
  - by destruct Hu as [-> | ->].
  - apply phys_lor; [done|lia|]. by destruct Hu as [-> | ->].
  - by destruct Hu as [-> | ->].
  - by destruct Hu as [-> | ->].
  - by destruct Hu as [-> | ->].
Qed.
Lemma points_zero : points 0 = false.
Proof. done. Qed.
(** Reading the changed entry on an address with the same prefix. *)
Lemma same_prefix_idx v v' n : (n <= 3)%nat -> prefix v' (S n) = prefix v (S n) -> idx v' n = idx v n.
Proof. intros Hn Hp. by apply prefix_step in Hp as [_ Hp]. Qed.
Definition child_result (m m' : vm St) (r v t : Z) (n : nat) (res : Z + Z) : Prop :=
  extends m m' /\
  match res with
  | inr t' => walk m' r v (S n) = Some t' /\ has (entry m' t (idx v n)) PAGE_USER = true /\ points (entry m' t (idx v n)) = true
  | inl e => e <> 0
  end.
Section Child.
Context (m : vm St) (r v t : Z) (n : nat).
Hypothesis Hm : tables_ok m.
Hypothesis Hr : roots r.
Hypothesis Hrk : r <> pml4 cfg.
Hypothesis Hn : (n <= 2)%nat.
Hypothesis Hw : walk m r v n = Some t.
Hypothesis Huser : kernel_slot m (prefix v 1) = false.
Let e : Z := entry m t (idx v n).
Lemma child_fresh m0 p : has e PAGE_PRESENT = false -> fresh_page m m0 p -> p <> 0 ->
  let e1 := Z.lor p (Z.lor PAGE_PRESENT (Z.lor PAGE_RW PAGE_USER)) in
  child_result m (set_entry t (idx v n) e1 m0) r v t n (inr p).
Proof.
  intros Hnp F Hp e1. destruct (link_entry p PAGE_USER (fp_page _ _ _ F) (fp_range _ _ _ F) ltac:(by right)) as (L1 & L2 & L3 & L4 & L5 & L6).
  fold e1 in L1, L2, L3, L4, L5, L6. destruct (ok_page m Hm r v n t Hr ltac:(lia) Hw) as (Ht1 & _ & _ & Ht4).
  pose proof (fp_was _ _ _ F) as Hfw. assert (t <> p) as Htp by (intros ->; congruence). pose proof (idx_range v n) as Hix.
  assert (points e = false) as Hpe by (unfold points; by rewrite Hnp).
  assert (entry (set_entry t (idx v n) e1 m0) t (idx v n) = e1) as Hnew.
  { rewrite entry_set by done. rewrite decide_True by done. by apply Z.mod_small. }
  destruct (new_link m0 m r v n t p e1 Hm Hr Hrk Hn Hw Huser Hpe F Hp m0) as (Hx & Hwp & _); try done.
  - by apply (fp_bytes _ _ _ F), (ok_bytes m Hm).
  - intros _ j Hj. by rewrite (fp_zero _ _ _ F).
  - intros v' s Hpf _ _. pose proof (same_prefix_idx v v' n ltac:(lia) Hpf) as Hi.
    rewrite (translate_from_S _ t v' n) by lia. cbv zeta. rewrite Hi, Hnew. pose proof L2 as L2'. unfold points in L2'. apply andb_prop in L2' as [Lp Ll].
    rewrite Lp. apply negb_true_iff in Ll. unfold is_leaf. rewrite Ll, andb_false_r, orb_false_r, (proj2 (Nat.eqb_neq n 3)) by lia. cbn [negb].
    rewrite L3, translate_from_S by lia. cbv zeta. rewrite entry_set by (try done; try apply idx_range; apply F).
    rewrite decide_False by (intros [-> _]; done). rewrite (fp_zero _ _ _ F) by apply idx_range. change (has 0 PAGE_PRESENT) with false. cbn [negb].
    rewrite translate_from_S by lia. cbv zeta. rewrite Hi. fold e. by rewrite Hnp.
  - split; [done|]. split; [done|]. rewrite Hnew. done.
Qed.
Lemma child_split m0 p : points e = false -> has e PAGE_PRESENT = true -> has e PAGE_LARGE = true -> n = 1%nat \/ n = 2%nat ->
  fresh_page m m0 p -> p <> 0 ->
  let e1 := Z.lor p (Z.lor PAGE_PRESENT (Z.lor PAGE_RW (Z.land e PAGE_USER))) in
  let m' := set_entry t (idx v n) e1 (fill_child p e (4 - Z.of_nat n) m0) in
  child_result m m' r v t n (if has e PAGE_USER then inr p else inl K_EPERM) /\ entry m' t (idx v n) = e1 /\ has e1 PAGE_USER = has e PAGE_USER /\
  Z.land e1 PHYS_MASK = p.
Proof.
  intros Hpe Hpr Hla Hn12 F Hp e1 m'. assert (Z.land e PAGE_USER = 0 \/ Z.land e PAGE_USER = PAGE_USER) as Hu.
  { change PAGE_USER with (2 ^ 2). rewrite land_pow2 by lia. destruct (Z.testbit e 2); auto. }
  destruct (link_entry p _ (fp_page _ _ _ F) (fp_range _ _ _ F) Hu) as (L1 & L2 & L3 & L4 & L5 & L6).
  fold e1 in L1, L2, L3, L4, L5, L6. destruct (ok_page m Hm r v n t Hr ltac:(lia) Hw) as (Ht1 & _ & _ & Ht4).
  pose proof (fp_was _ _ _ F) as Hfw. assert (t <> p) as Htp by (intros ->; congruence). pose proof (idx_range v n) as Hix.
  assert (is_u64 e) as Heu by (apply entry_range, (ok_bytes m Hm)).
  assert (has e1 PAGE_USER = has e PAGE_USER) as Hue.
  { rewrite L6. unfold has. rewrite <- Z.land_assoc, Z.land_diag. done. }
  assert (bytes_ok (vm_ram m0)) as Hb0 by (by apply (fp_bytes _ _ _ F), (ok_bytes m Hm)).
  destruct (fill_child_spec m0 p e n (fp_page _ _ _ F) Heu Hn12 Hb0) as (FC1 & FC2 & FC3 & FC4).
  pose proof (fun a => fill_ram m0 p e n a (fp_page _ _ _ F)) as FC5. set (m1 := fill_child p e (4 - Z.of_nat n) m0) in *. clearbody m1.
  assert (entry m' t (idx v n) = e1) as Hnew.
  { unfold m'. rewrite entry_set by done. rewrite decide_True by done. by apply Z.mod_small. }
  assert (forall j, 0 <= j < 512 -> entry m1 p j = child_entry e n j) as Hce by (intros j Hj; rewrite FC3 by done; by apply Z.mod_small, child_u64).
  destruct (new_link m0 m r v n t p e1 Hm Hr Hrk Hn Hw Huser Hpe F Hp m1 FC1 FC2 FC4 FC5 L1 L2 L3 L4 L5) as (Hx & Hwp & _).
  - intros Hn2 j Hj. assert (n = 1%nat) as Hn1 by lia. rewrite Hce by done. unfold points. rewrite child_large by done. apply andb_false_r.
  - intros v' s Hpf Hsa Hsx. pose proof (same_prefix_idx v v' n ltac:(lia) Hpf) as Hi.
    rewrite (translate_from_S _ t v' n) by lia. cbv zeta. rewrite Hi. fold m'. rewrite Hnew. pose proof L2 as L2'. unfold points in L2'. apply andb_prop in L2' as [Lp Ll].
    rewrite Lp. apply negb_true_iff in Ll. unfold is_leaf. rewrite Ll, andb_false_r, orb_false_r, (proj2 (Nat.eqb_neq n 3)) by lia. cbn [negb].
    rewrite L3, translate_from_S by lia. cbv zeta. unfold m' at 1. unfold m' at 1. unfold m' at 1.
    rewrite entry_set by (try done; try apply idx_range; apply F).
    rewrite decide_False by (intros [-> _]; done). pose proof (idx_range v' (S n)) as Hj. rewrite Hce by done.
    rewrite has_present, child_flag, <- has_present, Hpr by (auto; done). cbn [negb].
    assert (is_leaf (S n) (child_entry e n (idx v' (S n))) = true) as ->.
    { unfold is_leaf. destruct Hn12 as [E|E]; [rewrite child_large by done|]; by rewrite E. }
    rewrite (translate_from_S m t v' n) by lia. cbv zeta. rewrite Hi. fold e. rewrite Hpr. cbn [negb].
    assert (is_leaf n e = true) as -> by (unfold is_leaf; rewrite Hla; destruct Hn12 as [E|E]; by rewrite E).
   
    f_equal. apply split_leaf; [done|done|split_and!; done|done|done].
  - fold m' in Hx, Hwp. split; [|done]. split; [done|]. destruct (has e PAGE_USER) eqn:Heu'; [|done]. split; [done|]. rewrite Hnew. done.
Qed.
Lemma pt_child_ok m' res : pt_child m t (idx v n) (4 - Z.of_nat n) true = (m', res) -> child_result m m' r v t n res.
Proof.
  unfold pt_child. fold e. pose proof (idx_range v n) as Hix. destruct (ok_page m Hm r v n t Hr ltac:(lia) Hw) as (Ht1 & _ & _ & Ht4).
  assert (forall x, x <> 0 -> child_result m m r v t n (inl x)) as Hfail by (intros x Hx; split; [by apply extends_refl|done]).
  destruct (has e PAGE_PRESENT) eqn:Hp; cbn [negb].
  2: { destruct (vm_alloc m 1 0) as [m0 p] eqn:Ha. destruct (vm_alloc_spec m m0 p (ok_source m Hm) Ha) as [[-> ->]|[Hp0 F]].
       { cbn [Z.eqb]. intros [= <- <-]. by apply Hfail. }
       rewrite (proj2 (Z.eqb_neq p 0)) by done. pose proof (child_fresh m0 p Hp F Hp0) as Hc. cbv zeta in Hc.
       destruct Hc as (Hx & Hwp & Hu & Hpt). cbn [andb]. rewrite Hu. cbn [negb]. intros [= <- <-]. split; [done|].
       pose proof Hwp as Hwq. apply walk_S in Hwq as (t0 & Hw0 & _ & Ep). rewrite (extends_walk _ _ r v n t Hx Hr ltac:(lia) Hw) in Hw0.
       injection Hw0 as <-. rewrite <- Ep. done. }
  destruct (has e PAGE_LARGE) eqn:Hl.
  - destruct (negb (4 - Z.of_nat n =? 2) && negb (4 - Z.of_nat n =? 3)) eqn:Hlev; [intros [= <- <-]; by apply Hfail|].
    assert (n = 1%nat \/ n = 2%nat) as Hn12.
    { apply andb_false_iff in Hlev as [Hlev|Hlev]; reflect_bools; lia. }
    destruct (vm_alloc m 1 0) as [m0 p] eqn:Ha. destruct (vm_alloc_spec m m0 p (ok_source m Hm) Ha) as [[-> ->]|[Hp0 F]].
    { cbn [Z.eqb]. intros [= <- <-]. by apply Hfail. }
    rewrite (proj2 (Z.eqb_neq p 0)) by done.
    destruct (child_split m0 p ltac:(unfold points; by rewrite Hp, Hl) Hp Hl Hn12 F Hp0) as (Hc & Hnew & Hu & Hph). cbv zeta in *.
    cbn [andb]. rewrite Hnew, Hu, Hph. destruct (has e PAGE_USER); cbn [negb]; intros [= <- <-]; done.
  - fold e. cbn [andb]. destruct (has e PAGE_USER) eqn:Hu; cbn [negb]; intros [= <- <-]; [|by apply Hfail].
    split; [by apply extends_refl|]. assert (points e = true) as Hpt by (unfold points; by rewrite Hp, Hl).
    cbn [walk]. rewrite Hw. fold e. cbv zeta. by rewrite Hpt.
Qed.
End Child.

(** * Descending on a user path *)
Definition user_path (m : vm St) (r v : Z) (n : nat) : Prop :=
  forall k t, (k < n)%nat -> walk m r v k = Some t -> has (entry m t (idx v k)) PAGE_USER = true.
Lemma extends_path m m' r v n t : extends m m' -> roots r -> (n <= 3)%nat -> walk m r v n = Some t -> user_path m r v n -> user_path m' r v n.
Proof.
  intros E Hr Hn Hw Hp k t' Hk Hw'. destruct (walk m r v k) as [t0|] eqn:Hwk; [|by destruct (walk_below m r v n k); [lia|rewrite Hw|]].
  rewrite (extends_walk m m' r v k t0) in Hw' by (done || lia). injection Hw' as <-.
  assert (points (entry m t0 (idx v k)) = true) as Hpt.
  { destruct (walk m r v (S k)) as [t1|] eqn:Hw1; [by apply walk_S in Hw1 as (? & [= <-]%(eq_trans (eq_sym Hwk)) & ? & _)|].
    by destruct (walk_below m r v n (S k)); [lia|rewrite Hw|]. }
  rewrite (ex_links m m' E r v k t0) by (done || lia). by apply Hp.
Qed.
Lemma access_user m r v n t : tables_ok m -> roots r -> (n <= 3)%nat -> walk m r v n = Some t -> user_path m r v n -> access m r v n = (rights0, 0).
Proof.
  intros Hm Hr. revert t. induction n as [|n IH]; intros t Hn Hw Hp; [done|]. apply walk_S in Hw as (t0 & Hw & Hpt & _).
  cbn [access]. rewrite Hw, (IH t0) by (done || lia || (intros k' t' Hk'; apply Hp; lia)).
  destruct (ok_links m Hm r v n t0 Hr ltac:(lia) Hw Hpt) as [Hrw Hnx]. pose proof (Hp n t0 ltac:(lia) Hw) as Hu.
  rewrite has_rw in Hrw. rewrite has_nx in Hnx. rewrite has_user in Hu. unfold access_step. cbn [fst snd]. f_equal.
  - apply Z.bits_inj'. intros i Hi. rewrite Z.land_spec, rights0_bit by done.
    destruct (Z.eqb_spec i 1) as [->|]; [by rewrite Hrw|]. destruct (Z.eqb_spec i 2) as [->|]; [by rewrite Hu|done].
  - change PAGE_NX with (2 ^ 63). rewrite land_pow2 by lia. by rewrite Hnx.
Qed.
Lemma descend_ok r v stop guard : roots r -> r <> pml4 cfg -> 1 <= stop -> (forall e x, guard e = Some x -> x <> 0) ->
  forall k m n t m' res, tables_ok m -> kernel_slot m (prefix v 1) = false -> walk m r v n = Some t -> user_path m r v n ->
  stop + Z.of_nat k = 4 - Z.of_nat n -> descend k guard m t v true stop = (m', res) ->
  extends m m' /\ match res with
                  | inr t' => walk m' r v (n + k) = Some t' /\ user_path m' r v (n + k)
                  | inl e => e <> 0
                  end.
Proof.
  intros Hr Hrk Hstop Hg. induction k as [|k IH]; intros m n t m' res Hm Hk Hw Hp Hl; cbn [descend].
  - intros [= <- <-]. rewrite Nat.add_0_r. split; [by apply extends_refl|done].
  - destruct (guard _) as [x|] eqn:Hgx; [intros [= <- <-]; split; [by apply extends_refl|by eapply Hg]|].
    replace (stop + Z.of_nat (S k)) with (4 - Z.of_nat n) by lia. change (pt_index v (4 - Z.of_nat n)) with (idx v n).
    destruct (pt_child m t (idx v n) (4 - Z.of_nat n) true) as [m1 [x|t1]] eqn:Hc;
      destruct (pt_child_ok m r v t n Hm Hr Hrk ltac:(lia) Hw Hk _ _ Hc) as [E Hcr]; clear Hc.
    + by intros [= <- <-].
    + destruct Hcr as (Hw1 & Hu & Hpt). intros Hd.
      assert (user_path m1 r v (S n)) as Hp1.
      { intros j tj Hj Hwj. destruct (Nat.eq_dec j n) as [->|Hne].
        - rewrite (extends_walk m m1 r v n t) in Hwj by (done || lia). by injection Hwj as <-.
        - apply (extends_path m m1 r v n t E Hr ltac:(lia) Hw Hp j tj); [lia|done]. }
      apply (IH m1 (S n) t1) in Hd; [|apply (ex_ok _ _ E)| |done|done|lia].
      * destruct Hd as [F Hd]. split; [by eapply extends_trans|]. by replace (n + S k)%nat with (S n + k)%nat by lia.
      * rewrite (ex_slot _ _ E); [done|]. apply prefix1_range.
Qed.

(** * Storing a leaf *)
Definition same_page (r v r' v' : Z) : Prop := r' = r /\ prefix v' 4 = prefix v 4.
#[local] Instance same_page_dec r v r' v' : Decision (same_page r v r' v').
Proof. unfold same_page. apply _. Defined.
Definition frame_free (m : vm St) (r v q : Z) : Prop :=
  pa_available (vm_pages m) q = false /\ (forall t, is_table m t -> t / 4096 <> q) /\
  (forall r' v' p fl, maps m r' v' p fl -> p / 4096 = q -> same_page r v r' v').
Section Leaf.
Context (m : vm St) (r v t e1 : Z).
Hypothesis Hm : tables_ok m.
Hypothesis Hr : roots r.
Hypothesis Hrk : r <> pml4 cfg.
Hypothesis Hw : walk m r v 3 = Some t.
Hypothesis Huser : kernel_slot m (prefix v 1) = false.
Hypothesis Hpath : user_path m r v 3.
Hypothesis He1 : is_u64 e1.
Hypothesis Hframe : has e1 PAGE_PRESENT = true -> has e1 PAGE_USER = true -> frame_free m r v (Z.land e1 PHYS_MASK / 4096).
Let m' : vm St := set_entry t (idx v 3) e1 m.
Lemma leaf_page : page t.
Proof. by apply (ok_page m Hm r v 3 t). Qed.
Lemma leaf_entry_at : entry m' t (idx v 3) = e1.
Proof.
  unfold m'. pose proof (idx_range v 3). rewrite entry_set by (done || apply leaf_page). rewrite decide_True by done. by apply Z.mod_small.
Qed.
Lemma leaf_other r' v' n t' : roots r' -> (n <= 3)%nat -> walk m r' v' n = Some t' -> ~ (n = 3%nat /\ same_page r v r' v') ->
  entry m' t' (idx v' n) = entry m t' (idx v' n).
Proof.
  intros Hr' Hn Hw' Hne. unfold m'. pose proof (idx_range v 3). pose proof (idx_range v' n). destruct (ok_page m Hm r' v' n t') as (Hp & _); try done.
  rewrite entry_set by (done || apply leaf_page). apply decide_False. intros [<- Hi]. apply Hne.
  destruct (user_table m r v 3 t r' v' n) as (-> & <- & Hp3); try done. split; [done|]. split; [done|]. by apply prefix_step.
Qed.
Lemma leaf_walk r' v' n : roots r' -> (n <= 3)%nat -> walk m' r' v' n = walk m r' v' n.
Proof. intros Hr' Hn. apply walk_ext; [lia|]. intros k t' Hk Hwk. apply (leaf_other r'); try done; lia. Qed.
Lemma leaf_translate_other r' v' : roots r' -> ~ same_page r v r' v' ->
  translate_from m' r' v' 0 (rights0, 0) = translate_from m r' v' 0 (rights0, 0).
Proof.
  intros Hr' Hne. apply translate_ext; [intros i; by apply (ok_top m Hm)|]. intros k t' Hk Hwk. apply (leaf_other r'); try done. tauto.
Qed.
Lemma leaf_translate_here v' : prefix v' 4 = prefix v 4 ->
  translate_from m' r v' 0 (rights0, 0) = if has e1 PAGE_PRESENT then Some (leaf_result v' 3 e1 (rights0, 0)) else None.
Proof.
  intros Hp. assert (prefix v' 3 = prefix v 3 /\ idx v' 3 = idx v 3) as [Hp3 Hi] by (by apply prefix_step).
  assert (walk m r v' 3 = Some t) as Hwv by (by rewrite (walk_prefix m r v' v 3) by (done || lia)).
  rewrite (translate_walk m' r v' 3 t) by (rewrite ?leaf_walk by (done || lia); done).
  rewrite (access_ext m m'); [|lia|intros k t' Hk Hwk; apply (leaf_other r); (done || lia)].
  assert (user_path m r v' 3) as Hpv.
  { intros k t' Hk Hwk. assert (prefix v' (S k) = prefix v (S k)) as Hq by (apply (prefix_le v' v 3); (done || lia)).
    apply prefix_step in Hq as [Hq ->]; [|lia]. apply Hpath; [done|]. by rewrite <- (walk_prefix m r v' v k) by (done || lia). }
  rewrite (access_user m r v' 3 t) by done. rewrite translate_from_S by lia. cbv zeta. rewrite Hi, leaf_entry_at.
  by destruct (has e1 PAGE_PRESENT).
Qed.
Lemma leaf_phys v' : leaf_result v' 3 e1 (rights0, 0) =
  (Z.land e1 PHYS_MASK + v' mod 4096, Z.lor PAGE_PRESENT (Z.lor (Z.land rights0 e1) (Z.land e1 PAGE_NX))).
Proof.
  unfold leaf_result. cbn [fst snd]. f_equal. pose proof (phys_range e1 ltac:(unfold is_u64 in He1; lia)) as [Hp Hpr].
  change (Z.shiftl 1 (12 + 9 * (3 - Z.of_nat 3)) - 1) with (Z.ones 12). rewrite Z.land_ones by lia.
  change (Z.ones 12) with (2 ^ 12 - 1). rewrite (clear_low _ 12) by (unfold is_u64; lia). change (2 ^ 12) with 4096.
  rewrite (lor_low_add _ _ 12) by (change (2 ^ 12) with 4096; dlia). dlia.
Qed.
Lemma leaf_maps r' v' p fl : maps m' r' v' p fl <->
  (~ same_page r v r' v' /\ maps m r' v' p fl) \/
  (same_page r v r' v' /\ user_address v' /\ has e1 PAGE_PRESENT = true /\ has fl PAGE_USER = true /\
   (p, fl) = leaf_result v' 3 e1 (rights0, 0)).
Proof.
  unfold maps. destruct (decide (same_page r v r' v')) as [Hs|Hs].
  - pose proof Hs as [-> Hp]. rewrite leaf_translate_here by done. destruct (has e1 PAGE_PRESENT).
    + split; [intros (_ & Hu & He & Hf); apply (inj Some) in He; right; split_and!; (done || by symmetry)|].
      intros [[Hn _]|(_ & Hu & _ & Hf & He)]; [done|]. split_and!; [done|done|by f_equal|done].
    + split; [intros (_ & _ & ? & _); done|]. intros [[Hn _]|(_ & _ & ? & _)]; done.
  - split; [intros (Hr' & Hu & He & Hf); left; by rewrite leaf_translate_other in He|].
    intros [(_ & Hr' & Hu & He & Hf)|(? & _)]; [|done]. by rewrite leaf_translate_other.
Qed.
Lemma user_of_result v' p fl : (p, fl) = leaf_result v' 3 e1 (rights0, 0) -> has fl PAGE_USER = true -> has e1 PAGE_USER = true.
Proof.
  rewrite leaf_phys. intros [= -> ->]. rewrite !has_user, !Z.lor_spec, !Z.land_spec, rights0_bit by lia. cbn -[Z.testbit].
  change (Z.testbit PAGE_PRESENT 2) with false. change (Z.testbit PAGE_NX 2) with false. by rewrite andb_false_r, orb_false_r.
Qed.
Lemma leaf_ok : tables_ok m'.
Proof.
  assert (forall v' p fl, (p, fl) = leaf_result v' 3 e1 (rights0, 0) -> p / 4096 = Z.land e1 PHYS_MASK / 4096) as Hq.
  { intros v' p fl. rewrite leaf_phys. intros [= -> _]. pose proof (phys_range e1 ltac:(unfold is_u64 in He1; lia)) as [Hp Hpr]. dlia. }
  assert (forall s, kernel_slot m' s = kernel_slot m s \/ ~ 0 <= s < 512) as Hslot.
  { intros s. destruct (decide (0 <= s < 512)) as [Hs|]; [left|by right]. unfold kernel_slot, m'. pose proof (idx_range v 3).
    assert (page (pml4 cfg)) as Hpk by (by apply (root_page m)).
    rewrite entry_set by (done || apply leaf_page). rewrite decide_False; [done|]. intros [E _].
    destruct (user_table m r v 3 t (pml4 cfg) 0 0) as (_ & ? & _); try done; [lia|by rewrite E]. }
  split.
  - apply set_entry_bytes, (ok_bytes m Hm).
  - apply (ok_source m Hm).
  - intros r' v' n t' Hr' Hn Hw'. rewrite leaf_walk in Hw' by done. by apply (ok_page m Hm r' v' n).
  - intros ra va na rb vb nb t' Hra Hrb Hna Hnb Hwa Hwb. rewrite leaf_walk in Hwa, Hwb by done.
    destruct (Hslot (prefix va 1)) as [->|Hno]; [by apply (ok_tree m Hm ra va na rb vb nb t')|destruct Hno; apply prefix1_range].
  - intros r' i Hr' Hi. unfold m'. pose proof (idx_range v 3). assert (page r') as Hpk by (by apply (root_page m)).
    rewrite entry_set by (done || apply leaf_page). rewrite decide_False; [by apply (ok_top m Hm)|]. intros [E _].
    destruct (user_table m r v 3 t r' 0 0) as (_ & ? & _); try done; [lia|by rewrite E].
  - intros r' v' n t' Hr' Hn Hw'. rewrite leaf_walk in Hw' by (done || lia). rewrite (leaf_other r' v' n t') by (done || lia). by apply (ok_links m Hm r').
  - intros r' v' p fl Hmp. apply leaf_maps in Hmp as [[_ Hmp]|(Hs & Hu & Hp & Hfl & He)].
    + destruct (ok_frames m Hm r' v' p fl Hmp) as [Ha Ht]. split; [done|]. intros r2 v2 n t2 Hr2 Hn Hw2. rewrite leaf_walk in Hw2 by done. by apply (Ht r2 v2 n).
    + rewrite (Hq _ _ _ He). destruct (Hframe Hp (user_of_result _ _ _ He Hfl)) as (Ha & Ht & _). split; [done|].
      intros r2 v2 n t2 Hr2 Hn Hw2. rewrite leaf_walk in Hw2 by done. apply Ht. by exists r2, v2, n.
  - assert (forall a b, user_address a -> user_address b -> prefix a 4 = prefix b 4 -> a / 4096 = b / 4096) as Hdiv.
    { intros a b Ha Hb. unfold prefix, user_address, K_USER_CANON_LIMIT in *. change (2 ^ (48 - 9 * Z.of_nat 4)) with 4096.
      change (2 ^ 48) with 0x1000000000000. intros E. rewrite !Z.mod_small in E by lia. done. }
    intros ra va pa fa rb vb pb fb Ha Hb Hpp. apply leaf_maps in Ha, Hb.
    destruct Ha as [[Sa Ha]|(Sa & Ua & Pa & Fa & Ea)], Hb as [[Sb Hb]|(Sb & Ub & Pb & Fb & Eb)].
    + by apply (ok_once m Hm ra va pa fa rb vb pb fb).
    + destruct (Hframe Pb (user_of_result _ _ _ Eb Fb)) as (_ & _ & Ho). destruct Sa. apply (Ho ra va pa fa Ha). rewrite Hpp. by apply (Hq vb pb fb).
    + destruct (Hframe Pa (user_of_result _ _ _ Ea Fa)) as (_ & _ & Ho). destruct Sb. apply (Ho rb vb pb fb Hb). rewrite <- Hpp. by apply (Hq va pa fa).
    + destruct Sa as [-> Pra], Sb as [-> Prb]. split; [done|]. apply Hdiv; [done|done|congruence].
Qed.
End Leaf.
End Tables.
Arguments ok_bytes {St H cfg roots}. Arguments ok_source {St H cfg roots}. Arguments ok_page {St H cfg roots}.
Arguments ok_tree {St H cfg roots}. Arguments ok_top {St H cfg roots}. Arguments ok_links {St H cfg roots}.
Arguments ok_frames {St H cfg roots}. Arguments ok_once {St H cfg roots}.
Arguments ex_ok {St H cfg roots}. Arguments ex_translate {St H cfg roots}. Arguments ex_slot {St H cfg roots}.
Arguments ex_avail {St H cfg roots}. Arguments ex_tables {St H cfg roots}. Arguments ex_links {St H cfg roots}.
Arguments ex_leaf {St H cfg roots}. Arguments ex_managed {St H cfg roots}. Arguments ex_ram {St H cfg roots}.
