(* ===== verification/MmuMap.v ===== *)
(** Mapping, allocating and copying for a user: the operations of [Mmu] over
    well-formed page tables. *)
From S2P Require Import Prelude Klib Pmm PageAlloc State Mmu MmuInv.

Section Mapping.
Context {St : Type} `{PageSourceLaws St} (cfg : mmu_config) (roots : Z -> Prop) (Hk0 : roots (pml4 cfg)).
Implicit Types m : vm St.
#[local] Abbreviation tables_ok := (tables_ok cfg roots).
#[local] Abbreviation kernel_slot := (kernel_slot cfg).
#[local] Abbreviation extends := (extends cfg roots).
#[local] Abbreviation is_table := (is_table roots).
#[local] Abbreviation maps := (maps roots).
#[local] Abbreviation frame_free := (frame_free roots).
#[local] Abbreviation root_translate m r v := (translate_from m r v 0 (rights0, 0)).

(** * The invalidation log is no part of the tables *)
Section Log.
Context (m m' : vm St).
Hypothesis Hram : vm_ram m' = vm_ram m.
Hypothesis Hpages : vm_pages m' = vm_pages m.
Lemma log_entry t i : entry m' t i = entry m t i.
Proof. unfold entry. by rewrite Hram. Qed.
Lemma log_walk r v n : walk m' r v n = walk m r v n.
Proof. induction n as [|n IH]; [done|]. cbn [walk]. rewrite IH. destruct (walk m r v n); [|done]. by rewrite log_entry. Qed.
Lemma log_loop n t v a b : translate_loop n m' t v a b = translate_loop n m t v a b.
Proof. revert t a b. induction n as [|n IH]; intros t a b; [done|]. cbn [translate_loop]. by rewrite log_entry, IH. Qed.
Lemma log_translate r v : root_translate m' r v = root_translate m r v.
Proof. apply log_loop. Qed.
Lemma log_maps r v p fl : maps m' r v p fl <-> maps m r v p fl.
Proof. unfold maps. by rewrite log_translate. Qed.
Lemma log_ok : tables_ok m -> tables_ok m'.
Proof.
  intros Hm. split.
  - rewrite Hram. apply (ok_bytes m Hm).
  - rewrite Hpages. apply (ok_source m Hm).
  - intros r v n t. rewrite log_walk, Hpages. apply (ok_page m Hm).
  - intros ra va na rb vb nb t. rewrite !log_walk. unfold kernel_slot. rewrite log_entry. apply (ok_tree m Hm).
  - intros r i. rewrite log_entry. apply (ok_top m Hm).
  - intros r v n t. rewrite log_walk, log_entry. apply (ok_links m Hm).
  - intros r v p fl Hp. apply log_maps in Hp. rewrite Hpages. destruct (ok_frames m Hm r v p fl Hp) as [Ha Ht]. split; [done|].
    intros r' v' n t. rewrite log_walk. apply Ht.
  - intros r v p fl r' v' p' fl' Ha Hb. apply log_maps in Ha, Hb. by apply (ok_once m Hm r v p fl r' v' p' fl').
Qed.
End Log.

(** * Taking and returning a page *)
(** A state with the entries of [m] at the tables of [m]. *)
Section SameTables.
Context (m m' : vm St).
Hypothesis Hm : tables_ok m.
Hypothesis Hbytes : bytes_ok (vm_ram m').
Hypothesis Hsource : pa_ok (vm_pages m').
Hypothesis Hentry : forall t i, is_table m t -> 0 <= i < 512 -> entry m' t i = entry m t i.
Hypothesis Htabs : forall t, is_table m t -> pa_available (vm_pages m') (t / 4096) = false.
Hypothesis Hmapped : forall r v p fl, maps m r v p fl -> pa_available (vm_pages m') (p / 4096) = false.
Lemma same_at r v n t : roots r -> (n <= 3)%nat -> walk m r v n = Some t -> entry m' t (idx v n) = entry m t (idx v n).
Proof. intros Hr Hn Hw. apply Hentry; [by exists r, v, n|apply idx_range]. Qed.
Lemma same_walk r v n : roots r -> (n <= 3)%nat -> walk m' r v n = walk m r v n.
Proof. intros Hr Hn. apply walk_ext; [lia|]. intros k t Hk Hw. apply (same_at r); (done || lia). Qed.
Lemma same_translate r v : roots r -> root_translate m' r v = root_translate m r v.
Proof. intros Hr. apply translate_ext; [intros i; by apply (ok_top m Hm)|]. intros k t Hk Hw. by apply (same_at r). Qed.
Lemma same_maps r v p fl : maps m' r v p fl <-> maps m r v p fl.
Proof. unfold maps. split; intros (? & ? & He & ?); rewrite ?same_translate in * by done; done. Qed.
Lemma same_root r i : roots r -> 0 <= i < 512 -> entry m' r i = entry m r i.
Proof. intros Hr Hi. apply Hentry; [exists r, 0, 0%nat; split_and!; (done || lia)|done]. Qed.
Lemma same_ok : tables_ok m'.
Proof.
  split; try done.
  - intros r v n t Hr Hn Hw. rewrite same_walk in Hw by done. destruct (ok_page m Hm r v n t) as (? & ? & ? & _); try done.
    split_and!; try done. apply Htabs. by exists r, v, n.
  - intros ra va na rb vb nb t Ha Hb Hna Hnb. rewrite !same_walk by done. unfold MmuInv.kernel_slot. rewrite same_root by (done || apply prefix1_range).
    by apply (ok_tree m Hm).
  - intros r i Hr Hi. rewrite same_root by done. by apply (ok_top m Hm).
  - intros r v n t Hr Hn Hw. rewrite same_walk in Hw by (done || lia). rewrite (same_at r) by (done || lia). by apply (ok_links m Hm r).
  - intros r v p fl Hp. apply same_maps in Hp. split; [by eapply Hmapped|]. intros r' v' n t Hr' Hn Hw. rewrite same_walk in Hw by done.
    destruct (ok_frames m Hm r v p fl Hp) as [_ Ht]. by apply (Ht r' v' n).
  - intros r v p fl r' v' p' fl' Ha Hb. apply same_maps in Ha, Hb. by apply (ok_once m Hm r v p fl r' v' p' fl').
Qed.
Lemma same_table t : is_table m' t -> is_table m t.
Proof. intros (r & v & n & Hr & Hn & Hw). rewrite same_walk in Hw by done. by exists r, v, n. Qed.
End SameTables.
Lemma is_table_page m t : tables_ok m -> is_table m t -> page t /\ pa_available (vm_pages m) (t / 4096) = false.
Proof. intros Hm (r & v & n & Hr & Hn & Hw). by destruct (ok_page m Hm r v n t Hr Hn Hw) as (? & _ & _ & ?). Qed.
Lemma fresh_extends m m0 p : tables_ok m -> fresh_page m m0 p -> extends m m0.
Proof.
  intros Hm F.
  assert (forall t i, is_table m t -> 0 <= i < 512 -> entry m0 t i = entry m t i) as He.
  { intros t i Ht Hi. destruct (is_table_page m t Hm Ht) as [Hp Ha]. apply (fp_entry _ _ _ F); [done| |done]. intros ->. rewrite (fp_was _ _ _ F) in Ha. done. }
  assert (forall q, pa_available (vm_pages m) q = false -> pa_available (vm_pages m0) q = false) as Hq
    by (intros q Hq; rewrite (fp_pages _ _ _ F), Hq; by destruct (_ =? _)).
  assert (tables_ok m0) as Hm0.
  { apply (same_ok m); [done|by apply (fp_bytes _ _ _ F), (ok_bytes m Hm)|apply (fp_ok _ _ _ F)|done| |].
    - intros t Ht. by apply Hq, is_table_page.
    - intros r v q fl Hmp. apply Hq. by apply (ok_frames m Hm r v q fl). }
  split; [done|..].
  - intros r v Hr. by apply same_translate.
  - intros s Hs. unfold MmuInv.kernel_slot. by rewrite (same_root m).
  - intros q Ha. rewrite (fp_pages _ _ _ F) in Ha. by destruct (_ =? _).
  - intros t Ht. left. by apply (same_table m m0).
  - intros r v n t Hr Hn Hw _. apply (same_at m m0 He r); (done || lia).
  - intros r v t Hr Hw. by apply (same_at m m0 He r).
  - intros a Ha Ht. apply (fp_ram _ _ _ F). destruct (Z.lt_ge_cases a p); [by left|right]. apply Z.nlt_ge. intros Hlt.
    pose proof (fp_page _ _ _ F) as Hp. unfold page in Hp. assert (a / 4096 = p / 4096) as E by dlia. rewrite E, (fp_was _ _ _ F) in Ha. done.
  - apply (fp_managed _ _ _ F).
Qed.
(** Giving back a page that is neither a table nor mapped. *)
Lemma free_same m p : tables_ok m -> page p -> is_u64 p -> p + 4096 <= PMM_MAX_PAGES * 4096 ->
  pa_managed (vm_pages m) (p / 4096) = true -> pa_available (vm_pages m) (p / 4096) = false ->
  (forall t, is_table m t -> t / 4096 <> p / 4096) -> (forall r v q fl, maps m r v q fl -> q / 4096 <> p / 4096) ->
  tables_ok (vm_free p 1 m) /\ (forall q, pa_available (vm_pages (vm_free p 1 m)) q = if q =? p / 4096 then true else pa_available (vm_pages m) q) /\
  (forall q, pa_managed (vm_pages (vm_free p 1 m)) q = pa_managed (vm_pages m) q).
Proof.
  intros Hm Hp Hu Hmax Hman Hav Ht Hmp. destruct (pa_free_law (vm_pages m) p 1 (ok_source m Hm) Hu ltac:(unfold is_u32; lia) ltac:(lia) Hp ltac:(lia)) as (F1 & F2 & F3).
  { intros q Hq. assert (q = p / 4096) as -> by lia. done. }
  assert (forall q, pa_available (vm_pages (vm_free p 1 m)) q = if q =? p / 4096 then true else pa_available (vm_pages m) q) as Hq.
  { intros q. unfold vm_free. cbn [vm_pages modify]. rewrite F2. destruct (Z.leb_spec (p / 4096) q), (Z.ltb_spec q (p / 4096 + 1)), (Z.eqb_spec q (p / 4096)); try done; lia. }
  split_and!; [|done|apply F3]. apply (same_ok m); [done|apply (ok_bytes m Hm)|done|done| |].
  - intros t Htt. rewrite Hq. destruct (Z.eqb_spec (t / 4096) (p / 4096)) as [E|]; [by destruct (Ht t Htt)|by apply is_table_page].
  - intros r v q fl Hm'. rewrite Hq. destruct (Z.eqb_spec (q / 4096) (p / 4096)) as [E|]; [by destruct (Hmp r v q fl Hm')|by apply (ok_frames m Hm r v q fl)].
Qed.

(** * Mapping a page for a user *)
Lemma translate_is m r v : root_translate m r v = translate_loop 4 m r v (Z.lor PAGE_USER PAGE_RW) 0.
Proof. done. Qed.
Lemma user_slot v : user_address v -> prefix v 1 = Z.shiftr v 39.
Proof.
  unfold user_address, K_USER_CANON_LIMIT, prefix. intros Hv. change (2 ^ (48 - 9 * Z.of_nat 1)) with (2 ^ 39).
  rewrite Z.shiftr_div_pow2 by lia. by rewrite Z.mod_small by lia.
Qed.
Lemma frame_free_extends m m' r v q : extends m m' -> frame_free m r v q -> frame_free m' r v q.
Proof.
  intros E (Ha & Ht & Ho). split_and!.
  - destruct (pa_available (vm_pages m') q) eqn:Hq; [|done]. apply (ex_avail _ _ E) in Hq. congruence.
  - intros t Htt. destruct (ex_tables _ _ E t Htt) as [Hx|Hx]; [by apply Ht|congruence].
  - intros r' v' p fl Hp. apply (extends_maps cfg roots _ _ _ _ _ _ E) in Hp. by apply (Ho r' v' p fl).
Qed.
(** The entry that [map_page_raw] stores, and what it translates to. *)
Definition page_rights (flags : Z) : Z := Z.lor PAGE_PRESENT (Z.lor (Z.land rights0 flags) (Z.land flags PAGE_NX)).
Lemma stored_entry p flags : page p -> 0 <= p < 2 ^ 52 -> is_u64 flags -> Z.land flags PHYS_MASK = 0 ->
  let e := Z.lor p (Z.lor flags PAGE_PRESENT) in
  is_u64 e /\ has e PAGE_PRESENT = true /\ Z.land e PHYS_MASK = p /\ has e PAGE_USER = has flags PAGE_USER /\
  Z.lor PAGE_PRESENT (Z.lor (Z.land rights0 e) (Z.land e PAGE_NX)) = page_rights flags.
Proof.
  intros Hp Hr Hf Hz. cbv zeta. unfold page in Hp. assert (forall i, 0 <= i -> i < 12 \/ 52 <= i -> Z.testbit p i = false) as Hb by (intros i; apply page_bits; (done || lia)).
  assert (forall i, 0 <= i -> i <> 0 -> i < 12 \/ 52 <= i -> Z.testbit (Z.lor p (Z.lor flags PAGE_PRESENT)) i = Z.testbit flags i) as He.
  { intros i Hi Hne Hlh. rewrite !Z.lor_spec, Hb by done. change PAGE_PRESENT with (2 ^ 0). rewrite (Z.pow2_bits_false 0 i) by lia. by rewrite orb_false_r. }
  unfold is_u64 in Hf. split_and!.
  - apply bits_u64.
    + apply Z.lor_nonneg. split; [lia|]. apply Z.lor_nonneg. split; [lia|done].
    + intros i Hi. rewrite He by lia. by apply (testbit_high flags 64).
  - rewrite has_present, !Z.lor_spec. change (Z.testbit PAGE_PRESENT 0) with true. by rewrite !orb_true_r.
  - apply phys_lor; [done|done|]. rewrite Z.land_lor_distr_l, Hz. done.
  - rewrite !has_user. apply He; lia.
  - unfold page_rights. f_equal. f_equal.
    + apply Z.bits_inj'. intros i Hi. rewrite !Z.land_spec, rights0_bit by done.
      destruct (Z.eqb_spec i 1) as [->|]; [by rewrite He by lia|]. destruct (Z.eqb_spec i 2) as [->|]; [by rewrite He by lia|done].
    + change PAGE_NX with (2 ^ 63). rewrite !land_pow2 by lia. by rewrite He by lia.
Qed.
Definition user_entry (p flags : Z) : Z := Z.lor p (Z.lor flags PAGE_PRESENT).
(** The page of [v] is mapped to the frame [p] by a 4 KiB entry. *)
Definition backed (m : vm St) (r v p flags : Z) : Prop :=
  exists t, walk m r v 3 = Some t /\ user_path m r v 3 /\ entry m t (idx v 3) = user_entry p flags.
Definition frame_flags (p flags : Z) : Prop := page p /\ 0 <= p < 2 ^ 52 /\ is_u64 flags /\ Z.land flags PHYS_MASK = 0 /\ has flags PAGE_USER = true.
Lemma user_path_prefix m r v v' : prefix v' 4 = prefix v 4 -> user_path m r v 3 -> user_path m r v' 3.
Proof.
  intros Hp Hpath k t Hk Hw. assert (prefix v' (S k) = prefix v (S k)) as Hq by (apply (prefix_le v' v 4); (done || lia)).
  apply prefix_step in Hq as [Hq ->]; [|lia]. apply Hpath; [done|]. by rewrite <- (walk_prefix m r v' v k) by (done || lia).
Qed.
Lemma backed_prefix m r v v' p flags : prefix v' 4 = prefix v 4 -> backed m r v p flags -> backed m r v' p flags.
Proof.
  intros Hp (t & Hw & Hpath & He). pose proof Hp as [Hp3 Hi]%prefix_step; [|lia]. exists t.
  split_and!; [by rewrite (walk_prefix m r v' v 3) by (done || lia)|by apply (user_path_prefix m r v)|by rewrite Hi].
Qed.
Lemma backed_extends m m' r v p flags : extends m m' -> roots r -> backed m r v p flags -> backed m' r v p flags.
Proof.
  intros E Hr (t & Hw & Hpath & He). exists t. split_and!; [by apply (extends_walk cfg roots m)|by apply (extends_path cfg roots m m' r v 3 t)|].
  by rewrite (ex_leaf _ _ E r).
Qed.
Lemma leaf_at r v t m : tables_ok m -> roots r -> walk m r v 3 = Some t -> user_path m r v 3 ->
  has (entry m t (idx v 3)) PAGE_PRESENT = true ->
  root_translate m r v = Some (Z.land (entry m t (idx v 3)) PHYS_MASK + v mod 4096,
    Z.lor PAGE_PRESENT (Z.lor (Z.land rights0 (entry m t (idx v 3))) (Z.land (entry m t (idx v 3)) PAGE_NX))).
Proof.
  intros Hm Hr Hw Hpath Hp. rewrite (translate_walk m r v 3 t) by (done || lia). rewrite (access_user cfg roots m r v 3 t) by (done || lia).
  rewrite translate_from_S by lia. cbv zeta. rewrite Hp. cbn [negb is_leaf Nat.eqb orb].
  rewrite leaf_phys by (apply entry_range, (ok_bytes m Hm)). done.
Qed.
Lemma backed_translate m r v p flags : tables_ok m -> roots r -> frame_flags p flags -> backed m r v p flags ->
  root_translate m r v = Some (p + v mod 4096, page_rights flags).
Proof.
  intros Hm Hr (Hp & Hp2 & Hf & Hz & Hu) (t & Hw & Hpath & He).
  destruct (stored_entry p flags Hp Hp2 Hf Hz) as (E1 & E2 & E3 & E4 & E5). unfold user_entry in He. rewrite <- He in *.
  rewrite (leaf_at r v t) by done. by rewrite E3, E5.
Qed.
Lemma rights_user flags : has (page_rights flags) PAGE_USER = has flags PAGE_USER.
Proof.
  unfold page_rights. rewrite !has_user, !Z.lor_spec, !Z.land_spec, rights0_bit by lia. cbn -[Z.testbit].
  change (Z.testbit PAGE_PRESENT 2) with false. change (Z.testbit PAGE_NX 2) with false. by rewrite andb_false_r, orb_false_r.
Qed.
Lemma backed_maps m r v p flags : tables_ok m -> roots r -> user_address v -> frame_flags p flags -> backed m r v p flags ->
  maps m r v (p + v mod 4096) (page_rights flags).
Proof.
  intros Hm Hr Hv Hf Hb. split; [done|]. split; [done|]. split; [by apply backed_translate|]. rewrite rights_user. apply Hf.
Qed.
(** ** Storing the entry of one user page *)
Record stored (m m' : vm St) (r v : Z) : Prop := {
  st_ok : tables_ok m';
  st_other : forall r' v', roots r' -> ~ same_page r v r' v' -> root_translate m' r' v' = root_translate m r' v';
  st_backed : forall r' v' p f, roots r' -> ~ same_page r v r' v' -> backed m r' v' p f -> backed m' r' v' p f;
  st_slot : forall s, 0 <= s < 512 -> kernel_slot m' s = kernel_slot m s;
  st_avail : forall q, pa_available (vm_pages m') q = true -> pa_available (vm_pages m) q = true;
  st_managed : forall q, pa_managed (vm_pages m') q = pa_managed (vm_pages m) q;
  st_tables : forall t, is_table m' t -> is_table m t \/ pa_available (vm_pages m) (t / 4096) = true;
  st_ram : forall a, pa_available (vm_pages m) (a / 4096) = false -> (forall t, is_table m t -> t / 4096 <> a / 4096) ->
    zget (vm_ram m') a = zget (vm_ram m) a
}.
Lemma prefix4_div a b : user_address a -> user_address b -> prefix a 4 = prefix b 4 <-> a / 4096 = b / 4096.
Proof.
  unfold user_address, prefix, K_USER_CANON_LIMIT. intros Ha Hb. change (2 ^ (48 - 9 * Z.of_nat 4)) with 4096. by rewrite !Z.mod_small by lia.
Qed.
Lemma canonical_user v : user_address v -> canonical v = true.
Proof.
  unfold user_address, K_USER_CANON_LIMIT, canonical. intros Hv. rewrite Z.shiftr_div_pow2 by lia.
  rewrite (Z.div_small v) by lia. done.
Qed.
Section Store.
Context (m m1 : vm St) (r v t e1 : Z) (hw : list hw_event).
Hypothesis E : extends m m1.
Hypothesis Hr : roots r.
Hypothesis Hrk : r <> pml4 cfg.
Hypothesis Hslot : kernel_slot m (prefix v 1) = false.
Hypothesis Hw : walk m1 r v 3 = Some t.
Hypothesis Hpath : user_path m1 r v 3.
Hypothesis He1 : is_u64 e1.
Hypothesis Hframe : has e1 PAGE_PRESENT = true -> has e1 PAGE_USER = true -> frame_free m r v (Z.land e1 PHYS_MASK / 4096).
Let m2 : vm St := set_entry t (idx v 3) e1 m1.
Let m3 : vm St := mk_vm (vm_pages m2) (vm_ram m2) hw.
Lemma store_slot : kernel_slot m1 (prefix v 1) = false.
Proof. rewrite (ex_slot _ _ E); [done|apply prefix1_range]. Qed.
Lemma store_frame : has e1 PAGE_PRESENT = true -> has e1 PAGE_USER = true -> frame_free m1 r v (Z.land e1 PHYS_MASK / 4096).
Proof. intros H1 H2. apply (frame_free_extends m); auto. Qed.
Lemma store_walk r' v' n : roots r' -> (n <= 3)%nat -> walk m3 r' v' n = walk m1 r' v' n.
Proof.
  intros Hr' Hn. rewrite (log_walk m2 m3 eq_refl). apply (leaf_walk cfg roots m1 r v t e1); try done; [apply (ex_ok _ _ E)|apply store_slot|apply store_frame].
Qed.
Lemma store_entry : entry m3 t (idx v 3) = e1.
Proof.
  rewrite (log_entry m2 m3 eq_refl). unfold m2. pose proof (idx_range v 3). destruct (ok_page m1 (ex_ok _ _ E) r v 3 t Hr ltac:(lia) Hw) as (Hpt & _).
  rewrite entry_set by done. rewrite decide_True by done. by apply Z.mod_small.
Qed.
Lemma store_other r' v' n t' : roots r' -> (n <= 3)%nat -> walk m1 r' v' n = Some t' -> ~ (n = 3%nat /\ same_page r v r' v') ->
  entry m3 t' (idx v' n) = entry m1 t' (idx v' n).
Proof.
  intros Hr' Hn Hw' Hne. rewrite (log_entry m2 m3 eq_refl). apply (leaf_other cfg roots m1 r v t e1) with r'; try done;
    [apply (ex_ok _ _ E)|apply store_slot|apply store_frame].
Qed.
Lemma store_stored : stored m m3 r v.
Proof.
  pose proof (ex_ok _ _ E) as Hm1. pose proof store_slot as Hs1. pose proof store_frame as Hfr. split.
  - apply (log_ok m2 m3 eq_refl eq_refl). by apply (leaf_ok cfg roots Hk0 m1 r v t e1).
  - intros r' v' Hr' Hne. rewrite (log_translate m2 m3 eq_refl). unfold m2. rewrite (leaf_translate_other cfg roots m1 r v t e1) by done. by apply (ex_translate _ _ E).
  - intros r' v' p f Hr' Hne Hb. apply (backed_extends m m1) in Hb as (t' & Hw' & Hp' & He'); [|done|done].
    exists t'. split_and!; [by rewrite store_walk by (done || lia)| |].
    + intros k tk Hk Hwk. rewrite store_walk in Hwk by (done || lia). rewrite (store_other r' v' k tk) by (done || lia). by apply Hp'.
    + rewrite (store_other r' v' 3 t'); [done|done|lia|done|tauto].
  - intros s Hs. transitivity (kernel_slot m1 s); [|by apply (ex_slot _ _ E)]. unfold MmuInv.kernel_slot. rewrite (log_entry m2 m3 eq_refl). unfold m2.
    pose proof (idx_range v 3). pose proof (root_page cfg roots m1 _ Hm1 Hk0). destruct (ok_page m1 Hm1 r v 3 t Hr ltac:(lia) Hw) as (Hpt & _).
    rewrite entry_set by done. rewrite decide_False; [done|]. intros [Et _].
    destruct (user_table cfg roots m1 r v 3 t (pml4 cfg) 0 0) as (_ & ? & _); try done; [lia|by rewrite Et].
  - intros q Hq. by apply (ex_avail _ _ E).
  - intros q. apply (ex_managed _ _ E).
  - intros t' (r' & v' & n & Hr' & Hn & Hw'). apply (ex_tables _ _ E). exists r', v', n. by rewrite store_walk in Hw' by done.
  - intros a Ha Hnt. rewrite <- (ex_ram _ _ E a Ha Hnt). cbn [vm_ram m3]. unfold m2, set_entry. cbn [vm_ram modify]. rewrite wr64_get.
    destruct (ok_page m1 Hm1 r v 3 t Hr ltac:(lia) Hw) as (Hpt & _ & _ & Hat). pose proof (idx_range v 3).
    assert (t / 4096 <> a / 4096) as Hta.
    { destruct (ex_tables _ _ E t) as [Htt|Htt]; [by exists r, v, 3%nat|by apply Hnt|congruence]. }
    unfold page in Hpt. destruct (Z.leb_spec (t + 8 * idx v 3) a), (Z.ltb_spec a (t + 8 * idx v 3 + 8)); try done. exfalso. apply Hta. dlia.
Qed.
Lemma store_backed p flags : e1 = user_entry p flags -> backed m3 r v p flags.
Proof.
  intros He. exists t. split_and!; [by rewrite store_walk by (done || lia)| |by rewrite store_entry].
  intros k tk Hk Hwk. rewrite store_walk in Hwk by (done || lia). rewrite (store_other r v k tk) by (done || lia). by apply Hpath.
Qed.
Lemma store_cleared v' : has e1 PAGE_PRESENT = false -> prefix v' 4 = prefix v 4 -> root_translate m3 r v' = None.
Proof.
  intros Hp Hv'. rewrite (log_translate m2 m3 eq_refl). unfold m2. rewrite (leaf_translate_here cfg roots m1 r v t e1); try done;
    [by rewrite Hp|apply (ex_ok _ _ E)|apply store_slot|apply store_frame].
Qed.
End Store.
Lemma page_args v p : Z.land (Z.lor v p) 4095 = 0 -> is_u64 v -> is_u64 p -> Z.land p (u64 (Z.lnot PHYS_MASK)) = 0 -> page v /\ page p /\ p < 2 ^ 52.
Proof.
  intros Ha Hv Hp Hh. unfold page, is_u64 in *. change 4095 with (Z.ones 12) in Ha. rewrite Z.land_lor_distr_l, !Z.land_ones in Ha by lia.
  apply Z.lor_eq_0_iff in Ha as [H1 H2]. split; [done|]. split; [done|]. apply Z.nle_gt. intros Hge.
  destruct (Z.eq_dec p 0) as [->|Hne]; [lia|]. pose proof (Z.bit_log2 p ltac:(lia)) as Hb.
  assert (52 <= Z.log2 p < 64) as Hl by (split; [by apply Z.log2_le_pow2; lia|apply Z.log2_lt_pow2; lia]).
  apply (f_equal (fun x => Z.testbit x (Z.log2 p))) in Hh. rewrite Z.land_spec, Hb, Z.bits_0 in Hh. cbn [andb] in Hh. unfold u64 in Hh.
  rewrite Z.mod_pow2_bits_low, Z.lnot_spec, phys_bit in Hh by lia. rewrite (proj2 (Z.ltb_ge _ 52)), andb_false_r in Hh by lia. done.
Qed.
Lemma empty_leaf m r v v' t : tables_ok m -> roots r -> walk m r v 3 = Some t -> entry m t (idx v 3) = 0 -> prefix v' 4 = prefix v 4 ->
  root_translate m r v' = None.
Proof.
  intros Hm Hr Hw He [Hp Hi]%prefix_step; [|lia]. rewrite (translate_walk m r v' 3 t); [|lia|by rewrite (walk_prefix m r v' v 3) by (done || lia)].
  rewrite translate_from_S by lia. cbv zeta. by rewrite Hi, He.
Qed.
Lemma map_page_ok m r v p flags replace m' e :
  tables_ok m -> roots r -> r <> pml4 cfg -> pml4 cfg <> 0 -> is_u64 v -> is_u64 p -> is_u64 flags ->
  Z.land flags PHYS_MASK = 0 -> has flags PAGE_USER = true ->
  (user_address v -> page p -> frame_free m r v (p / 4096)) ->
  map_page_raw cfg m r v p flags replace = (m', e) ->
  (e <> 0 /\ extends m m') \/
  (e = 0 /\ user_address v /\ 0x10000 <= v /\ page v /\ page p /\ p < 2 ^ 52 /\ kernel_slot m (prefix v 1) = false /\ stored m m' r v /\ backed m' r v p flags /\
   (replace = false -> forall v', prefix v' 4 = prefix v 4 -> root_translate m r v' = None)).
Proof.
  intros Hm Hr Hrk Hk Hv Hp Hf Hz Hu Hfree. unfold map_page_raw. unfold is_u64 in *.
  destruct (_ || _ || _ || _) eqn:Hbad; [intros [= <- <-]; left; split; [done|by apply extends_refl]|].
  apply orb_false_elim in Hbad as [[[Hr0 Hc]%orb_false_elim Ha]%orb_false_elim Hh]. reflect_bools.
  rewrite Hu. cbn [andb]. rewrite (proj2 (Z.eqb_neq (pml4 cfg) 0)) by done. cbn [negb andb].
  destruct (_ || _) eqn:Hbad; [intros [= <- <-]; left; split; [done|by apply extends_refl]|].
  apply orb_false_elim in Hbad as [[Hlo Hhi]%orb_false_elim Hks]. reflect_bools.
  assert (user_address v) as Hua by (unfold user_address; lia).
  assert (kernel_slot m (prefix v 1) = false) as Hslot by (unfold kernel_slot; by rewrite user_slot).
  destruct (descend 3 no_guard m r v true 1) as [m1 res] eqn:Hd.
  destruct (descend_ok cfg roots Hk0 r v 1 no_guard Hr Hrk ltac:(lia) ltac:(done) 3 m 0 r m1 res Hm Hslot eq_refl ltac:(intros k ? ?; lia) eq_refl Hd) as [E HE].
  destruct res as [x|t]; [intros [= <- <-]; by left|]. destruct HE as [Hw Hpath].
  destruct (negb replace && negb (entry m1 t (pt_index v 1) =? 0)) eqn:Hex; [intros [= <- <-]; by left|]. intros [= <- <-]. right.
  assert (page v /\ page p /\ p < 2 ^ 52) as (Hpv & Hpp & Hp52) by (apply page_args; done || lia).
  destruct (stored_entry p flags Hpp ltac:(lia) Hf Hz) as (E1 & _ & E3 & _).
  assert (forall hw, stored m (mk_vm (vm_pages m1) (vm_ram (set_entry t (idx v 3) (user_entry p flags) m1)) hw) r v /\
    backed (mk_vm (vm_pages m1) (vm_ram (set_entry t (idx v 3) (user_entry p flags) m1)) hw) r v p flags) as Hst.
  { assert (has (user_entry p flags) PAGE_PRESENT = true -> has (user_entry p flags) PAGE_USER = true ->
      frame_free m r v (Z.land (user_entry p flags) PHYS_MASK / 4096)) as Hfr by (intros _ _; unfold user_entry; rewrite E3; auto).
    intros hw. split; [by apply (store_stored m m1 r v t)|by apply (store_backed m m1 r v t)]. }
  assert (replace = false -> forall v', prefix v' 4 = prefix v 4 -> root_translate m r v' = None) as Hclear.
  { intros -> v' Hv'. cbn [negb andb] in Hex. apply negb_false_iff, Z.eqb_eq in Hex. rewrite <- (ex_translate _ _ E) by done.
    by apply (empty_leaf m1 r v v' t (ex_ok _ _ E)). }
  do 7 (split; [done|]). change (pt_index v 1) with (idx v 3). destruct (vm_ready cfg); split; try apply Hst; (split; [apply Hst|done]).
Qed.

(** * Unmapping one page *)
Lemma plain_walk_step k m t v : plain_walk (S k) m t v = plain_walk k m (Z.land (entry m t (pt_index v (Z.of_nat (S k) + 1))) PHYS_MASK) v.
Proof. done. Qed.
Lemma plain_walk_from m r v k n t t' : (n + k = 3)%nat -> walk m r v n = Some t -> walk m r v 3 = Some t' -> plain_walk k m t v = t'.
Proof.
  revert n t. induction k as [|k IH]; intros n t Hk Hw Hw'.
  - assert (n = 3%nat) as -> by lia. cbn [plain_walk]. congruence.
  - rewrite plain_walk_step. replace (Z.of_nat (S k) + 1) with (4 - Z.of_nat n) by lia. change (pt_index v (4 - Z.of_nat n)) with (idx v n).
    destruct (walk m r v (S n)) as [t1|] eqn:H1.
    + pose proof H1 as (t0 & Hw0 & _ & E)%walk_S. rewrite Hw in Hw0. injection Hw0 as <-. rewrite <- E. by apply (IH (S n)); [lia| |].
    + exfalso. apply (walk_below m r v 3 (S n)) in H1; [done|lia|by rewrite Hw'].
Qed.
Lemma plain_walk_walk m r v t : walk m r v 3 = Some t -> plain_walk 3 m r v = t.
Proof. intros Hw. by apply (plain_walk_from m r v 3 0 r t). Qed.
Record unmapped (m m' : vm St) (r v p : Z) : Prop := {
  um_ok : tables_ok m';
  um_here : forall v', prefix v' 4 = prefix v 4 -> root_translate m' r v' = None;
  um_other : forall r' v', roots r' -> ~ same_page r v r' v' -> root_translate m' r' v' = root_translate m r' v';
  um_backed : forall r' v' q f, roots r' -> ~ same_page r v r' v' -> backed m r' v' q f -> backed m' r' v' q f;
  um_slot : forall s, 0 <= s < 512 -> kernel_slot m' s = kernel_slot m s;
  um_avail : forall q, pa_available (vm_pages m') q = if q =? p / 4096 then true else pa_available (vm_pages m) q;
  um_managed : forall q, pa_managed (vm_pages m') q = pa_managed (vm_pages m) q;
  um_tables : forall t, is_table m' t -> is_table m t;
  um_ram : forall a, (forall t, is_table m t -> t / 4096 <> a / 4096) -> zget (vm_ram m') a = zget (vm_ram m) a
}.
Lemma unmap_one_ok m r v p flags : tables_ok m -> roots r -> r <> pml4 cfg -> user_address v -> kernel_slot m (prefix v 1) = false ->
  frame_flags p flags -> backed m r v p flags -> p + 4096 <= PMM_MAX_PAGES * 4096 -> pa_managed (vm_pages m) (p / 4096) = true ->
  unmapped m (unmap_one m r v) r v p.
Proof.
  intros Hm Hr Hrk Hv Hslot Hf Hb Hmax Hman. pose proof (backed_maps m r v p flags Hm Hr Hv Hf Hb) as Hmap.
  destruct Hb as (t & Hw & Hpath & He). destruct Hf as (Hp & Hp2 & Hfl & Hz & Hu).
  destruct (stored_entry p flags Hp Hp2 Hfl Hz) as (E1 & E2 & E3 & E4 & E5).
  unfold unmap_one. rewrite (plain_walk_walk m r v t) by done. change (pt_index v 1) with (idx v 3). rewrite He. unfold user_entry. rewrite E3.
  assert (is_u64 0 /\ has 0 PAGE_PRESENT = false) as [H00 H01] by (split; [unfold is_u64; lia|done]).
  assert (has 0 PAGE_PRESENT = true -> has 0 PAGE_USER = true -> frame_free m r v (Z.land 0 PHYS_MASK / 4096)) as Hfr by (intros Hx; by rewrite H01 in Hx).
  pose proof (store_stored m m r v t 0 (vm_hw m) (extends_refl cfg roots m Hm) Hr Hrk Hslot Hw Hpath H00 Hfr) as Hs.
  pose proof (fun v' => store_cleared m m r v t 0 (vm_hw m) (extends_refl cfg roots m Hm) Hr Hrk Hslot Hw Hpath H00 Hfr v' H01) as Hcl.
  pose proof (fun r' v' n => store_walk m m r v t 0 (vm_hw m) (extends_refl cfg roots m Hm) Hr Hrk Hslot Hw Hpath Hfr r' v' n) as Hwalk.
  change (mk_vm (vm_pages (set_entry t (idx v 3) 0 m)) (vm_ram (set_entry t (idx v 3) 0 m)) (vm_hw m)) with (set_entry t (idx v 3) 0 m) in *.
  assert (vm_pages (set_entry t (idx v 3) 0 m) = vm_pages m) as Hpg by reflexivity.
  assert (forall a, (forall t', is_table m t' -> t' / 4096 <> a / 4096) -> zget (vm_ram (set_entry t (idx v 3) 0 m)) a = zget (vm_ram m) a) as Hram.
  { intros a Ha. unfold set_entry. cbn [vm_ram modify]. rewrite wr64_get. pose proof (idx_range v 3).
    destruct (ok_page m Hm r v 3 t Hr ltac:(lia) Hw) as (Hpt & _). pose proof (Ha t ltac:(by exists r, v, 3%nat)) as Hta. unfold page in Hpt.
    destruct (Z.leb_spec (t + 8 * idx v 3) a), (Z.ltb_spec a (t + 8 * idx v 3 + 8)); try done. exfalso. apply Hta. dlia. }
  set (m2 := set_entry t (idx v 3) 0 m) in *. clearbody m2. destruct Hs as [S1 S2 S3 S4 S5 S6 S7 S8].
  assert (forall t', is_table m2 t' -> is_table m t') as Htab by (intros t' (r' & v' & n & Hr' & Hn & Hw'); rewrite Hwalk in Hw' by done; by exists r', v', n).
  assert (p / 4096 = (p + v mod 4096) / 4096) as Hq by (unfold page in Hp; dlia).
  destruct (ok_frames m Hm r v _ _ Hmap) as [Hav Hnt]. rewrite <- Hq in Hav, Hnt.
  assert (pa_managed (vm_pages m2) (p / 4096) = true) as Hman2 by (by rewrite S6).
  assert (pa_available (vm_pages m2) (p / 4096) = false) as Hav2 by (by rewrite Hpg).
  assert (forall t', is_table m2 t' -> t' / 4096 <> p / 4096) as Hnt2
    by (intros t' (r' & v' & n & Hr' & Hn & Hw')%Htab; by apply (Hnt r' v' n)).
  assert (forall r' v' q fl, maps m2 r' v' q fl -> q / 4096 <> p / 4096) as Hno2.
  { intros r' v' q fl (Hr' & Hv' & Ht' & Hu') Hqp. destruct (decide (same_page r v r' v')) as [[-> Hp4]|Hne].
    - rewrite Hcl in Ht' by done. done.
    - rewrite S2 in Ht' by done. destruct (ok_once m Hm r v _ _ r' v' q fl Hmap) as [<- Hvv]; [by split_and!|congruence|].
      apply Hne. split; [done|]. by apply prefix4_div. }
  destruct (free_same m2 p S1 Hp ltac:(unfold is_u64; lia) Hmax Hman2 Hav2 Hnt2 Hno2) as (F1 & F2 & F3).
  assert (vm_ram (vm_free p 1 m2) = vm_ram m2) as Hfr2 by done. set (m4 := vm_free p 1 m2) in *. clearbody m4. split.
  - done.
  - intros v' Hv'. rewrite (log_translate m2) by done. by apply Hcl.
  - intros r' v' Hr' Hne. rewrite (log_translate m2) by done. by apply S2.
  - intros r' v' q f Hr' Hne Hbk. apply S3 in Hbk as (t' & Hw' & Hp' & He'); [|done|done]. exists t'.
      split_and!; [by rewrite (log_walk m2) by done| |by rewrite (log_entry m2)]. intros k tk Hk. rewrite (log_walk m2), (log_entry m2) by done. by apply Hp'.
  - intros s Hs. unfold MmuInv.kernel_slot. rewrite (log_entry m2) by done. by apply S4.
  - intros q. by rewrite F2, Hpg.
  - intros q. by rewrite F3.
  - intros t' (r' & v' & n & Hr' & Hn & Hw'). apply Htab. rewrite (log_walk m2) in Hw' by done. by exists r', v', n.
  - intros a Ha. rewrite Hfr2. by apply Hram.
Qed.

(** * Mapping a range *)
Lemma fresh_tables m m0 p t : tables_ok m -> fresh_page m m0 p -> is_table m0 t -> is_table m t.
Proof.
  intros Hm F. apply same_table; try done. intros t' i Ht Hi. destruct (is_table_page m t' Hm Ht) as [Hp Ha].
  apply (fp_entry _ _ _ F); [done| |done]. intros ->. rewrite (fp_was _ _ _ F) in Ha. done.
Qed.
Lemma fresh_frame m m0 r v p : tables_ok m -> fresh_page m m0 p -> frame_free m0 r v (p / 4096).
Proof.
  intros Hm F. split_and!.
  - rewrite (fp_pages _ _ _ F). by rewrite Z.eqb_refl.
  - intros t Ht E. apply (fresh_tables m m0 p) in Ht; [|done|done]. destruct (is_table_page m t Hm Ht) as [_ Ha]. rewrite E, (fp_was _ _ _ F) in Ha. done.
  - intros r' v' q fl Hq E. apply (extends_maps cfg roots _ _ _ _ _ _ (fresh_extends m m0 p Hm F)) in Hq.
    destruct (ok_frames m Hm r' v' q fl Hq) as [Ha _]. rewrite E, (fp_was _ _ _ F) in Ha. done.
Qed.
Lemma free_extends m m1 p : tables_ok m -> extends m m1 -> page p -> 0 <= p -> p + 4096 <= PMM_MAX_PAGES * 4096 ->
  pa_available (vm_pages m) (p / 4096) = true -> pa_available (vm_pages m1) (p / 4096) = false ->
  (forall t, is_table m1 t -> t / 4096 <> p / 4096) -> extends m (vm_free p 1 m1).
Proof.
  intros Hm E Hp Hp0 Hmax Ha Ha1 Ht. pose proof (ex_ok _ _ E) as Hm1.
  assert (pa_managed (vm_pages m1) (p / 4096) = true) as Hman1 by (rewrite (ex_managed _ _ E); apply pa_managed_law; [apply (ok_source m Hm)|done]).
  assert (forall r v q fl, maps m1 r v q fl -> q / 4096 <> p / 4096) as Hno.
  { intros r v q fl Hq Eq. apply (extends_maps cfg roots _ _ _ _ _ _ E) in Hq. destruct (ok_frames m Hm r v q fl Hq) as [Hf _]. congruence. }
  destruct (free_same m1 p Hm1 Hp ltac:(unfold is_u64, PMM_MAX_PAGES in *; lia) Hmax Hman1 Ha1 Ht Hno) as (F1 & F2 & F3).
  assert (vm_ram (vm_free p 1 m1) = vm_ram m1) as Hram by done. set (m4 := vm_free p 1 m1) in *. clearbody m4. split.
  - done.
  - intros r v Hr. rewrite (log_translate m1) by done. by apply (ex_translate _ _ E).
  - intros s Hs. unfold MmuInv.kernel_slot. rewrite (log_entry m1) by done. by apply (ex_slot _ _ E).
  - intros q. rewrite F2. destruct (Z.eqb_spec q (p / 4096)) as [->|]; [done|apply (ex_avail _ _ E)].
  - intros t (r & v & n & Hr & Hn & Hw). apply (ex_tables _ _ E). rewrite (log_walk m1) in Hw by done. by exists r, v, n.
  - intros r v n t Hr Hn Hw Hpt. rewrite (log_entry m1) by done. by apply (ex_links _ _ E r).
  - intros r v t Hr Hw. rewrite (log_entry m1) by done. by apply (ex_leaf _ _ E r).
  - intros a Hav Hnt. rewrite Hram. by apply (ex_ram _ _ E).
  - intros q. by rewrite F3, (ex_managed _ _ E).
Qed.
Definition zero_page (m : vm St) (p : Z) : Prop := forall a, p <= a < p + 4096 -> zget (vm_ram m) a = 0.
(** A frame that came from the free pages of [m] and now backs [v] of [m']. *)
Record new_frame (m m' : vm St) (r v p flags : Z) : Prop := {
  nf_flags : frame_flags p flags;
  nf_page : page v;
  nf_high : p + 4096 <= PMM_MAX_PAGES * 4096;
  nf_was : pa_available (vm_pages m) (p / 4096) = true;
  nf_backed : backed m' r v p flags;
  nf_zero : zero_page m' p;
  nf_clear : forall v', prefix v' 4 = prefix v 4 -> root_translate m r v' = None;
  nf_slot : kernel_slot m (prefix v 1) = false
}.
Record grown (m m' : vm St) (r v lo hi flags : Z) : Prop := {
  gr_ok : tables_ok m';
  gr_here : forall j, lo <= j < hi -> exists p, new_frame m m' r (v + j * 4096) p flags;
  gr_other : forall r' v', roots r' -> (forall j, lo <= j < hi -> ~ same_page r (v + j * 4096) r' v') -> root_translate m' r' v' = root_translate m r' v';
  gr_slot : forall s, 0 <= s < 512 -> kernel_slot m' s = kernel_slot m s;
  gr_avail : forall q, pa_available (vm_pages m') q = true -> pa_available (vm_pages m) q = true;
  gr_managed : forall q, pa_managed (vm_pages m') q = pa_managed (vm_pages m) q;
  gr_tables : forall t, is_table m' t -> is_table m t \/ pa_available (vm_pages m) (t / 4096) = true;
  gr_ram : forall a, pa_available (vm_pages m) (a / 4096) = false -> (forall t, is_table m t -> t / 4096 <> a / 4096) ->
    zget (vm_ram m') a = zget (vm_ram m) a
}.
Lemma grown_refl m r v k flags : tables_ok m -> grown m m r v k k flags.
Proof. intros Hm. split; auto. intros j Hj. lia. Qed.
Lemma page_div p a : page p -> p <= a < p + 4096 -> a / 4096 = p / 4096.
Proof. unfold page. intros Hp Ha. dlia. Qed.
(** The frame of a user page is out of reach of writes to free pages and tables. *)
Lemma frame_outside m r v p flags : tables_ok m -> roots r -> user_address v -> page v -> frame_flags p flags -> backed m r v p flags ->
  pa_available (vm_pages m) (p / 4096) = false /\ (forall t, is_table m t -> t / 4096 <> p / 4096).
Proof.
  intros Hm Hr Hv Hpv Hf Hb. pose proof (backed_maps m r v p flags Hm Hr Hv Hf Hb) as Hmap. unfold page in Hpv. rewrite Hpv, Z.add_0_r in Hmap.
  destruct (ok_frames m Hm _ _ _ _ Hmap) as [Ha Ht]. split; [done|]. intros t (r' & v' & n & Hr' & Hn & Hw). by apply (Ht r' v' n).
Qed.
Lemma frame_zero m m' r v p flags : tables_ok m -> roots r -> user_address v -> page v -> frame_flags p flags -> backed m r v p flags ->
  (forall a, pa_available (vm_pages m) (a / 4096) = false -> (forall t, is_table m t -> t / 4096 <> a / 4096) -> zget (vm_ram m') a = zget (vm_ram m) a) ->
  zero_page m p -> zero_page m' p.
Proof.
  intros Hm Hr Hv Hpv Hf Hb Hram Hz a Ha. destruct (frame_outside m r v p flags) as [Hav Ht]; try done.
  assert (page p) as Hp by apply Hf. pose proof (page_div p a Hp Ha) as Hd. rewrite Hram; [by apply Hz|by rewrite Hd|by rewrite Hd].
Qed.
Lemma new_frame_extends m m1 m2 r v p flags : tables_ok m1 -> roots r -> user_address v -> extends m1 m2 ->
  new_frame m m1 r v p flags -> new_frame m m2 r v p flags.
Proof.
  intros Hm Hr Hv E [N1 N2 N3 N4 N5 N6 N7 N8]. split; try done; [by apply (backed_extends m1)|].
  apply (frame_zero m1 m2 r v p flags); try done. apply (ex_ram _ _ E).
Qed.
Lemma grown_extends m m1 m2 r v lo hi flags : roots r -> (forall j, lo <= j < hi -> user_address (v + j * 4096)) ->
  grown m m1 r v lo hi flags -> extends m1 m2 -> grown m m2 r v lo hi flags.
Proof.
  intros Hr Hv G E. split.
  - apply (ex_ok _ _ E).
  - intros j Hj. destruct (gr_here _ _ _ _ _ _ _ G j Hj) as [p N]. exists p. apply (new_frame_extends m m1 m2); auto. apply (gr_ok _ _ _ _ _ _ _ G).
  - intros r' v' Hr' Hne. rewrite (ex_translate _ _ E) by done. by apply (gr_other _ _ _ _ _ _ _ G).
  - intros s Hs. rewrite (ex_slot _ _ E) by done. by apply (gr_slot _ _ _ _ _ _ _ G).
  - intros q Hq. by apply (gr_avail _ _ _ _ _ _ _ G), (ex_avail _ _ E).
  - intros q. by rewrite (ex_managed _ _ E), (gr_managed _ _ _ _ _ _ _ G).
  - intros t Ht. destruct (ex_tables _ _ E t Ht) as [Ht1|Ht1]; [by apply (gr_tables _ _ _ _ _ _ _ G)|right; by apply (gr_avail _ _ _ _ _ _ _ G)].
  - intros a Ha Ht. rewrite (ex_ram _ _ E); [by apply (gr_ram _ _ _ _ _ _ _ G)| |].
    + destruct (pa_available (vm_pages m1) (a / 4096)) eqn:Hq; [|done]. apply (gr_avail _ _ _ _ _ _ _ G) in Hq. congruence.
    + intros t Ht1. destruct (gr_tables _ _ _ _ _ _ _ G t Ht1) as [Hx|Hx]; [by apply Ht|congruence].
Qed.
(** One more page at the end. *)
Lemma not_same_page r v r' v' : user_address v -> user_address v' -> v / 4096 <> v' / 4096 -> ~ same_page r v r' v'.
Proof. intros Hv Hv' Hne [_ Hp]. rewrite prefix4_div in Hp by done. by apply Hne. Qed.
Lemma grown_step m m1 m0 m2 r v k p flags : tables_ok m -> roots r -> r <> pml4 cfg ->
  (forall j, 0 <= j <= k -> user_address (v + j * 4096)) -> 0 <= k ->
  grown m m1 r v 0 k flags -> fresh_page m1 m0 p -> frame_flags p flags -> page (v + k * 4096) ->
  stored m0 m2 r (v + k * 4096) -> backed m2 r (v + k * 4096) p flags ->
  (forall v', prefix v' 4 = prefix (v + k * 4096) 4 -> root_translate m0 r v' = None) ->
  kernel_slot m0 (prefix (v + k * 4096) 1) = false -> grown m m2 r v 0 (k + 1) flags.
Proof.
  intros Hm Hr Hrk Hv Hk G F Hf Hpv S Hb Hcl Hks. pose proof (gr_ok _ _ _ _ _ _ _ G) as Hm1. pose proof (fresh_extends m1 m0 p Hm1 F) as E.
  pose proof (ex_ok _ _ E) as Hm0. destruct (fresh_frame m1 m0 r (v + k * 4096) p Hm1 F) as (Fa & Ft & _).
  assert (forall j, 0 <= j < k -> user_address (v + j * 4096)) as Hv' by (intros j Hj; apply Hv; lia).
  pose proof (grown_extends m m1 m0 r v 0 k flags Hr Hv' G E) as G0. destruct S as [S1 S2 S3 S4 S5 S6 S7 S8]. split.
  - done.
  - intros j Hj. destruct (Z.eq_dec j k) as [->|Hne].
    + exists p. split; try done.
      * apply (fp_high _ _ _ F).
      * apply (gr_avail _ _ _ _ _ _ _ G), (fp_was _ _ _ F).
      * intros a Ha. pose proof (page_div p a (fp_page _ _ _ F) Ha) as Hd. rewrite S8; [by apply (fp_clear _ _ _ F)|by rewrite Hd|by rewrite Hd].
      * intros v' Hp. rewrite <- (Hcl v' Hp). symmetry. apply (gr_other _ _ _ _ _ _ _ G0); [done|]. intros j' Hj' [_ Hq].
        rewrite Hp in Hq. rewrite prefix4_div in Hq by (apply Hv; lia). dlia.
      * rewrite <- (gr_slot _ _ _ _ _ _ _ G0); [done|apply prefix1_range].
    + destruct (gr_here _ _ _ _ _ _ _ G0 j ltac:(lia)) as [q [N1 N2 N3 N4 N5 N6 N7 N8]]. exists q. split; try done.
      * apply S3; [done| |done]. apply not_same_page; [apply Hv; lia|apply Hv; lia|dlia].
      * apply (frame_zero m0 m2 r (v + j * 4096) q flags); try done. apply Hv; lia.
  - intros r' v' Hr' Hne. rewrite S2 by (done || (apply Hne; lia)). apply (gr_other _ _ _ _ _ _ _ G0); [done|]. intros j Hj. apply Hne. lia.
  - intros s Hs. rewrite S4 by done. by apply (gr_slot _ _ _ _ _ _ _ G0).
  - intros q Hq. by apply (gr_avail _ _ _ _ _ _ _ G0), S5.
  - intros q. by rewrite S6, (gr_managed _ _ _ _ _ _ _ G0).
  - intros t Ht. destruct (S7 t Ht) as [Hx|Hx]; [by apply (gr_tables _ _ _ _ _ _ _ G0)|right; by apply (gr_avail _ _ _ _ _ _ _ G0)].
  - intros a Ha Ht. rewrite S8; [by apply (gr_ram _ _ _ _ _ _ _ G0)| |].
    + destruct (pa_available (vm_pages m0) (a / 4096)) eqn:Hq; [|done]. apply (gr_avail _ _ _ _ _ _ _ G0) in Hq. congruence.
    + intros t Ht1. destruct (gr_tables _ _ _ _ _ _ _ G0 t Ht1) as [Hx|Hx]; [by apply Ht|congruence].
Qed.
Lemma fresh_flags m m0 p flags : fresh_page m m0 p -> is_u64 flags -> Z.land flags PHYS_MASK = 0 -> has flags PAGE_USER = true -> frame_flags p flags.
Proof. intros F Hf Hz Hu. destruct (fp_range _ _ _ F). pose proof (fp_page _ _ _ F). unfold frame_flags. do 3 (split; [done || lia|]). done. Qed.
Lemma map_pages_ok m r v flags : tables_ok m -> roots r -> r <> pml4 cfg -> pml4 cfg <> 0 ->
  is_u64 flags -> Z.land flags PHYS_MASK = 0 -> has flags PAGE_USER = true ->
  forall n k m1 m' d e, 0 <= k -> (forall j, 0 <= j < k + Z.of_nat n -> user_address (v + j * 4096)) -> grown m m1 r v 0 k flags ->
  map_pages cfg n m1 r v flags k = (m', d, e) ->
  k <= d <= k + Z.of_nat n /\ grown m m' r v 0 d flags /\ (e = 0 -> d = k + Z.of_nat n).
Proof.
  intros Hm Hr Hrk Hkz Hf Hz Hu. induction n as [|n IH]; intros k m1 m' d e Hk Hv G; cbn [map_pages].
  { intros [= <- <- <-]. split; [lia|]. split; [done|lia]. }
  destruct (vm_alloc m1 1 0) as [m0 p] eqn:Ha. pose proof (gr_ok _ _ _ _ _ _ _ G) as Hm1.
  destruct (vm_alloc_spec m1 m0 p (ok_source m1 Hm1) Ha) as [[-> ->]|[Hp0 F]].
  { cbn [Z.eqb]. intros [= <- <- <-]. split; [lia|]. split; [done|]. discriminate. }
  rewrite (proj2 (Z.eqb_neq p 0)) by done. pose proof (fresh_extends m1 m0 p Hm1 F) as E.
  pose proof (fp_range _ _ _ F) as Hpr. pose proof (fp_high _ _ _ F) as Hph.
  destruct (map_page_raw cfg m0 r (v + k * 4096) p flags false) as [m2 x] eqn:Hmp.
  pose proof (Hv k ltac:(lia)) as Huk.
  assert (forall j, 0 <= j < k -> user_address (v + j * 4096)) as Hvk by (intros j Hj; apply Hv; lia).
  apply map_page_ok in Hmp as [[Hx E2]|(-> & _ & _ & Hpv & _ & _ & Hks & S & Hb & Hcl)]; try done.
  - rewrite (proj2 (Z.eqb_neq x 0)) by done. cbn [negb]. intros [= <- <- <-]. split; [lia|]. split; [|done].
    apply (grown_extends m m1); [done|done|done|].
    destruct (fresh_frame m1 m0 r 0 p Hm1 F) as (Fa & Ft & _).
    apply (free_extends m1 m2 p Hm1 (extends_trans cfg roots m1 m0 m2 E E2)); [apply (fp_page _ _ _ F)|lia|lia|apply (fp_was _ _ _ F)| |].
    + destruct (pa_available (vm_pages m2) (p / 4096)) eqn:Hq; [|done]. apply (ex_avail _ _ E2) in Hq. congruence.
    + intros t Ht. destruct (ex_tables _ _ E2 t Ht) as [Hx'|Hx']; [by apply Ft|congruence].
  - cbn [Z.eqb negb]. intros Hgo. apply IH in Hgo as (Hd & G' & He); [split; [lia|]; split; [done|lia]|lia|intros j Hj; apply Hv; lia|].
    apply (grown_step m m1 m0 m2 r v k p flags); try done; [intros j Hj; apply Hv; lia|by apply (fresh_flags m1 m0)|by apply Hcl].
  - by apply (ex_ok _ _ E).
  - unfold is_u64. unfold user_address, K_USER_CANON_LIMIT in Huk. lia.
  - unfold is_u64. lia.
  - intros _ _. by apply (fresh_frame m1).
Qed.
(** One page less at the front. *)
Lemma unmap_step m m1 r v j d flags : tables_ok m -> roots r -> r <> pml4 cfg -> j < d ->
  (forall i, j <= i < d -> user_address (v + i * 4096)) -> grown m m1 r v j d flags -> grown m (unmap_one m1 r (v + j * 4096)) r v (j + 1) d flags.
Proof.
  intros Hm Hr Hrk Hj Hv G. pose proof (gr_ok _ _ _ _ _ _ _ G) as Hm1. destruct (gr_here _ _ _ _ _ _ _ G j ltac:(lia)) as [p N].
  pose proof (Hv j ltac:(lia)) as Hvj. pose proof N as [N1 N2 N3 N4 N5 N6 N7 N8].
  assert (kernel_slot m1 (prefix (v + j * 4096) 1) = false) as Hks by (rewrite (gr_slot _ _ _ _ _ _ _ G); [done|apply prefix1_range]).
  assert (pa_managed (vm_pages m1) (p / 4096) = true) as Hman
    by (rewrite (gr_managed _ _ _ _ _ _ _ G); apply pa_managed_law; [apply (ok_source m Hm)|done]).
  destruct (unmap_one_ok m1 r (v + j * 4096) p flags) as [U1 U2 U3 U4 U5 U6 U7 U8 U9]; try done.
  assert (forall t, is_table m1 t -> is_table m t \/ pa_available (vm_pages m) (t / 4096) = true) as Htab by apply (gr_tables _ _ _ _ _ _ _ G).
  split.
  - done.
  - intros i Hi. destruct (gr_here _ _ _ _ _ _ _ G i ltac:(lia)) as [q [O1 O2 O3 O4 O5 O6 O7 O8]]. exists q. pose proof (Hv i ltac:(lia)) as Hvi. split; try done.
    + apply U4; [done| |done]. apply not_same_page; [done|done|dlia].
    + apply (frame_zero m1 _ r (v + i * 4096) q flags); try done. auto.
  - intros r' v' Hr' Hne. destruct (decide (same_page r (v + j * 4096) r' v')) as [[-> Hp]|Hno]; [by rewrite U2, N7|].
    rewrite U3 by done. apply (gr_other _ _ _ _ _ _ _ G); [done|]. intros i Hi. destruct (Z.eq_dec i j) as [->|]; [done|apply Hne; lia].
  - intros s Hs. rewrite U5 by done. by apply (gr_slot _ _ _ _ _ _ _ G).
  - intros q Hq. rewrite U6 in Hq. destruct (Z.eqb_spec q (p / 4096)) as [Eq|]; [by rewrite Eq|by apply (gr_avail _ _ _ _ _ _ _ G)].
  - intros q. by rewrite U7, (gr_managed _ _ _ _ _ _ _ G).
  - intros t Ht. by apply Htab, U8.
  - intros a Ha Ht. rewrite U9; [by apply (gr_ram _ _ _ _ _ _ _ G)|]. intros t Ht1. destruct (Htab t Ht1) as [Hx|Hx]; [by apply Ht|congruence].
Qed.
Lemma unmap_pages_ok m m1 r v d flags : tables_ok m -> roots r -> r <> pml4 cfg -> 0 <= d ->
  (forall i, 0 <= i < d -> user_address (v + i * 4096)) -> grown m m1 r v 0 d flags -> grown m (unmap_pages d m1 r v) r v d d flags.
Proof.
  intros Hm Hr Hrk Hd Hv G. unfold unmap_pages.
  apply (fold_range_inv (fun j m1 => grown m m1 r v j d flags)); [done|done|]. intros j m2 Hj G2.
  apply unmap_step; try done; [lia|]. intros i Hi. apply Hv. lia.
Qed.
(** ** Roots whose entries are all zero *)
Section Empty.
Context (m : vm St).
Hypothesis Hz : forall r i, roots r -> 0 <= i < 512 -> entry m r i = 0.
Lemma empty_walk r v n t : roots r -> walk m r v n = Some t -> n = 0%nat /\ t = r.
Proof.
  intros Hr. destruct n as [|n]; [by intros [= <-]|]. intros Hw. exfalso. apply (walk_below m r v (S n) 1); [lia|by rewrite Hw|].
  cbn [walk]. rewrite Hz by (done || apply idx_range). done.
Qed.
Lemma empty_translate r v : roots r -> root_translate m r v = None.
Proof. intros Hr. rewrite translate_from_S by lia. cbv zeta. by rewrite Hz by (done || apply idx_range). Qed.
Lemma prefix_0 v : prefix v 0 = 0.
Proof. unfold prefix. change (2 ^ (48 - 9 * Z.of_nat 0)) with (2 ^ 48). dlia. Qed.
Lemma empty_tables : bytes_ok (vm_ram m) -> pa_ok (vm_pages m) ->
  (forall r, roots r -> page r /\ 0 < r /\ r + 4096 <= 2 ^ 52 /\ pa_available (vm_pages m) (r / 4096) = false) -> tables_ok m.
Proof.
  intros Hb Hs Hp. split; try done.
  - intros r v n t Hr Hn Hw. apply empty_walk in Hw as [-> ->]; [by apply Hp|done].
  - intros r v n r' v' n' t Hr Hr' Hn Hn' H1 H2. apply empty_walk in H1 as [-> ->]; [|done]. apply empty_walk in H2 as [-> ->]; [|done].
    split; [done|]. split; [by rewrite !prefix_0|by left].
  - intros r i Hr Hi. by rewrite Hz.
  - intros r v n t Hr Hn Hw Hpt. apply empty_walk in Hw as [-> ->]; [|done]. rewrite Hz in Hpt by (done || apply idx_range). done.
  - intros r v p fl (Hr & _ & He & _). by rewrite empty_translate in He.
  - intros r v p fl r' v' p' fl' (Hr & _ & He & _). by rewrite empty_translate in He.
Qed.
Lemma empty_frame r v q : pa_available (vm_pages m) q = false -> (forall r', roots r' -> r' / 4096 <> q) -> frame_free m r v q.
Proof.
  intros Ha Hq. split_and!; [done| |].
  - intros t (r' & v' & n & Hr' & _ & Hw). apply empty_walk in Hw as [_ ->]; [by apply Hq|done].
  - intros r' v' p fl (Hr' & _ & He & _). by rewrite empty_translate in He.
Qed.
End Empty.
End Mapping.
