(* ===== verification/MmuProps.v ===== *)
(** What the page-table code guarantees its callers: mapping one page changes
    one page, an allocation happens entirely or not at all. *)
From S2P Require Import Prelude Klib Pmm PageAlloc State Mmu MmuInv MmuMap.

Section Properties.
Context {St : Type} `{PageSourceLaws St} (cfg : mmu_config) (roots : Z -> Prop) (Hk0 : roots (pml4 cfg)).
Implicit Types m : vm St.
#[local] Abbreviation tables_ok := (tables_ok cfg roots).
#[local] Abbreviation is_table := (is_table roots).
#[local] Abbreviation root_translate m r v := (translate_from m r v 0 (rights0, 0)).

Lemma vmm_translate_root m r v : tables_ok m -> roots r -> vmm_translate m r v = if canonical v then root_translate m r v else None.
Proof.
  intros Hm Hr. destruct (ok_page m Hm r 0 0 r Hr ltac:(lia) eq_refl) as (_ & Hr0 & _). unfold vmm_translate.
  rewrite (proj2 (Z.eqb_neq r 0)) by lia. by destruct (canonical v).
Qed.
(** Canonical addresses are equal when their low 48 bits are. *)
Lemma canonical_same v a : user_address v -> canonical a = true -> prefix a 4 = prefix v 4 -> a / 4096 = v / 4096.
Proof.
  unfold user_address, canonical, prefix, K_USER_CANON_LIMIT. intros Hv Hc. rewrite Z.shiftr_div_pow2 in Hc by lia.
  change (2 ^ (48 - 9 * Z.of_nat 4)) with 4096. apply orb_prop in Hc. rewrite !Z.eqb_eq in Hc. change (2 ^ 48) with 0x1000000000000. change (2 ^ 47) with 0x800000000000 in Hc.
  rewrite (Z.mod_small v) by lia. destruct Hc; dlia.
Qed.
Lemma prefix_of_div v a : a / 4096 = v / 4096 -> prefix a 4 = prefix v 4.
Proof. unfold prefix. change (2 ^ (48 - 9 * Z.of_nat 4)) with 4096. change (2 ^ 48) with 0x1000000000000. intros E. dlia. Qed.

(** C1: mapping a user page maps exactly that page of exactly that address space, with the rights asked for and without
    touching any other page's contents; when it fails nothing translates differently. *)
Theorem map_isolated m r v p flags replace :
  tables_ok m -> roots r -> r <> pml4 cfg -> pml4 cfg <> 0 -> is_u64 v -> is_u64 p -> is_u64 flags ->
  Z.land flags PHYS_MASK = 0 -> has flags PAGE_USER = true -> frame_free roots m r v (p / 4096) ->
  let '(m', e) := map_page_raw cfg m r v p flags replace in
  tables_ok m' /\
  (e = 0 -> forall a, a / 4096 = v / 4096 -> vmm_translate m' r a = Some (p + a mod 4096, page_rights flags)) /\
  (forall r' a, roots r' -> (e = 0 -> r' = r -> a / 4096 <> v / 4096) -> vmm_translate m' r' a = vmm_translate m r' a) /\
  (forall a, pa_available (vm_pages m) (a / 4096) = false -> (forall t, is_table m t -> t / 4096 <> a / 4096) ->
     zget (vm_ram m') a = zget (vm_ram m) a).
Proof.
  intros Hm Hr Hrk Hk Hv Hp Hf Hz Hu Hfree. destruct (map_page_raw cfg m r v p flags replace) as [m' e] eqn:Hmap.
  destruct (map_page_ok cfg roots Hk0 m r v p flags replace m' e Hm Hr Hrk Hk Hv Hp Hf Hz Hu ltac:(auto) Hmap)
    as [[He E]|(He & Hua & Hlo & Hpv & Hpp & Hp52 & Hks & S & Hb & _)].
  - split_and!; [apply (ex_ok _ _ E)|done| |apply (ex_ram _ _ E)]. intros r' a Hr' _.
    rewrite !vmm_translate_root by (done || apply (ex_ok _ _ E)). by rewrite (ex_translate _ _ E).
  - pose proof (st_ok _ _ _ _ _ _ S) as Hm'. split_and!; [done| | |apply (st_ram _ _ _ _ _ _ S)].
    + intros _ a Ha. assert (user_address a) as Haa by (unfold user_address, K_USER_CANON_LIMIT in *; dlia).
      rewrite vmm_translate_root, canonical_user by done. apply (backed_translate cfg roots); try done.
      * unfold frame_flags. unfold is_u64 in *. split_and!; (done || lia).
      * by apply (backed_prefix m' r v), Hb; apply prefix_of_div.
    + intros r' a Hr' Hne. rewrite !vmm_translate_root by done. destruct (canonical a) eqn:Hc; [|done].
      apply (st_other _ _ _ _ _ _ S); [done|]. intros [-> Hpre]. apply Hne; [done|done|by apply canonical_same].
Qed.

(** ** Allocation *)
Lemma user_flags_ok rwx : is_u64 (user_flags rwx) /\ Z.land (user_flags rwx) PHYS_MASK = 0 /\ has (user_flags rwx) PAGE_USER = true.
Proof. unfold user_flags. destruct (has rwx RIEF_REGION_W), (has rwx RIEF_REGION_X); by vm_compute. Qed.
Lemma grown_none m m' r v d flags r' a : tables_ok m -> roots r' -> grown cfg roots m m' r v d d flags -> vmm_translate m' r' a = vmm_translate m r' a.
Proof.
  intros Hm Hr' G. rewrite !vmm_translate_root by (done || apply (gr_ok _ _ _ _ _ _ _ _ _ G)).
  rewrite (gr_other _ _ _ _ _ _ _ _ _ G) by (done || (intros j Hj; lia)). done.
Qed.
(** The bounds checked before the loop. *)
Lemma alloc_range v n : 0 <= v -> v < K_USER_LIMIT -> 0 < n -> n * 4096 + 4096 <= u64 (K_USER_LIMIT - v) ->
  forall j, 0 <= j < n -> user_address (v + j * 4096).
Proof.
  unfold user_address, K_USER_LIMIT, K_USER_CANON_LIMIT, u64. intros Hv Hl Hn Hb j Hj.
  rewrite Z.mod_small in Hb by lia. lia.
Qed.
(** C5: [as_alloc] maps the whole range to zeroed frames that nothing used before, with the rights asked for, or changes
    no translation; either way every other page translates as before and keeps its contents. *)
Theorem as_alloc_transactional m a bytes align rwx :
  tables_ok m -> roots (as_root a) -> as_root a <> pml4 cfg -> pml4 cfg <> 0 -> is_u64 bytes ->
  let '(m', a', res) := as_alloc cfg m (Some a) bytes align rwx true in
  tables_ok m' /\
  (forall x, pa_available (vm_pages m) (x / 4096) = false -> (forall t, is_table m t -> t / 4096 <> x / 4096) ->
     zget (vm_ram m') x = zget (vm_ram m) x) /\
  match res with
  | inl e => e <> 0 /\ a' = Some a /\ forall r x, roots r -> vmm_translate m' r x = vmm_translate m r x
  | inr v =>
      let n := ALIGN_UP bytes 4096 / 4096 in
      a' = Some (a <| as_next := u64 (v + n * 4096 + 4096) |> <| as_pages ::= (fun q => u32 (q + n)) |>) /\
      v = ALIGN_UP (as_next a) (Z.max align 4096) /\ v + n * 4096 + 4096 <= K_USER_LIMIT /\
      (forall j, 0 <= j < n -> exists p,
         pa_available (vm_pages m) (p / 4096) = true /\ zero_page m' p /\
         forall o, 0 <= o < 4096 -> vmm_translate m (as_root a) (v + j * 4096 + o) = None /\
           vmm_translate m' (as_root a) (v + j * 4096 + o) = Some (p + o, page_rights (user_flags rwx))) /\
      (forall r x, roots r -> (r = as_root a -> x / 4096 < v / 4096 \/ v / 4096 + n <= x / 4096) -> vmm_translate m' r x = vmm_translate m r x)
  end.
Proof.
  intros Hm Hr Hrk Hk Hb. set (r := as_root a) in *.
  assert (forall e, e <> 0 -> tables_ok m /\ (forall x, pa_available (vm_pages m) (x / 4096) = false -> (forall t, is_table m t -> t / 4096 <> x / 4096) ->
     zget (vm_ram m) x = zget (vm_ram m) x) /\ e <> 0 /\ Some a = Some a /\ forall r x, roots r -> vmm_translate m r x = vmm_translate m r x) as Hfail by done.
  unfold as_alloc. fold r. match goal with |- context [if ?b then _ else _] => destruct b eqn:Hbad; [by apply Hfail|] end. reflect_bools.
  match goal with |- context [if ?b then _ else _] => destruct b eqn:Hnx; [by apply Hfail|] end.
  match goal with |- context [if ?b then _ else _] => destruct b eqn:Hbig; [by apply Hfail|] end.
  assert ((if align <? 4096 then 4096 else align) = Z.max align 4096) as -> by (destruct (Z.ltb_spec align 4096); lia).
  set (n := ALIGN_UP bytes 4096 / 4096). set (v := ALIGN_UP (as_next a) (Z.max align 4096)).
  match goal with |- context [if ?b then _ else _] => destruct b eqn:Hroom; [by apply Hfail|] end. reflect_bools.
  assert (0 <= v) as Hv0 by (unfold v, ALIGN_UP; apply Z.land_nonneg; left; apply Z.mod_pos_bound; lia).
  assert (0 < n) as Hn by (unfold n, MAX_USER_PAGES, is_u64 in *; rewrite align_up_page by lia; dlia).
  pose proof (alloc_range v n Hv0 ltac:(lia) Hn ltac:(lia)) as Hua. destruct (user_flags_ok rwx) as (Hf & Hz & Hu).
  destruct (map_pages cfg (Z.to_nat n) m r v (user_flags rwx) 0) as [[m1 d] e] eqn:Hmap.
  destruct (map_pages_ok cfg roots Hk0 m r v (user_flags rwx) Hm Hr Hrk Hk Hf Hz Hu (Z.to_nat n) 0 m m1 d e ltac:(lia)
    ltac:(intros j Hj; apply Hua; lia) (grown_refl cfg roots m r v 0 _ Hm) Hmap) as (Hd & G & He).
  destruct (Z.eqb_spec e 0) as [->|Hne]; cbn [negb]; cbv beta iota zeta.
  - assert (d = n) as -> by lia. split; [apply (gr_ok _ _ _ _ _ _ _ _ _ G)|]. split; [apply (gr_ram _ _ _ _ _ _ _ _ _ G)|].
    split; [done|]. split; [done|]. split; [unfold u64, K_USER_LIMIT in *; rewrite Z.mod_small in * by lia; lia|].
    split.
    + intros j Hj. destruct (gr_here _ _ _ _ _ _ _ _ _ G j Hj) as [p [N1 N2 N3 N4 N5 N6 N7 N8]]. exists p. split; [done|]. split; [done|].
      intros o Ho. pose proof (Hua j Hj) as Hj'. unfold page in N2.
      assert ((v + j * 4096 + o) / 4096 = (v + j * 4096) / 4096) as Hq by dlia.
      assert (user_address (v + j * 4096 + o)) as Hvo by (unfold user_address, K_USER_CANON_LIMIT in *; dlia).
      rewrite !vmm_translate_root, canonical_user by (done || apply (gr_ok _ _ _ _ _ _ _ _ _ G)).
      split; [by apply N7, prefix_of_div|]. rewrite (backed_translate cfg roots m1 r _ p (user_flags rwx));
        [f_equal; f_equal; dlia|apply (gr_ok _ _ _ _ _ _ _ _ _ G)|done|done|]. by apply (backed_prefix m1 r (v + j * 4096)), N5; apply prefix_of_div.
    + intros r' x Hr' Hx. rewrite !vmm_translate_root by (done || apply (gr_ok _ _ _ _ _ _ _ _ _ G)). destruct (canonical x) eqn:Hc; [|done].
      apply (gr_other _ _ _ _ _ _ _ _ _ G); [done|]. intros j Hj [-> Hp]. apply canonical_same in Hp; [|by apply Hua|done]. specialize (Hx eq_refl). dlia.
  - pose proof (unmap_pages_ok cfg roots Hk0 m m1 r v d (user_flags rwx) Hm Hr Hrk ltac:(lia) ltac:(intros i Hi; apply Hua; lia) G) as G'.
    split; [apply (gr_ok _ _ _ _ _ _ _ _ _ G')|]. split; [apply (gr_ram _ _ _ _ _ _ _ _ _ G')|]. split; [done|]. split; [done|].
    intros r' x Hr'. by apply (grown_none m _ r v d (user_flags rwx)).
Qed.

End Properties.

(** * A machine with two empty address spaces *)
Definition demo_frames : list efi_memory_descriptor := [mk_efi_memory_descriptor 7 0x100000 8 0].
Definition demo_pages : pmm := default (mk_pmm ∅ ∅ 0 0 0 0 [] 0) (pmm_seed_from_efi_map 7 40 false (Some demo_frames) 48).
Lemma demo_pages_inv : pmm_inv demo_pages.
Proof.
  assert (pmm_seed_from_efi_map 7 40 false (Some demo_frames) 48 = Some demo_pages) as Hs by (vm_compute; reflexivity).
  apply (pmm_seed_inv 7 40 false (Some demo_frames) 48); [exact Hs|]. intros d Hd. change (boot_map demo_pages) with demo_frames in Hd.
  apply list_elem_of_singleton in Hd as ->. cbn. lia.
Qed.
Definition demo_cfg : mmu_config := mk_config true false false 0x200000.
Definition demo_roots (r : Z) : Prop := r = 0x200000 \/ r = 0x201000.
Definition demo_vm : vm pmm := mk_vm demo_pages ∅ [].
Definition demo_space : k_address_space :=
  own_slot USER_SLOT (space0 <| as_used := true |> <| as_root := 0x201000 |> <| as_next := K_USER_BASE + 0x200000 |>).
Lemma demo_empty r i : demo_roots r -> 0 <= i < 512 -> entry demo_vm r i = 0.
Proof. intros _ _. apply rd64_zero. intros j _. apply zget_empty. Qed.
Lemma demo_tables : tables_ok demo_cfg demo_roots demo_vm.
Proof.
  apply empty_tables; [exact demo_empty|intros a; by rewrite zget_empty|exact demo_pages_inv|].
  intros r [-> | ->]; split_and!; vm_compute; reflexivity || discriminate.
Qed.
Lemma map_isolated_witness :
  vmm_translate (fst (map_page_raw demo_cfg demo_vm 0x201000 0x400000000000 0x2bc000 (Z.lor PAGE_USER PAGE_RW) false)) 0x201000 0x400000000123 =
    Some (0x2bc123, 7).
Proof.
  assert (frame_free demo_roots demo_vm 0x201000 0x400000000000 (0x2bc000 / 4096)) as Hf.
  { apply empty_frame; [exact demo_empty|vm_compute; reflexivity|]. intros r [-> | ->]; vm_compute; discriminate. }
  pose proof (map_isolated demo_cfg demo_roots (or_introl eq_refl) demo_vm 0x201000 0x400000000000 0x2bc000 (Z.lor PAGE_USER PAGE_RW) false
    demo_tables (or_intror eq_refl) ltac:(discriminate) ltac:(discriminate) ltac:(by vm_compute) ltac:(by vm_compute) ltac:(by vm_compute) eq_refl eq_refl Hf) as Hp.
  assert (snd (map_page_raw demo_cfg demo_vm 0x201000 0x400000000000 0x2bc000 (Z.lor PAGE_USER PAGE_RW) false) = 0) as He by (vm_compute; reflexivity).
  destruct (map_page_raw _ _ _ _ _ _ _) as [m' e]. cbn [fst snd] in *. destruct Hp as (_ & Hp & _).
  rewrite (Hp He) by reflexivity. reflexivity.
Defined.
Lemma as_alloc_transactional_witness :
  let '(m, _, r) := as_alloc demo_cfg demo_vm (Some demo_space) 5000 16 3 true in
  r = inr 0x400000200000 /\ exists p, zero_page m p /\ vmm_translate m 0x201000 0x400000201234 = Some (p + 0x234, page_rights (user_flags 3)).
Proof.
  pose proof (as_alloc_transactional demo_cfg demo_roots (or_introl eq_refl) demo_vm demo_space 5000 16 3 demo_tables (or_intror eq_refl)
    ltac:(discriminate) ltac:(discriminate) ltac:(by vm_compute)) as Hp.
  assert (snd (as_alloc demo_cfg demo_vm (Some demo_space) 5000 16 3 true) = inr 0x400000200000) as He by (vm_compute; reflexivity).
  destruct (as_alloc _ _ _ _ _ _ _) as [[m a] r]. cbn [fst snd] in He. subst r. destruct Hp as (_ & _ & _ & _ & _ & Hp & _).
  split; [reflexivity|]. destruct (Hp 1 ltac:(split; vm_compute; congruence)) as (p & _ & Hz & Ho). exists p. split; [exact Hz|].
  exact (proj2 (Ho 0x234 ltac:(split; vm_compute; congruence))).
Defined.
