(* ===== verification/UserCopy.v ===== *)
(** Copies between the kernel and user memory: [as_check], [as_copy] and the
    identity mapping of [Mmu] always come to an end, and a copy into mapped
    user memory is what the next copy out of it returns. *)
From S2P Require Import Prelude Klib Pmm PageAlloc State Mmu MmuInv MmuMap MmuProps.

(** * Translation moves with the offset inside a page *)
Section Offset.
Context {St : Type}.
Implicit Types m : vm St.
Lemma land_ones_mod v k : 0 <= k -> Z.land v (Z.shiftl 1 k - 1) = v mod 2 ^ k.
Proof. intros Hk. rewrite Z.shiftl_1_l, Z.sub_1_r, <- Z.ones_equiv. by rewrite <- Z.land_ones. Qed.
Lemma mod_offset v i k : 12 <= k -> 0 <= i -> v mod 4096 + i < 4096 -> (v + i) mod 2 ^ k = v mod 2 ^ k + i.
Proof.
  intros Hk Hi Hv. assert (2 ^ k = 4096 * 2 ^ (k - 12)) as E by (change 4096 with (2 ^ 12); rewrite <- Z.pow_add_r by lia; f_equal; lia).
  assert (0 < 2 ^ (k - 12)) by (apply Z.pow_pos_nonneg; lia). set (q := 2 ^ (k - 12)) in *. rewrite E.
  rewrite !Z.rem_mul_r by lia. assert ((v + i) / 4096 = v / 4096) as -> by dlia. dlia.
Qed.
(** The frame address of a leaf has no bits below the page size. *)
Lemma leaf_lor e v k : 12 <= k <= 48 ->
  Z.lor (Z.land (Z.land e PHYS_MASK) (u64 (Z.lnot (Z.shiftl 1 k - 1)))) (Z.land v (Z.shiftl 1 k - 1)) =
  Z.land (Z.land e PHYS_MASK) (u64 (Z.lnot (Z.shiftl 1 k - 1))) + v mod 2 ^ k.
Proof.
  intros Hk. rewrite land_ones_mod by lia. set (a := Z.land _ (u64 _)).
  assert (Z.land a (v mod 2 ^ k) = 0) as Hz; [|by rewrite <- Z.lxor_lor, <- Z.add_nocarry_lxor].
  unfold a. apply Z.bits_inj'. intros j Hj. rewrite !Z.land_spec, Z.bits_0. destruct (Z.lt_ge_cases j k) as [Hl|Hg].
  - unfold u64. rewrite Z.mod_pow2_bits_low by lia. rewrite Z.lnot_spec, Z.shiftl_1_l, Z.sub_1_r, <- Z.ones_equiv, Z.ones_spec_low by lia.
    by rewrite andb_false_r.
  - rewrite (Z.mod_pow2_bits_high v k j) by lia. by rewrite andb_false_r.
Qed.
Lemma leaf_page_aligned e k : 12 <= k <= 48 -> Z.land (Z.land e PHYS_MASK) (u64 (Z.lnot (Z.shiftl 1 k - 1))) mod 4096 = 0.
Proof.
  intros Hk. change 4096 with (2 ^ 12). rewrite <- Z.land_ones by lia. apply Z.bits_inj'. intros j Hj. rewrite !Z.land_spec, Z.bits_0.
  destruct (Z.lt_ge_cases j 12) as [Hl|Hg]; [|by rewrite (Z.ones_spec_high 12) by lia; rewrite andb_false_r].
  unfold u64. rewrite Z.mod_pow2_bits_low by lia. rewrite Z.lnot_spec, Z.shiftl_1_l, Z.sub_1_r, <- Z.ones_equiv, Z.ones_spec_low by lia.
  by rewrite andb_false_r.
Qed.
Lemma pt_index_offset v i level : 1 <= level -> 0 <= i -> v mod 4096 + i < 4096 -> pt_index (v + i) level = pt_index v level.
Proof.
  intros Hl Hi Hv. unfold pt_index. rewrite !Z.shiftr_div_pow2 by lia. f_equal.
  assert (2 ^ (12 + 9 * (level - 1)) = 4096 * 2 ^ (9 * (level - 1))) as -> by (change 4096 with (2 ^ 12); rewrite <- Z.pow_add_r by lia; f_equal; lia).
  rewrite <- !Z.div_div by (try (apply Z.pow_nonzero; lia); try (apply Z.pow_pos_nonneg; lia); lia). f_equal. dlia.
Qed.
Lemma translate_loop_offset n m t v a b p f i : (n <= 4)%nat -> 0 <= i -> v mod 4096 + i < 4096 ->
  translate_loop n m t v a b = Some (p, f) -> translate_loop n m t (v + i) a b = Some (p + i, f) /\ p mod 4096 = v mod 4096.
Proof.
  intros Hn Hi Hv. revert t a b. induction n as [|n IH]; intros t a b; [done|]. cbn [translate_loop].
  rewrite pt_index_offset by (done || lia). set (e := entry m t _). destruct (has e PAGE_PRESENT); [|done]. cbn [negb].
  destruct (leaf_entry _ e) eqn:Hleaf; [|apply IH; lia].
  set (k := 12 + 9 * (Z.of_nat (S n) - 1)). assert (12 <= k <= 48) as Hk by (unfold k; lia).
  rewrite !leaf_lor by done. intros [= <- <-]. pose proof (leaf_page_aligned e k Hk) as Ha. rewrite mod_offset by lia.
  split; [do 2 f_equal; lia|]. set (x := Z.land _ _) in *. rewrite <- Z.add_mod_idemp_l, Ha by lia. rewrite Z.add_0_l.
  assert (2 ^ k = 4096 * 2 ^ (k - 12)) as -> by (change 4096 with (2 ^ 12); rewrite <- Z.pow_add_r by lia; f_equal; lia).
  rewrite Z.rem_mul_r by (try (apply Z.pow_pos_nonneg; lia); lia). rewrite Z.mul_comm, Z.mod_add by lia. by rewrite Z.mod_mod by lia.
Qed.
Lemma vmm_translate_offset m r v p f i : user_address v -> 0 <= i -> v mod 4096 + i < 4096 -> vmm_translate m r v = Some (p, f) ->
  vmm_translate m r (v + i) = Some (p + i, f) /\ p mod 4096 = v mod 4096.
Proof.
  intros Hu Hi Hv. unfold vmm_translate. assert (user_address (v + i)) by (unfold user_address, K_USER_CANON_LIMIT in *; dlia).
  rewrite !canonical_user by done. destruct (r =? 0); [done|]. cbn [negb orb]. apply translate_loop_offset; (done || lia).
Qed.
End Offset.

(** * Every loop ends *)
Section Totals.
Context {St : Type} `{PageSource St}.
Implicit Types m : vm St.
Lemma page_offset u : Z.land u 4095 = u mod 4096.
Proof. change 4095 with (Z.ones 12). by rewrite Z.land_ones. Qed.
Lemma next_chunk u n : 0 < n -> let c := Z.min n (4096 - u mod 4096) in
  0 < c <= n /\ (c = n \/ (u + c) mod 4096 = 0 /\ u mod 4096 + c = 4096).
Proof. cbv zeta. intros Hn. destruct (Z.min_spec n (4096 - u mod 4096)) as [[Hm ->]|[Hm ->]]; dlia. Qed.
Lemma copy_in_some fuel m r u data : (data <> [] -> u mod 4096 + Z.of_nat (length data) <= Z.of_nat fuel * 4096) -> copy_in_loop fuel m r u data <> None.
Proof.
  revert m u data. induction fuel as [|fuel IH]; intros m u [|x data] Hf; cbn [copy_in_loop]; try done.
  - specialize (Hf ltac:(done)). cbn [length] in Hf. dlia.
  - destruct (vmm_translate m r u) as [[p f]|]; [|done]. rewrite page_offset. apply IH.
    specialize (Hf ltac:(done)). intros Hne. assert (length (drop (Z.to_nat (Z.min (Z.of_nat (length (x :: data))) (4096 - u mod 4096))) (x :: data)) <> 0%nat) as Hl by (by destruct (drop _ _)).
    rewrite length_drop in Hl |- *. cbn [length] in *. destruct (next_chunk u (Z.of_nat (S (length data))) ltac:(lia)) as [Hc Hd].
    pose proof (Z.mod_pos_bound u 4096). destruct Hd as [E|[-> Hd]]; [rewrite E in Hl; lia|]. lia.
Qed.
Lemma copy_out_some fuel m r u n : (0 < n -> u mod 4096 + n <= Z.of_nat fuel * 4096) -> copy_out_loop fuel m r u n <> None.
Proof.
  revert u n. induction fuel as [|fuel IH]; intros u n Hf; cbn [copy_out_loop]; (destruct (Z.leb_spec n 0); [done|]).
  - specialize (Hf ltac:(lia)). dlia.
  - specialize (Hf ltac:(lia)). destruct (vmm_translate m r u) as [[p f]|]; [|done]. rewrite page_offset.
    pose proof (IH (u + Z.min n (4096 - u mod 4096)) (n - Z.min n (4096 - u mod 4096))) as Hn.
    destruct (copy_out_loop _ _ _ _ _) as [[e|l]|]; [done|done|]. destruct Hn; [|done].
    destruct (next_chunk u n ltac:(lia)) as [Hc [E|[-> Hd]]]; lia.
Qed.
Lemma copy_fuel_enough u n : u mod 4096 + n <= Z.of_nat (copy_fuel n) * 4096.
Proof. unfold copy_fuel. dlia. Qed.
Lemma identity_loop_some cfg fuel m start end_ flags : (end_ - start) mod 4096 = 0 -> end_ - start <= Z.of_nat fuel * 4096 ->
  identity_loop cfg fuel m start end_ flags <> None.
Proof.
  revert m start. induction fuel as [|fuel IH]; intros m start Ha Hf; cbn [identity_loop];
    (destruct (Z.ltb_spec start end_); cbn [negb]; [|done]); [lia|].
  destruct ((Z.land start 0x1fffff =? 0) && _).
  - destruct (map_large cfg m start start flags) as [m' e]. destruct (negb (e =? 0)); [done|]. apply IH; dlia.
  - destruct (map_page_raw cfg m (pml4 cfg) start start flags true) as [m' e]. destruct (negb (e =? 0)); [done|]. apply IH; dlia.
Qed.
Lemma map_identity_some cfg m start size flags : is_u64 start -> is_u64 size -> map_identity cfg m start size flags <> None.
Proof.
  unfold is_u64, map_identity, K_USER_BASE. intros Hs Hz. destruct (Z.eqb_spec size 0); [done|].
  match goal with |- context [if ?b then _ else _] => destruct b eqn:E; [done|] end. reflect_bools.
  rewrite align_up_page by lia. assert (Z.land start (u64 (Z.lnot 4095)) = start / 4096 * 4096) as -> by (apply (clear_low start 12); unfold is_u64; lia).
  apply identity_loop_some; dlia.
Qed.
End Totals.

(** The loops of the copies and of the identity mapping end: the fuel they are given is never used up, whatever the
    tables hold. *)
Theorem copies_terminate {St} `{PageSource St} cfg (m : vm St) as_ u data n loader start size flags :
  is_u64 start -> is_u64 size ->
  as_copy_in m as_ u data loader <> None /\ as_copy_out m as_ u n <> None /\
  map_identity cfg m start size flags <> None /\ mmio_map cfg m start size <> None.
Proof.
  intros Hs Hz. split_and!.
  - unfold as_copy_in. destruct (as_check _ _ _ _ _) as [m1 e], as_ as [a|]; [|done]. destruct (negb (e =? 0)); [done|].
    apply copy_in_some. intros _. apply copy_fuel_enough.
  - unfold as_copy_out. destruct (as_check _ _ _ _ _) as [m1 e], as_ as [a|]; [|done]. destruct (negb (e =? 0)); [done|].
    pose proof (copy_out_some (copy_fuel n) m1 (as_root a) u n (fun _ => copy_fuel_enough u n)). by destruct (copy_out_loop _ _ _ _ _).
  - by apply map_identity_some.
  - unfold mmio_map. match goal with |- context [if ?b then _ else _] => destruct b; [done|] end.
    pose proof (map_identity_some cfg m start size (Z.lor PAGE_RW (Z.lor PAGE_PCD (Z.lor PAGE_PWT (if nx cfg then PAGE_NX else 0)))) Hs Hz).
    by destruct (map_identity _ _ _ _ _) as [[m' e]|].
Qed.
Lemma copies_terminate_witness : as_copy_out demo_vm (Some demo_space) K_USER_BASE 9000 <> None.
Proof.
  exact (proj1 (proj2 (copies_terminate demo_cfg demo_vm (Some demo_space) K_USER_BASE [1; 2] 9000 false 0x1000 0x300000 3
    ltac:(split; vm_compute; congruence) ltac:(split; vm_compute; congruence)))).
Defined.

(** * What a copy leaves in memory *)
Section RoundTrip.
Context {St : Type} `{PageSourceLaws St} (cfg : mmu_config) (roots : Z -> Prop) (Hk0 : roots (pml4 cfg)).
Implicit Types m : vm St.
#[local] Abbreviation tables_ok := (tables_ok cfg roots).
#[local] Abbreviation maps := (maps roots).
#[local] Abbreviation is_table := (is_table roots).

(** Every address of the range translates to a page of the user. *)
Definition mapped m r u n : Prop := forall i, 0 <= i < n -> user_address (u + i) /\
  exists p f, vmm_translate m r (u + i) = Some (p, f) /\ has f PAGE_USER = true.
Lemma mapped_maps m r v p f : tables_ok m -> roots r -> user_address v -> vmm_translate m r v = Some (p, f) -> has f PAGE_USER = true ->
  maps m r v p f.
Proof. intros Hm Hr Hv Ht Hf. split_and!; try done. by rewrite (vmm_translate_root cfg roots), canonical_user in Ht by done. Qed.
(** Writing inside the frames of user pages changes no translation. *)
Lemma user_write m m' (own : Z -> Prop) : tables_ok m -> vm_pages m' = vm_pages m -> bytes_ok (vm_ram m') ->
  (forall x, own x -> exists r v p f, maps m r v p f /\ p / 4096 = x / 4096) ->
  (forall x, ~ own x -> zget (vm_ram m') x = zget (vm_ram m) x) ->
  tables_ok m' /\ (forall r v, roots r -> vmm_translate m' r v = vmm_translate m r v).
Proof.
  intros Hm Hp Hb Hown Hkeep.
  assert (forall t i, is_table m t -> 0 <= i < 512 -> entry m' t i = entry m t i) as He.
  { intros t i Ht Hi. pose proof (is_table_page cfg roots m t Hm Ht) as [Hpg _]. apply rd64_ext. intros j Hj. apply Hkeep. intros Ho.
    destruct (Hown _ Ho) as (r & v & p & f & Hmap & Hq). destruct Ht as (r' & v' & n & Hr' & Hn & Hw). unfold page in Hpg.
    destruct (ok_frames m Hm r v p f Hmap) as [_ Hd]. apply (Hd r' v' n t Hr' Hn Hw). dlia. }
  assert (tables_ok m') as Hm'.
  { apply (same_ok cfg roots Hk0 m m' Hm Hb).
    - rewrite Hp. apply (ok_source m Hm).
    - done.
    - intros t Ht. rewrite Hp. by apply (is_table_page cfg roots m t Hm Ht).
    - intros r v p f Hmap. rewrite Hp. by apply (ok_frames m Hm r v p f). }
  split; [done|]. intros r v Hr. rewrite !(vmm_translate_root cfg roots) by done. destruct (canonical v); [|done].
  by apply (same_translate cfg roots m m' Hm He).
Qed.
Lemma frame_page m r v p f i : vmm_translate m r v = Some (p, f) -> user_address v -> 0 <= i -> v mod 4096 + i < 4096 -> (p + i) / 4096 = p / 4096.
Proof. intros Ht Hv Hi Hj. destruct (vmm_translate_offset m r v p f 0 Hv ltac:(lia) ltac:(lia) Ht) as [_ Hp]. dlia. Qed.

(** [data] lies at the translations of [u], [u + 1], ..., and nothing else changed. *)
Record copied m m' r u (data : list Z) : Prop := {
  cp_ok : tables_ok m';
  cp_pages : vm_pages m' = vm_pages m;
  cp_hw : vm_hw m' = vm_hw m;
  cp_same : forall r' v, roots r' -> vmm_translate m' r' v = vmm_translate m r' v;
  cp_here : forall i, 0 <= i < Z.of_nat (length data) -> exists p f, vmm_translate m r (u + i) = Some (p, f) /\ zget (vm_ram m') p = data !!! Z.to_nat i;
  cp_rest : forall x, (forall i f, 0 <= i < Z.of_nat (length data) -> vmm_translate m r (u + i) <> Some (x, f)) -> zget (vm_ram m') x = zget (vm_ram m) x
}.
Lemma copy_in_ok fuel m m' r u data : tables_ok m -> roots r -> mapped m r u (Z.of_nat (length data)) -> Forall is_u8 data ->
  forall e, copy_in_loop fuel m r u data = Some (m', e) -> e = 0 /\ copied m m' r u data.
Proof.
  revert m u data. induction fuel as [|fuel IH]; intros m u [|x data] Hm Hr Hmap Hb e; try done.
  1, 2: intros [= <- <-]; split; [done|]; split; try done; cbn [length]; lia.
  cbn [copy_in_loop]. set (d := x :: data) in *. set (n := Z.of_nat (length d)) in *.
  assert (0 < n) as Hn by (unfold n, d; cbn [length]; lia).
  destruct (Hmap 0 ltac:(lia)) as (Hu0 & p & f & Ht & Huser). rewrite Z.add_0_r in *. rewrite Ht.
  rewrite page_offset. set (c := Z.min n (4096 - u mod 4096)). destruct (next_chunk u n Hn) as [Hc Hend]. fold c in Hc, Hend. pose proof (Z.mod_pos_bound u 4096 ltac:(lia)) as Hu.
  set (m1 := m <| vm_ram ::= _ |>). intros Hloop.
  assert (forall y, zget (vm_ram m1) y = if (p <=? y) && (y <? p + c) then d !!! Z.to_nat (y - p) else zget (vm_ram m) y) as Hram.
  { intros y. unfold m1. cbn [vm_ram modify]. by rewrite (fold_put_spec _ p c (fun i => d !!! Z.to_nat i)) by lia. }
  destruct (user_write m m1 (fun y => p <= y < p + c)) as [Hm1 Htr]; [done|done|..].
  { intros y. rewrite Hram. split_if; [|apply (ok_bytes m Hm)]. rewrite list_lookup_total_alt.
    destruct (d !! Z.to_nat (y - p)) as [b|] eqn:Hd; [|by unfold is_u8]. rewrite Forall_forall in Hb. by eapply Hb, list_elem_of_lookup_2. }
  { intros y Hy. exists r, u, p, f. split; [by apply mapped_maps|]. symmetry. replace y with (p + (y - p)) by lia.
    apply (frame_page m r u p f); [done|done|lia|lia]. }
  { intros y Hy. rewrite Hram. split_if; [lia|done]. }
  destruct (IH m1 (u + c) (drop (Z.to_nat c) d)) with (e := e) as [-> [C1 C2 C3 C4 C5 C6]]; try done.
  { intros i Hi. rewrite length_drop in Hi. rewrite Htr by done. replace (u + c + i) with (u + (c + i)) by lia. apply Hmap. unfold n in *. lia. }
  { by apply Forall_drop. }
  rewrite length_drop in C5, C6. split; [done|]. split; try done.
  - intros r' v Hr'. rewrite C4 by done. by apply Htr.
  - fold n. intros i Hi. destruct (Z.lt_ge_cases i c) as [Hlt|Hge].
    + exists (p + i), f. destruct (vmm_translate_offset m r u p f i Hu0 ltac:(lia) ltac:(lia) Ht) as [Hti _]. split; [done|].
      rewrite C6; [rewrite Hram; split_if; [f_equal; lia|lia]|]. intros j f' Hj Hcon. rewrite Htr in Hcon by done.
      replace (u + c + j) with (u + (c + j)) in Hcon by lia. destruct (Hmap (c + j) ltac:(unfold n in *; lia)) as (Hvj & q & g & Hq & Hg).
      rewrite Hq in Hcon. injection Hcon as -> ->.
      destruct (ok_once m Hm r u p f r (u + (c + j)) (p + i) f') as [_ Hpg]; try done; try (by apply mapped_maps).
      * by rewrite (frame_page m r u p f) by (done || lia).
      * unfold n in *. destruct Hend as [E|[Hmod Hsum]]; [lia|dlia].
    + destruct (C5 (i - c) ltac:(unfold n in *; lia)) as (q & g & Hq & Hv). rewrite Htr in Hq by done. replace (u + c + (i - c)) with (u + i) in Hq by lia.
      exists q, g. split; [done|]. rewrite Hv, lookup_total_drop. f_equal. lia.
  - fold n. intros y Hy. rewrite C6.
    + rewrite Hram. split_if; [|done]. exfalso.
      destruct (vmm_translate_offset m r u p f (y - p) Hu0 ltac:(lia) ltac:(lia) Ht) as [Hty _]. apply (Hy (y - p) f ltac:(lia)).
      by replace (p + (y - p)) with y in Hty by lia.
    + intros j g Hj. rewrite Htr by done. replace (u + c + j) with (u + (c + j)) by lia. apply Hy. unfold n in *. lia.
Qed.
Lemma copy_out_ok fuel m r u n l : mapped m r u n -> copy_out_loop fuel m r u n = Some l ->
  exists l', l = inr l' /\ length l' = Z.to_nat n /\ forall i, 0 <= i < n -> exists p f, vmm_translate m r (u + i) = Some (p, f) /\ l' !!! Z.to_nat i = zget (vm_ram m) p.
Proof.
  revert u n l. induction fuel as [|fuel IH]; intros u n l Hmap; cbn [copy_out_loop]; (destruct (Z.leb_spec n 0) as [Hn|Hn]); try done.
  1, 2: intros [= <-]; exists []; split_and!; [done|cbn; lia|lia].
  destruct (Hmap 0 ltac:(lia)) as (Hu0 & p & f & Ht & _). rewrite Z.add_0_r in *. rewrite Ht. rewrite page_offset. set (c := Z.min n (4096 - u mod 4096)).
  destruct (next_chunk u n Hn) as [Hc _]. fold c in Hc. destruct (copy_out_loop fuel m r (u + c) (n - c)) as [l1|] eqn:Hloop; [|done].
  destruct (IH (u + c) (n - c) l1) as (l' & -> & Hlen & Hget); [|done|].
  { intros i Hi. replace (u + c + i) with (u + (c + i)) by lia. apply Hmap. lia. }
  intros [= <-]. eexists. split; [done|]. split; [rewrite length_app, length_map, length_seq, Hlen; lia|]. intros i Hi. destruct (Z.lt_ge_cases i c) as [Hlt|Hge].
  - exists (p + i), f.
    split; [by apply vmm_translate_offset; (done || unfold c in *; lia)|]. rewrite lookup_total_app_l by (rewrite length_map, length_seq; lia).
    rewrite list_lookup_total_alt, list_lookup_fmap, lookup_seq_lt by lia. cbn. f_equal. lia.
  - destruct (Hget (i - c) ltac:(lia)) as (q & g & Hq & Hv). replace (u + c + (i - c)) with (u + i) in Hq by lia. exists q, g. split; [done|].
    rewrite lookup_total_app_r by (rewrite length_map, length_seq; lia). rewrite length_map, length_seq, <- Hv. f_equal. lia.
Qed.

(** ** The check before a copy *)
Definition reachable_range (m : vm St) (a : k_address_space) (u n : Z) : Prop :=
  0x10000 <= u < K_USER_CANON_LIMIT /\ u + n <= K_USER_CANON_LIMIT /\ forall q, u / 4096 <= q <= (u + n - 1) / 4096 -> accessible m a (q * 4096) true = true.
Lemma accessible_page m a v w : accessible m a v true = true ->
  exists p f, vmm_translate m (as_root a) v = Some (p, f) /\ has f PAGE_USER = true /\ accessible m a v w = true.
Proof.
  unfold accessible. destruct (vmm_translate _ _ _) as [[p f]|]; [|done]. cbn. intros E. apply andb_prop in E as [E1 E2].
  exists p, f. rewrite E1, E2, orb_true_r. done.
Qed.
Lemma check_page_ok m a v w : accessible m a v true = true -> check_page (Some a) a v w m = Next m.
Proof. intros Ha. unfold check_page. destruct (accessible_page m a v w Ha) as (p & f & -> & _ & Hw). cbn. by rewrite Hw. Qed.
Lemma as_check_ok m a u n w : reachable_range m a u n -> 0 <= n -> as_check m (Some a) u n w = (m, 0).
Proof.
  intros (Hlo & Hhi & Hacc) Hn. unfold as_check.
  destruct (Z.ltb_spec u 0x10000), (Z.leb_spec K_USER_CANON_LIMIT u), (Z.ltb_spec (K_USER_CANON_LIMIT - u) n); cbn [orb]; try lia.
  destruct (Z.eqb_spec n 0); [done|].
  pose proof (for_range_inv (fun _ t => t = m) (fun _ => False) (fun page m => check_page (Some a) a (page * 4096) w m)
    (u / 4096) ((u + n - 1) / 4096 + 1) m ltac:(dlia) eq_refl) as Hloop.
  destruct (for_range _ _ _ _) as [m'|m'].
  - rewrite Hloop; [done|]. intros q t Hq ->. by rewrite check_page_ok by (apply Hacc; lia).
  - destruct Hloop. intros q t Hq ->. by rewrite check_page_ok by (apply Hacc; lia).
Qed.
Lemma reachable_mapped m a u n : reachable_range m a u n -> mapped m (as_root a) u n.
Proof.
  intros (Hlo & Hhi & Hacc) i Hi. assert (user_address (u + i)) as Hv by (unfold user_address; lia). split; [done|].
  destruct (accessible_page m a ((u + i) / 4096 * 4096) true) as (p & f & Ht & Hf & _); [apply Hacc; dlia|].
  exists (p + (u + i) mod 4096), f. split; [|done]. replace (u + i) with ((u + i) / 4096 * 4096 + (u + i) mod 4096) at 1 by dlia.
  apply vmm_translate_offset; [unfold user_address in *; dlia|dlia|dlia|done].
Qed.
Lemma copied_reachable m m' a u n data : copied m m' (as_root a) u data -> roots (as_root a) -> reachable_range m a u n -> reachable_range m' a u n.
Proof.
  intros C Hr (Hlo & Hhi & Hacc). split_and!; try done; try lia. intros q Hq. unfold accessible. rewrite (cp_same _ _ _ _ _ C) by done. by apply Hacc.
Qed.
End RoundTrip.

(** C6: a copy to writable user pages stores the data: the next copy from there returns it, the tables stay well formed,
    every translation stays, and memory that no address of the range translates to keeps its contents. *)
Theorem user_copy_roundtrip {St} `{PageSourceLaws St} cfg (roots : Z -> Prop) (m : vm St) a u data :
  roots (pml4 cfg) -> tables_ok cfg roots m -> roots (as_root a) -> Forall is_u8 data ->
  reachable_range m a u (Z.of_nat (length data)) ->
  exists m', as_copy_in m (Some a) u data false = Some (m', 0) /\
    as_copy_out m' (Some a) u (Z.of_nat (length data)) = Some (m', inr data) /\
    tables_ok cfg roots m' /\ (forall r v, roots r -> vmm_translate m' r v = vmm_translate m r v) /\
    (forall x, (forall i f, 0 <= i < Z.of_nat (length data) -> vmm_translate m (as_root a) (u + i) <> Some (x, f)) ->
       zget (vm_ram m') x = zget (vm_ram m) x).
Proof.
  intros Hk Hm Hr Hb Hrange. set (n := Z.of_nat (length data)) in *. pose proof (reachable_mapped m a u n Hrange) as Hmap.
  assert (as_copy_in m (Some a) u data false = copy_in_loop (copy_fuel n) m (as_root a) u data) as Hin
    by (unfold as_copy_in; by rewrite (as_check_ok m a u n) by (done || lia)).
  destruct (copy_in_loop (copy_fuel n) m (as_root a) u data) as [[m' e]|] eqn:Hloop;
    [|by destruct (copy_in_some (copy_fuel n) m (as_root a) u data (fun _ => copy_fuel_enough u n))].
  destruct (copy_in_ok cfg roots Hk _ _ _ _ _ _ Hm Hr Hmap Hb _ Hloop) as [-> C]. exists m'. split; [by rewrite Hin|].
  pose proof (copied_reachable cfg roots m m' a u n data C Hr Hrange) as Hrange'.
  split; [|split_and!; apply C].
  unfold as_copy_out. rewrite (as_check_ok m' a u n) by (done || lia). cbn [Z.eqb negb].
  destruct (copy_out_loop (copy_fuel n) m' (as_root a) u n) as [l|] eqn:Hout;
    [|by destruct (copy_out_some (copy_fuel n) m' (as_root a) u n (fun _ => copy_fuel_enough u n))].
  destruct (copy_out_ok _ _ _ _ _ _ (reachable_mapped m' a u n Hrange') Hout) as (l' & -> & Hlen & Hget). cbn [option_map].
  do 3 f_equal. apply list_eq_same_length with (n := length data); [done|lia|]. intros i x y Hi Hx Hy.
  destruct (Hget (Z.of_nat i) ltac:(lia)) as (p & f & Ht & Hl). destruct (cp_here _ _ _ _ _ _ _ C (Z.of_nat i) ltac:(lia)) as (q & g & Hq & Hd).
  rewrite (cp_same _ _ _ _ _ _ _ C), Hq in Ht by done. injection Ht as <- <-. rewrite Nat2Z.id in *. rewrite <- Hl in Hd.
  rewrite !list_lookup_total_alt, Hx, Hy in Hd. exact Hd.
Qed.

(** A machine with one writable user page. *)
Definition demo_mapped : vm pmm := fst (map_page_raw demo_cfg demo_vm 0x201000 K_USER_BASE 0x2bc000 (Z.lor PAGE_USER PAGE_RW) false).
Lemma demo_mapped_tables : tables_ok demo_cfg demo_roots demo_mapped.
Proof.
  assert (frame_free demo_roots demo_vm 0x201000 K_USER_BASE (0x2bc000 / 4096)) as Hf.
  { apply empty_frame; [exact demo_empty|vm_compute; reflexivity|]. intros r [-> | ->]; vm_compute; discriminate. }
  pose proof (map_page_ok demo_cfg demo_roots (or_introl eq_refl) demo_vm 0x201000 K_USER_BASE 0x2bc000 (Z.lor PAGE_USER PAGE_RW) false) as Hp.
  unfold demo_mapped. destruct (map_page_raw demo_cfg demo_vm 0x201000 K_USER_BASE 0x2bc000 (Z.lor PAGE_USER PAGE_RW) false) as [m' e].
  specialize (Hp m' e demo_tables (or_intror eq_refl) ltac:(discriminate) ltac:(discriminate) ltac:(by vm_compute) ltac:(by vm_compute)
    ltac:(by vm_compute) eq_refl eq_refl (fun _ _ => Hf) eq_refl).
  destruct Hp as [[_ X]|(_ & _ & _ & _ & _ & _ & _ & S & _)].
  - exact (ex_ok _ _ X).
  - exact (st_ok _ _ _ _ _ _ S).
Qed.
Lemma user_copy_roundtrip_witness : exists m',
  as_copy_in demo_mapped (Some demo_space) (K_USER_BASE + 4090) [1; 2; 3] false = Some (m', 0) /\
  as_copy_out m' (Some demo_space) (K_USER_BASE + 4090) 3 = Some (m', inr [1; 2; 3]).
Proof.
  destruct (user_copy_roundtrip demo_cfg demo_roots demo_mapped demo_space (K_USER_BASE + 4090) [1; 2; 3]
    (or_introl eq_refl) demo_mapped_tables (or_intror eq_refl)) as (m' & Hin & Hout & _).
  - repeat constructor; vm_compute; congruence.
  - split; [split; vm_compute; congruence|]. split; [vm_compute; congruence|]. intros q Hq.
    assert (q = K_USER_BASE / 4096) as -> by (change ((K_USER_BASE + 4090) / 4096) with (K_USER_BASE / 4096) in Hq;
      change ((K_USER_BASE + 4090 + Z.of_nat (length [1; 2; 3]) - 1) / 4096) with (K_USER_BASE / 4096) in Hq; lia).
    vm_compute. reflexivity.
  - exists m'. exact (conj Hin Hout).
Defined.
