(* ===== verification/Rief.v ===== *)
(** The RIEF loader, [rief_load_locked], [rief_string], [k_rief_load] and
    [k_rief_export] of [src/kernel-src/kernel/process.c].  The image lies in
    kernel memory at an address; the loader validates all of it before it
    allocates the regions, copies them, and patches the relocations. *)
From S2P Require Import Prelude Klib PageAlloc State Mmu.

Definition RIEF_MAGIC : Z := 0x46454952.
Definition RIEF_ARCH_X86_64 : Z := 1.
Definition RIEF_RELOC_ABS64 : Z := 1.
Definition RIEF_RELOC_REL32 : Z := 2.
Definition RIEF_RELOC_REL64 : Z := 3.
Definition RIEF_RELOC_IMPORT64 : Z := 4.
Definition MAX_REGIONS : Z := 64.
Definition MAX_EXPORTS : Z := 64.
Definition MIB64 : Z := 64 * 1024 * 1024.

(** * The records of an image, little-endian and packed *)
Record rief_header_t := mk_header {
  h_magic : Z; h_version_major : Z; h_version_minor : Z; h_architecture : Z; h_flags : Z; h_header_size : Z;
  h_region_count : Z; h_reloc_count : Z; h_import_count : Z; h_export_count : Z;
  h_region_table_offset : Z; h_reloc_table_offset : Z; h_import_table_offset : Z; h_export_table_offset : Z;
  h_string_table_offset : Z; h_string_table_size : Z; h_entry_region : Z; h_reserved : Z; h_entry_offset : Z }.
Definition SIZEOF_HEADER : Z := 96.
Definition read_header (r : zmap) (p : Z) : rief_header_t :=
  mk_header (rd32 r p) (rd16 r (p + 4)) (rd16 r (p + 6)) (rd16 r (p + 8)) (rd16 r (p + 10)) (rd32 r (p + 12))
    (rd32 r (p + 16)) (rd32 r (p + 20)) (rd32 r (p + 24)) (rd32 r (p + 28))
    (rd64 r (p + 32)) (rd64 r (p + 40)) (rd64 r (p + 48)) (rd64 r (p + 56))
    (rd64 r (p + 64)) (rd64 r (p + 72)) (rd32 r (p + 80)) (rd32 r (p + 84)) (rd64 r (p + 88)).
Record rief_region_t := mk_region { r_flags : Z; r_alignment : Z; r_file_offset : Z; r_file_size : Z; r_memory_size : Z }.
Definition SIZEOF_REGION : Z := 32.
Definition read_region (r : zmap) (p : Z) : rief_region_t :=
  mk_region (rd32 r p) (rd32 r (p + 4)) (rd64 r (p + 8)) (rd64 r (p + 16)) (rd64 r (p + 24)).
#[export] Instance region_inhabited : Inhabited rief_region_t := populate (mk_region 0 0 0 0 0).
Record rief_reloc_t := mk_reloc {
  rl_patch_region : Z; rl_type : Z; rl_target_region : Z; rl_reserved : Z; rl_patch_offset : Z; rl_target_offset : Z; rl_addend : Z }.
Definition SIZEOF_RELOC : Z := 40.
Definition read_reloc (r : zmap) (p : Z) : rief_reloc_t :=
  mk_reloc (rd32 r p) (rd32 r (p + 4)) (rd32 r (p + 8)) (rd32 r (p + 12)) (rd64 r (p + 16)) (rd64 r (p + 24)) (s64 (rd64 r (p + 32))).
Record rief_import_t := mk_import { im_name_offset : Z; im_reserved : Z }.
Definition SIZEOF_IMPORT : Z := 8.
Definition read_import (r : zmap) (p : Z) : rief_import_t := mk_import (rd32 r p) (rd32 r (p + 4)).
Record rief_export_t := mk_export { ex_name_offset : Z; ex_region : Z; ex_offset : Z }.
Definition SIZEOF_EXPORT : Z := 16.
Definition read_export (r : zmap) (p : Z) : rief_export_t := mk_export (rd32 r p) (rd32 r (p + 4)) (rd64 r (p + 8)).

(** * Strings: the characters before the NUL, or K_ENOEXEC *)
Definition rief_string (r : zmap) (bytes : Z) (h : rief_header_t) (off : Z) : option (list Z) :=
  if h_string_table_size h <=? off then None
  else
    let s := bytes + h_string_table_offset h + off in
    match for_range 0 128 (fun i out =>
            if negb (u32 (off + i) <? h_string_table_size h) then Exit None
            else
              let c := zget r (s + i) in
              if c =? 0 then Exit (if i =? 0 then None else Some out)
              else if (c <? 33) || (126 <? c) then Exit None
              else Next (out ++ [c])) [] with
    | Next _ => None
    | Exit res => res
    end.

(** * Validation of the header, the tables and the regions *)
Definition header_ok (r : zmap) (bytes size : Z) (h : rief_header_t) : bool :=
  negb (negb (h_magic h =? RIEF_MAGIC) || negb (h_version_major h =? 1) || negb (h_version_minor h =? 0) ||
        negb (h_architecture h =? RIEF_ARCH_X86_64) || negb (h_flags h =? 0) || negb (h_reserved h =? 0) ||
        (h_header_size h <? SIZEOF_HEADER) || (4096 <? h_header_size h) || (size <? h_header_size h) || (h_region_count h =? 0) ||
        (MAX_REGIONS <? h_region_count h) || (4096 <? h_reloc_count h) || (64 <? h_import_count h) ||
        (MAX_EXPORTS <? h_export_count h) || (h_region_count h <=? h_entry_region h)) &&
  all_range SIZEOF_HEADER (h_header_size h) (fun i => zget r (bytes + i) =? 0).
(** [meta_off] and [meta_len]. *)
Definition meta (h : rief_header_t) : list (Z * Z) :=
  [(0, h_header_size h);
   (h_region_table_offset h, h_region_count h * SIZEOF_REGION);
   (h_reloc_table_offset h, h_reloc_count h * SIZEOF_RELOC);
   (h_import_table_offset h, h_import_count h * SIZEOF_IMPORT);
   (h_export_table_offset h, h_export_count h * SIZEOF_EXPORT);
   (h_string_table_offset h, h_string_table_size h)].
Definition overlaps (x y : Z * Z) : bool := overlap (fst x) (snd x) (fst y) (snd y).
Definition meta_ok (size : Z) (t : list (Z * Z)) : bool :=
  all_range 0 6 (fun i =>
    let x := t !!! Z.to_nat i in
    span_ok (fst x) (snd x) size && negb ((snd x =? 0) && negb (fst x =? 0)) &&
    negb ((0 <? i) && (i <? 5) && negb (Z.land (fst x) 7 =? 0)) &&
    all_range 0 i (fun j => negb (overlaps x (t !!! Z.to_nat j)))).
Definition file_span (r : rief_region_t) : Z * Z := (r_file_offset r, r_file_size r).
Definition region_bad (size : Z) (r : rief_region_t) : bool :=
  (r_memory_size r =? 0) || (MIB64 <? r_memory_size r) || (r_memory_size r <? r_file_size r) ||
  negb (span_ok (r_file_offset r) (r_file_size r) size) || negb (power2 (r_alignment r)) || (0x40000000 <? r_alignment r) ||
  negb (Z.land (r_flags r) (u32 (Z.lnot 7)) =? 0) || negb (has (r_flags r) RIEF_REGION_R) || (Z.land (r_flags r) 6 =? 6).
(** One round of the region loop: the regions so far and their page total. *)
Definition region_step (r : zmap) (bytes size : Z) (h : rief_header_t) (i : Z) (s : list rief_region_t * Z)
  : flow (list rief_region_t * Z) Z :=
  let '(regions, total) := s in
  let g := read_region r (bytes + h_region_table_offset h + i * SIZEOF_REGION) in
  if region_bad size g then Exit K_ENOEXEC
  else
    let total := u64 (total + ALIGN_UP (r_memory_size g) 4096) in
    if MIB64 <? total then Exit K_E2BIG
    else if any_range 0 6 (fun j => overlaps (file_span g) (meta h !!! Z.to_nat j)) then Exit K_ENOEXEC
    else if any_range 0 i (fun j => overlaps (file_span g) (file_span (regions !!! Z.to_nat j))) then Exit K_ENOEXEC
    else Next (regions ++ [g], total).
Definition read_regions (r : zmap) (bytes size : Z) (h : rief_header_t) : Z + list rief_region_t :=
  match for_range 0 (h_region_count h) (region_step r bytes size h) ([], 0) with
  | Exit e => inl e
  | Next (regions, _) =>
      let g := regions !!! Z.to_nat (h_entry_region h) in
      if negb (has (r_flags g) RIEF_REGION_X) || (r_file_size g <=? h_entry_offset h) then inl K_ENOEXEC else inr regions
  end.
(** Everything up to the imports. *)
Definition rief_layout (r : zmap) (bytes size : Z) : Z + (rief_header_t * list rief_region_t) :=
  if (size <? SIZEOF_HEADER) || (MIB64 <? size) then inl K_ENOEXEC
  else
    let h := read_header r bytes in
    if negb (header_ok r bytes size h) then inl K_ENOEXEC
    else if negb (meta_ok size (meta h)) then inl K_ENOEXEC
    else match read_regions r bytes size h with inl e => inl e | inr regions => inr (h, regions) end.

(** * Relocations and exports *)
Definition reloc_width (r : rief_reloc_t) : Z := if rl_type r =? RIEF_RELOC_REL32 then 4 else 8.
Definition reloc_bad (h : rief_header_t) (regions : list rief_region_t) (first : bool) (last_region last_end : Z) (r : rief_reloc_t) : bool :=
  negb (rl_reserved r =? 0) || (rl_type r <? RIEF_RELOC_ABS64) || (RIEF_RELOC_IMPORT64 <? rl_type r) ||
  (h_region_count h <=? rl_patch_region r) ||
  negb (span_ok (rl_patch_offset r) (reloc_width r) (r_memory_size (regions !!! Z.to_nat (rl_patch_region r)))) ||
  (negb first && ((rl_patch_region r <? last_region) || ((rl_patch_region r =? last_region) && (rl_patch_offset r <? last_end)))) ||
  (if rl_type r =? RIEF_RELOC_IMPORT64 then (h_import_count h <=? rl_target_region r) || negb (rl_target_offset r =? 0)
   else (h_region_count h <=? rl_target_region r) ||
        (r_memory_size (regions !!! Z.to_nat (rl_target_region r)) <? rl_target_offset r)).
Definition reloc_at (r : zmap) (bytes : Z) (h : rief_header_t) (i : Z) : rief_reloc_t :=
  read_reloc r (bytes + h_reloc_table_offset h + i * SIZEOF_RELOC).
Definition relocs_ok (r : zmap) (bytes : Z) (h : rief_header_t) (regions : list rief_region_t) : bool :=
  match for_range 0 (h_reloc_count h) (fun i s =>
          let '(last_region, last_end) := s in
          let x := reloc_at r bytes h i in
          if reloc_bad h regions (i =? 0) last_region last_end x then Exit tt
          else Next (rl_patch_region x, u64 (rl_patch_offset x + reloc_width x))) (0, 0) with
  | Next _ => true
  | Exit _ => false
  end.
Definition export_at (r : zmap) (bytes : Z) (h : rief_header_t) (i : Z) : rief_export_t :=
  read_export r (bytes + h_export_table_offset h + i * SIZEOF_EXPORT).
Definition export_names (r : zmap) (bytes : Z) (h : rief_header_t) (regions : list rief_region_t) : option (list (list Z)) :=
  match for_range 0 (h_export_count h) (fun i names =>
          let x := export_at r bytes h i in
          if (h_region_count h <=? ex_region x) || (r_memory_size (regions !!! Z.to_nat (ex_region x)) <=? ex_offset x) then Exit tt
          else
            match rief_string r bytes h (ex_name_offset x) with
            | None => Exit tt
            | Some s => if bool_decide (s ∈ names) then Exit tt else Next (names ++ [s])
            end) [] with
  | Next names => Some names
  | Exit _ => None
  end.

Section Load.
Context {St : Type} `{PageSource St} (cfg : mmu_config).
Implicit Types m : vm St.

(** [k_rief_binding]: a null name matches nothing. *)
Abbreviation binding := (option (list Z) * Z)%type.
(** The bindings of one symbol. *)
Fixpoint bind_symbol (m : vm St) (a : k_address_space) (symbol : list Z) (bindings : list binding) (found : option Z)
  : vm St * (Z + option Z) :=
  match bindings with
  | [] => (m, inr found)
  | (name, address) :: rest =>
      if bool_decide (name = Some symbol) then
        if bool_decide (found <> None) then (m, inl K_EFAULT)
        else
          match as_check m (Some a) address 1 false with
          | (m, e) => if negb (e =? 0) then (m, inl K_EFAULT) else bind_symbol m a symbol rest (Some address)
          end
      else bind_symbol m a symbol rest found
  end.
Definition import_step (a : k_address_space) (bytes : Z) (h : rief_header_t) (bindings : list binding) (i : Z) (s : vm St * list Z)
  : flow (vm St * list Z) (vm St * Z) :=
  let '(m, imports) := s in
  let imp := read_import (vm_ram m) (bytes + h_import_table_offset h + i * SIZEOF_IMPORT) in
  if negb (im_reserved imp =? 0) then Exit (m, K_ENOEXEC)
  else
    match rief_string (vm_ram m) bytes h (im_name_offset imp) with
    | None => Exit (m, K_ENOEXEC)
    | Some symbol =>
        match bind_symbol m a symbol bindings None with
        | (m, inl e) => Exit (m, e)
        | (m, inr None) => Exit (m, K_ENOENT)
        | (m, inr (Some address)) => Next (m, imports ++ [address])
        end
    end.

(** [as_copy] towards the space; the bytes are read before the copy, which
    writes to the space's own frames only. *)
Definition put (m : vm St) (a : k_address_space) (u : Z) (data : list Z) : vm St * Z :=
  default (m, K_EFAULT) (as_copy_in m (Some a) u data true).
Definition bytes_at (r : zmap) (p n : Z) : list Z := map (fun i => zget r (p + Z.of_nat i)) (seq 0 (Z.to_nat n)).
Definition le_bytes (v n : Z) : list Z := map (fun i => u8 (Z.shiftr v (8 * Z.of_nat i))) (seq 0 (Z.to_nat n)).

(** Allocate and fill region [i]; [placed] are the bases and sizes so far. *)
Definition place_step (bytes : Z) (regions : list rief_region_t) (i : Z) (s : vm St * k_address_space * list (Z * Z))
  : flow (vm St * k_address_space * list (Z * Z)) (vm St * k_address_space * Z) :=
  let '(m, a, placed) := s in
  let g := regions !!! Z.to_nat i in
  match as_alloc cfg m (Some a) (r_memory_size g) (r_alignment g) (r_flags g) true with
  | (m, a', inl e) => Exit (m, default a a', e)
  | (m, a', inr base) =>
      let a := default a a' in
      match put m a base (bytes_at (vm_ram m) (bytes + r_file_offset g) (r_file_size g)) with
      | (m, e) => if negb (e =? 0) then Exit (m, a, e) else Next (m, a, placed ++ [(base, r_memory_size g)])
      end
  end.
(** [target + addend] without wrap-around. *)
Definition add_signed (target addend : Z) : option Z :=
  if 0 <=? addend then if 2 ^ 64 - 1 - target <? addend then None else Some (target + addend)
  else if target <? - addend then None else Some (target + addend).
Definition base_of (placed : list (Z * Z)) (i : Z) : Z := fst (placed !!! Z.to_nat i).
Definition size_of (placed : list (Z * Z)) (i : Z) : Z := snd (placed !!! Z.to_nat i).
Definition reloc_step (a : k_address_space) (bytes : Z) (h : rief_header_t) (imports : list Z) (placed : list (Z * Z)) (i : Z) (m : vm St)
  : flow (vm St) (vm St * Z) :=
  let r := reloc_at (vm_ram m) bytes h i in
  let import := rl_type r =? RIEF_RELOC_IMPORT64 in
  let target := if import then imports !!! Z.to_nat (rl_target_region r)
                else u64 (base_of placed (rl_target_region r) + rl_target_offset r) in
  match add_signed target (rl_addend r) with
  | None => Exit (m, K_ENOEXEC)
  | Some target =>
      if (target <? K_USER_BASE) || (K_USER_LIMIT <=? target) then Exit (m, K_ENOEXEC)
      else if negb import && ((target <? base_of placed (rl_target_region r)) ||
                              (size_of placed (rl_target_region r) <? target - base_of placed (rl_target_region r)))
      then Exit (m, K_ENOEXEC)
      else
        let '(m, e) := if import then as_check m (Some a) target 1 false else (m, 0) in
        if negb (e =? 0) then Exit (m, K_EFAULT)
        else
          let patch := u64 (base_of placed (rl_patch_region r) + rl_patch_offset r) in
          let width := reloc_width r in
          let relative := (rl_type r =? RIEF_RELOC_REL32) || (rl_type r =? RIEF_RELOC_REL64) in
          let delta := s64 target - s64 (patch + width) in
          if relative && (width =? 4) && ((delta <? - 2147483648) || (2147483647 <? delta)) then Exit (m, K_ENOEXEC)
          else
            match put m a patch (le_bytes (if relative then u64 delta else target) width) with
            | (m, e) => if negb (e =? 0) then Exit (m, e) else Next m
            end
  end.
(** The part that can roll back: regions, then relocations. *)
Definition rief_commit (m : vm St) (a : k_address_space) (bytes : Z) (h : rief_header_t) (regions : list rief_region_t) (imports : list Z)
  : vm St * k_address_space * (Z + list (Z * Z)) :=
  match for_range 0 (h_region_count h) (place_step bytes regions) (m, a, []) with
  | Exit (m, a', e) => let '(m, a') := as_rollback m a' (as_next a) (as_pages a) in (m, a', inl e)
  | Next (m, a', placed) =>
      match for_range 0 (h_reloc_count h) (reloc_step a' bytes h imports placed) m with
      | Exit (m, e) => let '(m, a') := as_rollback m a' (as_next a) (as_pages a) in (m, a', inl e)
      | Next m => (m, a', inr placed)
      end
  end.
Definition export_addresses (r : zmap) (bytes : Z) (h : rief_header_t) (placed : list (Z * Z)) (names : list (list Z)) : list (list Z * Z) :=
  imap (fun i name => let x := export_at r bytes h (Z.of_nat i) in (name, u64 (base_of placed (ex_region x) + ex_offset x))) names.

(** [a] is the process's space; [bindings] is [None] for a null pointer. *)
Definition rief_load_locked (m : vm St) (p : k_process) (a : k_address_space) (image size : Z)
    (bindings : option (list binding)) (binding_count : Z) : vm St * k_process * k_address_space * Z :=
  if negb (p_used p) || p_loaded p || negb (p_task_id p =? 0) || (image =? 0) ||
     (negb (binding_count =? 0) && bool_decide (bindings = None)) || (64 <? binding_count)
  then (m, p, a, K_EINVAL)
  else
    match rief_layout (vm_ram m) image size with
    | inl e => (m, p, a, e)
    | inr (h, regions) =>
        match for_range 0 (h_import_count h) (import_step a image h (take (Z.to_nat binding_count) (default [] bindings))) (m, []) with
        | Exit (m, e) => (m, p, a, e)
        | Next (m, imports) =>
            if negb (relocs_ok (vm_ram m) image h regions) then (m, p, a, K_ENOEXEC)
            else
              match export_names (vm_ram m) image h regions with
              | None => (m, p, a, K_ENOEXEC)
              | Some names =>
                  match rief_commit m a image h regions imports with
                  | (m, a, inl e) => (m, p <| p_regions := [] |> <| p_exports := [] |>, a, e)
                  | (m, a, inr placed) =>
                      (m, p <| p_regions := placed |> <| p_exports := export_addresses (vm_ram m) image h placed names |>
                            <| p_entry := u64 (base_of placed (h_entry_region h) + h_entry_offset h) |> <| p_loaded := true |>, a, 0)
                  end
              end
        end
    end.
Definition k_rief_export (p : k_process) (symbol : option (list Z)) (address : bool) : Z + Z :=
  match symbol with
  | Some s =>
      if negb (p_used p) || negb (p_loaded p) || negb address then inl K_EINVAL
      else match list_find (fun x => fst x = s) (p_exports p) with Some (_, (_, v)) => inr v | None => inl K_ENOENT end
  | None => inl K_EINVAL
  end.
End Load.
