(* ===== verification/RiefSpec.v ===== *)
(** What the RIEF loader accepts, declaratively, and that the checks of
    [Rief.rief_layout], [Rief.relocs_ok] and [Rief.export_names] decide it. *)
From S2P Require Import Prelude Klib Pmm PageAlloc State Mmu MmuProps Rief.

(** * Spans of the file *)
Definition disjoint (x y : Z * Z) : Prop := snd x = 0 \/ snd y = 0 \/ fst x + snd x <= fst y \/ fst y + snd y <= fst x.
Definition inside (size : Z) (x : Z * Z) : Prop := 0 <= fst x /\ 0 <= snd x /\ fst x + snd x <= size.
Lemma overlaps_false size x y : size <= MIB64 -> inside size x -> inside size y -> overlaps x y = false <-> disjoint x y.
Proof.
  unfold inside, overlaps, disjoint, MIB64. intros Hs (Hx1 & Hx2 & Hx3) (Hy1 & Hy2 & Hy3).
  destruct (overlap (fst x) (snd x) (fst y) (snd y)) eqn:Ho.
  - split; [done|]. pose proof (proj1 (overlap_spec (fst x) (snd x) (fst y) (snd y) Hx1 Hy1 Hx2 Hy2 ltac:(lia) ltac:(lia)) Ho) as (z & Hz1 & Hz2). lia.
  - split; [intros _|done]. unfold overlap, u64 in Ho. rewrite !Z.mod_small in Ho by lia. reflect_bools. lia.
Qed.
Lemma disjoint_sym x y : disjoint x y -> disjoint y x.
Proof. unfold disjoint. tauto. Qed.
Lemma span_inside off n size : 0 <= off -> 0 <= n -> span_ok off n size = true <-> inside size (off, n).
Proof. intros Ho Hn. rewrite span_ok_spec. unfold inside. cbn [fst snd]. lia. Qed.

(** * Well-formed images *)
Definition header_fields (size : Z) (h : rief_header_t) : Prop :=
  h_magic h = RIEF_MAGIC /\ h_version_major h = 1 /\ h_version_minor h = 0 /\ h_architecture h = RIEF_ARCH_X86_64 /\
  h_flags h = 0 /\ h_reserved h = 0 /\ SIZEOF_HEADER <= h_header_size h <= 4096 /\ h_header_size h <= size /\
  1 <= h_region_count h <= MAX_REGIONS /\ h_reloc_count h <= 4096 /\ h_import_count h <= 64 /\ h_export_count h <= MAX_EXPORTS /\
  h_entry_region h < h_region_count h.
Record region_good (size : Z) (g : rief_region_t) : Prop := {
  rg_memory : 0 < r_memory_size g <= MIB64;
  rg_file : r_file_size g <= r_memory_size g;
  rg_inside : inside size (file_span g);
  rg_align : exists k, 0 <= k <= 30 /\ r_alignment g = 2 ^ k;
  rg_rights : bad_rights (r_flags g) = false
}.
Definition pages_of (regions : list rief_region_t) : Z := foldr Z.add 0 (map (fun g => ALIGN_UP (r_memory_size g) 4096) regions).
Definition region_at (r : zmap) (bytes : Z) (h : rief_header_t) (i : Z) : rief_region_t :=
  read_region r (bytes + h_region_table_offset h + i * SIZEOF_REGION).
Definition regions_upto (r : zmap) (bytes : Z) (h : rief_header_t) (n : Z) : list rief_region_t :=
  map (fun i => region_at r bytes h (Z.of_nat i)) (seq 0 (Z.to_nat n)).
Record rief_wellformed (r : zmap) (bytes size : Z) (h : rief_header_t) (regions : list rief_region_t) : Prop := {
  wf_size : SIZEOF_HEADER <= size <= MIB64;
  wf_header : h = read_header r bytes;
  wf_fields : header_fields size h;
  wf_padding : forall i, SIZEOF_HEADER <= i < h_header_size h -> zget r (bytes + i) = 0;
  wf_meta : forall i, 0 <= i < 6 -> inside size (meta h !!! Z.to_nat i) /\
    (snd (meta h !!! Z.to_nat i) = 0 -> fst (meta h !!! Z.to_nat i) = 0) /\
    (0 < i < 5 -> fst (meta h !!! Z.to_nat i) mod 8 = 0) /\
    (forall j, 0 <= j < i -> disjoint (meta h !!! Z.to_nat i) (meta h !!! Z.to_nat j));
  wf_regions : regions = regions_upto r bytes h (h_region_count h);
  wf_region : forall i, 0 <= i < h_region_count h -> region_good size (region_at r bytes h i) /\
    (forall j, 0 <= j < 6 -> disjoint (file_span (region_at r bytes h i)) (meta h !!! Z.to_nat j)) /\
    (forall j, 0 <= j < i -> disjoint (file_span (region_at r bytes h i)) (file_span (region_at r bytes h j)));
  wf_budget : pages_of regions <= MIB64;
  wf_entry : has (r_flags (region_at r bytes h (h_entry_region h))) RIEF_REGION_X = true /\
    h_entry_offset h < r_file_size (region_at r bytes h (h_entry_region h))
}.
Lemma regions_upto_lookup r bytes h n i : 0 <= i < n -> regions_upto r bytes h n !!! Z.to_nat i = region_at r bytes h i.
Proof.
  intros Hi. unfold regions_upto. apply list_lookup_total_correct. rewrite list_lookup_fmap, lookup_seq_lt by lia. cbn. do 2 f_equal. lia.
Qed.
Lemma regions_upto_S r bytes h n : 0 <= n -> regions_upto r bytes h (n + 1) = regions_upto r bytes h n ++ [region_at r bytes h n].
Proof.
  intros Hn. unfold regions_upto. replace (Z.to_nat (n + 1)) with (S (Z.to_nat n)) by lia. rewrite seq_S, map_app. cbn. do 3 f_equal. lia.
Qed.
Lemma pages_of_app l g : pages_of (l ++ [g]) = pages_of l + ALIGN_UP (r_memory_size g) 4096.
Proof. induction l as [|x l IH]; cbn; [lia|]. unfold pages_of in *. cbn. lia. Qed.

(** * The layout checks decide well-formedness *)
Section Layout.
Context (r : zmap) (bytes size : Z).
Hypothesis Hr : bytes_ok r.
Hypothesis Hsize : SIZEOF_HEADER <= size <= MIB64.
Let h : rief_header_t := read_header r bytes.
Lemma header_range : is_u32 (h_magic h) /\ is_u32 (h_header_size h) /\ is_u32 (h_region_count h) /\ is_u32 (h_reloc_count h) /\
  is_u32 (h_import_count h) /\ is_u32 (h_export_count h) /\ is_u64 (h_region_table_offset h) /\ is_u64 (h_reloc_table_offset h) /\
  is_u64 (h_import_table_offset h) /\ is_u64 (h_export_table_offset h) /\ is_u64 (h_string_table_offset h) /\
  is_u64 (h_string_table_size h) /\ is_u32 (h_entry_region h) /\ is_u64 (h_entry_offset h).
Proof. split_and!; first [by apply rd32_range|by apply rd64_range]. Qed.
Lemma header_ok_spec : header_ok r bytes size h = true <->
  header_fields size h /\ forall i, SIZEOF_HEADER <= i < h_header_size h -> zget r (bytes + i) = 0.
Proof.
  pose proof header_range as (H1 & H2 & H3 & H4 & H5 & H6 & _ & _ & _ & _ & _ & _ & H7 & _). unfold is_u32 in *.
  unfold header_ok. rewrite andb_true_iff, all_range_spec, negb_true_iff, !orb_false_iff, !negb_false_iff, !Z.eqb_eq, !Z.ltb_ge, Z.leb_gt, Z.eqb_neq.
  unfold header_fields. setoid_rewrite Z.eqb_eq. split; intros (Hf & Hp); (split; [|exact Hp]); lia.
Qed.
Definition meta_at (i : Z) : Z * Z := meta h !!! Z.to_nat i.
Lemma meta_nonneg i : header_fields size h -> 0 <= i < 6 -> 0 <= fst (meta_at i) < 2 ^ 64 /\ 0 <= snd (meta_at i) < 2 ^ 64.
Proof.
  intros Hf Hi. pose proof header_range as (H1 & H2 & H3 & H4 & H5 & H6 & H7 & H8 & H9 & H10 & H11 & H12 & _).
  unfold header_fields, MAX_REGIONS, MAX_EXPORTS in Hf. unfold is_u32, is_u64 in *. unfold meta_at. clearbody h.
  assert (i = 0 \/ i = 1 \/ i = 2 \/ i = 3 \/ i = 4 \/ i = 5) as Hc by lia.
  unfold meta, SIZEOF_REGION, SIZEOF_RELOC, SIZEOF_IMPORT, SIZEOF_EXPORT.
  destruct Hc as [-> |[-> |[-> |[-> |[-> | ->]]]]]; rewrite list_lookup_total_alt; simpl; lia.
Qed.
Definition meta_good : Prop := forall i, 0 <= i < 6 -> inside size (meta_at i) /\
  (snd (meta_at i) = 0 -> fst (meta_at i) = 0) /\ (0 < i < 5 -> fst (meta_at i) mod 8 = 0) /\
  (forall j, 0 <= j < i -> disjoint (meta_at i) (meta_at j)).
Lemma meta_test i : header_fields size h -> 0 <= i < 6 ->
  span_ok (fst (meta_at i)) (snd (meta_at i)) size && negb ((snd (meta_at i) =? 0) && negb (fst (meta_at i) =? 0)) &&
  negb ((0 <? i) && (i <? 5) && negb (Z.land (fst (meta_at i)) 7 =? 0)) = true <->
  inside size (meta_at i) /\ (snd (meta_at i) = 0 -> fst (meta_at i) = 0) /\ (0 < i < 5 -> fst (meta_at i) mod 8 = 0).
Proof.
  intros Hf Hi. destruct (meta_nonneg i Hf Hi) as [Ho Hl]. rewrite !andb_true_iff, span_inside by lia.
  rewrite <- (surjective_pairing (meta_at i)). change 7 with (Z.ones 3). rewrite Z.land_ones by lia. change (2 ^ 3) with 8.
  rewrite !negb_true_iff, !andb_false_iff, !negb_false_iff, !Z.eqb_neq, !Z.eqb_eq, !Z.ltb_ge. intuition lia.
Qed.
Lemma meta_ok_spec : header_fields size h -> meta_ok size (meta h) = true <-> meta_good.
Proof.
  intros Hf. unfold meta_ok. cbv zeta. rewrite all_range_spec.
  assert (forall i j, inside size (meta_at i) -> inside size (meta_at j) -> negb (overlaps (meta_at i) (meta_at j)) = true <-> disjoint (meta_at i) (meta_at j)) as Ho.
  { intros i j Hi Hj. rewrite negb_true_iff. apply (overlaps_false size); [lia|exact Hi|exact Hj]. }
  split; intros Hall.
  - assert (forall i, 0 <= i < 6 -> inside size (meta_at i) /\ (snd (meta_at i) = 0 -> fst (meta_at i) = 0) /\ (0 < i < 5 -> fst (meta_at i) mod 8 = 0)) as Ht.
    { intros i Hi. specialize (Hall i Hi). apply andb_prop in Hall as [Hall _]. apply meta_test; [exact Hf|exact Hi|exact Hall]. }
    intros i Hi. destruct (Ht i Hi) as (H1 & H2 & H3). split_and!; try done. intros j Hj.
    specialize (Hall i Hi). apply andb_prop in Hall as [_ Hd]. rewrite all_range_spec in Hd. apply Ho; [exact H1|apply Ht; lia|apply Hd; exact Hj].
  - intros i Hi. destruct (Hall i Hi) as (H1 & H2 & H3 & H4). apply andb_true_intro. split; [apply meta_test; [exact Hf|exact Hi|split_and!; assumption]|].
    rewrite all_range_spec. intros j Hj. apply Ho; [exact H1|apply Hall; lia|apply H4; exact Hj].
Qed.
Definition region_ok (i : Z) : Prop := region_good size (region_at r bytes h i) /\
  (forall j, 0 <= j < 6 -> disjoint (file_span (region_at r bytes h i)) (meta_at j)) /\
  (forall j, 0 <= j < i -> disjoint (file_span (region_at r bytes h i)) (file_span (region_at r bytes h j))).
Lemma region_range p : is_u32 (r_flags (read_region r p)) /\ is_u32 (r_alignment (read_region r p)) /\
  is_u64 (r_file_offset (read_region r p)) /\ is_u64 (r_file_size (read_region r p)) /\ is_u64 (r_memory_size (read_region r p)).
Proof. split_and!; first [by apply rd32_range|by apply rd64_range]. Qed.
Lemma region_bad_spec p : region_bad size (read_region r p) = false <-> region_good size (read_region r p).
Proof.
  destruct (region_range p) as (H1 & H2 & H3 & H4 & H5). set (g := read_region r p) in *. clearbody g. unfold is_u32, is_u64 in *.
  unfold region_bad. rewrite !orb_false_iff, !negb_false_iff, !Z.ltb_ge, Z.eqb_neq, span_inside by lia.
  assert (power2 (r_alignment g) = true /\ r_alignment g <= 0x40000000 <-> exists k, 0 <= k <= 30 /\ r_alignment g = 2 ^ k) as Hal.
  { rewrite power2_spec by (unfold is_u64; lia). split.
    - intros [(k & Hk & E) Hle]. exists k. split; [|done]. rewrite E in Hle. change 0x40000000 with (2 ^ 30) in Hle. apply Z.pow_le_mono_r_iff in Hle; lia.
    - intros (k & Hk & E). split; [exists k; split; [lia|done]|]. rewrite E. change 0x40000000 with (2 ^ 30). apply Z.pow_le_mono_r; lia. }
  assert ((Z.land (r_flags g) 6 =? 6) = (Z.land (r_flags g) (Z.lor RIEF_REGION_W RIEF_REGION_X) =? Z.lor RIEF_REGION_W RIEF_REGION_X)) as Hwx by done.
  split.
  - intros [[[[[[[[A B] C] D] E] F] G] I] J]. split; [lia|done|done|by apply Hal|]. unfold bad_rights. rewrite <- Hwx, J, orb_false_r.
    apply orb_false_iff. split; [apply negb_false_iff; exact G|apply negb_false_iff; exact I].
  - intros [A B C D E]. apply Hal in D as [D1 D2]. unfold bad_rights in E. rewrite <- Hwx, !orb_false_iff, !negb_false_iff in E. destruct E as [[E1 E2] E3].
    split_and!; done || lia.
Qed.
Lemma align_up_nonneg x a : 0 <= ALIGN_UP x a.
Proof. unfold ALIGN_UP. apply Z.land_nonneg. left. apply Z.mod_pos_bound. lia. Qed.
Lemma pages_mono n k : 0 <= n -> 0 <= k -> pages_of (regions_upto r bytes h n) <= pages_of (regions_upto r bytes h (n + k)).
Proof.
  intros Hn Hk. pattern k. apply natlike_ind; [by rewrite Z.add_0_r| |done]. clear k Hk. intros k Hk IH.
  replace (n + Z.succ k) with (n + k + 1) by lia. rewrite regions_upto_S, pages_of_app by lia.
  pose proof (align_up_nonneg (r_memory_size (region_at r bytes h (n + k))) 4096). lia.
Qed.
Definition regions_good : Prop :=
  (forall i, 0 <= i < h_region_count h -> region_ok i) /\ pages_of (regions_upto r bytes h (h_region_count h)) <= MIB64.
Lemma region_step_spec i l total : header_fields size h -> meta_good -> 0 <= i < h_region_count h ->
  l = regions_upto r bytes h i -> total = pages_of l -> 0 <= total <= MIB64 -> (forall k, 0 <= k < i -> region_ok k) ->
  match region_step r bytes size h i (l, total) with
  | Next (l', total') => l' = regions_upto r bytes h (i + 1) /\ total' = pages_of l' /\ 0 <= total' <= MIB64 /\ forall k, 0 <= k < i + 1 -> region_ok k
  | Exit _ => ~ regions_good
  end.
Proof.
  intros Hf Hmeta Hi -> -> Ht Hok. unfold region_step. fold (region_at r bytes h i).
  destruct (region_bad size (region_at r bytes h i)) eqn:Hb.
  { intros [Hg _]. destruct (Hg i Hi) as [Hgi _]. apply region_bad_spec in Hgi. unfold region_at in Hb. congruence. }
  apply region_bad_spec in Hb. fold (region_at r bytes h i) in Hb. pose proof (rg_memory _ _ Hb) as Hm. unfold MIB64 in Hm.
  assert (u64 (pages_of (regions_upto r bytes h i) + ALIGN_UP (r_memory_size (region_at r bytes h i)) 4096) = pages_of (regions_upto r bytes h (i + 1))) as ->.
  { rewrite regions_upto_S, pages_of_app by lia. apply Z.mod_small. unfold MIB64 in Ht. rewrite align_up_page by lia. dlia. }
  destruct (Z.ltb_spec MIB64 (pages_of (regions_upto r bytes h (i + 1)))) as [Hbig|Hfit].
  { intros [_ Hg]. pose proof (pages_mono (i + 1) (h_region_count h - (i + 1)) ltac:(lia) ltac:(lia)) as Hmono.
    replace (i + 1 + (h_region_count h - (i + 1))) with (h_region_count h) in Hmono by lia. lia. }
  destruct (any_range 0 6 _) eqn:Hm6.
  { apply any_range_spec in Hm6 as (j & Hj & Ho). intros [Hg _]. destruct (Hg i Hi) as (_ & Hd & _).
    assert (overlaps (file_span (region_at r bytes h i)) (meta_at j) = false) as Hno
      by (apply (overlaps_false size); [lia|apply Hb|apply Hmeta; exact Hj|apply Hd; exact Hj]). unfold meta_at in Hno. congruence. }
  destruct (any_range 0 i _) eqn:Hmi.
  { apply any_range_spec in Hmi as (j & Hj & Ho). intros [Hg _]. destruct (Hg i Hi) as (_ & _ & Hd). rewrite regions_upto_lookup in Ho by lia.
    assert (overlaps (file_span (region_at r bytes h i)) (file_span (region_at r bytes h j)) = false) as Hno
      by (apply (overlaps_false size); [lia|apply Hb|apply Hok; exact Hj|apply Hd; exact Hj]). congruence. }
  split_and!.
  - by rewrite regions_upto_S by lia.
  - by rewrite regions_upto_S by lia.
  - pose proof (align_up_nonneg (r_memory_size (region_at r bytes h i)) 4096). rewrite regions_upto_S, pages_of_app by lia. lia.
  - done.
  - intros k Hk. destruct (Z.eq_dec k i) as [->|]; [|apply Hok; lia]. split; [done|]. split.
    + intros j Hj. apply (overlaps_false size); [lia|apply Hb|apply Hmeta; exact Hj|]. destruct (overlaps _ _) eqn:Ho; [|done].
      assert (any_range 0 6 (fun j => overlaps (file_span (region_at r bytes h i)) (meta h !!! Z.to_nat j)) = true) as Hx by (apply any_range_spec; by exists j).
      congruence.
    + intros j Hj. apply (overlaps_false size); [lia|apply Hb|apply Hok; exact Hj|]. destruct (overlaps _ _) eqn:Ho; [|done].
      assert (any_range 0 i (fun j => overlaps (file_span (region_at r bytes h i)) (file_span (regions_upto r bytes h i !!! Z.to_nat j))) = true) as Hx
        by (apply any_range_spec; exists j; split; [exact Hj|by rewrite regions_upto_lookup by lia]).
      congruence.
Qed.
Definition entry_good : Prop :=
  has (r_flags (region_at r bytes h (h_entry_region h))) RIEF_REGION_X = true /\
  h_entry_offset h < r_file_size (region_at r bytes h (h_entry_region h)).
Lemma read_regions_spec : header_fields size h -> meta_good ->
  match read_regions r bytes size h with
  | inr regions => regions = regions_upto r bytes h (h_region_count h) /\ regions_good /\ entry_good
  | inl _ => ~ (regions_good /\ entry_good)
  end.
Proof.
  intros Hf Hm. unfold read_regions. pose proof header_range as (_ & _ & Hn & _ & _ & _ & _ & _ & _ & _ & _ & _ & He & _). unfold is_u32 in *.
  pose proof (for_range_inv (fun i s => fst s = regions_upto r bytes h i /\ snd s = pages_of (fst s) /\ 0 <= snd s <= MIB64 /\ forall k, 0 <= k < i -> region_ok k)
    (fun _ => ~ regions_good) (region_step r bytes size h) 0 (h_region_count h) ([], 0) ltac:(lia)) as Hinv.
  destruct (for_range 0 (h_region_count h) (region_step r bytes size h) ([], 0)) as [[l total]|e].
  - cbn [fst snd] in Hinv. destruct Hinv as (-> & Ht & Hle & Hok).
    { do 2 (split; [reflexivity|]). split; [unfold MIB64; lia|]. intros k Hk. lia. }
    { intros i [l' t'] Hi (H1 & H2 & H3 & H4). cbn [fst snd] in *. pose proof (region_step_spec i l' t' Hf Hm Hi H1 H2 H3 H4) as Hs.
      destruct (region_step r bytes size h i (l', t')) as [[l2 t2]|]; exact Hs. }
    rewrite regions_upto_lookup by (unfold header_fields in Hf; lia).
    assert (regions_good) as Hg by (split; [exact Hok|rewrite <- Ht; lia]).
    destruct (negb _ || _) eqn:He2.
    + intros [_ [He3 He4]]. rewrite He3 in He2. cbn [negb orb] in He2. apply Z.leb_le in He2. lia.
    + apply orb_false_iff in He2 as [He2 He3]. apply negb_false_iff in He2. apply Z.leb_gt in He3. done.
  - intros [Hg _]. revert Hg. apply Hinv; [do 2 (split; [reflexivity|]); cbn [snd]; split; [unfold MIB64; lia|intros k Hk; lia]|].
    intros i [l' t'] Hi (H1 & H2 & H3 & H4). cbn [fst snd] in *. pose proof (region_step_spec i l' t' Hf Hm Hi H1 H2 H3 H4) as Hs.
    destruct (region_step r bytes size h i (l', t')) as [[l2 t2]|]; exact Hs.
Qed.
End Layout.

(** * Relocations *)
Definition patch_span (x : rief_reloc_t) : Z * Z := (rl_patch_offset x, reloc_width x).
Record reloc_good (h : rief_header_t) (regions : list rief_region_t) (x : rief_reloc_t) : Prop := {
  rk_reserved : rl_reserved x = 0;
  rk_type : 1 <= rl_type x <= 4;
  rk_region : rl_patch_region x < h_region_count h;
  rk_inside : inside (r_memory_size (regions !!! Z.to_nat (rl_patch_region x))) (patch_span x);
  rk_target : if rl_type x =? RIEF_RELOC_IMPORT64 then rl_target_region x < h_import_count h /\ rl_target_offset x = 0
              else rl_target_region x < h_region_count h /\ rl_target_offset x <= r_memory_size (regions !!! Z.to_nat (rl_target_region x))
}.
(** Patches come in order of region and offset and never overlap. *)
Definition patch_before (x y : rief_reloc_t) : Prop :=
  rl_patch_region x < rl_patch_region y \/
  (rl_patch_region x = rl_patch_region y /\ rl_patch_offset x + reloc_width x <= rl_patch_offset y).
Section Relocs.
Context (r : zmap) (bytes : Z) (h : rief_header_t) (regions : list rief_region_t).
Hypothesis Hr : bytes_ok r.
Hypothesis Hcount : 0 <= h_reloc_count h.
Hypothesis Hmem : forall i, 0 <= i < h_region_count h -> r_memory_size (regions !!! Z.to_nat i) <= MIB64.
Abbreviation reloc i := (reloc_at r bytes h i).
Lemma reloc_range i : is_u32 (rl_patch_region (reloc i)) /\ is_u32 (rl_type (reloc i)) /\ is_u32 (rl_target_region (reloc i)) /\
  is_u32 (rl_reserved (reloc i)) /\ is_u64 (rl_patch_offset (reloc i)) /\ is_u64 (rl_target_offset (reloc i)).
Proof. split_and!; first [by apply rd32_range|by apply rd64_range]. Qed.
Lemma width_pos x : 4 <= reloc_width x <= 8.
Proof. unfold reloc_width. destruct (_ =? _); lia. Qed.
Lemma reloc_bad_spec i first lr le : reloc_bad h regions first lr le (reloc i) = false <->
  reloc_good h regions (reloc i) /\
  (first = false -> lr < rl_patch_region (reloc i) \/ (lr = rl_patch_region (reloc i) /\ le <= rl_patch_offset (reloc i))).
Proof.
  destruct (reloc_range i) as (H1 & H2 & H3 & H4 & H5 & H6). set (x := reloc i) in *. clearbody x. unfold is_u32, is_u64 in *.
  pose proof (width_pos x) as Hwx. unfold reloc_bad. rewrite !orb_false_iff, !negb_false_iff, !Z.eqb_eq, !Z.ltb_ge, Z.leb_gt, span_inside by lia.
  assert ((if rl_type x =? RIEF_RELOC_IMPORT64 then (h_import_count h <=? rl_target_region x) || negb (rl_target_offset x =? 0)
     else (h_region_count h <=? rl_target_region x) || (r_memory_size (regions !!! Z.to_nat (rl_target_region x)) <? rl_target_offset x)) = false <->
     if rl_type x =? RIEF_RELOC_IMPORT64 then rl_target_region x < h_import_count h /\ rl_target_offset x = 0
     else rl_target_region x < h_region_count h /\ rl_target_offset x <= r_memory_size (regions !!! Z.to_nat (rl_target_region x))) as Ht
    by (destruct (rl_type x =? RIEF_RELOC_IMPORT64); rewrite orb_false_iff, Z.leb_gt, ?negb_false_iff, ?Z.eqb_eq, ?Z.ltb_ge; done).
  assert (negb first && ((rl_patch_region x <? lr) || ((rl_patch_region x =? lr) && (rl_patch_offset x <? le))) = false <->
    (first = false -> lr < rl_patch_region x \/ (lr = rl_patch_region x /\ le <= rl_patch_offset x))) as Hord.
  { destruct first; cbn [negb andb]; [by split|]. rewrite orb_false_iff, andb_false_iff, Z.ltb_ge, Z.eqb_neq, Z.ltb_ge.
    split; [intros Hl _; lia|intros Hl; specialize (Hl eq_refl); lia]. }
  rewrite Ht, Hord. unfold RIEF_RELOC_ABS64, RIEF_RELOC_IMPORT64. split.
  - intros [[[[[[A B] C] D] E] F] G]. split; [split; try done; lia|done].
  - intros [[A B C D E] F]. split_and!; (done || lia).
Qed.
Definition relocs_good : Prop := (forall i, 0 <= i < h_reloc_count h -> reloc_good h regions (reloc i)) /\
  (forall i, 0 <= i -> i + 1 < h_reloc_count h -> patch_before (reloc i) (reloc (i + 1))).
Lemma reloc_end i : reloc_good h regions (reloc i) -> 0 <= rl_patch_region (reloc i) -> rl_patch_offset (reloc i) + reloc_width (reloc i) < 2 ^ 63.
Proof.
  intros G H0. pose proof (rk_region _ _ _ G) as Hreg. pose proof (rk_inside _ _ _ G) as (_ & _ & Hi). cbn [fst snd patch_span] in Hi.
  pose proof (Hmem (rl_patch_region (reloc i)) ltac:(lia)) as Hm. unfold MIB64 in Hm. lia.
Qed.
(** The loop has checked the first [i] relocations. *)
Definition relocs_upto (i : Z) (s : Z * Z) : Prop :=
  (forall k, 0 <= k < i -> reloc_good h regions (reloc k)) /\
  (forall k, 0 <= k -> k + 1 < i -> patch_before (reloc k) (reloc (k + 1))) /\
  (0 < i -> fst s = rl_patch_region (reloc (i - 1)) /\ snd s = rl_patch_offset (reloc (i - 1)) + reloc_width (reloc (i - 1))).
Definition reloc_check (i : Z) (s : Z * Z) : flow (Z * Z) unit :=
  let '(last_region, last_end) := s in
  let x := reloc_at r bytes h i in
  if reloc_bad h regions (i =? 0) last_region last_end x then Exit tt
  else Next (rl_patch_region x, u64 (rl_patch_offset x + reloc_width x)).
Lemma reloc_check_spec i s : 0 <= i < h_reloc_count h -> relocs_upto i s ->
  match reloc_check i s with Next s' => relocs_upto (i + 1) s' | Exit _ => ~ relocs_good end.
Proof.
  intros Hi (H1 & H2 & H3). destruct s as [lr le]. cbn [fst snd] in H3. unfold reloc_check.
  destruct (reloc_bad h regions (i =? 0) lr le (reloc i)) eqn:Hb.
  - intros [Hg Ho].
    assert (reloc_bad h regions (i =? 0) lr le (reloc i) = false) as Hgood.
    { apply reloc_bad_spec. split; [by apply Hg|]. intros Hz. apply Z.eqb_neq in Hz. destruct (H3 ltac:(lia)) as [-> ->].
      specialize (Ho (i - 1) ltac:(lia) ltac:(lia)). replace (i - 1 + 1) with i in Ho by lia. exact Ho. }
    congruence.
  - apply reloc_bad_spec in Hb as [Hg Ho]. destruct (reloc_range i) as (Hpr & _). unfold is_u32 in Hpr.
    pose proof (reloc_end i Hg ltac:(lia)) as He. pose proof (width_pos (reloc i)) as Hw. pose proof (rk_inside _ _ _ Hg) as (Hoff & _). cbn [fst patch_span] in Hoff.
    split_and!.
    + intros k Hk. destruct (Z.eq_dec k i) as [->|]; [done|apply H1; lia].
    + intros k Hk Hk'. destruct (Z.eq_dec (k + 1) i) as [Hki|]; [|apply H2; lia]. rewrite Hki.
      assert ((i =? 0) = false) as Hz by (apply Z.eqb_neq; lia). specialize (Ho Hz). destruct (H3 ltac:(lia)) as [E1 E2].
      replace k with (i - 1) by lia. unfold patch_before. lia.
    + intros _. cbn [fst snd]. replace (i + 1 - 1) with i by lia. split; [done|]. apply Z.mod_small. lia.
Qed.
Lemma relocs_ok_spec : relocs_ok r bytes h regions = true <-> relocs_good.
Proof.
  unfold relocs_ok. change (for_range 0 (h_reloc_count h) _ (0, 0)) with (for_range 0 (h_reloc_count h) reloc_check (0, 0)).
  assert (relocs_upto 0 (0, 0)) as H0 by (split; [|split]; intros; lia).
  pose proof (for_range_inv relocs_upto (fun _ : unit => ~ relocs_good) reloc_check 0 (h_reloc_count h) (0, 0) Hcount H0 reloc_check_spec) as Hinv.
  destruct (for_range _ _ _ _) as [s|[]]; [|done]. destruct Hinv as (H1 & H2 & _). split; [|done]. intros _. split; [done|].
  intros i Hi Hi'. apply H2; lia.
Qed.
(** Consequently any two patches are disjoint. *)
Lemma patches_ordered : relocs_good -> forall i j, 0 <= i < j -> j < h_reloc_count h -> patch_before (reloc i) (reloc j).
Proof.
  intros [Hg Ho] i j Hij Hj. assert (forall n : nat, i + 1 + Z.of_nat n < h_reloc_count h -> patch_before (reloc i) (reloc (i + 1 + Z.of_nat n))) as Hn.
  { induction n as [|n IH]; intros Hlt; [rewrite Z.add_0_r in *; apply Ho; lia|].
    specialize (IH ltac:(lia)). pose proof (Ho (i + 1 + Z.of_nat n) ltac:(lia) ltac:(lia)) as Hs.
    replace (i + 1 + Z.of_nat n + 1) with (i + 1 + Z.of_nat (S n)) in Hs by lia. pose proof (width_pos (reloc (i + 1 + Z.of_nat n))).
    unfold patch_before in *. lia. }
  specialize (Hn (Z.to_nat (j - i - 1)) ltac:(lia)). by replace (i + 1 + Z.of_nat (Z.to_nat (j - i - 1))) with j in Hn by lia.
Qed.
End Relocs.

(** * The loader as a whole *)
Section LoadSpec.
Context {St : Type} `{PageSource St} (cfg : mmu_config).
Implicit Types m : vm St.

Lemma rief_layout_wf r bytes size h regions : bytes_ok r ->
  rief_layout r bytes size = inr (h, regions) <-> rief_wellformed r bytes size h regions.
Proof.
  intros Hr. unfold rief_layout. destruct (_ || _) eqn:Hsz.
  { split; [done|]. intros [Hs _ _ _ _ _ _ _ _]. reflect_bools. destruct Hsz; reflect_bools; lia. }
  reflect_bools. assert (SIZEOF_HEADER <= size <= MIB64) as Hsize by lia.
  destruct (header_ok r bytes size (read_header r bytes)) eqn:Hh; cbn [negb].
  2: { split; [done|]. intros [_ -> W3 W4 _ _ _ _ _]. rewrite (proj2 (header_ok_spec r bytes size Hr)) in Hh; [done|]. by split. }
  apply header_ok_spec in Hh as [Hf Hpad]; [|done]. pose proof (meta_ok_spec r bytes size Hr Hsize Hf) as Hmeta.
  destruct (meta_ok size (meta (read_header r bytes))) eqn:Hm; cbn [negb].
  2: { split; [done|]. intros [_ -> _ _ W5 _ _ _ _]. discriminate (proj2 Hmeta W5). }
  pose proof (proj1 Hmeta eq_refl) as Hmg. pose proof (read_regions_spec r bytes size Hr Hsize Hf Hmg) as Hreg.
  destruct (read_regions r bytes size (read_header r bytes)) as [e|regions'].
  - split; [done|]. intros [_ -> _ _ _ -> W7 W8 W9]. destruct Hreg. split; [by split|done].
  - destruct Hreg as (-> & (Hok & Hbudget) & Hentry). split.
    + intros [= <- <-]. by split.
    + intros [_ -> _ _ _ -> _ _ _]. done.
Qed.
Lemma region_step_error r bytes size h i s : match region_step r bytes size h i s with Next _ => True | Exit e => e <> 0 end.
Proof.
  destruct s as [l t]. unfold region_step. destruct (region_bad _ _); [done|]. destruct (_ <? _); [done|].
  destruct (any_range 0 6 _); [done|]. by destruct (any_range 0 i _).
Qed.
Lemma layout_error r bytes size e : bytes_ok r -> rief_layout r bytes size = inl e -> e <> 0.
Proof.
  intros Hr. unfold rief_layout. destruct (_ || _); [by intros [= <-]|]. destruct (header_ok _ _ _ _); cbn [negb]; [|by intros [= <-]].
  destruct (meta_ok _ _); cbn [negb]; [|by intros [= <-]]. unfold read_regions. set (h := read_header r bytes).
  pose proof (for_range_inv (fun _ _ => True) (fun e => e <> 0) (region_step r bytes size h) 0 (h_region_count h) ([], 0)) as Hinv.
  specialize (Hinv ltac:(pose proof (header_range r bytes Hr) as Hhr; unfold is_u32 in Hhr; fold h in Hhr; lia) I ltac:(intros; apply region_step_error)).
  destruct (for_range _ _ _ _) as [[l t]|e']; [|by intros [= <-]]. destruct (_ || _); [by intros [= <-]|done].
Qed.

Lemma as_alloc_base m a bytes align rwx m' a' v : is_u64 bytes -> as_alloc cfg m (Some a) bytes align rwx true = (m', a', inr v) ->
  0 <= v /\ 0 < bytes /\ v + bytes <= K_USER_LIMIT.
Proof.
  intros Hb. unfold as_alloc. match goal with |- context [if ?b then _ else _] => destruct b eqn:H1; [done|] end.
  match goal with |- context [if ?b then _ else _] => destruct b eqn:H2; [done|] end.
  match goal with |- context [if ?b then _ else _] => destruct b eqn:H3; [done|] end. cbv zeta. set (al := if align <? 4096 then 4096 else align).
  set (w := ALIGN_UP (as_next a) al). match goal with |- context [if ?b then _ else _] => destruct b eqn:H4; [done|] end.
  destruct (map_pages _ _ _ _ _ _ _) as [[m1 d] e]. destruct (negb (e =? 0)); [done|]. intros [= _ _ <-]. reflect_bools.
  unfold MAX_USER_PAGES, is_u64, K_USER_LIMIT, u64 in *. assert (0 <= w) by apply align_up_nonneg. rewrite Z.mod_small in * by lia.
  rewrite align_up_page in * by lia. dlia.
Qed.
Lemma as_alloc_error m a bytes align rwx m' a' e : as_alloc cfg m (Some a) bytes align rwx true = (m', a', inl e) -> e <> 0.
Proof.
  unfold as_alloc. destruct (_ || bad_rights rwx); [intros He; by simplify_eq|]. destruct (negb (nx cfg)); [intros He; by simplify_eq|].
  destruct (MAX_USER_PAGES * 4096 <? bytes); [intros He; by simplify_eq|]. cbv zeta.
  match goal with |- context [if ?b then (m, Some a, inl K_ENOMEM) else _] => destruct b; [intros He; by simplify_eq|] end.
  destruct (map_pages _ _ _ _ _ _ _) as [[m1 d] x]. destruct (Z.eqb_spec x 0); cbn [negb]; intros He; by simplify_eq.
Qed.
(** ** Placing the regions *)
Definition placed_ok (regions : list rief_region_t) (n : Z) (placed : list (Z * Z)) : Prop :=
  Z.of_nat (length placed) = n /\ forall i, 0 <= i < n ->
    size_of placed i = r_memory_size (regions !!! Z.to_nat i) /\ 0 <= base_of placed i /\ base_of placed i + size_of placed i <= K_USER_LIMIT.
Lemma placed_app regions n placed base : placed_ok regions n placed -> 0 <= n -> 0 <= base ->
  base + r_memory_size (regions !!! Z.to_nat n) <= K_USER_LIMIT ->
  placed_ok regions (n + 1) (placed ++ [(base, r_memory_size (regions !!! Z.to_nat n))]).
Proof.
  intros [Hl Hp] Hn Hb Hm. split; [rewrite length_app; cbn; lia|]. intros i Hi. unfold size_of, base_of.
  destruct (Z.eq_dec i n) as [->|Hne].
  - rewrite lookup_total_app_r by lia. replace (Z.to_nat n - length placed)%nat with 0%nat by lia. done.
  - rewrite lookup_total_app_l by lia. apply Hp. lia.
Qed.
(** [a'] is [a] but for the allocation cursor. *)
Definition restores (a a' : k_address_space) : Prop := a' <| as_next := as_next a |> <| as_pages := as_pages a |> = a.
Lemma restores_refl a : restores a a.
Proof. by destruct a. Qed.
Lemma restores_set a a' x f : restores a a' -> restores a (a' <| as_next := x |> <| as_pages ::= f |>).
Proof. unfold restores. by destruct a'. Qed.
Lemma as_alloc_restores m a0 a bytes align rwx m' a' res : restores a0 a -> as_alloc cfg m (Some a) bytes align rwx true = (m', a', res) ->
  exists a2, a' = Some a2 /\ restores a0 a2.
Proof.
  intros Hr. unfold as_alloc. destruct (_ || bad_rights rwx); [intros He; simplify_eq; by exists a|].
  destruct (negb (nx cfg)); [intros He; simplify_eq; by exists a|].
  destruct (MAX_USER_PAGES * 4096 <? bytes); [intros He; simplify_eq; by exists a|]. cbv zeta.
  match goal with |- context [if ?b then (m, Some a, inl K_ENOMEM) else _] => destruct b; [intros He; simplify_eq; by exists a|] end.
  destruct (map_pages _ _ _ _ _ _ _) as [[m1 d] x]. destruct (negb (x =? 0)); intros He; apply pair_equal_spec in He as [He _];
    apply pair_equal_spec in He as [_ <-]; eexists; (split; [reflexivity|]); [done|by apply restores_set].
Qed.
Lemma place_step_ok bytes regions a i s : is_u64 (r_memory_size (regions !!! Z.to_nat i)) -> 0 <= i ->
  placed_ok regions i (snd s) -> restores a (snd (fst s)) ->
  match place_step cfg bytes regions i s with
  | Next s' => placed_ok regions (i + 1) (snd s') /\ restores a (snd (fst s'))
  | Exit x => snd x <> 0 /\ restores a (snd (fst x))
  end.
Proof.
  destruct s as [[m1 a1] placed]. cbn [fst snd]. intros Hu Hi Hp Hr. unfold place_step.
  destruct (as_alloc _ _ _ _ _ _ _) as [[m2 a2] res] eqn:Ha. destruct (as_alloc_restores _ _ _ _ _ _ _ _ _ Hr Ha) as (a3 & -> & Hr3).
  destruct res as [e|base]; [split; [by apply as_alloc_error in Ha|done]|].
  apply as_alloc_base in Ha as (Hb & _ & Hlim); [|done]. cbn [default]. destruct (put _ _ _ _) as [m3 e].
  destruct (Z.eqb_spec e 0); cbn [negb]; (split; [|done]); [by apply placed_app|done].
Qed.
Lemma place_ok m a bytes regions n : 0 <= n -> (forall i, 0 <= i < n -> is_u64 (r_memory_size (regions !!! Z.to_nat i))) ->
  match for_range 0 n (place_step cfg bytes regions) (m, a, []) with
  | Next (_, a', placed) => placed_ok regions n placed /\ restores a a'
  | Exit (_, a', e) => e <> 0 /\ restores a a'
  end.
Proof.
  intros Hn Hu. pose proof (for_range_inv (fun i s => placed_ok regions i (snd s) /\ restores a (snd (fst s)))
    (fun x : vm St * k_address_space * Z => snd x <> 0 /\ restores a (snd (fst x))) (place_step cfg bytes regions) 0 n (m, a, []) Hn) as Hinv.
  assert (placed_ok regions 0 (snd (m, a, []))) as H0 by (split; [done|]; intros i Hi; lia). specialize (Hinv (conj H0 (restores_refl a))).
  specialize (Hinv ltac:(intros i s Hi [Hp Hr]; by apply place_step_ok; [apply Hu|lia| |])).
  destruct (for_range _ _ _ _) as [[[m1 a1] placed]|[[m1 a1] e]]; exact Hinv.
Qed.
Lemma reloc_step_error a bytes h imports placed i m : match reloc_step a bytes h imports placed i m with Next _ => True | Exit (_, e) => e <> 0 end.
Proof.
  unfold reloc_step. cbv zeta. destruct (add_signed _ _) as [target|]; [|done]. destruct (_ || _); [done|]. destruct (_ && _); [done|].
  destruct (if rl_type _ =? _ then _ else _) as [m1 x]. destruct (negb (x =? 0)); [done|]. destruct (_ && _); [done|].
  destruct (put _ _ _ _) as [m2 e]. destruct (Z.eqb_spec e 0); done.
Qed.
Lemma commit_ok m a bytes h regions imports : 0 <= h_region_count h -> 0 <= h_reloc_count h ->
  (forall i, 0 <= i < h_region_count h -> is_u64 (r_memory_size (regions !!! Z.to_nat i))) ->
  match rief_commit cfg m a bytes h regions imports with
  | (_, a', inl e) => e <> 0 /\ a' = a
  | (_, a', inr placed) => placed_ok regions (h_region_count h) placed /\ restores a a'
  end.
Proof.
  intros Hn Hrl Hu. unfold rief_commit. pose proof (place_ok m a bytes regions (h_region_count h) Hn Hu) as Hp.
  destruct (for_range 0 (h_region_count h) _ _) as [[[m1 a1] placed]|[[m1 a1] e]]; destruct Hp as [Hp Hr].
  - pose proof (for_range_inv (fun _ _ => True) (fun x : vm St * Z => snd x <> 0) (reloc_step a1 bytes h imports placed) 0 (h_reloc_count h) m1 Hrl I) as Hinv.
    specialize (Hinv ltac:(intros i m2 _ _; pose proof (reloc_step_error a1 bytes h imports placed i m2) as He;
      destruct (reloc_step a1 bytes h imports placed i m2) as [|[? ?]]; [done|exact He])).
    destruct (for_range 0 (h_reloc_count h) _ _) as [m2|[m2 e]]; [done|]. unfold as_rollback. done.
  - unfold as_rollback. done.
Qed.
Lemma bind_error a symbol bindings : forall m found m' e, bind_symbol m a symbol bindings found = (m', inl e) -> e <> 0.
Proof.
  induction bindings as [|[name address] rest IH]; intros m found m' e; cbn [bind_symbol]; [done|].
  destruct (bool_decide _); [|apply IH]. destruct (bool_decide _); [by intros [= _ <-]|].
  destruct (as_check m (Some a) address 1 false) as [m1 x]. destruct (negb (x =? 0)); [by intros [= _ <-]|apply IH].
Qed.
Lemma import_step_error a bytes h bindings i s : match import_step a bytes h bindings i s with Next _ => True | Exit (_, e) => e <> 0 end.
Proof.
  destruct s as [m imports]. unfold import_step. destruct (negb _); [done|]. destruct (rief_string _ _ _ _) as [symbol|]; [|done].
  destruct (bind_symbol m a symbol bindings None) as [m1 [e|[address|]]] eqn:Hb; [by apply bind_error in Hb|done|done].
Qed.
(** Without bindings the imports are never resolved. *)
Lemma import_step_none a bytes h i m imports m' r : import_step a bytes h [] i (m, imports) <> Next (m', r).
Proof.
  unfold import_step. destruct (negb _); [done|]. destruct (rief_string _ _ _ _); [|done]. cbn [bind_symbol]. done.
Qed.
Definition patches_ok (r : zmap) (bytes : Z) (h : rief_header_t) (regions : list rief_region_t) : Prop :=
  relocs_good r bytes h regions /\
  forall i j, 0 <= i < j -> j < h_reloc_count h -> patch_before (reloc_at r bytes h i) (reloc_at r bytes h j).


End LoadSpec.

(** * A small image: one executable region, one relocation, one export *)
Definition demo_base : Z := 0x300000.
Definition store (w : Z) (p : Z) (vs : list Z) (r : zmap) : zmap :=
  foldr (fun x r => if w =? 8 then wr64 r (fst x) (snd x) else if w =? 4 then wr32 r (fst x) (snd x) else
                    if w =? 2 then wr16 r (fst x) (snd x) else zput r (fst x) (u8 (snd x)))
    r (imap (fun i v => (p + w * Z.of_nat i, v)) vs).
Definition demo_image : zmap :=
  store 4 demo_base [RIEF_MAGIC] (store 2 (demo_base + 4) [1; 0; 1; 0] (store 4 (demo_base + 12) [96; 1; 1; 0; 1]
  (store 8 (demo_base + 32) [96; 128; 0; 168; 184; 5] (store 8 (demo_base + 88) [4]
  (store 4 (demo_base + 96) [5; 4096] (store 8 (demo_base + 104) [192; 16; 100]
  (store 4 (demo_base + 128) [0; 1; 0; 0] (store 8 (demo_base + 144) [8; 0; 4]
  (store 4 (demo_base + 168) [0; 0] (store 8 (demo_base + 176) [4]
  (store 1 (demo_base + 184) [109; 97; 105; 110] (store 1 (demo_base + 192) [144; 144; 144; 144; 195] ∅)))))))))))).
Lemma store_bytes w p vs r : bytes_ok r -> bytes_ok (store w p vs r).
Proof.
  intros Hr. unfold store. induction (imap _ vs) as [|x l IH]; [done|]. cbn [foldr].
  destruct (w =? 8); [by apply wr64_bytes_ok|]. destruct (w =? 4); [by apply wr32_bytes_ok|].
  destruct (w =? 2); [apply bytes_ok_put; [apply bytes_ok_put; [done|]|]|apply bytes_ok_put; [done|]]; apply Z.mod_pos_bound; lia.
Qed.
Lemma demo_image_bytes : bytes_ok demo_image.
Proof. unfold demo_image. do 13 apply store_bytes. apply bytes_ok_empty. Qed.
Definition demo_process : k_process := process0 <| p_used := true |> <| p_id := 1 |>.
Definition demo_load := rief_load_locked demo_cfg (mk_vm demo_pages demo_image []) demo_process demo_space demo_base 208 None 0.
