(* ===== verification/Disk.v ===== *)
(** Disks as the file systems and the partition parsers see them: the
    operations of [drivers/storage/storage.c] as a class, what they promise of
    the bytes on the disk, and [disk_bytes] of [src/kernel-src/fs/fs.c] (lines
    403-433), which reads any range of bytes sector by sector. *)
From S2P Require Import Prelude Klib.

(** * The operations and their contract *)

(** [disk_ram]: the disk is a volatile one; [disk_flush_command]: it can be
    told to write its cache; [disk_online]: it is still attached. *)
Class Disks (D : Type) := {
  k_disk_count : D -> Z;
  k_disk_get : D -> Z -> Z + list Z;
  disk_sectors : D -> Z -> Z;
  disk_sector_size : D -> Z -> Z;
  disk_ram : D -> Z -> bool;
  disk_flush_command : D -> Z -> bool;
  disk_online : D -> Z -> bool;
  disk_name : D -> Z -> list Z;
  k_disk_read : D -> Z -> Z -> Z -> D * (Z + list Z);
  disk_write_fs : D -> Z -> Z -> list Z -> D * Z;
  disk_flush : D -> Z -> D * Z
}.

Section Geometry.
Context {D : Type} `{Disks D}.
Record same_geometry (d d' : D) : Prop := {
  same_count : k_disk_count d' = k_disk_count d;
  same_sectors : forall i, disk_sectors d' i = disk_sectors d i;
  same_sector_size : forall i, disk_sector_size d' i = disk_sector_size d i;
  same_ram : forall i, disk_ram d' i = disk_ram d i;
  same_flush_command : forall i, disk_flush_command d' i = disk_flush_command d i }.
#[export] Instance same_geometry_preorder : PreOrder same_geometry.
Proof. split; [done|]. intros a b c [] []. split; intros; congruence. Qed.
End Geometry.

(** A disk holds bytes: a read returns them, a write replaces those of its
    sectors (when it fails, they may have any value), nothing else changes. *)
Class DiskContents (D : Type) `{Disks D} := {
  disk_byte : D -> Z -> Z -> Z;
  disk_byte_u8 : forall d id a, is_u8 (disk_byte d id a);
  disk_read_law : forall d id lba n d' r, k_disk_read d id lba n = (d', r) ->
    same_geometry d d' /\ disk_byte d' = disk_byte d /\
    (forall data, r = inr data -> data = bytes_from (disk_byte d id) (lba * disk_sector_size d id) (n * disk_sector_size d id));
  disk_read_error : forall d id lba n d' e, k_disk_read d id lba n = (d', inl e) -> e <> 0;
  disk_write_law : forall d id lba data d' e, disk_write_fs d id lba data = (d', e) ->
    same_geometry d d' /\
    (forall i a, i <> id \/ a < lba * disk_sector_size d id \/ lba * disk_sector_size d id + Z.of_nat (length data) <= a ->
       disk_byte d' i a = disk_byte d i a) /\
    (e = 0 -> bytes_from (disk_byte d' id) (lba * disk_sector_size d id) (Z.of_nat (length data)) = data);
  disk_flush_law : forall d id d' e, disk_flush d id = (d', e) -> same_geometry d d' /\ disk_byte d' = disk_byte d
}.

(** The smallest machine: one read-only disk of 512-byte sectors. *)
Fixpoint read_sectors (sector : Z -> Z + list Z) (lba : Z) (n : nat) : Z + list Z :=
  match n with
  | O => inr []
  | S n =>
      match sector lba, read_sectors sector (lba + 1) n with
      | inr a, inr b => inr (a ++ b)
      | inl e, _ => inl e
      | inr _, inl e => inl e
      end
  end.
Definition one_disk (sectors : Z) (sector : Z -> Z + list Z) : Disks unit := {|
  k_disk_count _ := 1; k_disk_get _ _ := inl K_ENOENT; disk_sectors _ _ := sectors; disk_sector_size _ _ := 512;
  disk_ram _ _ := false; disk_flush_command _ _ := false; disk_online _ _ := true; disk_name _ _ := [100; 105; 115; 107; 48];
  k_disk_read d _ lba n := (d, read_sectors sector lba (Z.to_nat n));
  disk_write_fs d _ _ _ := (d, K_EROFS); disk_flush d _ := (d, K_EROFS) |}.

Section Bytes.
Context {D : Type} `{Disks D}.

(** * Bytes of a disk; every round reads a byte at least *)
(** One round: the number of sectors to read, where the bytes start in them and how many of them are wanted. *)
Definition chunk (size offset n : Z) : Z * Z * Z :=
  if (offset mod size =? 0) && (size <=? n) then let sectors := u32 (Z.min (n / size) 128) in (sectors, 0, sectors * size)
  else let at_ := u32 (offset mod size) in (1, at_, u32 (Z.min n (size - at_))).
Fixpoint disk_bytes_loop (fuel : nat) (d : D) (id size offset n : Z) : option (D * (Z + list Z)) :=
  if n =? 0 then Some (d, inr [])
  else
    match fuel with
    | O => None
    | S fuel =>
        let '(sectors, at_, part) := chunk size offset n in
        match k_disk_read d id (offset / size) sectors with
        | (d, inl e) => Some (d, inl e)
        | (d, inr data) =>
            match disk_bytes_loop fuel d id size (offset + part) (n - part) with
            | Some (d, inr rest) => Some (d, inr (take (Z.to_nat part) (drop (Z.to_nat at_) data) ++ rest))
            | r => r
            end
        end
    end.
Definition disk_bytes (d : D) (id offset n : Z) : D * (Z + list Z) :=
  let total := u64 (disk_sectors d id * disk_sector_size d id) in
  if (k_disk_count d <=? id) || (total <? offset) || (total - offset <? n) then (d, inl K_EINVAL)
  else default (d, inl K_EIO) (disk_bytes_loop (Z.to_nat n) d id (disk_sector_size d id) offset n).
End Bytes.

Lemma chunk_ok size offset n sectors at_ part : 0 < size < 2 ^ 32 -> 0 <= offset -> 0 < n -> chunk size offset n = (sectors, at_, part) ->
  0 < part <= n /\ 0 < sectors /\ 0 <= at_ /\ at_ + part <= sectors * size /\ offset / size * size + at_ = offset /\
  (forall hi, offset + n <= hi * size -> offset / size + sectors <= hi).
Proof.
  intros Hs Ho Hn. unfold chunk. pose proof (Z.mod_pos_bound offset size ltac:(lia)) as Q1. pose proof (Z.div_mod offset size ltac:(lia)) as Q0.
  destruct (_ && _) eqn:Ew; cbv zeta; intros [= <- <- <-]; reflect_bools.
  - assert (1 <= n / size) as Q2 by (apply Z.div_le_lower_bound; lia). pose proof (Z.mul_div_le n size ltac:(lia)) as Q3.
    unfold u32. rewrite Z.mod_small by lia. destruct (Z.min_spec (n / size) 128) as [[? ->]|[? ->]]; split_and!; try nia; intros hi Hhi; nia.
  - clear Ew. unfold u32. rewrite (Z.mod_small (offset mod size)) by lia.
    destruct (Z.min_spec n (size - offset mod size)) as [[? ->]|[? ->]]; rewrite Z.mod_small by lia; split_and!; try lia; intros hi Hhi; nia.
Qed.

(** * What a read of bytes returns *)
Section Contents.
Context {D : Type} `{DiskContents D}.

Lemma disk_bytes_loop_spec fuel : forall d id size offset n d' r,
  0 < size < 2 ^ 32 -> size = disk_sector_size d id -> 0 <= offset -> 0 <= n -> disk_bytes_loop fuel d id size offset n = Some (d', r) ->
  same_geometry d d' /\ disk_byte d' = disk_byte d /\ (forall data, r = inr data -> data = bytes_from (disk_byte d id) offset n).
Proof.
  induction fuel as [|fuel IH]; intros d id size offset n d' r Hs Hsize Ho Hn; cbn [disk_bytes_loop];
    (destruct (Z.eqb_spec n 0) as [->|Hne]; [intros [= <- <-]; split_and!; try done; by intros data [= <-]|]); [done|]. cbv zeta.
  destruct (chunk size offset n) as [[sectors at_] part] eqn:Ec. apply chunk_ok in Ec as (Hp & Hq & Ha & Hin & Hoff & _); [|lia..].
  destruct (k_disk_read d id (offset / size) sectors) as [d1 [e|data]] eqn:Hr; apply disk_read_law in Hr as (G1 & B1 & R1).
  { intros [= <- <-]. by split_and!. }
  specialize (R1 data eq_refl). destruct (disk_bytes_loop fuel d1 id size (offset + part) (n - part)) as [[d2 r2]|] eqn:Hrec; [|done].
  apply IH in Hrec as (G2 & B2 & R2); [|done|by rewrite (same_sector_size d d1 G1)|lia|lia].
  assert (forall r', (d2, r') = (d', r) -> (r' = inl K_EIO \/ True) -> same_geometry d d' /\ disk_byte d' = disk_byte d) as Hd
    by (intros r' [= <- _] _; split; [by transitivity d1|congruence]).
  destruct r2 as [e|rest]; intros [= <- <-]; (split; [by transitivity d1|]); (split; [congruence|]); [done|].
  intros out [= <-]. rewrite (R2 rest eq_refl), R1, B1, <- Hsize, bytes_from_sub by lia. rewrite Hoff, <- bytes_from_app by lia. f_equal. lia.
Qed.
Lemma disk_bytes_spec d id offset n d' r : 0 < disk_sector_size d id < 2 ^ 32 -> 0 <= offset -> 0 <= n -> disk_bytes d id offset n = (d', r) ->
  same_geometry d d' /\ disk_byte d' = disk_byte d /\ (forall data, r = inr data -> data = bytes_from (disk_byte d id) offset n).
Proof.
  intros Hs Ho Hn. unfold disk_bytes. cbv zeta. destruct (_ || _); [intros [= <- <-]; by split_and!|].
  destruct (disk_bytes_loop _ _ _ _ _ _) as [[d1 r1]|] eqn:He; cbn; intros [= <- <-]; [|by split_and!]. by apply disk_bytes_loop_spec in He.
Qed.
Lemma disk_bytes_error d id offset n d' e : disk_bytes d id offset n = (d', inl e) -> e <> 0.
Proof.
  unfold disk_bytes. cbv zeta. destruct (_ || _); [by intros [= _ <-]|]. generalize (disk_sector_size d id) (Z.to_nat n). intros size fuel.
  assert (forall fuel d offset n d' e, disk_bytes_loop fuel d id size offset n = Some (d', inl e) -> e <> 0) as Hl.
  { clear -H0. induction fuel as [|fuel IH]; intros d offset n d' e; cbn [disk_bytes_loop]; (destruct (n =? 0); [done|]); [done|].
    destruct (chunk size offset n) as [[sectors at_] part]. destruct (k_disk_read _ _ _ _) as [d1 [e1|data]] eqn:Hr; [intros [= <- <-]; by apply disk_read_error in Hr|].
    destruct (disk_bytes_loop _ _ _ _ _ _) as [[d2 [e2|rest]]|] eqn:Hrec; [|done|done]. intros [= <- <-]. by apply IH in Hrec. }
  destruct (disk_bytes_loop _ _ _ _ _ _) as [[d1 r1]|] eqn:He; cbn; [|by intros [= _ <-]]. intros [= <- ->]. by apply Hl in He.
Qed.
Lemma disk_bytes_geometry d id offset n d' r : 0 < disk_sector_size d id < 2 ^ 32 -> 0 <= offset -> 0 <= n -> disk_bytes d id offset n = (d', r) -> same_geometry d d'.
Proof. intros Hs Ho Hn Hd. by apply disk_bytes_spec in Hd as [G _]. Qed.
Lemma disk_bytes_u8 d id offset n d' data : 0 < disk_sector_size d id < 2 ^ 32 -> 0 <= offset -> 0 <= n -> disk_bytes d id offset n = (d', inr data) ->
  Forall is_u8 data /\ length data = Z.to_nat n.
Proof.
  intros Hs Ho Hn Hd. apply disk_bytes_spec in Hd as (_ & _ & R); [|done..]. rewrite (R data eq_refl). split; [|apply bytes_from_length].
  apply bytes_from_u8. intros a. apply disk_byte_u8.
Qed.
Lemma disk_read_u8 d id lba n d' data : k_disk_read d id lba n = (d', inr data) ->
  Forall is_u8 data /\ length data = Z.to_nat (n * disk_sector_size d id).
Proof.
  intros Hd. apply disk_read_law in Hd as (_ & _ & R). rewrite (R data eq_refl). split; [|apply bytes_from_length].
  apply bytes_from_u8. intros a. apply disk_byte_u8.
Qed.
End Contents.

(** Every round of the loop reads at least a byte, so [n] rounds are enough. *)
Section Progress.
Context {D : Type} `{Disks D}.
Lemma disk_bytes_some fuel d id size offset n : 0 < size < 2 ^ 32 -> 0 <= offset -> 0 <= n <= Z.of_nat fuel -> disk_bytes_loop fuel d id size offset n <> None.
Proof.
  intros Hsize. revert d offset n. induction fuel as [|fuel IH]; intros d offset n Ho Hn; cbn [disk_bytes_loop]; (destruct (Z.eqb_spec n 0); [done|]); [lia|].
  destruct (chunk size offset n) as [[sectors at_] part] eqn:Ec. apply chunk_ok in Ec as (Hp & _); [|lia..]. destruct (k_disk_read _ _ _ _) as [d1 [e|data]]; [done|].
  specialize (IH d1 (offset + part) (n - part) ltac:(lia) ltac:(lia)). by destruct (disk_bytes_loop fuel _ _ _ _ _) as [[d2 [e|rest]]|].
Qed.
End Progress.

(** * Disks that record where they are used

    [guarded id lo hi] runs the operations of a disk and keeps a flag that is
    lost when one of them is given another disk or a sector outside
    [lo, hi): a piece of code stays in that window when it keeps the flag. *)
Section Guard.
Context {D : Type} `{Disks D} (id lo hi : Z).
Definition in_window (i lba n : Z) : bool := (i =? id) && (lo <=? lba) && (lba + n <=? hi).
Definition guarded : Disks (D * bool) := {|
  k_disk_count d := k_disk_count (fst d); k_disk_get d := k_disk_get (fst d); disk_sectors d := disk_sectors (fst d);
  disk_sector_size d := disk_sector_size (fst d); disk_ram d := disk_ram (fst d); disk_flush_command d := disk_flush_command (fst d);
  disk_online d := disk_online (fst d); disk_name d := disk_name (fst d);
  k_disk_read d i lba n := let '(d', r) := k_disk_read (fst d) i lba n in ((d', snd d && in_window i lba n), r);
  disk_write_fs d i lba data := let '(d', e) := disk_write_fs (fst d) i lba data in
    ((d', snd d && in_window i lba (Z.of_nat (length data) / disk_sector_size (fst d) i)), e);
  disk_flush d i := let '(d', e) := disk_flush (fst d) i in ((d', snd d && (i =? id)), e) |}.
Context (size : Z) (size_ok : 0 < size < 2 ^ 32) (lo_ok : 0 <= lo).
(** A window of sectors is a window of bytes. *)
Lemma guarded_loop fuel : forall (d : D) offset n r, lo * size <= offset -> 0 <= n -> offset + n <= hi * size ->
  disk_bytes_loop (H := guarded) fuel (d, true) id size offset n = Some r -> snd (fst r) = true.
Proof.
  induction fuel as [|fuel IH]; intros d offset n r Ho Hn He; cbn [disk_bytes_loop]; (destruct (Z.eqb_spec n 0); [by intros [= <-]|]); [done|].
  destruct (chunk size offset n) as [[sectors at_] part] eqn:Ec. assert (0 <= offset) as H0 by nia.
  apply chunk_ok in Ec as (Hp & Hq & Ha & Hin & Hoff & Hwin); [|lia..]. specialize (Hwin hi He).
  cbn [k_disk_read guarded fst snd andb]. destruct (k_disk_read d id (offset / size) sectors) as [d1 r1].
  assert (in_window id (offset / size) sectors = true) as ->.
  { unfold in_window. rewrite Z.eqb_refl. apply andb_true_intro. split; [apply Z.leb_le; apply Z.div_le_lower_bound; lia|by apply Z.leb_le]. }
  destruct r1 as [e|data]; [by intros [= <-]|].
  destruct (disk_bytes_loop _ _ _ _ _ _) as [[d2 [e|rest]]|] eqn:Hrec; [|..|done]; intros [= <-]; apply IH in Hrec; (done || lia).
Qed.
Lemma guarded_bytes (d : D) offset n : size = disk_sector_size d id -> lo * size <= offset -> 0 <= n -> offset + n <= hi * size ->
  snd (fst (disk_bytes (H := guarded) (d, true) id offset n)) = true.
Proof.
  intros Hsize Ho Hn He. unfold disk_bytes. cbv zeta. destruct (_ || _); [done|]. cbn [disk_sector_size guarded fst]. rewrite <- Hsize.
  destruct (disk_bytes_loop _ _ _ _ _ _) as [r|] eqn:Hl; [|done]. by apply guarded_loop in Hl.
Qed.
End Guard.

#[export] Instance guarded_contents {D} `{DiskContents D} id lo hi : @DiskContents (D * bool) (guarded id lo hi).
Proof.
  refine (@Build_DiskContents (D * bool) (guarded id lo hi) (fun d => disk_byte (fst d)) (fun d => disk_byte_u8 (fst d)) _ _ _ _).
  - intros d i lba n d' r. cbn. destruct (k_disk_read (fst d) i lba n) as [d1 r1] eqn:Hr. intros [= <- <-].
    apply disk_read_law in Hr as ([] & B & R). by split_and!.
  - intros d i lba n d' e. cbn. destruct (k_disk_read (fst d) i lba n) as [d1 r1] eqn:Hr. intros [= <- ->]. by apply disk_read_error in Hr.
  - intros d i lba data d' e. cbn. destruct (disk_write_fs (fst d) i lba data) as [d1 e1] eqn:Hr. intros [= <- <-].
    apply disk_write_law in Hr as ([] & B & R). by split_and!.
  - intros d i d' e. cbn. destruct (disk_flush (fst d) i) as [d1 e1] eqn:Hr. intros [= <- <-]. apply disk_flush_law in Hr as ([] & B). by split_and!.
Defined.

(** The one-disk machine keeps the contract when its sectors have 512 bytes. *)
Section One_disk.
Context (sectors : Z) (sector : Z -> Z + list Z).
Hypothesis sector_ok : forall lba data, sector lba = inr data -> Forall is_u8 data /\ length data = 512%nat.
Hypothesis sector_error : forall lba e, sector lba = inl e -> e <> 0.
Definition sector_byte (a : Z) : Z := match sector (a / 512) with inr data => data !!! Z.to_nat (a mod 512) | inl _ => 0 end.
Lemma sector_byte_u8 a : is_u8 (sector_byte a).
Proof.
  unfold sector_byte. destruct (sector (a / 512)) as [e|data] eqn:E; [unfold is_u8; lia|]. apply sector_ok in E as [Hb Hl].
  pose proof (Z.mod_pos_bound a 512 ltac:(lia)) as Hm. rewrite Forall_lookup in Hb. apply (Hb (Z.to_nat (a mod 512))).
  apply list_lookup_lookup_total_lt. lia.
Qed.
Lemma sector_bytes lba data : sector lba = inr data -> data = bytes_from sector_byte (lba * 512) 512.
Proof.
  intros E. pose proof (sector_ok _ _ E) as [_ Hl]. apply list_eq_same_length with (n := 512%nat); [apply bytes_from_length|done|].
  intros i x y Hi Hx. rewrite bytes_from_lookup by (cbn; lia). intros [= <-]. unfold sector_byte.
  rewrite Z.div_add_l, Z.div_small, Z.add_0_r, E by lia. rewrite Z.add_comm, Z.mod_add, Z.mod_small, Nat2Z.id by lia.
  by rewrite (list_lookup_total_correct _ _ _ Hx).
Qed.
Lemma read_sectors_bytes n : forall lba data, read_sectors sector lba n = inr data -> data = bytes_from sector_byte (lba * 512) (Z.of_nat n * 512).
Proof.
  induction n as [|n IH]; intros lba data; cbn [read_sectors]; [by intros [= <-]|].
  destruct (sector lba) as [e|x] eqn:Ea; [done|]. destruct (read_sectors sector (lba + 1) n) as [e|y] eqn:Eb; [done|]. intros [= <-].
  replace (Z.of_nat (S n) * 512) with (512 + Z.of_nat n * 512) by lia. rewrite bytes_from_app by lia.
  rewrite (sector_bytes _ _ Ea), (IH _ _ Eb). do 2 f_equal. lia.
Qed.
Lemma read_sectors_error n : forall lba e, read_sectors sector lba n = inl e -> e <> 0.
Proof.
  induction n as [|n IH]; intros lba e; cbn [read_sectors]; [done|]. destruct (sector lba) as [e1|x] eqn:Ea; [intros [= <-]; by apply sector_error in Ea|].
  destruct (read_sectors sector (lba + 1) n) as [e1|y] eqn:Eb; [|done]. intros [= <-]. by apply IH in Eb.
Qed.
Definition one_disk_contents : @DiskContents unit (one_disk sectors sector).
Proof.
  refine (@Build_DiskContents unit (one_disk sectors sector) (fun _ _ => sector_byte) (fun _ _ => sector_byte_u8) _ _ _ _).
  - intros d id lba n d' r. cbn. intros [= <- <-]. split_and!; try done. intros data Hd. apply read_sectors_bytes in Hd as ->.
    unfold bytes_from. do 2 f_equal. lia.
  - intros d id lba n d' e. cbn. intros [= _ Hd]. by apply read_sectors_error in Hd.
  - intros d id lba data d' e. cbn. intros [= <- <-]. by split_and!.
  - intros d id d' e. cbn. intros [= <- <-]. by split_and!.
Defined.
End One_disk.
