(* ===== verification/Process.v ===== *)
(** Processes, [src/kernel-src/kernel/process.c] lines 1-60 and 280-830:
    creation, start, destruction, queries, control, reaping and launch, over
    the kernel state of [State], the address spaces of [Mmu] and the loader of
    [Rief].  The files and disks are reached through the class [Devices]. *)
From S2P Require Import Prelude Klib PageAlloc Disk State Sched Sync Mmu Rief.

Definition K_EXEC_RING1 : Z := 1.
Definition K_EXEC_RING3 : Z := 3.
Definition K_CPU_AUTO : Z := 0xffffffff.
Definition K_TLS_BYTES : Z := 65536.
Definition K_PROCESS_ARGS_MAX : Z := 1024.
Definition K_CTL_KILL : Z := 1.
Definition K_CTL_STOP : Z := 2.
Definition K_CTL_CONTINUE : Z := 3.
Definition MAX_SERVICES : Z := 32.

(** * The file system, the disks, the input queue and the console *)

(** Each operation may change the device state [D]; a file is passed by
    reference, so the calls that may update it return it. *)
Class Devices (D : Type) := {
  devices_disks :: Disks D;
  k_vfs_open : D -> list Z -> D * (Z + k_file);
  k_vfs_create : D -> list Z -> D * (Z + k_file);
  k_vfs_read : D -> k_file -> Z -> Z -> D * k_file * (Z + list Z);
  k_vfs_write : D -> k_file -> Z -> list Z -> D * k_file * (Z + Z);
  k_vfs_put : D -> list Z -> list Z -> D * Z;
  k_vfs_mkdir : D -> list Z -> D * Z;
  k_vfs_stat : D -> k_file -> D * k_file * Z;
  k_vfs_sync : D -> D * Z;
  k_input_pump : D -> D;
  k_input_read : D -> D * (Z + list Z);
  con_putc : D -> Z -> D
}.

(** * State *)
Record service := mk_service { s_name : list Z; s_pid : Z; s_task : Z }.
Definition service0 : service := mk_service [] 0 0.
#[export] Instance service_inhabited : Inhabited service := populate service0.
Record k_partition_info := mk_partition {
  pt_id : Z; pt_disk : Z; pt_number : Z; pt_sector_size : Z; pt_start : Z; pt_sectors : Z;
  pt_read_only : bool; pt_mounted : bool; pt_owner_pid : Z; pt_failed : bool }.
#[export] Instance partition_updatable : Updatable k_partition_info := fun r =>
  mk_partition (pt_id r) (pt_disk r) (pt_number r) (pt_sector_size r) (pt_start r) (pt_sectors r)
    (pt_read_only r) (pt_mounted r) (pt_owner_pid r) (pt_failed r).
#[export] Instance partition_inhabited : Inhabited k_partition_info := populate (mk_partition 0 0 0 0 0 0 false false 0 false).
Record system (St D : Type) := mk_system {
  sk : kernel St; sdev : D; next_process_id : Z; input_owner : Z; services : table service;
  partitions : table k_partition_info; partition_count : Z }.
Arguments mk_system {St D}. Arguments sk {St D}. Arguments sdev {St D}. Arguments next_process_id {St D}. Arguments input_owner {St D}.
Arguments services {St D}. Arguments partitions {St D}. Arguments partition_count {St D}.
#[export] Instance system_updatable St D : Updatable (system St D) := fun r =>
  mk_system (sk r) (sdev r) (next_process_id r) (input_owner r) (services r) (partitions r) (partition_count r).
Record k_process_info := mk_info {
  pi_id : Z; pi_task_id : Z; pi_state : Z; pi_fault_vector : Z; pi_exit_code : Z; pi_fault_address : Z; pi_fault_ip : Z;
  pi_name : list Z; pi_parent : Z; pi_execution_class : Z; pi_cpu : Z; pi_uuid : Z * Z }.

Section Process.
Context {St D : Type} `{PageSource St} `{Devices D}.
(** [platform.nx], whether the other processors run, and [&process_mutex]. *)
Context (has_nx smp : bool) (process_mutex : Z).
Implicit Types k : kernel St.
Abbreviation system := (system St D).

(** * Address spaces of the kernel state *)
Definition kcfg (k : kernel St) : mmu_config := mk_config has_nx true smp (kernel_pml4 k).
Definition vm_of (k : kernel St) : vm St := mk_vm (k_pages k) (k_ram k) (hw k).
Definition set_vm (m : vm St) (k : kernel St) : kernel St := k <| k_pages := vm_pages m |> <| k_ram := vm_ram m |> <| hw := vm_hw m |>.
Definition proc (k : kernel St) (p : Z) : k_process := processes k !!! p.
(** The space of a process, [None] when [x86_64_as_valid] fails. *)
Definition space_of (k : kernel St) (p : Z) : option k_address_space :=
  match p_as (proc k p) with
  | Some a => if as_used (spaces k !!! a) then Some (spaces k !!! a) else None
  | None => None
  end.
Definition set_space (p : Z) (a' : k_address_space) (k : kernel St) : kernel St :=
  match p_as (proc k p) with Some a => k <| spaces ::= <[a := a']> |> | None => k end.
Definition k_as_check (k : kernel St) (p address bytes : Z) (write : bool) : kernel St * Z :=
  let '(m, e) := as_check (vm_of k) (space_of k p) address bytes write in (set_vm m k, e).
Definition k_as_alloc (k : kernel St) (p bytes align rwx : Z) : kernel St * (Z + Z) :=
  let '(m, a, r) := as_alloc (kcfg k) (vm_of k) (space_of k p) bytes align rwx true in
  (match a with Some a => set_space p a (set_vm m k) | None => set_vm m k end, r).
Definition k_as_alloc_ex (k : kernel St) (p bytes align rwx options : Z) : kernel St * (Z + Z) :=
  let '(m, a, r) := as_alloc_ex (kcfg k) (vm_of k) (space_of k p) bytes align rwx options true in
  (match a with Some a => set_space p a (set_vm m k) | None => set_vm m k end, r).
Definition arch_as_map_at (k : kernel St) (p address bytes rwx : Z) : kernel St * Z :=
  match space_of k p with
  | Some a => let '(m, a, e) := as_map_at (kcfg k) (vm_of k) a address bytes rwx in (set_space p a (set_vm m k), e)
  | None => (k, K_EINVAL)
  end.
Definition k_copy_to_user (k : kernel St) (p u : Z) (data : list Z) : kernel St * Z :=
  let '(m, e) := default (vm_of k, K_EFAULT) (as_copy_in (vm_of k) (space_of k p) u data false) in (set_vm m k, e).
Definition k_copy_from_user (k : kernel St) (p u n : Z) : kernel St * (Z + list Z) :=
  let '(m, r) := default (vm_of k, inl K_EFAULT) (as_copy_out (vm_of k) (space_of k p) u n) in (set_vm m k, r).
Definition k_as_create (k : kernel St) : kernel St * option Z :=
  let '(m, sp, r) := as_create (kcfg k) (vm_of k) (spaces k) in (set_vm m k <| spaces := sp |>, r).
(** [x86_64_as_destroy] of slot [a]. *)
Definition k_as_destroy (k : kernel St) (a : Z) : kernel St * Z :=
  let x := spaces k !!! a in
  if negb (as_used x) then (k, K_EINVAL)
  else if bool_decide (as_owner x <> None) then (k, K_EBUSY)
  else if any_range 0 K_MAX_TASKS (fun i => let t := tasks k !!! i in
            negb (bool_decide (t_state t = K_TASK_UNUSED)) && negb (bool_decide (t_state t = K_TASK_ZOMBIE)) &&
            match t_process t with Some p => bool_decide (p_as (proc k p) = Some a) | None => false end) then (k, K_EBUSY)
  else (set_vm (as_free (vm_of k) x) k <| spaces ::= <[a := space0]> |>, 0).

(** * Creation *)
Definition valid_process (k : kernel St) (p : Z) : bool := (0 <=? p) && (p <? MAX_PROCESSES) && p_used (proc k p).
Definition on_kernel (f : kernel St -> kernel St) (s : system) : system := s <| sk ::= f |>.
Definition process_create_locked (s : system) (name : option (list Z)) (seed : Z) : system * option Z :=
  match name with
  | None => (s, None)
  | Some name =>
      if next_process_id s =? 0 then (s, None)
      else
        match find_range 0 MAX_PROCESSES (fun i => negb (p_used (proc (sk s) i))) with
        | None => (s, None)
        | Some p =>
            let id := next_process_id s in
            let s := on_kernel (upd_process p (fun _ => process0 <| p_used := true |> <| p_id := id |> <| p_execution_class := K_EXEC_RING3 |>
                       <| p_uuid := (seed, Z.lor (Z.shiftl id 32) id) |> <| p_name := str_fit name |>)) s <| next_process_id := u32 (id + 1) |> in
            match k_as_create (sk s) with
            | (k, None) => (s <| sk := upd_process p (fun q => q <| p_used := false |>) k |>, None)
            | (k, Some a) =>
                (s <| sk := upd_process p (fun q => q <| p_as := Some a |>) k <| spaces ::= tmod a (fun x => x <| as_owner := Some p |>) |> |>, Some p)
            end
        end
  end.
Definition k_process_space (k : kernel St) (p : Z) : option Z := if valid_process k p then p_as (proc k p) else None.
Definition k_process_id (k : kernel St) (p : Z) : Z := if valid_process k p then p_id (proc k p) else 0.
(** [rief_load_locked] on the process table. *)
Definition process_load_locked (k : kernel St) (p image size : Z) (bindings : option (list (option (list Z) * Z))) (count : Z) : kernel St * Z :=
  if negb (valid_process k p) then (k, K_EINVAL)
  else
    match p_as (proc k p) with
    | None => (k, K_EINVAL)
    | Some a =>
        let '(m, q, x, e) := rief_load_locked (kcfg k) (vm_of k) (proc k p) (spaces k !!! a) image size bindings count in
        (set_vm m k <| processes ::= <[p := q]> |> <| spaces ::= <[a := x]> |>, e)
    end.

(** * Start *)
Definition cpu_load (k : kernel St) (c : Z) : Z :=
  fold_range 0 K_MAX_TASKS (fun i load => let t := tasks k !!! i in
    if (t_cpu t =? c) && negb (t_idle t) && negb (bool_decide (t_state t = K_TASK_UNUSED)) && negb (bool_decide (t_state t = K_TASK_ZOMBIE))
    then u64 (load + t_weight t) else load) 0.
(** The online processor with the least load; 0 when none is online. *)
Definition auto_cpu (k : kernel St) : Z :=
  snd (fold_range 0 (discovered_cpus k) (fun c s =>
    if c_online (cpus k !!! c) && (cpu_load k c <? fst s) then (cpu_load k c, c) else s) (max_u64, 0)).
Definition x86_64_initial_user_stack (top : Z) : Z := u64 (top - 40).
Definition x86_64_user_context_init (i entry stack : Z) (k : kernel St) : kernel St :=
  let frame := t_frame (tasks k !!! i) in
  k <| k_ram ::= (fun m => wr64 (wr64 (wr64 (wr64 (wr64 m (frame + 136) entry) (frame + 144) 0x23) (frame + 168) 0x1b) (frame + 160) stack)
                             (frame + 152) 0x202) |>.
(** The user stack, then the TLS block with its first three words. *)
Definition ensure_stack (k : kernel St) (p : Z) : kernel St * Z :=
  if negb (p_user_stack (proc k p) =? 0) then (k, 0)
  else
    match k_as_alloc k p (8 * 4096) 4096 (Z.lor RIEF_REGION_R RIEF_REGION_W) with
    | (k, inl e) => (k, e)
    | (k, inr stack) => (upd_process p (fun q => q <| p_user_stack := x86_64_initial_user_stack (u64 (stack + 8 * 4096)) |>) k, 0)
    end.
Definition ensure_tls (k : kernel St) (p : Z) : kernel St * Z :=
  if negb (p_tls (proc k p) =? 0) then (k, 0)
  else
    match k_as_alloc k p K_TLS_BYTES 4096 (Z.lor RIEF_REGION_R RIEF_REGION_W) with
    | (k, inl e) => (k, e)
    | (k, inr tls) =>
        let k := upd_process p (fun q => q <| p_tls := tls |>) k in
        k_copy_to_user k p tls (le_bytes tls 8 ++ le_bytes (p_id (proc k p)) 8 ++ le_bytes 0 8)
    end.
Definition process_start_locked (k : kernel St) (p cpu : Z) (id : bool) : kernel St * Z * Z :=
  if negb (valid_process k p) || negb (p_loaded (proc k p)) || negb (p_task_id (proc k p) =? 0) || negb id then (k, K_EINVAL, 0)
  else
    let '(k, e) := ensure_stack k p in
    if negb (e =? 0) then (k, e, 0)
    else
      let '(k, e) := ensure_tls k p in
      if negb (e =? 0) then (k, e, 0)
      else
        let cpu := if cpu =? K_CPU_AUTO then auto_cpu k else cpu in
        if (discovered_cpus k <=? cpu) || negb (c_online (cpus k !!! cpu)) then (k, K_EINVAL, 0)
        else
          match new_task k (p_name (proc k p)) 0 0 1024 cpu false with
          | (k, None) => (k, K_ENOMEM, 0)
          | (k, Some i) =>
              let k := upd_task i (fun t => t <| t_process := Some p |> <| t_tls_base := p_tls (proc k p) |>) k in
              let tid := t_id (tasks k !!! i) in
              let k := fst (k_copy_to_user k p (u64 (p_tls (proc k p) + 16)) (le_bytes tid 8)) in
              let k := x86_64_user_context_init i (p_entry (proc k p)) (p_user_stack (proc k p)) k in
              (upd_process p (fun q => q <| p_task_id := tid |> <| p_state := K_TASK_READY |>) k, 0, tid)
          end.

(** * Release and destruction *)
Definition process_resources_release (p : Z) (s : system) : system :=
  let id := p_id (proc (sk s) p) in
  let s := s <| services ::= (fun t => fold_range 0 MAX_SERVICES (fun i t => if s_pid (t !!! i) =? id then <[i := service0]> t else t) t) |> in
  let s := s <| partitions ::= (fun t => fold_range 0 (partition_count s) (fun i t =>
                  if pt_owner_pid (t !!! i) =? id then tmod i (fun x => x <| pt_owner_pid := 0 |>) t else t) t) |> in
  if input_owner s =? id then s <| input_owner := 0 |> else s.
(** The tasks of [p] are freed in table order, up to the first that a CPU still uses. *)
Definition free_tasks_of (p : Z) (k : kernel St) : flow (kernel St) (kernel St) :=
  for_range 0 K_MAX_TASKS (fun i k =>
    if bool_decide (t_process (tasks k !!! i) = Some p) then
      if any_range 0 (discovered_cpus k) (on_cpu k i) then Exit k else Next (free_task i k)
    else Next k) k.
Definition process_destroy_locked (s : system) (p : Z) : system * Z :=
  let k := sk s in
  if negb (valid_process k p) then (s, K_EINVAL)
  else
    let has_task := negb (p_task_id (proc k p) =? 0) in
    if has_task && negb (bool_decide (p_state (proc k p) = K_TASK_ZOMBIE)) then (s, K_EBUSY)
    else
      match (if has_task then free_tasks_of p k else Next k) with
      | Exit k => (s <| sk := k |>, K_EBUSY)
      | Next k =>
          let s := process_resources_release p (s <| sk := k |>) in
          match p_as (proc (sk s) p) with
          | None => (s, K_EINVAL)
          | Some a =>
              let k := (sk s) <| spaces ::= tmod a (fun x => x <| as_owner := None |>) |> in
              match k_as_destroy k a with
              | (k, e) =>
                  if negb (e =? 0) then (s <| sk := k <| spaces ::= tmod a (fun x => x <| as_owner := Some p |>) |> |>, e)
                  else (s <| sk := upd_process p (fun _ => process0) k |>, 0)
              end
          end
      end.

(** * Queries *)
Definition process_by_pid (k : kernel St) (pid : Z) : option Z :=
  find_range 0 MAX_PROCESSES (fun i => p_used (proc k i) && (p_id (proc k i) =? pid)).
Definition process_task (k : kernel St) (p : Z) : option Z :=
  find_range 0 K_MAX_TASKS (fun i =>
    negb (bool_decide (t_state (tasks k !!! i) = K_TASK_UNUSED)) && bool_decide (t_process (tasks k !!! i) = Some p)).
Definition k_process_get (k : kernel St) (i : Z) (out : bool) : Z + k_process_info :=
  if (MAX_PROCESSES <=? i) || negb out then inl K_EINVAL
  else
    let q := proc k i in
    if negb (p_used q) then inl K_ENOENT
    else
      let cpu := match find_range 0 K_MAX_TASKS (fun j => bool_decide (t_process (tasks k !!! j) = Some i)) with
                 | Some j => t_cpu (tasks k !!! j) | None => 0 end in
      inr (mk_info (p_id q) (p_task_id q) (state_code (p_state q)) (p_fault_vector q) (p_exit_code q) (p_fault_address q) (p_fault_ip q)
             (p_name q) (p_parent q) (p_execution_class q) cpu (p_uuid q)).
Definition k_process_query (k : kernel St) (pid : Z) (out : bool) : Z + k_process_info :=
  if negb out then inl K_EINVAL
  else
    match for_range 0 MAX_PROCESSES (fun i (_ : unit) =>
            match k_process_get k i true with inr x => if pi_id x =? pid then Exit x else Next tt | inl _ => Next tt end) tt with
    | Exit x => inr x
    | Next _ => inl K_ENOENT
    end.
Record k_identity := mk_identity { id_uuid : Z * Z; id_pid : Z; id_parent : Z; id_execution_class : Z; id_cpu : Z; id_tls : Z }.
Definition k_process_identity (k : kernel St) (pid : Z) (out : bool) : Z + k_identity :=
  if negb out then inl K_EINVAL
  else
    match process_by_pid k pid with
    | None => inl K_ENOENT
    | Some p =>
        let q := proc k p in
        inr (mk_identity (p_uuid q) (p_id q) (p_parent q) (p_execution_class q)
               (match process_task k p with Some i => t_cpu (tasks k !!! i) | None => K_CPU_AUTO end) (p_tls q))
    end.

(** * Control *)

(** [task_ready(t)], then the process takes the task's state. *)
Definition wake_for_control (p i : Z) (k : kernel St) : kernel St :=
  let k := task_ready i k in upd_process p (fun q => q <| p_state := t_state (tasks k !!! i) |>) k.
Definition process_control_locked (k : kernel St) (pid op : Z) : kernel St * Z :=
  if (op <? K_CTL_KILL) || (K_CTL_CONTINUE <? op) then (k, K_EINVAL)
  else
    match process_by_pid k pid with
    | None => (k, K_ENOENT)
    | Some p =>
        match process_task k p with
        | None => (k, K_ENOENT)
        | Some i =>
            let t := tasks k !!! i in
            if bool_decide (t_state t = K_TASK_ZOMBIE) then (k, K_ENOENT)
            else
              let killing := t_control_request t =? K_CTL_KILL in
              let k :=
                if op =? K_CTL_CONTINUE then
                  let k := if killing then k else upd_task i (fun t => t <| t_control_request := 0 |>) k in
                  if bool_decide (t_state t = K_TASK_STOPPED) then wake_for_control p i k else k
                else
                  let k := if (op =? K_CTL_KILL) || negb killing then upd_task i (fun t => t <| t_control_request := op |>) k else k in
                  if bool_decide (t_state t = K_TASK_STOPPED) || bool_decide (t_state t = K_TASK_SLEEPING) then wake_for_control p i k else k in
              (upd_cpu (t_cpu t) (fun c => c <| c_work_pending := true |>) k, 0)
        end
    end.
(** [process_return_control] on the way back to user mode; [true]: the task yields. *)
Definition process_return_control (s : system) (i : Z) : option (system * bool) :=
  let t := tasks (sk s) !!! i in
  let request := t_control_request t in
  if request =? 0 then Some (s, false)
  else
    let s := on_kernel (upd_task i (fun t => t <| t_control_request := 0 |>)) s in
    let finish s := Some (on_kernel (upd_task i (fun t => t <| t_preempt_depth := 0 |>)) s, true) in
    if request =? K_CTL_KILL then
      match t_process t with
      | None => None
      | Some p =>
          finish (process_resources_release p (on_kernel (fun k =>
            upd_process p (fun q => q <| p_exit_code := -143 |> <| p_state := K_TASK_ZOMBIE |>)
              (upd_task i (fun t => t <| t_exit_code := -143 |> <| t_state := K_TASK_ZOMBIE |>) k)) s))
      end
    else if request =? K_CTL_STOP then
      match t_process t with
      | None => None
      | Some p =>
          finish (on_kernel (fun k => upd_process p (fun q => q <| p_state := K_TASK_STOPPED |>)
            (upd_task i (fun t => t <| t_state := K_TASK_STOPPED |>) k)) s)
      end
    else finish s.

(** * Calls under the process mutex *)

(** [None]: the caller blocks on the mutex and repeats the call when it runs again. *)
Definition locked {A} (c : Z) (fail : Z -> A) (body : system -> system * A) (s : system) : system * option A :=
  match k_mutex_lock (sk s) c process_mutex with
  | (k, Wait) => (s <| sk := k |>, None)
  | (k, Return e) =>
      if negb (e =? 0) then (s <| sk := k |>, Some (fail e))
      else let '(s, r) := body (s <| sk := k |>) in (on_kernel (fun k => fst (k_mutex_unlock k c process_mutex)) s, Some r)
  end.
Definition k_process_create (s : system) (c : Z) (name : option (list Z)) (seed : Z) : system * option (option Z) :=
  locked c (fun _ => None) (fun s => process_create_locked s name seed) s.
Definition lift {A} (f : kernel St -> kernel St * A) (s : system) : system * A := let '(k, r) := f (sk s) in (s <| sk := k |>, r).
Definition k_rief_load (s : system) (c p image size : Z) (bindings : option (list (option (list Z) * Z))) (count : Z) : system * option Z :=
  locked c id (lift (fun k => process_load_locked k p image size bindings count)) s.
Definition k_process_start_on (s : system) (c p cpu : Z) (id : bool) : system * option (Z * Z) :=
  locked c (fun e => (e, 0)) (lift (fun k => let '(k, e, tid) := process_start_locked k p cpu id in (k, (e, tid)))) s.
Definition k_process_start (s : system) (c p : Z) (id : bool) : system * option (Z * Z) := k_process_start_on s c p K_CPU_AUTO id.
Definition k_process_destroy (s : system) (c p : Z) : system * option Z := locked c id (fun s => process_destroy_locked s p) s.
Definition k_process_control (s : system) (c pid op : Z) : system * option Z :=
  locked c id (lift (fun k => process_control_locked k pid op)) s.
(** The information is read before the process is destroyed. *)
Definition k_process_reap_pid (s : system) (c pid : Z) (out : bool) : system * option (Z * option k_process_info) :=
  locked c (fun e => (e, None)) (fun s =>
    match process_by_pid (sk s) pid with
    | None => (s, (K_ENOENT, None))
    | Some p =>
        if out then
          match k_process_query (sk s) pid true with
          | inl e => (s, (e, None))
          | inr info => let '(s, e) := process_destroy_locked s p in (s, (e, Some info))
          end
        else let '(s, e) := process_destroy_locked s p in (s, (e, None))
    end) s.

(** * Launch *)
Definition launch_file_ok (f : k_file) : bool :=
  negb ((f_kind f =? 3) || negb (Z.land (f_attributes f) 0x10 =? 0) || (f_size f <? SIZEOF_HEADER) || (4 * 1024 * 1024 <? f_size f)).
(** [k_process_launch] under the mutex. *)
Definition launch_locked (s : system) (c : Z) (path arguments : list Z) (cls cpu parent seed : Z) : system * (Z * Z) :=
  let actor := match current_task (sk s) c with Some i => t_process (tasks (sk s) !!! i) | None => None end in
  if match actor with
     | Some a => negb (parent =? p_id (proc (sk s) a)) || ((cls =? K_EXEC_RING1) && negb (p_execution_class (proc (sk s) a) =? K_EXEC_RING1))
     | None => false
     end then (s, (K_EPERM, 0))
  else
    match k_vfs_open (sdev s) path with
    | (d, inl e) => (s <| sdev := d |>, (e, 0))
    | (d, inr file) =>
        let s := s <| sdev := d |> in
        if negb (launch_file_ok file) then (s, (K_ENOEXEC, 0))
        else
          let pages := (f_size file + 4095) / 4096 in
          match vm_alloc (vm_of (sk s)) pages 0 with
          | (m, image) =>
              let s := on_kernel (set_vm m) s in
              if image =? 0 then (s, (K_ENOMEM, 0))
              else
                let '(d, _, res) := k_vfs_read (sdev s) file 0 (f_size file) in
                let s := s <| sdev := d |> in
                let '(s, e) := match res with
                               | inl e => (s, e)
                               | inr data => (on_kernel (fun k => k <| k_ram ::= write_bytes image data |>) s,
                                              if Z.of_nat (length data) =? f_size file then 0 else K_EIO)
                               end in
                let '(s, p) := if e =? 0 then process_create_locked s (Some path) seed else (s, None) in
                let e := if (e =? 0) && bool_decide (p = None) then K_ENOMEM else e in
                let '(s, e) :=
                  match p with
                  | Some p =>
                      let s := on_kernel (upd_process p (fun q => q <| p_parent := parent |> <| p_execution_class := cls |> <| p_arguments := take 1023 arguments |>)) s in
                      lift (fun k => process_load_locked k p image (f_size file) None 0) s
                  | None => (s, e)
                  end in
                let s := on_kernel (fun k => set_vm (vm_free image pages (vm_of k)) k) s in
                match p with
                | None => (s, (e, 0))
                | Some p =>
                    let '(s, (e, pid)) :=
                      if e =? 0 then
                        let '(k, e, _) := process_start_locked (sk s) p cpu true in
                        (s <| sk := k |>, (e, if e =? 0 then p_id (proc k p) else 0))
                      else (s, (e, 0)) in
                    if e =? 0 then (s, (0, pid)) else (fst (process_destroy_locked s p), (e, 0))
                end
          end
    end.
Definition k_process_launch (s : system) (c : Z) (path arguments : option (list Z)) (cls cpu parent seed : Z) (pid : bool) : system * option (Z * Z) :=
  match path, arguments with
  | Some path, Some arguments =>
      if negb pid || (negb (cls =? K_EXEC_RING1) && negb (cls =? K_EXEC_RING3)) || (K_PROCESS_ARGS_MAX <=? Z.of_nat (length arguments))
      then (s, Some (K_EINVAL, 0))
      else locked c (fun e => (e, 0)) (fun s => launch_locked s c path arguments cls cpu parent seed) s
  | _, _ => (s, Some (K_EINVAL, 0))
  end.
End Process.

(** The smallest machine: one read-only disk of 512-byte sectors and no files. *)
Definition one_device (sectors : Z) (sector : Z -> Z + list Z) : Devices unit := {|
  devices_disks := one_disk sectors sector;
  k_vfs_open d _ := (d, inl K_ENOENT); k_vfs_create d _ := (d, inl K_EROFS); k_vfs_read d f _ _ := (d, f, inl K_EIO);
  k_vfs_write d f _ _ := (d, f, inl K_EROFS); k_vfs_put d _ _ := (d, K_EROFS); k_vfs_mkdir d _ := (d, K_EROFS);
  k_vfs_stat d f := (d, f, K_EIO); k_vfs_sync d := (d, 0); k_input_pump d := d; k_input_read d := (d, inl K_EAGAIN); con_putc d _ := d |}.
