(* ===== verification/Service.v ===== *)
(** The service directory, IPC grants, the input lease and the partition
    table, [src/kernel-src/kernel/process.c] lines 800-940. *)
From S2P Require Import Prelude Klib PageAlloc State Sched Sync Mmu Rief Process.

Section Service.
Context {St D : Type}.
Implicit Types k : kernel St.
Abbreviation system := (system St D).

Definition name_char (c : Z) : bool :=
  ((97 <=? c) && (c <=? 122)) || ((65 <=? c) && (c <=? 90)) || ((48 <=? c) && (c <=? 57)) || (c =? 95) || (c =? 45) || (c =? 46).
Definition service_name (name : list Z) : Z :=
  if bool_decide (name = []) || (64 <=? Z.of_nat (length name)) then K_EINVAL
  else if forallb name_char name then 0 else K_EINVAL.

(** * Grants *)
Definition task_live (k : kernel St) (tid : Z) : bool :=
  any_range 0 K_MAX_TASKS (fun j => let t := tasks k !!! j in
    (t_id t =? tid) && negb (bool_decide (t_state t = K_TASK_UNUSED)) && negb (bool_decide (t_state t = K_TASK_ZOMBIE))).
(** [grants[i] = grants[--grant_count]]. *)
Definition swap_remove (i : nat) (l : list Z) : list Z := take (length l - 1) (<[i := l !!! (length l - 1)%nat]> l).
(** Each round keeps one entry or drops one: [length l] rounds are enough. *)
Fixpoint prune (fuel : nat) (k : kernel St) (i : nat) (l : list Z) : list Z :=
  match fuel with
  | O => l
  | S fuel =>
      if negb (Nat.ltb i (length l)) then l
      else if task_live k (l !!! i) then prune fuel k (S i) l else prune fuel k i (swap_remove i l)
  end.
Definition grant_locked (k : kernel St) (p tid : Z) : kernel St * Z :=
  let grants := p_grants (proc k p) in
  if bool_decide (tid ∈ grants) then (k, 0)
  else
    let grants := prune (length grants) k 0 grants in
    if Z.of_nat (length grants) =? K_GRANTS then (upd_process p (fun q => q <| p_grants := grants |>) k, K_E2BIG)
    else (upd_process p (fun q => q <| p_grants := grants ++ [tid] |>) k, 0).

(** * The service directory *)

(** One round over slot [i]: forget a dead owner's entry, stop at the name,
    remember the first free slot ([-1]: none yet). *)
Definition register_step (k : kernel St) (p : Z) (name : list Z) (i : Z) (s : table service * Z) : flow (table service * Z) (table service * Z) :=
  let '(t, slot) := s in
  let dead := match process_by_pid k (s_pid (t !!! i)) with
              | None => true
              | Some o => bool_decide (p_state (proc k o) = K_TASK_ZOMBIE)
              end in
  let t := if dead then <[i := service0]> t else t in
  if negb (s_pid (t !!! i) =? 0) && bool_decide (s_name (t !!! i) = name)
  then Exit (t, if s_pid (t !!! i) =? p_id (proc k p) then 0 else K_EEXIST)
  else Next (t, if (s_pid (t !!! i) =? 0) && (slot <? 0) then i else slot).
Definition service_register (s : system) (p : Z) (name : list Z) : system * Z :=
  if negb (p_execution_class (proc (sk s) p) =? K_EXEC_RING1) then (s, K_EPERM)
  else
    let e := service_name name in
    if negb (e =? 0) then (s, e)
    else
      match for_range 0 MAX_SERVICES (register_step (sk s) p name) (services s, -1) with
      | Exit (t, e) => (s <| services := t |>, e)
      | Next (t, slot) =>
          if slot <? 0 then (s <| services := t |>, K_E2BIG)
          else (s <| services := <[slot := mk_service (take 63 name) (p_id (proc (sk s) p)) (p_task_id (proc (sk s) p))]> t |>, 0)
      end.
(** Take back the caller's grant. *)
Definition revoke (p tid : Z) (k : kernel St) : kernel St :=
  match list_find (fun g => g = tid) (p_grants (proc k p)) with
  | Some (j, _) => upd_process p (fun q => q <| p_grants ::= swap_remove j |>) k
  | None => k
  end.
Definition k_service_lookup (s : system) (c : Z) (name : option (list Z)) (tid : bool) : system * (Z + Z) :=
  match name with
  | None => (s, inl K_EINVAL)
  | Some name =>
      if negb tid then (s, inl K_EINVAL)
      else
        let e := service_name name in
        if negb (e =? 0) then (s, inl e)
        else
          match current_task (sk s) c with
          | None => (s, inl K_EPERM)
          | Some caller =>
              let me := t_id (tasks (sk s) !!! caller) in
              match find_range 0 MAX_SERVICES (fun i => negb (s_pid (services s !!! i) =? 0) && bool_decide (s_name (services s !!! i) = name)) with
              | None => (s, inl K_ENOENT)
              | Some i =>
                  match process_by_pid (sk s) (s_pid (services s !!! i)) with
                  | None => (s, inl K_ENOENT)
                  | Some p =>
                      if bool_decide (p_state (proc (sk s) p) = K_TASK_ZOMBIE) then (s, inl K_ENOENT)
                      else
                        let already := bool_decide (me ∈ p_grants (proc (sk s) p)) in
                        let '(k, e) := grant_locked (sk s) p me in
                        let '(k, e) :=
                          match t_process (tasks k !!! caller) with
                          | Some cp => if e =? 0 then grant_locked k cp (s_task (services s !!! i)) else (k, e)
                          | None => (k, e)
                          end in
                        if negb (e =? 0) then (s <| sk := if already then k else revoke p me k |>, inl e)
                        else (s <| sk := k |>, inr (s_task (services s !!! i)))
                  end
              end
          end
  end.

(** * The input lease and the partition table *)
Definition k_input_claimed (s : system) : system * bool :=
  let claimed := match process_by_pid (sk s) (input_owner s) with
                 | Some p => negb (bool_decide (p_state (proc (sk s) p) = K_TASK_ZOMBIE))
                 | None => false
                 end in
  (if claimed then s else s <| input_owner := 0 |>, claimed).
Definition k_partition_get (s : system) (index : Z) (out : bool) : Z + k_partition_info :=
  if negb out || (partition_count s <=? index) then inl K_ENOENT else inr (partitions s !!! index).
End Service.
