(* ===== verification/Leases.v ===== *)
(** Destruction releases what a process holds, and grants stay bounded:
    the theorems about [process_destroy_locked] and [grant_locked]. *)
From S2P Require Import Prelude Klib Pmm PageAlloc State Sched Sync Mmu MmuInv MmuMap MmuProps Rief Process Service.

Section Leases.
Context {St D : Type} `{PageSource St}.
Abbreviation system := (system St D).
Implicit Types (k : kernel St) (s : system).

(** * What a process holds *)
Lemma clear_input s (b : bool) : let s' := if b then s <| input_owner := 0 |> else s in
  services s' = services s /\ partitions s' = partitions s /\ sk s' = sk s /\ partition_count s' = partition_count s /\
  next_process_id s' = next_process_id s /\ input_owner s' = if b then 0 else input_owner s.
Proof. by destruct b. Qed.
#[local] Opaque fold_range.
Lemma release_ok p s : let s' := process_resources_release p s in let id := p_id (proc (sk s) p) in
  (forall j, services s' !!! j = if (0 <=? j) && (j <? MAX_SERVICES) && (s_pid (services s !!! j) =? id) then service0 else services s !!! j) /\
  (forall j, partitions s' !!! j =
     let x := partitions s !!! j in if (0 <=? j) && (j <? partition_count s) && (pt_owner_pid x =? id) then x <| pt_owner_pid := 0 |> else x) /\
  sk s' = sk s /\ partition_count s' = partition_count s /\ next_process_id s' = next_process_id s /\
  input_owner s' = if input_owner s =? id then 0 else input_owner s.
Proof.
  cbv zeta. unfold process_resources_release. cbv zeta.
  match goal with |- context [if ?b then ?x <| input_owner := 0 |> else ?x] => destruct (clear_input x b) as (-> & -> & -> & -> & -> & ->) end.
  split_and!; try reflexivity.
  - intros j. apply (fold_table (fun x => s_pid x =? p_id (proc (sk s) p)) (fun _ => service0)).
  - intros j. apply (fold_table (fun x => pt_owner_pid x =? p_id (proc (sk s) p)) (fun x => x <| pt_owner_pid := 0 |>)).
Qed.

(** * The tasks of a process *)
Lemma free_task_tasks i k j : tasks (free_task i k) !!! j = if decide (i = j) then task0 else tasks k !!! j.
Proof. unfold free_task, upd_task. cbn [tasks modify]. rewrite tmod_lookup. by destruct (_ =? 0). Qed.
Lemma free_task_rest i k : processes (free_task i k) = processes k /\ spaces (free_task i k) = spaces k /\ cpus (free_task i k) = cpus k.
Proof. unfold free_task. by destruct (_ =? 0). Qed.
Definition tasks_freed p k k' (n : Z) : Prop :=
  (processes k' = processes k /\ spaces k' = spaces k /\ cpus k' = cpus k) /\
  forall j, tasks k' !!! j = if (0 <=? j) && (j <? n) && bool_decide (t_process (tasks k !!! j) = Some p) then task0 else tasks k !!! j.
Lemma free_tasks_ok p k : match free_tasks_of p k with
  | Next k' => tasks_freed p k k' K_MAX_TASKS
  | Exit k' => exists n, tasks_freed p k k' n end.
Proof.
  unfold free_tasks_of. apply (for_range_inv (fun n k' => tasks_freed p k k' n) (fun k' => exists n, tasks_freed p k k' n)); [by vm_compute| |].
  { split; [done|]. intros j. by destruct (Z.leb_spec 0 j), (Z.ltb_spec j 0); try lia. }
  intros i k' Hi [Hr Ht].
  assert (t_process (tasks k' !!! i) = t_process (tasks k !!! i)) as Hp.
  { rewrite Ht. rewrite (proj2 (Z.ltb_ge i i)) by lia. by rewrite andb_false_r. }
  rewrite Hp. case_bool_decide as E.
  - destruct (any_range _ _ _); [by exists i|]. destruct (free_task_rest i k') as (F1 & F2 & F3). destruct Hr as (R1 & R2 & R3).
    split; [by rewrite F1, F2, F3|]. intros j. rewrite free_task_tasks, Ht. destruct (decide (i = j)) as [<-|Hne].
    + rewrite (bool_decide_eq_true_2 (t_process (tasks k !!! i) = Some p)) by done.
      by rewrite (proj2 (Z.leb_le 0 i)), (proj2 (Z.ltb_lt i (i + 1))) by lia.
    + replace (j <? i + 1) with (j <? i) by (destruct (Z.ltb_spec j i), (Z.ltb_spec j (i + 1)); lia). done.
  - split; [done|]. intros j. rewrite Ht. destruct (Z.eqb_spec i j) as [<-|Hne].
    + rewrite (bool_decide_eq_false_2 (t_process (tasks k !!! i) = Some p)) by done. by rewrite !andb_false_r.
    + by replace (j <? i + 1) with (j <? i) by (destruct (Z.ltb_spec j i), (Z.ltb_spec j (i + 1)); lia).
Qed.

(** * Destruction *)
Lemma as_destroy_ok k a k' e : k_as_destroy k a = (k', e) ->
  (e <> 0 /\ k' = k) \/
  (e = 0 /\ processes k' = processes k /\ tasks k' = tasks k /\ cpus k' = cpus k /\ spaces k' = <[a := space0]> (spaces k) /\ as_owner (spaces k !!! a) = None).
Proof.
  unfold k_as_destroy. cbv zeta. destruct (negb _); [intros [= <- <-]; by left|].
  case_bool_decide as Ho; [intros [= <- <-]; by left|]. destruct (any_range _ _ _); [intros [= <- <-]; by left|].
  intros [= <- <-]. right. split_and!; try reflexivity. destruct (as_owner _); [by destruct Ho|done].
Qed.
(** The state in which the record is dropped, and what is gone. *)
Record destroyed s s' p : Prop := {
  de_used : p_used (proc (sk s) p) = true;
  de_zombie : p_task_id (proc (sk s) p) <> 0 -> p_state (proc (sk s) p) = K_TASK_ZOMBIE;
  de_proc : forall q, proc (sk s') q = if decide (p = q) then process0 else proc (sk s) q;
  de_space : exists a, p_as (proc (sk s) p) = Some a /\ spaces (sk s') !!! a = space0;
  de_tasks : forall i, tasks (sk s') !!! i =
    if negb (p_task_id (proc (sk s) p) =? 0) && (0 <=? i) && (i <? K_MAX_TASKS) && bool_decide (t_process (tasks (sk s) !!! i) = Some p)
    then task0 else tasks (sk s) !!! i;
  de_release : exists k, services s' = services (process_resources_release p (s <| sk := k |>)) /\
    partitions s' = partitions (process_resources_release p (s <| sk := k |>)) /\
    input_owner s' = input_owner (process_resources_release p (s <| sk := k |>)) /\ processes k = processes (sk s)
}.
Definition released s s' p : Prop := exists s1,
  (s1 = s \/ exists k, processes k = processes (sk s) /\ s1 = process_resources_release p (s <| sk := k |>)) /\
  services s' = services s1 /\ partitions s' = partitions s1 /\ input_owner s' = input_owner s1.
Lemma destroy_ok s p s' e : process_destroy_locked s p = (s', e) ->
  (e <> 0 /\ (forall q, proc (sk s') q = proc (sk s) q) /\ released s s' p) \/ (e = 0 /\ destroyed s s' p).
Proof.
  unfold process_destroy_locked. cbv zeta. destruct (valid_process (sk s) p) eqn:Hv; cbn [negb]; [|intros [= <- <-]; left; split_and!; [done|done|exists s; auto]].
  apply andb_prop in Hv as [_ Hu]. set (ht := negb (p_task_id (proc (sk s) p) =? 0)).
  destruct (ht && _) eqn:Hz; [intros [= <- <-]; left; split_and!; [done|done|exists s; auto]|].
  pose proof (free_tasks_ok p (sk s)) as Hf.
  assert (match (if ht then free_tasks_of p (sk s) else Next (sk s)) with
    | Next k' => (processes k' = processes (sk s) /\ spaces k' = spaces (sk s) /\ cpus k' = cpus (sk s)) /\
        forall j, tasks k' !!! j = if ht && (0 <=? j) && (j <? K_MAX_TASKS) && bool_decide (t_process (tasks (sk s) !!! j) = Some p) then task0 else tasks (sk s) !!! j
    | Exit k' => processes k' = processes (sk s) end) as Hk.
  { destruct ht; [|done]. destruct (free_tasks_of p (sk s)); [exact Hf|]. by destruct Hf as (n & (Hr & _) & _). }
  clear Hf. destruct (if ht then _ else _) as [k|k]; [|intros [= <- <-]; left; split_and!; [done|intros q; unfold proc; cbn [sk modify]; by rewrite Hk|exists s; auto]].
  destruct Hk as [(Hp & Hs & _) Ht]. destruct (release_ok p (s <| sk := k |>)) as (R1 & R2 & R3 & _).
  remember (process_resources_release p (s <| sk := k |>)) as s1 eqn:Es. cbn [sk modify] in R3.
  assert (s1 = s \/ exists k, processes k = processes (sk s) /\ s1 = process_resources_release p (s <| sk := k |>)) as Hs1 by (right; by exists k).
  assert (forall q, proc (sk s1) q = proc (sk s) q) as Hproc by (intros q; unfold proc; by rewrite R3, Hp).
  destruct (p_as (proc (sk s1) p)) as [a|] eqn:Ha; [|intros [= <- <-]; left; split_and!; [done|done|exists s1; split_and!; (exact Hs1 || reflexivity)]].
  destruct (k_as_destroy _ a) as [k2 e2] eqn:Hd. apply as_destroy_ok in Hd.
  destruct Hd as [[He ->]|(-> & D1 & D2 & _ & D3 & _)].
  - rewrite (proj2 (Z.eqb_neq e2 0)) by done. intros [= <- <-]. left. split_and!; [done|done|exists s1; split_and!; (exact Hs1 || reflexivity)].
  - intros [= <- <-]. right. split; [done|].
    split; try done; cbn [sk services partitions input_owner modify].
    + intros Hid. unfold ht in Hz. rewrite (proj2 (Z.eqb_neq _ 0)) in Hz by done. cbn [negb andb] in Hz. by apply negb_false_iff, bool_decide_eq_true in Hz.
    + intros q. unfold proc, upd_process. cbn [processes modify]. rewrite tmod_lookup, D1. cbn [processes modify]. destruct (decide (p = q)) as [<-|Hne]; [reflexivity|apply Hproc].
    + exists a. rewrite <- Hproc. split; [done|]. unfold upd_process. cbn [spaces modify]. rewrite D3. by rewrite lookup_total_insert_eq.
    + intros i. unfold upd_process. cbn [tasks modify]. rewrite D2. cbn [tasks modify]. by rewrite R3, Ht.
    + exists k. rewrite <- Es. split_and!; (reflexivity || exact Hp).
Qed.
End Leases.

(** Process 7 without a task, holding a service, a partition and the input. *)
Definition demo_system : Process.system pmm unit :=
  mk_system ((kernel_boot demo_pages ∅ 1 0x200000 0 0 0)
    <| processes := {[ 0 := process0 <| p_used := true |> <| p_id := 7 |> <| p_as := Some 0 |> ]} |>
    <| spaces := {[ 0 := space0 <| as_used := true |> <| as_root := 0x201000 |> <| as_owner := Some 0 |> ]} |>)
    tt 8 7 {[ 3 := mk_service [97] 7 9 ]} {[ 0 := mk_partition 0 0 1 512 2048 4096 false false 7 false ]} 1.

(** * Grants *)
Section Grants.
Context {St D : Type}.
Implicit Types k : kernel St.
Abbreviation live k := (fun t => task_live k t = true).
Lemma swap_remove_app a x b : exists b', swap_remove (length a) (a ++ x :: b) = a ++ b' /\ b' ≡ₚ b.
Proof.
  unfold swap_remove. rewrite length_app. cbn [length].
  set (y0 := _ !!! (_ - 1)%nat). assert (<[length a := y0]> (a ++ x :: b) = a ++ y0 :: b) as -> by (rewrite <- (Nat.add_0_r (length a)) at 1; by rewrite insert_app_r).
  subst y0.
  destruct b as [|y b _] using rev_ind.
  - exists []. split; [|done]. cbn [length]. replace (length a + 1 - 1)%nat with (length a) by lia. rewrite take_app_length. by rewrite app_nil_r.
  - exists (y :: b). rewrite length_app. cbn [length]. replace (length a + S (length b + 1) - 1)%nat with (length a + S (length b))%nat by lia.
    split; [|by rewrite (Permutation_app_comm b [y])]. rewrite take_app_add. cbn [take]. rewrite take_app_length. f_equal. f_equal.
    rewrite app_comm_cons, app_assoc. apply (list_lookup_total_middle (a ++ x :: b) []). rewrite length_app. cbn [length]. lia.
Qed.
Lemma prune_filter fuel k a b : (length b <= fuel)%nat -> prune fuel k (length a) (a ++ b) ≡ₚ a ++ filter (live k) b.
Proof.
  revert a b. induction fuel as [|fuel IH]; intros a b Hb.
  - destruct b; [done|cbn in Hb; lia].
  - cbn [prune]. destruct b as [|x b].
    + rewrite app_nil_r, (proj2 (Nat.ltb_ge (length a) (length a))) by lia. cbn [negb]. by rewrite filter_nil, app_nil_r.
    + rewrite (proj2 (Nat.ltb_lt _ _)) by (rewrite length_app; cbn; lia). cbn [negb]. rewrite list_lookup_total_middle by done.
      cbn in Hb. rewrite filter_cons. destruct (task_live k x) eqn:Hx.
      * rewrite decide_True by done. specialize (IH (a ++ [x]) b ltac:(lia)). rewrite length_app in IH. cbn [length] in IH.
        rewrite Nat.add_1_r, <- !app_assoc in IH. done.
      * rewrite decide_False by congruence. destruct (swap_remove_app a x b) as (b' & -> & Hp).
        rewrite IH by (by rewrite Hp; lia). by rewrite Hp.
Qed.
Lemma grant_ok k p tid : let g := p_grants (proc k p) in let g0 := prune (length g) k 0 g in
  grant_locked k p tid =
  if bool_decide (tid ∈ g) then (k, 0)
  else (upd_process p (fun q => q <| p_grants := (if Z.of_nat (length g0) =? K_GRANTS then g0 else g0 ++ [tid]) |>) k,
        if Z.of_nat (length g0) =? K_GRANTS then K_E2BIG else 0).
Proof. cbv zeta. unfold grant_locked. destruct (bool_decide _); [done|]. cbv zeta. by destruct (_ =? K_GRANTS). Qed.
Lemma proc_update p f k q : proc (upd_process p f k) q = if decide (p = q) then f (proc k q) else proc k q.
Proof. unfold proc, upd_process. cbn [processes modify]. apply tmod_lookup. Qed.
End Grants.

(** A process's IPC grants stay distinct and at most 16; a grant keeps those of live tasks, adds only the task asked for, and
    is refused only when 16 live tasks have one. *)
Theorem grants_bounded {St} (k k' : kernel St) p tid e :
  grant_locked k p tid = (k', e) -> NoDup (p_grants (proc k p)) -> Z.of_nat (length (p_grants (proc k p))) <= K_GRANTS ->
  let g := p_grants (proc k p) in let g' := p_grants (proc k' p) in
  NoDup g' /\ Z.of_nat (length g') <= K_GRANTS /\
  (forall t, t ∈ g -> task_live k t = true -> t ∈ g') /\ (forall t, t ∈ g' -> t ∈ g \/ t = tid) /\
  (e = 0 -> tid ∈ g') /\
  (e <> 0 -> e = K_E2BIG /\ ~ (tid ∈ g) /\ Z.of_nat (length (filter (fun t => task_live k t = true) g)) = K_GRANTS) /\
  (forall q, q <> p -> proc k' q = proc k q).
Proof.
  intros Hg Hnd Hlen. cbv zeta. rewrite grant_ok in Hg. set (g := p_grants (proc k p)) in *.
  pose proof (prune_filter (length g) k [] g ltac:(lia)) as Hp. cbn [length app] in Hp. set (g0 := prune (length g) k 0 g) in *. clearbody g0.
  case_bool_decide as Hin.
  - injection Hg as <- <-. fold g. split_and!; try done. intros t Ht. by left.
  - injection Hg as <- <-. rewrite proc_update, decide_True by done. cbn [p_grants modify].
    assert (NoDup g0) as H0 by (rewrite Hp; by apply NoDup_filter).
    assert (forall t, t ∈ g0 <-> t ∈ g /\ task_live k t = true) as Hm by (intros t; rewrite Hp, list_elem_of_filter; tauto).
    assert (length g0 <= length g)%nat as Hl by (rewrite Hp; apply length_filter).
    assert (forall q, q <> p -> proc (upd_process p (fun x => x <| p_grants := (if Z.of_nat (length g0) =? K_GRANTS then g0 else g0 ++ [tid]) |>) k) q = proc k q) as Hq
      by (intros q Hq; rewrite proc_update; by rewrite decide_False).
    destruct (Z.eqb_spec (Z.of_nat (length g0)) K_GRANTS) as [E|E]; split_and!; try done.
    + lia.
    + intros t Ht Hv. apply Hm. done.
    + intros t Ht. left. by apply Hm.
    + intros _. split_and!; try done. by rewrite <- Hp.
    + apply NoDup_app. split_and!; [done| |apply NoDup_singleton]. intros t Ht [= ->]%list_elem_of_singleton. apply Hin. by apply Hm.
    + rewrite length_app. cbn [length]. lia.
    + intros t Ht Hv. apply elem_of_app. left. by apply Hm.
    + intros t [Ht|Ht%list_elem_of_singleton]%elem_of_app; [left; by apply Hm|by right].
    + intros _. apply elem_of_app. right. by apply list_elem_of_singleton.
Qed.
Lemma grants_bounded_witness :
  let k := (kernel_boot tt ∅ 1 0x200000 0 0 0) <| processes := {[ 2 := process0 <| p_grants := [5; 6] |> ]} |> in
  Z.of_nat (length (p_grants (proc (fst (grant_locked k 2 9)) 2))) <= K_GRANTS.
Proof.
  cbv zeta. pose proof (grants_bounded ((kernel_boot tt ∅ 1 0x200000 0 0 0) <| processes := {[ 2 := process0 <| p_grants := [5; 6] |> ]} |>)) as Hg.
  destruct (grant_locked _ 2 9) as [k' e] eqn:E. cbn [fst].
  exact (proj1 (proj2 (Hg k' 2 9 e E ltac:(apply (bool_decide_unpack _); vm_compute; exact I) ltac:(vm_compute; congruence)))).
Defined.
