(* ===== verification/Syscall.v ===== *)
(** The system-call interface, [src/kernel-src/kernel/process.c]:
    [syscall_dispatch], [syscall_extended], [admin_operation] and the copies
    from and to user memory they check.  Network calls ([net_syscall]) are a
    parameter. *)
From S2P Require Import Prelude Klib PageAlloc State Sched Sync Mmu Rief Disk Process Service.

Definition K_OPEN_WRITE : Z := 1.
Definition K_OPEN_CREATE : Z := 2.
Definition K_OPEN_TRUNC : Z := 4.
Definition K_OPEN_APPEND : Z := 8.
Definition K_OPEN_EXCL : Z := 16.
Definition K_WAIT_REAP : Z := 1.
Definition K_WAIT_NOHANG : Z := 2.
Definition K_PATH_MAX : Z := 256.
Definition K_INPUT_REPORT : Z := 24 + 1024.
Definition K_ADMIN_MEM_READ : Z := 1.
Definition K_ADMIN_MEM_WRITE : Z := 2.
Definition K_ADMIN_MAP_AT : Z := 3.
Definition K_ADMIN_DISK_READ : Z := 4.
Definition K_ADMIN_PART_CLAIM : Z := 5.
Definition K_ADMIN_PART_WRITE : Z := 7.
Definition K_ADMIN_PART_RELEASE : Z := 8.
Definition K_ADMIN_INPUT_CLAIM : Z := 9.
Definition K_ADMIN_INPUT_READ : Z := 10.
Definition K_ADMIN_INPUT_RELEASE : Z := 11.

(** * Structures as user memory holds them *)
Definition pad (n : nat) (l : list Z) : list Z := take n (l ++ replicate n 0).
Definition info_bytes (i : k_process_info) : list Z :=
  le_bytes (pi_id i) 4 ++ le_bytes (pi_task_id i) 4 ++ le_bytes (pi_state i) 4 ++ le_bytes (pi_fault_vector i) 4 ++
  le_bytes (pi_exit_code i) 4 ++ replicate 4 0 ++ le_bytes (pi_fault_address i) 8 ++ le_bytes (pi_fault_ip i) 8 ++
  pad 32 (pi_name i) ++ le_bytes (pi_parent i) 4 ++ le_bytes (pi_execution_class i) 4 ++ le_bytes (pi_cpu i) 4 ++ replicate 4 0 ++
  le_bytes (fst (pi_uuid i)) 8 ++ le_bytes (snd (pi_uuid i)) 8.
Definition SIZEOF_INFO : Z := 104.
Definition identity_bytes (i : k_identity) : list Z :=
  le_bytes (fst (id_uuid i)) 8 ++ le_bytes (snd (id_uuid i)) 8 ++ le_bytes (id_pid i) 4 ++ le_bytes (id_parent i) 4 ++
  le_bytes (id_execution_class i) 4 ++ le_bytes (id_cpu i) 4 ++ le_bytes (id_tls i) 8 ++ replicate 24 0.
Definition bool_word (b : bool) : list Z := le_bytes (if b then 1 else 0) 4.
Definition partition_bytes (x : k_partition_info) : list Z :=
  le_bytes (pt_id x) 4 ++ le_bytes (pt_disk x) 4 ++ le_bytes (pt_number x) 4 ++ le_bytes (pt_sector_size x) 4 ++
  le_bytes (pt_start x) 8 ++ le_bytes (pt_sectors x) 8 ++ bool_word (pt_read_only x) ++ bool_word (pt_mounted x) ++
  le_bytes (pt_owner_pid x) 4 ++ bool_word (pt_failed x).
Definition message_bytes (x : k_message) : list Z := le_bytes (m_sender x) 4 ++ le_bytes (m_size x) 4 ++ pad 128 (m_bytes x).
Definition SIZEOF_MESSAGE : Z := 136.
Fixpoint le_value (l : list Z) : Z := match l with [] => 0 | b :: l => b + 256 * le_value l end.
Definition field (l : list Z) (off n : nat) : Z := le_value (take n (drop off l)).
Record k_admin_request := mk_admin {
  ar_version : Z; ar_size : Z; ar_operation : Z; ar_flags : Z; ar_caller_uuid : Z * Z; ar_target_uuid : Z * Z;
  ar_target_pid : Z; ar_resource : Z; ar_address : Z; ar_length : Z; ar_value : Z; ar_buffer : Z }.
Definition SIZEOF_ADMIN : Z := 88.
Definition read_admin (l : list Z) : k_admin_request :=
  mk_admin (field l 0 4) (field l 4 4) (field l 8 4) (field l 12 4) (field l 16 8, field l 24 8) (field l 32 8, field l 40 8)
    (field l 48 4) (field l 52 4) (field l 56 8) (field l 64 8) (field l 72 8) (field l 80 8).

(** What a system call does to its task: return, yield and then return, give
    up the processor and be repeated, or never return. *)
Inductive outcome := Ret (v : Z) | Yield (v : Z) | Retry | Gone.

Section Syscall.
Context {St D : Type} `{PageSource St} `{Devices D}.
Context (has_nx smp : bool) (process_mutex : Z).
Abbreviation system := (system St D).
(** [net_syscall(p, f)] on CPU [c]. *)
Context (net_syscall : system -> Z -> Z -> Z -> (Z -> Z) -> system * outcome).
(** Time and the identity seed when the call runs. *)
Context (now timer_hz seed : Z).
Implicit Types k : kernel St.
Abbreviation locked := (locked process_mutex).

Definition upd_proc (p : Z) (f : k_process -> k_process) (s : system) : system := on_kernel (upd_process p f) s.
Definition done (s : system) (e : Z) : option (system * outcome) := Some (s, Ret e).
(** [int e = f(...)] on the kernel. *)
Definition check (s : system) (p address bytes : Z) (write : bool) : system * Z := lift (fun k => k_as_check k p address bytes write) s.
Definition to_user (s : system) (p u : Z) (data : list Z) : system * Z := lift (fun k => k_copy_to_user k p u data) s.
Definition from_user (s : system) (p u n : Z) : system * (Z + list Z) := lift (fun k => k_copy_from_user k p u n) s.
(** A locked call whose result is the system call's. *)
Definition finish (r : system * option Z) : option (system * outcome) :=
  match r with (s, Some e) => Some (s, Ret e) | (s, None) => Some (s, Retry) end.
Definition result (s : system) (r : Z + Z) : option (system * outcome) := Some (s, Ret (match r with inl e => e | inr v => v end)).

(** * Strings from user memory, a byte at a time *)
Definition string_step (p address i : Z) (on_nul : list Z -> Z + list Z) (st : system * list Z) : flow (system * list Z) (system * (Z + list Z)) :=
  let '(s, out) := st in
  if K_USER_CANON_LIMIT - 1 - i <? address then Exit (s, inl K_EFAULT)
  else
    match from_user s p (u64 (address + i)) 1 with
    | (s, inl _) => Exit (s, inl K_EFAULT)
    | (s, inr data) =>
        let c := default 0 (head data) in
        if c =? 0 then Exit (s, on_nul out) else Next (s, out ++ [c])
    end.
Definition user_string (s : system) (p address : Z) : system * (Z + list Z) :=
  match for_range 0 K_PATH_MAX (fun i => string_step p address i (fun out => if i =? 0 then inl K_EINVAL else inr out)) (s, []) with
  | Exit r => r
  | Next (s, _) => (s, inl K_E2BIG)
  end.
Definition user_args (s : system) (p address : Z) : system * (Z + list Z) :=
  if address =? 0 then (s, inr [])
  else
    match for_range 0 K_PROCESS_ARGS_MAX (fun i => string_step p address i inr) (s, []) with
    | Exit r => r
    | Next (s, _) => (s, inl K_E2BIG)
    end.

(** * Files *)
Definition fd_in (fd : Z) : bool := (3 <=? fd) && (fd <? 16).
Definition fd_open (q : k_process) (fd : Z) : bool := negb (zget (p_fd_used q) fd =? 0).
Definition set_file (p fd : Z) (f : k_file) (s : system) : system := upd_proc p (fun q => q <| p_files ::= <[fd := f]> |>) s.
Definition set_offset (p fd v : Z) (s : system) : system := upd_proc p (fun q => q <| p_fd_offset ::= (fun m => zput m fd v) |>) s.
Definition sys_write_file (s : system) (p fd buffer n : Z) : option (system * outcome) :=
  let q := proc (sk s) p in
  if negb (fd_open q fd) || negb (has (zget (p_fd_flags q) fd) K_OPEN_WRITE) then done s K_EPERM
  else if 4096 <? n then done s K_E2BIG
  else if n =? 0 then done s 0
  else
    match from_user s p buffer n with
    | (s, inl e) => done s e
    | (s, inr data) =>
        let append := has (zget (p_fd_flags (proc (sk s) p)) fd) K_OPEN_APPEND in
        let off := if append then 2 ^ 64 - 1 else zget (p_fd_offset (proc (sk s) p)) fd in
        match k_vfs_write (sdev s) (p_files (proc (sk s) p) !!! fd) off data with
        | (d, file, res) =>
            let s := set_file p fd file (s <| sdev := d |>) in
            match res with
            | inl e => done s e
            | inr written => done (set_offset p fd (if append then f_size file else u64 (off + written)) s) written
            end
        end
    end.
(** Console output replaces every byte that is neither printable nor a newline. *)
Definition console_char (c : Z) : Z := if (c =? 10) || ((32 <=? c) && (c <? 127)) then c else 63.
Definition write_chunk (p buffer n i : Z) (s : system) : flow system (system * Z) :=
  match from_user s p (u64 (buffer + i * 128)) (Z.min (n - i * 128) 128) with
  | (s, inl e) => Exit (s, e)
  | (s, inr data) => Next (s <| sdev ::= (fun d => foldl (fun d c => con_putc d (console_char c)) d data) |>)
  end.
Definition sys_write (s : system) (p fd buffer n : Z) : option (system * outcome) :=
  if fd_in fd then sys_write_file s p fd buffer n
  else if negb (fd =? 1) && negb (fd =? 2) then done s K_EINVAL
  else if 4096 <? n then done s K_E2BIG
  else if n =? 0 then done s 0
  else
    let '(s, e) := check s p buffer n false in
    if negb (e =? 0) then done s e
    else
      match for_range 0 ((n + 127) / 128) (write_chunk p buffer n) s with
      | Exit (s, e) => done s e
      | Next s => done s n
      end.
(** The file object is stored when the descriptor is published; before that
    its slot is unused and cannot be observed. *)
Definition sys_open (s : system) (p name flags : Z) : option (system * outcome) :=
  if negb (Z.land flags (u64 (Z.lnot 31)) =? 0) || (negb (Z.land flags 30 =? 0) && negb (has flags K_OPEN_WRITE)) ||
     (has flags K_OPEN_EXCL && negb (has flags K_OPEN_CREATE)) then done s K_EINVAL
  else
    match user_string s p name with
    | (s, inl e) => done s e
    | (s, inr path) =>
        match find_range 3 16 (fun fd => negb (fd_open (proc (sk s) p) fd)) with
        | None => done s K_E2BIG
        | Some fd =>
            let '(d, r) := k_vfs_open (sdev s) path in
            if (if r is inr _ then true else false) && has flags K_OPEN_EXCL then done (s <| sdev := d |>) K_EEXIST
            else
              let '(d, r) := match r with
                             | inl e => if (e =? K_ENOENT) && has flags K_OPEN_CREATE then k_vfs_create d path else (d, r)
                             | inr _ => (d, r)
                             end in
              let s := s <| sdev := d |> in
              match r with
              | inl e => done s e
              | inr file =>
                  if has (f_attributes file) 0x10 then done s K_EINVAL
                  else if (f_kind file =? 3) && negb (p_execution_class (proc (sk s) p) =? K_EXEC_RING1) then done s K_EPERM
                  else
                    let '(s, r) :=
                      if has flags K_OPEN_TRUNC then
                        let '(d, e) := k_vfs_put (sdev s) path [] in
                        if negb (e =? 0) then (s <| sdev := d |>, inl e)
                        else let '(d, r) := k_vfs_open d path in (s <| sdev := d |>, r)
                      else (s, inr file) in
                    match r with
                    | inl e => done s e
                    | inr file =>
                        done (upd_proc p (fun q => q <| p_fd_flags ::= (fun m => zput m fd (u32 flags)) |> <| p_fd_used ::= (fun m => zput m fd 1) |>
                                <| p_fd_offset ::= (fun m => zput m fd 0) |>) (set_file p fd file s)) fd
                    end
              end
        end
    end.
Definition sys_read (s : system) (p fd buffer n : Z) : option (system * outcome) :=
  if negb (fd_in fd) || negb (fd_open (proc (sk s) p) fd) then done s K_EINVAL
  else if 4096 <? n then done s K_E2BIG
  else if n =? 0 then done s 0
  else
    let '(s, e) := check s p buffer n true in
    if negb (e =? 0) then done s e
    else
      match k_vfs_read (sdev s) (p_files (proc (sk s) p) !!! fd) (zget (p_fd_offset (proc (sk s) p)) fd) n with
      | (d, file, res) =>
          let s := set_file p fd file (s <| sdev := d |>) in
          match res with
          | inl e => done s e
          | inr data =>
              let got := Z.of_nat (length data) in
              let '(s, e) := to_user s p buffer data in
              if negb (e =? 0) then done s e
              else done (set_offset p fd (u64 (zget (p_fd_offset (proc (sk s) p)) fd + got)) s) got
          end
      end.
Definition sys_seek (s : system) (p fd off whence : Z) : option (system * outcome) :=
  if negb (fd_in fd) || negb (fd_open (proc (sk s) p) fd) || (2 <? whence) then done s K_EINVAL
  else
    let '(s, e) :=
      if whence =? 2 then
        let '(d, file, e) := k_vfs_stat (sdev s) (p_files (proc (sk s) p) !!! fd) in (set_file p fd file (s <| sdev := d |>), e)
      else (s, 0) in
    if negb (e =? 0) then done s e
    else
      let q := proc (sk s) p in
      let base := if whence =? 0 then 0 else if whence =? 1 then zget (p_fd_offset q) fd else f_size (p_files q !!! fd) in
      if 0x7fffffffffffffff <? base then done s K_EINVAL
      else
        let d := s64 off in
        if ((d <? 0) && (base <? u64 (- u64 d))) || ((0 <=? d) && (0x7fffffffffffffff - base <? d)) then done s K_EINVAL
        else done (set_offset p fd (u64 (base + u64 d)) s) (u64 (base + u64 d)).

(** * Messages *)
Definition sys_send (s : system) (c p target buffer n : Z) (allowed : bool) : option (system * outcome) :=
  if (K_IPC_BYTES <? n) || (0xffffffff <? target) then done s K_EINVAL
  else if negb allowed then done s K_EPERM
  else
    match from_user s p buffer n with
    | (s, inl e) => done s e
    | (s, inr data) => let '(s, e) := lift (fun k => k_ipc_send k c target (Some data)) s in done s e
    end.
Definition sys_recv (s : system) (c p buffer n : Z) : option (system * outcome) :=
  if n <? SIZEOF_MESSAGE then done s K_EINVAL
  else
    let '(s, e) := check s p buffer SIZEOF_MESSAGE true in
    if negb (e =? 0) then done s e
    else
      match k_ipc_receive (sk s) c true with
      | (k, e, msg) =>
          let s := s <| sk := k |> in
          if negb (e =? 0) then done s e
          else let '(s, e) := to_user s p buffer (message_bytes (default message0 msg)) in done s e
      end.

(** * Administrative requests of Ring 1 processes *)

(** The target may be inspected: it is the caller, has no task, or is stopped
    and no processor stands on its stack. *)
Definition target_safe (k : kernel St) (p target : Z) : bool :=
  match process_task k target with
  | None => true
  | Some i =>
      bool_decide (target = p) ||
      (bool_decide (t_state (tasks k !!! i) = K_TASK_STOPPED) && negb (any_range 0 (discovered_cpus k) (on_cpu k i)))
  end.
(** One direction of a remote copy: from [src] at [u] to [dst] at [v]. *)
Definition remote_copy (s : system) (src u dst v n : Z) : system * Z :=
  match from_user s src u n with
  | (s, inl e) => (s, e)
  | (s, inr data) => to_user s dst v data
  end.
Definition admin_memory (s : system) (p : Z) (r : k_admin_request) : system * Z :=
  match process_by_pid (sk s) (ar_target_pid r) with
  | None => (s, K_ENOENT)
  | Some target =>
      if negb (bool_decide (p_uuid (proc (sk s) target) = ar_target_uuid r)) then (s, K_ENOENT)
      else if negb (target_safe (sk s) p target) then (s, K_EBUSY)
      else if ar_operation r =? K_ADMIN_MAP_AT then
        if 7 <? ar_value r then (s, K_EINVAL)
        else lift (fun k => arch_as_map_at has_nx smp k target (ar_address r) (ar_length r) (ar_value r)) s
      else if (ar_length r =? 0) || (4096 <? ar_length r) then (s, K_EINVAL)
      else
        let write := ar_operation r =? K_ADMIN_MEM_WRITE in
        let '(s, e) := check s p (ar_buffer r) (ar_length r) (negb write) in
        if negb (e =? 0) then (s, e)
        else
          let '(s, e) := check s target (ar_address r) (ar_length r) write in
          if negb (e =? 0) then (s, e)
          else if write then remote_copy s p (ar_buffer r) target (ar_address r) (ar_length r)
          else remote_copy s target (ar_address r) p (ar_buffer r) (ar_length r)
  end.
Definition admin_input (s : system) (c p : Z) (r : k_admin_request) : system * Z :=
  let id := p_id (proc (sk s) p) in
  if negb (c =? 0) then (s, K_EPERM)
  else if ar_operation r =? K_ADMIN_INPUT_CLAIM then
    if negb (input_owner s =? 0) && negb (input_owner s =? id) then (s, K_EBUSY) else (s <| input_owner := id |>, 0)
  else if negb (input_owner s =? id) then (s, K_EPERM)
  else if ar_operation r =? K_ADMIN_INPUT_RELEASE then (s <| input_owner := 0 |>, 0)
  else if negb (ar_length r =? K_INPUT_REPORT) then (s, K_EINVAL)
  else
    let '(s, e) := check s p (ar_buffer r) K_INPUT_REPORT true in
    if negb (e =? 0) then (s, e)
    else
      match k_input_read (k_input_pump (sdev s)) with
      | (d, inl e) => (s <| sdev := d |>, e)
      | (d, inr report) => to_user (s <| sdev := d |>) p (ar_buffer r) report
      end.
(** The lease operations on a partition; [None]: the request is a transfer. *)
Definition admin_lease (s : system) (id : Z) (r : k_admin_request) : option (system * Z) :=
  let part := partitions s !!! ar_resource r in
  let owner v := s <| partitions ::= tmod (ar_resource r) (fun x => x <| pt_owner_pid := v |>) |> in
  if ar_operation r =? K_ADMIN_PART_CLAIM then
    Some (if pt_read_only part || pt_mounted part || pt_failed part then (s, K_EROFS)
          else if negb (pt_owner_pid part =? 0) && negb (pt_owner_pid part =? id) then (s, K_EBUSY)
          else (owner id, 0))
  else if negb (pt_owner_pid part =? id) then Some (s, K_EPERM)
  else if ar_operation r =? K_ADMIN_PART_RELEASE then Some (owner 0, 0)
  else if pt_failed part then Some (s, K_EROFS)
  else None.
(** The transfer of whole sectors between user memory and sectors
    [start + address] of a disk; a failed write quarantines the partition. *)
Definition admin_transfer (s : system) (p disk start limit : Z) (part : bool) (r : k_admin_request) : system * Z :=
  let sector := disk_sector_size (sdev s) disk in
  if (ar_length r =? 0) || (4096 <? ar_length r) || negb (ar_length r mod sector =? 0) || (limit <=? ar_address r) ||
     (limit - ar_address r <? ar_length r / sector) then (s, K_EINVAL)
  else
    let write := ar_operation r =? K_ADMIN_PART_WRITE in
    let '(s, e) := check s p (ar_buffer r) (ar_length r) (negb write) in
    if negb (e =? 0) then (s, e)
    else if write then
      match from_user s p (ar_buffer r) (ar_length r) with
      | (s, inl e) => (s, e)
      | (s, inr data) =>
          let '(d, e) := disk_write_fs (sdev s) disk (u64 (start + ar_address r)) data in
          let '(d, e) := if e =? 0 then disk_flush d disk else (d, e) in
          let s := s <| sdev := d |> in
          (if negb (e =? 0) && part then s <| partitions ::= tmod (ar_resource r) (fun x => x <| pt_failed := true |>) |> else s, e)
      end
    else
      match k_disk_read (sdev s) disk (u64 (start + ar_address r)) (ar_length r / sector) with
      | (d, inl e) => (s <| sdev := d |>, e)
      | (d, inr data) => to_user (s <| sdev := d |>) p (ar_buffer r) data
      end.
Definition admin_disk (s : system) (p : Z) (r : k_admin_request) : system * Z :=
  if ar_operation r =? K_ADMIN_DISK_READ then
    if k_disk_count (sdev s) <=? ar_resource r then (s, K_ENOENT)
    else admin_transfer s p (ar_resource r) 0 (disk_sectors (sdev s) (ar_resource r)) false r
  else if partition_count s <=? ar_resource r then (s, K_ENOENT)
  else
    match admin_lease s (p_id (proc (sk s) p)) r with
    | Some res => res
    | None => let part := partitions s !!! ar_resource r in admin_transfer s p (pt_disk part) (pt_start part) (pt_sectors part) true r
    end.
Definition admin_operation (s : system) (c p : Z) (r : k_admin_request) : option (system * outcome) :=
  let q := proc (sk s) p in
  if negb (p_execution_class q =? K_EXEC_RING1) || negb (bool_decide (ar_caller_uuid r = p_uuid q)) then done s K_EPERM
  else if negb (ar_version r =? 1) || negb (ar_size r =? SIZEOF_ADMIN) || negb (ar_flags r =? 0) then done s K_EINVAL
  else if (K_ADMIN_MEM_READ <=? ar_operation r) && (ar_operation r <=? K_ADMIN_MAP_AT) then
    finish (locked c id (fun s => admin_memory s p r) s)
  else if (ar_operation r =? K_ADMIN_INPUT_CLAIM) || (ar_operation r =? K_ADMIN_INPUT_RELEASE) || (ar_operation r =? K_ADMIN_INPUT_READ) then
    let '(s, e) := admin_input s c p r in done s e
  else if (ar_operation r <? K_ADMIN_DISK_READ) || (K_ADMIN_PART_RELEASE <? ar_operation r) then done s K_ENOTSUP
  else finish (locked c id (fun s => admin_disk s p r) s).

(** * Processes *)
Definition sys_spawn (s : system) (c p : Z) (a : Z -> Z) : option (system * outcome) :=
  match user_string s p (a 0) with
  | (s, inl e) => done s e
  | (s, inr path) =>
      match user_args s p (a 1) with
      | (s, inl e) => done s e
      | (s, inr args) =>
          if negb (a 2 =? K_EXEC_RING1) && negb (a 2 =? K_EXEC_RING3) then done s K_EINVAL
          else if negb (a 3 =? 2 ^ 64 - 1) && (K_CPU_AUTO <? a 3) then done s K_EINVAL
          else
            match k_process_launch has_nx smp process_mutex s c (Some path) (Some args) (u32 (a 2)) (u32 (a 3)) (p_id (proc (sk s) p)) seed true with
            | (s, None) => Some (s, Retry)
            | (s, Some (e, pid)) => done s (if e =? 0 then pid else e)
            end
      end
  end.
Definition sys_procinfo (s : system) (p index buffer : Z) : option (system * outcome) :=
  if MAX_PROCESSES <=? index then done s K_EINVAL
  else
    let '(s, e) := check s p buffer SIZEOF_INFO true in
    if negb (e =? 0) then done s e
    else
      match k_process_get (sk s) index true with
      | inl e => done s e
      | inr info => let '(s, e) := to_user s p buffer (info_bytes info) in done s e
      end.
(** One round of [K_SYS_WAITPID] under the mutex. *)
Definition wait_round (p pid buffer options : Z) (s : system) : system * Z :=
  match process_by_pid (sk s) pid with
  | None => (s, K_ENOENT)
  | Some target =>
      if bool_decide (target = p) then (s, K_ENOENT)
      else if negb (p_parent (proc (sk s) target) =? p_id (proc (sk s) p)) && negb (p_execution_class (proc (sk s) p) =? K_EXEC_RING1)
      then (s, K_EPERM)
      else if negb (bool_decide (p_state (proc (sk s) target) = K_TASK_ZOMBIE)) then (s, K_EAGAIN)
      else
        let '(s, e) :=
          match k_process_query (sk s) (p_id (proc (sk s) target)) true with
          | inl e => (s, e)
          | inr info => if negb (buffer =? 0) then to_user s p buffer (info_bytes info) else (s, 0)
          end in
        let '(s, e) := if (e =? 0) && has options K_WAIT_REAP then process_destroy_locked s target else (s, e) in
        (s, if e =? K_EBUSY then K_EAGAIN else e)
  end.
Definition sys_waitpid (s : system) (c i p pid buffer options : Z) : option (system * outcome) :=
  if (pid =? 0) || (0xffffffff <? pid) || negb (Z.land options (u64 (Z.lnot 3)) =? 0) then done s K_EINVAL
  else
    let '(s, e) := if negb (buffer =? 0) then check s p buffer SIZEOF_INFO true else (s, 0) in
    if negb (e =? 0) then done s K_EFAULT
    else
      match locked c id (wait_round p pid buffer options) s with
      | (s, None) => Some (s, Retry)
      | (s, Some e) =>
          if negb (e =? K_EAGAIN) || has options K_WAIT_NOHANG || negb (t_control_request (tasks (sk s) !!! i) =? 0) then done s e
          else Some (on_kernel (fun k => fst (k_sleep k c now timer_hz 1)) s, Retry)
      end.
Definition sys_control (s : system) (c p pid op : Z) : option (system * outcome) :=
  if (0xffffffff <? pid) || (0xffffffff <? op) then done s K_EINVAL
  else
    finish (locked c id (fun s =>
      match process_by_pid (sk s) pid with
      | None => (s, K_ENOENT)
      | Some target =>
          if negb (bool_decide (target = p)) && negb (p_parent (proc (sk s) target) =? p_id (proc (sk s) p)) &&
             negb (p_execution_class (proc (sk s) p) =? K_EXEC_RING1) then (s, K_EPERM)
          else lift (fun k => process_control_locked k (p_id (proc k target)) op) s
      end) s).
Definition sys_getargs (s : system) (p buffer capacity : Z) : option (system * outcome) :=
  let n := Z.of_nat (length (p_arguments (proc (sk s) p))) + 1 in
  if capacity <? n then done s K_E2BIG
  else
    let '(s, e) := to_user s p buffer (p_arguments (proc (sk s) p) ++ [0]) in
    done s (if negb (e =? 0) then e else n - 1).
(** A Ring 1 query that copies a structure out. *)
Definition sys_info (s : system) (p index buffer : Z) (get : Z -> Z + list Z) : option (system * outcome) :=
  if negb (p_execution_class (proc (sk s) p) =? K_EXEC_RING1) then done s K_EPERM
  else if 0xffffffff <? index then done s K_EINVAL
  else
    match get index with
    | inl e => done s e
    | inr data => let '(s, e) := to_user s p buffer data in done s e
    end.
Definition sys_service (s : system) (c p name : Z) (register : bool) : option (system * outcome) :=
  match user_string s p name with
  | (s, inl e) => done s e
  | (s, inr name) =>
      if register then let '(s, e) := service_register s p name in done s e
      else let '(s, r) := k_service_lookup s c (Some name) true in result s r
  end.

(** * Dispatch; [i] is the calling task, [p] its process, [c] its processor *)
Definition syscall_extended (s : system) (c i p number : Z) (a : Z -> Z) : option (system * outcome) :=
  if ((29 <=? number) && (number <=? 45)) then Some (net_syscall s c p number a)
  else
    match number with
    | 13 => sys_spawn s c p a
    | 14 => sys_procinfo s p (a 0) (a 1)
    | 15 => sys_waitpid s c i p (a 0) (a 1) (a 2)
    | 16 => sys_control s c p (a 0) (a 1)
    | 17 => match from_user s p (a 0) SIZEOF_ADMIN with (s, inl e) => done s e | (s, inr data) => admin_operation s c p (read_admin data) end
    | 18 => match k_process_identity (sk s) (p_id (proc (sk s) p)) true with
            | inl e => done s e
            | inr id => let '(s, e) := to_user s p (a 0) (identity_bytes id) in done s e
            end
    | 19 => sys_service s c p (a 0) true
    | 20 => sys_service s c p (a 0) false
    | 26 => sys_send s c p (a 0) (a 1) (a 2) (p_execution_class (proc (sk s) p) =? K_EXEC_RING1)
    | 21 => done s c
    | 22 => done s (s64 (p_tls (proc (sk s) p)))
    | 23 => sys_getargs s p (a 0) (a 1)
    | 24 => sys_seek s p (a 0) (a 1) (a 2)
    | 46 => if (7 <? a 2) || (3 <? a 3) then done s K_EINVAL
            else let '(s, r) := lift (fun k => k_as_alloc_ex has_nx smp k p (a 0) (a 1) (a 2) (a 3)) s in result s r
    | 25 => if 7 <? a 2 then done s K_EINVAL
            else let '(s, r) := lift (fun k => k_as_alloc has_nx smp k p (a 0) (a 1) (a 2)) s in result s r
    | 27 => sys_info s p (a 0) (a 1) (k_disk_get (sdev s))
    | 28 => sys_info s p (a 0) (a 1) (fun n => match k_partition_get s n true with inl e => inl e | inr x => inr (partition_bytes x) end)
    | _ => done s K_ENOTSUP
    end.
(** [None]: the kernel halts ([k_task_exit] of a task that may not exit). *)
Definition syscall_dispatch (s : system) (c number : Z) (a : Z -> Z) : option (system * outcome) :=
  match current_task (sk s) c with
  | None => done s K_EPERM
  | Some i =>
      match t_process (tasks (sk s) !!! i) with
      | None => done s K_EPERM
      | Some p =>
          match number with
          | 0 => match k_task_exit (sk s) c (s32 (a 0)) with Some k => Some (s <| sk := k |>, Gone) | None => None end
          | 1 => sys_write s p (a 0) (a 1) (a 2)
          | 2 => Some (s, Yield 0)
          | 3 => if 86400000 <? a 0 then done s K_EINVAL
                 else let '(k, yields) := k_sleep (sk s) c now timer_hz (a 0) in Some (s <| sk := k |>, if yields then Yield 0 else Ret 0)
          | 4 => done s (p_id (proc (sk s) p))
          | 5 => done s (s64 now)
          | 6 => sys_send s c p (a 0) (a 1) (a 2) true
          | 7 => sys_recv s c p (a 0) (a 1)
          | 8 => sys_open s p (a 0) (a 1)
          | 9 => sys_read s p (a 0) (a 1) (a 2)
          | 11 => match user_string s p (a 0) with
                  | (s, inl e) => done s e
                  | (s, inr path) => let '(d, e) := k_vfs_mkdir (sdev s) path in done (s <| sdev := d |>) e
                  end
          | 12 => let '(d, e) := k_vfs_sync (sdev s) in done (s <| sdev := d |>) e
          | 10 => if negb (fd_in (a 0)) || negb (fd_open (proc (sk s) p) (a 0)) then done s K_EINVAL
                  else done (upd_proc p (fun q => q <| p_fd_used ::= (fun m => zput m (a 0) 0) |>) s) 0
          | _ => syscall_extended s c i p number a
          end
      end
  end.
End Syscall.
