(* ===== verification/Confine.v ===== *)
(** What an ordinary process's system calls cannot do: become or make a Ring 1
    process, take a partition, the input or a service name.  The relation
    [confined] is a preorder that every operation reached from
    [syscall_dispatch] without Ring 1 respects. *)
From S2P Require Import Prelude Klib Pmm PageAlloc State Sched Sync Mmu Rief Disk Process Service Syscall MmuProps Leases.

Section Confine.
Context {St D : Type} `{PageSource St} `{Devices D}.
Context (has_nx smp : bool) (process_mutex : Z).
Implicit Types k : kernel St.
Abbreviation system := (system St D).
Implicit Types s : system.

(** * Kernel states *)
Definition class k q : Z := p_execution_class (processes k !!! q).
Definition keeps k k' : Prop := forall q, class k' q = K_EXEC_RING1 -> class k q = K_EXEC_RING1.
#[global] Instance keeps_preorder : PreOrder keeps.
Proof. split; [intros k q; done|intros a b c Ha Hb q Hq; by apply Ha, Hb]. Qed.
Lemma keeps_same k k' : processes k' = processes k -> keeps k k'.
Proof. intros E q. unfold class. by rewrite E. Qed.
Lemma keeps_process p f k : (p_execution_class (f (processes k !!! p)) = K_EXEC_RING1 -> class k p = K_EXEC_RING1) -> keeps k (upd_process p f k).
Proof.
  intros Hf q. unfold class, upd_process. cbn [processes modify]. rewrite tmod_lookup.
  destruct (decide (p = q)) as [->|]; done.
Qed.
Lemma keeps_update p f k : (forall q, p_execution_class (f q) = p_execution_class q) -> keeps k (upd_process p f k).
Proof. intros Hf. apply keeps_process. by rewrite Hf. Qed.
Lemma keeps_fold (f : Z -> kernel St -> kernel St) lo hi k : lo <= hi -> (forall i k, keeps k (f i k)) -> keeps k (fold_range lo hi f k).
Proof. intros Hle Hf. apply (fold_range_inv (fun _ k' => keeps k k')); [done|done|]. intros i k' _ Hk. by rewrite Hk. Qed.
(** ** Scheduling and locking leave the process table alone *)
Lemma task_ready_processes i k : processes (task_ready i k) = processes k.
Proof. unfold task_ready, cpu_floor. by destruct (_ && _). Qed.
Lemma wake_object_keeps o k : keeps k (wake_object o k).
Proof.
  apply keeps_fold; [by vm_compute|]. intros i k'. unfold wake_step. destruct (_ && _); [|done]. apply keeps_same, task_ready_processes.
Qed.
Lemma mutex_lock_keeps k c m : keeps k (fst (k_mutex_lock k c m)).
Proof. unfold k_mutex_lock. repeat case_match; by apply keeps_same. Qed.
Lemma mutex_unlock_keeps k c m : keeps k (fst (k_mutex_unlock k c m)).
Proof. unfold k_mutex_unlock. repeat case_match; try done. cbn [fst]. rewrite <- wake_object_keeps. by apply keeps_same. Qed.
Lemma sleep_keeps k c now hz ms : keeps k (fst (k_sleep k c now hz ms)).
Proof. unfold k_sleep. repeat case_match; by apply keeps_same. Qed.
Lemma send_keeps k c target data : keeps k (fst (k_ipc_send k c target data)).
Proof. unfold k_ipc_send. repeat case_match; by apply keeps_same. Qed.
Lemma receive_keeps k c msg : keeps k (fst (fst (k_ipc_receive k c msg))).
Proof. unfold k_ipc_receive. repeat case_match; by apply keeps_same. Qed.
Lemma exit_keeps k c code k' : k_task_exit k c code = Some k' -> keeps k k'.
Proof.
  unfold k_task_exit. repeat case_match; try done; intros [= <-]; [|by apply keeps_same].
  etrans; [|by apply keeps_update]. by apply keeps_same.
Qed.
Lemma new_task_processes k name entry arg weight cpu idle : processes (fst (new_task k name entry arg weight cpu idle)) = processes k.
Proof.
  unfold new_task, cpu_floor. destruct (_ =? 0); [done|]. destruct (find_range _ _ _) as [i|]; [|done].
  destruct (pa_alloc _ _ _ _) as [[pages ram] stack]. destruct (stack =? 0); [done|]. destruct (_ && _), idle; done.
Qed.
Lemma free_task_processes i k : processes (free_task i k) = processes k.
Proof. unfold free_task. by destruct (_ =? 0). Qed.
(** ** Memory of a process *)
Lemma set_space_processes p a k : processes (set_space p a k) = processes k.
Proof. unfold set_space. by destruct (p_as _). Qed.
Lemma check_keeps k p address bytes write : keeps k (fst (k_as_check k p address bytes write)).
Proof. unfold k_as_check. destruct (as_check _ _ _ _ _). by apply keeps_same. Qed.
Lemma alloc_keeps k p bytes align rwx : keeps k (fst (k_as_alloc has_nx smp k p bytes align rwx)).
Proof. unfold k_as_alloc. destruct (as_alloc _ _ _ _ _ _ _) as [[m [a|]] r]; cbn [fst]; apply keeps_same; rewrite ?set_space_processes; reflexivity. Qed.
Lemma alloc_ex_keeps k p bytes align rwx options : keeps k (fst (k_as_alloc_ex has_nx smp k p bytes align rwx options)).
Proof. unfold k_as_alloc_ex. destruct (as_alloc_ex _ _ _ _ _ _ _ _) as [[m [a|]] r]; cbn [fst]; apply keeps_same; rewrite ?set_space_processes; reflexivity. Qed.
Lemma to_user_keeps k p u data : keeps k (fst (k_copy_to_user k p u data)).
Proof. unfold k_copy_to_user. destruct (default _ _). by apply keeps_same. Qed.
Lemma from_user_keeps k p u n : keeps k (fst (k_copy_from_user k p u n)).
Proof. unfold k_copy_from_user. destruct (default _ _). by apply keeps_same. Qed.
(** ** Grants and control *)
Lemma grant_keeps k p tid : keeps k (fst (grant_locked k p tid)).
Proof. unfold grant_locked. repeat case_match; [done|..]; by apply keeps_update. Qed.
Lemma revoke_keeps p tid k : keeps k (revoke p tid k).
Proof. unfold revoke. destruct (list_find _ _) as [[j g]|]; [by apply keeps_update|done]. Qed.
Lemma wake_control_keeps p i k : keeps k (wake_for_control p i k).
Proof.
  unfold wake_for_control. transitivity (task_ready i k); [apply keeps_same, task_ready_processes|]. apply keeps_update. reflexivity.
Qed.
Lemma control_keeps k pid op : keeps k (fst (process_control_locked k pid op)).
Proof.
  unfold process_control_locked. destruct (_ || _); [done|]. destruct (process_by_pid k pid) as [p|]; [|done].
  destruct (process_task k p) as [i|]; [|done]. destruct (bool_decide _); [done|]. cbv zeta. cbn [fst].
  match goal with |- keeps _ (upd_cpu _ _ ?k1) => transitivity k1; [|by apply keeps_same] end.
  repeat first [ match goal with |- keeps _ (if ?b then _ else _) => destruct b end | etrans; [|apply wake_control_keeps] ];
    first [reflexivity | by apply keeps_same].
Qed.
(** * System states *)

(** An owner may lose what it has; nobody gains anything. *)
Definition same_or_none (v v' : Z) : Prop := v' = v \/ v' = 0.
#[global] Instance same_or_none_preorder : PreOrder same_or_none.
Proof. unfold same_or_none. split; [intros v; by left|intros a b c]. intros [->| ->] [->| ->]; auto. Qed.
Record confined s s' : Prop := {
  cf_class : keeps (sk s) (sk s');
  cf_input : same_or_none (input_owner s) (input_owner s');
  cf_partitions : forall i, same_or_none (pt_owner_pid (partitions s !!! i)) (pt_owner_pid (partitions s' !!! i));
  cf_services : forall i, same_or_none (s_pid (services s !!! i)) (s_pid (services s' !!! i))
}.
#[global] Instance confined_preorder : PreOrder confined.
Proof.
  split; [intros s; split; intros; reflexivity|]. intros a b c [A1 A2 A3 A4] [B1 B2 B3 B4].
  split; intros; etrans; (apply A1 || apply A2 || apply A3 || apply A4 || idtac); done.
Qed.
(** Only the kernel or the devices changed. *)
Lemma confined_kernel s k d n : keeps (sk s) k -> confined s (mk_system k d n (input_owner s) (services s) (partitions s) (partition_count s)).
Proof. intros Hk. split; intros; try reflexivity. exact Hk. Qed.
Lemma confined_sk s k : keeps (sk s) k -> confined s (s <| sk := k |>).
Proof. apply confined_kernel. Qed.
Lemma confined_on f s : keeps (sk s) (f (sk s)) -> confined s (on_kernel f s).
Proof. apply confined_kernel. Qed.
Lemma confined_dev s d : confined s (s <| sdev := d |>).
Proof. by apply confined_kernel. Qed.
Lemma confined_lift {A} (f : kernel St -> kernel St * A) s : (forall k, keeps k (fst (f k))) -> confined s (fst (lift f s)).
Proof. intros Hf. unfold lift. specialize (Hf (sk s)). destruct (f (sk s)) as [k r]. by apply confined_sk. Qed.

(** ** Creation, loading and start *)
Lemma as_create_processes k : processes (fst (k_as_create has_nx smp k)) = processes k.
Proof. unfold k_as_create. by destruct (as_create _ _ _) as [[m sp] r]. Qed.
Lemma create_confined s name seed : confined s (fst (process_create_locked has_nx smp s name seed)).
Proof.
  unfold process_create_locked. destruct name as [name|]; [|done]. destruct (next_process_id s =? 0); [done|].
  destruct (find_range _ _ _) as [p|]; [|done]. cbv zeta.
  match goal with |- context [k_as_create _ _ (sk ?s1)] => set (s1' := s1); pose proof (as_create_processes (sk s1')) as Hp end.
  assert (confined s s1') as H1 by (split; [apply (keeps_process p (fun _ => _)); vm_compute; congruence|intros; reflexivity..]).
  clearbody s1'. rewrite H1. clear H1.
  destruct (k_as_create has_nx smp (sk s1')) as [k [a|]]; cbn [fst] in *; apply confined_sk;
    (etrans; [apply (keeps_same _ k Hp)|]).
  - transitivity (upd_process p (fun q => q <| p_as := Some a |>) k); [by apply keeps_update|by apply keeps_same].
  - by apply keeps_update.
Qed.
Lemma load_class cfg (m : vm St) p a image size bindings count :
  p_execution_class (snd (fst (fst (rief_load_locked cfg m p a image size bindings count)))) = p_execution_class p.
Proof.
  unfold rief_load_locked. destruct (_ || _); [done|]. destruct (rief_layout _ _ _) as [e|[h regions]]; [done|].
  destruct (for_range _ _ _ _) as [[m1 imports]|[m1 e]]; [|done]. destruct (negb _); [done|]. destruct (export_names _ _ _ _); [|done].
  by destruct (rief_commit _ _ _ _ _ _ _) as [[m2 a2] [e|placed]].
Qed.
Lemma load_keeps k p image size bindings count : keeps k (fst (process_load_locked has_nx smp k p image size bindings count)).
Proof.
  unfold process_load_locked. destruct (negb _); [done|]. destruct (p_as _) as [a|]; [|done].
  pose proof (load_class (kcfg has_nx smp k) (vm_of k) (proc k p) (spaces k !!! a) image size bindings count) as Hc.
  destruct (rief_load_locked _ _ _ _ _ _ _ _) as [[[m q] x] e]. cbn [fst snd] in *.
  intros j. unfold class. change (processes (set_vm m k <| processes ::= <[p := q]> |> <| spaces ::= <[a := x]> |>)) with (<[p := q]> (processes k)).
  rewrite lookup_total_insert. case_decide; subst; [by rewrite Hc|done].
Qed.
Lemma stack_keeps k p : keeps k (fst (ensure_stack has_nx smp k p)).
Proof.
  unfold ensure_stack. destruct (negb _); [done|]. pose proof (alloc_keeps k p (8 * 4096) 4096 (Z.lor RIEF_REGION_R RIEF_REGION_W)) as Ha.
  destruct (k_as_alloc _ _ _ _ _ _ _) as [k1 [e|v]]; cbn [fst] in *; [done|]. rewrite Ha. by apply keeps_update.
Qed.
Lemma tls_keeps k p : keeps k (fst (ensure_tls has_nx smp k p)).
Proof.
  unfold ensure_tls. destruct (negb _); [done|]. pose proof (alloc_keeps k p K_TLS_BYTES 4096 (Z.lor RIEF_REGION_R RIEF_REGION_W)) as Ha.
  destruct (k_as_alloc _ _ _ _ _ _ _) as [k1 [e|v]]; cbn [fst] in *; [done|]. rewrite Ha. rewrite <- to_user_keeps. by apply keeps_update.
Qed.
Lemma start_keeps k p cpu id : keeps k (fst (fst (process_start_locked has_nx smp k p cpu id))).
Proof.
  unfold process_start_locked. destruct (_ || _); [done|]. pose proof (stack_keeps k p) as H1.
  destruct (ensure_stack _ _ _ _) as [k1 e1]. cbn [fst] in H1. destruct (negb _); [done|]. pose proof (tls_keeps k1 p) as H2.
  destruct (ensure_tls _ _ _ _) as [k2 e2]. cbn [fst] in H2. rewrite H1, H2. clear H1 H2. destruct (negb _); [done|].
  cbv zeta. set (c := if cpu =? K_CPU_AUTO then auto_cpu k2 else cpu). destruct (_ || _); [done|].
  pose proof (new_task_processes k2 (p_name (proc k2 p)) 0 0 1024 c false) as Hn.
  destruct (new_task _ _ _ _ _ _ _) as [k3 [i|]]; cbn [fst] in *; [|by apply keeps_same]. transitivity k3; [by apply keeps_same|]. clear Hn.
  match goal with |- context [k_copy_to_user ?k4 p ?u ?d] => assert (keeps k3 k4) as H4 by (by apply keeps_same); pose proof (to_user_keeps k4 p u d) as H5; set (k5 := fst (k_copy_to_user k4 p u d)) in * end.
  clearbody k5. rewrite H4, H5. clear. apply (keeps_update p _ (x86_64_user_context_init _ _ _ k5)). reflexivity.
Qed.

(** ** Destruction *)
Lemma cleared_owner v id : same_or_none v (if v =? id then 0 else v).
Proof. destruct (_ =? _); [by right|by left]. Qed.
Lemma release_confined p s : confined s (process_resources_release p s).
Proof.
  destruct (release_ok p s) as (R1 & R2 & R3 & _ & _ & R4). split; intros; rewrite ?R1, ?R2, ?R3, ?R4.
  - done.
  - apply cleared_owner.
  - cbv zeta. destruct (_ && _); [by right|by left].
  - destruct (_ && _); [by right|by left].
Qed.
Lemma released_confined s s' p : released s s' p -> keeps (sk s) (sk s') -> confined s s'.
Proof.
  intros (s1 & Hs & Es & Ep & Ei) Hk. assert (confined s s1) as [_ C2 C3 C4].
  { destruct Hs as [->|(k & E & ->)]; [done|]. transitivity (s <| sk := k |>); [by apply confined_sk, keeps_same|apply release_confined]. }
  split; intros; rewrite ?Es, ?Ep, ?Ei; done.
Qed.
Lemma destroy_confined s p : confined s (fst (process_destroy_locked s p)).
Proof.
  destruct (process_destroy_locked s p) as [s' e] eqn:Hd. cbn [fst].
  destruct (destroy_ok s p s' e Hd) as [(_ & Hq & Hr)|[_ [_ _ Hq _ _ (k & R1 & R2 & R3 & Hk)]]].
  - apply (released_confined s s' p Hr). intros q. unfold class. fold (proc (sk s') q). fold (proc (sk s) q). by rewrite Hq.
  - apply (released_confined s s' p).
    + exists (process_resources_release p (s <| sk := k |>)). split_and!; try done. right. by exists k.
    + intros q. unfold class. fold (proc (sk s') q). rewrite Hq. by case_decide.
Qed.

(** ** Under the process mutex *)
Lemma locked_confined {A} c (fail : Z -> A) body s :
  (forall k, k_mutex_lock (sk s) c process_mutex = (k, Return 0) -> confined (s <| sk := k |>) (fst (body (s <| sk := k |>)))) ->
  confined s (fst (locked process_mutex c fail body s)).
Proof.
  intros Hb. unfold locked. pose proof (mutex_lock_keeps (sk s) c process_mutex) as Hk.
  destruct (k_mutex_lock (sk s) c process_mutex) as [k [e|]]; cbn [fst] in Hk; [|by apply confined_sk].
  destruct (Z.eqb_spec e 0) as [->|]; cbn [negb]; [|by apply confined_sk]. specialize (Hb k eq_refl).
  destruct (body (s <| sk := k |>)) as [s1 r]. cbn [fst] in *.
  transitivity (s <| sk := k |>); [by apply confined_sk|]. rewrite Hb. apply confined_on, mutex_unlock_keeps.
Qed.

(** ** Reading and writing user memory *)

(** Nothing that says who runs and with which rights changed. *)
Record steady s s' : Prop := {
  sd_processes : processes (sk s') = processes (sk s);
  sd_cpus : cpus (sk s') = cpus (sk s);
  sd_tasks : tasks (sk s') = tasks (sk s);
  sd_confined : confined s s'
}.
#[global] Instance steady_preorder : PreOrder steady.
Proof. split; [intros s; by split|]. intros a b c [A1 A2 A3 A4] [B1 B2 B3 B4]. split; (by etrans) || congruence. Qed.
Lemma steady_vm m s : steady s (s <| sk := set_vm m (sk s) |>).
Proof. split; [reflexivity..|]. by apply confined_sk, keeps_same. Qed.
Lemma to_user_steady s p u data : steady s (fst (to_user s p u data)).
Proof. unfold to_user, lift, k_copy_to_user. destruct (default _ _) as [m e]. apply steady_vm. Qed.
Lemma from_user_steady s p u n : steady s (fst (from_user s p u n)).
Proof. unfold from_user, lift, k_copy_from_user. destruct (default _ _) as [m e]. apply steady_vm. Qed.
Lemma check_steady s p address bytes write : steady s (fst (check s p address bytes write)).
Proof. unfold check, lift, k_as_check. destruct (as_check _ _ _ _ _) as [m e]. apply steady_vm. Qed.
Lemma string_steady s p address n (on_nul : Z -> list Z -> Z + list Z) : 0 <= n ->
  match for_range 0 n (fun i => string_step p address i (on_nul i)) (s, []) with Exit (s', _) => steady s s' | Next (s', _) => steady s s' end.
Proof.
  intros Hn. pose proof (for_range_inv (fun _ x => steady s (fst x)) (fun x => steady s (fst x)) (fun i => string_step p address i (on_nul i)) 0 n (s, []) Hn) as Hl.
  destruct (for_range _ _ _ _) as [[s' l]|[s' r]]; apply Hl; try reflexivity; clear Hl.
  all: intros i [s1 out] Hi H1; cbn [fst] in H1; unfold string_step; destruct (_ <? address); [done|];
    pose proof (from_user_steady s1 p (u64 (address + i)) 1) as H2; destruct (from_user _ _ _ _) as [s2 [e|data]]; cbn [fst] in *;
    [by etrans|]; destruct (default 0 (head data) =? 0); cbn [fst]; by etrans.
Qed.
Lemma user_string_steady s p address : steady s (fst (user_string s p address)).
Proof.
  unfold user_string. pose proof (string_steady s p address K_PATH_MAX (fun i out => if i =? 0 then inl K_EINVAL else inr out) ltac:(by vm_compute)) as Hs.
  by destruct (for_range _ _ _ _) as [[s' l]|[s' r]].
Qed.
Lemma user_args_steady s p address : steady s (fst (user_args s p address)).
Proof.
  unfold user_args. destruct (address =? 0); [done|]. pose proof (string_steady s p address K_PROCESS_ARGS_MAX (fun _ => inr) ltac:(by vm_compute)) as Hs.
  by destruct (for_range _ _ _ _) as [[s' l]|[s' r]].
Qed.

(** ** Launch *)
Lemma on_same_confined f s : processes (f (sk s)) = processes (sk s) -> confined s (on_kernel f s).
Proof. intros E. by apply confined_on, keeps_same. Qed.
Lemma launch_confined s c path args cls cpu parent seed i p :
  current_task (sk s) c = Some i -> t_process (tasks (sk s) !!! i) = Some p -> class (sk s) p <> K_EXEC_RING1 ->
  confined s (fst (launch_locked has_nx smp s c path args cls cpu parent seed)).
Proof.
  intros Hcur Hproc Hcls. unfold launch_locked. rewrite Hcur. cbv beta iota zeta. rewrite Hproc. cbv beta iota zeta.
  match goal with |- context [if ?b then (s, (K_EPERM, 0)) else _] => destruct b eqn:Hperm; [done|] end.
  apply orb_false_elim in Hperm as [_ Hperm]. unfold class in Hcls. fold (proc (sk s) p) in Hcls.
  rewrite (proj2 (Z.eqb_neq (p_execution_class _) _)), andb_true_r in Hperm by done. apply Z.eqb_neq in Hperm.
  destruct (k_vfs_open _ _) as [d [e|file]]; [apply confined_dev|]. destruct (negb (launch_file_ok file)); [apply confined_dev|].
  set (s1 := s <| sdev := d |>). assert (confined s s1) as -> by apply confined_dev. clearbody s1. clear Hcur Hproc Hcls.
  destruct (vm_alloc _ _ _) as [m image]. set (s2 := on_kernel (set_vm m) s1). assert (confined s1 s2) as -> by (by apply on_same_confined). clearbody s2.
  destruct (image =? 0); [done|]. destruct (k_vfs_read _ _ _ _) as [[d2 f2] res]. cbv zeta.
  set (s3 := s2 <| sdev := d2 |>). assert (confined s2 s3) as -> by apply confined_dev. clearbody s3.
  assert (exists s4 e4, match res with
    | inl e => (s3, e)
    | inr data => (on_kernel (fun k => k <| k_ram ::= write_bytes image data |>) s3, if Z.of_nat (length data) =? f_size file then 0 else K_EIO)
    end = (s4, e4) /\ confined s3 s4) as (s4 & e4 & -> & ->) by (destruct res; do 2 eexists; (split; [reflexivity|]); [done|by apply on_same_confined]).
  cbv beta iota zeta.
  pose proof (create_confined s4 (Some path) seed) as Hcr.
  set (made := if e4 =? 0 then process_create_locked has_nx smp s4 (Some path) seed else (s4, None)).
  assert (confined s4 (fst made)) as -> by (unfold made; by destruct (e4 =? 0)). clearbody made. destruct made as [s5 po]. cbn [fst].
  match goal with |- context [if ?b then K_ENOMEM else e4] => generalize (if b then K_ENOMEM else e4); intros e5 end.
  destruct po as [q|]; [|cbn [fst]; by apply on_same_confined].
  match goal with |- context [lift ?f (on_kernel (upd_process q ?g) s5)] =>
    set (s6 := on_kernel (upd_process q g) s5); assert (confined s5 s6) as -> by (by apply confined_on, keeps_process);
    pose proof (confined_lift f s6 (fun k => load_keeps k q image (f_size file) None 0)) as Hload; destruct (lift f s6) as [s7 e7] end.
  cbn [fst] in Hload. rewrite Hload. clear.
  set (s8 := on_kernel _ s7). assert (confined s7 s8) as -> by (by apply on_same_confined). clearbody s8.
  assert (forall s9 (x : Z * Z), confined s8 s9 -> confined s8 (fst (let '(e, pid) := x in if e =? 0 then (s9, (0, pid)) else (fst (process_destroy_locked s9 q), (e, 0))))) as Hend.
  { intros s9 [e pid] H9. destruct (e =? 0); [done|]. cbn [fst]. rewrite H9. apply destroy_confined. }
  destruct (e7 =? 0); [|by apply (Hend s8 (e7, 0))].
  pose proof (start_keeps (sk s8) q cpu true) as Hst. destruct (process_start_locked _ _ _ _ _ _) as [[k9 e9] t9]. cbn [fst] in Hst.
  by apply (Hend (s8 <| sk := k9 |>) (e9, _)), confined_sk.
Qed.

(** * System calls *)
Definition guarded s (r : option (system * outcome)) : Prop := match r with Some (s', _) => confined s s' | None => True end.
Lemma guarded_trans s s1 r : confined s s1 -> guarded s1 r -> guarded s r.
Proof. intros H1. unfold guarded. destruct r as [[s2 o]|]; [|done]. intros H2. by etrans. Qed.
Lemma guarded_done s e : guarded s (done s e).
Proof. by cbn. Qed.
Lemma guarded_dev s d e : guarded s (done (s <| sdev := d |>) e).
Proof. apply confined_dev. Qed.
Lemma guarded_after s s1 e : confined s s1 -> guarded s (done s1 e).
Proof. done. Qed.
Lemma update_confined p f s : (forall q, p_execution_class (f q) = p_execution_class q) -> confined s (upd_proc p f s).
Proof. intros Hf. by apply confined_on, keeps_update. Qed.
Lemma set_file_confined p fd f s : confined s (set_file p fd f s).
Proof. by apply update_confined. Qed.
Lemma set_offset_confined p fd v s : confined s (set_offset p fd v s).
Proof. by apply update_confined. Qed.

(** Take the next step of a handler: a copy, a check, a choice. *)
Ltac past H := eapply guarded_trans; [exact H|clear H].
Ltac user_step :=
  match goal with
  | |- guarded _ (done _ _) => first [apply guarded_done | apply guarded_dev]
  | |- guarded _ (match to_user ?s ?p ?u ?d with _ => _ end) => let Hs := fresh in pose proof (sd_confined _ _ (to_user_steady s p u d)) as Hs;
      destruct (to_user s p u d) as [? ?]; cbn [fst] in Hs; past Hs
  | |- guarded _ (match from_user ?s ?p ?u ?n with _ => _ end) => let Hs := fresh in pose proof (sd_confined _ _ (from_user_steady s p u n)) as Hs;
      destruct (from_user s p u n) as [? [?|?]]; cbn [fst] in Hs; past Hs
  | |- guarded _ (match user_string ?s ?p ?u with _ => _ end) => let Hs := fresh in pose proof (sd_confined _ _ (user_string_steady s p u)) as Hs;
      destruct (user_string s p u) as [? [?|?]]; cbn [fst] in Hs; past Hs
  | |- guarded _ (match check ?s ?p ?u ?n ?w with _ => _ end) => let Hs := fresh in pose proof (sd_confined _ _ (check_steady s p u n w)) as Hs;
      destruct (check s p u n w) as [? ?]; cbn [fst] in Hs; past Hs
  | |- guarded _ (if ?b then _ else _) => destruct b
  end.

(** ** Files *)
Lemma write_file_guarded s p fd buffer n : guarded s (sys_write_file s p fd buffer n).
Proof.
  unfold sys_write_file. cbv zeta. repeat user_step. destruct (k_vfs_write _ _ _ _) as [[d file] [e|w]]; cbv zeta.
  - apply guarded_after. etrans; [apply confined_dev|apply set_file_confined].
  - apply guarded_after. etrans; [apply confined_dev|]. etrans; [apply set_file_confined|apply set_offset_confined].
Qed.
Lemma write_chunk_confined p buffer n lo hi s : match for_range lo hi (write_chunk p buffer n) s with Next s' => confined s s' | Exit x => confined s (fst x) end.
Proof.
  destruct (Z.le_gt_cases lo hi) as [Hle|Hgt]; [|by rewrite for_range_nil by lia].
  apply (for_range_inv (fun _ s' => confined s s') (fun x => confined s (fst x))); [done|done|].
  intros i s1 _ Hs. unfold write_chunk. pose proof (sd_confined _ _ (from_user_steady s1 p (u64 (buffer + i * 128)) (Z.min (n - i * 128) 128))) as H2.
  destruct (from_user _ _ _ _) as [s2 [e|data]]; cbn [fst] in *; rewrite Hs, H2; [done|apply confined_dev].
Qed.
Lemma write_guarded s p fd buffer n : guarded s (sys_write s p fd buffer n).
Proof.
  unfold sys_write. destruct (fd_in fd); [apply write_file_guarded|]. repeat user_step.
  match goal with |- guarded ?s0 (match for_range ?lo ?hi _ _ with _ => _ end) => pose proof (write_chunk_confined p buffer n lo hi s0) as Hl end.
  by destruct (for_range _ _ _ _) as [s'|[s' e]].
Qed.
Lemma open_guarded s p name flags : guarded s (sys_open s p name flags).
Proof.
  unfold sys_open. repeat user_step. destruct (find_range _ _ _) as [fd|]; [|user_step].
  destruct (k_vfs_open _ _) as [d r]. destruct (_ && _); [apply guarded_dev|].
  match goal with |- context [let '(d, r) := ?x in _] => destruct x as [d1 [e|file]] end; [apply guarded_dev|].
  eapply guarded_trans; [apply (confined_dev _ d1)|]. match goal with |- guarded ?s1 _ => generalize s1 end. clear. intros s1. repeat user_step.
  match goal with |- context [let '(s, r) := ?x in _] => assert (confined s1 (fst x)) as H1; [|destruct x as [s2 r2]] end.
  { destruct (has flags K_OPEN_TRUNC); [|done]. destruct (k_vfs_put _ _ _) as [d2 e]. destruct (negb _); [apply confined_dev|].
    destruct (k_vfs_open _ _) as [d3 r3]. apply confined_dev. }
  cbn [fst] in H1. past H1. destruct r2 as [e|file2]; [user_step|].
  apply guarded_after. etrans; [apply set_file_confined|]. by apply update_confined.
Qed.
Lemma read_guarded s p fd buffer n : guarded s (sys_read s p fd buffer n).
Proof.
  unfold sys_read. repeat user_step. destruct (k_vfs_read _ _ _ _) as [[d file] res]. cbv zeta.
  match goal with |- guarded ?s0 _ => set (s1 := set_file p fd file (s0 <| sdev := d |>)); assert (confined s0 s1) as H1
    by (etrans; [apply confined_dev|apply set_file_confined]); past H1; clearbody s1 end.
  destruct res as [e|data]; repeat user_step. apply guarded_after, set_offset_confined.
Qed.
Lemma seek_guarded s p fd off whence : guarded s (sys_seek s p fd off whence).
Proof.
  unfold sys_seek. user_step; [user_step|].
  match goal with |- context [let '(s, e) := ?x in _] => assert (confined s (fst x)) as H1; [|destruct x as [s1 e]] end.
  { destruct (whence =? 2); [|done]. destruct (k_vfs_stat _ _) as [[d file] e]. cbn [fst]. etrans; [apply confined_dev|apply set_file_confined]. }
  cbn [fst] in H1. past H1. cbv zeta. repeat user_step. apply guarded_after, set_offset_confined.
Qed.
(** ** Messages and memory *)
Lemma lift_guarded s (f : kernel St -> kernel St * Z) : (forall k, keeps k (fst (f k))) -> guarded s (let '(s, e) := lift f s in done s e).
Proof. intros Hf. pose proof (confined_lift f s Hf) as H1. by destruct (lift f s) as [s1 e]. Qed.
Lemma lift_result_guarded s (f : kernel St -> kernel St * (Z + Z)) : (forall k, keeps k (fst (f k))) -> guarded s (let '(s, r) := lift f s in result s r).
Proof. intros Hf. pose proof (confined_lift f s Hf) as H1. by destruct (lift f s) as [s1 e]. Qed.
Lemma sys_send_guarded s c p target buffer n allowed : guarded s (sys_send s c p target buffer n allowed).
Proof. unfold sys_send. repeat user_step. apply lift_guarded. intros k. apply send_keeps. Qed.
Lemma sys_recv_guarded s c p buffer n : guarded s (sys_recv s c p buffer n).
Proof.
  unfold sys_recv. repeat user_step. match goal with |- guarded ?s0 _ => pose proof (receive_keeps (sk s0) c true) as Hk end.
  destruct (k_ipc_receive _ _ _) as [[k e] msg]. cbn [fst] in Hk. cbv zeta. apply confined_sk in Hk. past Hk. repeat user_step.
Qed.
(** ** Processes and services *)
Lemma finish_guarded s (r : system * option Z) : confined s (fst r) -> guarded s (finish r).
Proof. by destruct r as [s1 [e|]]. Qed.
Lemma wait_confined p pid buffer options s : confined s (fst (wait_round p pid buffer options s)).
Proof.
  unfold wait_round. destruct (process_by_pid _ _) as [target|]; [|done]. destruct (bool_decide _); [done|]. destruct (_ && _); [done|].
  destruct (negb _); [done|].
  match goal with |- confined s (fst (match ?x with _ => _ end)) => assert (confined s (fst x)) as H1; [|destruct x as [s1 e1]] end.
  { destruct (k_process_query _ _ _) as [e|info]; [done|]. destruct (negb _); [|done]. apply (to_user_steady s p buffer (info_bytes info)). }
  cbn [fst] in H1. rewrite H1. clear H1.
  destruct (_ && _); [|done]. pose proof (destroy_confined s1 target) as H2. by destruct (process_destroy_locked s1 target) as [s2 e2].
Qed.
Context (net_syscall : system -> Z -> Z -> Z -> (Z -> Z) -> system * outcome) (now timer_hz seed : Z).
Lemma waitpid_guarded s c i p pid buffer options : guarded s (sys_waitpid process_mutex now timer_hz s c i p pid buffer options).
Proof.
  unfold sys_waitpid. user_step; [user_step|].
  match goal with |- guarded s (match ?x with _ => _ end) => assert (confined s (fst x)) as H1; [|destruct x as [s1 e1]] end.
  { destruct (negb _); [|done]. apply (check_steady s p buffer SIZEOF_INFO true). }
  cbn [fst] in H1. past H1. user_step; [user_step|].
  pose proof (locked_confined c id (wait_round p pid buffer options) s1 (fun k _ => wait_confined p pid buffer options _)) as H2.
  destruct (locked _ _ _ _ _) as [s2 [e2|]]; cbn [fst] in H2; [|done]. past H2. user_step; [user_step|]. apply confined_on, sleep_keeps.
Qed.
Lemma control_guarded s c p pid op : guarded s (sys_control process_mutex s c p pid op).
Proof.
  unfold sys_control. user_step; [user_step|]. apply finish_guarded, locked_confined. intros k _.
  destruct (process_by_pid _ _) as [target|]; [|done]. destruct (_ && _); [done|]. apply confined_lift. intros k'. apply control_keeps.
Qed.
Lemma procinfo_guarded s p index buffer : guarded s (sys_procinfo s p index buffer).
Proof. unfold sys_procinfo. repeat user_step. destruct (k_process_get _ _ _); repeat user_step. Qed.
Lemma getargs_guarded s p buffer capacity : guarded s (sys_getargs s p buffer capacity).
Proof. unfold sys_getargs. cbv zeta. repeat user_step. Qed.
Lemma info_guarded s p index buffer get : guarded s (sys_info s p index buffer get).
Proof. unfold sys_info. repeat user_step. destruct (get index); repeat user_step. Qed.
Lemma lookup_confined s c name tid : confined s (fst (k_service_lookup s c name tid)).
Proof.
  unfold k_service_lookup. destruct name as [name|]; [|done]. destruct (negb tid); [done|]. cbv zeta. destruct (negb _); [done|].
  destruct (current_task _ _) as [i|]; [|done]. destruct (find_range _ _ _) as [j|]; [|done]. destruct (process_by_pid _ _) as [p|]; [|done].
  destruct (bool_decide _); [done|]. set (me := t_id _). pose proof (grant_keeps (sk s) p me) as H1.
  destruct (grant_locked (sk s) p me) as [k1 e1]. cbn [fst] in H1.
  match goal with |- confined s (fst (match ?x with _ => _ end)) => assert (keeps k1 (fst x)) as H2; [|destruct x as [k2 e2]] end.
  { destruct (t_process _) as [cp|]; [|done]. destruct (e1 =? 0); [apply grant_keeps|done]. }
  cbn [fst] in H2. destruct (negb _); cbn [fst]; apply confined_sk; (etrans; [exact H1|]); (etrans; [exact H2|]); [|done]. destruct (bool_decide _); [done|apply revoke_keeps].
Qed.
(** ** The calls Ring 1 is needed for *)
Lemma admin_guarded s c p r : class (sk s) p <> K_EXEC_RING1 -> guarded s (admin_operation has_nx smp process_mutex s c p r).
Proof.
  intros Hr. unfold admin_operation. unfold class in Hr. unfold proc.
  rewrite (proj2 (Z.eqb_neq (p_execution_class (processes (sk s) !!! p)) K_EXEC_RING1)) by exact Hr. apply guarded_done.
Qed.
Section Ring3.
Context (s : system) (c i p : Z).
Hypothesis Hcur : current_task (sk s) c = Some i.
Hypothesis Hproc : t_process (tasks (sk s) !!! i) = Some p.
Hypothesis Hring : class (sk s) p <> K_EXEC_RING1.
Lemma steady_caller s1 : steady s s1 ->
  current_task (sk s1) c = Some i /\ t_process (tasks (sk s1) !!! i) = Some p /\ class (sk s1) p <> K_EXEC_RING1.
Proof. intros [E1 E2 E3 _]. unfold current_task, class in *. rewrite E1, E2, E3. auto. Qed.
Lemma service_guarded name register : guarded s (sys_service s c p name register).
Proof.
  unfold sys_service. pose proof (user_string_steady s p name) as H1. destruct (user_string s p name) as [s1 [e|text]]; cbn [fst] in H1.
  - by apply sd_confined in H1.
  - destruct (steady_caller s1 H1) as (_ & _ & Hr). apply sd_confined in H1. past H1. destruct register.
    + unfold service_register. unfold class in Hr. unfold proc. rewrite (proj2 (Z.eqb_neq (p_execution_class (processes (sk s1) !!! p)) K_EXEC_RING1)) by exact Hr. apply guarded_done.
    + pose proof (lookup_confined s1 c (Some text) true) as H2. by destruct (k_service_lookup s1 c (Some text) true) as [s2 r].
Qed.
Lemma spawn_guarded a : guarded s (sys_spawn has_nx smp process_mutex seed s c p a).
Proof.
  unfold sys_spawn. pose proof (user_string_steady s p (a 0)) as H1. destruct (user_string s p (a 0)) as [s1 [e|path]]; cbn [fst] in H1;
    [by apply sd_confined in H1|].
  pose proof (user_args_steady s1 p (a 1)) as H2. destruct (user_args s1 p (a 1)) as [s2 [e|args]]; cbn [fst] in H2;
    assert (steady s s2) as H3 by (by etrans); [by apply sd_confined in H3|]. clear H1 H2.
  destruct (steady_caller s2 H3) as (Hc2 & Ht2 & Hr2). apply sd_confined in H3. past H3. repeat user_step.
  assert (confined s2 (fst (k_process_launch has_nx smp process_mutex s2 c (Some path) (Some args) (u32 (a 2)) (u32 (a 3)) (p_id (proc (sk s2) p)) seed true))) as H4.
  { unfold k_process_launch. destruct (_ || _); [done|]. apply locked_confined. intros k Hk.
    assert (tasks k = tasks (sk s2) /\ cpus k = cpus (sk s2) /\ processes k = processes (sk s2)) as (K1 & K2 & K3).
    { revert Hk. unfold k_mutex_lock. repeat case_match; intros [= <-]; done. }
    apply (launch_confined _ c path args _ _ _ _ i p); cbn [sk modify]; unfold current_task, class in *; rewrite ?K1, ?K2, ?K3; done. }
  destruct (k_process_launch _ _ _ _ _ _ _ _ _ _ _ _) as [s3 [[e pid]|]]; done.
Qed.
Lemma admin_call_guarded u : guarded s (match from_user s p u SIZEOF_ADMIN with
  | (s, inl e) => done s e
  | (s, inr data) => admin_operation has_nx smp process_mutex s c p (read_admin data) end).
Proof.
  pose proof (from_user_steady s p u SIZEOF_ADMIN) as H1. destruct (from_user s p u SIZEOF_ADMIN) as [s1 [e|data]]; cbn [fst] in H1.
  - by apply sd_confined in H1.
  - destruct (steady_caller s1 H1) as (_ & _ & Hr). apply sd_confined in H1. past H1. by apply admin_guarded.
Qed.
Lemma identity_guarded buffer : guarded s (match k_process_identity (sk s) (p_id (proc (sk s) p)) true with
  | inl e => done s e
  | inr id => let '(s, e) := to_user s p buffer (identity_bytes id) in done s e end).
Proof. destruct (k_process_identity _ _ _); repeat user_step. Qed.
Lemma mkdir_guarded a : guarded s (match user_string s p a with
  | (s, inl e) => done s e
  | (s, inr path) => let '(d, e) := k_vfs_mkdir (sdev s) path in done (s <| sdev := d |>) e end).
Proof. repeat user_step. destruct (k_vfs_mkdir _ _) as [d e]. apply guarded_dev. Qed.
Lemma extended_guarded number a : ~ 29 <= number <= 45 ->
  guarded s (syscall_extended has_nx smp process_mutex net_syscall now timer_hz seed s c i p number a).
Proof.
  intros Hn. unfold syscall_extended. destruct (Z.leb_spec 29 number), (Z.leb_spec number 45); cbn [andb]; try lia.
  all: repeat match goal with
    | |- guarded _ (match ?n with Z0 => _ | Zpos _ => _ | Zneg _ => _ end) => destruct n
    | |- guarded _ (match ?n with xI _ => _ | xO _ => _ | xH => _ end) => destruct n
    end.
  all: first
    [ apply guarded_done | exact (spawn_guarded a) | apply procinfo_guarded | apply waitpid_guarded | apply control_guarded | apply service_guarded
    | apply sys_send_guarded | apply getargs_guarded | apply seek_guarded | apply info_guarded | apply admin_call_guarded | apply identity_guarded
    | user_step; [apply guarded_done|]; apply lift_result_guarded; intros k; (apply alloc_keeps || apply alloc_ex_keeps) ].
Qed.
End Ring3.
(** Every call but the network's. *)
Lemma dispatch_guarded s c number a : ~ 29 <= number <= 45 ->
  (forall i p, current_task (sk s) c = Some i -> t_process (tasks (sk s) !!! i) = Some p -> class (sk s) p <> K_EXEC_RING1) ->
  guarded s (syscall_dispatch has_nx smp process_mutex net_syscall now timer_hz seed s c number a).
Proof.
  intros Hn Hr. unfold syscall_dispatch. destruct (current_task (sk s) c) as [i|] eqn:Hc; [|apply guarded_done].
  destruct (t_process (tasks (sk s) !!! i)) as [p|] eqn:Hp; [|apply guarded_done]. specialize (Hr i p eq_refl Hp).
  repeat match goal with
    | |- guarded _ (match ?n with Z0 => _ | Zpos _ => _ | Zneg _ => _ end) => destruct n
    | |- guarded _ (match ?n with xI _ => _ | xO _ => _ | xH => _ end) => destruct n
    end.
  all: first
    [ exact (extended_guarded s c i p Hc Hp Hr _ a Hn) | apply write_guarded | apply guarded_done | apply open_guarded | apply read_guarded
    | apply sys_send_guarded | apply sys_recv_guarded | apply mkdir_guarded | reflexivity | idtac ].
  - destruct (k_task_exit _ _ _) as [k|] eqn:He; [|done]. by apply confined_sk, (exit_keeps _ _ _ _ He).
  - user_step; [apply guarded_done|]. pose proof (sleep_keeps (sk s) c now timer_hz (a 0)) as Hk. destruct (k_sleep _ _ _ _ _) as [k y]. by apply confined_sk.
  - user_step; [apply guarded_done|]. by apply guarded_after, update_confined.
  - destruct (k_vfs_sync _) as [d e]. apply guarded_dev.
Qed.
End Confine.

(** C2: a system call of a process that is not Ring 1 (the network calls aside) makes no process Ring 1, and gives nobody the
    input, a partition or a service name. *)
Theorem no_escalation {St D} `{PageSource St} `{Devices D} has_nx smp process_mutex net_syscall now timer_hz seed (s s' : system St D) c number a o :
  (forall i p, current_task (sk s) c = Some i -> t_process (tasks (sk s) !!! i) = Some p -> p_execution_class (proc (sk s) p) <> K_EXEC_RING1) ->
  ~ 29 <= number <= 45 ->
  syscall_dispatch has_nx smp process_mutex net_syscall now timer_hz seed s c number a = Some (s', o) ->
  (forall q, p_execution_class (proc (sk s') q) = K_EXEC_RING1 -> p_execution_class (proc (sk s) q) = K_EXEC_RING1) /\
  (input_owner s' = input_owner s \/ input_owner s' = 0) /\
  (forall i, pt_owner_pid (partitions s' !!! i) = pt_owner_pid (partitions s !!! i) \/ pt_owner_pid (partitions s' !!! i) = 0) /\
  (forall i, s_pid (services s' !!! i) = s_pid (services s !!! i) \/ s_pid (services s' !!! i) = 0).
Proof.
  intros Hr Hn Hcall. pose proof (dispatch_guarded has_nx smp process_mutex net_syscall now timer_hz seed s c number a Hn Hr) as Hg.
  rewrite Hcall in Hg. destruct Hg as [G1 G2 G3 G4]. split_and!; [exact G1|exact G2|exact G3|exact G4].
Qed.

(** A machine without files or disks, running process 7 outside Ring 1. *)
Definition no_devices : Devices unit := one_device 0 (fun _ => inl K_EIO).
Definition demo_caller : system pmm unit :=
  demo_system <| sk ::= (fun k => upd_process 0 (fun q => q <| p_execution_class := K_EXEC_RING3 |>)
    (k <| tasks := {[ 2 := task0 <| t_id := 9 |> <| t_state := K_TASK_RUNNING |> <| t_process := Some 0 |> ]} |>
       <| cpus := {[ 0 := cpu0 <| c_current := Some 2 |> ]} |>)) |>.
(** The process asks to be killed. *)
Definition demo_call : option (system pmm unit * outcome) :=
  @syscall_dispatch pmm unit _ no_devices true false 64 (fun s _ _ _ _ => (s, Ret 0)) 0 100 1 demo_caller 0 16 (fun n => if n =? 0 then 7 else K_CTL_KILL).
Lemma no_escalation_witness : exists s', demo_call = Some (s', Ret 0) /\ p_execution_class (proc (sk s') 0) <> K_EXEC_RING1 /\
  (pt_owner_pid (partitions s' !!! 0) = 7 \/ pt_owner_pid (partitions s' !!! 0) = 0).
Proof.
  pose proof (@no_escalation pmm unit _ no_devices true false 64 (fun s _ _ _ _ => (s, Ret 0)) 0 100 1 demo_caller) as Hn.
  assert (option_map snd demo_call = Some (Ret 0)) as Ho by (vm_compute; reflexivity).
  destruct demo_call as [[s' o]|] eqn:E; [|discriminate Ho]. cbn [option_map snd] in Ho. injection Ho as ->. exists s'. split; [reflexivity|].
  destruct (Hn s' 0 16 _ (Ret 0) ltac:(intros i p [= <-] [= <-]; vm_compute; discriminate) ltac:(lia) E) as (H1 & _ & H3 & _).
  split; [intros H; apply H1 in H; vm_compute in H; discriminate H|exact (H3 0)].
Defined.
