(* ===== verification/Partition.v ===== *)
(** Partition tables, [src/kernel-src/fs/fs.c] lines 4485-4700: the
    checksum, the GPT and MBR parsers, and what [k_vfs_mount_disks]
    makes of the first sector of a disk.  Disks are reached through [Disks]. *)
From S2P Require Import Prelude Klib Disk State Process.

Definition MAX_PARTITIONS : Z := 128.

(** * CRC-32 *)
Definition crc_bit (crc : Z) : Z := Z.lxor (Z.shiftr crc 1) (Z.land 0xedb88320 (u32 (0 - Z.land crc 1))).
Definition crc_byte (crc b : Z) : Z := Nat.iter 8 crc_bit (Z.lxor crc b).
Definition crc_step (crc : Z) (p : list Z) : Z := foldl crc_byte crc p.

Record partition_entry := mk_entry { pe_start : Z; pe_length : Z; pe_number : Z; pe_read_only : bool }.
Definition entry0 : partition_entry := mk_entry 0 0 0 false.
#[export] Instance entry_inhabited : Inhabited partition_entry := populate entry0.
Definition entry_overlaps (start length : Z) (p : partition_entry) : bool := overlap start length (pe_start p) (pe_length p).
Definition partition_add (parts : list partition_entry) (start length number disk_size : Z) : Z + list partition_entry :=
  if (length =? 0) || (start =? 0) || (disk_size <=? start) || (disk_size - start <? length) || (128 <=? Z.of_nat (List.length parts))
  then inl K_EINVAL
  else if existsb (entry_overlaps start length) parts then inl K_EINVAL
  else inr (parts ++ [mk_entry start length number false]).

Definition EFI_PART : list Z := [69; 70; 73; 32; 80; 65; 82; 84].
Record gpt_header := mk_gpt {
  g_backup : Z; g_first : Z; g_last : Z; g_table : Z; g_entries : Z; g_entry_size : Z; g_wanted : Z }.
Definition read_gpt (s : zmap) : gpt_header :=
  mk_gpt (rd64 s 32) (rd64 s 40) (rd64 s 48) (rd64 s 72) (rd32 s 80) (rd32 s 84) (rd32 s 88).
Definition table_bytes (g : gpt_header) : Z := u64 (g_entries g * g_entry_size g).
Definition table_sectors (g : gpt_header) (bps : Z) : Z := u64 (table_bytes g + bps - 1) / bps.
Definition gpt_bad (g : gpt_header) (sectors bps header_lba : Z) : bool :=
  (sectors <=? g_backup g) || (g_backup g =? header_lba) || (g_last g <? g_first g) || (g_first g <? 2) ||
  (u64 (sectors - 1) <=? g_last g) || (g_entries g =? 0) || (4096 <? g_entries g) || (g_entry_size g <? 128) ||
  (1024 <? g_entry_size g) || negb (Z.land (g_entry_size g) 127 =? 0) || (g_table g =? 0) || (sectors <=? g_table g) ||
  (sectors - g_table g <? table_sectors g bps) ||
  overlap (g_table g) (table_sectors g bps) (g_first g) (u64 (g_last g - g_first g + 1)) ||
  overlap (g_table g) (table_sectors g bps) header_lba 1 || overlap (g_table g) (table_sectors g bps) (g_backup g) 1.
(** The header's own fields, with the checksum of the header read with its checksum field zero. *)
Definition gpt_header_ok (data : list Z) (bps header_lba : Z) : bool :=
  let s := buffer data in
  let len := rd32 s 12 in
  bool_decide (take 8 data = EFI_PART) && (rd32 s 8 =? 0x10000) && (92 <=? len) && (len <=? bps) && (rd32 s 20 =? 0) &&
  (rd64 s 24 =? header_lba) &&
  (Z.lxor (crc_step 0xffffffff (take (Z.to_nat len) (take 16 data ++ [0; 0; 0; 0] ++ drop 20 data))) 0xffffffff =? rd32 s 16).
Definition extended_type (t : Z) : bool := (t =? 5) || (t =? 0x0f) || (t =? 0x85).

Section Partition.
Context {D : Type} `{Disks D}.
Implicit Types (d : D) (parts : list partition_entry).

(** * GUID partition tables *)

(** The checksum of the table, a sector at a time. *)
Definition table_crc_step (id bps : Z) (g : gpt_header) (i : Z) (s : D * Z * Z) : flow (D * Z * Z) (D * Z) :=
  let '(d, crc, remaining) := s in
  match k_disk_read d id (g_table g + i) 1 with
  | (d, inl e) => Exit (d, e)
  | (d, inr data) => let n := Z.min remaining bps in Next (d, crc_step crc (take (Z.to_nat n) data), remaining - n)
  end.
Definition gpt_entry_step (id bps sectors : Z) (g : gpt_header) (i : Z) (s : D * list partition_entry) : flow (D * list partition_entry) (D * Z) :=
  let '(d, parts) := s in
  match disk_bytes d id (u64 (u64 (g_table g * bps) + i * g_entry_size g)) 128 with
  | (d, inl e) => Exit (d, e)
  | (d, inr data) =>
      if forallb (fun b => b =? 0) (take 16 data) then Next (d, parts)
      else
        let a := rd64 (buffer data) 32 in
        let b := rd64 (buffer data) 40 in
        if (a <? g_first g) || (b <? a) || (g_last g <? b) then Exit (d, K_EINVAL)
        else
          match partition_add parts a (u64 (b - a + 1)) (i + 1) sectors with
          | inl e => Exit (d, e)
          | inr parts =>
              let ro := negb (Z.land (rd64 (buffer data) 48) (Z.shiftl 1 60) =? 0) in
              Next (d, take (length parts - 1) parts ++ [mk_entry a (u64 (b - a + 1)) (i + 1) ro])
          end
  end.
Definition gpt_parse (d : D) (id header_lba : Z) : D * (Z + list partition_entry) :=
  let bps := disk_sector_size d id in
  let sectors := disk_sectors d id in
  match k_disk_read d id header_lba 1 with
  | (d, inl e) => (d, inl e)
  | (d, inr data) =>
      if negb (gpt_header_ok data bps header_lba) then (d, inl K_EINVAL)
      else
        let g := read_gpt (buffer data) in
        if gpt_bad g sectors bps header_lba then (d, inl K_EINVAL)
        else
          match for_range 0 (table_sectors g bps) (table_crc_step id bps g) (d, 0xffffffff, table_bytes g) with
          | Exit (d, e) => (d, inl e)
          | Next (d, crc, _) =>
              if negb (Z.lxor crc 0xffffffff =? g_wanted g) then (d, inl K_EINVAL)
              else
                match for_range 0 (g_entries g) (gpt_entry_step id bps sectors g) (d, []) with
                | Exit (d, e) => (d, inl e)
                | Next (d, parts) => (d, inr parts)
                end
          end
  end.

(** * Master boot records *)
Record mbr_state := mk_mbr { mb_parts : list partition_entry; mb_base : Z; mb_length : Z }.
(** Slot [i] of the table in the first sector. *)
Definition mbr_slot_step (s : zmap) (disk_size i : Z) (x : mbr_state) : flow mbr_state Z :=
  let p := 446 + 16 * i in
  let type := zget s (p + 4) in
  let start := rd32 s (p + 8) in
  let length := rd32 s (p + 12) in
  if (type =? 0) || (length =? 0) then Next x
  else if type =? 0xee then Exit K_EINVAL
  else if (start =? 0) || (disk_size <=? start) || (disk_size - start <? length) then Exit K_EINVAL
  else if extended_type type then
    if negb (mb_length x =? 0) then Exit K_ENOTSUP else Next (mk_mbr (mb_parts x) start length)
  else
    match partition_add (mb_parts x) start length (i + 1) disk_size with
    | inl e => Exit e
    | inr parts => Next (mk_mbr parts (mb_base x) (mb_length x))
    end.
(** The chain of extended boot records; [room] is what the array [seen] has left,
    so its end is the code's own test. *)
Fixpoint ebr_loop (room : nat) (d : D) (id base ext_length disk_size ebr : Z) (seen : list Z) (parts : list partition_entry)
  : D * (Z + list Z * list partition_entry) :=
  if (ebr <? base) || (ext_length <=? ebr - base) then (d, inl K_EINVAL)
  else
    match room with
    | O => (d, inl K_EINVAL)
    | S room =>
        if bool_decide (ebr ∈ seen) then (d, inl K_EINVAL)
        else
          let seen := seen ++ [ebr] in
          match k_disk_read d id ebr 1 with
          | (d, inl e) => (d, inl e)
          | (d, inr data) =>
              let s := buffer data in
              if negb (zget s 510 =? 0x55) || negb (zget s 511 =? 0xaa) then (d, inl K_EINVAL)
              else
                let type := zget s 450 in
                let relative := rd32 s 454 in
                let length := rd32 s 458 in
                let left := u64 (base + ext_length - ebr) in
                let added :=
                  if negb (type =? 0) && negb (length =? 0) then
                    if extended_type type || (relative =? 0) || (left <=? relative) || (u64 (left - relative) <? length) then inl K_EINVAL
                    else partition_add parts (ebr + relative) length (4 + Z.of_nat (List.length seen)) disk_size
                  else inr parts in
                match added with
                | inl e => (d, inl e)
                | inr parts =>
                    let link := zget s 466 in
                    if link =? 0 then (d, inr (seen, parts))
                    else if negb (extended_type link) then (d, inl K_EINVAL)
                    else
                      let next := rd32 s 470 in
                      let len := rd32 s 474 in
                      if (next =? 0) || (ext_length <=? next) || (len =? 0) || (ext_length - next <? len) then (d, inl K_EINVAL)
                      else ebr_loop room d id base ext_length disk_size (base + next) seen parts
                end
          end
    end.
Definition mbr_parse (d : D) (id : Z) (mbr : list Z) : D * (Z + list partition_entry) :=
  let disk_size := disk_sectors d id in
  match for_range 0 4 (mbr_slot_step (buffer mbr) disk_size) (mk_mbr [] 0 0) with
  | Exit e => (d, inl e)
  | Next x =>
      if mb_length x =? 0 then (d, inr (mb_parts x))
      else if existsb (entry_overlaps (mb_base x) (mb_length x)) (mb_parts x) then (d, inl K_EINVAL)
      else
        match ebr_loop 124 d id (mb_base x) (mb_length x) disk_size (mb_base x) [] (mb_parts x) with
        | (d, inl e) => (d, inl e)
        | (d, inr (seen, parts)) =>
            if existsb (fun s => existsb (entry_overlaps s 1) parts) seen then (d, inl K_EINVAL) else (d, inr parts)
        end
  end.

(** * The table of a disk *)
Inductive disk_table := Unreadable (e : Z) | No_table | Table (e : Z) (protective recovered : bool) (parts : list partition_entry).
Definition protective_mbr (s : zmap) : bool := any_range 0 4 (fun j => zget s (446 + 16 * j + 4) =? 0xee).
Definition table_of (protective recovered : bool) (r : Z + list partition_entry) : disk_table :=
  match r with inl e => Table e protective recovered [] | inr parts => Table 0 protective recovered parts end.
(** The primary table, or else its backup in the last sector, read-only. *)
Definition read_disk_table (d : D) (id : Z) : D * disk_table :=
  match k_disk_read d id 0 1 with
  | (d, inl e) => (d, Unreadable e)
  | (d, inr data) =>
      let s := buffer data in
      if negb (zget s 510 =? 0x55) || negb (zget s 511 =? 0xaa) then (d, No_table)
      else if protective_mbr s then
        match gpt_parse d id 1 with
        | (d, inl e) =>
            if 2 <? disk_sectors d id then
              let '(d, r) := gpt_parse d id (disk_sectors d id - 1) in
              (d, table_of true (if r is inr _ then true else false) r)
            else (d, Table e true false [])
        | (d, inr parts) => (d, Table 0 true false parts)
        end
      else let '(d, r) := mbr_parse d id (take 512 data) in (d, table_of false false r)
  end.
(** The entries published in the partition table, as many as fit. *)
Definition publish_step (id bps : Z) (recovered : bool) (pc : table k_partition_info * Z) (x : partition_entry) : table k_partition_info * Z :=
  let '(t, count) := pc in
  if count <? MAX_PARTITIONS then
    (<[count := mk_partition count id (pe_number x) bps (pe_start x) (pe_length x) (recovered || pe_read_only x) false 0 false]> t, count + 1)
  else (t, count).
End Partition.
