(* ===== verification/PartitionSpec.v ===== *)
(** What the partition parsers of [Partition] accept: partitions inside the
    disk, pairwise disjoint and numbered apart; and what the checksum of a GUID
    table detects. *)
From S2P Require Import Prelude Klib Disk State Process Partition.

(** * Checksums *)
Lemma crc_bit_range c : is_u32 c -> is_u32 (crc_bit c).
Proof.
  intros Hc. assert (Z.land (crc_bit c) (Z.ones 32) = crc_bit c) as <-; [|rewrite Z.land_ones by lia; by apply Z.mod_pos_bound].
  unfold crc_bit. apply Z.bits_inj'. intros i Hi. rewrite Z.land_spec, Z.lxor_spec, Z.land_spec, Z.shiftr_spec by lia.
  destruct (Z.lt_ge_cases i 32) as [Hl|Hg]; [rewrite Z.ones_spec_low by lia; by rewrite andb_true_r|].
  rewrite Z.ones_spec_high by lia. rewrite (testbit_high c 32), (testbit_high 0xedb88320 32) by (done || unfold is_u32; lia). done.
Qed.
(** The top bit of the result is the bit that was shifted out. *)
Lemma crc_bit_inj a b : is_u32 a -> is_u32 b -> crc_bit a = crc_bit b -> a = b.
Proof.
  intros Ha Hb E.
  assert (forall c, is_u32 c -> Z.testbit (crc_bit c) 31 = Z.testbit c 0) as Htop.
  { intros c Hc. unfold crc_bit. rewrite Z.lxor_spec, Z.land_spec, Z.shiftr_spec by lia. rewrite (testbit_high c 32) by (done || lia).
    change (Z.testbit 0xedb88320 31) with true. rewrite Z.land_ones with (n := 1) by lia. rewrite <- Z.bit0_mod.
    by destruct (Z.testbit c 0). }
  assert (Z.testbit a 0 = Z.testbit b 0) as H0 by (rewrite <- !Htop by done; by rewrite E).
  assert (Z.shiftr a 1 = Z.shiftr b 1) as Hs.
  { unfold crc_bit in E. change 1 with (Z.ones 1) in E at 2 4. rewrite !Z.land_ones in E by lia. change (2 ^ 1) with 2 in E. rewrite <- !Z.bit0_mod, H0 in E.
    rewrite <- (Z.lxor_0_r (Z.shiftr a 1)), <- (Z.lxor_0_r (Z.shiftr b 1)).
    rewrite <- (Z.lxor_nilpotent (Z.land 0xedb88320 (u32 (0 - Z.b2z (Z.testbit b 0))))), <- !Z.lxor_assoc. by rewrite E. }
  apply Z.bits_inj'. intros i Hi. destruct (Z.eq_dec i 0) as [->|]; [done|].
  replace i with (i - 1 + 1) by lia. rewrite <- !Z.shiftr_spec by lia. by rewrite Hs.
Qed.
(** Bits above the one that is shifted out pass through. *)
Lemma crc_bits_shift n x y : Nat.iter n crc_bit (Z.lxor x (Z.shiftl y (Z.of_nat n))) = Z.lxor (Nat.iter n crc_bit x) y.
Proof.
  revert x. induction n as [|n IH]; intros x; [by rewrite Z.shiftl_0_r|].
  rewrite !Nat.iter_succ_r, <- IH. f_equal. unfold crc_bit.
  assert (Z.land (Z.lxor x (Z.shiftl y (Z.of_nat (S n)))) 1 = Z.land x 1) as ->.
  { change 1 with (Z.ones 1). rewrite !Z.land_ones by lia. change (2 ^ 1) with 2. rewrite <- !Z.bit0_mod, Z.lxor_spec, Z.shiftl_spec_low by lia.
    by rewrite xorb_false_r. }
  rewrite Z.shiftr_lxor, Z.shiftr_shiftl_l by lia. replace (Z.of_nat (S n) - 1) with (Z.of_nat n) by lia.
  by rewrite !Z.lxor_assoc, (Z.lxor_comm (Z.shiftl y _)).
Qed.
Lemma crc_bits_inj n a b : is_u32 a -> is_u32 b -> Nat.iter n crc_bit a = Nat.iter n crc_bit b -> a = b.
Proof.
  revert a b. induction n as [|n IH]; intros a b Ha Hb E; [done|]. rewrite !Nat.iter_succ_r in E.
  apply crc_bit_inj; try done. apply IH; try done; by apply crc_bit_range.
Qed.
Definition word (l : list Z) : Z := foldr (fun b w => Z.lxor b (Z.shiftl w 8)) 0 l.
Lemma word_bits b w i : is_u8 b -> 0 <= i -> Z.testbit (Z.lxor b (Z.shiftl w 8)) i = if i <? 8 then Z.testbit b i else Z.testbit w (i - 8).
Proof.
  intros Hb Hi. rewrite Z.lxor_spec. destruct (Z.ltb_spec i 8).
  - rewrite Z.shiftl_spec_low by lia. by rewrite xorb_false_r.
  - rewrite (testbit_high b 8) by (done || lia). by rewrite Z.shiftl_spec by lia.
Qed.
Lemma word_inj a b : length a = length b -> Forall is_u8 a -> Forall is_u8 b -> word a = word b -> a = b.
Proof.
  revert b. induction a as [|x a IH]; intros [|y b] Hl Ha Hb E; try done. apply Forall_cons in Ha as [Hx Ha]. apply Forall_cons in Hb as [Hy Hb].
  cbn [word foldr] in E. fold (word a) in E. fold (word b) in E. assert (x = y) as ->.
  { apply Z.bits_inj'. intros i Hi. destruct (Z.lt_ge_cases i 8) as [Hlt|Hge]; [|by rewrite !(testbit_high _ 8) by (done || lia)].
    pose proof (f_equal (fun z => Z.testbit z i) E) as Ei. cbv beta in Ei. rewrite !word_bits in Ei by done. by rewrite (proj2 (Z.ltb_lt i 8)) in Ei by done. }
  f_equal. apply IH; try done; [by injection Hl|]. apply Z.bits_inj'. intros i Hi.
  pose proof (f_equal (fun z => Z.testbit z (i + 8)) E) as Ei. cbv beta in Ei. rewrite !word_bits in Ei by (done || lia).
  rewrite (proj2 (Z.ltb_ge (i + 8) 8)) in Ei by lia. by replace (i + 8 - 8) with i in Ei by lia.
Qed.
Lemma word_range l : Forall is_u8 l -> (length l <= 4)%nat -> is_u32 (word l).
Proof.
  assert (forall k l, Forall is_u8 l -> (length l <= k)%nat -> 0 <= word l < 2 ^ (8 * Z.of_nat k)) as Hk.
  { intros k. induction k as [|k IH]; intros [|x m] Hm Hlen; try (cbn in Hlen; lia);
      try (cbn [word foldr]; split; [lia|apply Z.pow_pos_nonneg; lia]).
    apply Forall_cons in Hm as [Hx Hm]. cbn [word foldr]. fold (word m). cbn [length] in Hlen. specialize (IH m Hm ltac:(lia)).
    rewrite <- Z.add_nocarry_lxor.
    - rewrite Z.shiftl_mul_pow2 by lia. replace (8 * Z.of_nat (S k)) with (8 + 8 * Z.of_nat k) by lia. rewrite Z.pow_add_r by lia.
      unfold is_u8 in Hx. change (2 ^ 8) with 256 in *. nia.
    - apply Z.bits_inj'. intros i Hi. rewrite Z.land_spec, Z.bits_0. destruct (Z.lt_ge_cases i 8).
      + rewrite Z.shiftl_spec_low by lia. by rewrite andb_false_r.
      + by rewrite (testbit_high x 8) by (done || lia). }
  intros Hl Hlen. apply (Hk 4%nat l Hl Hlen).
Qed.
Lemma crc_step_word c l : crc_step c l = Nat.iter (8 * length l) crc_bit (Z.lxor c (word l)).
Proof.
  revert c. induction l as [|x l IH]; intros c; [by rewrite Z.lxor_0_r|]. cbn [crc_step foldl]. fold (crc_step (crc_byte c x) l). rewrite IH.
  unfold crc_byte. cbn [word foldr]. fold (word l). rewrite <- (crc_bits_shift 8 (Z.lxor c x) (word l)), <- Nat.iter_add.
  rewrite Z.lxor_assoc. f_equal. cbn [length]. lia.
Qed.
Lemma lxor_u32 a b : is_u32 a -> is_u32 b -> is_u32 (Z.lxor a b).
Proof.
  intros Ha Hb. assert (Z.land (Z.lxor a b) (Z.ones 32) = Z.lxor a b) as <-; [|rewrite Z.land_ones by lia; by apply Z.mod_pos_bound].
  apply Z.bits_inj'. intros i Hi. rewrite Z.land_spec. destruct (Z.lt_ge_cases i 32); [rewrite Z.ones_spec_low by lia; by rewrite andb_true_r|].
  rewrite Z.lxor_spec, (testbit_high a 32), (testbit_high b 32) by (done || lia). by rewrite andb_false_l.
Qed.
Lemma u8_u32 x : is_u8 x -> is_u32 x.
Proof. unfold is_u8, is_u32. lia. Qed.
Lemma crc_bits_range n c : is_u32 c -> is_u32 (Nat.iter n crc_bit c).
Proof. intros Hc. induction n as [|n IH]; [done|]. by apply crc_bit_range. Qed.
Lemma crc_byte_range c b : is_u32 c -> is_u8 b -> is_u32 (crc_byte c b).
Proof. intros Hc Hb. by apply crc_bits_range, lxor_u32, u8_u32. Qed.
Lemma crc_step_range c l : is_u32 c -> Forall is_u8 l -> is_u32 (crc_step c l).
Proof. revert c. induction l as [|x l IH]; intros c Hc Hl; [done|]. apply Forall_cons in Hl as [Hx Hl]. by apply IH, Hl; apply crc_byte_range. Qed.
Lemma lxor_cancel a x y : Z.lxor a x = Z.lxor a y -> x = y.
Proof. intros E. apply (f_equal (Z.lxor a)) in E. by rewrite <- !Z.lxor_assoc, Z.lxor_nilpotent, !Z.lxor_0_l in E. Qed.
Lemma crc_byte_inj c c' x : is_u32 c -> is_u32 c' -> is_u8 x -> crc_byte c x = crc_byte c' x -> c = c'.
Proof.
  intros Hc Hc' Hx. unfold crc_byte. generalize 8%nat. intros n E. apply crc_bits_inj in E; [|by apply lxor_u32, u8_u32..].
  rewrite (Z.lxor_comm c), (Z.lxor_comm c') in E. exact (lxor_cancel x c c' E).
Qed.
Lemma crc_step_cons c x l : crc_step c (x :: l) = crc_step (crc_byte c x) l.
Proof. reflexivity. Qed.
Lemma crc_step_inj c c' l : is_u32 c -> is_u32 c' -> Forall is_u8 l -> crc_step c l = crc_step c' l -> c = c'.
Proof.
  revert c c'. induction l as [|x l IH]; intros c c' Hc Hc' Hl E; [done|]. apply Forall_cons in Hl as [Hx Hl].
  rewrite !crc_step_cons in E. apply (crc_byte_inj c c' x Hc Hc' Hx), IH; [by apply crc_byte_range..|done|exact E].
Qed.
Lemma crc_step_app c a b : crc_step c (a ++ b) = crc_step (crc_step c a) b.
Proof. apply foldl_app. Qed.

(** The checksum of GUID partition tables tells apart any two byte strings that differ only within four consecutive bytes. *)
Theorem crc_detects c p a b q :
  is_u32 c -> Forall is_u8 (p ++ a ++ q) -> Forall is_u8 b -> length a = length b -> (length a <= 4)%nat ->
  crc_step c (p ++ a ++ q) = crc_step c (p ++ b ++ q) -> a = b.
Proof.
  rewrite !Forall_app. intros Hc (Hp & Ha & Hq) Hb Hl H4 E. rewrite !crc_step_app in E.
  pose proof (crc_step_range c p Hc Hp) as Hc'. set (c' := crc_step c p) in *. clearbody c'.
  apply crc_step_inj in E; [|by apply crc_step_range..|done]. rewrite !crc_step_word, Hl in E.
  apply crc_bits_inj in E; [|by apply lxor_u32, word_range; (done || lia)..]. apply lxor_cancel in E. by apply word_inj.
Qed.
Lemma crc_detects_witness : crc_step 0xffffffff ([1; 2] ++ [3] ++ [4; 5]) <> crc_step 0xffffffff ([1; 2] ++ [9] ++ [4; 5]).
Proof.
  intros E. assert ([3] = [9]) as H; [|discriminate H].
  apply (crc_detects 0xffffffff [1; 2] [3] [9] [4; 5]); try exact E; try reflexivity.
  - split; vm_compute; congruence.
  - repeat (apply List.Forall_cons; [split; vm_compute; congruence|]). apply List.Forall_nil.
  - repeat (apply List.Forall_cons; [split; vm_compute; congruence|]). apply List.Forall_nil.
  - cbn. lia.
Defined.

(** * Partitions *)

(** Inside the disk, at most 128, and no two with a sector in common. *)
Definition inside (size : Z) (p : partition_entry) : Prop := 0 < pe_start p /\ 0 < pe_length p /\ pe_start p + pe_length p <= size.
Definition apart (p q : partition_entry) : Prop := pe_start p + pe_length p <= pe_start q \/ pe_start q + pe_length q <= pe_start p.
Definition valid_parts (size : Z) (parts : list partition_entry) : Prop :=
  (length parts <= 128)%nat /\ Forall (inside size) parts /\
  (forall i j p q, parts !! i = Some p -> parts !! j = Some q -> i <> j -> apart p q).
Lemma apart_sym p q : apart p q -> apart q p.
Proof. unfold apart. tauto. Qed.
Lemma valid_nil size : valid_parts size [].
Proof. split_and!; [cbn; lia|done|]. by intros [|i] j p q. Qed.
Lemma entry_overlaps_false size start length p : 0 <= start -> 0 <= length -> start + length <= size -> size < 2 ^ 64 -> inside size p -> 0 < length ->
  entry_overlaps start length p = false -> start + length <= pe_start p \/ pe_start p + pe_length p <= start.
Proof.
  intros Hs Hl Hin H64 (P1 & P2 & P3) Hpos. unfold entry_overlaps, overlap, u64. rewrite !Z.mod_small by lia.
  rewrite (proj2 (Z.eqb_neq length 0)), (proj2 (Z.eqb_neq (pe_length p) 0)) by lia. cbn [negb andb]. intros E. reflect_bools. lia.
Qed.
Lemma add_ok size parts start length number parts' : 0 <= start -> 0 <= length -> 0 <= size < 2 ^ 64 -> valid_parts size parts ->
  partition_add parts start length number size = inr parts' ->
  parts' = parts ++ [mk_entry start length number false] /\ inside size (mk_entry start length number false) /\ valid_parts size parts'.
Proof.
  intros Hs Hl Hsz (V1 & V2 & V3). unfold partition_add.
  match goal with |- context [if ?b then _ else _] => destruct b eqn:E; [done|] end. reflect_bools.
  destruct (existsb _ parts) eqn:Hex; [done|]. intros [= <-]. split; [done|]. set (x := mk_entry start length number false).
  assert (inside size x) as Hx by (unfold inside, x; cbn; lia). split; [done|]. split_and!.
  - rewrite length_app. cbn. lia.
  - apply Forall_app. split; [done|]. by apply Forall_singleton.
  - assert (forall i p, parts !! i = Some p -> apart p x) as Hax.
    { intros i p Hi. apply apart_sym. destruct (entry_overlaps_false size start length p) as [Ho|Ho]; try lia.
      - rewrite Forall_forall in V2. by apply V2, (list_elem_of_lookup_2 _ i).
      - rewrite <- not_true_iff_false, existsb_exists in Hex. apply not_true_iff_false. intros Ho. apply Hex. exists p.
        split; [|done]. by apply list_elem_of_In, (list_elem_of_lookup_2 _ i).
      - by left.
      - by right. }
    intros i j p q Hi Hj Hne. apply lookup_app_Some in Hi, Hj.
    destruct Hi as [Hi|[Hi1 Hi2]], Hj as [Hj|[Hj1 Hj2]].
    + by apply (V3 i j).
    + apply list_lookup_singleton_Some in Hj2 as [_ <-]. by apply (Hax i).
    + apply list_lookup_singleton_Some in Hi2 as [_ <-]. by apply apart_sym, (Hax j).
    + apply list_lookup_singleton_Some in Hi2 as [Hi2 _]. apply list_lookup_singleton_Some in Hj2 as [Hj2 _]. lia.
Qed.
(** Partition numbers from 1 to [n], each used once. *)
Definition numbered (n : Z) (parts : list partition_entry) : Prop :=
  Forall (fun p => 1 <= pe_number p <= n) parts /\ NoDup (map pe_number parts).
Lemma numbered_mono n m parts : n <= m -> numbered n parts -> numbered m parts.
Proof. intros Hnm [Hn Hd]. split; [|done]. eapply Forall_impl; [exact Hn|]. cbn. lia. Qed.
Lemma numbered_add n m parts p : 0 <= n -> numbered n parts -> n < pe_number p <= m -> numbered m (parts ++ [p]).
Proof.
  intros H0 [Hn Hd] Hp. split.
  - apply Forall_app. split; [eapply Forall_impl; [exact Hn|]; cbn; lia|]. apply Forall_singleton. lia.
  - rewrite map_app. apply NoDup_app. split_and!; [done| |apply NoDup_singleton]. intros x Hx Hy.
    apply list_elem_of_singleton in Hy as ->. apply list_elem_of_fmap in Hx as (q & E & Hq). rewrite Forall_forall in Hn. specialize (Hn q Hq). lia.
Qed.

Section Soundness.
Context {D : Type} `{DiskContents D}.

(** ** Master boot records *)
Definition mbr_ok size n (x : mbr_state) : Prop :=
  valid_parts size (mb_parts x) /\ numbered n (mb_parts x) /\ 0 <= mb_base x /\ 0 <= mb_length x /\
  (mb_length x = 0 \/ 0 < mb_base x /\ mb_base x + mb_length x <= size).
Lemma slot_step_ok s size i x : bytes_ok s -> 0 <= size < 2 ^ 64 -> 0 <= i -> mbr_ok size i x ->
  match mbr_slot_step s size i x with Next x' => mbr_ok size (i + 1) x' | Exit _ => True end.
Proof.
  intros Hs Hsz Hi (V & N & B & L & R). unfold mbr_slot_step. cbv zeta.
  pose proof (rd32_range s (446 + 16 * i + 8) Hs) as H1. pose proof (rd32_range s (446 + 16 * i + 12) Hs) as H2. unfold is_u32 in *.
  destruct (_ || _) eqn:E0; [split_and!; try done; by apply (numbered_mono i); [lia|]|]. destruct (_ =? 0xee); [done|].
  destruct (_ || _ || _) eqn:E1; [done|]. reflect_bools. destruct (extended_type _).
  - destruct (negb _); [done|]. unfold mbr_ok. cbn [mb_parts mb_base mb_length]. split_and!; try lia; [done|by apply (numbered_mono i); [lia|]].
  - destruct (partition_add _ _ _ _ _) as [e|parts] eqn:Ha; [done|].
    apply add_ok in Ha as (-> & _ & V'); [|lia|lia|done|done].
    unfold mbr_ok. cbn [mb_parts mb_base mb_length]. split_and!; try done. apply (numbered_add i); [lia|done|cbn; lia].
Qed.
Lemma ebr_loop_ok room d id base ext_length size ebr seen parts d' seen' parts' :
  0 <= size < 2 ^ 64 -> 0 <= base -> 0 < ext_length -> base + ext_length <= size ->
  valid_parts size parts -> numbered (4 + Z.of_nat (length seen)) parts ->
  ebr_loop room d id base ext_length size ebr seen parts = (d', inr (seen', parts')) ->
  valid_parts size parts' /\ numbered (4 + Z.of_nat (length seen')) parts'.
Proof.
  revert d ebr seen parts. induction room as [|room IH]; intros d ebr seen parts Hsz Hb Hl Hin V N; cbn [ebr_loop];
    (destruct (_ || _) eqn:Er; [done|]); [done|]. reflect_bools.
  case_bool_decide; [done|]. destruct (k_disk_read d id ebr 1) as [d1 [e|data]] eqn:Hrd; [done|]. cbv zeta.
  destruct (_ || _); [done|]. pose proof (buffer_bytes data (proj1 (disk_read_u8 _ _ _ _ _ _ Hrd))) as Hbuf.
  pose proof (rd32_range (buffer data) 454 Hbuf) as Q1. pose proof (rd32_range (buffer data) 458 Hbuf) as Q2.
  pose proof (rd32_range (buffer data) 470 Hbuf) as Q3. unfold is_u32 in *.
  match goal with |- context [match ?a with inl e => (d1, inl e) | inr _ => _ end] =>
    assert (forall p1, a = inr p1 -> valid_parts size p1 /\ numbered (4 + Z.of_nat (length (seen ++ [ebr]))) p1) as Hadd; [|destruct a as [e1|p1]; [done|]] end.
  { intros p1. rewrite length_app. cbn [length]. destruct (_ && _).
    - destruct (_ || _) eqn:Eb; [done|]. intros Ha. reflect_bools.
      apply add_ok in Ha as (-> & _ & V'); [|lia|lia|done|done]. split; [done|].
      apply (numbered_add (4 + Z.of_nat (length seen))); [lia|done|cbn; lia].
    - intros [= <-]. split; [done|]. by apply (numbered_mono (4 + Z.of_nat (length seen))); [lia|]. }
  destruct (Hadd p1 eq_refl) as [V1 N1]. destruct (_ =? 0); [by intros [= <- <- <-]|]. destruct (negb _); [done|].
  destruct (_ || _); [done|]. by apply IH.
Qed.
Lemma mbr_ok_parts d id mbr d' parts : Forall is_u8 mbr -> 0 <= disk_sectors d id < 2 ^ 64 -> mbr_parse d id mbr = (d', inr parts) ->
  valid_parts (disk_sectors d id) parts /\ NoDup (map pe_number parts).
Proof.
  intros Hm Hsz. unfold mbr_parse. cbv zeta.
  pose proof (for_range_inv (fun i x => mbr_ok (disk_sectors d id) i x) (fun _ => True) (mbr_slot_step (buffer mbr) (disk_sectors d id)) 0 4 (mk_mbr [] 0 0) ltac:(lia)) as Hloop.
  destruct (for_range _ _ _ _) as [x|e]; [|done].
  destruct Hloop as (V & N & B & L & R).
  { unfold mbr_ok. cbn [mb_parts mb_base mb_length]. split_and!; [apply valid_nil|split; [done|apply NoDup_nil_2]|lia..]. }
  { intros i x' Hi. apply slot_step_ok; [by apply buffer_bytes|done|lia]. }
  destruct (Z.eqb_spec (mb_length x) 0); [intros [= <- <-]; by destruct N|]. destruct (existsb _ _); [done|].
  destruct (ebr_loop _ _ _ _ _ _ _ _ _) as [d1 [e|[seen p1]]] eqn:He; [done|]. apply ebr_loop_ok in He as [V1 [_ N1]]; try done; try lia.
  destruct (existsb _ seen); [done|]. intros [= <- <-]. done.
Qed.

(** ** GUID partition tables *)
Lemma valid_reflag size parts start length number ro ro' : valid_parts size (parts ++ [mk_entry start length number ro]) ->
  valid_parts size (parts ++ [mk_entry start length number ro']).
Proof.
  intros (V1 & V2 & V3). set (x := mk_entry start length number ro) in *. set (x' := mk_entry start length number ro').
  assert (forall i q, (parts ++ [x']) !! i = Some q -> exists p, (parts ++ [x]) !! i = Some p /\ pe_start p = pe_start q /\ pe_length p = pe_length q) as Hs.
  { intros i q Hi. apply lookup_app_Some in Hi as [Hi|[Hi Hq]].
    - exists q. split; [|done]. by apply lookup_app_l_Some.
    - apply list_lookup_singleton_Some in Hq as [Hq <-]. exists x. split; [|done]. apply lookup_app_Some. right. split; [done|]. by rewrite Hq. }
  split_and!.
  - rewrite length_app in *. done.
  - apply Forall_app in V2 as [V2 Vx]. apply Forall_app. split; [done|]. apply Forall_singleton. exact (Forall_inv Vx).
  - intros i j p q Hi Hj Hne. destruct (Hs i p Hi) as (p0 & Hp & E1 & E2). destruct (Hs j q Hj) as (q0 & Hq & E3 & E4).
    unfold apart. rewrite <- E1, <- E2, <- E3, <- E4. by apply (V3 i j).
Qed.
Definition within (g : gpt_header) (p : partition_entry) : Prop := g_first g <= pe_start p /\ pe_start p + pe_length p - 1 <= g_last g.
Lemma gpt_entry_ok id bps size g i d parts d' parts' : 0 < disk_sector_size d id < 2 ^ 32 -> 0 <= size < 2 ^ 64 -> 0 <= i -> g_last g < size ->
  valid_parts size parts -> numbered i parts -> Forall (within g) parts ->
  gpt_entry_step id bps size g i (d, parts) = Next (d', parts') ->
  valid_parts size parts' /\ numbered (i + 1) parts' /\ Forall (within g) parts'.
Proof.
  intros Hbps Hsz Hi Hlast V N W. unfold gpt_entry_step. destruct (disk_bytes _ _ _ _) as [d1 [e|data]] eqn:Hd; [done|].
  assert (0 <= u64 (u64 (g_table g * bps) + i * g_entry_size g)) as Ho by (by apply Z.mod_pos_bound).
  pose proof (buffer_bytes data (proj1 (disk_bytes_u8 _ _ _ 128 _ _ Hbps Ho ltac:(lia) Hd))) as Hb.
  destruct (forallb _ _); [intros [= <- <-]; split_and!; try done; by apply (numbered_mono i); [lia|]|]. cbv zeta.
  pose proof (rd64_range (buffer data) 32 Hb) as Q1. pose proof (rd64_range (buffer data) 40 Hb) as Q2. unfold is_u64 in *.
  set (a := rd64 (buffer data) 32) in *. set (b := rd64 (buffer data) 40) in *. destruct (_ || _ || _) eqn:Er; [done|]. reflect_bools.
  assert (u64 (b - a + 1) = b - a + 1) as -> by (unfold u64; apply Z.mod_small; lia).
  destruct (partition_add _ _ _ _ _) as [e|p1] eqn:Ha; [done|]. apply add_ok in Ha as (-> & _ & V'); [|lia|lia|done|done].
  intros [= <- <-]. rewrite length_app. cbn [length]. replace (length parts + 1 - 1)%nat with (length parts) by lia. rewrite take_app_length.
  split_and!.
  - by apply (valid_reflag size parts a (b - a + 1) (i + 1) false).
  - apply (numbered_add i); [lia|done|cbn; lia].
  - apply Forall_app. split; [done|]. apply Forall_singleton. unfold within. cbn. lia.
Qed.
(** The parser only reads. *)
Lemma table_crc_geometry id bps g i d c n : match table_crc_step id bps g i (d, c, n) with Next s => same_geometry d (fst (fst s)) | Exit s => same_geometry d (fst s) end.
Proof.
  unfold table_crc_step. destruct (k_disk_read d id (g_table g + i) 1) as [d1 [e|data]] eqn:Hr; apply disk_read_law in Hr as [G _]; exact G.
Qed.
Lemma gpt_entry_geometry id bps size g i d parts : 0 < disk_sector_size d id < 2 ^ 32 ->
  match gpt_entry_step id bps size g i (d, parts) with Next s => same_geometry d (fst s) | Exit s => same_geometry d (fst s) end.
Proof.
  intros Hs. unfold gpt_entry_step.
  match goal with |- context [disk_bytes d id ?o 128] => assert (0 <= o) as Ho by (by apply Z.mod_pos_bound); destruct (disk_bytes d id o 128) as [d1 [e|data]] eqn:Hd end;
    (apply disk_bytes_geometry in Hd; [|done|exact Ho|lia]); [exact Hd|]. repeat case_match; simplify_eq; exact Hd.
Qed.
Definition same_at id d d' : Prop := same_geometry d d' /\ 0 < disk_sector_size d' id < 2 ^ 32.
Lemma gpt_entries_geometry id bps size g n d parts : 0 < disk_sector_size d id < 2 ^ 32 ->
  match for_range 0 n (gpt_entry_step id bps size g) (d, parts) with Next s => same_geometry d (fst s) | Exit s => same_geometry d (fst s) end.
Proof.
  intros Hs.
  pose proof (for_range_pres (fun x : D * list partition_entry => same_at id d (fst x)) (fun x : D * Z => same_geometry d (fst x))
    (gpt_entry_step id bps size g) 0 n (d, parts)) as Hl.
  destruct (for_range _ _ _ _) as [s|s].
  - apply Hl; [by split|]. intros i [d1 p1] [G1 S1]. cbn [fst] in *. pose proof (gpt_entry_geometry id bps size g i d1 p1 S1) as G2.
    destruct (gpt_entry_step _ _ _ _ _ _) as [[d2 p2]|[d2 e]]; cbn [fst] in *; [|by transitivity d1].
    split; [by transitivity d1|]. by rewrite (same_sector_size _ _ G2).
  - apply Hl; [by split|]. intros i [d1 p1] [G1 S1]. cbn [fst] in *. pose proof (gpt_entry_geometry id bps size g i d1 p1 S1) as G2.
    destruct (gpt_entry_step _ _ _ _ _ _) as [[d2 p2]|[d2 e]]; cbn [fst] in *; [|by transitivity d1].
    split; [by transitivity d1|]. by rewrite (same_sector_size _ _ G2).
Qed.
Lemma table_crcs_geometry id bps g n d c r :
  match for_range 0 n (table_crc_step id bps g) (d, c, r) with Next s => same_geometry d (fst (fst s)) | Exit s => same_geometry d (fst s) end.
Proof.
  apply (for_range_pres (fun x : D * Z * Z => same_geometry d (fst (fst x))) (fun x : D * Z => same_geometry d (fst x))); [done|].
  intros i [[d1 c1] r1] G1. cbn [fst] in G1. pose proof (table_crc_geometry id bps g i d1 c1 r1) as G2.
  destruct (table_crc_step _ _ _ _ _) as [s|s]; by transitivity d1.
Qed.
Lemma gpt_parse_geometry d id lba : 0 < disk_sector_size d id < 2 ^ 32 -> same_geometry d (fst (gpt_parse d id lba)).
Proof.
  intros Hs. unfold gpt_parse. cbv zeta. destruct (k_disk_read d id lba 1) as [d1 [e|data]] eqn:Hr; apply disk_read_law in Hr as [G1 _]; [exact G1|].
  destruct (negb _); [exact G1|]. destruct (gpt_bad _ _ _ _); [exact G1|]. set (g := read_gpt _).
  pose proof (table_crcs_geometry id (disk_sector_size d id) g (table_sectors g (disk_sector_size d id)) d1 0xffffffff (table_bytes g)) as G2.
  destruct (for_range 0 (table_sectors _ _) _ _) as [[[d2 crc] rem]|[d2 e]]; cbn [fst] in G2; [|by transitivity d1].
  assert (same_geometry d d2) as G3 by (by transitivity d1). destruct (negb _); [exact G3|].
  pose proof (gpt_entries_geometry id (disk_sector_size d id) (disk_sectors d id) g (g_entries g) d2 []) as G4.
  rewrite (same_sector_size _ _ G3) in G4. specialize (G4 Hs).
  destruct (for_range 0 (g_entries _) _ _) as [[d3 p3]|[d3 e]]; by transitivity d2.
Qed.
Lemma gpt_ok_parts d id lba d' parts : 0 < disk_sectors d id < 2 ^ 64 -> 0 < disk_sector_size d id < 2 ^ 32 -> gpt_parse d id lba = (d', inr parts) ->
  valid_parts (disk_sectors d id) parts /\ NoDup (map pe_number parts) /\
  exists d1 data, k_disk_read d id lba 1 = (d1, inr data) /\ gpt_header_ok data (disk_sector_size d id) lba = true /\
    let g := read_gpt (buffer data) in 2 <= g_first g /\ g_last g < disk_sectors d id - 1 /\ Forall (within g) parts.
Proof.
  intros Hsz Hbps. unfold gpt_parse. cbv zeta. destruct (k_disk_read d id lba 1) as [d1 [e|data]] eqn:Hr; [done|].
  pose proof (buffer_bytes data (proj1 (disk_read_u8 _ _ _ _ _ _ Hr))) as Hbuf. pose proof (proj1 (disk_read_law _ _ _ _ _ _ Hr)) as G1.
  destruct (gpt_header_ok _ _ _) eqn:Hh; cbn [negb]; [|done]. destruct (gpt_bad _ _ _ _) eqn:Hg; [done|]. unfold gpt_bad in Hg.
  set (g := read_gpt (buffer data)) in *. apply orb_false_elim in Hg as [[[[[[[[[[[[[[[_ _]%orb_false_elim _]%orb_false_elim Hf]%orb_false_elim Hl]%orb_false_elim _]%orb_false_elim _]%orb_false_elim
    _]%orb_false_elim _]%orb_false_elim _]%orb_false_elim _]%orb_false_elim _]%orb_false_elim _]%orb_false_elim _]%orb_false_elim _]%orb_false_elim _].
  apply Z.ltb_ge in Hf. apply Z.leb_gt in Hl. unfold u64 in Hl. rewrite Z.mod_small in Hl by lia.
  pose proof (table_crcs_geometry id (disk_sector_size d id) g (table_sectors g (disk_sector_size d id)) d1 0xffffffff (table_bytes g)) as G2.
  destruct (for_range 0 (table_sectors _ _) _ _) as [[[d2 crc] rem]|[d2 e]]; [|done]. destruct (negb _); [done|]. cbn [fst] in G2.
  pose proof (for_range_inv (fun i x => same_at id d (fst x) /\ valid_parts (disk_sectors d id) (snd x) /\ numbered i (snd x) /\ Forall (within g) (snd x)) (fun _ => True)
    (gpt_entry_step id (disk_sector_size d id) (disk_sectors d id) g) 0 (g_entries g) (d2, [])) as Hloop.
  destruct (for_range 0 (g_entries g) _ _) as [[d3 p3]|[d3 e]]; [|done]. intros [= <- <-].
  destruct Hloop as (_ & V & [_ N] & W).
  - pose proof (rd32_range (buffer data) 80 Hbuf) as Q. unfold g, read_gpt. cbn [g_entries]. unfold is_u32 in Q. lia.
  - cbn [fst snd]. assert (same_geometry d d2) as G3 by (by transitivity d1).
    split_and!; [split; [done|by rewrite (same_sector_size _ _ G3)]|apply valid_nil|split; [done|apply NoDup_nil_2]|done].
  - intros i [d4 p4] Hi ([G4 S4] & V & N & W). cbn [fst snd] in *. pose proof (gpt_entry_geometry id (disk_sector_size d id) (disk_sectors d id) g i d4 p4 S4) as G5.
    destruct (gpt_entry_step _ _ _ _ _ _) as [[d5 p5]|] eqn:Hs; [|done]. cbn [fst snd] in *.
    split; [split; [by transitivity d4|by rewrite (same_sector_size _ _ G5)]|].
    apply (gpt_entry_ok id (disk_sector_size d id) (disk_sectors d id) g i d4 p4 d5 p5); (done || lia).
  - cbn [snd] in *. split_and!; try done. exists d1, data. split_and!; (done || lia).
Qed.
End Soundness.

(** A disk of 1000 sectors whose boot record names the sectors 1..100 and 200..249. *)
#[local] Abbreviation slot start length := ([0; 0; 0; 0; 0x83; 0; 0; 0] ++ [start; 0; 0; 0; length; 0; 0; 0]).
#[local] Abbreviation boot_record := (replicate 446 0 ++ slot 1 100 ++ slot 200 50 ++ replicate 32 0 ++ [0x55; 0xaa]).
Lemma boot_sector_ok (lba : Z) data : @inr Z _ boot_record = inr data -> Forall is_u8 data /\ length data = 512%nat.
Proof.
  intros [= <-]. vm_compute replicate. cbn [app]. split; [|reflexivity].
  repeat (apply List.Forall_cons; [split; vm_compute; congruence|]). apply List.Forall_nil.
Qed.
Lemma boot_sector_error (lba : Z) e : @inr Z (list Z) boot_record = inl e -> e <> 0.
Proof. discriminate. Qed.
