(* ===== verification/Fat.v ===== *)
(** FAT volumes, the reading half of [src/kernel-src/fs/fs.c] (lines 9-19 and
    515-825): cluster chains, directories with long names, opening, reading and
    listing.  A volume is a record of [volumes]; its disk is reached through
    [Disks].  The loops over chains run on fuel; [FatSpec] shows that they end
    before it does. *)
From S2P Require Import Prelude Klib Path Disk State.

Definition MAX_VOLUMES : Z := 48.
(** [v_cache], [v_used] and [v_dirty] are the contents of the three buffers,
    [v_cache_at], [v_used_at] and [v_dirty_at] the pages that hold them. *)
Record fat_volume := mk_volume {
  v_disk : Z; v_sector : Z; v_spc : Z; v_fat_bits : Z; v_root_entries : Z; v_root_cluster : Z; v_cluster_count : Z;
  v_start : Z; v_length : Z; v_fat_start : Z; v_fat_sectors : Z; v_root_start : Z; v_data_start : Z; v_source : cstr;
  v_first_fat : Z; v_fat_count : Z; v_fsinfo : Z; v_backup_boot : Z; v_media : Z;
  v_mirrored : bool; v_write_ready : bool; v_write_failed : bool; v_partition_ro : bool;
  v_cache : zmap; v_used : zmap; v_dirty : zmap; v_cache_at : Z; v_used_at : Z; v_dirty_at : Z;
  v_cache_pages : Z; v_used_pages : Z; v_dirty_pages : Z; v_free_clusters : Z; v_alloc_hint : Z }.
#[export] Instance volume_updatable : Updatable fat_volume := fun r =>
  mk_volume (v_disk r) (v_sector r) (v_spc r) (v_fat_bits r) (v_root_entries r) (v_root_cluster r) (v_cluster_count r)
    (v_start r) (v_length r) (v_fat_start r) (v_fat_sectors r) (v_root_start r) (v_data_start r) (v_source r)
    (v_first_fat r) (v_fat_count r) (v_fsinfo r) (v_backup_boot r) (v_media r)
    (v_mirrored r) (v_write_ready r) (v_write_failed r) (v_partition_ro r)
    (v_cache r) (v_used r) (v_dirty r) (v_cache_at r) (v_used_at r) (v_dirty_at r)
    (v_cache_pages r) (v_used_pages r) (v_dirty_pages r) (v_free_clusters r) (v_alloc_hint r).
Definition volume0 : fat_volume :=
  mk_volume 0 0 0 0 0 0 0 0 0 0 0 0 0 [] 0 0 0 0 0 false false false false ∅ ∅ ∅ 0 0 0 0 0 0 0 0.
#[export] Instance volume_inhabited : Inhabited fat_volume := populate volume0.

Record k_dirent := mk_dirent { de_name : cstr; de_size : Z; de_directory : bool; de_attributes : Z; de_directory_offset : Z }.

(** * Names *)
Definition upper (c : Z) : Z := if (97 <=? c) && (c <=? 122) then c - 32 else c.
Fixpoint name_equal (a b : cstr) : bool :=
  match a, b with
  | [], [] => true
  | x :: a, y :: b => (upper x =? upper y) && name_equal a b
  | _, _ => false
  end.
(** The characters before the first one that satisfies [stop]. *)
Fixpoint until (stop : Z -> bool) (l : list Z) : list Z :=
  match l with
  | [] => []
  | c :: l => if stop c then [] else c :: until stop l
  end.
Definition is_nul (c : Z) : bool := c =? 0.
Definition is_space (c : Z) : bool := c =? 32.
Definition sfn_checksum (name : list Z) : Z :=
  fold_left (fun sum c => u8 ((if Z.land sum 1 =? 0 then 0 else 128) + Z.shiftr sum 1 + c)) name 0.
(** The name of an entry without a long one; a NUL ends it, as in any C string. *)
Definition short_name (d : list Z) : cstr :=
  let ext := take 3 (drop 8 d) in
  until is_nul (until is_space (take 8 d) ++ (if is_space (d !!! 8%nat) then [] else DOT :: until is_space ext)).

(** * Long names *)
Definition LFN_OFFSETS : list Z := [1; 3; 5; 7; 9; 14; 16; 18; 20; 22; 24; 28; 30].
Record long_state := mk_long { l_name : zmap; l_expected : Z; l_sum : Z; l_lfn : bool }.
#[export] Instance long_updatable : Updatable long_state := fun r => mk_long (l_name r) (l_expected r) (l_sum r) (l_lfn r).
Definition lfn_char (d : zmap) (seq i : Z) (st : long_state) : long_state :=
  let at_ := u32 ((seq - 1) * 13 + i) in
  let ch := rd16 d (LFN_OFFSETS !!! Z.to_nat i) in
  if K_NAME_MAX <=? at_ then if negb (ch =? 0) && negb (ch =? 0xffff) then st <| l_lfn := false |> else st
  else if (ch =? 0xffff) || (ch =? 0) then st <| l_name := zput (l_name st) at_ 0 |>
  else if (ch <? 32) || (126 <? ch) || (ch =? 47) || (ch =? 92) then st <| l_lfn := false |>
  else st <| l_name := zput (l_name st) at_ ch |>.
(** An entry of attribute 0x0f. *)
Definition lfn_entry (d : zmap) (st : long_state) : long_state :=
  let seq := Z.land (zget d 0) 31 in
  let st := if Z.land (zget d 0) 0x40 =? 0 then st else mk_long ∅ seq (zget d 13) ((1 <=? seq) && (seq <=? 20)) in
  if negb (l_lfn st) || negb (seq =? l_expected st) || negb (zget d 13 =? l_sum st) || negb (zget d 12 =? 0) ||
     negb (rd16 d 26 =? 0) || negb (Z.land (zget d 0) 0xa0 =? 0)
  then st <| l_lfn := false |>
  else (fold_range 0 13 (lfn_char d seq) st) <| l_expected ::= (fun e => u32 (e - 1)) |>.
(** The name a directory entry has after the long-name entries before it. *)
Definition long_name (st : long_state) : cstr := until is_nul (bytes_at (l_name st) 0 K_NAME_MAX).
Definition entry_name (d : zmap) (st : long_state) : cstr :=
  if l_lfn st && (l_expected st =? 0) && (l_sum st =? sfn_checksum (bytes_at d 0 11)) && negb (zget (l_name st) 0 =? 0)
  then long_name st else short_name (bytes_at d 0 32).

Section Fat.
Context {D : Type} `{Disks D}.
Implicit Types (d : D) (v : fat_volume).

(** * Bytes of a volume and links of the table *)
Definition volume_bytes (d : D) (v : fat_volume) (offset n : Z) : D * (Z + list Z) :=
  if negb (span_ok offset n (u64 (v_length v * v_sector v))) then (d, inl K_EIO)
  else disk_bytes d (v_disk v) (u64 (u64 (v_start v * v_sector v) + offset)) n.
Definition CHAIN_END : Z := 0xffffffff.
Definition fat_next (d : D) (v : fat_volume) (cluster : Z) : D * (Z + Z) :=
  if (cluster <? 2) || (v_cluster_count v <=? cluster - 2) then (d, inl K_EIO)
  else
    let off := if v_fat_bits v =? 12 then cluster + cluster / 2 else cluster * (v_fat_bits v / 8) in
    let bytes := if v_fat_bits v =? 32 then 4 else 2 in
    if negb (span_ok off bytes (u64 (v_fat_sectors v * v_sector v))) then (d, inl K_EIO)
    else
      match volume_bytes d v (u64 (u64 (v_fat_start v * v_sector v) + off)) bytes with
      | (d, inl e) => (d, inl e)
      | (d, inr data) =>
          let raw := buffer data in
          let n := if v_fat_bits v =? 32 then Z.land (rd32 raw 0) 0x0fffffff else rd16 raw 0 in
          let n := if v_fat_bits v =? 12 then if Z.land cluster 1 =? 0 then Z.land n 0xfff else Z.shiftr n 4 else n in
          let end_ := if v_fat_bits v =? 12 then 0xff8 else if v_fat_bits v =? 16 then 0xfff8 else 0x0ffffff8 in
          if end_ <=? n then (d, inr CHAIN_END)
          else if (n <? 2) || (v_cluster_count v <=? n - 2) || (n =? end_ - 1) then (d, inl K_EIO)
          else (d, inr n)
      end.

(** * Directories *)
Definition cluster_first (v : fat_volume) (cluster : Z) : Z :=
  if cluster =? 0 then v_root_start v else u64 (v_data_start v + (cluster - 2) * v_spc v).
Definition cluster_sectors (v : fat_volume) (cluster : Z) : Z :=
  if cluster =? 0 then u32 (u32 (v_root_entries v * 32 + v_sector v) - 1) / v_sector v else v_spc v.

Section Directory.
(** The callback: it changes [A] and returns whether to stop (positive), to go on (0) or an error. *)
Context {A : Type} (cb : A -> k_dirent -> Z -> A * Z).
Record dir_state := mk_dir { s_long : long_state; s_scanned : Z; s_arg : A }.
(** A file or directory entry: the 32 bytes of [e], at the byte [offset] of the volume. *)
Definition file_entry (v : fat_volume) (offset : Z) (e : zmap) (st : dir_state) : flow dir_state (A * Z) :=
  let name := entry_name e (s_long st) in
  let long := (s_long st) <| l_lfn := false |> in
  let attributes := zget e 11 in
  if bool_decide (name = [DOT]) || bool_decide (name = [DOT; DOT]) then Next (mk_dir long (s_scanned st) (s_arg st))
  else
    let directory := negb (Z.land attributes 0x10 =? 0) in
    let size := rd32 e 28 in
    let child := Z.lor (rd16 e 26) (if v_fat_bits v =? 32 then Z.shiftl (rd16 e 20) 16 else 0) in
    if (v_fat_bits v =? 32) && negb (Z.land child 0xf0000000 =? 0) then Exit (s_arg st, K_EIO)
    else if (directory || negb (size =? 0)) && ((child <? 2) || (v_cluster_count v <=? child - 2)) then Exit (s_arg st, K_EIO)
    else
      let '(arg, result) := cb (s_arg st) (mk_dirent name size directory attributes offset) child in
      if negb (result =? 0) then Exit (arg, if 0 <? result then 0 else result)
      else Next (mk_dir long (s_scanned st) arg).
Definition dir_entry (v : fat_volume) (cluster offset : Z) (e : zmap) (st : dir_state) : flow dir_state (A * Z) :=
  if (cluster =? 0) && (v_root_entries v <=? s_scanned st) then Exit (s_arg st, 0)
  else
    let st := mk_dir (s_long st) (s_scanned st + 1) (s_arg st) in
    let no_lfn := mk_dir ((s_long st) <| l_lfn := false |>) (s_scanned st) (s_arg st) in
    if 65536 <? s_scanned st then Exit (s_arg st, K_E2BIG)
    else if zget e 0 =? 0 then Exit (s_arg st, 0)
    else if zget e 0 =? 0xe5 then Next no_lfn
    else if zget e 11 =? 0x0f then Next (mk_dir (lfn_entry e (s_long st)) (s_scanned st) (s_arg st))
    else if negb (Z.land (zget e 11) 8 =? 0) then Next no_lfn
    else file_entry v offset e st.
Definition dir_sector (v : fat_volume) (cluster first s : Z) (x : D * dir_state) : flow (D * dir_state) (D * (A * Z)) :=
  let '(d, st) := x in
  match volume_bytes d v (u64 ((first + s) * v_sector v)) (v_sector v) with
  | (d, inl e) => Exit (d, (s_arg st, e))
  | (d, inr data) =>
      match for_range 0 ((v_sector v + 31) / 32)
              (fun i st => dir_entry v cluster (u64 (u64 ((first + s) * v_sector v) + 32 * i)) (buffer (take 32 (drop (Z.to_nat (32 * i)) data))) st) st with
      | Next st => Next (d, st)
      | Exit r => Exit (d, r)
      end
  end.
Fixpoint dir_loop (fuel : nat) (d : D) (v : fat_volume) (cluster visited tortoise : Z) (st : dir_state) : option (D * (A * Z)) :=
  match fuel with
  | O => None
  | S fuel =>
      if negb (cluster =? 0) && ((cluster <? 2) || (v_cluster_count v <=? cluster - 2) || (65536 <? visited + 1) || (v_cluster_count v <? visited + 1))
      then Some (d, (s_arg st, K_EIO))
      else
        let visited := if cluster =? 0 then visited else visited + 1 in
        match for_range 0 (cluster_sectors v cluster) (dir_sector v cluster (cluster_first v cluster)) (d, st) with
        | Exit r => Some r
        | Next (d, st) =>
            if cluster =? 0 then Some (d, (s_arg st, 0))
            else
              match fat_next d v cluster with
              | (d, inl e) => Some (d, (s_arg st, e))
              | (d, inr next) =>
                  if next =? CHAIN_END then Some (d, (s_arg st, 0))
                  else
                    match (if Z.land visited 1 =? 0 then fat_next d v tortoise else (d, inr tortoise)) with
                    | (d, inl e) => Some (d, (s_arg st, e))
                    | (d, inr tortoise) =>
                        if (Z.land visited 1 =? 0) && (tortoise =? CHAIN_END) then Some (d, (s_arg st, K_EIO))
                        else if next =? tortoise then Some (d, (s_arg st, K_EIO))
                        else dir_loop fuel d v next visited tortoise st
                    end
              end
        end
  end.
Definition CHAIN_FUEL : nat := Z.to_nat 65538.
Definition fat_directory (d : D) (v : fat_volume) (cluster : Z) (arg : A) : D * (A * Z) :=
  if (cluster =? 0) && (v_fat_bits v =? 32) then (d, (arg, K_EIO))
  else default (d, (arg, K_EIO)) (dir_loop CHAIN_FUEL d v cluster 0 cluster (mk_dir (mk_long ∅ 0 0 false) 0 arg)).
End Directory.

(** * Opening and listing; the volumes are the first [volume_count] of the table *)
Definition fat_find_cb (name : cstr) (found : option (k_dirent * Z)) (entry : k_dirent) (cluster : Z) : option (k_dirent * Z) * Z :=
  if name_equal name (de_name entry) then (Some (entry, cluster), 1) else (found, 0).
Fixpoint fat_walk (d : D) (v : fat_volume) (index : Z) (names : list cstr) (out : k_file) : D * (Z + k_file) :=
  match names with
  | [] => (d, inr out)
  | name :: names =>
      if Z.land (f_attributes out) 0x10 =? 0 then (d, inl K_ENOENT)
      else
        let '(d, (found, e)) := fat_directory (fat_find_cb name) d v (f_cluster out) None in
        if negb (e =? 0) then (d, inl e)
        else
          match found with
          | None => (d, inl K_ENOENT)
          | Some (entry, cluster) =>
              fat_walk d v index names (mk_file 2 index cluster (de_attributes entry) (de_size entry) (de_directory_offset entry))
          end
  end.
Definition open_on (d : D) (v : fat_volume) (index : Z) (path : cstr) : D * (Z + k_file) :=
  fat_walk d v index (components path) (mk_file 2 index (if v_fat_bits v =? 32 then v_root_cluster v else 0) 0x10 0 0).
Definition fat_open (d : D) (volumes : table fat_volume) (volume_count index : Z) (path : cstr) : D * (Z + k_file) :=
  if volume_count <=? index then (d, inl K_ENOENT) else open_on d (volumes !!! index) index path.

(** The file's entry is read again: it may have been replaced since the file was opened. *)
Definition refresh_on (d : D) (v : fat_volume) (f : k_file) : D * k_file * Z :=
  if f_directory_offset f =? 0 then (d, f, 0)
  else
    match volume_bytes d v (f_directory_offset f) 32 with
    | (d, inl e) => (d, f, e)
    | (d, inr data) =>
        let e := buffer data in
        if (zget e 0 =? 0) || (zget e 0 =? 0xe5) || negb (Z.land (zget e 11) 8 =? 0) then (d, f, K_ENOENT)
        else
          let cluster := Z.lor (rd16 e 26) (if v_fat_bits v =? 32 then Z.shiftl (rd16 e 20) 16 else 0) in
          let f := f <| f_attributes := zget e 11 |> <| f_size := rd32 e 28 |> <| f_cluster := cluster |> in
          if (negb (f_size f =? 0) || negb (Z.land (f_attributes f) 0x10 =? 0) || negb (cluster =? 0)) &&
             ((cluster <? 2) || (v_cluster_count v <=? cluster - 2))
          then (d, f, K_EIO) else (d, f, 0)
    end.
Definition fat_refresh (d : D) (volumes : table fat_volume) (volume_count : Z) (f : k_file) : D * k_file * Z :=
  if negb (f_kind f =? 2) || (volume_count <=? f_object f) then (d, f, K_EINVAL) else refresh_on d (volumes !!! f_object f) f.

(** Reading along the chain: the bytes read so far are in [out]. *)
Definition cluster_bytes (v : fat_volume) : Z := u64 (v_spc v * v_sector v).
Definition read_step (d : D) (v : fat_volume) (cluster skip bytes at_ : Z) (out : list Z) : D * (Z + (list Z * Z * Z * Z)) :=
  if skip =? 0 then
    let n := Z.min bytes (cluster_bytes v - at_) in
    match volume_bytes d v (u64 ((v_data_start v + (cluster - 2) * v_spc v) * v_sector v + at_)) n with
    | (d, inl e) => (d, inl e)
    | (d, inr data) => (d, inr (out ++ data, 0, bytes - n, 0))
    end
  else (d, inr (out, skip - 1, bytes, at_)).
Fixpoint read_loop (fuel : nat) (d : D) (v : fat_volume) (cluster tortoise steps skip bytes at_ : Z) (out : list Z) : option (D * Z * list Z) :=
  if (skip =? 0) && (bytes =? 0) then Some (d, 0, out)
  else
    match fuel with
    | O => None
    | S fuel =>
        if (cluster <? 2) || (v_cluster_count v <=? cluster - 2) || (v_cluster_count v <=? steps) || (65536 <? steps) then Some (d, K_EIO, out)
        else
          match read_step d v cluster skip bytes at_ out with
          | (d, inl e) => Some (d, e, out)
          | (d, inr (out, skip', bytes', at_)) =>
              if (skip =? 0) && (bytes' =? 0) then Some (d, 0, out)
              else
                match fat_next d v cluster with
                | (d, inl e) => Some (d, e, out)
                | (d, inr next) =>
                    if next =? CHAIN_END then Some (d, K_EIO, out)
                    else
                      let steps := steps + 1 in
                      match (if Z.land steps 1 =? 0 then fat_next d v tortoise else (d, inr tortoise)) with
                      | (d, inl e) => Some (d, e, out)
                      | (d, inr tortoise) =>
                          if next =? tortoise then Some (d, K_EIO, out)
                          else read_loop fuel d v next tortoise steps skip' bytes' at_ out
                      end
                end
          end
    end.
Definition read_on (d : D) (v : fat_volume) (file : k_file) (offset bytes : Z) : D * Z * list Z :=
  if (f_size file <=? offset) || (bytes =? 0) then (d, 0, [])
  else
    let bytes := Z.min bytes (f_size file - offset) in
    let skip := offset / cluster_bytes v in
    if 65536 <? skip then (d, K_E2BIG, [])
    else default (d, K_EIO, []) (read_loop CHAIN_FUEL d v (f_cluster file) (f_cluster file) 0 skip bytes (offset mod cluster_bytes v) []).
(** The error and the bytes that were read before it. *)
Definition fat_read (d : D) (volumes : table fat_volume) (volume_count : Z) (file : k_file) (offset bytes : Z) : D * Z * list Z :=
  let '(d, file, e) := fat_refresh d volumes volume_count file in
  if negb (e =? 0) then (d, e, []) else read_on d (volumes !!! f_object file) file offset bytes.
(** The entries given to the callback, in order. *)
Definition fat_list_cb (l : list k_dirent) (entry : k_dirent) (cluster : Z) : list k_dirent * Z := (l ++ [entry], 0).
Definition fat_list (d : D) (volumes : table fat_volume) (volume_count : Z) (file : k_file) : D * (list k_dirent * Z) :=
  if volume_count <=? f_object file then (d, ([], K_ENOENT))
  else fat_directory fat_list_cb d (volumes !!! f_object file) (f_cluster file) [].
End Fat.

(** * The boot sector

    The volume that [fat_mount] makes of it, on the [length] sectors from [start]; [bps] is the sector size of the disk. *)
Definition fat_bpb (disk_id start length bps : Z) (source : cstr) (boot : zmap) : option fat_volume :=
  let spc := zget boot 13 in
  let reserved := rd16 boot 14 in
  let fats := zget boot 16 in
  let root_entries := rd16 boot 17 in
  let total := if rd16 boot 19 =? 0 then rd32 boot 32 else rd16 boot 19 in
  let fat_size := if rd16 boot 22 =? 0 then rd32 boot 36 else rd16 boot 22 in
  if negb (zget boot 510 =? 0x55) || negb (zget boot 511 =? 0xaa) || (negb (zget boot 0 =? 0xeb) && negb (zget boot 0 =? 0xe9)) ||
     negb (rd16 boot 11 =? bps) || negb (power2 spc) || (128 <? spc) || (reserved =? 0) || (fats =? 0) || (2 <? fats) ||
     (fat_size =? 0) || (total =? 0) || (length <? total)
  then None
  else
    let root_sectors := (root_entries * 32 + bps - 1) / bps in
    let data := reserved + fats * fat_size + root_sectors in
    if total <=? data then None
    else
      let clusters := (total - data) / spc in
      if (clusters =? 0) || (0x0fffffee <? clusters) then None
      else
        let bits := if clusters <? 4085 then 12 else if clusters <? 65525 then 16 else 32 in
        let needed := if bits =? 12 then ((clusters + 2) * 3 + 1) / 2 else (clusters + 2) * (bits / 8) in
        if fat_size * bps <? needed then None
        else
          let root := rd32 boot 44 in
          let flags := rd16 boot 40 in
          let active := if (bits =? 32) && negb (Z.land flags 0x80 =? 0) then Z.land flags 15 else 0 in
          if bits =? 32 then
            if negb (root_entries =? 0) || negb (rd16 boot 22 =? 0) || negb (rd16 boot 42 =? 0) || (root <? 2) || (clusters <=? root - 2) || (fats <=? active)
            then None
            else Some (mk_volume disk_id bps spc bits root_entries root clusters start total (reserved + active * fat_size) fat_size
                         (reserved + fats * fat_size) data source reserved fats (rd16 boot 48) (rd16 boot 50) (zget boot 21)
                         (Z.land flags 0x80 =? 0) false false false ∅ ∅ ∅ 0 0 0 0 0 0 0 0)
          else if (root_entries =? 0) || (rd16 boot 22 =? 0) then None
          else Some (mk_volume disk_id bps spc bits root_entries 0 clusters start total (reserved + active * fat_size) fat_size
                       (reserved + fats * fat_size) data source reserved fats 0 0 (zget boot 21)
                       true false false false ∅ ∅ ∅ 0 0 0 0 0 0 0 0).
