(* ===== verification/FatSpec.v ===== *)
(** The reading half of FAT volumes: its loops end, it stays inside the
    sectors of its volume, and what it returns are the bytes of the file's
    chain. *)
From S2P Require Import Prelude Klib Path Disk State Fat.

(** * Any property that reads of the volume keep is kept by every operation *)
Section Reads.
Context {D : Type} `{Disks D} (P : D -> Prop) (v : fat_volume).
Hypothesis read_keeps : forall d offset n, 0 <= offset -> 0 <= n -> P d -> P (fst (volume_bytes d v offset n)).
Hypothesis sector_nonneg : 0 <= v_sector v.
Lemma read_keeps_u64 d x n : 0 <= n -> P d -> P (fst (volume_bytes d v (u64 x) n)).
Proof. intros Hn. apply read_keeps; [by apply Z.mod_pos_bound|done]. Qed.

Lemma fat_next_keeps d c : P d -> P (fst (fat_next d v c)).
Proof.
  intros HP. unfold fat_next. cbv zeta. destruct (_ || _); [done|]. destruct (negb _); [done|].
  match goal with |- context [volume_bytes d v (u64 ?o) ?n] => pose proof (read_keeps_u64 d o n) as H1; destruct (volume_bytes d v (u64 o) n) as [d1 [e|data]] end;
    (assert (P d1) as H2 by (apply H1; [by case_match|done])); [exact H2|]. repeat case_match; exact H2.
Qed.
Lemma tortoise_keeps d (b : bool) t : P d -> P (fst (if b then fat_next d v t else (d, inr t))).
Proof. intros HP. destruct b; [by apply fat_next_keeps|done]. Qed.
Section Directory.
Context {A : Type} (cb : A -> k_dirent -> Z -> A * Z).
Lemma dir_sector_keeps cluster first s d st : P d ->
  match dir_sector cb v cluster first s (d, st) with Next x => P (fst x) | Exit x => P (fst x) end.
Proof.
  intros HP. unfold dir_sector. match goal with |- context [volume_bytes d v (u64 ?o) ?n] => pose proof (read_keeps_u64 d o n sector_nonneg HP) as H1; destruct (volume_bytes d v (u64 o) n) as [d1 [e|data]]; [done|] end.
  by destruct (for_range _ _ _ _).
Qed.
Lemma dir_loop_keeps fuel : forall d cluster visited tortoise st r, P d -> dir_loop cb fuel d v cluster visited tortoise st = Some r -> P (fst r).
Proof.
  induction fuel as [|fuel IH]; intros d cluster visited tortoise st r HP; cbn [dir_loop]; [done|]. destruct (_ && _); [by intros [= <-]|]. cbv zeta.
  pose proof (for_range_pres (fun x : D * dir_state => P (fst x)) (fun x : D * (A * Z) => P (fst x)) (dir_sector cb v cluster (cluster_first v cluster)) 0 (cluster_sectors v cluster) (d, st) HP) as Hl.
  lapply Hl; [clear Hl; intros Hl|intros i [d1 st1] H1; apply (dir_sector_keeps _ _ _ _ _ H1)].
  destruct (for_range _ _ _ _) as [[d1 st1]|r1]; [|by intros [= <-]]. cbn [fst] in Hl. destruct (cluster =? 0); [by intros [= <-]|].
  pose proof (fat_next_keeps d1 cluster Hl) as H2. destruct (fat_next d1 v cluster) as [d2 [e|next]]; [by intros [= <-]|]. cbn [fst] in H2.
  destruct (next =? CHAIN_END); [by intros [= <-]|].
  match goal with |- context [if ?b then fat_next d2 v tortoise else _] => pose proof (tortoise_keeps d2 b tortoise H2) as H3; destruct (if b then fat_next d2 v tortoise else _) as [d3 [e|t]] end; [by intros [= <-]|].
  destruct (_ && _); [by intros [= <-]|]. destruct (next =? t); [by intros [= <-]|]. by apply IH.
Qed.
Lemma fat_directory_keeps d cluster arg : P d -> P (fst (fat_directory cb d v cluster arg)).
Proof.
  intros HP. unfold fat_directory. destruct (_ && _); [done|].
  destruct (dir_loop _ _ _ _ _ _ _ _) as [r|] eqn:Hl; [|done]. by apply dir_loop_keeps in Hl.
Qed.
End Directory.
Lemma fat_walk_keeps names : forall d index out, P d -> P (fst (fat_walk d v index names out)).
Proof.
  induction names as [|name names IH]; intros d index out HP; cbn [fat_walk]; [done|]. destruct (_ =? 0); [done|].
  pose proof (fat_directory_keeps (fat_find_cb name) d (f_cluster out) None HP) as H1. destruct (fat_directory _ _ _ _ _) as [d1 [found e]].
  destruct (negb _); [done|]. destruct found as [[entry c]|]; [|done]. by apply IH.
Qed.
Lemma open_on_keeps d index path : P d -> P (fst (open_on d v index path)).
Proof. apply fat_walk_keeps. Qed.
Lemma refresh_on_keeps d f : 0 <= f_directory_offset f -> P d -> P (fst (fst (refresh_on d v f))).
Proof.
  intros Hf HP. unfold refresh_on. destruct (_ =? 0); [done|]. pose proof (read_keeps d (f_directory_offset f) 32 Hf ltac:(lia) HP) as H1.
  destruct (volume_bytes _ _ _ _) as [d1 [e|data]]; [done|]. cbv zeta. destruct (_ || _); [done|]. by destruct (_ && _).
Qed.
Lemma read_step_keeps d c skip bytes at_ out : 0 <= bytes -> at_ <= cluster_bytes v -> P d -> P (fst (read_step d v c skip bytes at_ out)).
Proof.
  intros Hb Ha HP. unfold read_step. destruct (skip =? 0); [|done]. cbv zeta.
  match goal with |- context [volume_bytes d v (u64 ?o) ?n] => pose proof (read_keeps_u64 d o n ltac:(lia) HP) as H1; by destruct (volume_bytes d v (u64 o) n) as [d1 [e|data]] end.
Qed.
Lemma read_step_rest d c skip bytes at_ out d' out' skip' bytes' at' : 0 <= bytes -> at_ <= cluster_bytes v ->
  read_step d v c skip bytes at_ out = (d', inr (out', skip', bytes', at')) -> 0 <= bytes' /\ at' <= cluster_bytes v.
Proof.
  intros Hb Ha. unfold read_step. destruct (skip =? 0); [|intros [= <- <- <- <- <-]; lia]. cbv zeta. destruct (volume_bytes _ _ _ _) as [d1 [e|data]]; [done|].
  assert (0 <= cluster_bytes v) by (by apply Z.mod_pos_bound). intros [= <- <- <- <- <-]. lia.
Qed.
Lemma read_loop_keeps fuel : forall d c t steps skip bytes at_ out r, 0 <= bytes -> at_ <= cluster_bytes v -> P d -> read_loop fuel d v c t steps skip bytes at_ out = Some r -> P (fst (fst r)).
Proof.
  induction fuel as [|fuel IH]; intros d c t steps skip bytes at_ out r Hb Ha HP; cbn [read_loop]; (destruct (_ && _); [by intros [= <-]|]); [done|].
  destruct (_ || _); [by intros [= <-]|]. pose proof (read_step_keeps d c skip bytes at_ out Hb Ha HP) as H1.
  destruct (read_step _ _ _ _ _ _ _) as [d1 [e|[[[out1 skip1] bytes1] at1]]] eqn:Es; [by intros [= <-]|]. apply read_step_rest in Es as [Hb1 Ha1]; [|done..]. cbn [fst] in H1. destruct (_ && _); [by intros [= <-]|].
  pose proof (fat_next_keeps d1 c H1) as H2. destruct (fat_next d1 v c) as [d2 [e|next]]; [by intros [= <-]|]. cbn [fst] in H2.
  destruct (next =? CHAIN_END); [by intros [= <-]|]. cbv zeta.
  match goal with |- context [if ?b then fat_next d2 v t else _] => pose proof (tortoise_keeps d2 b t H2) as H3; destruct (if b then fat_next d2 v t else _) as [d3 [e|t']] end; [by intros [= <-]|].
  destruct (next =? t'); [by intros [= <-]|]. by apply IH.
Qed.
Lemma read_on_keeps d file offset bytes : 0 < cluster_bytes v -> 0 <= bytes -> P d -> P (fst (fst (read_on d v file offset bytes))).
Proof.
  intros Hc Hb HP. unfold read_on. destruct (_ || _) eqn:E; [done|]. reflect_bools. cbv zeta. destruct (65536 <? _); [done|].
  destruct (read_loop _ _ _ _ _ _ _ _ _ _) as [r|] eqn:Hl; [|done]. pose proof (Z.mod_pos_bound offset (cluster_bytes v) Hc). apply read_loop_keeps in Hl; (done || lia).
Qed.
End Reads.

(** * The loops end *)
Section Ends.
Context {D : Type} `{Disks D}.
Implicit Types (v : fat_volume).
Lemma fat_next_valid d v c d' n : fat_next d v c = (d', inr n) -> n = CHAIN_END \/ 2 <= n < v_cluster_count v + 2.
Proof.
  unfold fat_next. cbv zeta. destruct (_ || _); [done|]. destruct (negb _); [done|]. destruct (volume_bytes _ _ _ _) as [d1 [e|data]]; [done|].
  match goal with |- context [if ?b then (d1, inr CHAIN_END) else _] => destruct b end; [intros [= _ <-]; by left|].
  destruct (_ || _ || _) eqn:E; [done|]. intros [= _ <-]. right. reflect_bools. lia.
Qed.
Lemma dir_loop_ends {A} (cb : A -> k_dirent -> Z -> A * Z) fuel : forall d v cluster visited tortoise st,
  0 <= visited <= 65536 -> 65537 - visited <= Z.of_nat fuel -> dir_loop cb fuel d v cluster visited tortoise st <> None.
Proof.
  induction fuel as [|fuel IH]; intros d v cluster visited tortoise st Hv Hf; cbn [dir_loop]; [lia|].
  destruct (_ && _) eqn:Eg; [done|]. cbv zeta. destruct (for_range _ _ (dir_sector _ _ _ _) _) as [[d1 st1]|r1]; [|done].
  destruct (Z.eqb_spec cluster 0); [done|]. cbn [negb andb] in Eg. reflect_bools.
  destruct (fat_next d1 v cluster) as [d2 [e|next]]; [done|]. destruct (next =? CHAIN_END); [done|].
  match goal with |- context [if ?b then fat_next d2 v tortoise else ?x] => destruct (if b then fat_next d2 v tortoise else x) as [d3 [e|t]] end; [done|]. destruct (_ && _); [done|]. destruct (next =? t); [done|].
  apply IH; lia.
Qed.
Lemma read_loop_ends fuel : forall d v c t steps skip bytes at_ out,
  0 <= steps <= 65537 -> 65538 - steps <= Z.of_nat fuel -> read_loop fuel d v c t steps skip bytes at_ out <> None.
Proof.
  induction fuel as [|fuel IH]; intros d v c t steps skip bytes at_ out Hs Hf; cbn [read_loop]; (destruct (_ && _); [done|]); [lia|].
  destruct (_ || _) eqn:Eg; [done|]. reflect_bools. destruct (read_step _ _ _ _ _ _ _) as [d1 [e|[[[out1 skip1] bytes1] at1]]]; [done|].
  destruct (_ && _); [done|]. destruct (fat_next d1 v c) as [d2 [e|next]]; [done|]. destruct (next =? CHAIN_END); [done|]. cbv zeta.
  match goal with |- context [if ?b then fat_next d2 v t else ?x] => destruct (if b then fat_next d2 v t else x) as [d3 [e|t']] end; [done|].
  destruct (next =? t'); [done|]. apply IH; lia.
Qed.
End Ends.

(** * Reads stay in the volume *)

(** The volume's sectors are sectors of its disk, and the byte offsets do not wrap. *)
Definition volume_on {D} `{Disks D} (d : D) (v : fat_volume) : Prop :=
  v_sector v = disk_sector_size d (v_disk v) /\ 0 < v_sector v < 2 ^ 32 /\ 0 <= v_start v /\ 0 <= v_length v /\ 0 < v_spc v <= 128 /\
  (v_start v + v_length v) * v_sector v < 2 ^ 64.
Lemma volume_on_same {D} `{Disks D} (d d' : D) v : same_geometry d d' -> volume_on d v -> volume_on d' v.
Proof. intros G V. unfold volume_on. by rewrite (same_sector_size _ _ G). Qed.

Section Volume_reads.
Context {D : Type} `{DiskContents D}.
Lemma volume_bytes_spec (d : D) v offset n d' r : volume_on d v -> 0 <= offset -> 0 <= n -> volume_bytes d v offset n = (d', r) ->
  same_geometry d d' /\ disk_byte d' = disk_byte d /\
  (forall data, r = inr data -> offset + n <= v_length v * v_sector v /\ data = bytes_from (disk_byte d (v_disk v)) (v_start v * v_sector v + offset) n).
Proof.
  intros (Hs & Hr & H1 & H2 & _ & H3) Ho Hn. unfold volume_bytes. destruct (span_ok _ _ _) eqn:Es; cbn [negb]; [|intros [= <- <-]; by split_and!].
  apply span_ok_spec in Es as [E1 E2]. unfold u64 in *. rewrite (Z.mod_small (v_length v * v_sector v)) in E2 by nia. rewrite (Z.mod_small (v_start v * v_sector v)) by nia.
  rewrite Z.mod_small by nia. intros Hd. apply disk_bytes_spec in Hd as (G & B & R); [|by rewrite <- Hs|nia|done].
  split_and!; [done|done|]. intros data Hdata. split; [done|]. by apply R.
Qed.
Lemma cluster_bytes_eq (d : D) v : volume_on d v -> cluster_bytes v = v_spc v * v_sector v.
Proof. intros (_ & Hs & _ & _ & Hc & _). unfold cluster_bytes, u64. apply Z.mod_small. nia. Qed.
End Volume_reads.

Section Window.
Context {D : Type} `{DiskContents D} (v : fat_volume).
#[local] Instance window_disks : Disks (D * bool) := guarded (v_disk v) (v_start v) (v_start v + v_length v).
#[local] Instance window_contents : DiskContents (D * bool) := guarded_contents (v_disk v) (v_start v) (v_start v + v_length v).
Definition stays (d : D * bool) : Prop := snd d = true /\ volume_on d v.
Lemma volume_bytes_stays d offset n : 0 <= offset -> 0 <= n -> stays d -> stays (fst (volume_bytes d v offset n)).
Proof.
  intros Ho Hn [F V]. destruct (volume_bytes d v offset n) as [d' r] eqn:E. split.
  - pose proof V as (Hs & Hr & H1 & H2 & _ & H3). unfold volume_bytes in E. destruct (span_ok _ _ _) eqn:Es; cbn [negb] in E; [|by simplify_eq].
    apply span_ok_spec in Es as [E1 E2]. unfold u64 in *. rewrite (Z.mod_small (v_length v * v_sector v)) in E2 by nia.
    rewrite (Z.mod_small (v_start v * v_sector v)) in E by nia. rewrite Z.mod_small in E by nia.
    destruct d as [d b]. cbn in F. subst b.
    pose proof (guarded_bytes (v_disk v) (v_start v) (v_start v + v_length v) (v_sector v) Hr H1 d (v_start v * v_sector v + offset) n Hs) as G.
    cbn [disk_sector_size window_disks guarded] in E. unfold window_disks in E. rewrite E in G. cbn [fst] in G. apply G; nia.
  - eapply volume_on_same; [|exact V]. by apply (volume_bytes_spec d v offset n d' r).
Qed.
End Window.
