(* ===== verification/FatRead.v ===== *)
(** What FAT volumes hold: the geometry that a boot sector must have to be
    mounted, the chain of a file as a function of the bytes on the disk, and
    the theorem that a read returns the bytes of the chain. *)
From S2P Require Import Prelude Klib Path Disk State Fat FatSpec.

(** * Geometry *)
Definition entry_bytes_end (v : fat_volume) : Z :=
  if v_fat_bits v =? 12 then ((v_cluster_count v + 2) * 3 + 1) / 2 else (v_cluster_count v + 2) * (v_fat_bits v / 8).
(** The tables, the root directory and the clusters follow each other inside the volume, and every cluster has an entry in the table. *)
Record volume_ok (v : fat_volume) : Prop := {
  ok_bits : v_fat_bits v = 12 \/ v_fat_bits v = 16 \/ v_fat_bits v = 32;
  ok_clusters : 0 < v_cluster_count v <= 0x0fffffee;
  ok_class : match v_fat_bits v with 12 => v_cluster_count v < 4085 | 16 => v_cluster_count v < 65525 | _ => 65525 <= v_cluster_count v end;
  ok_tables : 0 < v_first_fat v <= v_fat_start v /\ v_fat_start v + v_fat_sectors v <= v_root_start v /\ 0 < v_fat_sectors v;
  ok_copies : v_root_start v = v_first_fat v + v_fat_count v * v_fat_sectors v /\ 1 <= v_fat_count v <= 2;
  ok_root : if v_fat_bits v =? 32 then 2 <= v_root_cluster v < v_cluster_count v + 2 /\ v_root_entries v = 0
            else v_root_cluster v = 0 /\ 0 < v_root_entries v /\ v_root_entries v * 32 <= (v_data_start v - v_root_start v) * v_sector v;
  ok_data : v_root_start v <= v_data_start v /\ v_data_start v + v_cluster_count v * v_spc v <= v_length v;
  ok_spc : 0 < v_spc v <= 128;
  ok_entries : entry_bytes_end v <= v_fat_sectors v * v_sector v }.

Lemma fat_bpb_geometry disk start length bps source boot v : 0 < bps < 2 ^ 16 -> bytes_ok boot -> fat_bpb disk start length bps source boot = Some v ->
  volume_ok v /\ v_disk v = disk /\ v_start v = start /\ 0 < v_length v <= length /\ v_sector v = bps.
Proof.
  intros Hbps Hb. unfold fat_bpb. cbv zeta.
  pose proof (rd16_range boot 14 (Hb _) (Hb _)) as R14. pose proof (rd16_range boot 17 (Hb _) (Hb _)) as R17. pose proof (rd16_range boot 19 (Hb _) (Hb _)) as R19.
  pose proof (rd16_range boot 22 (Hb _) (Hb _)) as R22. pose proof (rd32_range boot 32 Hb) as R32. pose proof (rd32_range boot 36 Hb) as R36.
  pose proof (rd32_range boot 44 Hb) as R44. pose proof (Hb 13) as B13. pose proof (Hb 16) as B16. unfold is_u8, is_u16, is_u32 in *.
  set (spc := zget boot 13) in *. set (fats := zget boot 16) in *. set (entries := rd16 boot 17) in *. set (reserved := rd16 boot 14) in *.
  set (total := if rd16 boot 19 =? 0 then rd32 boot 32 else rd16 boot 19). set (fat_size := if rd16 boot 22 =? 0 then rd32 boot 36 else rd16 boot 22).
  assert (0 <= total < 2 ^ 32) as Ht by (unfold total; case_match; lia). assert (0 <= fat_size < 2 ^ 32) as Hf by (unfold fat_size; case_match; lia).
  destruct (_ || _) eqn:E1; [done|]. set (roots := (entries * 32 + bps - 1) / bps). set (data := reserved + fats * fat_size + roots).
  assert (entries * 32 <= roots * bps /\ 0 <= roots) as [Hroots Hroots0].
  { unfold roots. pose proof (Z.div_mod (entries * 32 + bps - 1) bps ltac:(lia)). pose proof (Z.mod_pos_bound (entries * 32 + bps - 1) bps ltac:(lia)).
    split; [nia|apply Z.div_pos; lia]. }
  destruct (total <=? data) eqn:E2; [done|]. set (clusters := (total - data) / spc).
  destruct (_ || _) eqn:E3 in |- *; [done|]. repeat (apply orb_false_elim in E1 as [E1 ?]). reflect_bools.
  assert (0 < spc) as Hspc by (destruct (Z.eq_dec spc 0) as [Hz|]; [exfalso; rewrite Hz in *; done|lia]).
  pose proof (Z.mul_div_le (total - data) spc ltac:(lia)) as Hcl. fold clusters in Hcl.
  assert (0 <= clusters) as Hc0 by (apply Z.div_pos; lia).
  set (bits := if clusters <? 4085 then 12 else if clusters <? 65525 then 16 else 32).
  set (needed := if bits =? 12 then ((clusters + 2) * 3 + 1) / 2 else (clusters + 2) * (bits / 8)).
  destruct (fat_size * bps <? needed) eqn:E4; [done|]. set (active := if (bits =? 32) && _ then _ else 0).
  assert (bits = 12 /\ clusters < 4085 \/ bits = 16 /\ 4085 <= clusters < 65525 \/ bits = 32 /\ 65525 <= clusters) as Hbits
    by (unfold bits; repeat case_match; reflect_bools; lia).
  assert (0 <= active) as Ha0. { unfold active. case_match; [|lia]. apply Z.land_nonneg. by right. }
  assert (bits <> 32 -> active = 0) as Ha1 by (intros Hne; unfold active; by rewrite (proj2 (Z.eqb_neq bits 32))).
  clearbody active bits total fat_size. reflect_bools. destruct (Z.eqb_spec bits 32) as [Hb32|Hb32].
  - destruct (_ || _) eqn:E5; [done|]. repeat (apply orb_false_elim in E5 as [E5 ?]). reflect_bools. intros [= <-]. cbn [v_disk v_start v_length v_sector].
    split_and!; try done; try lia. subst bits. apply Build_volume_ok; cbn -[Z.mul Z.add Z.div]; [lia|lia|lia|nia|split; [done|lia]|lia|unfold data; nia|lia|done].
  - destruct (_ || _) eqn:E5; [done|]. reflect_bools. intros [= <-]. cbn [v_disk v_start v_length v_sector].
    split_and!; try done; try lia.
    rewrite (Ha1 Hb32) in *.
    destruct Hbits as [[-> ?]|[[-> ?]|[-> ?]]]; [..|lia];
      (apply Build_volume_ok; cbn -[Z.mul Z.add Z.div]; [lia|lia|lia|nia|split; [done|lia]|unfold data; split_and!; (done || nia || lia)|unfold data; nia|lia|done]).
Qed.

(** * Chains as a function of the bytes of the disk *)
Section Chain.
Context (byte : Z -> Z) (v : fat_volume).
Definition link_raw (c : Z) : Z :=
  let off := if v_fat_bits v =? 12 then c + c / 2 else c * (v_fat_bits v / 8) in
  let raw := buffer (bytes_from byte ((v_start v + v_fat_start v) * v_sector v + off) (if v_fat_bits v =? 32 then 4 else 2)) in
  let n := if v_fat_bits v =? 32 then Z.land (rd32 raw 0) 0x0fffffff else rd16 raw 0 in
  if v_fat_bits v =? 12 then if Z.land c 1 =? 0 then Z.land n 0xfff else Z.shiftr n 4 else n.
Definition chain_end : Z := if v_fat_bits v =? 12 then 0xff8 else if v_fat_bits v =? 16 then 0xfff8 else 0x0ffffff8.
Definition is_cluster (c : Z) : bool := (2 <=? c) && (c <? v_cluster_count v + 2).
(** The cluster after [c]; [None] at the end of the chain and at a link that is not one. *)
Definition link (c : Z) : option Z :=
  let n := link_raw c in
  if (chain_end <=? n) || negb (is_cluster n) || (n =? chain_end - 1) then None else Some n.
Fixpoint nth_cluster (c : Z) (k : nat) : option Z :=
  match k with
  | O => Some c
  | S k => match nth_cluster c k with Some c' => link c' | None => None end
  end.
Lemma nth_cluster_S c k : nth_cluster c (S k) = match nth_cluster c k with Some c' => link c' | None => None end.
Proof. done. Qed.
Definition cluster_size : Z := v_spc v * v_sector v.
(** The byte of the disk at position [p] of a file that starts at cluster [c]. *)
Definition cluster_byte (c : Z) : Z := (v_start v + v_data_start v + (c - 2) * v_spc v) * v_sector v.
Definition file_byte (c p : Z) : option Z :=
  match nth_cluster c (Z.to_nat (p / cluster_size)) with
  | Some c' => if is_cluster c' then Some (byte (cluster_byte c' + p mod cluster_size)) else None
  | None => None
  end.
End Chain.

Section Read.
Context {D : Type} `{DiskContents D}.
Implicit Types (d : D) (v : fat_volume).
Definition bytes_of d v : Z -> Z := disk_byte d (v_disk v).
Lemma fat_next_link d v c d' r : volume_on d v -> volume_ok v -> fat_next d v c = (d', r) ->
  same_geometry d d' /\ disk_byte d' = disk_byte d /\
  (forall n, r = inr n -> is_cluster v c = true /\ (n = CHAIN_END /\ chain_end v <= link_raw (bytes_of d v) v c \/ link (bytes_of d v) v c = Some n)).
Proof.
  intros V K. unfold fat_next. cbv zeta. destruct (_ || _) eqn:Ec; [intros [= <- <-]; by split_and!|].
  destruct (span_ok _ _ _) eqn:Es; cbn [negb]; [|intros [= <- <-]; by split_and!]. apply span_ok_spec in Es as [E1 E2].
  pose proof V as (Hs & Hsec & Hst & Hlen & Hspc & H64). pose proof (ok_tables v K) as (T1 & T2 & T3). pose proof (ok_data v K) as [D1 D2]. pose proof (ok_clusters v K) as C.
  reflect_bools. assert (0 <= (if v_fat_bits v =? 12 then c + c / 2 else c * (v_fat_bits v / 8))) as Hoff.
  { case_match; [pose proof (Z.div_pos c 2 ltac:(lia) ltac:(lia)); lia|]. apply Z.mul_nonneg_nonneg; [lia|apply Z.div_pos; pose proof (ok_bits v K); lia]. }
  set (off := if v_fat_bits v =? 12 then _ else _) in *. set (n := if v_fat_bits v =? 32 then 4 else 2) in *.
  assert (n = 2 \/ n = 4) as Hn by (unfold n; case_match; auto).
  unfold u64 in *. rewrite (Z.mod_small (v_fat_sectors v * v_sector v)) in E2 by nia.
  rewrite (Z.mod_small (v_fat_start v * v_sector v)) by nia. rewrite Z.mod_small by nia.
  destruct (volume_bytes d v _ n) as [d1 [e|data]] eqn:Hd; (apply volume_bytes_spec in Hd as (G & B & R); [|done|nia|lia]); [intros [= <- <-]; by split_and!|].
  destruct (R data eq_refl) as [_ Hdata]. replace (v_start v * v_sector v + (v_fat_start v * v_sector v + off)) with ((v_start v + v_fat_start v) * v_sector v + off) in Hdata by lia.
  fold (bytes_of d v) in Hdata. rewrite Hdata.
  match goal with |- (if ?e <=? ?x then _ else _) = _ -> _ =>
    change x with (link_raw (bytes_of d v) v c); change e with (chain_end v) end.
  intros Hr. split_and!; [by repeat case_match; simplify_eq|by repeat case_match; simplify_eq|].
  assert (is_cluster v c = true) as Hc by (unfold is_cluster; apply andb_true_intro; rewrite Z.leb_le, Z.ltb_lt; lia).
  intros m Hm. split; [done|]. subst r. destruct (chain_end v <=? _) eqn:E3; [injection Hr as _ <-; left; split; [done|by apply Z.leb_le]|].
  destruct (_ || _ || _) eqn:E4; [done|]. injection Hr as _ <-. right. unfold link. rewrite E3. reflect_bools.
  assert (is_cluster v (link_raw (bytes_of d v) v c) = true) as -> by (unfold is_cluster; apply andb_true_intro; rewrite Z.leb_le, Z.ltb_lt; lia).
  cbn [negb orb]. by rewrite (proj2 (Z.eqb_neq _ _)).
Qed.
Lemma volume_bytes_error d v offset n d' e : volume_bytes d v offset n = (d', inl e) -> e <> 0.
Proof. unfold volume_bytes. destruct (negb _); [by intros [= _ <-]|]. apply disk_bytes_error. Qed.
Lemma fat_next_error d v c d' e : fat_next d v c = (d', inl e) -> e <> 0.
Proof.
  unfold fat_next. cbv zeta. destruct (_ || _); [by intros [= _ <-]|]. destruct (negb _); [by intros [= _ <-]|].
  match goal with |- context [volume_bytes d v ?o ?n] => destruct (volume_bytes d v o n) as [d1 [e1|data]] eqn:Hd end; [intros [= <- <-]; by apply volume_bytes_error in Hd|].
  repeat case_match; intros; simplify_eq; done.
Qed.

(** A round of the loop: the bytes of the cluster from [at_] on, when it is not skipped. *)
Definition covers (B : Z -> Z) v (c0 offset : Z) (out : list Z) : Prop := forall i, 0 <= i < zlen out -> file_byte B v c0 (offset + i) = Some (out !!! Z.to_nat i).
Lemma cluster_size_pos d v : volume_on d v -> 0 < cluster_size v /\ cluster_bytes v = cluster_size v.
Proof. intros V. split; [|by apply (cluster_bytes_eq d)]. destruct V as (_ & ? & _ & _ & ? & _). unfold cluster_size. nia. Qed.
Lemma covers_app B v c0 offset out c k at_ n : 0 < cluster_size v -> nth_cluster B v c0 k = Some c -> is_cluster v c = true ->
  Z.of_nat k * cluster_size v + at_ = offset + zlen out -> 0 <= at_ -> 0 <= n -> at_ + n <= cluster_size v -> covers B v c0 offset out ->
  covers B v c0 offset (out ++ bytes_from B (cluster_byte v c + at_) n).
Proof.
  intros Hcs Hk Hc Hpos Ha Hn Hin Hout i Hi. unfold zlen in *. rewrite length_app, bytes_from_length in Hi.
  destruct (Z.lt_ge_cases i (Z.of_nat (length out))) as [Hl|Hg].
  - rewrite Hout by (unfold zlen; lia). f_equal. symmetry. apply lookup_total_app_l. lia.
  - rewrite lookup_total_app_r by lia. unfold file_byte.
    replace (offset + i) with ((at_ + (i - Z.of_nat (length out))) + Z.of_nat k * cluster_size v) by lia.
    rewrite Z.div_add, Z.mod_add, Z.div_small, Z.mod_small by lia. rewrite Z.add_0_l, Nat2Z.id, Hk, Hc. f_equal.
    symmetry. apply list_lookup_total_correct. rewrite bytes_from_lookup by lia. f_equal. f_equal. lia.
Qed.
Lemma read_step_spec d v c skip bytes at_ out d' r : volume_on d v -> volume_ok v -> is_cluster v c = true -> 0 <= bytes -> 0 <= at_ < cluster_size v ->
  read_step d v c skip bytes at_ out = (d', r) ->
  same_geometry d d' /\ disk_byte d' = disk_byte d /\ (forall e, r = inl e -> e <> 0) /\
  (forall x, r = inr x -> let n := Z.min bytes (cluster_size v - at_) in
     x = if skip =? 0 then (out ++ bytes_from (bytes_of d v) (cluster_byte v c + at_) n, 0, bytes - n, 0) else (out, skip - 1, bytes, at_)).
Proof.
  intros V K Hc Hb Ha. destruct (cluster_size_pos d v V) as [Hcs Hcb]. unfold read_step. destruct (skip =? 0); [|intros [= <- <-]; split_and!; try done; by intros x [= <-]].
  cbv zeta. rewrite Hcb. unfold is_cluster in Hc. pose proof V as (_ & Hsec & Hst & Hlen & Hspc & H64). pose proof (ok_data v K) as [D1 D2]. pose proof (ok_tables v K) as T.
  reflect_bools. unfold cluster_size in *.
  assert ((v_data_start v + (c - 2) * v_spc v + v_spc v) * v_sector v <= v_length v * v_sector v) as Hin by nia.
  assert (0 <= (v_data_start v + (c - 2) * v_spc v) * v_sector v) as Hnn by nia.
  assert (v_length v * v_sector v < 2 ^ 64) as Hl64 by nia.
  unfold u64. rewrite Z.mod_small by nia. destruct (volume_bytes d v _ _) as [d1 [e|data]] eqn:Hd; pose proof Hd as He.
  - apply volume_bytes_error in He. apply volume_bytes_spec in Hd as (G & B & _); [|done|nia|lia]. intros [= <- <-]. split_and!; try done. by intros e1 [= <-].
  - apply volume_bytes_spec in Hd as (G & B & R); [|done|nia|lia]. intros [= <- <-]. split_and!; try done. intros x [= <-].
    destruct (R data eq_refl) as [_ ->]. unfold bytes_of, cluster_byte. do 5 f_equal. lia.
Qed.
Lemma read_loop_chain v c0 offset total B fuel : forall d c t steps skip bytes at_ out k d' data,
  volume_on d v -> volume_ok v -> bytes_of d v = B -> nth_cluster B v c0 k = Some c -> 0 <= at_ < cluster_size v -> 0 <= skip -> 0 <= bytes ->
  (Z.of_nat k + skip) * cluster_size v + at_ = offset + zlen out -> zlen out + bytes = total -> covers B v c0 offset out ->
  read_loop fuel d v c t steps skip bytes at_ out = Some (d', 0, data) ->
  same_geometry d d' /\ disk_byte d' = disk_byte d /\ zlen data = total /\ covers B v c0 offset data.
Proof.
  induction fuel as [|fuel IH]; intros d c t steps skip bytes at_ out k d' data V K HB Hk Ha Hs Hb Hpos Htot Hout; cbn [read_loop];
    (destruct ((skip =? 0) && (bytes =? 0)) eqn:E0; [intros [= <- <-]; reflect_bools; split_and!; (done || lia)|]); [done|].
  destruct (_ || _) eqn:Ec; [done|]. reflect_bools. destruct (cluster_size_pos d v V) as [Hcs _].
  assert (is_cluster v c = true) as Hc by (unfold is_cluster; apply andb_true_intro; rewrite Z.leb_le, Z.ltb_lt; lia).
  destruct (read_step _ _ _ _ _ _ _) as [d1 [e|x]] eqn:Hstep; (apply read_step_spec in Hstep as (G1 & B1 & He & Hx); [|done..]).
  { intros [= _ -> _]. by specialize (He 0 eq_refl). }
  specialize (Hx x eq_refl). cbv zeta in Hx. set (n := Z.min bytes (cluster_size v - at_)) in *. assert (0 <= n <= bytes) as Hn0 by (unfold n; lia).
  assert (volume_on d1 v) as V1 by (by apply (volume_on_same d)). assert (bytes_of d1 v = B) as HB1 by (unfold bytes_of in *; congruence).
  assert (covers B v c0 offset (out ++ bytes_from B (cluster_byte v c + at_) n) \/ skip <> 0) as Hcov.
  { destruct (Z.eq_dec skip 0) as [->|]; [left|by right]. apply (covers_app B v c0 offset out c k at_ n); (done || lia). }
  destruct x as [[[out1 skip1] bytes1] at1].
  assert ((skip =? 0) && (bytes1 =? 0) = false \/ out1 = out ++ bytes_from B (cluster_byte v c + at_) n /\ bytes1 = 0 /\ n = bytes /\ skip = 0) as Hend.
  { destruct (Z.eqb_spec skip 0) as [->|]; [|by left]. injection Hx as -> -> -> ->. destruct (Z.eqb_spec (bytes - n) 0); [right|by left]. split_and!; try lia. by rewrite HB. }
  destruct Hend as [Hend | (-> & -> & Hn & ->)]; [rewrite Hend|].
  2: { cbn [Z.eqb andb]. intros [= <- <-]. split_and!; try done; [|by destruct Hcov]. unfold zlen in *. rewrite length_app, bytes_from_length. lia. }
  destruct (fat_next d1 v c) as [d2 [e|next]] eqn:Hnext; [intros [= _ -> _]; by apply fat_next_error in Hnext|].
  apply fat_next_link in Hnext as (G2 & B2 & Hl); [|done..]. destruct (Hl next eq_refl) as [_ Hlink]. rewrite HB1 in Hlink.
  destruct (Z.eqb_spec next CHAIN_END); [done|]. destruct Hlink as [[? _]|Hlink]; [done|]. cbv zeta.
  assert (volume_on d2 v) as V2 by (by apply (volume_on_same d1)). assert (bytes_of d2 v = B) as HB2 by (unfold bytes_of in *; congruence).
  assert (exists d3 r3, (if Z.land (steps + 1) 1 =? 0 then fat_next d2 v t else (d2, inr t)) = (d3, r3) /\ same_geometry d2 d3 /\ disk_byte d3 = disk_byte d2 /\
    (forall e, r3 = inl e -> e <> 0)) as (d3 & r3 & -> & G3 & B3 & He3).
  { destruct (Z.land (steps + 1) 1 =? 0); [|exists d2, (inr t); split; [done|]; split; [reflexivity|]; split; [done|]; by intros e]. destruct (fat_next d2 v t) as [d3 r3] eqn:Ht. exists d3, r3. split; [done|]. pose proof Ht as Ht2.
    apply fat_next_link in Ht as (G3 & B3 & _); [|done..]. split_and!; try done. intros e ->. by apply fat_next_error in Ht2. }
  destruct r3 as [e|t']; [intros [= _ -> _]; by specialize (He3 0 eq_refl)|]. destruct (next =? t'); [done|].
  assert (nth_cluster B v c0 (S k) = Some next) as Hk' by (cbn; by rewrite Hk).
  intros Hrec. apply (IH d3 next t' (steps + 1) skip1 bytes1 at1 out1 (S k)) in Hrec; try done.
  - destruct Hrec as (G & Bd & Q). split; [transitivity d1; [done|]; transitivity d2; [done|]; by transitivity d3|]. split; [congruence|done].
  - by apply (volume_on_same d2).
  - unfold bytes_of in *; congruence.
  - destruct (skip =? 0); injection Hx as -> -> -> ->; lia.
  - destruct (Z.eqb_spec skip 0); injection Hx as -> -> -> ->; lia.
  - destruct (Z.eqb_spec skip 0); injection Hx as -> -> -> ->; lia.
  - destruct (Z.eqb_spec skip 0) as [->|]; injection Hx as -> -> -> ->; [|lia]. unfold zlen in *. rewrite length_app, bytes_from_length.
    cbn [Z.eqb andb] in Hend. apply Z.eqb_neq in Hend.  assert (n = cluster_size v - at_) as Hfull by (unfold n in *; lia). clearbody n. lia.
  - destruct (Z.eqb_spec skip 0) as [->|]; injection Hx as -> -> -> ->; [|done]. unfold zlen in *. rewrite length_app, bytes_from_length. clearbody n. lia.
  - destruct (Z.eqb_spec skip 0) as [->|]; injection Hx as -> -> -> ->; [|done]. rewrite HB. by destruct Hcov.
Qed.
(** What [read_on] returns without an error. *)
Lemma read_on_chain d v f offset n d' data : volume_on d v -> volume_ok v -> 0 <= offset -> 0 <= n ->
  read_on d v f offset n = (d', 0, data) ->
  same_geometry d d' /\ disk_byte d' = disk_byte d /\ zlen data = Z.max 0 (Z.min n (f_size f - offset)) /\ covers (bytes_of d v) v (f_cluster f) offset data.
Proof.
  intros V K Ho Hn. unfold read_on. destruct (_ || _) eqn:E.
  - intros [= <- <-]. split; [reflexivity|]. split; [done|]. split; [|by intros i Hi; unfold zlen in Hi; cbn in Hi; lia]. unfold zlen. cbn [length]. reflect_bools. lia.
  - reflect_bools. cbv zeta. destruct (65536 <? _); [done|]. destruct (cluster_size_pos d v V) as [Hcs Hcb]. rewrite Hcb.
    destruct (read_loop _ _ _ _ _ _ _ _ _ _) as [[[d1 e] out]|] eqn:Hl; [|done]. cbn. intros [= <- -> <-].
    pose proof (Z.mod_pos_bound offset (cluster_size v) Hcs) as Hm. pose proof (Z.div_pos offset (cluster_size v) Ho Hcs) as Hd.
    pose proof (Z.div_mod offset (cluster_size v) ltac:(lia)) as Hdm.
    apply (read_loop_chain v (f_cluster f) offset (Z.min n (f_size f - offset)) (bytes_of d v) CHAIN_FUEL d (f_cluster f) (f_cluster f) 0 _ _ _ [] 0 d1 out) in Hl; try done; try lia.
    + destruct Hl as (G & B & Hlen & Hcov). split_and!; try done. lia.
    + unfold zlen. cbn [length]. lia.
    + intros i Hi. unfold zlen in Hi. cbn in Hi. lia.
Qed.

(** ** Reads that cannot fail *)

(** Every sector of the volume can be read, whatever was read before. *)
Definition readable d v : Prop := forall d1 lba n, same_geometry d d1 -> disk_byte d1 = disk_byte d ->
  v_start v <= lba -> 0 < n -> lba + n <= v_start v + v_length v -> exists d2 data, k_disk_read d1 (v_disk v) lba n = (d2, inr data).
Definition known d v : Prop := (v_disk v <? k_disk_count d) && ((v_start v + v_length v) * v_sector v <=? u64 (disk_sectors d (v_disk v) * disk_sector_size d (v_disk v))) = true.
Lemma readable_same d d1 v : same_geometry d d1 -> disk_byte d1 = disk_byte d -> readable d v -> readable d1 v.
Proof. intros G B R d2 lba n G2 B2. apply R; [by transitivity d1|congruence]. Qed.
Lemma known_same d d1 v : same_geometry d d1 -> known d v -> known d1 v.
Proof. intros G. unfold known. by rewrite (same_count _ _ G), (same_sectors _ _ G), (same_sector_size _ _ G). Qed.
Lemma readable_loop v fuel : forall d offset n, volume_on d v -> readable d v -> v_start v * v_sector v <= offset -> 0 <= n -> n <= Z.of_nat fuel ->
  offset + n <= (v_start v + v_length v) * v_sector v -> exists d' data, disk_bytes_loop fuel d (v_disk v) (v_sector v) offset n = Some (d', inr data).
Proof.
  induction fuel as [|fuel IH]; intros d offset n V R Ho Hn Hf He; cbn [disk_bytes_loop]; (destruct (Z.eqb_spec n 0); [by eexists _, _|]); [lia|].
  pose proof V as (_ & Hs & Hst & Hlen & _). destruct (chunk (v_sector v) offset n) as [[sectors at_] part] eqn:Ec. assert (0 <= offset) by nia.
  apply chunk_ok in Ec as (Hp & Hq & Ha & Hin & Hoff & Hwin); [|lia..]. specialize (Hwin _ He).
  destruct (R d (offset / v_sector v) sectors) as (d1 & data & Hr); [reflexivity|done|apply Z.div_le_lower_bound; lia|done|done|]. rewrite Hr.
  apply disk_read_law in Hr as (G & B & _).
  destruct (IH d1 (offset + part) (n - part)) as (d2 & rest & ->); try lia; [by apply (volume_on_same d)|by apply (readable_same d)|]. by eexists _, _.
Qed.
Lemma readable_bytes d v offset n : volume_on d v -> known d v -> readable d v -> 0 <= offset -> 0 <= n -> offset + n <= v_length v * v_sector v ->
  exists d' data, volume_bytes d v offset n = (d', inr data).
Proof.
  intros V Hk R Ho Hn He. pose proof V as (Hsz & Hs & Hst & Hlen & _ & H64). unfold volume_bytes, known, u64 in *. apply andb_prop in Hk as [Hk1 Hk2]. reflect_bools.
  rewrite (Z.mod_small (v_length v * v_sector v)) by nia. rewrite (Z.mod_small (v_start v * v_sector v)) by nia. rewrite Z.mod_small by nia.
  rewrite (proj2 (span_ok_spec _ _ _)) by lia. cbn [negb]. unfold disk_bytes, u64. cbv zeta.
  rewrite (proj2 (Z.leb_gt _ _)), !(proj2 (Z.ltb_ge _ _)) by nia. cbn [orb]. rewrite <- Hsz.
  destruct (readable_loop v (Z.to_nat n) d (v_start v * v_sector v + offset) n) as (d1 & data & ->); try done; try nia. by eexists _, _.
Qed.
Lemma entry_inside v c : volume_ok v -> is_cluster v c = true -> 0 < v_sector v ->
  let off := if v_fat_bits v =? 12 then c + c / 2 else c * (v_fat_bits v / 8) in
  0 <= off /\ off + (if v_fat_bits v =? 32 then 4 else 2) <= v_fat_sectors v * v_sector v.
Proof.
  intros K Hc Hs off. pose proof (ok_entries v K) as E. pose proof (ok_bits v K) as B. unfold is_cluster in Hc. reflect_bools. unfold entry_bytes_end in E.
  subst off. destruct B as [B | [B | B]]; rewrite B in *; cbn -[Z.mul Z.add Z.div] in *.
  - pose proof (Z.div_mod c 2 ltac:(lia)). pose proof (Z.mod_pos_bound c 2 ltac:(lia)).
    assert (c + c / 2 + 2 <= ((v_cluster_count v + 2) * 3 + 1) / 2) as Hle by (apply Z.div_le_lower_bound; lia). lia.
  - change (16 / 8) with 2 in *. lia.
  - change (32 / 8) with 4 in *. lia.
Qed.
Lemma fat_next_ok d v c n : volume_on d v -> volume_ok v -> known d v -> readable d v -> is_cluster v c = true -> link (bytes_of d v) v c = Some n ->
  exists d', fat_next d v c = (d', inr n).
Proof.
  intros V K Hk R Hc Hl. pose proof V as (_ & Hs & Hst & Hlen & _ & H64). destruct (entry_inside v c K Hc ltac:(lia)) as [E1 E2].
  pose proof (ok_tables v K) as (T1 & T2 & T3). pose proof (ok_data v K) as [D1 D2]. pose proof (ok_clusters v K) as C. pose proof (ok_spc v K) as Q.
  destruct (fat_next d v c) as [d' r] eqn:Hn. pose proof Hn as Hspec. apply fat_next_link in Hspec as (_ & _ & Hspec); [|done..].
  unfold fat_next in Hn. cbv zeta in Hn. unfold is_cluster in Hc. apply andb_prop in Hc as [C1 C2]. reflect_bools.
  rewrite (proj2 (Z.ltb_ge _ _)), (proj2 (Z.leb_gt _ _)) in Hn by lia. cbn [orb] in Hn.
  set (off := if v_fat_bits v =? 12 then _ else _) in *. set (w := if v_fat_bits v =? 32 then 4 else 2) in *.
  assert (0 <= w) as Hw by (unfold w; destruct (v_fat_bits v =? 32); lia).
  unfold u64 in Hn. rewrite (Z.mod_small (v_fat_sectors v * v_sector v)) in Hn by nia. rewrite (proj2 (span_ok_spec _ _ _)) in Hn by lia. cbn [negb] in Hn.
  rewrite (Z.mod_small (v_fat_start v * v_sector v)) in Hn by nia. rewrite Z.mod_small in Hn by nia.
  destruct (readable_bytes d v (v_fat_start v * v_sector v + off) w) as (d1 & data & Hd); try done; try nia. rewrite Hd in Hn.
  apply volume_bytes_spec in Hd as (_ & _ & Hdata); [|done|nia|done]. destruct (Hdata data eq_refl) as [_ ->].
  replace (v_start v * v_sector v + (v_fat_start v * v_sector v + off)) with ((v_start v + v_fat_start v) * v_sector v + off) in Hn by lia. fold (bytes_of d v) in Hn.
  match type of Hn with (if ?e <=? ?x then _ else _) = _ => change x with (link_raw (bytes_of d v) v c) in Hn; change e with (chain_end v) in Hn end.
  unfold link in Hl. destruct (_ <=? _); [done|]. cbn [orb] in Hl. unfold is_cluster in Hl. destruct (negb _) eqn:E3 in Hl; [done|]. destruct (_ =? chain_end v - 1); [done|].
  reflect_bools. rewrite (proj2 (Z.ltb_ge _ _)), (proj2 (Z.leb_gt _ _)) in Hn by lia. injection Hl as <-. injection Hn as <- <-. by eexists.
Qed.

(** The first [m + 1] clusters of a chain, all different. *)
Definition simple_chain (B : Z -> Z) v (c0 : Z) (m : nat) : Prop :=
  (forall k, (k <= m)%nat -> exists c, nth_cluster B v c0 k = Some c /\ is_cluster v c = true) /\
  (forall i j c, (i <= m)%nat -> (j <= m)%nat -> nth_cluster B v c0 i = Some c -> nth_cluster B v c0 j = Some c -> i = j).
Lemma simple_chain_bound B v c0 m : simple_chain B v c0 m -> Z.of_nat m < v_cluster_count v.
Proof.
  intros [Hex Hinj]. set (f := fun k => default 0 (nth_cluster B v c0 k)).
  assert (NoDup (f <$> seq 0 (S m))) as Hnd.
  { apply NoDup_alt. intros i j x Hi Hj. rewrite list_lookup_fmap in Hi, Hj. apply fmap_Some in Hi as (a & Ha & ->). apply fmap_Some in Hj as (b & Hb & E).
    apply lookup_seq in Ha as [-> Ha]. apply lookup_seq in Hb as [-> Hb]. cbn in E. destruct (Hex i ltac:(lia)) as (ci & Ei & _). destruct (Hex j ltac:(lia)) as (cj & Ej & _).
    unfold f in E. rewrite Ei, Ej in E. cbn in E. subst cj. apply (Hinj i j ci); (done || lia). }
  assert (f <$> seq 0 (S m) ⊆ seqZ 2 (v_cluster_count v)) as Hsub.
  { intros x Hx. apply list_elem_of_fmap in Hx as (k & -> & Hk). apply elem_of_seq in Hk. destruct (Hex k ltac:(lia)) as (c & Ec & Hc).
    unfold f. rewrite Ec. apply elem_of_seqZ. unfold is_cluster in Hc. cbn. reflect_bools. lia. }
  apply NoDup_submseteq in Hsub; [|done]. apply submseteq_length in Hsub. rewrite length_fmap, length_seq, length_seqZ in Hsub. lia.
Qed.
Lemma read_step_ok d v c skip bytes at_ out : volume_on d v -> volume_ok v -> known d v -> readable d v -> is_cluster v c = true -> 0 <= bytes -> 0 <= at_ < cluster_size v ->
  exists d' x, read_step d v c skip bytes at_ out = (d', inr x).
Proof.
  intros V K Hk R Hc Hb Ha. destruct (cluster_size_pos d v V) as [Hcs Hcb]. unfold read_step. destruct (skip =? 0); [|by eexists _, _].
  cbv zeta. rewrite Hcb. unfold is_cluster in Hc. pose proof V as (_ & Hsec & Hst & Hlen & Hspc & H64). pose proof (ok_data v K) as [D1 D2]. pose proof (ok_tables v K) as T.
  reflect_bools. unfold cluster_size in *.
  assert ((v_data_start v + (c - 2) * v_spc v + v_spc v) * v_sector v <= v_length v * v_sector v) as Hin by nia.
  assert (0 <= (v_data_start v + (c - 2) * v_spc v) * v_sector v) as Hnn by nia. assert (v_length v * v_sector v < 2 ^ 64) as Hl64 by nia.
  unfold u64. rewrite Z.mod_small by nia. edestruct (readable_bytes d v) as (d1 & data & ->); [done|done|done| | | |by eexists _, _]; nia.
Qed.
Lemma even_step k : (Z.land (Z.of_nat k + 1) 1 =? 0) = Nat.even (k + 1).
Proof.
  assert (Z.land (Z.of_nat k + 1) 1 = (Z.of_nat k + 1) mod 2) as -> by (apply (Z.land_ones (Z.of_nat k + 1) 1); lia).
  destruct (Nat.Even_or_Odd (k + 1)) as [[j Hj]|[j Hj]].
  - assert (Nat.even (k + 1) = true) as -> by (apply Nat.even_spec; by exists j). apply Z.eqb_eq. replace (Z.of_nat k + 1) with (Z.of_nat j * 2) by lia. by apply Z.mod_mul.
  - assert (Nat.even (k + 1) = false) as -> by (rewrite <- Nat.negb_odd; apply negb_false_iff, Nat.odd_spec; by exists j).
    apply Z.eqb_neq. replace (Z.of_nat k + 1) with (1 + Z.of_nat j * 2) by lia. rewrite Z.mod_add by lia. done.
Qed.
Lemma read_loop_succeeds v c0 B m fuel : simple_chain B v c0 m -> Z.of_nat m <= 65536 -> forall d c t skip bytes at_ out k,
  volume_on d v -> volume_ok v -> known d v -> readable d v -> bytes_of d v = B -> (k <= m)%nat -> nth_cluster B v c0 k = Some c -> nth_cluster B v c0 (k / 2) = Some t ->
  0 <= at_ < cluster_size v -> 0 <= skip -> 0 <= bytes -> (m - k < fuel)%nat ->
  (skip = 0 /\ bytes = 0 \/ 0 < bytes /\ (Z.of_nat k + skip) * cluster_size v + at_ + bytes <= (Z.of_nat m + 1) * cluster_size v) ->
  exists d' data, read_loop fuel d v c t (Z.of_nat k) skip bytes at_ out = Some (d', 0, data).
Proof.
  intros Hch Hm. pose proof (simple_chain_bound _ _ _ _ Hch) as Hcount. destruct Hch as [Hex Hinj].
  induction fuel as [|fuel IH]; intros d c t skip bytes at_ out k V K Hkn R HB Hkm Hk Ht Ha Hs Hb Hf Hneed; [lia|]. cbn [read_loop].
  destruct ((skip =? 0) && (bytes =? 0)) eqn:E0; [by eexists _, _|]. reflect_bools.
  assert (0 < bytes /\ (Z.of_nat k + skip) * cluster_size v + at_ + bytes <= (Z.of_nat m + 1) * cluster_size v) as [Hb0 Hlast] by (destruct Hneed as [[-> ->]|]; [cbn in E0; destruct E0; done|done]).
  clear Hneed E0. destruct (cluster_size_pos d v V) as [Hcs _]. destruct (Hex k Hkm) as (c1 & Hk1 & Hc). rewrite Hk in Hk1. injection Hk1 as <-.
  pose proof Hc as Hc'. unfold is_cluster in Hc'. apply andb_prop in Hc' as [C1 C2]. reflect_bools.
  rewrite (proj2 (Z.ltb_ge c 2)), (proj2 (Z.leb_gt (v_cluster_count v) (c - 2))), (proj2 (Z.leb_gt (v_cluster_count v) (Z.of_nat k))), (proj2 (Z.ltb_ge 65536 (Z.of_nat k))) by lia. cbn [orb].
  destruct (read_step_ok d v c skip bytes at_ out V K Hkn R Hc Hb Ha) as (d1 & x & Hstep). rewrite Hstep.
  apply read_step_spec in Hstep as (G1 & B1 & _ & Hx); [|done..]. specialize (Hx x eq_refl). cbv zeta in Hx. set (n := Z.min bytes (cluster_size v - at_)) in *.
  destruct x as [[[out1 skip1] bytes1] at1].
  assert (skip1 = 0 /\ bytes1 = 0 /\ skip = 0 \/ (skip =? 0) && (bytes1 =? 0) = false /\ 0 < bytes1 /\ 0 <= skip1 /\ 0 <= at1 < cluster_size v /\
    (Z.of_nat (S k) + skip1) * cluster_size v + at1 + bytes1 <= (Z.of_nat m + 1) * cluster_size v) as Hnext.
  { destruct (Z.eqb_spec skip 0) as [->|Hne]; injection Hx as -> -> -> ->.
    - destruct (Z.eqb_spec (bytes - n) 0); [left; lia|right]. cbn [andb]. split_and!; try done; unfold n in *; nia.
    - right. cbn [andb]. split_and!; try done; nia. }
  destruct Hnext as [(-> & -> & ->)|(-> & Hb1 & Hs1 & Ha1 & Hlast1)]; [by eexists _, _|].
  assert (S k <= m)%nat as Hkm1 by nia. destruct (Hex (S k) Hkm1) as (next & Hk1 & Hc1). pose proof Hk1 as Hlink. cbn in Hlink. rewrite Hk in Hlink.
  assert (volume_on d1 v) as V1 by (by apply (volume_on_same d)). assert (bytes_of d1 v = B) as HB1 by (unfold bytes_of in *; congruence).
  destruct (fat_next_ok d1 v c next) as (d2 & Hn2); try done; [by apply (known_same d)|by apply (readable_same d)|by rewrite HB1|]. rewrite Hn2.
  assert (next <> CHAIN_END) as Hne. { unfold is_cluster in Hc1. pose proof (ok_clusters v K). reflect_bools. unfold CHAIN_END. lia. }
  rewrite (proj2 (Z.eqb_neq _ _) Hne). cbv zeta. apply fat_next_link in Hn2 as (G2 & B2 & _); [|done..].
  assert (same_geometry d d2) as G02 by (by transitivity d1). assert (disk_byte d2 = disk_byte d) as B02 by congruence.
  assert (exists d3 t', (if Z.land (Z.of_nat k + 1) 1 =? 0 then fat_next d2 v t else (d2, inr t)) = (d3, inr t') /\ same_geometry d2 d3 /\ disk_byte d3 = disk_byte d2 /\
    nth_cluster B v c0 (S k / 2) = Some t') as (d3 & t' & -> & G3 & B3 & Ht').
  { rewrite even_step. destruct (Nat.even (k + 1)) eqn:Ev.
    - apply Nat.even_spec in Ev as [j Hj]. assert (k / 2 = j - 1)%nat as Hj1 by (symmetry; apply (Nat.div_unique k 2 (j - 1) 1); lia).
      assert (S k / 2 = S (k / 2))%nat as Hj2 by (symmetry; apply (Nat.div_unique (S k) 2 _ 0); lia).
      destruct (Hex (S (k / 2))) as (t1 & Ht1 & _); [lia|]. pose proof Ht1 as Hl1. rewrite nth_cluster_S, Ht in Hl1. destruct (Hex (k / 2)%nat) as (t2 & Ht2 & Hct); [lia|].
      rewrite Ht in Ht2. injection Ht2 as <-.
      destruct (fat_next_ok d2 v t t1) as (d3 & Hn3); try done; [by apply (volume_on_same d)|by apply (known_same d)|by apply (readable_same d)|unfold bytes_of in *; by rewrite B02, HB|].
      exists d3, t1. apply fat_next_link in Hn3 as Hs3; [|by apply (volume_on_same d)|done]. destruct Hs3 as (G3 & B3 & _). rewrite Hj2. by split_and!.
    - exists d2, t. split; [done|]. split; [reflexivity|]. split; [done|]. replace (S k / 2)%nat with (k / 2)%nat; [done|].
      assert (Nat.odd (k + 1) = true) as Hodd by (rewrite <- Nat.negb_even, Ev; done). apply Nat.odd_spec in Hodd as [j Hj].
      rewrite <- (Nat.div_unique k 2 j 0), <- (Nat.div_unique (S k) 2 j 1) by lia. done. }
  destruct (Z.eqb_spec next t') as [->|Hne2].
  { exfalso. assert (S k = S k / 2)%nat as Hcon. { apply (Hinj _ _ t'); [done| |done|done]. apply Nat.Div0.div_le_upper_bound; lia. }
    pose proof (Nat.div_lt (S k) 2). lia. }
  replace (Z.of_nat k + 1) with (Z.of_nat (S k)) by lia.
  apply IH; try done; try lia; [by apply (volume_on_same d2); [done|by apply (volume_on_same d)]|by apply (known_same d); [by transitivity d2|]|
    by apply (readable_same d); [by transitivity d2|congruence|]|unfold bytes_of in *; congruence].
Qed.

(** ** The directory entry is read again first *)
Definition entry_at d v (offset : Z) : zmap := buffer (bytes_from (bytes_of d v) (v_start v * v_sector v + offset) 32).
Definition entry_cluster v (e : zmap) : Z := Z.lor (rd16 e 26) (if v_fat_bits v =? 32 then Z.shiftl (rd16 e 20) 16 else 0).
(** The first cluster and the size that an opened file has now. *)
Definition extent d v (f : k_file) : Z * Z :=
  if f_directory_offset f =? 0 then (f_cluster f, f_size f)
  else let e := entry_at d v (f_directory_offset f) in (entry_cluster v e, rd32 e 28).
Lemma refresh_on_spec d v f d' f' e : volume_on d v -> 0 <= f_directory_offset f -> refresh_on d v f = (d', f', e) ->
  same_geometry d d' /\ disk_byte d' = disk_byte d /\ f_object f' = f_object f /\ (e = 0 -> (f_cluster f', f_size f') = extent d v f).
Proof.
  intros V Hf. unfold refresh_on, extent. destruct (f_directory_offset f =? 0); [intros [= <- <- <-]; split_and!; done|].
  destruct (volume_bytes d v (f_directory_offset f) 32) as [d1 [e1|data]] eqn:Hd; pose proof Hd as He; (apply volume_bytes_spec in Hd as (G & B & R); [|done|done|lia]).
  { apply volume_bytes_error in He. by intros [= <- <- <-]. }
  destruct (R data eq_refl) as [_ Hdata]. cbv zeta. fold (bytes_of d v) in Hdata. subst data. fold (entry_at d v (f_directory_offset f)).
  destruct (_ || _); [by intros [= <- <- <-]|]. destruct (_ && _); intros [= <- <- <-]; split_and!; done.
Qed.
End Read.

(** C17: a read of a FAT file that succeeds returns the bytes of the clusters on the file's chain, from the offset up to the end of the
    file, and leaves the disk as it was; and it does succeed when the sectors of the volume can be read and the clusters it needs are
    all different clusters of the volume. *)
Theorem fat_read_correct {D} `{DiskContents D} d volumes count f offset n d1 f1 d' e data m :
  let v := volumes !!! f_object f in
  volume_on d v -> volume_ok v -> 0 <= offset -> 0 <= n -> 0 <= f_directory_offset f ->
  fat_refresh d volumes count f = (d1, f1, 0) -> fat_read d volumes count f offset n = (d', e, data) ->
  let '(first, size) := extent d v f in
  (e = 0 -> disk_byte d' = disk_byte d /\ zlen data = Z.max 0 (Z.min n (size - offset)) /\ covers (bytes_of d v) v first offset data) /\
  (known d v -> readable d v -> simple_chain (bytes_of d v) v first m -> Z.of_nat m <= 65536 ->
   Z.min (offset + n) size <= (Z.of_nat m + 1) * cluster_size v -> e = 0).
Proof.
  intros v V K Ho Hn Hf Href. unfold fat_read. rewrite Href. cbn [Z.eqb negb]. unfold fat_refresh in Href. destruct (_ || _); [by injection Href as _ _ ?|]. fold v in Href.
  apply refresh_on_spec in Href as (G & B & Hobj & Hex); [|done..]. rewrite <- (Hex eq_refl). clear Hex. rewrite Hobj. fold v.
  assert (volume_on d1 v) as V1 by (by apply (volume_on_same d)). assert (bytes_of d1 v = bytes_of d v) as HB by (unfold bytes_of; congruence).
  intros Hread. split.
  - intros ->. apply read_on_chain in Hread as (_ & B2 & Hlen & Hcov); [|done..]. rewrite HB in Hcov. split_and!; (done || congruence).
  - intros Hk R Hch Hm Hneed. unfold read_on in Hread. destruct (_ || _) eqn:E; [by injection Hread as _ <- _|]. reflect_bools. cbv zeta in Hread.
    destruct (cluster_size_pos d1 v V1) as [Hcs Hcb]. rewrite Hcb in Hread.
    pose proof (Z.mod_pos_bound offset (cluster_size v) Hcs) as Hmod. pose proof (Z.div_mod offset (cluster_size v) ltac:(lia)) as Hdm. pose proof (Z.div_pos offset (cluster_size v) Ho Hcs) as Hd.
    assert (offset / cluster_size v <= Z.of_nat m) as Hskip by (apply Z.lt_succ_r, Z.div_lt_upper_bound; [lia|nia]).
    rewrite (proj2 (Z.ltb_ge _ _)) in Hread by lia.
    destruct (read_loop_succeeds v (f_cluster f1) (bytes_of d v) m CHAIN_FUEL Hch Hm d1 (f_cluster f1) (f_cluster f1) (offset / cluster_size v)
      (Z.min n (f_size f1 - offset)) (offset mod cluster_size v) [] 0) as (d2 & out & Hl); try done; try lia.
    + by apply (known_same d).
    + by apply (readable_same d).
    + unfold CHAIN_FUEL. lia.
    + change (Z.of_nat 0) with 0 in Hl. rewrite Hl in Hread. cbn in Hread. by injection Hread as _ <- _.
Qed.

(** A volume of 20 sectors of 512 bytes: boot sector, one table, one root sector; a file of 600 bytes on the clusters 2 and 3. *)
Definition demo_boot : list Z :=
  [0xeb; 0; 0] ++ replicate 8 0 ++ [0; 2; 1; 1; 0; 1; 16; 0; 20; 0; 0xf8; 1; 0] ++ replicate 486 0 ++ [0x55; 0xaa].
Definition demo_table : list Z := [0xf8; 0xff; 0xff; 0x03; 0xf0; 0xff] ++ replicate 506 0.
Definition demo_root : list Z :=
  [65; 32; 32; 32; 32; 32; 32; 32; 84; 88; 84; 0x20] ++ replicate 14 0 ++ [2; 0; 88; 2; 0; 0] ++ replicate 480 0.
Definition demo_sector (lba : Z) : Z + list Z :=
  inr (match lba with 0 => demo_boot | 1 => demo_table | 2 => demo_root | 3 => replicate 512 7 | 4 => replicate 512 9 | _ => replicate 512 0 end).
Lemma bytes_check l : forallb (fun b => (0 <=? b) && (b <? 256)) l = true -> Forall is_u8 l.
Proof.
  intros E. apply Forall_forall. intros x Hx. apply list_elem_of_In in Hx. apply (proj1 (List.forallb_forall _ _) E) in Hx. unfold is_u8. reflect_bools. lia.
Qed.
Lemma demo_sector_ok lba data : demo_sector lba = inr data -> Forall is_u8 data /\ length data = 512%nat.
Proof.
  unfold demo_sector. intros [= <-].
  destruct lba as [|p|p]; [|do 4 (destruct p as [p|p|]; [| |]; try (split; [apply bytes_check; vm_compute; reflexivity|vm_compute; reflexivity]))|];
    (split; [apply bytes_check; vm_compute; reflexivity|vm_compute; reflexivity]).
Qed.
#[local] Instance demo_disks : Disks unit := one_disk 20 demo_sector.
#[local] Instance demo_contents : DiskContents unit := one_disk_contents 20 demo_sector demo_sector_ok (fun lba e H => ltac:(discriminate H)).
Definition demo_volume : fat_volume := default volume0 (fat_bpb 0 0 20 512 [] (buffer demo_boot)).
Definition demo_file : k_file := mk_file 2 0 2 0x20 600 1024.
Lemma demo_volume_ok : volume_ok demo_volume.
Proof.
  apply (fat_bpb_geometry 0 0 20 512 [] (buffer demo_boot) demo_volume); [lia|apply buffer_bytes, bytes_check; vm_compute; reflexivity|vm_compute; reflexivity].
Qed.
Lemma demo_volume_on : volume_on tt demo_volume.
Proof. unfold volume_on. vm_compute. intuition congruence. Qed.
Lemma demo_read n : forall lba, exists data, read_sectors demo_sector lba n = inr data.
Proof. induction n as [|n IH]; intros lba; cbn [read_sectors]; [by eexists|]. destruct (IH (lba + 1)) as [data ->]. unfold demo_sector. by eexists. Qed.
Lemma demo_readable : readable tt demo_volume.
Proof. intros d1 lba n _ _ Hl Hn He. destruct (demo_read (Z.to_nat n) lba) as [data E]. exists d1, data. cbn. by rewrite E. Qed.
Lemma demo_chain : simple_chain (bytes_of tt demo_volume) demo_volume 2 1.
Proof.
  assert (nth_cluster (bytes_of tt demo_volume) demo_volume 2 0 = Some 2) as E0 by reflexivity.
  assert (nth_cluster (bytes_of tt demo_volume) demo_volume 2 1 = Some 3) as E1 by (vm_compute; reflexivity).
  split.
  - intros [|[|k]] Hk; [exists 2|exists 3|lia]; (split; [assumption|vm_compute; reflexivity]).
  - intros [|[|i]] [|[|j]] c Hi Hj Ei Ej; try lia; exfalso; rewrite E0 in *; rewrite E1 in *; congruence.
Qed.
Definition demo_volumes : table fat_volume := {[ 0 := demo_volume ]}.
Lemma fat_read_correct_witness :
  let '(d, e, data) := fat_read tt demo_volumes 1 demo_file 510 4 in
  e = 0 /\ data = [7; 7; 9; 9] /\ covers (bytes_of tt demo_volume) demo_volume 2 510 data.
Proof.
  assert (exists d1 f1, fat_refresh tt demo_volumes 1 demo_file = (d1, f1, 0)) as (d1 & f1 & E) by (eexists _, _; vm_compute; reflexivity).
  destruct (fat_read tt demo_volumes 1 demo_file 510 4) as [[d' e] data] eqn:Er.
  assert (demo_volumes !!! f_object demo_file = demo_volume) as Ev by (unfold demo_volumes; cbn [f_object demo_file]; rewrite lookup_total_alt; by rewrite lookup_singleton_eq).
  assert (extent tt demo_volume demo_file = (2, 600)) as Ex by (vm_compute; reflexivity).
  pose proof (fat_read_correct tt demo_volumes 1 demo_file 510 4 d1 f1 d' e data 1%nat) as HP. cbv zeta in HP. rewrite Ev, Ex in HP.
  specialize (HP demo_volume_on demo_volume_ok ltac:(lia) ltac:(lia) ltac:(cbn; lia) E Er). cbv beta iota in HP. destruct HP as [HP1 HP2].
  assert (e = 0) as He. { apply HP2; [vm_compute; reflexivity|exact demo_readable|exact demo_chain|lia|vm_compute; congruence]. }
  destruct (HP1 He) as (_ & _ & Hcov). split; [exact He|]. split; [|exact Hcov].
  assert (snd (fat_read tt demo_volumes 1 demo_file 510 4) = [7; 7; 9; 9]) as Ed by (vm_compute; reflexivity).
  rewrite Er in Ed. exact Ed.
Defined.
