(* ===== verification/FatWrite.v ===== *)
(** FAT volumes, the writing half of [src/kernel-src/fs/fs.c] (lines
    826-1430): the cached table, the audit before the first write, allocation,
    replacement of a file's contents and creation of entries.  A computation
    threads the disks, the physical pages and the volume, and ends in an error
    code or a value; [attempt] turns an error into a value, as the source does
    where it stores one in [e] and goes on. *)
From S2P Require Import Prelude Klib Pmm PageAlloc Path Disk State Fat.

Definition FAT_WRITE_MAX : Z := 4 * 1024 * 1024.
Definition FAT_CACHE_MAX : Z := 64 * 1024 * 1024.
Definition FAT_DIR_LIMIT : Z := 4096.

Section FatWrite.
Context {St D : Type} `{PageSource St} `{Disks D}.

(** * Computations *)
Record fx := mk_fx { x_d : D; x_ps : St; x_ram : zmap; x_v : fat_volume }.
#[export] Instance fx_updatable : Updatable fx := fun r => mk_fx (x_d r) (x_ps r) (x_ram r) (x_v r).
Definition M (A : Type) : Type := fx -> fx * (Z + A).
Definition ret {A} (a : A) : M A := fun s => (s, inr a).
Definition raise {A} (e : Z) : M A := fun s => (s, inl e).
Definition bind {A B} (m : M A) (k : A -> M B) : M B := fun s =>
  match m s with (s, inl e) => (s, inl e) | (s, inr a) => k a s end.
Definition attempt {A} (m : M A) : M (Z + A) := fun s => let '(s, r) := m s in (s, inr r).
(** The volume, read and changed. *)
Definition get_v : M fat_volume := fun s => (s, inr (x_v s)).
Definition get_d : M D := fun s => (s, inr (x_d s)).
Definition on_v (f : fat_volume -> fat_volume) : M unit := fun s => (s <| x_v ::= f |>, inr tt).
(** An operation that only reads the disk; a call that returns an error code. *)
Definition reading {A} (f : D -> fat_volume -> D * (Z + A)) : M A := fun s =>
  let '(d, r) := f (x_d s) (x_v s) in (s <| x_d := d |>, r).
Definition check (e : Z) : M unit := if e =? 0 then ret tt else raise e.
Definition guard (b : bool) (e : Z) : M unit := if b then raise e else ret tt.
(** [for (i = lo; i < hi; ++i)], left early by an error. *)
Fixpoint m_loop (n : nat) (i : Z) (body : Z -> M unit) : M unit :=
  match n with
  | O => ret tt
  | S n => bind (body i) (fun _ => m_loop n (i + 1) body)
  end.
Definition m_for (lo hi : Z) (body : Z -> M unit) : M unit := m_loop (Z.to_nat (hi - lo)) lo body.
End FatWrite.

Declare Scope fat_scope.
Delimit Scope fat_scope with fat.
Notation "x <- m ; k" := (bind m (fun x => k)) (at level 100, m at next level, k at level 200, right associativity) : fat_scope.
Notation "m ;; k" := (bind m (fun _ => k)) (at level 100, k at level 200, right associativity) : fat_scope.

Section Writing.
Context {St D : Type} `{PageSource St} `{Disks D}.
#[local] Abbreviation M := (@M St D).
#[local] Open Scope fat_scope.

(** * The cached table *)
Definition fat_cached (v : fat_volume) (c : Z) : Z :=
  if v_fat_bits v =? 16 then rd16 (v_cache v) (2 * c) else Z.land (rd32 (v_cache v) (4 * c)) 0x0fffffff.
Definition fat_eoc (v : fat_volume) : Z := if v_fat_bits v =? 16 then 0xffff else 0x0fffffff.
Definition fat_is_end (v : fat_volume) (n : Z) : bool := (if v_fat_bits v =? 16 then 0xfff8 else 0x0ffffff8) <=? n.
Definition fat_cache_set (c value : Z) (v : fat_volume) : fat_volume :=
  let off := c * (v_fat_bits v / 8) in
  let cache := if v_fat_bits v =? 16 then wr16 (v_cache v) off value
               else wr32 (v_cache v) off (Z.lor (Z.land (rd32 (v_cache v) off) 0xf0000000) (Z.land value 0x0fffffff)) in
  v <| v_cache := cache |> <| v_dirty ::= (fun b => bit_set b (off / v_sector v)) |>.

(** * Writing sectors *)
Definition volume_write (sector : Z) (data : list Z) : M unit := fun s =>
  let v := x_v s in
  let count := zlen data / v_sector v in
  if v_write_failed v || (v_length v <=? sector) || (count =? 0) || (v_length v - sector <? count) then (s, inl K_EROFS)
  else
    let '(d, e) := disk_write_fs (x_d s) (v_disk v) (u64 (v_start v + sector)) data in
    if negb (e =? 0) then (s <| x_d := d |> <| x_v := v <| v_write_failed := true |> |>, inl e) else (s <| x_d := d |>, inr tt).
Definition volume_flush : M unit := fun s =>
  let '(d, e) := disk_flush (x_d s) (v_disk (x_v s)) in
  if negb (e =? 0) then (s <| x_d := d |> <| x_v ::= (fun v => v <| v_write_failed := true |>) |>, inl e) else (s <| x_d := d |>, inr tt).
Definition fat_copies (v : fat_volume) : Z := if v_mirrored v then v_fat_count v else 1.
Definition fat_copy (v : fat_volume) (f : Z) : Z := if v_mirrored v then u64 (v_first_fat v + f * v_fat_sectors v) else v_fat_start v.
Definition flush_sector (s : Z) : M unit :=
  v <- get_v;
  if bit_get (v_dirty v) s then
    m_for 0 (fat_copies v) (fun f =>
      v <- get_v;
      volume_write (u64 (fat_copy v f + s)) (bytes_at (v_cache v) (s * v_sector v) (v_sector v)));;
    on_v (fun v => v <| v_dirty ::= (fun b => bit_clear b s) |>)
  else ret tt.
Definition fat_flush_cache : M unit :=
  v <- get_v;
  m_for 0 (v_fat_sectors v) flush_sector;;
  volume_flush.

(** * The audit before the first write *)

(** The clusters of a chain are marked in [used]; one that is already marked, or a file longer than its chain, is an error. *)
Fixpoint mark_loop (fuel : nat) (v : fat_volume) (c count : Z) (used : zmap) : option (zmap * (Z + Z)) :=
  match fuel with
  | O => None
  | S fuel =>
      if (c <? 2) || (v_cluster_count v <=? c - 2) || (65536 <? count + 1) || bit_get used c then Some (used, inl K_EIO)
      else
        let used := bit_set used c in
        let next := fat_cached v c in
        if fat_is_end v next then Some (used, inr (count + 1)) else mark_loop fuel v next (count + 1) used
  end.
Definition fat_mark_chain (v : fat_volume) (c size : Z) (used : zmap) : zmap * Z :=
  if c =? 0 then (used, if negb (size =? 0) then K_EIO else 0)
  else
    match default (used, inl K_EIO) (mark_loop CHAIN_FUEL v c 0 used) with
    | (used, inl e) => (used, e)
    | (used, inr count) => (used, if u64 (u64 (count * v_spc v) * v_sector v) <? size then K_EIO else 0)
    end.
Definition fat_audit_entry (v : fat_volume) (a : zmap * list Z) (entry : k_dirent) (c : Z) : zmap * list Z * Z :=
  let '(used, dirs) := a in
  let '(used, e) := fat_mark_chain v c (de_size entry) used in
  if negb (e =? 0) then (used, dirs, e)
  else if de_directory entry then
    if zlen dirs =? FAT_DIR_LIMIT then (used, dirs, K_E2BIG) else (used, dirs ++ [c], 0)
  else (used, dirs, 0).
(** The directories, in the order they are found. *)
Definition audit_step (v : fat_volume) (i : Z) (x : D * (zmap * list Z)) : flow (D * (zmap * list Z)) (D * (zmap * list Z) * Z) :=
  let '(d, (used, dirs)) := x in
  if zlen dirs <=? i then Exit (d, (used, dirs), 0)
  else
    let '(d, (a, e)) := fat_directory (fat_audit_entry v) d v (dirs !!! Z.to_nat i) (used, dirs) in
    if negb (e =? 0) then Exit (d, a, e) else Next (d, a).
Definition audit (d : D) (v : fat_volume) (used : zmap) : D * zmap * Z :=
  match for_range 0 FAT_DIR_LIMIT (audit_step v) (d, (used, [v_root_cluster v])) with
  | Next (d, (used, _)) => (d, used, 0)
  | Exit (d, (used, _), e) => (d, used, e)
  end.
(** Free clusters; one that is neither free, bad nor reached by a chain is an error. *)
Definition count_free (v : fat_volume) : Z * Z :=
  match for_range 2 (v_cluster_count v + 2) (fun c free =>
          let value := fat_cached v c in
          if value =? 0 then Next (u32 (free + 1))
          else if negb (bit_get (v_used v) c) && negb (value =? (if v_fat_bits v =? 16 then 0xfff7 else 0x0ffffff7)) then Exit (free, K_EIO)
          else Next free) 0 with
  | Next free => (free, 0)
  | Exit r => r
  end.
Definition mirror_sector (s : Z) : M unit :=
  v <- get_v;
  data <- reading (fun d v => volume_bytes d v (u64 ((v_first_fat v + v_fat_sectors v + s) * v_sector v)) (v_sector v));
  guard (negb (bool_decide (data = bytes_at (v_cache v) (s * v_sector v) (v_sector v)))) K_EIO.
Definition k_pages (n : Z) : M Z := fun s =>
  let '(ps, ram, p) := pa_alloc (x_ps s) (x_ram s) n 0 in (s <| x_ps := ps |> <| x_ram := ram |>, inr p).
Definition free_pages (p n : Z) : M unit := fun s =>
  if p =? 0 then (s, inr tt) else (s <| x_ps := pa_free (x_ps s) p n |>, inr tt).
Definition fat_drop_cache : M unit :=
  v <- get_v;
  free_pages (v_cache_at v) (v_cache_pages v);;
  free_pages (v_used_at v) (v_used_pages v);;
  free_pages (v_dirty_at v) (v_dirty_pages v);;
  on_v (fun v => v <| v_cache := ∅ |> <| v_used := ∅ |> <| v_dirty := ∅ |> <| v_cache_at := 0 |> <| v_used_at := 0 |>
                   <| v_dirty_at := 0 |> <| v_write_ready := false |>).
(** The checks between the allocation of the buffers and their release on an error. *)
Definition prepare_checks (dirs bytes : Z) : M unit :=
  v <- get_v;
  guard ((v_cache_at v =? 0) || (v_used_at v =? 0) || (v_dirty_at v =? 0) || (dirs =? 0)) K_ENOMEM;;
  data <- reading (fun d v => volume_bytes d v (u64 (v_fat_start v * v_sector v)) bytes);
  on_v (fun v => v <| v_cache := write_bytes 0 data (v_cache v) |>);;
  v <- get_v;
  guard (negb (fat_cached v 0 =? Z.lor (if v_fat_bits v =? 16 then 0xff00 else 0x0fffff00) (v_media v))) K_EIO;;
  let mask := if v_fat_bits v =? 16 then 0xc000 else 0x0c000000 in
  guard (negb (Z.land (fat_cached v 1) mask =? mask)) K_EROFS;;
  (if v_mirrored v && (1 <? v_fat_count v) then m_for 0 (v_fat_sectors v) mirror_sector else ret tt);;
  (if v_fat_bits v =? 32
   then let '(used, e) := fat_mark_chain v (v_root_cluster v) 0 (v_used v) in
        on_v (fun v => v <| v_used := used |>);; check e
   else ret tt);;
  v <- get_v;
  used <- reading (fun d v => let '(d, used, e) := audit d v (v_used v) in (d, inr (used, e)));
  on_v (fun v => v <| v_used := fst used |>);;
  check (snd used);;
  v <- get_v;
  on_v (fun v => v <| v_free_clusters := fst (count_free v) |>);;
  check (snd (count_free v));;
  on_v (fun v => v <| v_alloc_hint := 2 |> <| v_write_ready := true |>).
Definition fat_prepare_write : M unit :=
  v <- get_v;
  d <- get_d;
  if v_write_failed v || v_partition_ro v then raise K_EROFS
  else if v_write_ready v then ret tt
  else if (v_fat_bits v =? 16) && (0xffee <? v_cluster_count v) then raise K_ENOTSUP
  else if (v_fat_bits v =? 12) || (negb (disk_ram d (v_disk v)) && negb (disk_flush_command d (v_disk v))) then raise K_EROFS
  else
    let bytes := u64 (v_fat_sectors v * v_sector v) in
    if FAT_CACHE_MAX <? bytes then raise K_E2BIG
    else
      let cp := u32 ((bytes + 4095) / 4096) in
      let up := u32 (v_cluster_count v + 2 + 32767) / 32768 in
      let dp := u32 (u64 (v_fat_sectors v + 32767) / 32768) in
      cache <- k_pages cp;
      used <- k_pages up;
      dirty <- k_pages dp;
      on_v (fun v => v <| v_cache_pages := cp |> <| v_used_pages := up |> <| v_dirty_pages := dp |> <| v_cache_at := cache |> <| v_used_at := used |>
                       <| v_dirty_at := dirty |> <| v_cache := ∅ |> <| v_used := ∅ |> <| v_dirty := ∅ |>);;
      dirs <- k_pages (FAT_DIR_LIMIT / 1024);
      r <- attempt (prepare_checks dirs bytes);
      free_pages dirs (FAT_DIR_LIMIT / 1024);;
      match r with
      | inl e => fat_drop_cache;; raise e
      | inr _ => ret tt
      end.

(** * A write: the volume is marked dirty, changed, and marked clean again *)
Definition fat_clean_bit (v : fat_volume) : Z := if v_fat_bits v =? 16 then 0x8000 else 0x08000000.
Definition fsinfo_sector (offset : Z) : M unit :=
  v <- get_v;
  if v_first_fat v <=? offset then ret tt
  else
    data <- reading (fun d v => volume_bytes d v (u64 (offset * v_sector v)) (v_sector v));
    let sector := buffer data in
    if negb (rd32 sector 0 =? 0x41615252) || negb (rd32 sector 484 =? 0x61417272) || negb (rd32 sector 508 =? 0xaa550000) then ret tt
    else volume_write offset (bytes_at (wr32 (wr32 sector 488 0xffffffff) 492 0xffffffff) 0 (v_sector v)).
Definition fat_begin_write : M unit :=
  on_v (fun v => fat_cache_set 1 (Z.land (fat_cached v 1) (u32 (Z.lnot (fat_clean_bit v)))) v);;
  fat_flush_cache;;
  v <- get_v;
  (if (v_fat_bits v =? 32) && negb (v_fsinfo v =? 0) && (v_fsinfo v <? v_first_fat v) then
     fsinfo_sector (v_fsinfo v);;
     (if negb (v_backup_boot v =? 0) then fsinfo_sector (v_backup_boot v + v_fsinfo v) else ret tt)
   else ret tt);;
  volume_flush.
Definition fat_finish_write (e : Z) : M unit :=
  if negb (e =? 0) then on_v (fun v => v <| v_write_failed := true |>);; raise e
  else
    on_v (fun v => fat_cache_set 1 (Z.lor (fat_cached v 1) (fat_clean_bit v)) v);;
    r <- attempt fat_flush_cache;
    match r with
    | inl e => on_v (fun v => v <| v_write_failed := true |>);; raise e
    | inr _ => ret tt
    end.
(** The next free cluster from the hint on, and 0 when there is none. *)
Definition allocate_step (i : Z) (v : fat_volume) : flow fat_volume (fat_volume * Z) :=
  let c := v_alloc_hint v in
  let v := v <| v_alloc_hint := if u32 (c + 1) =? u32 (v_cluster_count v + 2) then 2 else u32 (c + 1) |> in
  if fat_cached v c =? 0 then
    Exit (fat_cache_set c (fat_eoc v) v <| v_used ::= (fun b => bit_set b c) |> <| v_free_clusters ::= (fun n => u32 (n - 1)) |>, c)
  else Next v.
Definition allocate (v : fat_volume) : fat_volume * Z :=
  match for_range 0 (v_cluster_count v) allocate_step v with Next v => (v, 0) | Exit r => r end.
Definition fat_allocate : M Z := fun s => let '(v, c) := allocate (x_v s) in (s <| x_v := v |>, inr c).
(** A cluster's sectors, padded with zeros. *)
Definition pad_sector (size : Z) (data : list Z) : list Z := take (Z.to_nat size) data ++ replicate (Z.to_nat (size - zlen data)) 0.
Definition fat_write_data (c : Z) (data : list Z) : M unit :=
  v <- get_v;
  m_for 0 (v_spc v) (fun s =>
    volume_write (u64 (v_data_start v + (c - 2) * v_spc v + s)) (pad_sector (v_sector v) (drop (Z.to_nat (s * v_sector v)) data))).
Definition fat_entry_write (off : Z) (data : list Z) : M unit :=
  v <- get_v;
  if negb (Z.land off 31 =? 0) || negb (span_ok off 32 (u64 (v_length v * v_sector v))) then raise K_EINVAL
  else
    let lba := off / v_sector v in
    let at_ := u32 (off mod v_sector v) in
    if (lba <? v_root_start v) || ((v_fat_bits v =? 32) && (lba <? v_data_start v)) then raise K_EPERM
    else
      sector <- reading (fun d v => volume_bytes d v (u64 (lba * v_sector v)) (v_sector v));
      volume_write lba (bytes_at (write_bytes at_ data (buffer sector)) 0 (v_sector v)).
Definition fat_set_first (d : zmap) (cluster size : Z) : zmap :=
  wr32 (zput (zput (zput (zput d 26 (u8 cluster)) 27 (u8 (Z.shiftr cluster 8))) 20 (u8 (Z.shiftr cluster 16))) 21 (u8 (Z.shiftr cluster 24))) 28 (u32 size).

(** * Replacing the contents of a file *)

(** New clusters, linked and written one after the other; the first one. *)
Fixpoint write_chain (n : nat) (per first last : Z) (data : list Z) : M Z :=
  match n with
  | O => ret first
  | S n =>
      c <- fat_allocate;
      if c =? 0 then raise K_ENOMEM
      else
        (if negb (last =? 0) then on_v (fat_cache_set last c) else ret tt);;
        fat_write_data c (take (Z.to_nat per) data);;
        write_chain n per (if negb (last =? 0) then first else c) c (drop (Z.to_nat per) data)
  end.
(** The clusters of the old chain are freed. *)
Fixpoint free_chain (fuel : nat) (old : Z) (v : fat_volume) : option fat_volume :=
  if old =? 0 then Some v
  else
    match fuel with
    | O => None
    | S fuel =>
        let next := fat_cached v old in
        let v := fat_cache_set old 0 v <| v_used ::= (fun b => bit_clear b old) |> <| v_free_clusters ::= (fun n => u32 (n + 1)) |> in
        if fat_is_end v next then Some v else free_chain fuel next v
    end.
(** The steps between the marks: new data, table, directory entry, old chain. *)
Definition replace_steps (f : k_file) (data entry : list Z) (count per : Z) : M (k_file * (Z + unit)) :=
  first <- write_chain (Z.to_nat count) per 0 0 data;
  volume_flush;;
  fat_flush_cache;;
  let e := fat_set_first (buffer entry) first (zlen data) in
  fat_entry_write (f_directory_offset f) (bytes_at (zput e 11 (Z.lor (zget e 11) 0x20)) 0 32);;
  volume_flush;;
  on_v (fun v => default v (free_chain CHAIN_FUEL (f_cluster f) v));;
  r <- attempt fat_flush_cache;
  ret (f <| f_cluster := first |> <| f_size := zlen data |>, r).
(** On the volume of the file, which is one; the file after it, and the error. *)
Definition replace_on (f : k_file) (data : list Z) : M (k_file * Z) :=
  r <- reading (fun d v => let '(d, f, e) := refresh_on d v f in (d, inr (f, e)));
  let f := fst r in
  if negb (snd r =? 0) then ret r
  else if (f_directory_offset f =? 0) || negb (Z.land (f_attributes f) 0x11 =? 0) then ret (f, K_EROFS)
  else
    r <- attempt fat_prepare_write;
    match r with
    | inl e => ret (f, e)
    | inr _ =>
        v <- get_v;
        let per := u64 (v_spc v * v_sector v) in
        let count := u32 ((zlen data + per - 1) / per) in
        if v_free_clusters v <? count then ret (f, K_ENOSPC)
        else
          r <- attempt (reading (fun d v => volume_bytes d v (f_directory_offset f) 32));
          match r with
          | inl e => ret (f, e)
          | inr entry =>
              b <- attempt fat_begin_write;
              r <- match b with inl e => ret (f, e) | inr _ =>
                     r <- attempt (replace_steps f data entry count per);
                     ret match r with inl e => (f, e) | inr (f, inl e) => (f, e) | inr (f, inr _) => (f, 0) end
                   end;
              e <- attempt (fat_finish_write (snd r));
              ret (fst r, if e is inl e then e else 0)
          end
    end.

(** * Free entries of a directory *)
Record slot_scan := mk_scan { sc_slots : list Z; sc_scanned : Z; sc_ended : bool }.
Definition slot_entry (v : fat_volume) (need cluster offset first_byte : Z) (st : slot_scan) : flow slot_scan (Z + (list Z * bool)) :=
  if (cluster =? 0) && (v_root_entries v <=? sc_scanned st) then Exit (inl K_E2BIG)
  else if 65536 <? sc_scanned st + 1 then Exit (inl K_E2BIG)
  else
    let ended := sc_ended st || (first_byte =? 0) in
    if ended || (first_byte =? 0xe5) then
      let slots := sc_slots st ++ [offset] in
      if need + (if ended then 1 else 0) <=? zlen slots then Exit (inr (slots, ended)) else Next (mk_scan slots (sc_scanned st + 1) ended)
    else Next (mk_scan [] (sc_scanned st + 1) ended).
Definition slot_sector (v : fat_volume) (need cluster s : Z) (x : D * slot_scan) : flow (D * slot_scan) (D * (Z + (list Z * bool))) :=
  let '(d, st) := x in
  let base := u64 ((cluster_first v cluster + s) * v_sector v) in
  match volume_bytes d v base (v_sector v) with
  | (d, inl e) => Exit (d, inl e)
  | (d, inr data) =>
      match for_range 0 ((v_sector v + 31) / 32) (fun i => slot_entry v need cluster (u64 (base + 32 * i)) (data !!! Z.to_nat (32 * i))) st with
      | Next st => Next (d, st)
      | Exit r => Exit (d, r)
      end
  end.
Definition slot_cluster (v : fat_volume) (need cluster : Z) (st : slot_scan) (d : D) : D * (Z + (slot_scan + (list Z * bool))) :=
  match for_range 0 (cluster_sectors v cluster) (slot_sector v need cluster) (d, st) with
  | Next (d, st) => (d, inr (inl st))
  | Exit (d, inl e) => (d, inl e)
  | Exit (d, inr r) => (d, inr (inr r))
  end.
(** A new cluster at the end of a directory is on the disk before it is linked. *)
Definition grow_directory (cluster : Z) : M Z :=
  next <- fat_allocate;
  if next =? 0 then raise K_ENOSPC
  else
    fat_write_data next [];;
    volume_flush;;
    fat_flush_cache;;
    on_v (fat_cache_set cluster next);;
    fat_flush_cache;;
    ret next.
Fixpoint slots_loop (n : nat) (need : Z) (grow : bool) (cluster : Z) (st : slot_scan) : M (list Z * bool) :=
  match n with
  | O => raise K_E2BIG
  | S n =>
      r <- reading (fun d v => slot_cluster v need cluster st d);
      match r with
      | inr found => ret found
      | inl st =>
          if cluster =? 0 then raise K_ENOSPC
          else
            v <- get_v;
            let next := fat_cached v cluster in
            next <- (if fat_is_end v next then if negb grow then raise K_EAGAIN else grow_directory cluster else ret next);
            if (next <? 2) || (v_cluster_count v <=? next - 2) then raise K_EIO else slots_loop n need grow next st
      end
  end.
(** The offsets of [need] free entries in a row, and whether they are past the end mark (then one more, for the new mark). *)
Definition fat_slots (dir need : Z) (grow : bool) : M (list Z * bool) := slots_loop (Z.to_nat 65536) need grow dir (mk_scan [] 0 false).

(** * Short names *)
Definition sfn_sector (v : fat_volume) (name : list Z) (cluster s : Z) (d : D) : flow D (D * (Z + bool)) :=
  match volume_bytes d v (u64 ((cluster_first v cluster + s) * v_sector v)) (v_sector v) with
  | (d, inl e) => Exit (d, inl e)
  | (d, inr data) =>
      match for_range 0 ((v_sector v + 31) / 32) (fun i (_ : unit) =>
              let e := take 32 (drop (Z.to_nat (32 * i)) data) in
              if (cluster =? 0) && (v_root_entries v <=? (s * v_sector v + 32 * i) / 32) then Exit false
              else if e !!! 0%nat =? 0 then Exit false
              else if negb (e !!! 0%nat =? 0xe5) && negb (e !!! 11%nat =? 0x0f) && bool_decide (take 11 e = name) then Exit true
              else Next tt) tt with
      | Next _ => Next d
      | Exit b => Exit (d, inr b)
      end
  end.
Fixpoint sfn_loop (n : nat) (d : D) (v : fat_volume) (name : list Z) (c : Z) : D * (Z + bool) :=
  match n with
  | O => (d, inl K_E2BIG)
  | S n =>
      match for_range 0 (cluster_sectors v c) (sfn_sector v name c) d with
      | Exit r => r
      | Next d =>
          if c =? 0 then (d, inr false)
          else
            let next := fat_cached v c in
            if fat_is_end v next then (d, inr false) else sfn_loop n d v name next
      end
  end.
Definition fat_sfn_exists (d : D) (v : fat_volume) (dir : Z) (name : list Z) : D * (Z + bool) := sfn_loop (Z.to_nat 65536) d v name dir.
Definition hex_digit (n : Z) : Z := if n <? 10 then 48 + n else 55 + n.
(** "K", seven digits and "FIL". *)
Definition serial_name (serial : Z) : list Z :=
  75 :: map (fun i => hex_digit (Z.land (Z.shiftr serial (i * 4)) 15)) [6; 5; 4; 3; 2; 1; 0] ++ [70; 73; 76].
Definition free_name (dir : Z) (v : fat_volume) (d : D) : D * (Z + list Z) :=
  match for_range 1 65536 (fun serial d =>
          match fat_sfn_exists d v dir (serial_name serial) with
          | (d, inl e) => Exit (d, inl e)
          | (d, inr true) => Next d
          | (d, inr false) => Exit (d, inr (serial_name serial))
          end) d with
  | Next d => (d, inl K_E2BIG)
  | Exit r => r
  end.

(** * Creating an entry *)
Fixpoint strip_slashes (p : cstr) (n : nat) : nat :=
  match n with
  | S (S _ as k) => if bool_decide (p !! k = Some SLASH) then strip_slashes p k else n
  | _ => n
  end.
Definition fat_forbidden (c : Z) : bool := (c <? 32) || (126 <? c) || existsb (Z.eqb c) [34; 42; 58; 60; 62; 63; 92; 124].
Definition fat_name_ok (name : cstr) : bool :=
  negb (bool_decide (name = [])) && negb (bool_decide (name = [DOT])) && negb (bool_decide (name = [DOT; DOT])) &&
  negb (existsb fat_forbidden name) && negb (is_space (default 0 (last name))) && negb (default 0 (last name) =? DOT).
(** The long-name entry [i] of [lfns], which holds the characters from 13 (lfns - 1 - i) on. *)
Definition lfn_bytes (name : cstr) (sum lfns i : Z) : zmap :=
  let seq := lfns - i in
  let d := memset ∅ 0 0xff 32 in
  let d := zput (zput (zput (zput d 0 (Z.lor seq (if i =? 0 then 0x40 else 0))) 11 0x0f) 12 0) 13 sum in
  let d := zput (zput d 27 0) 26 0 in
  fold_range 0 13 (fun j d =>
    let at_ := (seq - 1) * 13 + j in
    let ch := if at_ <? zlen name then name !!! Z.to_nat at_ else if at_ =? zlen name then 0 else 0xffff in
    wr16 d (LFN_OFFSETS !!! Z.to_nat j) ch) d.
Definition sfn_bytes (shortname : list Z) (directory : bool) (first : Z) : zmap :=
  let d := write_bytes 0 shortname ∅ in
  let d := zput (zput (zput (zput d 11 (if directory then 0x10 else 0x20)) 24 0x21) 18 0x21) 16 0x21 in
  fat_set_first d first 0.
Definition dot_bytes (name : list Z) (cluster : Z) : zmap := fat_set_first (zput (write_bytes 0 name ∅) 11 0x10) cluster 0.
Definition DOT_NAME : list Z := DOT :: replicate 10 32.
Definition DOTDOT_NAME : list Z := DOT :: DOT :: replicate 9 32.
Definition entry_bytes (d : zmap) : list Z := bytes_at d 0 32.
(** The cluster of a new directory, with its first two entries. *)
Definition new_directory (parent : Z) : M Z :=
  first <- fat_allocate;
  if first =? 0 then raise K_ENOMEM
  else
    fat_write_data first [];;
    v <- get_v;
    let off := u64 ((v_data_start v + (first - 2) * v_spc v) * v_sector v) in
    fat_entry_write off (entry_bytes (dot_bytes DOT_NAME first));;
    fat_entry_write (u64 (off + 32)) (entry_bytes (dot_bytes DOTDOT_NAME (if parent =? v_root_cluster v then 0 else parent)));;
    ret first.
(** The entries of a new file: deleted ones first, so that a partial long name never shows; the first cluster. *)
Definition create_steps (name : cstr) (directory : bool) (parent : Z) (shortname : list Z) (slots : list Z) (at_end : bool) : M Z :=
  let lfns := (zlen name + 12) / 13 in
  (if at_end then fat_entry_write (slots !!! Z.to_nat (lfns + 1)) (entry_bytes ∅);; volume_flush else ret tt);;
  m_for 0 (lfns + 1) (fun i => fat_entry_write (slots !!! Z.to_nat i) (entry_bytes (zput ∅ 0 0xe5)));;
  volume_flush;;
  first <- (if directory then new_directory parent else ret 0);
  volume_flush;;
  fat_flush_cache;;
  m_for 0 lfns (fun i => fat_entry_write (slots !!! Z.to_nat i) (entry_bytes (lfn_bytes name (sfn_checksum shortname) lfns i)));;
  volume_flush;;
  fat_entry_write (slots !!! Z.to_nat lfns) (entry_bytes (sfn_bytes shortname directory first));;
  volume_flush;;
  ret first.
Definition m_open (index : Z) (path : cstr) : M k_file := reading (fun d v => open_on d v index path).
(** The parent and the name of a path, slashes at its end dropped. *)
Definition parent_and_name (path : cstr) : cstr * cstr :=
  let whole := take (Z.to_nat (K_PATH_MAX - 1)) (if bool_decide (path = []) then [SLASH] else path) in
  let whole := take (strip_slashes whole (length whole)) whole in
  let split := after_slash whole (length whole) in
  (take (split - 1) whole, drop split whole).
Definition create_on (index : Z) (path parent name : cstr) (directory : bool) : M k_file :=
  p <- m_open index parent;
  guard (Z.land (f_attributes p) 0x10 =? 0) K_ENOENT;;
  existing <- attempt (m_open index path);
  (match existing with inr _ => raise K_EEXIST | inl e => if e =? K_ENOENT then ret tt else raise e end);;
  fat_prepare_write;;
  v <- get_v;
  guard (v_free_clusters v <? 4) K_ENOSPC;;
  shortname <- reading (fun d v => free_name (f_cluster p) v d);
  let needed := (zlen name + 12) / 13 + 1 in
  found <- attempt (fat_slots (f_cluster p) needed false);
  (match found with inl e => if e =? K_EAGAIN then ret tt else raise e | inr _ => ret tt end);;
  r <- attempt (
    fat_begin_write;;
    found <- (match found with inr x => ret x | inl _ => fat_slots (f_cluster p) needed true end);
    first <- create_steps name directory (f_cluster p) shortname (fst found) (snd found);
    ret (mk_file 2 index first (if directory then 0x10 else 0x20) 0 (fst found !!! Z.to_nat (needed - 1))));
  match r with
  | inl e => fat_finish_write e;; raise e
  | inr f => fat_finish_write 0;; ret f
  end.

(** * On the table of volumes *)
Record fat_fs := mk_fat_fs { ff_d : D; ff_ps : St; ff_ram : zmap; ff_volumes : table fat_volume; ff_count : Z }.
#[export] Instance fat_fs_updatable : Updatable fat_fs := fun r => mk_fat_fs (ff_d r) (ff_ps r) (ff_ram r) (ff_volumes r) (ff_count r).
Definition run_on {A} (s : fat_fs) (index : Z) (m : M A) : fat_fs * (Z + A) :=
  let '(x, r) := m (mk_fx (ff_d s) (ff_ps s) (ff_ram s) (ff_volumes s !!! index)) in
  (mk_fat_fs (x_d x) (x_ps x) (x_ram x) (<[index := x_v x]> (ff_volumes s)) (ff_count s), r).
Definition fat_create_locked (s : fat_fs) (index : Z) (path : cstr) (directory : bool) : fat_fs * (Z + k_file) :=
  let '(parent, name) := parent_and_name path in
  if negb (fat_name_ok name) then (s, inl K_EINVAL)
  else if ff_count s <=? index then (s, inl K_ENOENT)
  else run_on s index (create_on index path parent name directory).
Definition fat_replace_locked (s : fat_fs) (f : k_file) (data : list Z) : fat_fs * k_file * Z :=
  if FAT_WRITE_MAX <? zlen data then (s, f, K_E2BIG)
  else if negb (f_kind f =? 2) || (ff_count s <=? f_object f) then (s, f, K_EINVAL)
  else
    match run_on s (f_object f) (replace_on f data) with
    | (s, inl e) => (s, f, e)
    | (s, inr (f, e)) => (s, f, e)
    end.
Definition fat_store_locked (s : fat_fs) (index : Z) (path : cstr) (data : list Z) : fat_fs * Z :=
  let '(d, r) := fat_open (ff_d s) (ff_volumes s) (ff_count s) index path in
  let s := s <| ff_d := d |> in
  let '(s, r) := match r with inl e => if e =? K_ENOENT then fat_create_locked s index path false else (s, r) | inr _ => (s, r) end in
  match r with
  | inl e => (s, e)
  | inr f => let '(s, _, e) := fat_replace_locked s f data in (s, e)
  end.
End Writing.
