(* ===== verification/FatConfine.v ===== *)
(** FAT volumes never touch a sector outside their partition: a small program
    logic for the computations of [FatWrite], the proof that every one of them
    keeps what reads, writes and flushes of the volume keep, and its instance
    at the disks that record where they are used. *)
From S2P Require Import Prelude Klib Pmm PageAlloc Path Disk State Fat FatSpec FatRead FatWrite.

(** What a write does not change of a volume. *)
Definition shape (v : fat_volume) : fat_volume :=
  v <| v_write_ready := false |> <| v_write_failed := false |> <| v_cache := ∅ |> <| v_used := ∅ |> <| v_dirty := ∅ |> <| v_cache_at := 0 |> <| v_used_at := 0 |>
    <| v_dirty_at := 0 |> <| v_cache_pages := 0 |> <| v_used_pages := 0 |> <| v_dirty_pages := 0 |> <| v_free_clusters := 0 |> <| v_alloc_hint := 0 |>.

Section Logic.
Context {St D : Type} `{PageSource St} `{Disks D} (P : D -> Prop) (v0 : fat_volume).
Definition same_shape (v : fat_volume) : Prop := shape v = shape v0.
Hypothesis read_keeps : forall v d offset n, same_shape v -> 0 <= offset -> 0 <= n -> P d -> P (fst (volume_bytes d v offset n)).
Hypothesis write_keeps : forall v d sector data, same_shape v -> 0 <= sector < v_length v -> 0 < zlen data / v_sector v <= v_length v - sector -> P d ->
  P (fst (disk_write_fs d (v_disk v) (u64 (v_start v + sector)) data)).
Hypothesis flush_keeps : forall v d, same_shape v -> P d -> P (fst (disk_flush d (v_disk v))).
Hypothesis sector_pos : 0 <= v_sector v0.
Hypothesis info_nonneg : 0 <= v_fsinfo v0 /\ 0 <= v_backup_boot v0.

Definition inv (s : fx (St := St) (D := D)) : Prop := P (x_d s) /\ same_shape (x_v s).
Definition ok {A} (m : M A) (Q : A -> Prop) : Prop := forall s, inv s -> inv (fst (m s)) /\ (forall a, snd (m s) = inr a -> Q a).
Definition ok_ {A} (m : M A) : Prop := ok m (fun _ => True).

Lemma ok_ret {A} (a : A) (Q : A -> Prop) : Q a -> ok (ret a) Q.
Proof. intros Ha s Hs. split; [exact Hs|]. by intros b [= <-]. Qed.
Lemma ok_raise {A} e (Q : A -> Prop) : ok (raise e) Q.
Proof. intros s Hs. split; [exact Hs|done]. Qed.
Lemma ok_bind {A B} (m : M A) (k : A -> M B) Q R : ok m Q -> (forall a, Q a -> ok (k a) R) -> ok (bind m k) R.
Proof.
  intros Hm Hk s Hs. unfold bind. destruct (Hm s Hs) as [H1 H2]. destruct (m s) as [s1 [e|a]]; cbn [fst snd] in *; [split; [exact H1|done]|]. apply Hk; auto.
Qed.
Lemma ok_weaken {A} (m : M A) (Q R : A -> Prop) : ok m Q -> (forall a, Q a -> R a) -> ok m R.
Proof. intros Hm HQ s Hs. destruct (Hm s Hs) as [H1 H2]. split; auto. Qed.
Lemma ok_seq {A B} (m : M A) (k : M B) R : ok_ m -> ok k R -> ok (bind m (fun _ => k)) R.
Proof. intros Hm Hk. by eapply ok_bind. Qed.
Lemma ok_attempt {A} (m : M A) (Q : A -> Prop) : ok m Q -> ok (attempt m) (fun r => match r with inr a => Q a | inl _ => True end).
Proof.
  intros Hm s Hs. unfold attempt. destruct (Hm s Hs) as [H1 H2]. destruct (m s) as [s1 r]; cbn [fst snd] in *. split; [exact H1|]. intros a [= <-]. destruct r; auto.
Qed.
Lemma ok_get_v : ok get_v same_shape.
Proof. intros s Hs. split; [exact Hs|]. intros a [= <-]. apply Hs. Qed.
Lemma ok_get_d : ok_ get_d.
Proof. intros s Hs. split; [exact Hs|done]. Qed.
Lemma ok_on_v f : (forall v, shape (f v) = shape v) -> ok_ (on_v f).
Proof. intros Hf s [HP Hv]. split; [|done]. split; [exact HP|]. unfold same_shape in *. cbn. by rewrite Hf. Qed.
Lemma ok_reading {A} (f : D -> fat_volume -> D * (Z + A)) (Q : A -> Prop) :
  (forall d v, P d -> same_shape v -> P (fst (f d v)) /\ (forall a, snd (f d v) = inr a -> Q a)) -> ok (reading f) Q.
Proof.
  intros Hf s [HP Hv]. unfold reading. destruct (Hf (x_d s) (x_v s) HP Hv) as [H1 H2]. destruct (f (x_d s) (x_v s)) as [d r]. cbn [fst snd] in *. split; [split; [exact H1|exact Hv]|exact H2].
Qed.
Lemma ok_check e : ok_ (check e).
Proof. unfold check. destruct (e =? 0); [by apply ok_ret|apply ok_raise]. Qed.
Lemma ok_guard b e : ok_ (guard b e).
Proof. destruct b; [apply ok_raise|by apply ok_ret]. Qed.
Lemma ok_loop n body : (forall i, ok_ (body i)) -> forall i, ok_ (m_loop n i body).
Proof. intros Hb. induction n as [|n IH]; intros i; cbn [m_loop]; [by apply ok_ret|]. apply ok_seq; [apply Hb|apply IH]. Qed.
Lemma ok_for lo hi body : (forall i, ok_ (body i)) -> ok_ (m_for lo hi body).
Proof. intros Hb. by apply ok_loop. Qed.

(** * The operations *)
Lemma ok_volume_write sector data : 0 <= sector -> ok_ (volume_write sector data).
Proof.
  intros Hs s [HP Hv]. unfold volume_write. cbv zeta. destruct (_ || _) eqn:E; [by repeat split|]. reflect_bools.
  assert (0 < zlen data / v_sector (x_v s)) as Hpos.
  { assert (0 <= zlen data / v_sector (x_v s)); [|lia]. pose proof (zlen_nonneg data). assert (v_sector (x_v s) = v_sector v0) as -> by apply (f_equal v_sector Hv).
    destruct (Z.eq_dec (v_sector v0) 0) as [->|]; [by rewrite Z.div_0_r|]. apply Z.div_pos; lia. }
  pose proof (write_keeps (x_v s) (x_d s) sector data Hv ltac:(lia) ltac:(lia) HP) as HP1. destruct (disk_write_fs _ _ _ _) as [d e]. by destruct (negb _).
Qed.
Lemma ok_volume_write_u64 x data : ok_ (volume_write (u64 x) data).
Proof. apply ok_volume_write. by apply Z.mod_pos_bound. Qed.
Lemma ok_volume_flush : ok_ volume_flush.
Proof.
  intros s [HP Hv]. unfold volume_flush. pose proof (flush_keeps (x_v s) (x_d s) Hv HP) as HP1. destruct (disk_flush _ _) as [d e]. by destruct (negb _).
Qed.
Lemma ok_read x n : 0 <= n -> ok_ (reading (fun d v => volume_bytes d v (u64 (x v)) n)).
Proof. intros Hn. apply ok_reading. intros d v HP Hv. split; [|done]. apply read_keeps; try done. by apply Z.mod_pos_bound. Qed.
Lemma ok_read_at x (n : fat_volume -> Z) : (forall v, same_shape v -> 0 <= n v) -> ok_ (reading (fun d v => volume_bytes d v (u64 (x v)) (n v))).
Proof. intros Hn. apply ok_reading. intros d v HP Hv. split; [|done]. apply read_keeps; auto. by apply Z.mod_pos_bound. Qed.
Lemma sector_nonneg v : same_shape v -> 0 <= v_sector v.
Proof. intros Hv. by rewrite (f_equal v_sector Hv : v_sector v = v_sector v0). Qed.
Lemma ok_k_pages n : ok_ (k_pages n).
Proof. intros s [HP Hv]. unfold k_pages. by destruct (pa_alloc _ _ _ _) as [[ps ram] p]. Qed.
Lemma ok_free_pages p n : ok_ (free_pages p n).
Proof. intros s [HP Hv]. unfold free_pages. by destruct (p =? 0). Qed.
Lemma cache_set_shape c x v : shape (fat_cache_set c x v) = shape v.
Proof. done. Qed.
Lemma ok_flush_sector s : ok_ (flush_sector s).
Proof.
  unfold flush_sector. eapply ok_bind; [apply ok_get_v|]. intros v _. destruct (bit_get _ _); [|by apply ok_ret]. apply ok_seq; [|by apply ok_on_v].
  apply ok_for. intros f. eapply ok_bind; [apply ok_get_v|]. intros w _. apply ok_volume_write_u64.
Qed.
Lemma ok_flush_cache : ok_ fat_flush_cache.
Proof. unfold fat_flush_cache. eapply ok_bind; [apply ok_get_v|]. intros v _. apply ok_seq; [|apply ok_volume_flush]. apply ok_for. apply ok_flush_sector. Qed.

Lemma allocate_shape v : shape (fst (allocate v)) = shape v.
Proof.
  unfold allocate. pose proof (for_range_pres (fun x => shape x = shape v) (fun x : fat_volume * Z => shape (fst x) = shape v) allocate_step 0 (v_cluster_count v) v eq_refl) as Hl.
  lapply Hl; [clear Hl; intros Hl; by destruct (for_range _ _ _ _) as [w|[w c]]|]. intros i w Hw. unfold allocate_step. cbv zeta. by destruct (_ =? 0).
Qed.
Lemma ok_allocate : ok_ fat_allocate.
Proof.
  intros s [HP Hv]. unfold fat_allocate. pose proof (allocate_shape (x_v s)) as Ha. destruct (allocate (x_v s)) as [v c]. split; [|done]. split; [exact HP|].
  unfold same_shape in *. cbn in *. by rewrite Ha.
Qed.
Lemma ok_write_data c data : ok_ (fat_write_data c data).
Proof. unfold fat_write_data. eapply ok_bind; [apply ok_get_v|]. intros v _. apply ok_for. intros s. apply ok_volume_write_u64. Qed.
Lemma ok_entry_write off data : 0 <= off -> ok_ (fat_entry_write off data).
Proof.
  intros Ho. unfold fat_entry_write. eapply ok_bind; [apply ok_get_v|]. intros v Hv. destruct (_ || _); [apply ok_raise|]. cbv zeta. destruct (_ || _); [apply ok_raise|].
  eapply ok_bind; [apply (ok_read_at (fun w => off / v_sector v * v_sector w) v_sector), sector_nonneg|]. intros sector _. apply ok_volume_write.
  pose proof (sector_nonneg v Hv). destruct (Z.eq_dec (v_sector v) 0) as [->|]; [by rewrite Z.div_0_r|]. apply Z.div_pos; lia.
Qed.
Lemma ok_fsinfo_sector offset : 0 <= offset -> ok_ (fsinfo_sector offset).
Proof.
  intros Ho. unfold fsinfo_sector. eapply ok_bind; [apply ok_get_v|]. intros v Hv. destruct (_ <=? _); [by apply ok_ret|].
  eapply ok_bind; [apply (ok_read_at (fun w => offset * v_sector w) v_sector), sector_nonneg|]. intros data _. cbv zeta. destruct (_ || _); [by apply ok_ret|]. by apply ok_volume_write.
Qed.
Lemma ok_begin_write : ok_ fat_begin_write.
Proof.
  unfold fat_begin_write. apply ok_seq; [by apply ok_on_v|]. apply ok_seq; [apply ok_flush_cache|]. eapply ok_bind; [apply ok_get_v|]. intros v Hv.
  apply ok_seq; [|apply ok_volume_flush]. destruct (_ && _); [|by apply ok_ret].
  rewrite (f_equal v_fsinfo Hv : v_fsinfo v = v_fsinfo v0), (f_equal v_backup_boot Hv : v_backup_boot v = v_backup_boot v0).
  apply ok_seq; [apply ok_fsinfo_sector; lia|]. destruct (negb _); [apply ok_fsinfo_sector; lia|by apply ok_ret].
Qed.
Lemma ok_finish_write e : ok_ (fat_finish_write e).
Proof.
  unfold fat_finish_write. destruct (negb _); [apply ok_seq; [by apply ok_on_v|apply ok_raise]|]. apply ok_seq; [by apply ok_on_v|].
  eapply ok_bind; [apply ok_attempt, ok_flush_cache|]. intros [e1|u] _; [apply ok_seq; [by apply ok_on_v|apply ok_raise]|by apply ok_ret].
Qed.

(** The audit only reads. *)
Lemma audit_keeps v d used : same_shape v -> P d -> P (fst (fst (audit d v used))).
Proof.
  intros Hv HP. unfold audit.
  pose proof (for_range_pres (fun x : D * (zmap * list Z) => P (fst x)) (fun x : D * (zmap * list Z) * Z => P (fst (fst x))) (audit_step v) 0 FAT_DIR_LIMIT (d, (used, [v_root_cluster v])) HP) as Hl.
  lapply Hl; [clear Hl; intros Hl|].
  - destruct (for_range _ _ _ _) as [[d1 [u1 dirs]]|[[d1 [u1 dirs]] e]]; exact Hl.
  - intros i [d1 [u1 dirs]] H1. cbn [fst] in H1. unfold audit_step. destruct (_ <=? i); [exact H1|].
    pose proof (fat_directory_keeps P v (fun d o n => read_keeps v d o n Hv) (sector_nonneg v Hv) (fat_audit_entry v) d1 (dirs !!! Z.to_nat i) (u1, dirs) H1) as H2.
    destruct (fat_directory _ _ _ _ _) as [d2 [a e]]. by destruct (negb _).
Qed.
Lemma ok_mirror_sector s : ok_ (mirror_sector s).
Proof.
  unfold mirror_sector. eapply ok_bind; [apply ok_get_v|]. intros v Hv.
  eapply ok_bind; [apply (ok_read_at (fun w => (v_first_fat w + v_fat_sectors w + s) * v_sector w) v_sector), sector_nonneg|]. intros data _. apply ok_guard.
Qed.
Lemma ok_drop_cache : ok_ fat_drop_cache.
Proof.
  unfold fat_drop_cache. eapply ok_bind; [apply ok_get_v|]. intros v _. do 3 (apply ok_seq; [apply ok_free_pages|]). by apply ok_on_v.
Qed.
Lemma ok_prepare_checks dirs bytes : 0 <= bytes -> ok_ (prepare_checks dirs bytes).
Proof.
  intros Hb. unfold prepare_checks. eapply ok_bind; [apply ok_get_v|]. intros v Hv. apply ok_seq; [apply ok_guard|].
  eapply ok_bind; [by apply (ok_read (fun w => v_fat_start w * v_sector w) bytes)|]. intros data _. apply ok_seq; [by apply ok_on_v|].
  eapply ok_bind; [apply ok_get_v|]. intros v1 Hv1. apply ok_seq; [apply ok_guard|]. cbv zeta. apply ok_seq; [apply ok_guard|].
  apply ok_seq; [destruct (_ && _); [apply ok_for, ok_mirror_sector|by apply ok_ret]|].
  apply ok_seq; [destruct (_ =? 32); [|by apply ok_ret]; destruct (fat_mark_chain _ _ _ _) as [used e]; apply ok_seq; [by apply ok_on_v|apply ok_check]|].
  eapply ok_bind; [apply ok_get_v|]. intros v2 Hv2.
  eapply (ok_bind _ _ (fun _ => True)).
  { apply ok_reading. intros d w HP Hw. pose proof (audit_keeps w d (v_used w) Hw HP) as H1. destruct (audit _ _ _) as [[d1 u] e]. by split. }
  intros used _. apply ok_seq; [by apply ok_on_v|]. apply ok_seq; [apply ok_check|]. eapply ok_bind; [apply ok_get_v|]. intros v3 Hv3.
  apply ok_seq; [by apply ok_on_v|]. apply ok_seq; [apply ok_check|]. by apply ok_on_v.
Qed.
Lemma ok_prepare_write : ok_ fat_prepare_write.
Proof.
  unfold fat_prepare_write. eapply ok_bind; [apply ok_get_v|]. intros v Hv. eapply ok_bind; [apply ok_get_d|]. intros d _.
  destruct (_ || _); [apply ok_raise|]. destruct (v_write_ready v); [by apply ok_ret|]. destruct (_ && _); [apply ok_raise|]. destruct (_ || _); [apply ok_raise|]. cbv zeta.
  destruct (_ <? _); [apply ok_raise|]. do 3 (eapply ok_bind; [apply ok_k_pages|]; intros ? _). apply ok_seq; [by apply ok_on_v|]. eapply ok_bind; [apply ok_k_pages|]. intros dirs _.
  eapply ok_bind; [apply ok_attempt, ok_prepare_checks; by apply Z.mod_pos_bound|]. intros r _. apply ok_seq; [apply ok_free_pages|].
  destruct r as [e|u]; [apply ok_seq; [apply ok_drop_cache|apply ok_raise]|by apply ok_ret].
Qed.

(** ** Replacement *)
Lemma ok_write_chain n per : forall first last data, ok_ (write_chain n per first last data).
Proof.
  induction n as [|n IH]; intros first last data; cbn [write_chain]; [by apply ok_ret|]. eapply ok_bind; [apply ok_allocate|]. intros c _.
  destruct (c =? 0); [apply ok_raise|]. apply ok_seq; [destruct (negb _); [by apply ok_on_v|by apply ok_ret]|]. apply ok_seq; [apply ok_write_data|apply IH].
Qed.
Lemma free_chain_shape fuel : forall old v w, free_chain fuel old v = Some w -> shape w = shape v.
Proof.
  induction fuel as [|fuel IH]; intros old v w; cbn [free_chain]; (destruct (old =? 0); [by intros [= <-]|]); [done|]. cbv zeta.
  destruct (fat_is_end _ _); [by intros [= <-]|]. intros Hf. apply IH in Hf. by rewrite Hf.
Qed.
Lemma ok_replace_steps f data entry count per : 0 <= f_directory_offset f -> ok_ (replace_steps f data entry count per).
Proof.
  intros Hf. unfold replace_steps. eapply ok_bind; [apply ok_write_chain|]. intros first _. apply ok_seq; [apply ok_volume_flush|]. apply ok_seq; [apply ok_flush_cache|]. cbv zeta.
  apply ok_seq; [by apply ok_entry_write|]. apply ok_seq; [apply ok_volume_flush|].
  apply ok_seq. { apply ok_on_v. intros v. destruct (free_chain _ _ _) as [w|] eqn:E; [|done]. by apply free_chain_shape in E. }
  eapply ok_bind; [apply ok_attempt, ok_flush_cache|]. intros r _. by apply ok_ret.
Qed.
Lemma refresh_offset d v f d' f' e : refresh_on d v f = (d', f', e) -> f_directory_offset f' = f_directory_offset f.
Proof.
  unfold refresh_on. destruct (_ =? 0); [by intros [= <- <- <-]|]. destruct (volume_bytes _ _ _ _) as [d1 [e1|data]]; [by intros [= <- <- <-]|]. cbv zeta.
  destruct (_ || _); [by intros [= <- <- <-]|]. by destruct (_ && _); intros [= <- <- <-].
Qed.
Lemma ok_replace_on f data : 0 <= f_directory_offset f -> ok_ (replace_on f data).
Proof.
  intros Hf. unfold replace_on. eapply (ok_bind _ _ (fun r => 0 <= f_directory_offset (fst r))).
  { apply ok_reading. intros d v HP Hv. pose proof (refresh_on_keeps P v (fun d o n => read_keeps v d o n Hv) d f Hf HP) as H1.
    destruct (refresh_on d v f) as [[d1 f1] e] eqn:E. split; [exact H1|]. intros a [= <-]. cbn. by rewrite (refresh_offset _ _ _ _ _ _ E). }
  intros r Hr. cbv zeta. destruct (negb (snd r =? 0)); [by apply ok_ret|]. destruct (_ || _); [by apply ok_ret|].
  eapply ok_bind; [apply ok_attempt, ok_prepare_write|]. intros [e|u] _; [by apply ok_ret|]. eapply ok_bind; [apply ok_get_v|]. intros v Hv. destruct (_ <? _); [by apply ok_ret|].
  eapply (ok_bind _ _ (fun _ => True)).
  { eapply ok_weaken; [apply (ok_attempt _ (fun _ => True))|done]. apply ok_reading. intros d w HP Hw. split; [|done]. by apply read_keeps. }
  intros [e|entry] _; [by apply ok_ret|]. eapply ok_bind; [apply ok_attempt, ok_begin_write|]. intros b _.
  eapply (ok_bind _ _ (fun _ => True)).
  { destruct b as [e|u1]; [by apply ok_ret|]. eapply ok_bind; [apply ok_attempt, ok_replace_steps; exact Hr|]. intros r1 _. by apply ok_ret. }
  intros r1 _. eapply ok_bind; [apply ok_attempt, ok_finish_write|]. intros e _. by apply ok_ret.
Qed.

(** ** Creation: the offsets of the free entries are offsets *)
Definition offsets (l : list Z) : Prop := Forall (fun x => 0 <= x) l.
Lemma offsets_at l i : offsets l -> 0 <= l !!! i.
Proof.
  intros Hl. destruct (l !! i) as [x|] eqn:E; [|by rewrite (list_lookup_total_alt l i), E].
  rewrite (list_lookup_total_correct _ _ _ E). apply (proj1 (Forall_lookup _ _) Hl _ _ E).
Qed.
Definition scan_ok (r : Z + (slot_scan + (list Z * bool))) : Prop :=
  match r with inr (inl st) => offsets (sc_slots st) | inr (inr x) => offsets (fst x) | inl _ => True end.
Lemma slot_entry_offsets v need cluster off b st : 0 <= off -> offsets (sc_slots st) ->
  match slot_entry v need cluster off b st with Next st => offsets (sc_slots st) | Exit (inr x) => offsets (fst x) | Exit (inl _) => True end.
Proof.
  intros Ho Hst. unfold slot_entry. destruct (_ && _); [done|]. destruct (_ <? _); [done|]. cbv zeta.
  assert (offsets (sc_slots st ++ [off])) as Happ by (apply Forall_app; split; [exact Hst|by apply Forall_singleton]).
  destruct (_ || (b =? 0xe5)); [|apply Forall_nil_2]. by destruct (_ <=? _).
Qed.
Lemma slot_sector_ok v need cluster s d st : same_shape v -> P d -> offsets (sc_slots st) ->
  match slot_sector v need cluster s (d, st) with
  | Next (d, st) => P d /\ offsets (sc_slots st)
  | Exit (d, r) => P d /\ match r with inr x => offsets (fst x) | inl _ => True end
  end.
Proof.
  intros Hv HP Hst. unfold slot_sector. cbv zeta. set (base := u64 _). assert (0 <= base) as Hb by (by apply Z.mod_pos_bound).
  pose proof (read_keeps v d base (v_sector v) Hv Hb (sector_nonneg v Hv) HP) as H2. destruct (volume_bytes _ _ _ _) as [d1 [e|data]]; cbn [fst] in H2; [by split|].
  pose proof (for_range_pres (fun st => offsets (sc_slots st)) (fun r : Z + (list Z * bool) => match r with inr x => offsets (fst x) | inl _ => True end)
    (fun i => slot_entry v need cluster (u64 (base + 32 * i)) (data !!! Z.to_nat (32 * i))) 0 ((v_sector v + 31) / 32) st Hst) as Hl.
  lapply Hl; [clear Hl; intros Hl|].
  - destruct (for_range _ _ _ _) as [st1|r]; by split.
  - intros i st1 H3. apply slot_entry_offsets; [by apply Z.mod_pos_bound|exact H3].
Qed.
Lemma slot_cluster_ok v need cluster st d : same_shape v -> P d -> offsets (sc_slots st) ->
  P (fst (slot_cluster v need cluster st d)) /\ scan_ok (snd (slot_cluster v need cluster st d)).
Proof.
  intros Hv HP Hst. unfold slot_cluster.
  pose proof (for_range_pres (fun x : D * slot_scan => P (fst x) /\ offsets (sc_slots (snd x)))
    (fun x : D * (Z + (list Z * bool)) => P (fst x) /\ match snd x with inr y => offsets (fst y) | inl _ => True end)
    (slot_sector v need cluster) 0 (cluster_sectors v cluster) (d, st) (conj HP Hst)) as Hl.
  lapply Hl; [clear Hl; intros Hl|].
  - destruct (for_range _ _ _ _) as [[d1 st1]|[d1 [e|x]]]; exact Hl.
  - intros i [d1 st1] [H2 H3]. cbn [fst snd] in *. pose proof (slot_sector_ok v need cluster i d1 st1 Hv H2 H3) as H4.
    destruct (slot_sector _ _ _ _ _) as [[d2 st2]|[d2 r]]; exact H4.
Qed.
Lemma ok_grow cluster : ok_ (grow_directory cluster).
Proof.
  unfold grow_directory. eapply ok_bind; [apply ok_allocate|]. intros next _. destruct (next =? 0); [apply ok_raise|]. apply ok_seq; [apply ok_write_data|].
  apply ok_seq; [apply ok_volume_flush|]. apply ok_seq; [apply ok_flush_cache|]. apply ok_seq; [by apply ok_on_v|]. apply ok_seq; [apply ok_flush_cache|]. by apply ok_ret.
Qed.
Lemma ok_slots_loop n need grow : forall cluster st, offsets (sc_slots st) -> ok (slots_loop n need grow cluster st) (fun r => offsets (fst r)).
Proof.
  induction n as [|n IH]; intros cluster st Hst; cbn [slots_loop]; [apply ok_raise|].
  eapply (ok_bind _ _ (fun r => scan_ok (inr r))).
  { apply ok_reading. intros d v HP Hv. destruct (slot_cluster_ok v need cluster st d Hv HP Hst) as [H2 H3]. split; [exact H2|]. intros a E. by rewrite E in H3. }
  intros [st1|found] Hr; [|by apply ok_ret]. destruct (cluster =? 0); [apply ok_raise|]. eapply ok_bind; [apply ok_get_v|]. intros v Hv. cbv zeta.
  eapply (ok_bind _ _ (fun _ => True)). { destruct (fat_is_end _ _); [|by apply ok_ret]. destruct (negb grow); [apply ok_raise|apply ok_grow]. }
  intros next _. destruct (_ || _); [apply ok_raise|]. by apply IH.
Qed.
Lemma ok_slots dir need grow : ok (fat_slots dir need grow) (fun r => offsets (fst r)).
Proof. unfold fat_slots. generalize (Z.to_nat 65536). intros n. apply ok_slots_loop. apply Forall_nil_2. Qed.
Lemma sfn_loop_keeps n : forall d v name c, same_shape v -> P d -> P (fst (sfn_loop n d v name c)).
Proof.
  induction n as [|n IH]; intros d v name c Hv HP; cbn [sfn_loop]; [exact HP|].
  pose proof (for_range_pres P (fun x : D * (Z + bool) => P (fst x)) (sfn_sector v name c) 0 (cluster_sectors v c) d HP) as Hl.
  lapply Hl; [clear Hl; intros Hl|].
  - destruct (for_range _ _ _ _) as [d1|r]; [|exact Hl]. destruct (c =? 0); [exact Hl|]. cbv zeta. destruct (fat_is_end _ _); [exact Hl|]. by apply IH.
  - intros s d1 H2. unfold sfn_sector. pose proof (read_keeps v d1 (u64 ((cluster_first v c + s) * v_sector v)) (v_sector v) Hv ltac:(by apply Z.mod_pos_bound) (sector_nonneg v Hv) H2) as H3.
    destruct (volume_bytes _ _ _ _) as [d2 [e|data]]; [exact H3|]. cbn [fst] in H3. match goal with |- context [for_range 0 ?m ?b tt] => destruct (for_range 0 m b tt) end; exact H3.
Qed.
Lemma sfn_exists_keeps d v dir name : same_shape v -> P d -> P (fst (fat_sfn_exists d v dir name)).
Proof. unfold fat_sfn_exists. generalize (Z.to_nat 65536). intros n. apply sfn_loop_keeps. Qed.
Lemma free_name_keeps dir v d : same_shape v -> P d -> P (fst (free_name dir v d)).
Proof.
  intros Hv HP. unfold free_name.
  match goal with |- context [for_range 1 65536 ?b d] => pose proof (for_range_pres P (fun x : D * (Z + list Z) => P (fst x)) b 1 65536 d HP) as Hl end.
  lapply Hl; [clear Hl; intros Hl|].
  - destruct (for_range _ _ _ _) as [d1|r]; exact Hl.
  - intros serial d1 H2. pose proof (sfn_exists_keeps d1 v dir (serial_name serial) Hv H2) as H3.
    destruct (fat_sfn_exists _ _ _ _) as [d2 [e|[]]]; exact H3.
Qed.
Lemma ok_open index path : ok_ (m_open index path).
Proof. apply ok_reading. intros d v HP Hv. split; [|done]. apply open_on_keeps; [|by apply sector_nonneg|exact HP]. intros d1 o n. by apply read_keeps. Qed.
Lemma ok_new_directory parent : ok_ (new_directory parent).
Proof.
  unfold new_directory. eapply ok_bind; [apply ok_allocate|]. intros first _. destruct (first =? 0); [apply ok_raise|]. apply ok_seq; [apply ok_write_data|].
  eapply ok_bind; [apply ok_get_v|]. intros v Hv. cbv zeta. do 2 (apply ok_seq; [apply ok_entry_write; by apply Z.mod_pos_bound|]). by apply ok_ret.
Qed.
Lemma ok_create_steps name directory parent shortname slots at_end : offsets slots -> ok_ (create_steps name directory parent shortname slots at_end).
Proof.
  intros Hs. unfold create_steps. cbv zeta.
  apply ok_seq. { destruct at_end; [|by apply ok_ret]. apply ok_seq; [by apply ok_entry_write, offsets_at|apply ok_volume_flush]. }
  apply ok_seq; [apply ok_for; intros i; by apply ok_entry_write, offsets_at|]. apply ok_seq; [apply ok_volume_flush|].
  eapply (ok_bind _ _ (fun _ => True)). { destruct directory; [apply ok_new_directory|by apply ok_ret]. }
  intros first _. apply ok_seq; [apply ok_volume_flush|]. apply ok_seq; [apply ok_flush_cache|].
  apply ok_seq; [apply ok_for; intros i; by apply ok_entry_write, offsets_at|]. apply ok_seq; [apply ok_volume_flush|].
  apply ok_seq; [by apply ok_entry_write, offsets_at|]. apply ok_seq; [apply ok_volume_flush|]. by apply ok_ret.
Qed.
Lemma ok_create_on index path parent name directory : ok_ (create_on index path parent name directory).
Proof.
  unfold create_on. eapply ok_bind; [apply ok_open|]. intros p _. apply ok_seq; [apply ok_guard|]. eapply ok_bind; [apply ok_attempt, ok_open|]. intros existing _.
  apply ok_seq. { destruct existing as [e|f]; [|apply ok_raise]. destruct (e =? K_ENOENT); [by apply ok_ret|apply ok_raise]. }
  apply ok_seq; [apply ok_prepare_write|]. eapply ok_bind; [apply ok_get_v|]. intros v Hv. apply ok_seq; [apply ok_guard|].
  eapply (ok_bind _ _ (fun _ => True)). { apply ok_reading. intros d w HP Hw. split; [|done]. by apply free_name_keeps. }
  intros shortname _. cbv zeta. eapply ok_bind; [apply ok_attempt, ok_slots|]. intros found Hfound.
  apply ok_seq. { destruct found as [e|x]; [|by apply ok_ret]. destruct (e =? K_EAGAIN); [by apply ok_ret|apply ok_raise]. }
  eapply (ok_bind _ _ (fun _ => True)).
  { eapply ok_weaken; [apply (ok_attempt _ (fun _ => True))|done]. apply ok_seq; [apply ok_begin_write|].
    eapply (ok_bind _ _ (fun r => offsets (fst r))). { destruct found as [e|x]; [apply ok_slots|by apply ok_ret]. }
    intros r Hr. eapply ok_bind; [by apply ok_create_steps|]. intros first _. by apply ok_ret. }
  intros [e|f] _; [apply ok_seq; [apply ok_finish_write|apply ok_raise]|apply ok_seq; [apply ok_finish_write|by apply ok_ret]].
Qed.
End Logic.

(** * The window of a partition *)
Section Window.
Context {St D : Type} `{PageSource St} `{DiskContents D} (v0 : fat_volume).
#[local] Abbreviation G := (window_disks v0).
Lemma window_read v d offset n : same_shape v0 v -> 0 <= offset -> 0 <= n -> stays v0 d -> stays v0 (fst (volume_bytes (H := G) d v offset n)).
Proof.
  intros Hv Ho Hn HP. assert (volume_bytes (H := G) d v offset n = volume_bytes (H := G) d v0 offset n) as ->.
  { unfold volume_bytes. by rewrite (f_equal v_length Hv : v_length v = v_length v0), (f_equal v_sector Hv : v_sector v = v_sector v0),
      (f_equal v_disk Hv : v_disk v = v_disk v0), (f_equal v_start Hv : v_start v = v_start v0). }
  by apply volume_bytes_stays.
Qed.
Lemma window_write v d sector data : same_shape v0 v -> 0 <= sector < v_length v -> 0 < zlen data / v_sector v <= v_length v - sector -> stays v0 d ->
  stays v0 (fst (disk_write_fs (Disks := G) d (v_disk v) (u64 (v_start v + sector)) data)).
Proof.
  intros Hv Hs Hn [F V]. destruct (disk_write_fs (Disks := G) d (v_disk v) _ data) as [d' e] eqn:E.
  pose proof (disk_write_law (DiskContents := window_contents v0) _ _ _ _ _ _ E) as [Hg _]. split; [|by apply (volume_on_same (H := G) d)].
  rewrite (f_equal v_length Hv : v_length v = v_length v0), (f_equal v_sector Hv : v_sector v = v_sector v0) in *.
  rewrite (f_equal v_disk Hv : v_disk v = v_disk v0), (f_equal v_start Hv : v_start v = v_start v0) in *.
  pose proof V as (Hsz & Hsec & Hst & Hlen & _ & H64). cbn in E. destruct (disk_write_fs (fst d) _ _ _) as [d1 e1]. injection E as <- <-. cbn.
  rewrite F. cbn in Hsz. unfold in_window. rewrite Z.eqb_refl, <- Hsz. unfold u64, zlen in *. rewrite Z.mod_small by nia.
  cbn [andb]. apply andb_true_intro. split; apply Z.leb_le; lia.
Qed.
Lemma window_flush v d : same_shape v0 v -> stays v0 d -> stays v0 (fst (disk_flush (Disks := G) d (v_disk v))).
Proof.
  intros Hv [F V]. destruct (disk_flush (Disks := G) d (v_disk v)) as [d' e] eqn:E. pose proof (disk_flush_law (DiskContents := window_contents v0) _ _ _ _ E) as [Hg _]. split; [|by apply (volume_on_same (H := G) d)].
  rewrite (f_equal v_disk Hv : v_disk v = v_disk v0) in E. cbn in E. destruct (disk_flush (fst d) _) as [d1 e1]. injection E as <- <-. cbn. by rewrite F, Z.eqb_refl.
Qed.
End Window.

(** C12: the code of FAT volumes uses no other disk than the volume's and no sector outside the volume: with disks that record where they
    are used, opening, refreshing, reading and listing, replacing and creating files keep the record clean, whatever the disk holds. *)
Theorem fat_confined {St D} `{PageSource St} `{DiskContents D} (d : D) v :
  volume_on d v -> 0 <= v_fsinfo v -> 0 <= v_backup_boot v ->
  let G := guarded (v_disk v) (v_start v) (v_start v + v_length v) in
  (forall index path, snd (fst (open_on (H := G) (d, true) v index path)) = true) /\
  (forall f, 0 <= f_directory_offset f -> snd (fst (fst (refresh_on (H := G) (d, true) v f))) = true) /\
  (forall f offset n, 0 <= n -> snd (fst (fst (read_on (H := G) (d, true) v f offset n))) = true) /\
  (forall cluster, snd (fst (fat_directory (H := G) fat_list_cb (d, true) v cluster [])) = true) /\
  (forall ps ram w f data, shape w = shape v -> 0 <= f_directory_offset f ->
     snd (x_d (fst (replace_on (St := St) (H0 := G) f data (mk_fx (d, true) ps ram w)))) = true) /\
  (forall ps ram w index path parent name dir, shape w = shape v ->
     snd (x_d (fst (create_on (St := St) (H0 := G) index path parent name dir (mk_fx (d, true) ps ram w)))) = true).
Proof.
  intros V Hi Hb G. assert (stays v (d, true)) as HP by (split; [done|exact V]). pose proof V as (_ & Hsec & _).
  assert (forall d1 o n, 0 <= o -> 0 <= n -> stays v d1 -> stays v (fst (volume_bytes (H := G) d1 v o n))) as HR by (intros; by apply volume_bytes_stays).
  split_and!.
  - intros index path. apply (open_on_keeps (H := G) (stays v) v HR); [lia|exact HP].
  - intros f Hf. apply (refresh_on_keeps (H := G) (stays v) v HR); [exact Hf|exact HP].
  - intros f offset n Hn. apply (read_on_keeps (H := G) (stays v) v HR); [|exact Hn|exact HP]. rewrite (cluster_bytes_eq d v V). destruct V as (_ & ? & _ & _ & ? & _). nia.
  - intros cluster. apply (fat_directory_keeps (H := G) (stays v) v HR); [lia|exact HP].
  - intros ps ram w f data Hw Hf. apply (ok_replace_on (H0 := G) (stays v) v (window_read v) (window_write v) (window_flush v) ltac:(lia) (conj Hi Hb) f data Hf (mk_fx (d, true) ps ram w)).
    by split.
  - intros ps ram w index path parent name dir Hw.
    apply (ok_create_on (H0 := G) (stays v) v (window_read v) (window_write v) (window_flush v) ltac:(lia) (conj Hi Hb) index path parent name dir (mk_fx (d, true) ps ram w)).
    by split.
Qed.
Lemma fat_confined_witness :
  let G := guarded (H := demo_disks) 0 0 20 in
  snd (fst (open_on (H := G) (tt, true) demo_volume 0 [65; 46; 84; 88; 84])) = true /\
  (forall w, shape w = shape demo_volume -> snd (x_d (fst (replace_on (St := pmm) (H0 := G) demo_file [1; 2; 3] (mk_fx (tt, true) demo_pmm ∅ w)))) = true).
Proof.
  pose proof (fat_confined (St := pmm) (H1 := demo_contents) tt demo_volume demo_volume_on ltac:(vm_compute; congruence) ltac:(vm_compute; congruence)) as HP.
  cbv zeta in HP. destruct HP as (H1 & _ & _ & _ & H2 & _). split; [apply H1|]. intros w Hw. apply H2; [exact Hw|vm_compute; congruence].
Defined.

(** * The loops of the writing half *)
Lemma mark_loop_ends fuel : forall v c count used, 0 <= count <= 65536 -> 65537 - count <= Z.of_nat fuel -> mark_loop fuel v c count used <> None.
Proof.
  induction fuel as [|fuel IH]; intros v c count used Hc Hf; cbn [mark_loop]; [lia|]. destruct (_ || _) eqn:E; [done|]. reflect_bools. cbv zeta.
  destruct (fat_is_end _ _); [done|]. apply IH; lia.
Qed.
