(* ===== verification/FatNames.v ===== *)
(** Names of new FAT entries: the entries that [create_steps] writes are read
    back by the directory scan as one file with the name it was created with. *)
From S2P Require Import Prelude Klib Path Disk State Fat FatRead FatWrite.

(** * The bytes of an entry *)
Lemma entry_get d k : 0 <= k < 32 -> zget (buffer (entry_bytes d)) k = zget d k.
Proof.
  intros Hk. unfold entry_bytes, bytes_at. rewrite buffer_get by (rewrite bytes_from_length; lia).
  apply list_lookup_total_correct. rewrite bytes_from_lookup by lia. f_equal. f_equal. lia.
Qed.
(** A long-name entry with the characters [ch]. *)
Definition lfn_fill (d : zmap) (ch : Z -> Z) : zmap := fold_range 0 13 (fun j d => wr16 d (LFN_OFFSETS !!! Z.to_nat j) (ch j)) d.
Definition lfn_head (sum lfns i : Z) : zmap :=
  let d := memset ∅ 0 0xff 32 in
  let d := zput (zput (zput (zput d 0 (Z.lor (lfns - i) (if i =? 0 then 0x40 else 0))) 11 0x0f) 12 0) 13 sum in
  zput (zput d 27 0) 26 0.
Definition name_char (name : cstr) (at_ : Z) : Z := if at_ <? zlen name then name !!! Z.to_nat at_ else if at_ =? zlen name then 0 else 0xffff.
Lemma lfn_bytes_fill name sum lfns i : lfn_bytes name sum lfns i = lfn_fill (lfn_head sum lfns i) (fun j => name_char name ((lfns - i - 1) * 13 + j)).
Proof. reflexivity. Qed.
Definition text_offset (k : Z) : bool := existsb (fun o => (k =? o) || (k =? o + 1)) LFN_OFFSETS.
Lemma wr16_get m p v a : zget (wr16 m p v) a = if p + 1 =? a then u8 (Z.shiftr v 8) else if p =? a then u8 v else zget m a.
Proof. unfold wr16. by rewrite !zget_put. Qed.
Lemma lfn_fill_other d ch k : text_offset k = false -> zget (lfn_fill d ch) k = zget d k.
Proof.
  intros Hk. unfold lfn_fill. apply (fold_range_inv (fun _ m => zget m k = zget d k)); [lia|done|]. intros j m Hj Hm. rewrite wr16_get.
  assert (forall o, In o LFN_OFFSETS -> k <> o /\ k <> o + 1) as Hno.
  { intros o Ho. unfold text_offset in Hk. rewrite <- not_true_iff_false, existsb_exists in Hk. split; intros ->; apply Hk; exists o; rewrite !Z.eqb_refl, ?orb_true_r; done || by split; [|rewrite orb_true_r]. }
  destruct (Hno (LFN_OFFSETS !!! Z.to_nat j)) as [H1 H2].
  { apply list_elem_of_In, list_elem_of_lookup_total_2. change (length LFN_OFFSETS) with 13%nat. lia. }
  rewrite !(proj2 (Z.eqb_neq _ _)) by lia. done.
Qed.
(** The thirteen characters do not overlap. *)
Definition offset_of (j : Z) : Z := LFN_OFFSETS !!! Z.to_nat j.
Lemma offsets_apart i j : 0 <= i < 13 -> 0 <= j < 13 -> i <> j -> offset_of i <> offset_of j /\ offset_of i + 1 <> offset_of j /\ offset_of i <> offset_of j + 1.
Proof.
  intros Hi Hj Hij.
  assert (forallb (fun i => forallb (fun j => (i =? j) || negb ((offset_of i =? offset_of j) || (offset_of i + 1 =? offset_of j) || (offset_of i =? offset_of j + 1)))
            (seqZ 0 13)) (seqZ 0 13) = true) as Hall by reflexivity.
  rewrite forallb_forall in Hall. specialize (Hall i). rewrite forallb_forall in Hall.
  pose proof (Hall ltac:(apply list_elem_of_In, elem_of_seqZ; lia) j ltac:(apply list_elem_of_In, elem_of_seqZ; lia)) as Hb.
  split_and!; intros E; rewrite ?(proj2 (Z.eqb_neq i j) Hij), ?(proj2 (Z.eqb_eq _ _) E), ?orb_true_r in Hb; cbn in Hb; discriminate.
Qed.
Lemma offset_range j : 0 <= j < 13 -> 1 <= offset_of j <= 30.
Proof.
  intros Hj. assert (forallb (fun j => (1 <=? offset_of j) && (offset_of j <=? 30)) (seqZ 0 13) = true) as Hall by reflexivity.
  rewrite forallb_forall in Hall. specialize (Hall j ltac:(apply list_elem_of_In, elem_of_seqZ; lia)). lia.
Qed.
Lemma lfn_fill_char d ch j : 0 <= j < 13 -> is_u16 (ch j) ->
  zget (lfn_fill d ch) (offset_of j) = u8 (ch j) /\ zget (lfn_fill d ch) (offset_of j + 1) = u8 (Z.shiftr (ch j) 8).
Proof.
  intros Hj Hc. unfold lfn_fill.
  assert (forall j', 0 <= j' < 13 -> j' < 13 ->
    let m := fold_range 0 13 (fun j d => wr16 d (LFN_OFFSETS !!! Z.to_nat j) (ch j)) d in
    zget m (offset_of j') = u8 (ch j') /\ zget m (offset_of j' + 1) = u8 (Z.shiftr (ch j') 8)) as Hall; [|apply (Hall j Hj ltac:(lia))].
  apply (fold_range_inv (fun i m => forall j', 0 <= j' < 13 -> j' < i ->
    zget m (offset_of j') = u8 (ch j') /\ zget m (offset_of j' + 1) = u8 (Z.shiftr (ch j') 8))); [lia|intros; exfalso; lia|].
  intros i m Hi IH j' Hj' Hlt. fold (offset_of i). rewrite !wr16_get. destruct (Z.eq_dec i j') as [->|Hne].
  - rewrite !Z.eqb_refl. rewrite (proj2 (Z.eqb_neq (offset_of j' + 1) (offset_of j'))) by lia. done.
  - destruct (offsets_apart i j' Hi Hj' Hne) as (N1 & N2 & N3). rewrite !(proj2 (Z.eqb_neq _ _)) by lia. apply IH; lia.
Qed.
Lemma rd16_bytes m p c : is_u16 c -> zget m p = u8 c -> zget m (p + 1) = u8 (Z.shiftr c 8) -> rd16 m p = c.
Proof.
  intros Hc E1 E2. unfold rd16. rewrite E1, E2. unfold is_u16, u8 in *. rewrite Z.shiftr_div_pow2 by lia.
  rewrite (lor_shiftl_add (c mod 2 ^ 8) _ 8) by (try apply Z.mod_pos_bound; lia).
  rewrite (Z.mod_small (c / 2 ^ 8)) by (split; [apply Z.div_pos; lia|apply Z.div_lt_upper_bound; lia]).
  pose proof (Z.div_mod c (2 ^ 8) ltac:(lia)). lia.
Qed.

(** * A long-name entry as the scan sees it *)
Lemma seq_bits s last : 1 <= s <= 20 -> let b := Z.lor s (if last : bool then 0x40 else 0) in
  Z.land b 31 = s /\ (Z.land b 0x40 =? 0) = negb last /\ Z.land b 0xa0 = 0 /\ b <> 0 /\ b <> 0xe5 /\ 0 <= b < 256.
Proof.
  intros Hs.
  assert (forallb (fun s => forallb (fun last : bool => let b := Z.lor s (if last then 0x40 else 0) in
            (Z.land b 31 =? s) && Bool.eqb (Z.land b 0x40 =? 0) (negb last) && (Z.land b 0xa0 =? 0) && negb (b =? 0) && negb (b =? 0xe5) && (0 <=? b) && (b <? 256))
            [true; false]) (seqZ 1 20) = true) as Hall by reflexivity.
  rewrite forallb_forall in Hall. specialize (Hall s ltac:(apply list_elem_of_In, elem_of_seqZ; lia)). rewrite forallb_forall in Hall.
  specialize (Hall last ltac:(destruct last; cbn; auto)). cbn zeta in *. rewrite !andb_true_iff, !negb_true_iff, !Z.eqb_eq, !Z.eqb_neq, eqb_true_iff in Hall.
  destruct Hall as ((((((?&?)&?)&?)&?)&?)&?). split_and!; try assumption; lia.
Qed.
(** A character that a name may hold. *)
Definition plain (c : Z) : Prop := 32 <= c <= 126 /\ c <> 47 /\ c <> 92.
(** * The scan of consecutive entries *)
Section Scan.
Context (v : fat_volume) (cluster : Z).
Abbreviation dir_st := (@dir_state (list k_dirent)).
Fixpoint scan (es : list (Z * zmap)) (st : dir_st) : flow dir_st (list k_dirent * Z) :=
  match es with
  | [] => Next st
  | (offset, e) :: es =>
      match dir_entry fat_list_cb v cluster offset e st with
      | Next st => scan es st
      | Exit r => Exit r
      end
  end.
(** There is room for [n] entries more: the scan has a limit, and the root directory of a FAT12/16 volume has a size. *)
Definition room (n : Z) (st : dir_st) : Prop := s_scanned st + n <= 65536 /\ (cluster = 0 -> s_scanned st + n <= v_root_entries v).
Lemma scan_zip_cons o slots e es st :
  scan (zip (o :: slots) (e :: es)) st = match dir_entry fat_list_cb v cluster o e st with Next st => scan (zip slots es) st | Exit r => Exit r end.
Proof. reflexivity. Qed.
Lemma scan_app es es' st : scan (es ++ es') st = match scan es st with Next st => scan es' st | Exit r => Exit r end.
Proof. revert st. induction es as [|[o e] es IH]; intros st; cbn; [done|]. destruct (dir_entry _ _ _ _ _ _); [apply IH|done]. Qed.
Lemma room_passes n st : 0 < n -> room n st ->
  (cluster =? 0) && (v_root_entries v <=? s_scanned st) = false /\ (65536 <? s_scanned st + 1) = false.
Proof.
  intros Hn [R1 R2]. split; [|apply Z.ltb_ge; lia]. destruct (Z.eqb_spec cluster 0) as [E|]; [|done]. cbn. specialize (R2 E). apply Z.leb_gt. lia.
Qed.
End Scan.

Lemma until_nuls l n : Forall plain l -> until is_nul (l ++ replicate n 0) = l.
Proof.
  induction 1 as [|c l (Hc & _) _ IH]; cbn; [by destruct n|]. unfold is_nul at 1. rewrite (proj2 (Z.eqb_neq c 0)) by lia. by f_equal.
Qed.
Section Name.
Context (name : cstr) (sum : Z) (Hplain : Forall plain name) (Hlen : 0 < zlen name <= 255) (Hsum : is_u8 sum).
Let lfns := (zlen name + 12) / 13.
Lemma lfns_bounds : 1 <= lfns <= 20 /\ zlen name <= 13 * lfns < zlen name + 13.
Proof. unfold lfns. pose proof (Z.div_mod (zlen name + 12) 13 ltac:(lia)). pose proof (Z.mod_pos_bound (zlen name + 12) 13 ltac:(lia)). lia. Qed.
Lemma name_lookup k : 0 <= k < zlen name -> plain (name !!! Z.to_nat k).
Proof.
  intros Hk. destruct (lookup_lt_is_Some_2 name (Z.to_nat k)) as [x Hx]; [unfold zlen in Hk; lia|].
  rewrite (list_lookup_total_correct _ _ _ Hx). by eapply Forall_lookup_1.
Qed.
Lemma name_char_u16 k : 0 <= k -> is_u16 (name_char name k).
Proof. intros Hk. unfold name_char, is_u16. destruct (Z.ltb_spec k (zlen name)); [|case_match; lia]. pose proof (name_lookup k ltac:(lia)) as (?&?). lia. Qed.
(** The bytes of entry [i], as the scan reads them. *)
Definition lfn_seen (i : Z) : zmap := buffer (entry_bytes (lfn_bytes name sum lfns i)).
Lemma lfn_seen_get i k : 0 <= k < 32 -> text_offset k = false -> zget (lfn_seen i) k = zget (lfn_head sum lfns i) k.
Proof. intros Hk Ht. unfold lfn_seen. rewrite entry_get by done. rewrite lfn_bytes_fill. by apply lfn_fill_other. Qed.
Lemma lfn_seen_char i j : 0 <= i < lfns -> 0 <= j < 13 -> rd16 (lfn_seen i) (offset_of j) = name_char name ((lfns - i - 1) * 13 + j).
Proof.
  intros Hi Hj. pose proof (name_char_u16 ((lfns - i - 1) * 13 + j) ltac:(lia)) as Hc. pose proof (offset_range j Hj) as Ho.
  destruct (lfn_fill_char (lfn_head sum lfns i) (fun j => name_char name ((lfns - i - 1) * 13 + j)) j Hj Hc) as [E1 E2].
  apply rd16_bytes; [done|..]; unfold lfn_seen; rewrite entry_get by lia; rewrite lfn_bytes_fill; done.
Qed.
Lemma lfn_head_get i k : zget (lfn_head sum lfns i) k =
  if k =? 26 then 0 else if k =? 27 then 0 else if k =? 13 then sum else if k =? 12 then 0 else if k =? 11 then 0x0f
  else if k =? 0 then Z.lor (lfns - i) (if i =? 0 then 0x40 else 0) else zget (memset ∅ 0 0xff 32) k.
Proof. unfold lfn_head. rewrite !zget_put. by rewrite !(Z.eqb_sym k). Qed.
(** After [i] long-name entries: the characters from 13 (lfns - i) on are known. *)
Definition known_from (lo hi : Z) (m : zmap) : Prop :=
  forall p, lo <= p < hi -> zget m p = if p <? zlen name then name !!! Z.to_nat p else 0.
Definition filled (i : Z) (st : long_state) : Prop :=
  l_lfn st = true /\ l_expected st = lfns - i /\ l_sum st = sum /\ known_from ((lfns - i) * 13) K_NAME_MAX (l_name st).
Lemma lfn_chars i st : 0 <= i < lfns -> filled i st ->
  let st' := fold_range 0 13 (lfn_char (lfn_seen i) (lfns - i)) st in
  l_lfn st' = true /\ l_expected st' = l_expected st /\ l_sum st' = sum /\ known_from ((lfns - (i + 1)) * 13) K_NAME_MAX (l_name st').
Proof.
  intros Hi (F1 & F2 & F3 & F4). pose proof lfns_bounds as [Hb1 Hb2]. set (base := (lfns - i - 1) * 13). cbn zeta.
  pose proof (fold_range_inv (fun j st' => l_lfn st' = true /\ l_expected st' = l_expected st /\ l_sum st' = sum /\
      known_from base (Z.min (base + j) K_NAME_MAX) (l_name st') /\ known_from (base + 13) K_NAME_MAX (l_name st'))
    (lfn_char (lfn_seen i) (lfns - i)) 0 13 st ltac:(lia)) as Hinv.
  destruct Hinv as (E1 & E2 & E3 & E4 & E5).
  - split_and!; try done; [intros p Hp; exfalso; lia|]. intros p Hp. apply F4. unfold base in *. lia.
  - intros j t Hj (G1 & G2 & G3 & G4 & G5). unfold lfn_char. cbn zeta. fold (offset_of j). rewrite lfn_seen_char by lia. fold base.
    assert (0 <= base <= 247) as Hbase by (unfold base; lia).
    replace (u32 (base + j)) with (base + j) by (unfold u32; rewrite Z.mod_small by lia; lia).
    unfold name_char, K_NAME_MAX in *. destruct (Z.ltb_spec (base + j) (zlen name)) as [Hlt|Hge].
    + pose proof (name_lookup (base + j) ltac:(lia)) as (Hc & Hc1 & Hc2). set (c := name !!! Z.to_nat (base + j)) in *.
      rewrite (proj2 (Z.leb_gt 255 (base + j))) by lia.
      rewrite !(proj2 (Z.eqb_neq c _)) by lia. rewrite (proj2 (Z.ltb_ge c 32)), (proj2 (Z.ltb_ge 126 c)) by lia. cbn.
      split_and!; try done; intros p Hp; rewrite zget_put; destruct (Z.eqb_spec (base + j) p) as [<-|Hne];
        rewrite ?(proj2 (Z.ltb_lt _ _) Hlt); try done; [apply G4; lia|apply G5; lia].
    + assert (forall c, c = 0 \/ c = 0xffff -> c = (if base + j =? zlen name then 0 else 65535) ->
        let st' := if 255 <=? base + j then if negb (c =? 0) && negb (c =? 65535) then t <| l_lfn := false |> else t
                   else if (c =? 65535) || (c =? 0) then t <| l_name := zput (l_name t) (base + j) 0 |>
                   else if (c <? 32) || (126 <? c) || (c =? 47) || (c =? 92) then t <| l_lfn := false |>
                   else t <| l_name := zput (l_name t) (base + j) c |> in
        l_lfn st' = true /\ l_expected st' = l_expected st /\ l_sum st' = sum /\
        known_from base (Z.min (base + (j + 1)) 255) (l_name st') /\ known_from (base + 13) 255 (l_name st')) as Hend.
      { intros c Hc _. cbn zeta. destruct (Z.leb_spec 255 (base + j)) as [Hbig|Hsmall].
        - replace (negb (c =? 0) && negb (c =? 65535)) with false by (destruct Hc; subst; done). split_and!; try done.
          intros p Hp. destruct (Z.eq_dec p (base + j)) as [->|]; [|apply G4; lia]. exfalso. unfold K_NAME_MAX in *. lia.
        - replace ((c =? 65535) || (c =? 0)) with true by (destruct Hc; subst; done). cbn.
          split_and!; try done; intros p Hp; rewrite zget_put; destruct (Z.eqb_spec (base + j) p) as [<-|Hne];
            rewrite ?(proj2 (Z.ltb_ge _ _) Hge); try done; [apply G4; lia|apply G5; lia]. }
      apply (Hend (if base + j =? zlen name then 0 else 65535)); [case_match; auto|done].
  - split_and!; try done. intros p Hp. destruct (Z.lt_ge_cases p (base + 13)); [apply E4|apply E5]; unfold base in *; lia.
Qed.
Lemma head_at i k : text_offset k = false -> 0 <= k < 32 -> zget (lfn_seen i) k = zget (lfn_head sum lfns i) k.
Proof. intros Ht Hk. by apply lfn_seen_get. Qed.
Lemma lfn_seen_head i : 0 <= i < lfns ->
  zget (lfn_seen i) 0 = Z.lor (lfns - i) (if i =? 0 then 0x40 else 0) /\ zget (lfn_seen i) 11 = 0x0f /\ zget (lfn_seen i) 12 = 0 /\
  zget (lfn_seen i) 13 = sum /\ rd16 (lfn_seen i) 26 = 0.
Proof.
  intros Hi. unfold rd16. rewrite !lfn_seen_get by (reflexivity || lia). rewrite !lfn_head_get. done.
Qed.
Lemma lfn_entry_filled i st : 0 <= i < lfns -> i = 0 \/ filled i st -> filled (i + 1) (lfn_entry (lfn_seen i) st).
Proof.
  intros Hi Hst. pose proof lfns_bounds as [Hb1 Hb2]. destruct (lfn_seen_head i Hi) as (E0 & _ & E12 & E13 & E26).
  destruct (seq_bits (lfns - i) (i =? 0) ltac:(lia)) as (B1 & B2 & B3 & _).
  unfold lfn_entry. cbn zeta. rewrite E0, E12, E13, E26, B1, B2, B3.
  assert (filled i (if negb (i =? 0) then st else mk_long ∅ (lfns - i) sum ((1 <=? lfns - i) && (lfns - i <=? 20)))) as Hf.
  { destruct (Z.eqb_spec i 0) as [->|Hne]; [|destruct Hst; [lia|done]]. cbn. split_and!; cbn; try done; [lia|].
    intros p Hp. rewrite (proj2 (Z.ltb_ge _ _)) by lia. done. }
  destruct Hf as (F1 & F2 & F3 & F4). rewrite F1, F2, F3, !Z.eqb_refl. cbn [negb orb].
  pose proof (lfn_chars i _ Hi (conj F1 (conj F2 (conj F3 F4)))) as G. cbv zeta in G. revert G.
  match goal with |- context [fold_range 0 13 ?f ?s] => generalize (fold_range 0 13 f s) end. intros t (G1 & G2 & G3 & G4).
  split_and!; [exact G1| |exact G3|exact G4]. cbn. rewrite G2, F2. unfold u32. rewrite Z.mod_small by lia. lia.
Qed.
Lemma name_known m : known_from 0 K_NAME_MAX m -> until is_nul (bytes_at m 0 K_NAME_MAX) = name.
Proof.
  intros Hm. assert (bytes_at m 0 K_NAME_MAX = name ++ replicate (Z.to_nat (K_NAME_MAX - zlen name)) 0) as ->.
  { apply list_eq_same_length with (n := 255%nat); unfold bytes_at; [rewrite length_app, length_replicate; unfold zlen, K_NAME_MAX in *; lia|by rewrite bytes_from_length|].
    intros k x y Hk. rewrite bytes_from_lookup by done. intros [= <-] Hy. rewrite Hm by (unfold K_NAME_MAX; lia). rewrite Z.add_0_l, Nat2Z.id.
    unfold zlen. destruct (Z.ltb_spec (Z.of_nat k) (Z.of_nat (length name))) as [Hlt|Hge].
    - rewrite lookup_app_l in Hy by lia. by apply list_lookup_total_correct.
    - rewrite lookup_app_r in Hy by lia. apply lookup_replicate in Hy as [-> _]. done. }
  by apply until_nuls.
Qed.

(** * The long entries, scanned *)
Section ScanLong.
Context (v : fat_volume) (cluster : Z).
Lemma scan_lfns n i slots st : 0 <= i -> i + Z.of_nat n <= lfns -> length slots = n -> room v cluster (Z.of_nat n) st ->
  i = 0 \/ filled i (s_long st) ->
  exists long, (i + Z.of_nat n = 0 \/ filled (i + Z.of_nat n) long) /\
    scan v cluster (zip slots (map lfn_seen (seqZ i (Z.of_nat n)))) st = Next (mk_dir long (s_scanned st + Z.of_nat n) (s_arg st)).
Proof.
  revert i slots st. induction n as [|n IH]; intros i slots st Hi Hn Hs Hr Hst.
  - exists (s_long st). destruct slots; [|done]. cbn [zip scan]. rewrite !Z.add_0_r. split; [done|]. by destruct st.
  - destruct slots as [|o slots]; [done|]. rewrite seqZ_cons by lia. cbn [map]. rewrite scan_zip_cons.
    destruct (lfn_seen_head i ltac:(lia)) as (E0 & E11 & _). pose proof lfns_bounds as [Hb1 _].
    destruct (seq_bits (lfns - i) (i =? 0) ltac:(lia)) as (_ & _ & _ & N0 & Ne5 & _).
    destruct (room_passes v cluster (Z.of_nat (S n)) st ltac:(lia) Hr) as [P1 P2].
    unfold dir_entry at 1. rewrite P1. cbv zeta. cbn [s_scanned s_long s_arg]. rewrite P2, E0, E11, (proj2 (Z.eqb_neq _ 0) N0), (proj2 (Z.eqb_neq _ 0xe5) Ne5).
    cbn [Z.eqb Pos.eqb].
    destruct (IH (i + 1) slots (mk_dir (lfn_entry (lfn_seen i) (s_long st)) (s_scanned st + 1) (s_arg st))) as (long & F & E).
    { lia. } { lia. } { by injection Hs. }
    { destruct Hr as [R1 R2]. split; cbn [s_scanned]; lia. }
    { right. apply lfn_entry_filled; [lia|done]. }
    exists long. replace (i + Z.of_nat (S n)) with (i + 1 + Z.of_nat n) by lia. split; [done|].
    replace (Z.succ i) with (i + 1) by lia. replace (Z.pred (Z.of_nat (S n))) with (Z.of_nat n) by lia. rewrite E. cbn [s_scanned s_arg]. f_equal. f_equal. lia.
Qed.
End ScanLong.
End Name.

(** * The short entry *)
Section Short.
Context (shortname : list Z) (directory : bool) (first : Z) (Hshort : length shortname = 11%nat) (Hfirst : 0 <= first < 2 ^ 28).
Let e := buffer (entry_bytes (sfn_bytes shortname directory first)).
Lemma sfn_get k : 0 <= k < 32 -> zget e k =
  if k <? 11 then shortname !!! Z.to_nat k else if k =? 11 then if directory then 0x10 else 0x20
  else if k =? 26 then u8 first else if k =? 27 then u8 (Z.shiftr first 8) else if k =? 20 then u8 (Z.shiftr first 16)
  else if k =? 21 then u8 (Z.shiftr first 24) else if (k =? 16) || (k =? 18) || (k =? 24) then 0x21 else 0.
Proof.
  intros Hk. unfold e. rewrite entry_get by done. unfold sfn_bytes, fat_set_first. cbv zeta. rewrite wr32_get, !zget_put, write_bytes_get, Hshort.
  assert (0 <= k < 11 \/ 11 <= k < 28 \/ 28 <= k) as [Hr|[Hr|Hr]] by lia.
  - change (0 + Z.of_nat 11) with 11. rewrite !(proj2 (Z.ltb_lt k 11)) by lia. rewrite !(proj2 (Z.eqb_neq _ k)) by lia.
    rewrite (proj2 (Z.leb_le 0 k)), (proj2 (Z.leb_gt 28 k)) by lia. by rewrite Z.sub_0_r.
  - assert (k = 11 \/ k = 12 \/ k = 13 \/ k = 14 \/ k = 15 \/ k = 16 \/ k = 17 \/ k = 18 \/ k = 19 \/ k = 20 \/ k = 21 \/ k = 22 \/ k = 23 \/
            k = 24 \/ k = 25 \/ k = 26 \/ k = 27) as Hc by lia.
    repeat destruct Hc as [->|Hc]; try subst k; reflexivity.
  - assert (k = 28 \/ k = 29 \/ k = 30 \/ k = 31) as Hc by lia. repeat destruct Hc as [->|Hc]; try subst k; reflexivity.
Qed.
Lemma sfn_size : rd32 e 28 = 0.
Proof. unfold rd32, rd16. rewrite !sfn_get by lia. reflexivity. Qed.
Lemma sfn_first bits : (bits <> 32 -> first < 2 ^ 16) -> Z.lor (rd16 e 26) (if bits =? 32 then Z.shiftl (rd16 e 20) 16 else 0) = first.
Proof.
  intros Hb.
  assert (rd16 e 26 = u16 first) as E26 by (apply (rd16_wr _ 0); [rewrite sfn_get by lia; reflexivity..|lia]).
  assert (rd16 e 20 = u16 (Z.shiftr first 16)) as E20 by (apply (rd16_wr _ 16); [rewrite sfn_get by lia; reflexivity..|lia]).
  rewrite E26, E20. unfold u16. rewrite Z.shiftr_div_pow2 by lia. destruct (Z.eqb_spec bits 32) as [->|Hne].
  - rewrite lor_shiftl_add by (try apply Z.mod_pos_bound; lia).
    rewrite (Z.mod_small (first / 2 ^ 16)) by (split; [apply Z.div_pos; lia|apply Z.div_lt_upper_bound; lia]).
    pose proof (Z.div_mod first (2 ^ 16) ltac:(lia)). lia.
  - rewrite Z.lor_0_r. apply Z.mod_small. specialize (Hb Hne). lia.
Qed.
Lemma sfn_name : bytes_at e 0 11 = shortname.
Proof.
  apply list_eq_same_length with (n := 11%nat); [done|unfold bytes_at; by rewrite bytes_from_length|].
  intros k x y Hk. unfold bytes_at. rewrite bytes_from_lookup by done. intros [= <-] Hy. rewrite sfn_get by lia.
  rewrite (proj2 (Z.ltb_lt _ _)) by lia. rewrite Z.add_0_l, Nat2Z.id. by apply list_lookup_total_correct.
Qed.
End Short.

(** * A created entry *)
Definition long_entries (name : cstr) : Z := (zlen name + 12) / 13.
Definition long_part (name : cstr) (serial k : Z) : list zmap := map (lfn_seen name (sfn_checksum (serial_name serial))) (seqZ 0 k).
(** What [create_steps] writes, and what is on the disk when it stops after [k] long-name entries: the others are still marked deleted. *)
Definition created (name : cstr) (directory : bool) (serial first : Z) : list zmap :=
  long_part name serial (long_entries name) ++ [buffer (entry_bytes (sfn_bytes (serial_name serial) directory first))].
Definition interrupted (name : cstr) (serial k : Z) : list zmap :=
  long_part name serial k ++ replicate (Z.to_nat (long_entries name + 1 - k)) (buffer (entry_bytes (zput ∅ 0 0xe5))).
Lemma fold_left_ind {A B} (P : A -> Prop) (f : A -> B -> A) l a : P a -> (forall a b, P a -> P (f a b)) -> P (fold_left f l a).
Proof. intros Ha Hf. revert a Ha. induction l as [|b l IH]; intros a Ha; cbn; auto. Qed.
Lemma sfn_checksum_u8 l : is_u8 (sfn_checksum l).
Proof. unfold sfn_checksum. apply fold_left_ind; [unfold is_u8; lia|]. intros sum c _. apply u8_range. Qed.
Lemma name_ok_plain name : fat_name_ok name = true -> 47 ∉ name ->
  Forall plain name /\ 0 < zlen name /\ bool_decide (name = [DOT]) = false /\ bool_decide (name = [DOT; DOT]) = false.
Proof.
  unfold fat_name_ok. rewrite !andb_true_iff, !negb_true_iff. intros (((((E & E1) & E2) & Ef) & _) & _) Hs. split_and!; [..|done|done].
  - apply Forall_forall. intros c Hc. apply not_true_iff_false in Ef. rewrite existsb_exists in Ef.
    assert (fat_forbidden c = false) as Hf by (apply not_true_iff_false; intros Hf; apply Ef; exists c; split; [by apply list_elem_of_In|done]).
    unfold fat_forbidden in Hf. rewrite !orb_false_iff in Hf. destruct Hf as [[H1 H2] H3]. cbn in H3. rewrite !orb_false_iff in H3. unfold plain.
    split_and!; [lia|lia|by intros ->|lia].
  - destruct name; [done|]. unfold zlen. cbn. lia.
Qed.
Lemma scan_deleted v cluster n slots st : length slots = n -> room v cluster (Z.of_nat n) st -> (0 < n)%nat ->
  exists long, l_lfn long = false /\
    scan v cluster (zip slots (replicate n (buffer (entry_bytes (zput ∅ 0 0xe5))))) st = Next (mk_dir long (s_scanned st + Z.of_nat n) (s_arg st)).
Proof.
  revert slots st. induction n as [|n IH]; intros slots st Hs Hr Hn; [lia|]. destruct slots as [|o slots]; [done|].
  destruct (room_passes v cluster (Z.of_nat (S n)) st ltac:(lia) Hr) as [P1 P2].
  cbn [replicate]. rewrite scan_zip_cons. unfold dir_entry at 1. rewrite P1. cbv zeta. cbn [s_scanned s_long s_arg]. rewrite P2.
  rewrite (entry_get _ 0) by lia. rewrite zget_put. cbn [Z.eqb Pos.eqb].
  destruct (decide (n = 0%nat)) as [->|Hne].
  - destruct slots; [|done]. cbn. eexists. split; [|reflexivity]. done.
  - destruct (IH slots (mk_dir ((s_long st) <| l_lfn := false |>) (s_scanned st + 1) (s_arg st))) as (long & F & E).
    { by injection Hs. } { destruct Hr as [R1 R2]. split; cbn [s_scanned]; lia. } { lia. }
    exists long. split; [done|]. rewrite E. cbn [s_scanned s_arg]. f_equal. f_equal. lia.
Qed.

Lemma land_high_nibble x : 0 <= x < 2 ^ 28 -> Z.land x 0xf0000000 = 0.
Proof.
  intros Hx. apply Z.bits_inj'. intros n Hn. rewrite Z.land_spec, Z.bits_0. change 0xf0000000 with (Z.shiftl 15 28).
  destruct (Z.lt_ge_cases n 28) as [Hlt|Hge]; [by rewrite (Z.shiftl_spec_low _ _ _ Hlt), andb_false_r|].
  by rewrite (testbit_high x 28 n).
Qed.
Lemma created_entry v cluster offset name directory serial first st : volume_ok v ->
  Forall plain name -> 0 < zlen name <= 255 -> bool_decide (name = [DOT]) = false -> bool_decide (name = [DOT; DOT]) = false ->
  (if directory : bool then 2 <= first < v_cluster_count v + 2 else first = 0) ->
  filled name (sfn_checksum (serial_name serial)) (long_entries name) (s_long st) -> room v cluster 1 st ->
  dir_entry fat_list_cb v cluster offset (buffer (entry_bytes (sfn_bytes (serial_name serial) directory first))) st =
  Next (mk_dir ((s_long st) <| l_lfn := false |>) (s_scanned st + 1) (s_arg st ++ [mk_dirent name 0 directory (if directory then 0x10 else 0x20) offset])).
Proof.
  intros Hv Hplain Hlen Hdot Hdots Hfirst (F1 & F2 & F3 & F4) Hr. destruct (room_passes v cluster 1 st ltac:(lia) Hr) as [P1 P2].
  pose proof (ok_clusters v Hv) as Hc.
  assert (0 <= first < 2 ^ 28) as Hf by (destruct directory; lia).
  set (e := buffer (entry_bytes (sfn_bytes (serial_name serial) directory first))).
  assert (length (serial_name serial) = 11%nat) as Hs by reflexivity.
  assert (zget e 0 = 75 /\ zget e 11 = if directory then 0x10 else 0x20) as [E0 E11].
  { unfold e. rewrite !sfn_get by (reflexivity || lia). done. }
  assert (entry_name e (s_long st) = name) as Hname.
  { unfold entry_name. rewrite F1, F2, F3. unfold e at 1. rewrite (sfn_name _ directory first Hs), Z.eqb_refl.
    unfold long_entries. rewrite Z.sub_diag. cbn [Z.eqb andb].
    rewrite F4 by (unfold long_entries, K_NAME_MAX; lia). rewrite (proj2 (Z.ltb_lt 0 _)) by lia.
    pose proof (name_lookup name Hplain 0 ltac:(lia)) as (Hz & _). rewrite (proj2 (Z.eqb_neq _ 0)) by lia. cbn [negb].
    apply (name_known name Hplain Hlen). intros p Hp. apply F4. unfold long_entries. lia. }
  unfold dir_entry. rewrite P1. cbv zeta. cbn [s_scanned s_long s_arg]. rewrite P2, E0. cbn [Z.eqb Pos.eqb].
  replace (zget e 11 =? 15) with false by (rewrite E11; by destruct directory).
  replace (Z.land (zget e 11) 8) with 0 by (rewrite E11; by destruct directory). cbn [Z.eqb negb].
  unfold file_entry. cbv zeta. cbn [s_scanned s_long s_arg]. rewrite Hname, Hdot, Hdots. cbn [orb].
  unfold e. rewrite (sfn_size _ directory first Hs), (sfn_first _ directory first Hs Hf).
  2: { intros Hb. pose proof (ok_class v Hv) as Hk. destruct (ok_bits v Hv) as [Eb|[Eb|Eb]]; rewrite Eb in *; destruct directory; lia. }
  fold e. rewrite E11. replace (Z.land first 0xf0000000) with 0 by (symmetry; by apply land_high_nibble). cbn [Z.eqb negb].
  rewrite andb_false_r. replace (negb (Z.land (if directory then 16 else 32) 16 =? 0)) with directory by (by destruct directory). rewrite orb_false_r.
  replace (directory && ((first <? 2) || (v_cluster_count v <=? first - 2))) with false by (destruct directory; [symmetry; cbn; lia|done]).
  unfold fat_list_cb. done.
Qed.


(** "A long file.txt" *)
Definition demo_name : cstr := [65; 32; 108; 111; 110; 103; 32; 102; 105; 108; 101; 46; 116; 120; 116].
Definition demo_scan : @dir_state (list k_dirent) := mk_dir (mk_long ∅ 0 0 false) 0 [].
