(* ===== verification/RamFs.v ===== *)
(** The RAM file system, the part of [src/kernel-src/fs/fs.c] (lines 24-34,
    210-262, 319-371, 434-460 and 1596-1645) that keeps files in memory: a
    table of nodes, each with its parent and its name, whose data are pages of
    the page source. *)
From S2P Require Import Prelude Klib PageAlloc Path State.

Definition MAX_NODES : Z := 192.
Record ram_node := mk_node {
  n_used : bool; n_directory : bool; n_parent : Z; n_block_id : Z; n_kind : Z; n_pages : Z; n_name : cstr; n_data : Z; n_size : Z }.
#[export] Instance node_updatable : Updatable ram_node := fun r =>
  mk_node (n_used r) (n_directory r) (n_parent r) (n_block_id r) (n_kind r) (n_pages r) (n_name r) (n_data r) (n_size r).
Definition node0 : ram_node := mk_node false false 0 0 0 0 [] 0 0.
#[export] Instance node_inhabited : Inhabited ram_node := populate node0.
Implicit Types (nodes : table ram_node).

(** * Names *)
Definition is_child nodes (parent : Z) (name : cstr) (i : Z) : bool :=
  n_used (nodes !!! i) && (n_parent (nodes !!! i) =? parent) && bool_decide (n_name (nodes !!! i) = name).
Definition ram_child nodes (parent : Z) (name : cstr) : Z := default K_ENOENT (find_range 1 MAX_NODES (is_child nodes parent name)).
Fixpoint walk_from nodes (at_ : Z) (names : list cstr) : Z :=
  match names with
  | [] => at_
  | name :: names =>
      if negb (n_directory (nodes !!! at_)) then K_ENOENT
      else
        let next := ram_child nodes at_ name in
        if next <? 0 then next else walk_from nodes next names
  end.
Definition ram_walk nodes (path : cstr) : Z := walk_from nodes 0 (components path).
Definition ram_new nodes (path : cstr) (directory : bool) : table ram_node * Z :=
  let parent := take (Z.to_nat (K_PATH_MAX - 1)) path in
  if zlen parent <=? 1 then (nodes, K_EEXIST)
  else
    let split := after_slash parent (length parent) in
    let name := drop split parent in
    let p := ram_walk nodes (take (if (1 <? split)%nat then split - 1 else 1) parent) in
    if (p <? 0) || negb (n_directory (nodes !!! p)) then (nodes, K_ENOENT)
    else if 0 <=? ram_child nodes p name then (nodes, K_EEXIST)
    else
      match find_range 1 MAX_NODES (fun i => negb (n_used (nodes !!! i))) with
      | Some i => (<[i := mk_node true directory p 0 1 0 name 0 0]> nodes, i)
      | None => (nodes, K_ENOMEM)
      end.
(** The entries of a directory, in the order of the table. *)
Definition ram_list nodes (object : Z) : list (cstr * Z * bool) :=
  fold_range 1 MAX_NODES (fun i l =>
    let r := nodes !!! i in
    if n_used r && (n_parent r =? object) then l ++ [(n_name r, n_size r, n_directory r)] else l) [].

Section RamFs.
Context {St : Type} `{PageSource St}.
Record ram_fs := mk_ram_fs { rf_nodes : table ram_node; rf_ps : St; rf_ram : zmap }.
#[export] Instance ram_fs_updatable : Updatable ram_fs := fun r => mk_ram_fs (rf_nodes r) (rf_ps r) (rf_ram r).
Implicit Types (s : ram_fs).

Definition k_vfs_init (ready : bool) s : ram_fs * bool * Z :=
  if ready then (s, ready, K_EBUSY)
  else (s <| rf_nodes ::= tmod 0 (fun r => r <| n_used := true |> <| n_directory := true |> <| n_kind := 1 |>) |>, true, 0).

Definition free_data (data pages : Z) s : ram_fs := if data =? 0 then s else s <| rf_ps ::= (fun ps => pa_free ps data pages) |>.
Definition data_pages (size : Z) : Z := u32 ((size + 4095) / 4096).
(** The node's data become the block at [data]; the old ones are freed. *)
Definition set_data (index data pages size : Z) s : ram_fs :=
  let r := rf_nodes s !!! index in
  (free_data (n_data r) (n_pages r) s) <| rf_nodes ::= tmod index (fun r => r <| n_data := data |> <| n_size := size |> <| n_pages := pages |>) |>.
(** [k_vfs_put] of a canonical path that is on no volume. *)
Definition ram_put s (path : cstr) (bytes : list Z) : ram_fs * Z :=
  let size := zlen bytes in
  let index := ram_walk (rf_nodes s) path in
  if (0 <=? index) && (n_directory (rf_nodes s !!! index) || negb (n_kind (rf_nodes s !!! index) =? 1)) then (s, K_EINVAL)
  else
    let pages := data_pages size in
    let '(s, data) := if pages =? 0 then (s, 0) else
                        let '(ps, ram, p) := pa_alloc (rf_ps s) (rf_ram s) pages 0 in (s <| rf_ps := ps |> <| rf_ram := ram |>, p) in
    if negb (pages =? 0) && (data =? 0) then (s, K_ENOMEM)
    else
      let '(s, index) := if index <? 0 then let '(nodes, i) := ram_new (rf_nodes s) path false in (s <| rf_nodes := nodes |>, i) else (s, index) in
      if index <? 0 then (free_data data pages s, index)
      else
        let s := s <| rf_ram ::= write_bytes data bytes |> in
        (set_data index data pages size s, 0).
(** [k_vfs_mkdir], the same way. *)
Definition ram_mkdir s (path : cstr) : ram_fs * Z :=
  let '(nodes, e) := ram_new (rf_nodes s) path true in (s <| rf_nodes := nodes |>, if 0 <=? e then 0 else e).
Definition ram_open nodes (path : cstr) : Z + k_file :=
  let n := ram_walk nodes path in
  if n <? 0 then inl n
  else
    let r := nodes !!! n in
    inr (mk_file (n_kind r) (if n_kind r =? 3 then n_block_id r else n) 0 (if n_directory r then 0x10 else 0) (n_size r) 0).
(** [k_vfs_create] when the path is not there. *)
Definition ram_create s (path : cstr) : ram_fs * (Z + k_file) :=
  let '(nodes, e) := ram_new (rf_nodes s) path false in
  if 0 <=? e then (s <| rf_nodes := nodes |>, ram_open nodes path) else (s, inl e).
(** [k_vfs_read] of a file of kind 1. *)
Definition ram_read s (object offset n : Z) : Z + list Z :=
  if (MAX_NODES <=? object) || negb (n_used (rf_nodes s !!! object)) then inl K_ENOENT
  else
    let r := rf_nodes s !!! object in
    if offset <? n_size r then inr (bytes_at (rf_ram s) (n_data r + offset) (Z.min n (n_size r - offset))) else inr [].
(** [k_vfs_write] of a file of kind 1: the file grows into a new block; [offset] of all ones appends. *)
Definition WRITE_MAX : Z := 4 * 1024 * 1024.
Definition ram_write s (f : k_file) (offset : Z) (data : list Z) : ram_fs * k_file * (Z + Z) :=
  if (MAX_NODES <=? f_object f) || negb (n_used (rf_nodes s !!! f_object f)) then (s, f, inl K_EINVAL)
  else
    let r := rf_nodes s !!! f_object f in
    let f := f <| f_size := n_size r |> in
    if negb (n_kind r =? 1) || n_directory r then (s, f, inl K_EINVAL)
    else if negb (Z.land (f_attributes f) 0x11 =? 0) then (s, f, inl K_EROFS)
    else
      let offset := if offset =? 2 ^ 64 - 1 then f_size f else offset in
      if (WRITE_MAX <? f_size f) || (WRITE_MAX <? offset) || (WRITE_MAX - offset <? zlen data) then (s, f, inl K_E2BIG)
      else if zlen data =? 0 then (s, f, inr 0)
      else
        let size := if offset + zlen data <? f_size f then f_size f else offset + zlen data in
        let pages := data_pages size in
        let '(ps, ram, image) := pa_alloc (rf_ps s) (rf_ram s) pages 0 in
        let s := s <| rf_ps := ps |> <| rf_ram := ram |> in
        if image =? 0 then (s, f, inl K_ENOMEM)
        else
          let s := s <| rf_ram ::= (fun m => write_bytes (image + offset) data (mem_copy m image (n_data r) (f_size f))) |> in
          (set_data (f_object f) image pages size s, f <| f_size := size |>, inr (zlen data)).
End RamFs.
