(* ===== verification/RamFsSpec.v ===== *)
(** The RAM file system as a tree of names: the node table is a tree whose
    paths are unique, every operation of [RamFs] changes the tree it stands
    for the way a file system does, and no operation disturbs another file. *)
From S2P Require Import Prelude Klib Pmm PageAlloc Path State RamFs.

(** * The tree of nodes *)

(** The used nodes are the first [n]; a parent is an earlier directory; no two children of a directory have the same name. *)
Record nodes_ok (nodes : table ram_node) (n : Z) : Prop := {
  no_range : 0 < n <= MAX_NODES;
  no_used : forall i, 0 <= i < MAX_NODES -> n_used (nodes !!! i) = (i <? n);
  no_root : n_directory (nodes !!! 0) = true;
  no_parent : forall i, 0 < i < n -> 0 <= n_parent (nodes !!! i) < i /\ n_directory (nodes !!! n_parent (nodes !!! i)) = true;
  no_unique : forall i j, 0 < i < n -> 0 < j < n -> n_parent (nodes !!! i) = n_parent (nodes !!! j) -> n_name (nodes !!! i) = n_name (nodes !!! j) -> i = j }.
Inductive at_path (nodes : table ram_node) (n : Z) : list cstr -> Z -> Prop :=
  | at_root : at_path nodes n [] 0
  | at_child cs i : at_path nodes n cs (n_parent (nodes !!! i)) -> 0 < i < n -> at_path nodes n (cs ++ [n_name (nodes !!! i)]) i.

Section Tree.
Context (nodes : table ram_node) (n : Z) (Hok : nodes_ok nodes n).
Lemma is_child_true p c i : 1 <= i < MAX_NODES -> is_child nodes p c i = true <-> i < n /\ n_parent (nodes !!! i) = p /\ n_name (nodes !!! i) = c.
Proof.
  intros Hi. unfold is_child. rewrite (no_used _ _ Hok) by lia. rewrite !andb_true_iff, bool_decide_eq_true, Z.ltb_lt, Z.eqb_eq. tauto.
Qed.
Lemma ram_child_is p c i : 0 < i < n -> n_parent (nodes !!! i) = p -> n_name (nodes !!! i) = c -> ram_child nodes p c = i.
Proof.
  intros Hi Hp Hc. pose proof (no_range _ _ Hok). unfold ram_child. destruct (find_range 1 MAX_NODES (is_child nodes p c)) as [j|] eqn:Hf.
  - apply find_range_Some in Hf as (Hj & Hb & _). apply is_child_true in Hb as (Hjn & Hjp & Hjc); [|done]. cbn.
    apply (no_unique _ _ Hok); congruence || lia.
  - rewrite find_range_None in Hf. specialize (Hf i ltac:(lia)). rewrite (proj2 (is_child_true p c i ltac:(lia))) in Hf; [done|]. split_and!; [lia|done..].
Qed.
Lemma ram_child_cases p c : (ram_child nodes p c = K_ENOENT /\ forall i, 0 < i < n -> n_parent (nodes !!! i) = p -> n_name (nodes !!! i) <> c) \/
  (exists i, ram_child nodes p c = i /\ 0 < i < n /\ n_parent (nodes !!! i) = p /\ n_name (nodes !!! i) = c).
Proof.
  pose proof (no_range _ _ Hok). unfold ram_child. destruct (find_range 1 MAX_NODES (is_child nodes p c)) as [j|] eqn:Hf; [right|left].
  - apply find_range_Some in Hf as (Hj & Hb & _). apply is_child_true in Hb as (Hjn & Hjp & Hjc); [|done]. exists j. cbn. split_and!; done || lia.
  - split; [done|]. intros i Hi Hp Hc. rewrite find_range_None in Hf. specialize (Hf i ltac:(lia)).
    rewrite (proj2 (is_child_true p c i ltac:(lia))) in Hf; [done|]. split_and!; [lia|done..].
Qed.
Lemma walk_snoc at_ cs c : 0 <= at_ -> walk_from nodes at_ (cs ++ [c]) =
  let p := walk_from nodes at_ cs in if p <? 0 then p else if negb (n_directory (nodes !!! p)) then K_ENOENT else ram_child nodes p c.
Proof.
  revert at_. induction cs as [|c' cs IH]; intros at_ Hat; cbn [app walk_from].
  - cbv zeta. rewrite (proj2 (Z.ltb_ge at_ 0)) by lia. destruct (n_directory (nodes !!! at_)); [cbn|done].
    destruct (ram_child_cases at_ c) as [[-> _]|(i & -> & Hi & _)]; [done|]. by rewrite (proj2 (Z.ltb_ge i 0)) by lia.
  - destruct (n_directory (nodes !!! at_)); [cbn|done]. destruct (Z.ltb_spec (ram_child nodes at_ c') 0) as [Hn|Hn]; [by rewrite (proj2 (Z.ltb_lt _ _) Hn)|]. by apply IH.
Qed.
Lemma at_path_range cs i : at_path nodes n cs i -> 0 <= i < n.
Proof. pose proof (no_range _ _ Hok). destruct 1; lia. Qed.
Lemma walk_none cs : walk_from nodes 0 cs = K_ENOENT \/ 0 <= walk_from nodes 0 cs.
Proof.
  induction cs as [|c cs IH] using rev_ind; [by right|]. rewrite walk_snoc by lia. cbv zeta. case_match; [left; destruct IH; [done|lia]|].
  case_match; [by left|]. destruct (ram_child_cases (walk_from nodes 0 cs) c) as [[-> _]|(i & -> & Hi & _)]; [by left|right; lia].
Qed.
(** Walking finds exactly the nodes of the tree. *)
Lemma walk_at_path cs i : at_path nodes n cs i <-> walk_from nodes 0 cs = i /\ 0 <= i.
Proof.
  revert i. induction cs as [|c cs IH] using rev_ind; intros i.
  - split; [inversion 1; subst; [done|destruct cs; discriminate]|intros [<- _]; apply at_root].
  - rewrite walk_snoc by lia. cbv zeta. split.
    + inversion 1 as [|cs' i' Hp Hi E]; [by destruct cs|]. apply app_inj_tail in E as [-> <-]. subst i'.
      destruct (proj1 (IH _) Hp) as [-> Hge]. rewrite (proj2 (Z.ltb_ge _ _)) by lia.
      destruct (no_parent _ _ Hok i Hi) as [_ ->]. cbn. split; [by apply ram_child_is|lia].
    + intros [E Hge]. destruct (Z.ltb_spec (walk_from nodes 0 cs) 0); [lia|]. destruct (n_directory _); cbn in E; [|unfold K_ENOENT in E; lia].
      destruct (ram_child_cases (walk_from nodes 0 cs) c) as [[E' _]|(j & E' & Hj & Hp & <-)]; [unfold K_ENOENT in E'; lia|].
      assert (j = i) as -> by congruence. apply at_child; [|done]. apply IH. by rewrite Hp.
Qed.
Lemma at_path_fun cs i j : at_path nodes n cs i -> at_path nodes n cs j -> i = j.
Proof. rewrite !walk_at_path. intros [<- _] [<- _]. done. Qed.
Lemma at_path_inj cs cs' i : at_path nodes n cs i -> at_path nodes n cs' i -> cs = cs'.
Proof.
  intros Ha. revert cs'. induction Ha as [|cs i Ha IH Hi]; intros cs'; inversion 1 as [|cs1 i' Hp Hi']; subst; [done|lia|lia|].
  f_equal. by apply IH.
Qed.
End Tree.

(** * A new node *)
Section New.
Context (nodes : table ram_node) (n : Z) (Hok : nodes_ok nodes n) (Hroom : n < MAX_NODES).
Context (p : Z) (Hp : 0 <= p < n) (Hdir : n_directory (nodes !!! p) = true) (name : cstr) (directory : bool).
Hypothesis Hnew : forall i, 0 < i < n -> n_parent (nodes !!! i) = p -> n_name (nodes !!! i) <> name.
Let nodes' := <[n := mk_node true directory p 0 1 0 name 0 0]> nodes.
Lemma new_old i : i <> n -> nodes' !!! i = nodes !!! i.
Proof. intros Hi. unfold nodes'. rewrite lookup_total_insert. by rewrite decide_False by auto. Qed.
Lemma new_new : nodes' !!! n = mk_node true directory p 0 1 0 name 0 0.
Proof. unfold nodes'. rewrite lookup_total_insert. by rewrite decide_True. Qed.
Lemma new_nodes_ok : nodes_ok nodes' (n + 1).
Proof.
  destruct Hok as [H1 H2 H3 H4 H5]. split.
  - lia.
  - intros i Hi. destruct (Z.eq_dec i n) as [->|Hne]; [rewrite new_new; cbn; symmetry; lia|]. rewrite new_old by done. rewrite H2 by done.
    apply Bool.eq_true_iff_eq. rewrite !Z.ltb_lt. lia.
  - rewrite new_old by lia. done.
  - intros i Hi. destruct (Z.eq_dec i n) as [->|Hne]; [rewrite new_new; cbn; rewrite new_old by lia; split; [lia|done]|].
    rewrite (new_old i) by done. destruct (H4 i ltac:(lia)) as [Hr Hd]. rewrite new_old by lia. done.
  - intros i j Hi Hj. destruct (Z.eq_dec i n) as [->|Hne], (Z.eq_dec j n) as [->|Hne']; [done|..]; rewrite ?new_new, ?new_old by done; cbn.
    + intros E1 E2. exfalso. by apply (Hnew j ltac:(lia)).
    + intros E1 E2. exfalso. by apply (Hnew i ltac:(lia)).
    + apply H5; lia.
Qed.
Lemma new_paths csp cs i : at_path nodes n csp p -> at_path nodes' (n + 1) cs i <-> at_path nodes n cs i \/ (cs = csp ++ [name] /\ i = n).
Proof.
  intros Hcsp. destruct Hok as [H1 H2 H3 H4 H5]. split.
  - induction 1 as [|cs i Ha IH Hi]; [left; apply at_root|]. destruct (Z.eq_dec i n) as [->|Hne].
    + right. rewrite new_new in *. cbn in *. destruct IH as [IH|[_ E]]; [|lia]. by rewrite (at_path_inj nodes n _ _ _ IH Hcsp).
    + left. rewrite !(new_old i) in * by done. destruct (H4 i ltac:(lia)) as [Hr _]. destruct IH as [IH|[_ E]]; [|lia]. apply at_child; [done|lia].
  - assert (forall cs i, at_path nodes n cs i -> at_path nodes' (n + 1) cs i) as Hup.
    { induction 1 as [|cs' j Ha IH Hj]; [apply at_root|]. rewrite <- (new_old j) in * by lia. apply at_child; [done|lia]. }
    intros [Ha|[-> ->]]; [by apply Hup|].
    change name with (n_name (mk_node true directory p 0 1 0 name 0 0)). rewrite <- new_new. apply at_child; [|lia].
    rewrite new_new. by apply Hup.
Qed.
End New.

(** * Paths as [ram_new] takes them apart *)
Lemma after_slash_spec a c k : Forall (fun x => x <> SLASH) c -> (k <= length c)%nat -> after_slash (a ++ SLASH :: c) (length a + 1 + k) = (length a + 1)%nat.
Proof.
  intros Hc. induction k as [|k IH]; intros Hk.
  - rewrite Nat.add_0_r, Nat.add_1_r. cbn [after_slash]. rewrite bool_decide_true; [done|]. by rewrite list_lookup_middle.
  - replace (length a + 1 + S k)%nat with (S (length a + 1 + k)) by lia. cbn [after_slash]. rewrite bool_decide_false; [apply IH; lia|].
    rewrite lookup_app_r by lia. replace (length a + 1 + k - length a)%nat with (S k) by lia. cbn. intros Hx.
    rewrite Forall_lookup in Hc. by apply (Hc _ _ Hx).
Qed.
Lemma split_render cs c : Forall valid_name (cs ++ [c]) -> let path := render (cs ++ [c]) in let split := after_slash path (length path) in
  drop split path = c /\ take (if (1 <? split)%nat then split - 1 else 1) path = render cs.
Proof.
  intros Hv. apply Forall_app in Hv as [Hcs Hc]. apply Forall_cons in Hc as [Hc _]. cbv zeta.
  set (a := if decide (cs = []) then [] else render cs).
  assert (render (cs ++ [c]) = a ++ SLASH :: c) as Er.
  { unfold a. rewrite (render_nonempty (cs ++ [c])) by (by destruct cs). rewrite join_app, join_one.
    case_decide; [by subst|]. by rewrite render_nonempty by done. }
  assert (length (a ++ SLASH :: c) = length a + 1 + length c)%nat as El by (rewrite length_app; cbn; lia).
  rewrite Er, El, after_slash_spec by (by apply valid_no_slash || lia). split.
  - rewrite drop_app_ge by lia. by replace (length a + 1 - length a)%nat with 1%nat by lia.
  - unfold a. case_decide as Hcase; [by subst|]. pose proof (render_pos cs) as Hpos. unfold zlen in Hpos.
    rewrite (proj2 (Nat.ltb_lt _ _)) by lia. replace (length (render cs) + 1 - 1)%nat with (length (render cs)) by lia. by rewrite take_app_length.
Qed.
Definition new_node (parent : Z) (name : cstr) (directory : bool) : ram_node := mk_node true directory parent 0 1 0 name 0 0.
(** The place for a new node: its parent is a directory that has no such child. *)
Record place (nodes : table ram_node) (n : Z) (csp : list cstr) (c : cstr) (p : Z) : Prop := {
  pl_parent : at_path nodes n csp p;
  pl_directory : n_directory (nodes !!! p) = true;
  pl_new : forall i, 0 < i < n -> n_parent (nodes !!! i) = p -> n_name (nodes !!! i) <> c }.
Inductive new_result (nodes : table ram_node) (n : Z) (directory : bool) : list cstr -> table ram_node * Z -> Prop :=
  | new_root : new_result nodes n directory [] (nodes, K_EEXIST)
  | new_orphan csp c : (forall p, at_path nodes n csp p -> n_directory (nodes !!! p) = false) -> new_result nodes n directory (csp ++ [c]) (nodes, K_ENOENT)
  | new_exists cs i : at_path nodes n cs i -> new_result nodes n directory cs (nodes, K_EEXIST)
  | new_full csp c p : place nodes n csp c p -> n = MAX_NODES -> new_result nodes n directory (csp ++ [c]) (nodes, K_ENOMEM)
  | new_made csp c p : place nodes n csp c p -> n < MAX_NODES ->
      new_result nodes n directory (csp ++ [c]) (<[n := new_node p c directory]> nodes, n).
Lemma ram_new_spec nodes n cs directory : nodes_ok nodes n -> Forall valid_name cs -> zlen (render cs) < K_PATH_MAX ->
  new_result nodes n directory cs (ram_new nodes (render cs) directory).
Proof.
  intros Hok Hv Hlen. unfold ram_new. rewrite take_ge by (unfold zlen in Hlen; lia). cbv zeta.
  induction cs as [|c csp _] using rev_ind; [apply new_root|].
  destruct (split_render csp c Hv) as [-> ->]. apply Forall_app in Hv as [Hvp Hvc]. apply Forall_cons in Hvc as [Hvc _].
  assert (1 < zlen (render (csp ++ [c]))) as Hgt.
  { rewrite render_snoc, !zlen_app by done. pose proof (render_pos csp). pose proof (valid_name_pos c Hvc).
    pose proof (zlen_nonneg (if 1 <? zlen (render csp) then [SLASH] else [])). lia. }
  rewrite (proj2 (Z.leb_gt _ _)) by lia. unfold ram_walk. rewrite components_render by done.
  set (p := walk_from nodes 0 csp). destruct (walk_none nodes n Hok csp) as [E|Hge].
  { fold p in E. rewrite E. cbn. apply new_orphan. intros q Hq. apply (walk_at_path nodes n Hok) in Hq as [E' Hq]. fold p in E'. rewrite <- E', E in Hq. done. }
  assert (at_path nodes n csp p) as Hp by (by apply (walk_at_path nodes n Hok)). pose proof (at_path_range nodes n Hok csp p Hp) as Hpr.
  rewrite (proj2 (Z.ltb_ge p 0)) by lia. destruct (n_directory (nodes !!! p)) eqn:Hd; cbn [negb orb].
  2: { apply new_orphan. intros q Hq. by rewrite (at_path_fun nodes n Hok csp q p Hq Hp). }
  destruct (ram_child_cases nodes n Hok p c) as [[-> Hnone]|(i & -> & Hi & Hip & Hic)].
  - cbn [Z.leb Z.compare]. destruct (find_range 1 MAX_NODES (fun i => negb (n_used (nodes !!! i)))) as [i|] eqn:Hf.
    + apply find_range_Some in Hf as (Hi & Hu & Hlow). rewrite (no_used _ _ Hok) in Hu by lia. apply negb_true_iff, Z.ltb_ge in Hu.
      pose proof (no_range _ _ Hok). assert (i = n) as ->.
      { destruct (Z.eq_dec i n) as [|Hne]; [done|]. specialize (Hlow n ltac:(lia)). rewrite (no_used _ _ Hok) in Hlow by lia. rewrite Z.ltb_irrefl in Hlow. done. }
      apply (new_made nodes n directory csp c p); [by split|lia].
    + apply (new_full nodes n directory csp c p); [by split|]. rewrite find_range_None in Hf. pose proof (no_range _ _ Hok).
      destruct (Z.eq_dec n MAX_NODES); [done|]. specialize (Hf n ltac:(lia)). rewrite (no_used _ _ Hok) in Hf by lia. by rewrite Z.ltb_irrefl in Hf.
  - rewrite (proj2 (Z.leb_le 0 i)) by lia. apply (new_exists nodes n directory (csp ++ [c]) i). rewrite <- Hic. apply at_child; [by rewrite Hip|done].
Qed.

(** * Blocks *)
Section Store.
Context {St : Type} `{PageSourceLaws St}.
Implicit Types (s : @ram_fs St) (ps : St).

(** Pages that are held: aligned, in range, managed and not available. *)
Record held ps (data pages : Z) : Prop := {
  hd_page : data mod 4096 = 0;
  hd_low : 0x100000 <= data;
  hd_pages : 0 < pages;
  hd_high : data + pages * 4096 <= PMM_MAX_PAGES * 4096;
  hd_owned : forall q, data / 4096 <= q < data / 4096 + pages -> pa_managed ps q = true /\ pa_available ps q = false }.
Definition apart (d1 n1 d2 n2 : Z) : Prop := d1 + n1 * 4096 <= d2 \/ d2 + n2 * 4096 <= d1.
(** A block, or none. *)
Definition block ps (data pages size : Z) : Prop :=
  0 <= size <= pages * 4096 /\ ((data = 0 /\ pages = 0) \/ held ps data pages).
Definition is_file (r : ram_node) : bool := negb (n_directory r) && (n_kind r =? 1).
Definition has_data (r : ram_node) : Prop := n_data r <> 0.
Record fs_ok s (n : Z) : Prop := {
  fs_nodes : nodes_ok (rf_nodes s) n;
  fs_source : pa_ok (rf_ps s);
  fs_ram : bytes_ok (rf_ram s);
  fs_file : forall i, 0 <= i < n -> is_file (rf_nodes s !!! i) = true -> let r := rf_nodes s !!! i in block (rf_ps s) (n_data r) (n_pages r) (n_size r);
  fs_other : forall i, 0 <= i < n -> is_file (rf_nodes s !!! i) = false -> n_data (rf_nodes s !!! i) = 0;
  fs_apart : forall i j, 0 <= i < n -> 0 <= j < n -> i <> j -> has_data (rf_nodes s !!! i) -> has_data (rf_nodes s !!! j) ->
    apart (n_data (rf_nodes s !!! i)) (n_pages (rf_nodes s !!! i)) (n_data (rf_nodes s !!! j)) (n_pages (rf_nodes s !!! j));
  fs_kind : forall i, 0 <= i < n -> n_kind (rf_nodes s !!! i) = 1 \/ (n_kind (rf_nodes s !!! i) = 3 /\ n_directory (rf_nodes s !!! i) = false) }.
(** What a node stands for. *)
Inductive object := Directory | File (data : list Z) | Device (id size : Z).
Definition object_of (ram : zmap) (r : ram_node) : object :=
  if n_directory r then Directory else if n_kind r =? 1 then File (bytes_at ram (n_data r) (n_size r)) else Device (n_block_id r) (n_size r).
(** The file system as a tree: the object at each path. *)
Definition tree s (cs : list cstr) : option object :=
  let i := ram_walk (rf_nodes s) (render cs) in if i <? 0 then None else Some (object_of (rf_ram s) (rf_nodes s !!! i)).

(** A block that no file has. *)
Definition fresh s (n data pages : Z) : Prop :=
  (data = 0 /\ pages = 0) \/
  (held (rf_ps s) data pages /\ forall i, 0 <= i < n -> has_data (rf_nodes s !!! i) -> apart data pages (n_data (rf_nodes s !!! i)) (n_pages (rf_nodes s !!! i))).
(** Memory of files that is left alone. *)
Lemma held_apart ps d1 n1 d2 n2 : d1 mod 4096 = 0 -> d2 mod 4096 = 0 -> 0 < n1 -> 0 < n2 ->
  (forall q, d1 / 4096 <= q < d1 / 4096 + n1 -> pa_available ps q = true) -> (forall q, d2 / 4096 <= q < d2 / 4096 + n2 -> pa_available ps q = false) ->
  apart d1 n1 d2 n2.
Proof.
  intros E1 E2 P1 P2 A1 A2. pose proof (Z.div_mod d1 4096 ltac:(lia)). pose proof (Z.div_mod d2 4096 ltac:(lia)). unfold apart.
  destruct (Z.le_gt_cases (d1 + n1 * 4096) d2); [by left|]. destruct (Z.le_gt_cases (d2 + n2 * 4096) d1); [by right|]. exfalso.
  set (q := Z.max (d1 / 4096) (d2 / 4096)). pose proof (A1 q ltac:(lia)). pose proof (A2 q ltac:(lia)). congruence.
Qed.
Lemma held_mono ps ps' data pages : (forall q, pa_managed ps' q = pa_managed ps q) -> (forall q, pa_available ps q = false -> pa_available ps' q = false) ->
  held ps data pages -> held ps' data pages.
Proof. intros Hm Ha [H1 H2 H3 H4 H5]. split; try done. intros q Hq. destruct (H5 q Hq) as [E1 E2]. rewrite Hm. auto. Qed.
Lemma block_mono ps ps' data pages size : (forall q, pa_managed ps' q = pa_managed ps q) -> (forall q, pa_available ps q = false -> pa_available ps' q = false) ->
  block ps data pages size -> block ps' data pages size.
Proof. intros Hm Ha [Hs [Hz|Hh]]; (split; [done|]); [by left|right; by eapply held_mono]. Qed.
Lemma file_held s n i : fs_ok s n -> 0 <= i < n -> has_data (rf_nodes s !!! i) -> held (rf_ps s) (n_data (rf_nodes s !!! i)) (n_pages (rf_nodes s !!! i)).
Proof.
  intros Hok Hi Hd. destruct (is_file (rf_nodes s !!! i)) eqn:Hf.
  - destruct (fs_file _ _ Hok i Hi Hf) as [_ [[E _]|Hh]]; [destruct (Hd E)|done].
  - destruct (Hd (fs_other _ _ Hok i Hi Hf)).
Qed.
(** The objects do not change when the memory changes only where no file is. *)
Lemma object_frame s n data pages ram' i : fs_ok s n -> 0 <= i < n -> 0 < pages ->
  (has_data (rf_nodes s !!! i) -> apart data pages (n_data (rf_nodes s !!! i)) (n_pages (rf_nodes s !!! i))) ->
  (forall a, ~ data <= a < data + pages * 4096 -> zget ram' a = zget (rf_ram s) a) ->
  object_of ram' (rf_nodes s !!! i) = object_of (rf_ram s) (rf_nodes s !!! i).
Proof.
  intros Hok Hi Hp Ha Hram. unfold object_of. destruct (n_directory _) eqn:Hd; [done|]. destruct (n_kind _ =? 1) eqn:Hk; [|done]. f_equal.
  assert (is_file (rf_nodes s !!! i) = true) as Hf by (unfold is_file; by rewrite Hd, Hk).
  destruct (fs_file _ _ Hok i Hi Hf) as [Hsize [[E0 E1]|Hh]]; cbn zeta in *.
  - rewrite E0. replace (n_size (rf_nodes s !!! i)) with 0 by lia. done.
  - unfold bytes_at. apply bytes_from_ext. intros a Hra. apply Hram. pose proof (hd_low _ _ _ Hh). destruct Ha; [unfold has_data; lia|lia..].
Qed.
Lemma fs_ok_pages s n ps' ram' : fs_ok s n -> pa_ok ps' -> bytes_ok ram' -> (forall q, pa_managed ps' q = pa_managed (rf_ps s) q) ->
  (forall q, pa_available (rf_ps s) q = false -> pa_available ps' q = false) -> fs_ok (s <| rf_ps := ps' |> <| rf_ram := ram' |>) n.
Proof. intros [H1 H2 H3 H4 H5 H6 H7] Hps Hram Hm Ha. split; cbn; try done. intros i Hi Hf. eapply block_mono; [done|done|]. by apply H4. Qed.
Lemma alloc_fresh s n pages ps' ram' data : fs_ok s n -> is_u32 pages -> pa_alloc (rf_ps s) (rf_ram s) pages 0 = (ps', ram', data) ->
  let s' := s <| rf_ps := ps' |> <| rf_ram := ram' |> in
  (data = 0 /\ s' = s) \/
  (data <> 0 /\ 0 < pages /\ fs_ok s' n /\ fresh s' n data pages /\ (forall a, data <= a < data + pages * 4096 -> zget ram' a = 0) /\
   forall i, 0 <= i < n -> object_of ram' (rf_nodes s !!! i) = object_of (rf_ram s) (rf_nodes s !!! i)).
Proof.
  intros Hok Hp He. cbv zeta. pose proof (fs_source _ _ Hok) as Hs.
  destruct (pa_alloc_law _ _ pages 0 _ _ _ Hs Hp ltac:(unfold is_u64; lia) He) as [Hs' [(-> & -> & ->)|(Hne & Hpos & G)]].
  { left. split; [done|]. by destruct s. }
  right. pose proof (grant_page _ _ _ _ _ _ G) as G1. pose proof (grant_low _ _ _ _ _ _ G) as G2. pose proof (grant_high _ _ _ _ _ _ G) as G3.
  assert (forall q, pa_available (rf_ps s) q = false -> pa_available ps' q = false) as Hav.
  { intros q Hq. rewrite (grant_after _ _ _ _ _ _ G). by case_match. }
  assert (forall i, 0 <= i < n -> has_data (rf_nodes s !!! i) -> apart data pages (n_data (rf_nodes s !!! i)) (n_pages (rf_nodes s !!! i))) as Hapart.
  { intros i Hi Hd. pose proof (file_held s n i Hok Hi Hd) as [K1 K2 K3 K4 K5]. apply (held_apart (rf_ps s)); try done; [apply (grant_before _ _ _ _ _ _ G)|].
    intros q Hq. by apply K5. }
  assert (forall a, ~ data <= a < data + pages * 4096 -> zget ram' a = zget (rf_ram s) a) as Hsame.
  { intros a Ha. rewrite (grant_ram _ _ _ _ _ _ G). rewrite (proj2 (andb_false_iff _ _)); [done|]. rewrite Z.leb_gt, Z.ltb_ge. lia. }
  split_and!; try done.
  - apply fs_ok_pages; try done; [|apply (grant_managed _ _ _ _ _ _ G)]. intros a. rewrite (grant_ram _ _ _ _ _ _ G). case_match; [unfold is_u8; lia|apply (fs_ram _ _ Hok)].
  - right. split; [|done]. cbn. split; try done. intros q Hq. rewrite (grant_managed _ _ _ _ _ _ G), (grant_after _ _ _ _ _ _ G).
    split; [apply pa_managed_law; [done|by apply (grant_before _ _ _ _ _ _ G)]|]. by rewrite (proj2 (Z.leb_le _ _)), (proj2 (Z.ltb_lt _ _)) by lia.
  - intros a Ha. rewrite (grant_ram _ _ _ _ _ _ G). by rewrite (proj2 (Z.leb_le _ _)), (proj2 (Z.ltb_lt _ _)) by lia.
  - intros i Hi. apply (object_frame s n data pages); auto.
Qed.
(** Freeing a block leaves the others held. *)
Lemma free_held ps data pages : pa_ok ps -> held ps data pages ->
  pa_ok (pa_free ps data pages) /\ forall d2 n2, apart data pages d2 n2 -> held ps d2 n2 -> held (pa_free ps data pages) d2 n2.
Proof.
  intros Hps [K1 K2 K3 K4 K5]. unfold PMM_MAX_PAGES in *.
  destruct (pa_free_law ps data pages Hps ltac:(unfold is_u64; lia) ltac:(unfold is_u32; lia) K3 K1 ltac:(unfold PMM_MAX_PAGES; lia) K5) as (F1 & F2 & F3).
  split; [done|]. intros d2 n2 Ha [L1 L2 L3 L4 L5]. split; try done. intros q Hq. rewrite F3, F2. destruct (L5 q Hq) as [M1 M2]. split; [done|].
  pose proof (Z.div_mod data 4096 ltac:(lia)). pose proof (Z.div_mod d2 4096 ltac:(lia)). rewrite (proj2 (andb_false_iff _ _)); [done|].
  rewrite Z.leb_gt, Z.ltb_ge. destruct Ha; lia.
Qed.
(** The block that an operation took and did not use is given back. *)
Lemma free_fresh s n data pages : fs_ok s n -> fresh s n data pages -> fs_ok (free_data data pages s) n /\
  rf_nodes (free_data data pages s) = rf_nodes s /\ rf_ram (free_data data pages s) = rf_ram s.
Proof.
  intros Hok [[-> ->]|[Hh Ha]]; [done|]. unfold free_data. destruct (Z.eqb_spec data 0) as [->|Hne]; [done|]. split; [|done].
  destruct (free_held _ _ _ (fs_source _ _ Hok) Hh) as [F1 F2]. destruct Hok as [H1 H2 H3 H4 H5 H6 H7]. split; cbn; try done.
  intros i Hi Hf. destruct (H4 i Hi Hf) as [Hs [Hz|Hd]]; (split; [done|]); [by left|right]. apply F2; [|done]. apply Ha; [done|].
  unfold has_data. pose proof (hd_low _ _ _ Hd). lia.
Qed.
(** The nodes are the same but for their data. *)
Definition same_tree (nodes nodes' : table ram_node) : Prop := forall i,
  n_used (nodes' !!! i) = n_used (nodes !!! i) /\ n_directory (nodes' !!! i) = n_directory (nodes !!! i) /\ n_parent (nodes' !!! i) = n_parent (nodes !!! i) /\
  n_name (nodes' !!! i) = n_name (nodes !!! i).
Lemma same_tree_ok nodes nodes' n : same_tree nodes nodes' -> nodes_ok nodes n -> nodes_ok nodes' n.
Proof.
  intros E [H1 H2 H3 H4 H5]. split; [done| | | |].
  - intros i Hi. destruct (E i) as (-> & _). by apply H2.
  - destruct (E 0) as (_ & -> & _). done.
  - intros i Hi. destruct (E i) as (_ & _ & -> & _). destruct (E (n_parent (nodes !!! i))) as (_ & -> & _). by apply H4.
  - intros i j Hi Hj. destruct (E i) as (_ & _ & -> & ->), (E j) as (_ & _ & -> & ->). by apply H5.
Qed.
Lemma same_tree_walk nodes nodes' at_ cs : same_tree nodes nodes' -> walk_from nodes' at_ cs = walk_from nodes at_ cs.
Proof.
  intros E. revert at_. induction cs as [|c cs IH]; intros at_; cbn; [done|]. destruct (E at_) as (_ & -> & _). destruct (n_directory _); [|done]. cbn.
  assert (ram_child nodes' at_ c = ram_child nodes at_ c) as ->; [|by destruct (_ <? 0)].
  unfold ram_child. f_equal. unfold find_range. generalize 1 (Z.to_nat (MAX_NODES - 1)). intros k m. revert k. induction m as [|m IHm]; intros k; cbn [find_loop]; [done|].
  unfold is_child at 1. destruct (E k) as (-> & _ & -> & ->). unfold is_child at 2. by rewrite IHm.
Qed.
Definition update (index data pages size : Z) (nodes : table ram_node) : table ram_node :=
  tmod index (fun r => r <| n_data := data |> <| n_size := size |> <| n_pages := pages |>) nodes.
Lemma update_same index data pages size nodes : same_tree nodes (update index data pages size nodes).
Proof. intros i. unfold update. rewrite tmod_lookup. by case_decide. Qed.
Lemma set_data_ok s n index data pages size : fs_ok s n -> 0 <= index < n -> is_file (rf_nodes s !!! index) = true ->
  fresh s n data pages -> 0 <= size <= pages * 4096 ->
  let s' := set_data index data pages size s in
  fs_ok s' n /\ rf_ram s' = rf_ram s /\ rf_nodes s' = update index data pages size (rf_nodes s).
Proof.
  intros Hok Hi Hf Hfresh Hsize. cbv zeta. unfold set_data. set (r := rf_nodes s !!! index). fold r in Hf.
  assert (exists ps', free_data (n_data r) (n_pages r) s = s <| rf_ps := ps' |> /\ pa_ok ps' /\
    forall d2 m2, (n_data r <> 0 -> apart (n_data r) (n_pages r) d2 m2) -> held (rf_ps s) d2 m2 -> held ps' d2 m2) as (ps' & -> & Hps' & Hheld).
  { unfold free_data. destruct (Z.eqb_spec (n_data r) 0) as [E|Hne].
    - exists (rf_ps s). split; [by destruct s|]. split; [apply (fs_source _ _ Hok)|done].
    - eexists. split; [reflexivity|]. destruct (free_held _ _ _ (fs_source _ _ Hok) (file_held s n index Hok Hi Hne)) as [F1 F2]. split; [done|]. intros d2 m2 Ha. by apply F2, Ha. }
  split; [|done]. destruct Hok as [H1 H2 H3 H4 H5 H6 H7]. fold (update index data pages size). split; cbn.
  - eapply same_tree_ok; [apply update_same|done].
  - done.
  - done.
  - intros i Hir. unfold update. rewrite tmod_lookup. case_decide as Hd.
    + intros _. cbn. split; [done|]. destruct Hfresh as [Hz|[Hh Ha]]; [by left|right]. apply Hheld; [|done]. intros Hne. destruct (Ha index Hi Hne); [by right|by left].
    + intros Hfi. destruct (H4 i Hir Hfi) as [Hs [Hz|Hh]]; (split; [done|]); [by left|right]. apply Hheld; [|done]. intros Hne. apply H6; try done.
      unfold has_data. pose proof (hd_low _ _ _ Hh). lia.
  - intros i Hir. unfold update. rewrite tmod_lookup. case_decide as Hd; [|by apply H5]. subst i. unfold is_file. cbn. unfold is_file, r in Hf. by rewrite Hf.
  - intros i j Hir Hjr Hne. unfold update. rewrite !tmod_lookup. unfold has_data. destruct (decide (index = i)) as [<-|Hn1], (decide (index = j)) as [<-|Hn2]; cbn; [done|..].
    + intros Hd1 Hd2. destruct Hfresh as [[Hz _]|[_ Ha]]; [done|]. by apply Ha.
    + intros Hd1 Hd2. destruct Hfresh as [[Hz _]|[_ Ha]]; [done|]. destruct (Ha i Hir Hd1); [by right|by left].
    + by apply H6.
  - intros i Hir. unfold update. rewrite tmod_lookup. case_decide; cbn; by apply H7.
Qed.
End Store.

(** * The abstract file system *)
Section Spec.
Abbreviation fs := (list cstr -> option object).
Implicit Types (t : fs).
Inductive ram_op := Put (cs : list cstr) (data : list Z) | Mkdir (cs : list cstr) | Create (cs : list cstr) | Write (cs : list cstr) (offset : Z) (data : list Z).
Definition op_path (op : ram_op) : list cstr := match op with Put cs _ | Mkdir cs | Create cs | Write cs _ _ => cs end.
Definition op_data (op : ram_op) : list Z := match op with Put _ data | Write _ _ data => data | _ => [] end.
(** [data] at [offset], after zeros when the file is shorter than that. *)
Definition splice (old : list Z) (offset : Z) (data : list Z) : list Z :=
  take (Z.to_nat offset) old ++ replicate (Z.to_nat (offset - zlen old)) 0 ++ data ++ drop (Z.to_nat (offset + zlen data)) old.
Definition new_at t (cs : list cstr) (o : object) : Z + object :=
  match t (removelast cs) with Some Directory => inr o | _ => inl K_ENOENT end.
(** The object that the operation leaves at its path, or the error. *)
Definition effect t (op : ram_op) : Z + object :=
  match op with
  | Put cs data => match t cs with None => new_at t cs (File data) | Some (File _) => inr (File data) | Some _ => inl K_EINVAL end
  | Mkdir cs => match t cs with None => new_at t cs Directory | Some _ => inl K_EEXIST end
  | Create cs => match t cs with None => new_at t cs (File []) | Some _ => inl K_EEXIST end
  | Write cs offset data =>
      match t cs with
      | None => inl K_ENOENT
      | Some Directory => inl K_EINVAL
      | Some (Device _ _) => inl K_EROFS
      | Some (File old) =>
          let offset := if offset =? 2 ^ 64 - 1 then zlen old else offset in
          if (WRITE_MAX <? zlen old) || (WRITE_MAX <? offset) || (WRITE_MAX - offset <? zlen data) then inl K_E2BIG
          else inr (File (if zlen data =? 0 then old else splice old offset data))
      end
  end.
Definition same_but t t' (cs : list cstr) : Prop := forall cs', Forall valid_name cs' -> cs' <> cs -> t' cs' = t cs'.
Inductive fs_step t (op : ram_op) : Z -> fs -> Prop :=
  | step_done o t' : effect t op = inr o -> t' (op_path op) = Some o -> same_but t t' (op_path op) -> fs_step t op 0 t'
  | step_refused e t' : effect t op = inl e -> (forall cs, Forall valid_name cs -> t' cs = t cs) -> fs_step t op e t'
  | step_full t' : (forall cs, Forall valid_name cs -> t' cs = t cs) -> fs_step t op K_ENOMEM t'.
End Spec.

Lemma splice_length old offset data : 0 <= offset -> zlen (splice old offset data) = Z.max (zlen old) (offset + zlen data).
Proof. intros Ho. unfold splice, zlen. rewrite !length_app, length_take, length_replicate, length_drop. lia. Qed.
Lemma splice_lookup old offset data k x : 0 <= offset -> splice old offset data !! k = Some x ->
  x = if (offset <=? Z.of_nat k) && (Z.of_nat k <? offset + zlen data) then data !!! Z.to_nat (Z.of_nat k - offset)
      else if Z.of_nat k <? zlen old then old !!! k else 0.
Proof.
  intros Ho. unfold splice, zlen. set (m := length (take (Z.to_nat offset) old)).
  assert (m = Nat.min (Z.to_nat offset) (length old)) as Em by apply length_take.
  destruct (Z.le_gt_cases offset (Z.of_nat k)) as [Hle|Hgt].
  - rewrite (proj2 (Z.leb_le _ _) Hle). rewrite lookup_app_r, lookup_app_r by (rewrite ?length_replicate; fold m; lia). rewrite length_replicate. fold m.
    replace (k - m - Z.to_nat (offset - Z.of_nat (length old)))%nat with (Z.to_nat (Z.of_nat k - offset)) by lia.
    destruct (Z.ltb_spec (Z.of_nat k) (offset + Z.of_nat (length data))) as [Hlt|Hge]; cbn [andb].
    + rewrite lookup_app_l by lia. intros Hx. symmetry. by apply list_lookup_total_correct.
    + rewrite lookup_app_r by lia. rewrite lookup_drop. intros Hx.
      replace (Z.to_nat (offset + Z.of_nat (length data)) + (Z.to_nat (Z.of_nat k - offset) - length data))%nat with k in Hx by lia.
      pose proof (lookup_lt_Some _ _ _ Hx). rewrite (proj2 (Z.ltb_lt _ _)) by lia. symmetry. by apply list_lookup_total_correct.
  - rewrite (proj2 (Z.leb_gt _ _)) by lia. cbn [andb]. destruct (Z.ltb_spec (Z.of_nat k) (Z.of_nat (length old))) as [Hlt|Hge].
    + rewrite lookup_app_l by (fold m; lia). rewrite lookup_take_lt by lia. intros Hx. symmetry. by apply list_lookup_total_correct.
    + rewrite lookup_app_r by (fold m; lia). rewrite lookup_app_l by (rewrite length_replicate; fold m; lia). fold m. intros Hx. by apply lookup_replicate in Hx as [-> _].
Qed.

Section Refinement.
Context {St : Type} `{PageSourceLaws St}.
Implicit Types (s : @ram_fs St).
(** The operations of the code: a write opens the file first, and a device refuses it before. *)
Definition exec s (op : ram_op) : @ram_fs St * Z :=
  match op with
  | Put cs data => ram_put s (render cs) data
  | Mkdir cs => ram_mkdir s (render cs)
  | Create cs => let '(s, r) := ram_create s (render cs) in (s, match r with inl e => e | inr _ => 0 end)
  | Write cs offset data =>
      match ram_open (rf_nodes s) (render cs) with
      | inl e => (s, e)
      | inr f =>
          if f_kind f =? 3 then (s, K_EROFS)
          else let '(s, _, r) := ram_write s f offset data in (s, match r with inl e => e | inr _ => 0 end)
      end
  end.
Lemma tree_at s n cs i : fs_ok s n -> Forall valid_name cs -> at_path (rf_nodes s) n cs i -> tree s cs = Some (object_of (rf_ram s) (rf_nodes s !!! i)).
Proof.
  intros Hok Hv Hp. unfold tree, ram_walk. rewrite components_render by done. apply (walk_at_path _ _ (fs_nodes _ _ Hok)) in Hp as [-> Hge].
  by rewrite (proj2 (Z.ltb_ge i 0)) by lia.
Qed.
Lemma tree_cases s n cs : fs_ok s n -> Forall valid_name cs ->
  (ram_walk (rf_nodes s) (render cs) = K_ENOENT /\ tree s cs = None /\ forall i, ~ at_path (rf_nodes s) n cs i) \/
  (exists i, ram_walk (rf_nodes s) (render cs) = i /\ 0 <= i < n /\ at_path (rf_nodes s) n cs i /\ tree s cs = Some (object_of (rf_ram s) (rf_nodes s !!! i))).
Proof.
  intros Hok Hv. pose proof (fs_nodes _ _ Hok) as Hn. unfold tree, ram_walk. rewrite components_render by done. destruct (walk_none _ _ Hn cs) as [E|Hge].
  - left. rewrite E. split_and!; [done|done|]. intros i [E' Hi]%(walk_at_path _ _ Hn). rewrite E in E'. unfold K_ENOENT in E'. lia.
  - right. exists (walk_from (rf_nodes s) 0 cs). assert (at_path (rf_nodes s) n cs (walk_from (rf_nodes s) 0 cs)) as Hp by (by apply (walk_at_path _ _ Hn)).
    split_and!; [done|apply (at_path_range _ _ Hn _ _ Hp)..|done|]. by rewrite (proj2 (Z.ltb_ge _ _)) by lia.
Qed.
(** The same nodes give the same tree. *)
Lemma tree_same s s' n cs : fs_ok s n -> Forall valid_name cs -> rf_nodes s' = rf_nodes s ->
  (forall i, 0 <= i < n -> object_of (rf_ram s') (rf_nodes s !!! i) = object_of (rf_ram s) (rf_nodes s !!! i)) -> tree s' cs = tree s cs.
Proof.
  intros Hok Hv En Eo. destruct (tree_cases s n cs Hok Hv) as [(E & -> & _)|(i & E & Hi & _ & ->)]; unfold tree; rewrite En, E; [done|].
  rewrite (proj2 (Z.ltb_ge i 0)) by lia. f_equal. by apply Eo.
Qed.
Lemma object_new ram p c directory : object_of ram (new_node p c directory) = if directory then Directory else File [].
Proof. by destruct directory. Qed.
Lemma new_ok s n csp c p directory : fs_ok s n -> Forall valid_name (csp ++ [c]) -> place (rf_nodes s) n csp c p -> n < MAX_NODES ->
  let s' := s <| rf_nodes := <[n := new_node p c directory]> (rf_nodes s) |> in
  fs_ok s' (n + 1) /\ at_path (rf_nodes s') (n + 1) (csp ++ [c]) n /\ tree s' (csp ++ [c]) = Some (if directory then Directory else File []) /\
  same_but (tree s) (tree s') (csp ++ [c]).
Proof.
  intros Hok Hv [P1 P2 P3] Hlt. cbv zeta. pose proof (fs_nodes _ _ Hok) as Hn. pose proof (no_range _ _ Hn) as Hr.
  pose proof (at_path_range _ _ Hn _ _ P1) as Hp. set (s' := s <| rf_nodes := _ |>).
  assert (forall i, i <> n -> rf_nodes s' !!! i = rf_nodes s !!! i) as Hold by (intros i Hi; by apply new_old).
  assert (rf_nodes s' !!! n = new_node p c directory) as Hnew by apply new_new.
  assert (fs_ok s' (n + 1)) as Hok'.
  { destruct Hok as [H1 H2 H3 H4 H5 H6 H7]. split; [by apply new_nodes_ok|done|done|..].
    - intros i Hi. destruct (Z.eq_dec i n) as [->|Hne]; [rewrite Hnew|rewrite Hold by done; apply H4; lia]. intros _. cbn. split; [lia|by left].
    - intros i Hi. destruct (Z.eq_dec i n) as [->|Hne]; [rewrite Hnew; done|rewrite Hold by done; apply H5; lia].
    - intros i j Hi Hj Hne. destruct (Z.eq_dec i n) as [->|N1]; [rewrite Hnew; intros Hd; destruct (Hd eq_refl)|]. destruct (Z.eq_dec j n) as [->|N2]; [rewrite Hnew; intros _ Hd; destruct (Hd eq_refl)|].
      rewrite !Hold by done. apply H6; [lia..|done].
    - intros i Hi. destruct (Z.eq_dec i n) as [->|Hne]; [rewrite Hnew; by left|rewrite Hold by done; apply H7; lia]. }
  pose proof (new_paths (rf_nodes s) n Hn p Hp c directory csp) as Hpaths.
  assert (at_path (rf_nodes s') (n + 1) (csp ++ [c]) n) as Hat by (apply Hpaths; [done|by right]).
  split_and!; [done|done| |].
  - rewrite (tree_at s' (n + 1) _ n Hok' Hv Hat). rewrite Hnew. by rewrite object_new.
  - intros cs' Hv' Hne. destruct (tree_cases s' (n + 1) cs' Hok' Hv') as [(_ & -> & Hnone)|(i & _ & Hi & Ha & ->)].
    + destruct (tree_cases s n cs' Hok Hv') as [(_ & -> & _)|(i & _ & _ & Ha & _)]; [done|]. destruct (Hnone i). apply Hpaths; [done|by left].
    + apply Hpaths in Ha as [Ha|[-> _]]; [|done|done]. rewrite (tree_at s n cs' i Hok Hv' Ha).
      rewrite Hold; [done|]. pose proof (at_path_range _ _ Hn _ _ Ha). lia.
Qed.
(** A file gets a new block with new contents. *)
Lemma store_ok s n cs index data pages size m' : fs_ok s n -> Forall valid_name cs -> at_path (rf_nodes s) n cs index ->
  is_file (rf_nodes s !!! index) = true -> fresh s n data pages -> 0 <= size <= pages * 4096 -> bytes_ok m' ->
  (forall a, ~ data <= a < data + pages * 4096 -> zget m' a = zget (rf_ram s) a) ->
  let s' := set_data index data pages size (s <| rf_ram := m' |>) in
  fs_ok s' n /\ tree s' cs = Some (File (bytes_at m' data size)) /\ same_but (tree s) (tree s') cs.
Proof.
  intros Hok Hv Hat Hf Hfresh Hsize Hm' Hsame. cbv zeta. pose proof (at_path_range _ _ (fs_nodes _ _ Hok) _ _ Hat) as Hi.
  assert (fs_ok (s <| rf_ram := m' |>) n) as Hok1 by (destruct Hok; by split).
  destruct (set_data_ok (s <| rf_ram := m' |>) n index data pages size Hok1 Hi Hf Hfresh Hsize) as (Hok' & Eram & Enodes).
  revert Hok' Eram Enodes. generalize (set_data index data pages size (s <| rf_ram := m' |>)). intros s' Hok' Eram Enodes. cbn in Eram, Enodes. pose proof (update_same index data pages size (rf_nodes s)) as Hst.
  assert (forall cs i, ram_walk (rf_nodes s') cs = i <-> ram_walk (rf_nodes s) cs = i) as Hwalk.
  { intros cs1 i. unfold ram_walk. rewrite Enodes, (same_tree_walk _ _ _ _ Hst). done. }
  assert (forall i, i <> index -> rf_nodes s' !!! i = rf_nodes s !!! i) as Hold by (intros i Hne; rewrite Enodes; unfold update; by rewrite tmod_ne).
  split; [done|]. destruct (tree_cases s n cs Hok Hv) as [(_ & _ & Hnone)|(i & E & _ & Hat' & _)]; [by destruct (Hnone index)|].
  rewrite (at_path_fun _ _ (fs_nodes _ _ Hok) _ _ _ Hat' Hat) in E. split.
  - unfold tree. rewrite (proj2 (Hwalk _ _) E), (proj2 (Z.ltb_ge index 0)) by lia. f_equal. rewrite Enodes, Eram. unfold update. rewrite tmod_eq.
    unfold object_of. cbn. unfold is_file in Hf. apply andb_true_iff in Hf as [Hf1 Hf2]. apply negb_true_iff in Hf1. by rewrite Hf1, Hf2.
  - intros cs' Hv' Hne. destruct (tree_cases s n cs' Hok Hv') as [(E' & -> & _)|(i' & E' & Hi' & Ha' & ->)]; unfold tree; rewrite (proj2 (Hwalk _ _) E'); [done|].
    rewrite (proj2 (Z.ltb_ge i' 0)) by lia. f_equal.
    assert (i' <> index) as Hni by (intros ->; apply Hne; by apply (at_path_inj _ _ _ _ _ Ha' Hat)). rewrite Hold by done. rewrite Eram.
    destruct Hfresh as [[-> ->]|[Hh Ha]]; [|by apply (object_frame s n data pages); auto; apply (hd_pages _ _ _ Hh)].
    unfold object_of. destruct (n_directory _) eqn:Hd; [done|]. destruct (n_kind _ =? 1) eqn:Hk; [|done]. f_equal. apply bytes_from_ext. intros a _. apply Hsame. lia.
Qed.
Lemma object_directory ram r : object_of ram r = Directory <-> n_directory r = true.
Proof. unfold object_of. destruct (n_directory r); [done|]. split; [|done]. by destruct (n_kind r =? 1). Qed.
Lemma new_at_place s n csp c p o : fs_ok s n -> Forall valid_name (csp ++ [c]) -> place (rf_nodes s) n csp c p -> new_at (tree s) (csp ++ [c]) o = inr o.
Proof.
  intros Hok Hv [P1 P2 _]. apply Forall_app in Hv as [Hv _]. unfold new_at. rewrite removelast_last, (tree_at s n csp p Hok Hv P1).
  by rewrite (proj2 (object_directory _ _) P2).
Qed.
Lemma new_at_orphan s n csp c o : fs_ok s n -> Forall valid_name (csp ++ [c]) -> (forall p, at_path (rf_nodes s) n csp p -> n_directory (rf_nodes s !!! p) = false) ->
  new_at (tree s) (csp ++ [c]) o = inl K_ENOENT.
Proof.
  intros Hok Hv Hp. apply Forall_app in Hv as [Hv _]. unfold new_at. rewrite removelast_last.
  destruct (tree_cases s n csp Hok Hv) as [(_ & -> & _)|(i & _ & _ & Ha & ->)]; [done|]. destruct (object_of _ _) eqn:E; [|done..].
  apply object_directory in E. rewrite (Hp i Ha) in E. done.
Qed.
Lemma data_pages_bounds size : 0 <= size <= WRITE_MAX -> size <= data_pages size * 4096 /\ is_u32 (data_pages size).
Proof.
  intros Hsize. unfold WRITE_MAX in Hsize. pose proof (Z.div_mod (size + 4095) 4096 ltac:(lia)). pose proof (Z.mod_pos_bound (size + 4095) 4096 ltac:(lia)).
  unfold data_pages, u32, is_u32. rewrite Z.mod_small by lia. lia.
Qed.
(** The block for [size] bytes that [ram_put] takes. *)
Lemma put_block s n size s1 data : fs_ok s n -> 0 <= size <= WRITE_MAX -> let pages := data_pages size in
  (if pages =? 0 then (s, 0) else let '(ps, ram, p) := pa_alloc (rf_ps s) (rf_ram s) pages 0 in (s <| rf_ps := ps |> <| rf_ram := ram |>, p)) = (s1, data) ->
  (negb (pages =? 0) && (data =? 0) = true /\ s1 = s) \/
  (negb (pages =? 0) && (data =? 0) = false /\ fs_ok s1 n /\ fresh s1 n data pages /\ 0 <= size <= pages * 4096 /\ rf_nodes s1 = rf_nodes s /\
   (forall a, data <= a < data + pages * 4096 -> zget (rf_ram s1) a = 0) /\
   forall i, 0 <= i < n -> object_of (rf_ram s1) (rf_nodes s !!! i) = object_of (rf_ram s) (rf_nodes s !!! i)).
Proof.
  intros Hok Hsize. cbv zeta. destruct (data_pages_bounds size Hsize) as [Hb Hu].
  destruct (Z.eqb_spec (data_pages size) 0) as [E|Hne]; cbn [negb andb].
  - intros [= <- <-]. right. rewrite E in *. split_and!; try done; try lia; by left.
  - destruct (pa_alloc _ _ _ _) as [[ps' ram'] p] eqn:Ea. intros [= <- <-].
    destruct (alloc_fresh s n _ _ _ _ Hok Hu Ea) as [[-> E]|(Hp & _ & A1 & A2 & A3 & A4)]; [by left|right]. rewrite (proj2 (Z.eqb_neq p 0)) by done. split_and!; done || lia.
Qed.
Lemma write_read data bytes m : bytes_at (write_bytes data bytes m) data (zlen bytes) = bytes.
Proof.
  apply list_eq_same_length with (n := length bytes); [done|unfold bytes_at, zlen; rewrite bytes_from_length; lia|]. intros k x y Hk.
  unfold bytes_at. rewrite bytes_from_lookup by (unfold zlen; lia). intros [= <-] Hy. rewrite write_bytes_get.
  rewrite (proj2 (Z.leb_le _ _)), (proj2 (Z.ltb_lt _ _)) by lia. cbn. replace (Z.to_nat (data + Z.of_nat k - data)) with k by lia. by apply list_lookup_total_correct.
Qed.
Lemma write_outside data bytes m pages a : zlen bytes <= pages * 4096 -> ~ data <= a < data + pages * 4096 -> zget (write_bytes data bytes m) a = zget m a.
Proof. intros Hl Ha. unfold zlen in Hl. rewrite write_bytes_get. rewrite (proj2 (andb_false_iff _ _)); [done|]. rewrite Z.leb_gt, Z.ltb_ge. lia. Qed.
Lemma put_step s n cs data s' e : fs_ok s n -> Forall valid_name cs -> zlen (render cs) < K_PATH_MAX -> Forall is_u8 data -> zlen data <= WRITE_MAX ->
  ram_put s (render cs) data = (s', e) -> exists n', fs_ok s' n' /\ fs_step (tree s) (Put cs data) e (tree s').
Proof.
  intros Hok Hv Hlen Hd Hmax. unfold ram_put. cbv zeta. set (pages := data_pages (zlen data)).
  pose proof (put_block s n (zlen data)) as Hblock. fold pages in Hblock. cbv zeta in Hblock.
  destruct (if pages =? 0 then _ else _) as [s1 p]. specialize (Hblock s1 p Hok ltac:(unfold zlen in *; lia) eq_refl).
  destruct (tree_cases s n cs Hok Hv) as [(E & Et & Hnone)|(i & E & Hi & Ha & Et)]; rewrite E.
  - cbn [Z.leb Z.compare andb K_ENOENT]. destruct Hblock as [[-> ->]|(-> & B1 & B2 & B3 & B4 & _ & B5)].
    { intros [= <- <-]. exists n. split; [done|]. by apply step_full. }
    assert (forall cs', Forall valid_name cs' -> tree s1 cs' = tree s cs') as Hs1 by (intros cs' Hv'; by apply (tree_same s s1 n)).
    assert (s1 <| rf_nodes := rf_nodes s |> = s1) as Hback by (rewrite <- B4; by destruct s1).
    change (K_ENOENT <? 0) with true. cbn iota. rewrite B4. pose proof (ram_new_spec (rf_nodes s) n cs false (fs_nodes _ _ Hok) Hv Hlen) as Hnew.
    destruct Hnew as [|csp c Ho|cs j Hj|csp c q Hpl Hfull|csp c q Hpl Hlt].
    + destruct (Hnone 0). apply at_root.
    + cbn. destruct (free_fresh s1 n p pages B1 B2) as (F1 & F2 & F3). rewrite Hback. intros [= <- <-]. exists n. split; [done|]. apply step_refused; [|].
      * cbn [effect]. rewrite Et. by apply (new_at_orphan s n).
      * intros cs' Hv'. rewrite <- Hs1 by done. unfold tree. by rewrite F2, F3.
    + destruct (Hnone j Hj).
    + cbn. destruct (free_fresh s1 n p pages B1 B2) as (F1 & F2 & F3). rewrite Hback. intros [= <- <-]. exists n. split; [done|]. apply step_full. intros cs' Hv'. rewrite <- Hs1 by done. unfold tree. by rewrite F2, F3.
    + pose proof (no_range _ _ (fs_nodes _ _ Hok)). rewrite (proj2 (Z.ltb_ge n 0)) by lia. intros [= <- <-].
      rewrite <- B4 in Hpl |- *. destruct (new_ok s1 n csp c q false B1 Hv Hpl Hlt) as (N1 & N2 & N3 & N4).
      clear Hback. set (s2 := s1 <| rf_nodes := _ |>) in *.
      assert (forall i, i <> n -> rf_nodes s2 !!! i = rf_nodes s1 !!! i) as Hold by (intros i Hi; by apply new_old).
      assert (rf_nodes s2 !!! n = new_node q c false) as Hnewn by apply new_new.
      assert (fresh s2 (n + 1) p pages) as Hfresh.
      { destruct B2 as [?|[Hh Hap]]; [by left|right]. split; [done|]. intros i Hi. destruct (Z.eq_dec i n) as [->|Hne].
        - unfold has_data. rewrite Hnewn. done.
        - rewrite Hold by done. apply Hap. lia. }
      exists (n + 1). destruct (store_ok s2 (n + 1) (csp ++ [c]) n p pages (zlen data) (write_bytes p data (rf_ram s2)) N1 Hv N2) as (S1 & S2 & S3); try done.
      { by rewrite Hnewn. } { apply write_bytes_ok; [done|apply (fs_ram _ _ N1)]. } { intros a Ha. apply (write_outside p data _ pages); [lia|done]. }
      rewrite write_read in S2. split; [exact S1|]. apply (step_done _ _ (File data)); [|exact S2|].
      * cbn [effect]. rewrite Et. rewrite B4 in Hpl. by apply (new_at_place s n csp c q).
      * intros cs' Hv' Hne. exact (eq_trans (S3 cs' Hv' Hne) (eq_trans (N4 cs' Hv' Hne) (Hs1 cs' Hv'))).
  - rewrite (proj2 (Z.leb_le 0 i)) by lia. cbn [andb]. destruct (is_file (rf_nodes s !!! i)) eqn:Hf.
    + assert (n_directory (rf_nodes s !!! i) = false /\ (n_kind (rf_nodes s !!! i) =? 1) = true) as [E1 E2].
      { unfold is_file in Hf. apply andb_true_iff in Hf as [E1 E2]. by apply negb_true_iff in E1. }
      rewrite E1, E2. cbn [negb orb]. unfold object_of in Et. rewrite E1, E2 in Et.
      destruct Hblock as [[-> ->]|(-> & B1 & B2 & B3 & B4 & _ & B5)].
      { intros [= <- <-]. exists n. split; [done|]. by apply step_full. }
      rewrite (proj2 (Z.ltb_ge i 0)) by lia. rewrite (proj2 (Z.ltb_ge i 0)) by lia. intros [= <- <-]. exists n.
      rewrite <- B4 in Ha, Hf. destruct (store_ok s1 n cs i p pages (zlen data) (write_bytes p data (rf_ram s1)) B1 Hv Ha Hf B2 B3) as (S1 & S2 & S3).
      { apply write_bytes_ok; [done|apply (fs_ram _ _ B1)]. } { intros a Hr. apply (write_outside p data _ pages); [lia|done]. }
      rewrite write_read in S2. split; [exact S1|]. apply (step_done _ _ (File data)); [|exact S2|].
      * cbn [effect]. by rewrite Et.
      * intros cs' Hv' Hne. refine (eq_trans (S3 cs' Hv' Hne) _). by apply (tree_same s s1 n).
    + assert (n_directory (rf_nodes s !!! i) || negb (n_kind (rf_nodes s !!! i) =? 1) = true) as ->.
      { unfold is_file in Hf. by destruct (n_directory _), (n_kind _ =? 1). }
      intros [= <- <-]. exists n. split; [done|]. apply step_refused; [|done]. cbn [effect]. rewrite Et. unfold object_of. unfold is_file in Hf.
      by destruct (n_directory _), (n_kind _ =? 1).
Qed.
(** A new, empty file or a directory. *)
Lemma make_step s n cs directory nodes e : fs_ok s n -> Forall valid_name cs -> zlen (render cs) < K_PATH_MAX ->
  ram_new (rf_nodes s) (render cs) directory = (nodes, e) -> let s' := s <| rf_nodes := nodes |> in let o := if directory then Directory else File [] in
  (e < 0 /\ s' = s /\ (e = K_ENOMEM \/ e = match tree s cs with Some _ => K_EEXIST | None => match new_at (tree s) cs o with inl e => e | inr _ => 0 end end)) \/
  (0 <= e /\ fs_ok s' (n + 1) /\ at_path nodes (n + 1) cs e /\ tree s cs = None /\ new_at (tree s) cs o = inr o /\ tree s' cs = Some o /\ same_but (tree s) (tree s') cs).
Proof.
  intros Hok Hv Hlen Hnew. pose proof (ram_new_spec (rf_nodes s) n cs directory (fs_nodes _ _ Hok) Hv Hlen) as Hr. rewrite Hnew in Hr. cbv zeta.
  assert (s <| rf_nodes := rf_nodes s |> = s) as Hback by (by destruct s).
  inversion Hr as [E1 E2|csp c Ho E1 E2|cs1 j Hj E1 E2|csp c q Hpl Hfull E1 E2|csp c q Hpl Hlt E1 E2]; subst nodes e.
  - left. rewrite Hback. split_and!; [done|done|right]. by rewrite (tree_at s n [] 0 Hok (Forall_nil_2 _) (at_root _ _)).
  - left. rewrite Hback. split_and!; [done|done|right]. subst cs. rewrite (new_at_orphan s n) by done.
    destruct (tree_cases s n (csp ++ [c]) Hok Hv) as [(_ & -> & _)|(i & _ & _ & Ha & _)]; [done|]. exfalso.
    inversion Ha as [|cs' i' Hp Hi E]; [by destruct csp|]. apply app_inj_tail in E as [-> <-]. subst i'.
    destruct (no_parent _ _ (fs_nodes _ _ Hok) i Hi) as [_ Hdir]. by rewrite (Ho _ Hp) in Hdir.
  - left. rewrite Hback. split_and!; [done|done|right]. by rewrite (tree_at s n cs j).
  - left. rewrite Hback. split_and!; [done|done|by left].
  - right. subst cs. pose proof (no_range _ _ (fs_nodes _ _ Hok)). destruct (new_ok s n csp c q directory Hok Hv Hpl Hlt) as (N1 & N2 & N3 & N4).
    split_and!; [lia|exact N1|exact N2| |by apply (new_at_place s n csp c q)|exact N3|exact N4].
    destruct (tree_cases s n (csp ++ [c]) Hok Hv) as [(_ & -> & _)|(i & _ & _ & Ha & _)]; [done|]. exfalso. destruct Hpl as [P1 _ P3].
    inversion Ha as [|cs' i' Hp Hi E]; [by destruct csp|]. apply app_inj_tail in E as [-> E]. subst i'. apply (P3 i Hi); [|done].
    apply (at_path_fun _ _ (fs_nodes _ _ Hok) _ _ _ Hp P1).
Qed.
Lemma mkdir_step s n cs s' e : fs_ok s n -> Forall valid_name cs -> zlen (render cs) < K_PATH_MAX ->
  ram_mkdir s (render cs) = (s', e) -> exists n', fs_ok s' n' /\ fs_step (tree s) (Mkdir cs) e (tree s').
Proof.
  intros Hok Hv Hlen. unfold ram_mkdir. destruct (ram_new _ _ _) as [nodes r] eqn:Hnew. intros [= <- <-].
  destruct (make_step s n cs true nodes r Hok Hv Hlen Hnew) as [(Hr & -> & He)|(Hr & N1 & _ & N2 & N3 & N4 & N5)].
  - exists n. rewrite (proj2 (Z.leb_gt 0 r)) by lia. split; [done|]. destruct He as [-> | ->]; [by apply step_full|]. apply step_refused; [|done]. cbn [effect].
    destruct (tree s cs); [done|]. destruct (new_at _ _ _); [done|lia].
  - exists (n + 1). rewrite (proj2 (Z.leb_le 0 r)) by lia. split; [done|]. apply (step_done _ _ Directory); [|done..]. cbn [effect]. by rewrite N2.
Qed.
Lemma open_at s n cs i : fs_ok s n -> Forall valid_name cs -> at_path (rf_nodes s) n cs i -> ram_open (rf_nodes s) (render cs) =
  let r := rf_nodes s !!! i in inr (mk_file (n_kind r) (if n_kind r =? 3 then n_block_id r else i) 0 (if n_directory r then 0x10 else 0) (n_size r) 0).
Proof.
  intros Hok Hv Ha. unfold ram_open, ram_walk. rewrite components_render by done. destruct (proj1 (walk_at_path _ _ (fs_nodes _ _ Hok) _ _) Ha) as [-> Hge].
  by rewrite (proj2 (Z.ltb_ge i 0)) by lia.
Qed.
Lemma create_step s n cs s' e : fs_ok s n -> Forall valid_name cs -> zlen (render cs) < K_PATH_MAX ->
  exec s (Create cs) = (s', e) -> exists n', fs_ok s' n' /\ fs_step (tree s) (Create cs) e (tree s').
Proof.
  intros Hok Hv Hlen. cbn [exec]. unfold ram_create. destruct (ram_new _ _ _) as [nodes r] eqn:Hnew.
  destruct (make_step s n cs false nodes r Hok Hv Hlen Hnew) as [(Hr & Es & He)|(Hr & N1 & Na & N2 & N3 & N4 & N5)].
  - rewrite (proj2 (Z.leb_gt 0 r)) by lia. intros [= <- <-]. exists n. split; [done|]. destruct He as [-> | ->]; [by apply step_full|]. apply step_refused; [|done]. cbn [effect].
    destruct (tree s cs); [done|]. destruct (new_at _ _ _); [done|lia].
  - rewrite (proj2 (Z.leb_le 0 r)) by lia. change nodes with (rf_nodes (s <| rf_nodes := nodes |>)) at 2. rewrite (open_at _ _ cs r N1 Hv Na). intros [= <- <-]. exists (n + 1).
    split; [done|]. apply (step_done _ _ (File [])); [|done..]. cbn [effect]. by rewrite N2.
Qed.
Lemma write_spliced ram image old_at size_old offset data : 0 <= offset -> 0 <= size_old -> let size := Z.max size_old (offset + zlen data) in
  (size_old = 0 \/ image + size_old <= old_at \/ old_at + size_old <= image) ->
  (forall a, image <= a < image + size -> zget ram a = 0) ->
  bytes_at (write_bytes (image + offset) data (mem_copy ram image old_at size_old)) image size = splice (bytes_at ram old_at size_old) offset data.
Proof.
  intros Ho Hs. cbv zeta. intros Hap Hz.
  assert (zlen (bytes_at ram old_at size_old) = size_old) as Hl by (unfold zlen, bytes_at; rewrite bytes_from_length; lia).
  apply list_eq_same_length with (n := Z.to_nat (Z.max size_old (offset + zlen data))).
  - pose proof (splice_length (bytes_at ram old_at size_old) offset data Ho) as Hsl. rewrite Hl in Hsl. unfold zlen in *. lia.
  - unfold bytes_at. by rewrite bytes_from_length.
  - intros k x y Hk Hx Hy. apply splice_lookup in Hy; [|done]. rewrite Hl in Hy. subst y.
    unfold bytes_at in Hx. rewrite bytes_from_lookup in Hx by done. injection Hx as <-. rewrite write_bytes_get. fold (zlen data).
    replace (image + Z.of_nat k - (image + offset)) with (Z.of_nat k - offset) by lia.
    destruct (decide (offset <= Z.of_nat k < offset + zlen data)) as [Hin|Hout].
    + rewrite !(proj2 (andb_true_iff _ _)) by (split; [apply Z.leb_le|apply Z.ltb_lt]; lia). done.
    + rewrite !(proj2 (andb_false_iff _ _)) by (rewrite Z.leb_gt, Z.ltb_ge; lia). rewrite mem_copy_spec; [|lia|lia].
      destruct (Z.ltb_spec (Z.of_nat k) size_old) as [Hlt|Hge].
      * rewrite (proj2 (andb_true_iff _ _)) by (split; [apply Z.leb_le|apply Z.ltb_lt]; lia). symmetry. apply list_lookup_total_correct.
        unfold bytes_at. rewrite bytes_from_lookup by lia. f_equal. f_equal. lia.
      * rewrite (proj2 (andb_false_iff _ _)) by (rewrite Z.leb_gt, Z.ltb_ge; lia). apply Hz. lia.
Qed.
Lemma file_block s n i : fs_ok s n -> 0 <= i < n -> is_file (rf_nodes s !!! i) = true -> 0 <= n_size (rf_nodes s !!! i) /\
  (n_size (rf_nodes s !!! i) = 0 \/ (has_data (rf_nodes s !!! i) /\ n_size (rf_nodes s !!! i) <= n_pages (rf_nodes s !!! i) * 4096)).
Proof.
  intros Hok Hi Hf. destruct (fs_file _ _ Hok i Hi Hf) as [Hs [[E0 E1]|Hh]]; cbn zeta in *; [lia|]. split; [lia|right]. split; [|lia].
  unfold has_data. pose proof (hd_low _ _ _ Hh). lia.
Qed.
(** A write to a file, without the handle. *)
Definition write_file s (i offset : Z) (data : list Z) : @ram_fs St * Z :=
  let r := rf_nodes s !!! i in
  let o := if offset =? 2 ^ 64 - 1 then n_size r else offset in
  if (WRITE_MAX <? n_size r) || (WRITE_MAX <? o) || (WRITE_MAX - o <? zlen data) then (s, K_E2BIG)
  else if zlen data =? 0 then (s, 0)
  else
    let size := Z.max (n_size r) (o + zlen data) in
    let '(ps, ram, image) := pa_alloc (rf_ps s) (rf_ram s) (data_pages size) 0 in
    let s := s <| rf_ps := ps |> <| rf_ram := ram |> in
    if image =? 0 then (s, K_ENOMEM)
    else (set_data i image (data_pages size) size (s <| rf_ram := write_bytes (image + o) data (mem_copy ram image (n_data r) (n_size r)) |>), 0).
Lemma ram_write_file s n f offset data : fs_ok s n -> 0 <= f_object f < n -> is_file (rf_nodes s !!! f_object f) = true -> f_attributes f = 0 ->
  (let '(s, _, r) := ram_write s f offset data in (s, match r with inl e => e | inr _ => 0 end)) = write_file s (f_object f) offset data.
Proof.
  intros Hok Hi Hf Ha. pose proof (no_range _ _ (fs_nodes _ _ Hok)) as Hn. unfold ram_write, write_file. cbv zeta.
  rewrite (proj2 (Z.leb_gt _ _)) by lia. rewrite (no_used _ _ (fs_nodes _ _ Hok)) by lia. rewrite (proj2 (Z.ltb_lt _ n)) by lia.
  set (r := rf_nodes s !!! f_object f) in *. apply andb_true_iff in Hf as [Hf1 Hf2]. apply negb_true_iff in Hf1. rewrite Hf1, Hf2.
  change (f_attributes (f <| f_size := n_size r |>)) with (f_attributes f). rewrite Ha. change (f_size (f <| f_size := n_size r |>)) with (n_size r).
  change (f_object (f <| f_size := n_size r |>)) with (f_object f). cbn [negb orb Z.land Z.eqb].
  set (o := if offset =? 2 ^ 64 - 1 then n_size r else offset). destruct (_ || _ || _); [done|]. destruct (zlen data =? 0); [done|].
  replace (if o + zlen data <? n_size r then n_size r else o + zlen data) with (Z.max (n_size r) (o + zlen data)) by (destruct (Z.ltb_spec (o + zlen data) (n_size r)); lia).
  destruct (pa_alloc _ _ _ _) as [[ps ram] image]. by destruct (image =? 0).
Qed.
Lemma write_file_step s n cs i offset data s' e : fs_ok s n -> Forall valid_name cs -> Forall is_u8 data -> is_u64 offset ->
  at_path (rf_nodes s) n cs i -> is_file (rf_nodes s !!! i) = true ->
  write_file s i offset data = (s', e) -> exists n', fs_ok s' n' /\ fs_step (tree s) (Write cs offset data) e (tree s').
Proof.
  intros Hok Hv Hd Hoff Ha Hf. pose proof (at_path_range _ _ (fs_nodes _ _ Hok) _ _ Ha) as Hi. pose proof (tree_at s n cs i Hok Hv Ha) as Et.
  unfold write_file. set (r := rf_nodes s !!! i) in *. cbv zeta.
  assert (n_directory r = false /\ (n_kind r =? 1) = true) as [Hdir E1].
  { pose proof Hf as Hf'. unfold is_file in Hf'. apply andb_true_iff in Hf' as [F1 F2]. by apply negb_true_iff in F1. }
  assert (object_of (rf_ram s) r = File (bytes_at (rf_ram s) (n_data r) (n_size r))) as Eo by (unfold object_of; by rewrite Hdir, E1).
  destruct (file_block s n i Hok Hi Hf) as [Hs0 Hsd]. fold r in Hs0, Hsd.
  assert (zlen (bytes_at (rf_ram s) (n_data r) (n_size r)) = n_size r) as Hl by (unfold zlen, bytes_at; rewrite bytes_from_length; lia).
  fold r in Et. rewrite Eo in Et. set (old := bytes_at (rf_ram s) (n_data r) (n_size r)) in *.
  assert (effect (tree s) (Write cs offset data) = let offset := if offset =? 2 ^ 64 - 1 then n_size r else offset in
    if (WRITE_MAX <? n_size r) || (WRITE_MAX <? offset) || (WRITE_MAX - offset <? zlen data) then inl K_E2BIG
    else inr (File (if zlen data =? 0 then old else splice old offset data))) as Heff by (cbn [effect]; by rewrite Et, Hl).
  cbv zeta in Heff. set (o := if offset =? 2 ^ 64 - 1 then n_size r else offset) in *.
  assert (0 <= o) as Ho by (unfold o, is_u64 in *; destruct (offset =? _); lia).
  destruct ((WRITE_MAX <? n_size r) || (WRITE_MAX <? o) || (WRITE_MAX - o <? zlen data)) eqn:Hbig.
  { intros [= <- <-]. exists n. split; [done|]. by apply step_refused. }
  apply orb_false_iff in Hbig as [[Hb1 Hb2]%orb_false_iff Hb3]. destruct (Z.eqb_spec (zlen data) 0) as [Ez|Nz].
  { intros [= <- <-]. exists n. split; [done|]. by apply (step_done _ _ (File old)). }
  set (size := Z.max (n_size r) (o + zlen data)) in *. assert (0 < size <= WRITE_MAX) as Hsize by (unfold size, zlen in *; lia).
  destruct (data_pages_bounds size ltac:(lia)) as [Hpages Hu].
  destruct (pa_alloc _ _ _ _) as [[ps' ram'] image] eqn:Ea.
  destruct (alloc_fresh s n _ _ _ _ Hok Hu Ea) as [[-> Es1]|(Hp & Hpos & A1 & A2 & A3 & A4)].
  { rewrite Es1. cbn. intros [= <- <-]. exists n. split; [done|]. by apply step_full. }
  rewrite (proj2 (Z.eqb_neq image 0)) by done. intros [= <- <-]. exists n. set (s1 := s <| rf_ps := ps' |> <| rf_ram := ram' |>) in *.
  destruct A2 as [[? _]|[Hh Hall]]; [done|]. pose proof (Hall i Hi) as Hap. change (rf_nodes s1) with (rf_nodes s) in Hap. fold r in Hap.
  assert (bytes_at ram' (n_data r) (n_size r) = old) as Eold.
  { specialize (A4 i Hi). fold r in A4. unfold object_of in A4. rewrite Hdir, E1 in A4. by injection A4. }
  set (m' := write_bytes (image + o) data (mem_copy ram' image (n_data r) (n_size r))).
  assert (forall a, zget m' a = if (image + o <=? a) && (a <? image + o + zlen data) then data !!! Z.to_nat (a - (image + o))
            else if (image <=? a) && (a <? image + n_size r) then zget ram' (n_data r + (a - image)) else zget ram' a) as Hm.
  { intros a. unfold m'. rewrite write_bytes_get. fold (zlen data). rewrite mem_copy_spec; [done|lia|].
    destruct Hsd as [->|[Hd1 Hd2]]; [lia|]. destruct (Hap Hd1); lia. }
  destruct (store_ok s1 n cs i image (data_pages size) size m' A1 Hv Ha Hf) as (S1 & S2 & S3).
  { by right. } { lia. }
  { intros a. rewrite Hm. case_match eqn:Hc; [|case_match; apply (fs_ram _ _ A1)]. apply andb_true_iff in Hc as [Hc1 Hc2]. rewrite Forall_lookup in Hd.
    apply (Hd (Z.to_nat (a - (image + o)))). apply list_lookup_lookup_total_lt. unfold zlen in *. lia. }
  { intros a Hr. rewrite Hm. rewrite !(proj2 (andb_false_iff _ _)); [done|..]; rewrite Z.leb_gt, Z.ltb_ge; lia. }
  split; [exact S1|]. apply (step_done _ _ (File (splice old o data))); [exact Heff| |].
  - cbn [op_path]. rewrite <- Eold. rewrite <- (write_spliced ram' image); [exact S2|done|done| |].
    + destruct Hsd as [->|[Hd1 Hd2]]; [by left|right]. destruct (Hap Hd1); lia.
    + intros a Hr. apply A3. unfold size in *. lia.
  - intros cs' Hv' Hne. refine (eq_trans (S3 cs' Hv' Hne) _). by apply (tree_same s s1 n).
Qed.
Lemma write_step s n cs offset data s' e : fs_ok s n -> Forall valid_name cs -> Forall is_u8 data -> is_u64 offset ->
  exec s (Write cs offset data) = (s', e) -> exists n', fs_ok s' n' /\ fs_step (tree s) (Write cs offset data) e (tree s').
Proof.
  intros Hok Hv Hd Hoff. cbn [exec]. pose proof (no_range _ _ (fs_nodes _ _ Hok)) as Hn.
  destruct (tree_cases s n cs Hok Hv) as [(E & Et & _)|(i & E & Hi & Ha & Et)].
  { unfold ram_open. rewrite E. cbn. intros [= <- <-]. exists n. split; [done|]. apply step_refused; [|done]. cbn [effect]. by rewrite Et. }
  rewrite (open_at s n cs i Hok Hv Ha). set (r := rf_nodes s !!! i) in *. cbv zeta. cbn [f_kind]. destruct (Z.eqb_spec (n_kind r) 3) as [E3|N3].
  - intros [= <- <-]. exists n. split; [done|]. apply step_refused; [|done]. cbn [effect]. rewrite Et. unfold object_of. fold r. rewrite E3.
    destruct (fs_kind _ _ Hok i Hi) as [Hk|[_ Hk]]; fold r in Hk; [lia|]. by rewrite Hk.
  - assert (n_kind r = 1) as E1 by (destruct (fs_kind _ _ Hok i Hi) as [Hk|[Hk _]]; fold r in Hk; lia).
    assert (effect (tree s) (Write cs offset data) = match object_of (rf_ram s) r with File old => effect (tree s) (Write cs offset data) | _ => inl K_EINVAL end) as Heff.
    { cbn [effect]. rewrite Et. fold r. unfold object_of. rewrite E1. cbn. by destruct (n_directory r). }
    destruct (n_directory r) eqn:Hdir.
    { unfold ram_write. cbn [f_object]. rewrite (proj2 (Z.leb_gt _ _)) by lia. rewrite (no_used _ _ (fs_nodes _ _ Hok)) by lia.
      rewrite (proj2 (Z.ltb_lt i n)) by lia. fold r. rewrite Hdir, E1. cbn. intros [= <- <-]. exists n. split; [done|].
      apply step_refused; [|done]. rewrite Heff. unfold object_of. by rewrite Hdir. }
    assert (is_file r = true) as Hf by (unfold is_file; by rewrite Hdir, E1).
    rewrite (ram_write_file s n) by (try exact Hok; try exact Hf; done). cbn [f_object].
    apply (write_file_step s n cs i); done.
Qed.
(** An operation as [Vfs] calls it: a canonical path that fits, bytes, a 64-bit offset and no more than [WRITE_MAX] bytes. *)
Record op_ok (op : ram_op) : Prop := {
  op_names : Forall valid_name (op_path op);
  op_length : zlen (render (op_path op)) < K_PATH_MAX;
  op_bytes : Forall is_u8 (op_data op);
  op_size : zlen (op_data op) <= WRITE_MAX;
  op_offset : match op with Write _ offset _ => is_u64 offset | _ => True end }.
Lemma exec_step s n op s' e : fs_ok s n -> op_ok op -> exec s op = (s', e) -> exists n', fs_ok s' n' /\ fs_step (tree s) op e (tree s').
Proof.
  intros Hok [O1 O2 O3 O4 O5] He. destruct op; cbn [op_path op_data] in *.
  - by apply (put_step s n).
  - by apply (mkdir_step s n).
  - by apply (create_step s n).
  - by apply (write_step s n).
Qed.
Definition run s (ops : list ram_op) : @ram_fs St := fold_left (fun s op => fst (exec s op)) ops s.
Lemma run_same s n ops cs : fs_ok s n -> Forall op_ok ops -> Forall valid_name cs -> Forall (fun op => op_path op <> cs) ops ->
  exists n', fs_ok (run s ops) n' /\ tree (run s ops) cs = tree s cs.
Proof.
  intros Hok Hops Hv Hne. revert s n Hok. induction Hops as [|op ops Ho _ IH]; intros s n Hok; [by exists n|]. change (run s (op :: ops)) with (run (fst (exec s op)) ops).
  apply Forall_cons in Hne as [Hn Hne]. destruct (exec s op) as [s' e] eqn:E. destruct (exec_step s n op s' e Hok Ho E) as (n1 & Hok1 & Hst). cbn.
  destruct (IH Hne s' n1 Hok1) as (n2 & Hok2 & Et). exists n2. split; [done|]. rewrite Et.
  inversion Hst as [o t' H1 H2 H3|e' t' H1 H2|t' H1]; subst; [apply H3; [done|congruence]|by apply H2|by apply H1].
Qed.
Lemma open_read s n cs data : fs_ok s n -> Forall valid_name cs -> tree s cs = Some (File data) ->
  exists f, ram_open (rf_nodes s) (render cs) = inr f /\ f_kind f = 1 /\ f_size f = zlen data /\
    forall offset count, 0 <= offset -> 0 <= count -> ram_read s (f_object f) offset count = inr (take (Z.to_nat count) (drop (Z.to_nat offset) data)).
Proof.
  intros Hok Hv Ht. pose proof (no_range _ _ (fs_nodes _ _ Hok)) as Hn. destruct (tree_cases s n cs Hok Hv) as [(_ & E & _)|(i & _ & Hi & Ha & E)]; [congruence|].
  rewrite (open_at s n cs i Hok Hv Ha). eexists. split; [reflexivity|]. cbn [f_kind f_size f_object]. rewrite Ht in E. unfold object_of in E.
  set (r := rf_nodes s !!! i) in *. destruct (n_directory r) eqn:Hd; [done|]. destruct (Z.eqb_spec (n_kind r) 1) as [E1|]; [|done]. rewrite E1 in *. cbn [Z.eqb Pos.eqb].
  assert (is_file r = true) as Hf by (unfold is_file; by rewrite Hd, E1). destruct (file_block s n i Hok Hi Hf) as [Hs _]. fold r in Hs. injection E as ->.
  split_and!; [done|unfold zlen, bytes_at; rewrite bytes_from_length; lia|]. intros offset count Ho Hc. unfold ram_read. rewrite (proj2 (Z.leb_gt _ _)) by lia.
  rewrite (no_used _ _ (fs_nodes _ _ Hok)) by lia. rewrite (proj2 (Z.ltb_lt i n)) by lia. cbn [negb orb]. fold r. unfold bytes_at. f_equal.
  destruct (Z.ltb_spec offset (n_size r)) as [Hlt|Hge].
  - rewrite <- (bytes_from_sub (zget (rf_ram s)) (n_data r) (n_size r) offset (Z.min count (n_size r - offset))) by lia.
    destruct (Z.le_gt_cases count (n_size r - offset)) as [Hle|Hgt]; [by rewrite Z.min_l by lia|]. rewrite Z.min_r by lia.
    by rewrite !take_ge by (rewrite length_drop, bytes_from_length; lia).
  - rewrite drop_ge by (rewrite bytes_from_length; lia). by rewrite take_nil.
Qed.
(** The file system that [k_vfs_init] makes of a zeroed table. *)
Lemma ram_init_ok ps ram : pa_ok ps -> bytes_ok ram -> let s := fst (fst (k_vfs_init false (mk_ram_fs ∅ ps ram))) in
  fs_ok s 1 /\ tree s [] = Some Directory /\ forall c cs, Forall valid_name (c :: cs) -> tree s (c :: cs) = None.
Proof.
  intros Hps Hram. cbv zeta. cbn [k_vfs_init fst]. set (s := _ <| rf_nodes ::= _ |>).
  assert (forall i, rf_nodes s !!! i = if decide (0 = i) then mk_node true true 0 0 1 0 [] 0 0 else node0) as Hg.
  { intros i. change (rf_nodes s) with (tmod 0 (fun r => r <| n_used := true |> <| n_directory := true |> <| n_kind := 1 |>) (∅ : table ram_node)).
    rewrite tmod_lookup. by case_decide; subst. }
  assert (fs_ok s 1) as Hok.
  { split; try done; try (intros i Hi; assert (i = 0) as -> by lia; by rewrite Hg); [|intros i j Hi Hj; lia|intros i Hi; assert (i = 0) as -> by lia; rewrite Hg; by left].
    split; [unfold MAX_NODES; lia| |by rewrite Hg|intros i Hi; lia|intros i j Hi; lia]. intros i Hi. rewrite Hg. case_decide; [by subst|]. cbn. symmetry. apply Z.ltb_ge. lia. }
  split_and!; [done|by apply (tree_at s 1 [] 0 Hok (Forall_nil_2 _)), at_root|]. intros c cs Hv.
  destruct (tree_cases s 1 (c :: cs) Hok Hv) as [(_ & E & _)|(i & _ & Hi & Ha & _)]; [done|]. exfalso. inversion Ha as [|cs' i' _ Hi']; lia.
Qed.
End Refinement.


(** C31: A file that was put is read back: after [k_vfs_put] has returned 0 and any
    operations on other paths have run, the path opens as a file of that size,
    and a read at any offset returns the bytes that were put, up to the end. *)
Theorem ramfs_put_read {St} `{PageSourceLaws St} (s : @ram_fs St) n cs data s1 ops : fs_ok s n -> op_ok (Put cs data) ->
  exec s (Put cs data) = (s1, 0) -> Forall op_ok ops -> Forall (fun op => op_path op <> cs) ops -> let s2 := run s1 ops in
  exists f, ram_open (rf_nodes s2) (render cs) = inr f /\ f_kind f = 1 /\ f_size f = zlen data /\
    forall offset count, 0 <= offset -> 0 <= count -> ram_read s2 (f_object f) offset count = inr (take (Z.to_nat count) (drop (Z.to_nat offset) data)).
Proof.
  intros Hok Hop He Hops Hne. cbv zeta. destruct (exec_step s n _ s1 0 Hok Hop He) as (n1 & Hok1 & Hst). pose proof (op_names _ Hop) as Hv. cbn in Hv.
  assert (tree s1 cs = Some (File data)) as Et.
  { inversion Hst as [o t' H1 H2 H3|e' t' H1 H2 E|t' H1 E]; subst; [|exfalso].
    - cbn [op_path] in H2. rewrite H2. f_equal. cbn [effect] in H1. unfold new_at in H1.
      destruct (tree s cs) as [[]|]; try destruct (tree s (removelast cs)) as [[]|]; congruence.
    - cbn [effect] in H1. unfold new_at in H1. destruct (tree s cs) as [[]|]; try destruct (tree s (removelast cs)) as [[]|]; discriminate. }
  destruct (run_same s1 n1 ops cs Hok1 Hops Hv Hne) as (n2 & Hok2 & Et2). apply (open_read _ n2); [done|done|]. by rewrite Et2.
Qed.

(** * A machine with 32 free pages *)
Definition demo_ram_pmm : pmm := default (mk_pmm ∅ ∅ 0 0 0 0 [] 0) (pmm_seed_from_efi_map 7 40 false (Some [mk_efi_memory_descriptor 7 0x100000 32 0]) 48).
Lemma demo_ram_pmm_ok : pmm_inv demo_ram_pmm.
Proof.
  apply (pmm_seed_inv 7 40 false (Some [mk_efi_memory_descriptor 7 0x100000 32 0]) 48); [vm_compute; reflexivity|].
  intros d Hd. vm_compute in Hd. apply list_elem_of_singleton in Hd as ->. cbn. lia.
Qed.
Definition demo_ram_fs : @ram_fs pmm := fst (fst (k_vfs_init false (mk_ram_fs ∅ demo_ram_pmm ∅))).
Lemma demo_ram_ok : fs_ok demo_ram_fs 1.
Proof. apply ram_init_ok; [apply demo_ram_pmm_ok|apply bytes_ok_empty]. Qed.
Definition NOTE : cstr := [110; 111; 116; 101].
Definition LOG : cstr := [108; 111; 103].
Lemma demo_names : valid_name NOTE /\ valid_name LOG.
Proof. unfold valid_name. split; repeat split; try discriminate; repeat constructor; try lia; discriminate. Qed.
Lemma demo_op cs data : Forall valid_name cs -> zlen (render cs) < K_PATH_MAX -> Forall is_u8 data -> zlen data <= WRITE_MAX -> op_ok (Put cs data).
Proof. by split. Qed.
Lemma demo_put_ok : op_ok (Put [NOTE] [1; 2; 3]) /\ op_ok (Put [LOG] [4; 5]).
Proof.
  destruct demo_names. split; apply demo_op; try (repeat constructor; done); try (unfold is_u8; repeat constructor; lia); vm_compute; try reflexivity; discriminate.
Qed.
Definition demo_after_put : @ram_fs pmm := fst (exec demo_ram_fs (Put [NOTE] [1; 2; 3])).
Definition demo_after_log : @ram_fs pmm := run demo_after_put [Put [LOG] [4; 5]].
Lemma demo_put_result : exec demo_ram_fs (Put [NOTE] [1; 2; 3]) = (demo_after_put, 0).
Proof.
  assert (snd (exec demo_ram_fs (Put [NOTE] [1; 2; 3])) = 0) as E by (vm_compute; reflexivity). unfold demo_after_put.
  destruct (exec demo_ram_fs (Put [NOTE] [1; 2; 3])) as [s e]. cbn [fst snd] in *. by rewrite E.
Qed.
Lemma ramfs_put_read_witness : exists f, ram_open (rf_nodes demo_after_log) (render [NOTE]) = inr f /\ f_kind f = 1 /\ f_size f = 3 /\
  forall offset count, 0 <= offset -> 0 <= count ->
    ram_read demo_after_log (f_object f) offset count = inr (take (Z.to_nat count) (drop (Z.to_nat offset) [1; 2; 3])).
Proof.
  apply (ramfs_put_read demo_ram_fs 1 [NOTE] [1; 2; 3] demo_after_put [Put [LOG] [4; 5]] demo_ram_ok (proj1 demo_put_ok) demo_put_result).
  - constructor; [exact (proj2 demo_put_ok)|constructor].
  - constructor; [discriminate|constructor].
Defined.
