(* ===== verification/Net.v ===== *)
(** The network stack, [src/kernel-src/drivers/net/networking.c]: its state
    (lines 3-86) and its lower half -- random identifiers, the receive queue,
    routes, neighbours, address resolution and the output of IP packets (lines
    161-205, 347-380, 447-703) -- with [nic_transmit] of [ethernet.c].

    All of it runs under [net_lock], so an operation is a function on the state
    [net]; the clocks do not move within one.  A packet is the list of its
    bytes; [nt_queue] holds the frames of the receive ring in their order, and
    [s_tx] the [tx_count] bytes at the start of a socket's transmit buffer. *)
From S2P Require Import Prelude Klib Path State NetSum NetAddr.

(** What is below [nic_transmit]: the rings of the adapters and external drivers. *)
Class Nics (D : Type) := { nic_send : D -> Z -> list Z -> D * Z }.

(** * Constants and data *)
Definition NET_RXQ : Z := 64.
Definition NET_NEIGHBORS : Z := 64.
Definition NET_DGRAMS : Z := 8.
Definition NET_MSS : Z := 1440.
Definition NET_STREAM : Z := 16384.
Definition NET_FRAG_BYTES : Z := 8192.
Definition NET_FRAGS : Z := 8.
Definition NET_NONE : Z := 0xffffffff.
Definition TCP_FIN : Z := 1.
Definition TCP_SYN : Z := 2.
Definition TCP_RST : Z := 4.
Definition TCP_PSH : Z := 8.
Definition TCP_ACK : Z := 16.
Definition K_SOCK_UDP : Z := 1.
Definition K_SOCK_TCP : Z := 2.
Definition K_NET_MAX_IF : Z := 8.
Definition K_NET_MAX_SOCKETS : Z := 64.
Definition K_NET_FRAME_MAX : Z := 1518.
Definition K_NET_UP : Z := 1.
Definition K_NET_AUTO6 : Z := 2.
Definition K_NET_LINK : Z := 4.
Definition K_NET_READY4 : Z := 8.
Definition K_NET_READY6 : Z := 16.
Definition K_NET_CONFLICT : Z := 32.
Definition K_ENETDOWN : Z := -17.
Definition K_ENETUNREACH : Z := -18.
Definition K_ECONNREFUSED : Z := -19.
Definition K_ECONNRESET : Z := -20.
Definition K_EADDRINUSE : Z := -21.
Definition K_EMSGSIZE : Z := -22.
Definition K_EINPROGRESS : Z := -23.
Definition K_ECANCELED : Z := -24.

Inductive net_state :=
  | NS_NEW | NS_BOUND | NS_LISTEN | NS_SYN_SENT | NS_SYN_RCVD | NS_ESTABLISHED | NS_FIN_WAIT1 | NS_FIN_WAIT2 | NS_CLOSE_WAIT
  | NS_CLOSING | NS_LAST_ACK | NS_TIME_WAIT | NS_ERROR.
#[export] Instance net_state_eq : EqDecision net_state.
Proof. solve_decision. Defined.
Definition ns_code (s : net_state) : Z :=
  match s with
  | NS_NEW => 0 | NS_BOUND => 1 | NS_LISTEN => 2 | NS_SYN_SENT => 3 | NS_SYN_RCVD => 4 | NS_ESTABLISHED => 5 | NS_FIN_WAIT1 => 6
  | NS_FIN_WAIT2 => 7 | NS_CLOSE_WAIT => 8 | NS_CLOSING => 9 | NS_LAST_ACK => 10 | NS_TIME_WAIT => 11 | NS_ERROR => 12
  end.
Definition is_ns (s : net_state) (l : list net_state) : bool := bool_decide (s ∈ l).
Inductive nic_kind := NIC_LOOP | NIC_E1000 | NIC_IGC | NIC_RTL8139 | NIC_EXTERNAL.
#[export] Instance nic_kind_eq : EqDecision nic_kind.
Proof. solve_decision. Defined.

#[export] Instance address_updatable : Updatable k_net_address := fun r => mk_address (na_family r) (na_interface r) (na_port r) (na_reserved r) (na_bytes r).
Definition ZERO16 : list Z := replicate 16 0.
Definition address0 : k_net_address := mk_address 0 0 0 0 ZERO16.
Record k_net_config := mk_config {
  cf_interface : Z; cf_flags : Z; cf_address : list Z; cf_mask : list Z; cf_gateway : list Z; cf_dns : list Z;
  cf_address6 : list Z; cf_gateway6 : list Z; cf_dns6 : list Z; cf_prefix6 : Z; cf_lease_seconds : Z }.
#[export] Instance config_updatable : Updatable k_net_config := fun r =>
  mk_config (cf_interface r) (cf_flags r) (cf_address r) (cf_mask r) (cf_gateway r) (cf_dns r) (cf_address6 r) (cf_gateway6 r) (cf_dns6 r) (cf_prefix6 r) (cf_lease_seconds r).
Definition ZERO4 : list Z := [0; 0; 0; 0].
Definition config0 : k_net_config := mk_config 0 0 ZERO4 ZERO4 ZERO4 ZERO4 ZERO16 ZERO16 ZERO16 0 0.
Record k_net_frame := mk_frame { fr_interface : Z; fr_tick : Z; fr_bytes : list Z }.
(** An adapter: the fields of [net_device] and of its [k_net_info] that the stack uses. *)
Record net_device := mk_device {
  nd_id : Z; nd_flags : Z; nd_mtu : Z; nd_mac : list Z; nd_config : k_net_config; nd_link_local6 : list Z;
  nd_rx_packets : Z; nd_tx_packets : Z; nd_rx_bytes : Z; nd_tx_bytes : Z; nd_dropped : Z; nd_errors : Z; nd_tcp_retransmits : Z;
  nd_error : Z; nd_kind : nic_kind; nd_external_mtu : Z; nd_dead : bool;
  nd_dad_at : Z; nd_config_until : Z; nd_router_until : Z; nd_prefix_until : Z; nd_dns_until : Z;
  nd_dad4 : Z; nd_dad6 : Z; nd_dadglobal : Z; nd_auto_rs : Z; nd_probe_at : Z; nd_icmp_at : Z; nd_icmp_budget : Z;
  nd_capture : list k_net_frame; nd_capture_owner : Z }.
#[export] Instance device_updatable : Updatable net_device := fun r =>
  mk_device (nd_id r) (nd_flags r) (nd_mtu r) (nd_mac r) (nd_config r) (nd_link_local6 r)
    (nd_rx_packets r) (nd_tx_packets r) (nd_rx_bytes r) (nd_tx_bytes r) (nd_dropped r) (nd_errors r) (nd_tcp_retransmits r)
    (nd_error r) (nd_kind r) (nd_external_mtu r) (nd_dead r)
    (nd_dad_at r) (nd_config_until r) (nd_router_until r) (nd_prefix_until r) (nd_dns_until r)
    (nd_dad4 r) (nd_dad6 r) (nd_dadglobal r) (nd_auto_rs r) (nd_probe_at r) (nd_icmp_at r) (nd_icmp_budget r)
    (nd_capture r) (nd_capture_owner r).
Definition device0 : net_device :=
  mk_device 0 0 0 (replicate 6 0) config0 ZERO16 0 0 0 0 0 0 0 0 NIC_LOOP 0 false 0 0 0 0 0 0 0 0 0 0 0 0 [] 0.
#[export] Instance device_inhabited : Inhabited net_device := populate device0.
Record net_neighbor := mk_neighbor {
  ne_used : bool; ne_interface : Z; ne_family : Z; ne_address : list Z; ne_mac : list Z; ne_expires : Z; ne_requested : Z; ne_probes : Z }.
#[export] Instance neighbor_updatable : Updatable net_neighbor := fun r =>
  mk_neighbor (ne_used r) (ne_interface r) (ne_family r) (ne_address r) (ne_mac r) (ne_expires r) (ne_requested r) (ne_probes r).
Definition neighbor0 : net_neighbor := mk_neighbor false 0 0 ZERO16 (replicate 6 0) 0 0 0.
#[export] Instance neighbor_inhabited : Inhabited net_neighbor := populate neighbor0.
Record net_datagram := mk_datagram { dg_from : k_net_address; dg_bytes : list Z }.
Record net_socket := mk_socket {
  s_used : bool; s_detached : bool; s_peer_fin : bool; s_close_requested : bool; s_retransmitted : bool;
  s_id : Z; s_owner : Z; s_family : Z; s_type : Z; s_state : net_state; s_parent : Z; s_backlog : Z;
  s_local : k_net_address; s_peer : k_net_address;
  s_snd_una : Z; s_snd_nxt : Z; s_rcv_nxt : Z; s_iss : Z; s_mss : Z; s_peer_window : Z; s_cwnd : Z; s_threshold : Z;
  s_rx_head : Z; s_rx_count : Z; s_fin_seq : Z; s_dupacks : Z; s_srtt : Z; s_rttvar : Z; s_rto : Z; s_retry : Z;
  s_deadline : Z; s_sent_at : Z; s_activity : Z; s_persist_at : Z; s_error : Z;
  s_rx : zmap; s_tx : list Z; s_datagrams : list net_datagram }.
#[export] Instance socket_updatable : Updatable net_socket := fun r =>
  mk_socket (s_used r) (s_detached r) (s_peer_fin r) (s_close_requested r) (s_retransmitted r)
    (s_id r) (s_owner r) (s_family r) (s_type r) (s_state r) (s_parent r) (s_backlog r) (s_local r) (s_peer r)
    (s_snd_una r) (s_snd_nxt r) (s_rcv_nxt r) (s_iss r) (s_mss r) (s_peer_window r) (s_cwnd r) (s_threshold r)
    (s_rx_head r) (s_rx_count r) (s_fin_seq r) (s_dupacks r) (s_srtt r) (s_rttvar r) (s_rto r) (s_retry r)
    (s_deadline r) (s_sent_at r) (s_activity r) (s_persist_at r) (s_error r) (s_rx r) (s_tx r) (s_datagrams r).
Definition socket0 : net_socket :=
  mk_socket false false false false false 0 0 0 0 NS_NEW 0 0 address0 address0 0 0 0 0 0 0 0 0 0 0 0 0 0 0 0 0 0 0 0 0 0 ∅ [] [].
#[export] Instance socket_inhabited : Inhabited net_socket := populate socket0.
(** [fg_seen] is the bitmap of the bytes that have arrived. *)
Record net_fragment := mk_fragment {
  fg_used : bool; fg_interface : Z; fg_family : Z; fg_protocol : Z; fg_id : Z; fg_final_size : Z;
  fg_src : list Z; fg_dst : list Z; fg_bytes : zmap; fg_seen : zmap; fg_expires : Z }.
#[export] Instance fragment_updatable : Updatable net_fragment := fun r =>
  mk_fragment (fg_used r) (fg_interface r) (fg_family r) (fg_protocol r) (fg_id r) (fg_final_size r) (fg_src r) (fg_dst r) (fg_bytes r) (fg_seen r) (fg_expires r).
Definition fragment0 : net_fragment := mk_fragment false 0 0 0 0 0 [] [] ∅ ∅ 0.
#[export] Instance fragment_inhabited : Inhabited net_fragment := populate fragment0.
Record net_ping := mk_ping { pg_used : bool; pg_done : bool; pg_token : Z; pg_owner : Z; pg_ms : Z; pg_peer : k_net_address; pg_sent : Z }.
#[export] Instance ping_updatable : Updatable net_ping := fun r => mk_ping (pg_used r) (pg_done r) (pg_token r) (pg_owner r) (pg_ms r) (pg_peer r) (pg_sent r).
Definition ping0 : net_ping := mk_ping false false 0 0 0 address0 0.
#[export] Instance ping_inhabited : Inhabited net_ping := populate ping0.

(** * Bytes of a packet *)
Definition byte (p : list Z) (i : Z) : Z := p !!! Z.to_nat i.
Definition be16 (p : list Z) (i : Z) : Z := net_be16 (byte p i) (byte p (i + 1)).
Definition be32 (p : list Z) (i : Z) : Z := net_be32 (byte p i) (byte p (i + 1)) (byte p (i + 2)) (byte p (i + 3)).
(** The [n] bytes from [at_] on. *)
Definition sub (p : list Z) (at_ n : Z) : list Z := take (Z.to_nat n) (drop (Z.to_nat at_) p).
(** [net_equal] and [net_zero] on the first [n] bytes. *)
Definition equal_n (n : Z) (a b : list Z) : bool := net_equal (take (Z.to_nat n) a) (take (Z.to_nat n) b).
Definition zero_n (n : Z) (a : list Z) : bool := net_zero (take (Z.to_nat n) a).
Definition addr_equal (family : Z) (a b : list Z) : bool := equal_n (net_addr_bytes family) a b.
Definition addr_zero (family : Z) (a : list Z) : bool := zero_n (net_addr_bytes family) a.
(** [mem_copy] of an address into 16 zero bytes, and over 16 bytes. *)
Definition pad16 (a : list Z) : list Z := take 16 (a ++ ZERO16).
Definition copy_addr (family : Z) (a into : list Z) : list Z := take (Z.to_nat (net_addr_bytes family)) a ++ drop (Z.to_nat (net_addr_bytes family)) into.
Definition has_flag (flags bit : Z) : bool := negb (Z.land flags bit =? 0).
Definition clear_flags (flags bits : Z) : Z := Z.land flags (Z.lnot bits).
Definition count (n : Z) : Z := u64 (n + 1).

(** * The state *)
Section Net.
Context {D : Type} `{Nics D}.
Record net := mk_net {
  nt_d : D; nt_now : Z; nt_ticks : Z; nt_devices : table net_device; nt_devices_count : Z; nt_sockets : table net_socket;
  nt_neighbors : table net_neighbor; nt_fragments : table net_fragment; nt_pings : table net_ping; nt_queue : list k_net_frame;
  nt_next_socket : Z; nt_ephemeral : Z; nt_ip_id : Z; nt_key0 : Z; nt_key1 : Z; nt_counter : Z; nt_gc_at : Z }.
#[export] Instance net_updatable : Updatable net := fun r =>
  mk_net (nt_d r) (nt_now r) (nt_ticks r) (nt_devices r) (nt_devices_count r) (nt_sockets r) (nt_neighbors r) (nt_fragments r) (nt_pings r) (nt_queue r)
    (nt_next_socket r) (nt_ephemeral r) (nt_ip_id r) (nt_key0 r) (nt_key1 r) (nt_counter r) (nt_gc_at r).
Definition dev (s : net) (i : Z) : net_device := nt_devices s !!! i.
Definition net_queued (s : net) : Z := Z.of_nat (length (nt_queue s)).
Definition sock (s : net) (i : Z) : net_socket := nt_sockets s !!! i.

(** Computations over the state. *)
Definition N (A : Type) : Type := net -> net * A.
Definition ret {A} (a : A) : N A := fun s => (s, a).
Definition bind {A B} (m : N A) (k : A -> N B) : N B := fun s => let '(s, a) := m s in k a s.
Definition get : N net := fun s => (s, s).
Definition put_dev (i : Z) (f : net_device -> net_device) : N unit := fun s => (s <| nt_devices ::= tmod i f |>, tt).
Definition put_sock (i : Z) (f : net_socket -> net_socket) : N unit := fun s => (s <| nt_sockets ::= tmod i f |>, tt).
Definition put_neighbor (i : Z) (f : net_neighbor -> net_neighbor) : N unit := fun s => (s <| nt_neighbors ::= tmod i f |>, tt).
Definition modify_net (f : net -> net) : N unit := fun s => (f s, tt).
End Net.
Arguments net D : clear implicits.

Declare Scope net_scope.
Delimit Scope net_scope with net.
Notation "x <- m ; k" := (bind m (fun x => k)) (at level 100, m at next level, k at level 200, right associativity) : net_scope.
Notation "m ;; k" := (bind m (fun _ => k)) (at level 100, k at level 200, right associativity) : net_scope.

Section Lower.
Context {D : Type} `{Nics D}.
#[local] Open Scope net_scope.
#[local] Abbreviation N := (@N D).
Implicit Types (s : net D).

(** * Identifiers: SipHash of a counter *)
Definition net_rot (n b : Z) : Z := Z.lor (u64 (Z.shiftl n b)) (Z.shiftr n (64 - b)).
Definition net_hash_round (v : Z * Z * Z * Z) : Z * Z * Z * Z :=
  let '(v0, v1, v2, v3) := v in
  let v0 := u64 (v0 + v1) in
  let v1 := Z.lxor (net_rot v1 13) v0 in
  let v0 := net_rot v0 32 in
  let v2 := u64 (v2 + v3) in
  let v3 := Z.lxor (net_rot v3 16) v2 in
  let v0 := u64 (v0 + v3) in
  let v3 := Z.lxor (net_rot v3 21) v0 in
  let v2 := u64 (v2 + v1) in
  let v1 := Z.lxor (net_rot v1 17) v2 in
  let v2 := net_rot v2 32 in
  (v0, v1, v2, v3).
Definition hash_value (key0 key1 m : Z) : Z :=
  let '(v0, v1, v2, v3) := (Z.lxor 0x736f6d6570736575 key0, Z.lxor 0x646f72616e646f6d key1, Z.lxor 0x6c7967656e657261 key0, Z.lxor 0x7465646279746573 key1) in
  let '(v0, v1, v2, v3) := net_hash_round (net_hash_round (v0, v1, v2, Z.lxor v3 m)) in
  let last := Z.shiftl 8 56 in
  let '(v0, v1, v2, v3) := net_hash_round (net_hash_round (Z.lxor v0 m, v1, v2, Z.lxor v3 last)) in
  let '(v0, v1, v2, v3) := net_hash_round (net_hash_round (net_hash_round (net_hash_round (Z.lxor v0 last, v1, Z.lxor v2 255, v3)))) in
  u32 (Z.lxor (Z.lxor (Z.lxor v0 v1) v2) v3).
Definition net_random : N Z := fun s =>
  let m := u64 (nt_counter s + 1) in
  (s <| nt_counter := m |>, hash_value (nt_key0 s) (nt_key1 s) m).

(** * The receive queue and the adapters *)
Definition net_enqueue (id : Z) (p : list Z) : N Z := fun s =>
  if (zlen p <? 14) || (K_NET_FRAME_MAX <? zlen p) then (s <| nt_devices ::= tmod id (fun d => d <| nd_errors ::= count |>) |>, K_EMSGSIZE)
  else if net_queued s =? NET_RXQ then (s <| nt_devices ::= tmod id (fun d => d <| nd_dropped ::= count |>) |>, K_EAGAIN)
  else (s <| nt_queue ::= (fun q => q ++ [mk_frame id (nt_ticks s) p]) |>, 0).
Definition sent_bytes (n : Z) (d : net_device) : net_device := d <| nd_tx_packets ::= count |> <| nd_tx_bytes ::= (fun b => u64 (b + n)) |>.
Definition nic_transmit (id : Z) (bytes : list Z) : N Z :=
  s <- get;
  let d := dev s id in
  if nd_dead d || negb (has_flag (nd_flags d) K_NET_UP) || negb (has_flag (nd_flags d) K_NET_LINK) then ret K_ENETDOWN
  else if (zlen bytes <? 14) || (1514 <? zlen bytes) then ret K_EMSGSIZE
  else
    e <- (if bool_decide (nd_kind d = NIC_LOOP) then net_enqueue (nd_id d) bytes
          else fun s => let '(d, e) := nic_send (nt_d s) id bytes in (s <| nt_d := d |>, e));
    if negb (e =? 0) then ret e else put_dev id (sent_bytes (zlen bytes));; ret 0.
Definition ether_frame (mac src : list Z) (type : Z) (p : list Z) : list Z := take 6 mac ++ take 6 src ++ net_put16 type ++ p.
Definition net_ether (id : Z) (mac : list Z) (type : Z) (p : list Z) : N Z :=
  s <- get;
  if 1500 <? zlen p then ret K_EMSGSIZE else nic_transmit id (ether_frame mac (nd_mac (dev s id)) type p).

(** * Addresses and routes *)
Definition net_local (d : net_device) (family : Z) (a : list Z) : bool :=
  if family =? 4 then has_flag (nd_flags d) K_NET_READY4 && equal_n 4 a (cf_address (nd_config d))
  else has_flag (nd_flags d) K_NET_READY6 &&
    (equal_n 16 a (nd_link_local6 d) ||
     ((nd_dadglobal d =? 0) && negb (zero_n 16 (cf_address6 (nd_config d))) && equal_n 16 a (cf_address6 (nd_config d)))).
Definition net_broadcast4 (d : net_device) (a : list Z) : bool :=
  if be32 a 0 =? 0xffffffff then true
  else
    let mask := be32 (cf_mask (nd_config d)) 0 in
    let ip := be32 (cf_address (nd_config d)) 0 in
    negb (mask =? 0) && negb (mask =? 0xffffffff) && (be32 a 0 =? Z.lor ip (u32 (Z.lnot mask))).
Definition link_local (a : list Z) : bool := (byte a 0 =? 0xfe) && (Z.land (byte a 1) 0xc0 =? 0x80).
Definition ONE6 : list Z := replicate 15 0 ++ [1].
(** What adapter [i] offers for a destination: nothing, or whether it matches, the source address, and whether it has a gateway. *)
Definition route_device (i : Z) (d : net_device) (family : Z) (to : list Z) : option (bool * list Z * bool) :=
  let c := nd_config d in
  if family =? 4 then
    let ip := be32 to 0 in
    let mask := be32 (cf_mask c) 0 in
    if i =? 0 then Some (equal_n 4 to (cf_address c), cf_address c, false)
    else if Z.shiftr ip 24 =? 127 then None
    else if negb (has_flag (nd_flags d) K_NET_READY4) && negb (net_broadcast4 d to) then None
    else Some (net_broadcast4 d to || (negb (mask =? 0) && (Z.land ip mask =? Z.land (be32 (cf_address c) 0) mask)), cf_address c, negb (zero_n 4 (cf_gateway c)))
  else if i =? 0 then Some (equal_n 16 to ONE6, nd_link_local6 d, false)
  else if negb (has_flag (nd_flags d) K_NET_READY6) then None
  else
    let linked := link_local to || (byte to 0 =? 255) in
    let source := if linked then nd_link_local6 d else cf_address6 c in
    let usable := (nd_dadglobal d =? 0) && negb (zero_n 16 source) in
    Some (linked || (usable && net_prefix to source (cf_prefix6 c)), source, negb (zero_n 16 (cf_gateway6 c)) && usable).
Definition route_step s (to : k_net_address) (preferred i : Z) (fallback : Z) : flow Z (Z * list Z) :=
  let d := dev s i in
  if negb (preferred =? NET_NONE) && negb (i =? preferred) then Next fallback
  else if nd_dead d || negb (has_flag (nd_flags d) K_NET_UP) || negb (has_flag (nd_flags d) K_NET_LINK) then Next fallback
  else
    match route_device i d (na_family to) (na_bytes to) with
    | None => Next fallback
    | Some (true, source, _) => Exit (i, pad16 (take (Z.to_nat (net_addr_bytes (na_family to))) source))
    | Some (false, _, gateway) => Next (if gateway then i else fallback)
    end.
(** The adapter and the source address for a destination. *)
Definition net_route s (to : k_net_address) (bound : Z) : Z + Z * list Z :=
  let preferred := if negb (na_interface to =? NET_NONE) then na_interface to else bound in
  if negb (preferred =? NET_NONE) && (nt_devices_count s <=? preferred) then inl K_ENETUNREACH
  else
    match for_range 0 (nt_devices_count s) (route_step s to preferred) (-1) with
    | Exit r => inr r
    | Next fallback =>
        if 0 <=? fallback then
          let c := nd_config (dev s fallback) in
          inr (fallback, pad16 (take (Z.to_nat (net_addr_bytes (na_family to))) (if na_family to =? 4 then cf_address c else cf_address6 c)))
        else inl K_ENETUNREACH
    end.

(** * Neighbours *)
Definition is_neighbor (id family : Z) (a : list Z) (e : net_neighbor) : bool :=
  ne_used e && (ne_interface e =? id) && (ne_family e =? family) && addr_equal family (ne_address e) a.
Definition neighbor_step s (id family : Z) (a : list Z) (i free : Z) : flow Z Z :=
  let e := nt_neighbors s !!! i in
  if is_neighbor id family a e then Exit i
  else Next (if negb (ne_used e) || (ne_expires e <=? nt_now s) then i else free).
Definition net_neighbor_find (id family : Z) (a : list Z) (create : bool) : N (option Z) := fun s =>
  match for_range 0 NET_NEIGHBORS (neighbor_step s id family a) (-1) with
  | Exit i => (s, Some i)
  | Next free =>
      if negb create || (free <? 0) then (s, None)
      else (s <| nt_neighbors ::= <[free := mk_neighbor true id family (copy_addr family a ZERO16) (replicate 6 0) (u64 (nt_now s + 10000)) 0 0]> |>, Some free)
  end.
Definition net_neighbor_learn (id family : Z) (a mac : list Z) (solicited : bool) : N unit :=
  if negb (Z.land (byte mac 0) 1 =? 0) || zero_n 6 mac || addr_zero family a || net_multicast family a then ret tt
  else
    e <- net_neighbor_find id family a true;
    match e with
    | None => ret tt
    | Some i =>
        s <- get;
        let e := nt_neighbors s !!! i in
        if negb solicited && negb (zero_n 6 (ne_mac e)) && negb (equal_n 6 (ne_mac e) mac) then ret tt
        else put_neighbor i (fun e => e <| ne_mac := take 6 mac |> <| ne_expires := u64 (nt_now s + if solicited then 30000 else 5000) |> <| ne_probes := 0 |>)
    end.

(** * Address resolution and output *)
Definition BROADCAST : list Z := replicate 6 255.
Definition arp_packet (op : Z) (mac own spa tpa : list Z) : list Z :=
  net_put16 1 ++ net_put16 0x0800 ++ [6; 4] ++ net_put16 op ++ take 6 own ++ take 4 spa ++ (if op =? 2 then take 6 mac else replicate 6 0) ++ take 4 tpa.
Definition net_arp_send (id op : Z) (mac spa tpa : list Z) : N Z :=
  s <- get;
  net_ether id mac 0x0806 (arp_packet op mac (nd_mac (dev s id)) spa tpa).
(** The packet [p] with its checksum at [at_]. *)
Definition with_sum (at_ : Z) (p : list Z) (sum : list Z -> Z) : list Z := take (Z.to_nat at_) p ++ net_put16 (sum p) ++ drop (Z.to_nat (at_ + 2)) p.
Definition solicited_node (target : list Z) : list Z := [0xff; 2; 0; 0; 0; 0; 0; 0; 0; 0; 0; 1; 0xff] ++ sub target 13 3.
Section Send.
(** [net_ip_send] and [net_nd_solicit] call each other; here the first is given. *)
Context (send : Z -> Z -> list Z -> list Z -> Z -> list Z -> Z -> N Z).
Definition net_nd_solicit (id : Z) (target : list Z) (dad : bool) : N Z :=
  s <- get;
  let d := dev s id in
  let dst := solicited_node target in
  let src := if dad then ZERO16 else nd_link_local6 d in
  let p := [135; 0; 0; 0; 0; 0; 0; 0] ++ take 16 target ++ (if dad then [] else [1; 1] ++ take 6 (nd_mac d)) in
  send (nd_id d) 6 src dst 58 (with_sum 2 p (net_transport_sum 6 src dst 58)) 255.
(** The neighbour that a packet goes to next. *)
Definition next_hop (d : net_device) (family : Z) (dst : list Z) : list Z :=
  let c := nd_config d in
  if family =? 4 then
    let mask := be32 (cf_mask c) 0 in
    if negb (Z.land (be32 dst 0) mask =? Z.land (be32 (cf_address c) 0) mask) then cf_gateway c else dst
  else if negb (link_local dst) && negb (net_prefix dst (cf_address6 c) (cf_prefix6 c)) then cf_gateway6 c else dst.
Definition probe (id family i : Z) (next : list Z) : N unit :=
  s <- get;
  let now := nt_now s in
  result <- (if family =? 4 then net_arp_send id 1 BROADCAST (cf_address (nd_config (dev s id))) next else net_nd_solicit id next false);
  if result =? 0 then put_neighbor i (fun e => e <| ne_requested := if now =? 0 then 1 else now |> <| ne_probes ::= (fun p => u32 (p + 1)) |>) else ret tt.
Definition net_resolve_mac (id family : Z) (dst : list Z) : N (Z + list Z) :=
  s <- get;
  let d := dev s id in
  if bool_decide (nd_kind d = NIC_LOOP) || net_local d family dst then ret (inr (nd_mac d))
  else if (family =? 4) && net_broadcast4 d dst then ret (inr BROADCAST)
  else if (family =? 6) && (byte dst 0 =? 255) then ret (inr ([0x33; 0x33] ++ sub dst 12 4))
  else
    let next := next_hop d family dst in
    if addr_zero family next then ret (inl K_ENETUNREACH)
    else
      found <- net_neighbor_find (nd_id d) family next true;
      match found with
      | None => ret (inl K_ENOSPC)
      | Some i =>
          s <- get;
          let now := nt_now s in
          let e := nt_neighbors s !!! i in
          if negb (zero_n 6 (ne_mac e)) && (now <? ne_expires e) then ret (inr (ne_mac e))
          else
            (if ne_expires e <=? now
             then put_neighbor i (fun e => e <| ne_mac := replicate 6 0 |> <| ne_probes := 0 |> <| ne_requested := 0 |> <| ne_expires := u64 (now + 10000) |>)
             else ret tt);;
            s <- get;
            let e := nt_neighbors s !!! i in
            if 3 <=? ne_probes e then ret (inl K_ENETUNREACH)
            else
              (if (ne_requested e =? 0) || (1000 <=? u64 (now - ne_requested e)) then probe id family i next else ret tt);;
              ret (inl K_EAGAIN)
      end.
Definition ip_header (family id : Z) (src dst : list Z) (proto n ttl : Z) : list Z :=
  if family =? 4 then
    with_sum 10 ([0x45; 0] ++ net_put16 (n + 20) ++ net_put16 id ++ (if proto =? 6 then net_put16 0x4000 else [0; 0]) ++
                 [u8 ttl; u8 proto; 0; 0] ++ take 4 src ++ take 4 dst) k_net_checksum
  else [0x60; 0; 0; 0] ++ net_put16 n ++ [u8 proto; u8 ttl] ++ take 16 src ++ take 16 dst.
Definition ether_type (family : Z) : Z := if family =? 4 then 0x0800 else 0x86dd.
Definition ip_send (id family : Z) (src dst : list Z) (proto : Z) (bytes : list Z) (ttl : Z) : N Z :=
  s <- get;
  let d := dev s id in
  let h := if family =? 4 then 20 else 40 in
  let n := zlen bytes in
  if nt_devices_count s <=? id then ret K_ENETUNREACH
  else if u32 (nd_mtu d - h) <? n then ret K_EMSGSIZE
  else
    r <- net_resolve_mac id family dst;
    match r with
    | inl e => ret e
    | inr mac =>
        (if family =? 4 then modify_net (fun s => s <| nt_ip_id ::= (fun i => u16 (i + 1)) |>) else ret tt);;
        s <- get;
        let d := dev s id in
        let packet := ip_header family (nt_ip_id s) src dst proto n ttl ++ bytes in
        if negb (bool_decide (nd_kind d = NIC_LOOP)) && net_local d family dst then
          if net_queued s =? NET_RXQ then ret K_EAGAIN
          else
            net_enqueue id (ether_frame mac (nd_mac d) (ether_type family) packet);;
            put_dev id (sent_bytes (n + h + 14));; ret 0
        else net_ether id mac (ether_type family) packet
    end.
End Send.
(** The solicitation that a packet may need goes to a multicast address, so it needs none itself. *)
Fixpoint ip_send_n (fuel : nat) : Z -> Z -> list Z -> list Z -> Z -> list Z -> Z -> N Z :=
  match fuel with
  | O => fun _ _ _ _ _ _ _ => ret K_EAGAIN
  | S fuel => ip_send (ip_send_n fuel)
  end.
Definition net_ip_send : Z -> Z -> list Z -> list Z -> Z -> list Z -> Z -> N Z := ip_send_n 2.
Definition nd_solicit : Z -> list Z -> bool -> N Z := net_nd_solicit net_ip_send.
End Lower.
