(* ===== verification/Tcp.v ===== *)
(** TCP, [src/kernel-src/drivers/net/networking.c] lines 381-446, 730-742 and
    1329-1761: the table of sockets, ports, segments, retransmission and the
    state machine that an arriving segment drives. *)
From S2P Require Import Prelude Klib Path State NetSum NetAddr Net.

Section Tcp.
Context {D : Type} `{Nics D}.
#[local] Open Scope net_scope.
#[local] Abbreviation N := (@N D).
Implicit Types (s : net D) (x : net_socket).

(** * The table of sockets *)
Definition net_socket_owned s (me h : Z) : option Z :=
  find_range 0 K_NET_MAX_SOCKETS (fun i => let x := sock s i in s_used x && (s_id x =? h) && negb (s_detached x) && (s_owner x =? me)).
Definition new_socket (now id family type owner : Z) : net_socket :=
  let mss := if family =? 6 then 1220 else 536 in
  socket0 <| s_used := true |> <| s_id := id |> <| s_owner := owner |> <| s_family := family |> <| s_type := type |>
    <| s_local := address0 <| na_family := family |> <| na_interface := NET_NONE |> |> <| s_peer := address0 <| na_family := family |> <| na_interface := NET_NONE |> |>
    <| s_mss := mss |> <| s_rto := 1000 |> <| s_peer_window := 65535 |> <| s_cwnd := mss * 2 |> <| s_threshold := 65535 |> <| s_activity := now |>.
Definition net_socket_new (family type owner : Z) : N (option Z) := fun s =>
  if nt_next_socket s =? 0 then (s, None)
  else
    match find_range 0 K_NET_MAX_SOCKETS (fun i => negb (s_used (sock s i))) with
    | None => (s, None)
    | Some i =>
        let id := nt_next_socket s in
        (s <| nt_next_socket := u32 (id + 1) |> <| nt_sockets ::= <[i := new_socket (nt_now s) id family type owner]> |>, Some i)
    end.
Definition net_port_busy s (self : Z) (a : k_net_address) : bool :=
  let me := sock s self in
  any_range 0 K_NET_MAX_SOCKETS (fun i =>
    let x := sock s i in
    if negb (s_used x) || (i =? self) || negb (s_parent x =? 0) || negb (s_family x =? s_family me) || negb (s_type x =? s_type me) ||
       negb (na_port (s_local x) =? na_port a) then false
    else if negb (na_interface (s_local x) =? NET_NONE) && negb (na_interface a =? NET_NONE) && negb (na_interface (s_local x) =? na_interface a) then false
    else
      let f := na_family a in
      addr_zero f (na_bytes a) || addr_zero f (na_bytes (s_local x)) || addr_equal f (na_bytes a) (na_bytes (s_local x))).
Definition set_port (i port : Z) s : net D := s <| nt_sockets ::= tmod i (fun x => x <| s_local ::= (fun a => a <| na_port := port |>) |>) |>.
Definition autobind_step (i tries : Z) s : flow (net D) (net D) :=
  let port := u16 (nt_ephemeral s) in
  let next := u32 (nt_ephemeral s + 1) in
  let s := set_port i port s in
  let s := s <| nt_ephemeral := if 65535 <? next then 49152 else next |> in
  if net_port_busy s i (s_local (sock s i)) then Next s else Exit s.
Definition net_autobind (i : Z) : N Z :=
  s <- get;
  if negb (na_port (s_local (sock s i)) =? 0) then ret 0
  else
    r <- net_random;
    fun s =>
      let s := s <| nt_ephemeral := 49152 + Z.land r 16383 |> in
      match for_range 0 16384 (autobind_step i) s with
      | Exit s => (s, 0)
      | Next s => (set_port i 0 s, K_EADDRINUSE)
      end.
Definition net_icmp_allow (id : Z) : N bool := fun s =>
  let now := nt_now s in
  let d := dev s id in
  let d := if 1000 <=? u64 (now - nd_icmp_at d) then d <| nd_icmp_at := now |> <| nd_icmp_budget := 20 |> else d in
  let allowed := negb (nd_icmp_budget d =? 0) in
  let d := if allowed then d <| nd_icmp_budget ::= (fun b => b - 1) |> else d in
  (s <| nt_devices ::= <[id := d]> |>, allowed).

(** * Segments *)
Definition net_seq_before (a b : Z) : bool := 2 ^ 31 <=? u32 (a - b).
Definition header_size (flags : Z) : Z := if has_flag flags TCP_SYN then 24 else 20.
Definition tcp_segment x (sequence flags : Z) (bytes : list Z) : list Z :=
  let h := header_size flags in
  with_sum 16
    (net_put16 (na_port (s_local x)) ++ net_put16 (na_port (s_peer x)) ++ net_put32 sequence ++
     (if has_flag flags TCP_ACK then net_put32 (s_rcv_nxt x) else [0; 0; 0; 0]) ++
     [u8 (Z.shiftl (h / 4) 4); u8 flags] ++ net_put16 (u16 (NET_STREAM - s_rx_count x)) ++ [0; 0; 0; 0] ++
     (if has_flag flags TCP_SYN then [2; 4] ++ net_put16 (if s_family x =? 6 then 1220 else NET_MSS) else []) ++ bytes)
    (net_transport_sum (s_family x) (na_bytes (s_local x)) (na_bytes (s_peer x)) 6).
(** [x] is a socket of the table, or the temporary one that answers for none. *)
Definition net_tcp_packet x (sequence flags : Z) (bytes : list Z) : N Z :=
  s <- get;
  let id := na_interface (s_local x) in
  if nt_devices_count s <=? id then ret K_ENETUNREACH
  else if u32 (nd_mtu (dev s id) - (if s_family x =? 4 then 20 else 40) - header_size flags) <? zlen bytes then ret K_EMSGSIZE
  else net_ip_send id (s_family x) (na_bytes (s_local x)) (na_bytes (s_peer x)) 6 (tcp_segment x sequence flags bytes) 64.
Definition net_tcp_error (i e : Z) : N unit :=
  s <- get;
  put_sock i (fun x => x <| s_state := NS_ERROR |> <| s_error := e |> <| s_deadline := u64 (nt_now s + 30000) |> <| s_used ::= (fun u => u && negb (s_detached x)) |>).
Definition net_tcp_ack (i : Z) : N unit :=
  s <- get;
  net_tcp_packet (sock s i) (s_snd_nxt (sock s i)) TCP_ACK [];;
  ret tt.
Fixpoint options_loop (fuel : nat) (p : list Z) (h at_ mss : Z) : option (Z + Z) :=
  if h <=? at_ then Some (inr mss)
  else
    match fuel with
    | O => None
    | S fuel =>
        if byte p at_ =? 0 then Some (inr mss)
        else if byte p at_ =? 1 then options_loop fuel p h (at_ + 1) mss
        else if (h - at_ <? 2) || (byte p (at_ + 1) <? 2) || (h - at_ <? byte p (at_ + 1)) then Some (inl K_EINVAL)
        else if (byte p at_ =? 2) && (negb (byte p (at_ + 1) =? 4) || (be16 p (at_ + 2) <? 64)) then Some (inl K_EINVAL)
        else options_loop fuel p h (at_ + byte p (at_ + 1)) (if byte p at_ =? 2 then Z.min mss (be16 p (at_ + 2)) else mss)
    end.
(** The segment size that the options of a header of [h] bytes allow. *)
Definition net_tcp_options (p : list Z) (h mss : Z) : Z + Z := default (inl K_EINVAL) (options_loop (Z.to_nat h) p h 20 mss).

(** * Retransmission *)
Definition net_tcp_rtt (now : Z) x : net_socket :=
  let x :=
    if negb (s_retransmitted x) && negb (s_sent_at x =? 0) then
      let sample := Z.min (u64 (now - s_sent_at x)) 60000 in
      let sample := if sample =? 0 then 1 else sample in
      let x :=
        if s_srtt x =? 0 then x <| s_srtt := sample |> <| s_rttvar := sample / 2 |>
        else
          let diff := if sample <? s_srtt x then s_srtt x - sample else sample - s_srtt x in
          x <| s_rttvar := u32 (3 * s_rttvar x + diff) / 4 |> <| s_srtt := u32 (7 * s_srtt x + sample) / 8 |> in
      let rto := Z.min 60000 (u32 (s_srtt x + 4 * s_rttvar x)) in
      x <| s_rto := if rto <? 1000 then 1000 else rto |>
    else x in
  x <| s_retry := 0 |> <| s_retransmitted := false |> <| s_sent_at := if now =? 0 then 1 else now |>.
Definition stamp (now : Z) : Z := if now =? 0 then 1 else now.
(** A packet that was sent before and not acknowledged: back off. *)
Definition backed_off x : net_socket :=
  let threshold := Z.min (s_cwnd x / 2) NET_STREAM in
  x <| s_retry ::= (fun r => u32 (r + 1)) |> <| s_retransmitted := true |>
    <| s_threshold := if threshold <? u32 (2 * s_mss x) then u32 (2 * s_mss x) else threshold |> <| s_cwnd := s_mss x |> <| s_rto := Z.min 60000 (u32 (s_rto x * 2)) |>.
Definition flight x : Z := u32 (s_snd_nxt x - s_snd_una x).
Definition tx_count x : Z := zlen (s_tx x).
(** What is sent again: a SYN, a FIN, or the first unacknowledged bytes; whether the pump stops after it. *)
Definition resend (i now : Z) (syn fin : bool) : N bool :=
  s <- get;
  let x := sock s i in
  if (s_sent_at x =? 0) || (s_rto x <=? u64 (now - s_sent_at x)) then
    if 8 <=? s_retry x then net_tcp_error i K_ETIMEDOUT;; ret true
    else
      let flags := if syn then Z.lor TCP_SYN (if bool_decide (s_state x = NS_SYN_RCVD) then TCP_ACK else 0) else if fin then Z.lor TCP_FIN TCP_ACK else TCP_ACK in
      let n := if negb syn && negb fin then Z.min (s_mss x) (flight x) else 0 in
      e <- net_tcp_packet x (if syn then s_iss x else if fin then s_fin_seq x else s_snd_una x) flags (take (Z.to_nat n) (s_tx x));
      if e =? 0 then
        (if negb (s_sent_at x =? 0)
         then put_sock i backed_off;; put_dev (na_interface (s_local x)) (fun d => d <| nd_tcp_retransmits ::= Net.count |>)
         else ret tt);;
        put_sock i (fun x => x <| s_sent_at := stamp now |>);;
        ret (syn || fin)
      else if negb (e =? K_EAGAIN) then net_tcp_error i e;; ret true
      else ret (syn || fin)
  else ret (syn || fin).
(** New bytes, as far as the windows allow; false when the pump stops on an error. *)
Fixpoint send_loop (fuel : nat) (i now window inflight : Z) : N bool :=
  match fuel with
  | O => ret true
  | S fuel =>
      s <- get;
      let x := sock s i in
      if (inflight <? tx_count x) && (inflight <? window) then
        let n := Z.min (s_mss x) (Z.min (tx_count x - inflight) (window - inflight)) in
        e <- net_tcp_packet x (s_snd_nxt x) (Z.lor TCP_ACK TCP_PSH) (sub (s_tx x) inflight n);
        if negb (e =? 0) then (if negb (e =? K_EAGAIN) then net_tcp_error i e else ret tt);; ret false
        else
          (if inflight =? 0 then put_sock i (fun x => x <| s_sent_at := stamp now |> <| s_retransmitted := false |>) else ret tt);;
          put_sock i (fun x => x <| s_snd_nxt ::= (fun q => u32 (q + n)) |>);;
          send_loop fuel i now window (inflight + n)
      else ret true
  end.
Definition SEND_FUEL : nat := Z.to_nat (NET_STREAM + 1).
Definition persist (i now : Z) : N unit :=
  s <- get;
  let x := sock s i in
  if (s_peer_window x =? 0) && negb (tx_count x =? 0) && (flight x =? 0) && (s_persist_at x <=? now) then
    net_tcp_packet x (u32 (s_snd_una x - 1)) TCP_ACK [];;
    put_sock i (fun x => x <| s_persist_at := u64 (now + 1000) |>)
  else ret tt.
Definition start_fin x : net_socket :=
  x <| s_fin_seq := s_snd_nxt x |> <| s_snd_nxt ::= (fun q => u32 (q + 1)) |> <| s_state := if s_peer_fin x then NS_LAST_ACK else NS_FIN_WAIT1 |>
    <| s_sent_at := 0 |> <| s_retry := 0 |>.
Definition drop_socket (i : Z) : N unit := put_sock i (fun x => x <| s_used := false |>).
Definition SYNCHRONIZED : list net_state := [NS_SYN_SENT; NS_SYN_RCVD; NS_ESTABLISHED; NS_FIN_WAIT1; NS_FIN_WAIT2; NS_CLOSE_WAIT; NS_CLOSING; NS_LAST_ACK].
Section Pump.
(** The pump calls itself once, after it has decided to send a FIN. *)
Context (again : Z -> Z -> N unit).
Definition pump_data (i now : Z) : N unit :=
  s <- get;
  let x := sock s i in
  if negb (is_ns (s_state x) [NS_ESTABLISHED; NS_CLOSE_WAIT]) then ret tt
  else
    go <- send_loop SEND_FUEL i now (Z.min (s_peer_window x) (s_cwnd x)) (flight x);
    if negb go then ret tt
    else
      persist i now;;
      s <- get;
      if s_close_requested (sock s i) && (tx_count (sock s i) =? 0) then put_sock i start_fin;; again i now else ret tt.
Definition limit_mss (i : Z) : N unit :=
  s <- get;
  let x := sock s i in
  let id := na_interface (s_local x) in
  if id <? nt_devices_count s then
    let limit := u32 (nd_mtu (dev s id) - (if s_family x =? 4 then 40 else 60)) in
    put_sock i (fun x => x <| s_mss := if limit <? s_mss x then limit else s_mss x |>)
  else ret tt.
Definition pump (i now : Z) : N unit :=
  s <- get;
  let x := sock s i in
  let id := na_interface (s_local x) in
  if negb (s_used x) || negb (s_type x =? K_SOCK_TCP) then ret tt
  else if is_ns (s_state x) [NS_TIME_WAIT] then if s_deadline x <=? now then drop_socket i else ret tt
  else if is_ns (s_state x) [NS_ERROR] then if s_detached x then drop_socket i else ret tt
  else if is_ns (s_state x) [NS_FIN_WAIT2] && (s_deadline x <=? now) then net_tcp_error i K_ETIMEDOUT
  else if is_ns (s_state x) SYNCHRONIZED && ((nt_devices_count s <=? id) || negb (net_local (dev s id) (s_family x) (na_bytes (s_local x))))
  then net_tcp_error i K_ENETDOWN
  else
    limit_mss i;;
    s <- get;
    let x := sock s i in
    let syn := is_ns (s_state x) [NS_SYN_SENT; NS_SYN_RCVD] in
    let fin := is_ns (s_state x) [NS_FIN_WAIT1; NS_CLOSING; NS_LAST_ACK] in
    stop <- (if syn || fin || (negb (flight x =? 0) && negb (tx_count x =? 0)) then resend i now syn fin else ret false);
    if stop then ret tt else pump_data i now.
End Pump.
Fixpoint pump_n (fuel : nat) : Z -> Z -> N unit :=
  match fuel with
  | O => fun _ _ => ret tt
  | S fuel => pump (pump_n fuel)
  end.
Definition net_tcp_pump : Z -> Z -> N unit := pump_n 2.

(** * An arriving segment *)

(** The sockets of a segment from [src], [sport] to [dst], [dport]: a connection, and before it a listener. *)
Definition lookup_step s (id family : Z) (src dst : list Z) (sport dport i : Z) (listener : option Z) : flow (option Z) (Z * option Z) :=
  let x := sock s i in
  if negb (s_used x) || negb (s_type x =? K_SOCK_TCP) || negb (s_family x =? family) || negb (na_port (s_local x) =? dport) then Next listener
  else if negb (na_interface (s_local x) =? NET_NONE) && negb (na_interface (s_local x) =? id) then Next listener
  else if negb (addr_zero family (na_bytes (s_local x))) && negb (addr_equal family (na_bytes (s_local x)) dst) then Next listener
  else if bool_decide (s_state x = NS_LISTEN) && negb (s_detached x) then Next (Some i)
  else if (na_port (s_peer x) =? sport) && addr_equal family (na_bytes (s_peer x)) src then Exit (i, listener)
  else Next listener.
Definition tcp_lookup s (id family : Z) (src dst : list Z) (sport dport : Z) : option Z * option Z :=
  match for_range 0 K_NET_MAX_SOCKETS (lookup_step s id family src dst sport dport) None with
  | Next listener => (None, listener)
  | Exit (i, listener) => (Some i, listener)
  end.
Definition put_addr (family : Z) (a : list Z) (r : k_net_address) : k_net_address := r <| na_bytes ::= copy_addr family a |>.
(** A SYN for a listener: a new connection, if its backlog has room. *)
Definition passive_open (id family : Z) (src dst p : list Z) (h l : Z) : N unit :=
  s <- get;
  let listener := sock s l in
  let waiting := count_range_def 0 K_NET_MAX_SOCKETS (fun i => s_used (sock s i) && (s_parent (sock s i) =? s_id listener)) in
  if s_backlog listener <=? waiting then put_dev id (fun d => d <| nd_dropped ::= Net.count |>)
  else
    match net_tcp_options p h (if family =? 6 then 1220 else NET_MSS) with
    | inl _ => put_dev id (fun d => d <| nd_errors ::= Net.count |>)
    | inr mss =>
        new <- net_socket_new family K_SOCK_TCP (s_owner listener);
        match new with
        | None => put_dev id (fun d => d <| nd_dropped ::= Net.count |>)
        | Some i =>
            iss <- net_random;
            put_sock i (fun x =>
              x <| s_parent := s_id listener |> <| s_state := NS_SYN_RCVD |>
                <| s_local := put_addr family dst ((s_local x) <| na_interface := id |> <| na_port := be16 p 2 |>) |>
                <| s_peer := put_addr family src ((s_peer x) <| na_interface := id |> <| na_port := be16 p 0 |>) |>
                <| s_iss := iss |> <| s_snd_una := iss |> <| s_snd_nxt := u32 (iss + 1) |> <| s_rcv_nxt := u32 (be32 p 4 + 1) |>
                <| s_mss := mss |> <| s_cwnd := u32 (mss * 2) |> <| s_peer_window := be16 p 14 |>);;
            net_tcp_pump i (nt_now s)
        end
    end.
Definition flag_size (flags bit : Z) : Z := if has_flag flags bit then 1 else 0.
(** A segment for no socket is answered with a reset. *)
Definition refuse (id family : Z) (src dst p : list Z) (len : Z) : N unit :=
  let flags := byte p 13 in
  if has_flag flags TCP_RST then ret tt
  else
    allowed <- net_icmp_allow id;
    if negb allowed then ret tt
    else
      let temp := socket0 <| s_family := family |>
        <| s_local := put_addr family dst (address0 <| na_interface := id |> <| na_port := be16 p 2 |>) |>
        <| s_peer := put_addr family src (address0 <| na_port := be16 p 0 |>) |>
        <| s_rcv_nxt := u32 (be32 p 4 + len + flag_size flags TCP_SYN + flag_size flags TCP_FIN) |> in
      net_tcp_packet temp (if has_flag flags TCP_ACK then be32 p 8 else 0) (Z.lor TCP_RST (if has_flag flags TCP_ACK then 0 else TCP_ACK)) [];;
      ret tt.
(** The answer to a SYN of ours. *)
Definition syn_sent_input (i family : Z) (p : list Z) (h : Z) : N unit :=
  s <- get;
  let x := sock s i in
  let flags := byte p 13 in
  let ack := be32 p 8 in
  if has_flag flags TCP_RST then if has_flag flags TCP_ACK && (ack =? s_snd_nxt x) then net_tcp_error i K_ECONNREFUSED else ret tt
  else if negb (Z.land flags (Z.lor TCP_SYN TCP_ACK) =? Z.lor TCP_SYN TCP_ACK) || negb (ack =? s_snd_nxt x) then ret tt
  else
    match net_tcp_options p h (if family =? 6 then 1220 else NET_MSS) with
    | inl _ => ret tt
    | inr mss =>
        put_sock i (fun x =>
          (net_tcp_rtt (nt_now s)
            (x <| s_mss := mss |> <| s_cwnd := u32 (mss * 2) |> <| s_peer_window := be16 p 14 |> <| s_snd_una := ack |>
               <| s_rcv_nxt := u32 (be32 p 4 + 1) |> <| s_state := NS_ESTABLISHED |>)) <| s_sent_at := 0 |>);;
        net_tcp_ack i
    end.
(** Part of the segment is in the receive window. *)
Definition acceptable (rcv_nxt window seq seglen : Z) : bool :=
  if negb (window =? 0) then
    if negb (seglen =? 0) then
      (negb (net_seq_before seq rcv_nxt) && net_seq_before seq (u32 (rcv_nxt + window))) ||
      (negb (net_seq_before (u32 (seq + seglen - 1)) rcv_nxt) && net_seq_before (u32 (seq + seglen - 1)) (u32 (rcv_nxt + window)))
    else negb (net_seq_before seq rcv_nxt) && net_seq_before seq (u32 (rcv_nxt + window))
  else (seglen =? 0) && (seq =? rcv_nxt).
Definition limited_ack (id i : Z) : N unit :=
  allowed <- net_icmp_allow id;
  if allowed then net_tcp_ack i else ret tt.
(** An acknowledgment of new data while a FIN is out: only one of the FIN itself counts. *)
Definition finish_ack (now ack : Z) x : net_socket :=
  let x := x <| s_snd_una := ack |> <| s_sent_at := 0 |> in
  match s_state x with
  | NS_LAST_ACK => x <| s_used := false |>
  | NS_CLOSING => x <| s_state := NS_TIME_WAIT |> <| s_deadline := u64 (now + 120000) |>
  | _ => x <| s_state := NS_FIN_WAIT2 |> <| s_deadline := u64 (now + 60000) |>
  end.
Definition data_ack (now ack : Z) x : net_socket :=
  let acknowledged := u32 (ack - s_snd_una x) in
  let x := net_tcp_rtt now (x <| s_tx ::= drop (Z.to_nat acknowledged) |> <| s_snd_una := ack |>) in
  let cwnd := if s_cwnd x <? s_threshold x then u32 (s_cwnd x + Z.min acknowledged (s_mss x)) else u32 (s_cwnd x + Z.max 1 (u32 (s_mss x * s_mss x) / s_cwnd x)) in
  let x := x <| s_cwnd := Z.min cwnd NET_STREAM |> <| s_dupacks := 0 |> in
  if s_snd_nxt x =? s_snd_una x then x <| s_sent_at := 0 |> else x.
(** The third duplicate acknowledgment sends the first segment again. *)
Definition duplicate_ack (id i now : Z) : N unit :=
  put_sock i (fun x => x <| s_dupacks ::= (fun n => u32 (n + 1)) |>);;
  s <- get;
  if s_dupacks (sock s i) =? 3 then
    put_sock i (fun x => x <| s_threshold := Z.max (u32 (2 * s_mss x)) (s_cwnd x / 2) |> <| s_cwnd := s_mss x |> <| s_retransmitted := true |> <| s_sent_at := now |>);;
    s <- get;
    let x := sock s i in
    net_tcp_packet x (s_snd_una x) TCP_ACK (take (Z.to_nat (Z.min (s_mss x) (flight x))) (s_tx x));;
    put_dev id (fun d => d <| nd_tcp_retransmits ::= Net.count |>)
  else ret tt.
(** The acknowledgment of the segment; false when it is the end of the matter. *)
Definition ack_input (id i : Z) (p : list Z) (len : Z) : N bool :=
  s <- get;
  let x := sock s i in
  let now := nt_now s in
  let ack := be32 p 8 in
  if bool_decide (s_state x = NS_SYN_RCVD) then
    if negb (ack =? s_snd_nxt x) || negb (be32 p 4 =? s_rcv_nxt x) then ret false
    else put_sock i (fun x => (net_tcp_rtt now (x <| s_snd_una := ack |> <| s_state := NS_ESTABLISHED |>)) <| s_sent_at := 0 |>);; ret true
  else if net_seq_before (s_snd_una x) ack then
    if is_ns (s_state x) [NS_FIN_WAIT1; NS_CLOSING; NS_LAST_ACK] then
      if negb (ack =? u32 (s_fin_seq x + 1)) then ret false
      else put_sock i (finish_ack now ack);; ret (negb (bool_decide (s_state x = NS_LAST_ACK)))
    else if tx_count x <? u32 (ack - s_snd_una x) then ret false
    else put_sock i (data_ack now ack);; ret true
  else if (ack =? s_snd_una x) && negb (tx_count x =? 0) && negb (s_snd_nxt x =? s_snd_una x) && (len =? 0) && (s_peer_window x =? be16 p 14)
  then duplicate_ack id i now;; ret true
  else ret true.
(** The bytes of a segment go behind those in the receive ring. *)
Definition ring_write (head n : Z) (data : list Z) (rx : zmap) : zmap :=
  fold_range 0 (zlen data) (fun i rx => zput rx ((head + n + i) mod NET_STREAM) (byte data i)) rx.
Definition receive_bytes (data : list Z) x : net_socket :=
  x <| s_rx := ring_write (s_rx_head x) (s_rx_count x) data (s_rx x) |> <| s_rx_count ::= (fun n => u32 (n + zlen data)) |> <| s_rcv_nxt ::= (fun q => u32 (q + zlen data)) |>.
Definition receive_fin (now : Z) x : net_socket :=
  let x := x <| s_peer_fin := true |> <| s_rcv_nxt ::= (fun q => u32 (q + 1)) |> in
  match s_state x with
  | NS_ESTABLISHED => x <| s_state := NS_CLOSE_WAIT |>
  | NS_FIN_WAIT1 => x <| s_state := NS_CLOSING |>
  | NS_FIN_WAIT2 => x <| s_state := NS_TIME_WAIT |> <| s_deadline := u64 (now + 120000) |>
  | _ => x
  end.
(** Bytes and FIN at sequence number [seq]: what was received before is cut off; false when there is a gap. *)
Definition accept_data (now seq : Z) (fin : bool) (data : list Z) x : net_socket * bool :=
  let trim := if net_seq_before seq (s_rcv_nxt x) then Z.min (u32 (s_rcv_nxt x - seq)) (zlen data) else 0 in
  let seq := u32 (seq + trim) in
  let data := drop (Z.to_nat trim) data in
  if negb (seq =? s_rcv_nxt x) then (x, false)
  else
    let taken := Z.min (zlen data) (NET_STREAM - s_rx_count x) in
    let x := receive_bytes (take (Z.to_nat taken) data) x in
    (if fin && (taken =? zlen data) && negb (s_peer_fin x) then receive_fin now x else x, true).
Definition data_input (i : Z) (p : list Z) (h : Z) : N unit :=
  s <- get;
  let x := sock s i in
  let now := nt_now s in
  let fin := has_flag (byte p 13) TCP_FIN in
  let data := drop (Z.to_nat h) p in
  if s_peer_fin x && negb (zlen data =? 0) then net_tcp_ack i
  else
    go <- (if negb (zlen data =? 0) || fin then
             let r := accept_data now (be32 p 4) fin data x in
             put_sock i (fun _ => fst r);;
             net_tcp_ack i;;
             ret (snd r)
           else ret true);
    if go then net_tcp_pump i now else ret tt.
(** A segment for connection [i]. *)
Definition connection_input (id i family : Z) (p : list Z) (h : Z) : N unit :=
  s <- get;
  put_sock i (fun x => x <| s_activity := nt_now s |>);;
  s <- get;
  let x := sock s i in
  let now := nt_now s in
  let flags := byte p 13 in
  let seq := be32 p 4 in
  let len := zlen p - h in
  if is_ns (s_state x) [NS_SYN_SENT] then syn_sent_input i family p h
  else if is_ns (s_state x) [NS_TIME_WAIT] then
    if has_flag flags TCP_FIN then net_tcp_ack i;; put_sock i (fun x => x <| s_deadline := u64 (now + 120000) |>) else ret tt
  else if is_ns (s_state x) [NS_ERROR] then ret tt
  else if is_ns (s_state x) [NS_SYN_RCVD] && has_flag flags TCP_SYN && (u32 (seq + 1) =? s_rcv_nxt x) then
    put_sock i (fun x => x <| s_sent_at := 0 |>);; net_tcp_pump i now
  else if negb (acceptable (s_rcv_nxt x) (NET_STREAM - s_rx_count x) seq (len + flag_size flags TCP_FIN + flag_size flags TCP_SYN)) then
    if negb (has_flag flags TCP_RST) then net_tcp_ack i else ret tt
  else if has_flag flags TCP_RST then if seq =? s_rcv_nxt x then net_tcp_error i K_ECONNRESET else limited_ack id i
  else if has_flag flags TCP_SYN then limited_ack id i
  else if negb (has_flag flags TCP_ACK) then ret tt
  else if net_seq_before (s_snd_nxt x) (be32 p 8) then net_tcp_ack i
  else
    go <- ack_input id i p len;
    if negb go then ret tt
    else
      put_sock i (fun x => x <| s_peer_window := be16 p 14 |>);;
      data_input i p h.
Definition net_tcp_input (id family : Z) (src dst p : list Z) : N unit :=
  s <- get;
  let d := dev s id in
  let n := zlen p in
  let h := Z.shiftr (byte p 12) 4 * 4 in
  let flags := byte p 13 in
  if (n <? 20) || negb (net_local d family dst) || net_multicast family src || addr_zero family src || (be16 p 0 =? 0) || (be16 p 2 =? 0) ||
     negb (net_transport_sum family src dst 6 p =? 0) || (h <? 20) || (n <? h) || negb (Z.land (byte p 12) 15 =? 0)
  then put_dev id (fun d => d <| nd_errors ::= Net.count |>)
  else if has_flag flags 0x20 then put_dev id (fun d => d <| nd_dropped ::= Net.count |>)
  else
    match tcp_lookup s id family src dst (be16 p 0) (be16 p 2) with
    | (Some i, _) => connection_input id i family p h
    | (None, Some l) =>
        if Z.land flags 23 =? TCP_SYN then passive_open id family src dst p h l else refuse id family src dst p (n - h)
    | (None, None) => refuse id family src dst p (n - h)
    end.
End Tcp.
