(* ===== verification/NetInput.v ===== *)
(** What arrives, [src/kernel-src/drivers/net/networking.c] lines 704-1328:
    ARP, neighbour discovery, ICMP, UDP, reassembly, and the parsing of frames
    and IP headers that hands each packet to its protocol. *)
From S2P Require Import Prelude Klib Pmm Path State NetSum NetAddr Net Tcp.

Section Input.
Context {D : Type} `{Nics D}.
#[local] Open Scope net_scope.
#[local] Abbreviation N := (@N D).
Implicit Types (s : net D).

Definition add_error (id : Z) : N unit := put_dev id (fun d => d <| nd_errors ::= Net.count |>).
Definition add_dropped (id : Z) : N unit := put_dev id (fun d => d <| nd_dropped ::= Net.count |>).
Definition put_config (id : Z) (f : k_net_config -> k_net_config) : N unit := put_dev id (fun d => d <| nd_config ::= f |>).

(** * ARP *)
Definition conflict4 (d : net_device) : net_device :=
  d <| nd_flags := clear_flags (Z.lor (nd_flags d) K_NET_CONFLICT) K_NET_READY4 |> <| nd_dad4 := 0 |>.
Definition net_arp_input (id : Z) (p mac : list Z) : N unit :=
  s <- get;
  let d := dev s id in
  let own := cf_address (nd_config d) in
  let op := be16 p 6 in
  if (zlen p <? 28) || negb (be16 p 0 =? 1) || negb (be16 p 2 =? 0x0800) || negb (byte p 4 =? 6) || negb (byte p 5 =? 4) ||
     (negb (op =? 1) && negb (op =? 2)) || negb (equal_n 6 mac (sub p 8 6)) || negb (Z.land (byte mac 0) 1 =? 0)
  then add_error id
  else if equal_n 6 mac (nd_mac d) then ret tt
  else if negb (zero_n 4 own) && (equal_n 4 (sub p 14 4) own || (negb (nd_dad4 d =? 0) && zero_n 4 (sub p 14 4) && equal_n 4 (sub p 24 4) own))
  then put_dev id conflict4
  else
    let ours := net_local d 4 (sub p 24 4) in
    found <- net_neighbor_find (nd_id d) 4 (sub p 14 4) false;
    s <- get;
    let probed := match found with Some i => negb (ne_probes (nt_neighbors s !!! i) =? 0) | None => false end in
    (if (ours && (op =? 1)) || (ours && (op =? 2) && equal_n 6 (sub p 18 6) (nd_mac d) && probed)
     then net_neighbor_learn (nd_id d) 4 (sub p 14 4) mac true else ret tt);;
    if ours && (op =? 1) then net_arp_send id 2 mac own (sub p 14 4);; ret tt else ret tt.

(** * Neighbour discovery *)

(** The options of a packet, from [at_] on, as pairs of offset and length; none when one does not fit. *)
Fixpoint nd_options (fuel : nat) (p : list Z) (at_ : Z) : option (list (Z * Z)) :=
  if zlen p <=? at_ then Some []
  else
    match fuel with
    | O => None
    | S fuel =>
        let len := byte p (at_ + 1) * 8 in
        if (zlen p - at_ <? 2) || (byte p (at_ + 1) =? 0) || (zlen p - at_ <? len) then None
        else match nd_options fuel p (at_ + len) with Some l => Some ((at_, len) :: l) | None => None end
    end.
Definition router_option_ok (p mac : list Z) (o : Z * Z) : bool :=
  let '(at_, len) := o in
  let type := byte p at_ in
  negb (((type =? 1) && (negb (len =? 8) || negb (equal_n 6 (sub p (at_ + 2) 6) mac))) || ((type =? 3) && negb (len =? 32)) ||
        ((type =? 5) && negb (len =? 8)) || ((type =? 25) && ((len <? 24) || negb ((len - 8) mod 16 =? 0)))).
Definition router_lifetime (now lifetime : Z) (src : list Z) (d : net_device) : net_device :=
  if negb (lifetime =? 0) then d <| nd_config ::= (fun c => c <| cf_gateway6 := take 16 src |>) |> <| nd_router_until := u64 (now + lifetime * 1000) |>
  else if equal_n 16 (cf_gateway6 (nd_config d)) src then d <| nd_config ::= (fun c => c <| cf_gateway6 := ZERO16 |>) |> <| nd_router_until := 0 |>
  else d.
Definition prefix_option (now : Z) (p : list Z) (at_ : Z) (d : net_device) : net_device :=
  let valid := be32 p (at_ + 4) in
  let preferred := be32 p (at_ + 8) in
  if (preferred <=? valid) && negb (valid =? 0) then
    let address := sub p (at_ + 16) 8 ++ drop 8 (nd_link_local6 d) in
    let d :=
      if negb (equal_n 16 address (cf_address6 (nd_config d)))
      then d <| nd_config ::= (fun c => c <| cf_address6 := address |>) |> <| nd_dadglobal := 3 |> <| nd_dad_at := now |> else d in
    d <| nd_config ::= (fun c => c <| cf_prefix6 := 64 |>) |> <| nd_prefix_until := u64 (now + valid * 1000) |>
  else d.
Definition dns_option (now : Z) (p : list Z) (at_ : Z) (d : net_device) : net_device :=
  let life := be32 p (at_ + 4) in
  let server := sub p (at_ + 8) 16 in
  if negb (byte p (at_ + 8) =? 255) && negb (zero_n 16 server) then
    if negb (life =? 0) then d <| nd_config ::= (fun c => c <| cf_dns6 := server |>) |> <| nd_dns_until := u64 (now + life * 1000) |>
    else if equal_n 16 (cf_dns6 (nd_config d)) server then d <| nd_config ::= (fun c => c <| cf_dns6 := ZERO16 |>) |> <| nd_dns_until := 0 |>
    else d
  else d.
Definition mtu_option (p : list Z) (at_ : Z) (d : net_device) : net_device :=
  let mtu := be32 p (at_ + 4) in
  if (1280 <=? mtu) && (mtu <=? if bool_decide (nd_kind d = NIC_EXTERNAL) then nd_external_mtu d else 1500) then d <| nd_mtu := mtu |> else d.
Definition router_option (id : Z) (src p mac : list Z) (o : Z * Z) : N unit :=
  let '(at_, len) := o in
  let type := byte p at_ in
  s <- get;
  let now := nt_now s in
  (if (type =? 1) && (len =? 8) && equal_n 6 (sub p (at_ + 2) 6) mac then net_neighbor_learn (nd_id (dev s id)) 6 src mac false else ret tt);;
  (if (type =? 3) && (len =? 32) && (byte p (at_ + 2) =? 64) && (Z.land (byte p (at_ + 3)) 0xc0 =? 0xc0) && negb (byte p (at_ + 16) =? 255) &&
      negb (link_local (sub p (at_ + 16) 2))
   then put_dev id (prefix_option now p at_) else ret tt);;
  (if (type =? 25) && (24 <=? len) && ((len - 8) mod 16 =? 0) then put_dev id (dns_option now p at_) else ret tt);;
  (if (type =? 5) && (len =? 8) then put_dev id (mtu_option p at_) else ret tt).
Fixpoint each {A} (f : A -> N unit) (l : list A) : N unit :=
  match l with [] => ret tt | a :: l => f a;; each f l end.
Definition router_input (id : Z) (src p mac : list Z) : N unit :=
  s <- get;
  if negb (has_flag (cf_flags (nd_config (dev s id))) K_NET_AUTO6) || (zlen p <? 16) || negb (link_local src) then ret tt
  else
    match nd_options (length p) p 16 with
    | None => ret tt
    | Some options =>
        if negb (forallb (router_option_ok p mac) options) then ret tt
        else put_dev id (router_lifetime (nt_now s) (be16 p 6) src);; each (router_option id src p mac) options
    end.
Definition conflict6 (d : net_device) : net_device :=
  d <| nd_flags := clear_flags (Z.lor (nd_flags d) K_NET_CONFLICT) K_NET_READY6 |> <| nd_dad6 := 0 |> <| nd_dadglobal := 0 |>.
Definition ALL_NODES : list Z := [255; 2] ++ replicate 13 0 ++ [1].
Definition advertisement (target mac : list Z) (unspecified : bool) : list Z :=
  [136; 0; 0; 0; if unspecified then 0x20 else 0x60; 0; 0; 0] ++ take 16 target ++ [2; 1] ++ take 6 mac.
Definition net_nd_input (id : Z) (src dst p : list Z) (hop : Z) (mac : list Z) : N unit :=
  s <- get;
  let d := dev s id in
  let n := zlen p in
  if negb (hop =? 255) || (n <? 8) || negb (byte p 1 =? 0) || negb (Z.land (byte mac 0) 1 =? 0) || zero_n 6 mac then ret tt
  else if byte p 0 =? 134 then router_input id src p mac
  else if (negb (byte p 0 =? 135) && negb (byte p 0 =? 136)) || (n <? 24) || (byte p 8 =? 255) then ret tt
  else
    let target := sub p 8 16 in
    let unspecified := zero_n 16 src in
    let ours := net_local d 6 target in
    if (byte p 0 =? 136) && unspecified then ret tt
    else
      match nd_options (length p) p 24 with
      | None => ret tt
      | Some options =>
          let linked := filter (fun '(at_, len) => ((byte p at_ =? 1) || (byte p at_ =? 2)) && (len =? 8) = true) options in
          let have := negb (bool_decide (linked = [])) in
          if negb (forallb (fun '(at_, _) => equal_n 6 (sub p (at_ + 2) 6) mac) linked) then ret tt
          else if unspecified && (byte p 0 =? 135) && negb (equal_n 16 dst (solicited_node target)) then ret tt
          else if unspecified && have then ret tt
          else if negb (equal_n 6 mac (nd_mac d)) &&
                  ((negb (nd_dad6 d =? 0) && equal_n 16 target (nd_link_local6 d)) || (negb (nd_dadglobal d =? 0) && equal_n 16 target (cf_address6 (nd_config d))))
          then put_dev id conflict6
          else if byte p 0 =? 136 then
            if has_flag (byte p 4) 0x40 && (byte dst 0 =? 255) then ret tt
            else
              found <- net_neighbor_find (nd_id d) 6 target false;
              if have && bool_decide (is_Some found) then net_neighbor_learn (nd_id d) 6 target mac (has_flag (byte p 4) 0x40) else ret tt
          else if negb ours then ret tt
          else
            (if have && negb unspecified then net_neighbor_learn (nd_id d) 6 src mac false else ret tt);;
            let destination := if unspecified then ALL_NODES else take 16 src in
            let response := advertisement target (nd_mac d) unspecified in
            net_ip_send (nd_id d) 6 target destination 58 (with_sum 2 response (net_transport_sum 6 target destination 58)) 255;; ret tt
      end.

(** * ICMP *)

(** The packet of ours that an error message quotes: its source, destination, protocol, header size and total length. *)
Definition quoted (family : Z) (q : list Z) : option (list Z * list Z * Z * Z * Z) :=
  if family =? 4 then
    let h := Z.land (byte q 0) 15 * 4 in
    if (zlen q <? 28) || negb (Z.shiftr (byte q 0) 4 =? 4) then None
    else if (h <? 20) || (zlen q - 8 <? h) || negb (k_net_checksum (take (Z.to_nat h) q) =? 0) || negb (Z.land (be16 q 6) 8191 =? 0) then None
    else if be16 q 2 <? h + 8 then None
    else Some (sub q 12 4, sub q 16 4, byte q 9, h, be16 q 2)
  else if (zlen q <? 48) || negb (Z.shiftr (byte q 0) 4 =? 6) then None
  else if 40 + be16 q 4 <? 48 then None
  else Some (sub q 8 16, sub q 24 16, byte q 6, 40, 40 + be16 q 4).
Definition too_big (family : Z) (p : list Z) : bool := if family =? 4 then (byte p 0 =? 3) && (byte p 1 =? 4) else (byte p 0 =? 2) && (byte p 1 =? 0).
Definition unreachable (family : Z) (p : list Z) : bool := if family =? 4 then (byte p 0 =? 3) && (byte p 1 <=? 15) else (byte p 0 =? 1) && (byte p 1 <=? 7).
Definition expired (family : Z) (p : list Z) : bool := if family =? 4 then (byte p 0 =? 11) && (byte p 1 <=? 1) else (byte p 0 =? 3) && (byte p 1 <=? 1).
(** The socket that the quoted packet came from. *)
Definition quoted_socket (id family : Z) (source peer q : list Z) (h : Z) (x : net_socket) : bool :=
  negb (negb (s_used x) || negb (s_family x =? family) || negb (na_port (s_local x) =? be16 q h) || negb (na_port (s_peer x) =? be16 q (h + 2)) ||
        (negb (na_interface (s_local x) =? NET_NONE) && negb (na_interface (s_local x) =? id)) || negb (addr_equal family (na_bytes (s_peer x)) peer) ||
        (negb (addr_zero family (na_bytes (s_local x))) && negb (addr_equal family (na_bytes (s_local x)) source))).
Definition smaller_path (family : Z) (p : list Z) (original : Z) (x : net_socket) : option net_socket :=
  let mtu := if family =? 4 then be16 p 6 else be32 p 4 in
  let mtu := if (mtu =? 0) && (family =? 4) then 576 else mtu in
  if (mtu <? if family =? 4 then 68 else 1280) || (original <=? mtu) then None
  else
    let mss := mtu - if family =? 4 then 40 else 60 in
    Some (if mss <? s_mss x then x <| s_mss := mss |> <| s_sent_at := 0 |> <| s_retransmitted := true |> else x).
Definition icmp_socket (id family : Z) (p q source peer : list Z) (proto h original i : Z) : N bool :=
  s <- get;
  let x := sock s i in
  if negb (quoted_socket id family source peer q h x) then ret false
  else if (proto =? 6) && (s_type x =? K_SOCK_TCP) then
    let seq := be32 q (h + 4) in
    if (s_snd_nxt x =? s_snd_una x) || (flight x <=? u32 (seq - s_snd_una x)) then ret false
    else if too_big family p then match smaller_path family p original x with None => ret false | Some x => put_sock i (fun _ => x);; ret true end
    else (if is_ns (s_state x) [NS_SYN_SENT] then net_tcp_error i (if expired family p then K_ETIMEDOUT else K_ENETUNREACH) else ret tt);; ret true
  else if (proto =? 17) && (s_type x =? K_SOCK_UDP) then
    put_sock i (fun x => x <| s_error := if too_big family p then K_EMSGSIZE else if expired family p then K_ETIMEDOUT
                               else if byte p 1 =? (if family =? 4 then 3 else 4) then K_ECONNREFUSED else K_ENETUNREACH |>);; ret true
  else ret true.
(** The sockets from [i] on, until one has taken the message. *)
Fixpoint first_socket (n : nat) (i : Z) (f : Z -> N bool) : N unit :=
  match n with
  | O => ret tt
  | S n => done <- f i; if done : bool then ret tt else first_socket n (i + 1) f
  end.
Definition net_icmp_failure (id family : Z) (dst p : list Z) : N unit :=
  s <- get;
  if (negb (too_big family p) && negb (unreachable family p) && negb (expired family p)) || negb (net_local (dev s id) family dst) then ret tt
  else
    let q := drop 8 p in
    match quoted family q with
    | None => ret tt
    | Some (source, peer, proto, h, original) =>
        if negb (addr_equal family source dst) || (negb (proto =? 6) && negb (proto =? 17)) then ret tt
        else first_socket (Z.to_nat K_NET_MAX_SOCKETS) 0 (fun i => icmp_socket id family p q source peer proto h original i)
    end.
Definition icmp_sum (family : Z) (src dst p : list Z) : Z := if family =? 4 then k_net_checksum p else net_transport_sum 6 src dst 58 p.
Definition icmp_proto (family : Z) : Z := if family =? 4 then 1 else 58.
Definition net_udp_unreachable (id family : Z) (src dst p : list Z) : N unit :=
  s <- get;
  let d := dev s id in
  if negb (net_local d family dst) || net_multicast family src || addr_zero family src || ((family =? 4) && net_broadcast4 d src) then ret tt
  else
    allowed <- net_icmp_allow id;
    if negb allowed then ret tt
    else
      let n := zlen p in
      let q :=
        if family =? 4 then with_sum 10 ([0x45; 0] ++ net_put16 (20 + n) ++ [0; 0; 0; 0; 64; 17; 0; 0] ++ take 4 src ++ take 4 dst) k_net_checksum ++ take 8 p
        else [0x60; 0; 0; 0] ++ net_put16 n ++ [17; 64] ++ take 16 src ++ take 16 dst ++ take (Z.to_nat (Z.min n 1232)) p in
      let message := [if family =? 4 then 3 else 1; if family =? 4 then 3 else 4; 0; 0; 0; 0; 0; 0] ++ q in
      net_ip_send (nd_id d) family dst src (icmp_proto family) (with_sum 2 message (icmp_sum family dst src)) 64;; ret tt.
Definition PING_KEY : Z := 0x91c573ab.
Definition answers (id family now : Z) (src p : list Z) (g : net_ping) : net_ping :=
  if pg_used g && negb (pg_done g) && (pg_token g =? be32 p 4) && (na_family (pg_peer g) =? family) && (na_interface (pg_peer g) =? id) &&
     addr_equal family (na_bytes (pg_peer g)) src && (rd64 (buffer p) 8 =? pg_sent g) && (be32 p 16 =? Z.lxor (be32 p 4) PING_KEY)
  then g <| pg_ms := u32 (now - pg_sent g) |> <| pg_done := true |> else g.
Definition net_icmp_input (id family : Z) (src dst p : list Z) (hop : Z) (mac : list Z) : N unit :=
  let n := zlen p in
  if (n <? 8) || negb (icmp_sum family src dst p =? 0) then add_error id
  else if (family =? 6) && (133 <=? byte p 0) && (byte p 0 <=? 137) then net_nd_input id src dst p hop mac
  else
    net_icmp_failure id family dst p;;
    s <- get;
    let request := if family =? 4 then 8 else 128 in
    let reply := if family =? 4 then 0 else 129 in
    allowed <- (if (byte p 0 =? request) && (byte p 1 =? 0) && net_local (dev s id) family dst && (n <=? 1440) && negb (net_multicast family src) &&
                   negb (addr_zero family src) then net_icmp_allow id else ret false);
    if allowed then
      net_ip_send (nd_id (dev s id)) family dst src (icmp_proto family) (with_sum 2 ([reply; byte p 1; 0; 0] ++ drop 4 p) (icmp_sum family dst src)) 64;; ret tt
    else if (byte p 0 =? reply) && (byte p 1 =? 0) && (n =? 24) then
      modify_net (fun s => s <| nt_pings := fold_range 0 8 (fun i => tmod i (answers (nd_id (dev s id)) family (nt_now s) src p)) (nt_pings s) |>)
    else ret tt.

(** * UDP *)
Definition udp_socket (id family : Z) (src dst p : list Z) (x : net_socket) : bool :=
  negb (negb (s_used x) || s_detached x || negb (s_type x =? K_SOCK_UDP) || negb (s_family x =? family) || negb (na_port (s_local x) =? be16 p 2) ||
        (negb (na_interface (s_local x) =? NET_NONE) && negb (na_interface (s_local x) =? id)) ||
        (negb (addr_zero family (na_bytes (s_local x))) && negb (addr_equal family (na_bytes (s_local x)) dst)) ||
        (negb (na_port (s_peer x) =? 0) && (negb (na_port (s_peer x) =? be16 p 0) || negb (addr_equal family (na_bytes (s_peer x)) src)))).
Definition net_udp_input (id family : Z) (src dst p : list Z) : N unit :=
  s <- get;
  if (zlen p <? 8) || (be16 p 2 =? 0) || (be16 p 4 <? 8) || (zlen p <? be16 p 4) then add_error id
  else
    let n := be16 p 4 in
    let p := take (Z.to_nat n) p in
    if ((family =? 6) && (be16 p 6 =? 0)) || (negb (be16 p 6 =? 0) && negb (net_transport_sum family src dst 17 p =? 0)) then add_error id
    else if 1472 <? n - 8 then add_dropped id
    else
      match find_range 0 K_NET_MAX_SOCKETS (fun i => udp_socket (nd_id (dev s id)) family src dst p (sock s i)) with
      | Some i =>
          if Z.of_nat (length (s_datagrams (sock s i))) =? NET_DGRAMS then add_dropped id
          else
            let from := mk_address family (nd_id (dev s id)) (be16 p 0) 0 (copy_addr family src ZERO16) in
            put_sock i (fun x => x <| s_datagrams ::= (fun q => q ++ [mk_datagram from (drop 8 p)]) |>)
      | None => net_udp_unreachable id family src dst p;; add_dropped id
      end.

(** * Delivery and reassembly *)
Definition net_ip_deliver (id family : Z) (src dst : list Z) (proto : Z) (p : list Z) (hop : Z) (mac : list Z) : N unit :=
  if proto =? icmp_proto family then net_icmp_input id family src dst p hop mac
  else if proto =? 17 then net_udp_input id family src dst p
  else if proto =? 6 then net_tcp_input id family src dst p
  else add_dropped id.
Definition same_fragment (ifc family : Z) (src dst : list Z) (proto fid : Z) (x : net_fragment) : bool :=
  (fg_interface x =? ifc) && (fg_family x =? family) && (fg_id x =? fid) && (fg_protocol x =? proto) && addr_equal family (fg_src x) src && addr_equal family (fg_dst x) dst.
(** The table without what has expired, the slot of the packet, and a free one. *)
Definition fragment_step (now ifc family : Z) (src dst : list Z) (proto fid i : Z) (st : table net_fragment * Z * Z) : table net_fragment * Z * Z :=
  let '(t, f, free) := st in
  let x := t !!! i in
  let x := if fg_used x && (fg_expires x <=? now) then x <| fg_used := false |> else x in
  (<[i := x]> t, if fg_used x && same_fragment ifc family src dst proto fid x then i else f, if negb (fg_used x) then i else free).
Definition has_seen (seen : zmap) (lo hi : Z) : bool := any_range lo hi (bit_get seen).
Definition mark_seen (lo hi : Z) (seen : zmap) : zmap := fold_range lo hi (fun i b => bit_set b i) seen.
(** The fragment with the bytes [p] at [offset]; none when it does not fit the others. *)
Definition add_fragment (offset : Z) (more : bool) (p : list Z) (f : net_fragment) : option net_fragment :=
  let n := zlen p in
  let end_ := offset + n in
  if (negb (fg_final_size f =? 0) && (fg_final_size f <? end_)) || (negb more && negb (fg_final_size f =? 0) && negb (fg_final_size f =? end_)) then None
  else if has_seen (fg_seen f) offset end_ then None
  else if negb more && has_seen (fg_seen f) end_ NET_FRAG_BYTES then None
  else Some (f <| fg_final_size := if more then fg_final_size f else end_ |> <| fg_bytes ::= write_bytes offset p |> <| fg_seen ::= mark_seen offset end_ |>).
Definition complete (f : net_fragment) : bool := negb (fg_final_size f =? 0) && all_range 0 (fg_final_size f) (bit_get (fg_seen f)).
Definition put_fragment (i : Z) (f : net_fragment) : N unit := modify_net (fun s => s <| nt_fragments ::= <[i := f]> |>).
Definition net_reassemble (id family : Z) (src dst : list Z) (proto fid offset : Z) (more : bool) (p : list Z) (hop : Z) (mac : list Z) : N unit :=
  let n := zlen p in
  if (n =? 0) || (NET_FRAG_BYTES <? offset) || (NET_FRAG_BYTES - offset <? n) || (more && negb (Z.land n 7 =? 0)) then add_error id
  else
    s <- get;
    let ifc := nd_id (dev s id) in
    let '(t, f, free) := fold_range 0 NET_FRAGS (fragment_step (nt_now s) ifc family src dst proto fid) (nt_fragments s, -1, -1) in
    modify_net (fun s => s <| nt_fragments := t |>);;
    if (f <? 0) && (free <? 0) then add_dropped id
    else
      let i := if f <? 0 then free else f in
      let x := if f <? 0
               then mk_fragment true ifc family proto fid 0 (take (Z.to_nat (net_addr_bytes family)) src) (take (Z.to_nat (net_addr_bytes family)) dst) ∅ ∅ (u64 (nt_now s + 30000))
               else t !!! i in
      match add_fragment offset more p x with
      | None => put_fragment i (x <| fg_used := false |>);; add_error id
      | Some x =>
          put_fragment i x;;
          if complete x then
            net_ip_deliver id family src dst proto (bytes_at (fg_bytes x) 0 (fg_final_size x)) hop mac;;
            put_fragment i (x <| fg_used := false |>)
          else ret tt
      end.

(** * Frames *)

(** The options of an IPv4 header of [h] bytes: none may be a source route. *)
Fixpoint ip4_options (fuel : nat) (p : list Z) (h at_ : Z) : bool :=
  if h <=? at_ then true
  else
    match fuel with
    | O => false
    | S fuel =>
        let opt := byte p at_ in
        if opt =? 0 then true
        else if opt =? 1 then ip4_options fuel p h (at_ + 1)
        else if (h - at_ <? 2) || (byte p (at_ + 1) <? 2) || (h - at_ <? byte p (at_ + 1)) || (opt =? 131) || (opt =? 137) then false
        else ip4_options fuel p h (at_ + byte p (at_ + 1))
    end.
Definition ip4_input (id : Z) (p mac : list Z) : N unit :=
  s <- get;
  let d := dev s id in
  let n := zlen p in
  let h := Z.land (byte p 0) 15 * 4 in
  let total := be16 p 2 in
  let fragment := be16 p 6 in
  let src := sub p 12 4 in
  let dst := sub p 16 4 in
  if (n <? 20) || negb (Z.shiftr (byte p 0) 4 =? 4) || (Z.land (byte p 0) 15 <? 5) then add_error id
  else if (n <? h) || (total <? h) || (n <? total) || (byte p 8 =? 0) || negb (k_net_checksum (take (Z.to_nat h) p) =? 0) || has_flag fragment 0x8000 ||
          net_multicast 4 src || (byte p 12 =? 255) then add_error id
  else if negb (nd_id d =? 0) && (byte p 12 =? 127) then add_dropped id
  else if negb (net_local d 4 dst) && negb (net_broadcast4 d dst) then add_dropped id
  else if negb (ip4_options (Z.to_nat h) p h 20) then add_error id
  else if has_flag fragment 0x4000 && has_flag fragment 0x3fff then add_error id
  else
    let data := sub p h (total - h) in
    if has_flag fragment 0x3fff
    then net_reassemble id 4 src dst (byte p 9) (be16 p 4) (Z.land fragment 8191 * 8) (has_flag fragment 8192) data (byte p 8) mac
    else net_ip_deliver id 4 src dst (byte p 9) data (byte p 8) mac.
(** The options of an IPv6 extension header of [len] bytes at [at_]. *)
Fixpoint ip6_options (fuel : nat) (p : list Z) (at_ len option : Z) : bool :=
  if len <=? option then true
  else
    match fuel with
    | O => false
    | S fuel =>
        let type := byte p (at_ + option) in
        if type =? 0 then ip6_options fuel p at_ len (option + 1)
        else if (len - option <? 2) || (len - option - 2 <? byte p (at_ + option + 1)) || negb (Z.land type 0xc0 =? 0) then false
        else ip6_options fuel p at_ len (option + (2 + byte p (at_ + option + 1)))
    end.
Definition ip6_fragment (id : Z) (p mac : list Z) (at_ remaining : Z) : N unit :=
  let src := sub p 8 16 in
  let dst := sub p 24 16 in
  let next := byte p at_ in
  let flags := be16 p (at_ + 2) in
  if (remaining <? 8) || negb (byte p (at_ + 1) =? 0) || negb (Z.land flags 6 =? 0) then add_error id
  else if (next =? 44) || (next =? 0) || (next =? 43) || (next =? 60) || (next =? 58) then add_dropped id
  else
    let data := sub p (at_ + 8) (remaining - 8) in
    if has_flag flags 0xfff9
    then net_reassemble id 6 src dst next (be32 p (at_ + 4)) (Z.land flags 0xfff8) (has_flag flags 1) data (byte p 7) mac
    else net_ip_deliver id 6 src dst next data (byte p 7) mac.
(** At most eight extension headers. *)
Fixpoint ip6_headers (n : nat) (id : Z) (p mac : list Z) (proto at_ remaining : Z) : N unit :=
  match n with
  | O => add_dropped id
  | S n =>
      if proto =? 44 then ip6_fragment id p mac at_ remaining
      else if negb (proto =? 0) && negb (proto =? 60) && negb (proto =? 43)
      then net_ip_deliver id 6 (sub p 8 16) (sub p 24 16) proto (sub p at_ remaining) (byte p 7) mac
      else if (remaining <? 8) || ((proto =? 0) && negb (at_ =? 40)) then add_error id
      else
        let len := (byte p (at_ + 1) + 1) * 8 in
        if remaining <? len then add_error id
        else if proto =? 43 then
          if negb (byte p (at_ + 3) =? 0) then add_dropped id else ip6_headers n id p mac (byte p at_) (at_ + len) (remaining - len)
        else if negb (ip6_options (Z.to_nat len) p at_ len 2) then add_dropped id
        else ip6_headers n id p mac (byte p at_) (at_ + len) (remaining - len)
  end.
Definition ip6_input (id : Z) (p mac : list Z) : N unit :=
  s <- get;
  let d := dev s id in
  let n := zlen p in
  let dst := sub p 24 16 in
  if (n <? 40) || negb (Z.shiftr (byte p 0) 4 =? 6) || (byte p 7 =? 0) || (byte p 8 =? 255) || (n - 40 <? be16 p 4) then add_error id
  else if negb (net_local d 6 dst) && negb (byte p 24 =? 255) && negb (negb (nd_dad6 d =? 0) && equal_n 16 dst (nd_link_local6 d)) &&
          negb (negb (nd_dadglobal d =? 0) && equal_n 16 dst (cf_address6 (nd_config d)))
  then add_dropped id
  else ip6_headers 8 id p mac (byte p 6) 40 (be16 p 4).
Definition capture (f : k_net_frame) (d : net_device) : net_device :=
  let d := d <| nd_rx_packets ::= Net.count |> <| nd_rx_bytes ::= (fun b => u64 (b + zlen (fr_bytes f))) |> in
  if nd_capture_owner d =? 0 then d
  else if Z.of_nat (length (nd_capture d)) <? 8 then d <| nd_capture ::= (fun c => c ++ [f]) |> else d <| nd_dropped ::= Net.count |>.
Definition net_receive_frame (f : k_net_frame) : N unit :=
  let id := fr_interface f in
  let frame := fr_bytes f in
  put_dev id (capture f);;
  s <- get;
  let d := dev s id in
  let mac := sub frame 6 6 in
  let p := drop 14 frame in
  if negb (has_flag (nd_flags d) K_NET_UP) || (zlen frame <? 14) || negb (Z.land (byte frame 6) 1 =? 0) || zero_n 6 mac then add_dropped id
  else if (Z.land (byte frame 0) 1 =? 0) && negb (equal_n 6 frame (nd_mac d)) then add_dropped id
  else if be16 frame 12 =? 0x0806 then net_arp_input id p mac
  else if be16 frame 12 =? 0x0800 then ip4_input id p mac
  else if be16 frame 12 =? 0x86dd then ip6_input id p mac
  else add_dropped id.
End Input.
