(* ===== verification/NetSock.v ===== *)
(** Sockets and the worker, [src/kernel-src/drivers/net/networking.c] lines
    206-216, 1252-1281, 1762-2322 and 2479-2595: the socket calls, raw frames,
    pings, the configuration of an adapter, and one round of the worker.

    The caller of a socket call is the task [me]; [privileged] is
    [net_privileged].  A blocking call ([k_net_connect], [k_net_ping]) is the
    loop of the source cut at its sleeps: the step that runs under the lock is
    the definition, and [K_EINPROGRESS] or [K_EAGAIN] sends the caller to sleep. *)
From S2P Require Import Prelude Klib Pmm Path State NetSum NetAddr Net Tcp NetInput.

Section Sockets.
Context {D : Type} `{Nics D}.
#[local] Open Scope net_scope.
#[local] Abbreviation N := (@N D).
Implicit Types (s : net D).

Definition net_udp_output (privileged : bool) (i : Z) (bytes : list Z) (to : k_net_address) : N Z :=
  s <- get;
  let x := sock s i in
  let n := zlen bytes in
  match net_route s to (na_interface (s_local x)) with
  | inl e => ret e
  | inr (id, source) =>
      let d := dev s id in
      let bound := negb (addr_zero (s_family x) (na_bytes (s_local x))) in
      if (u32 (nd_mtu d - if s_family x =? 4 then 28 else 48) <? n) || (1472 <? n) then ret K_EMSGSIZE
      else if bound && negb (net_local d (s_family x) (na_bytes (s_local x))) then ret K_ENETUNREACH
      else
        let source := if bound then na_bytes (s_local x) else source in
        let unconfigured := (s_family x =? 4) && negb (has_flag (nd_flags d) K_NET_READY4) in
        if unconfigured && negb privileged then ret K_EPERM
        else
          let source := if unconfigured then ZERO16 else source in
          let p := net_put16 (na_port (s_local x)) ++ net_put16 (na_port to) ++ net_put16 (u16 (n + 8)) ++ [0; 0] ++ bytes in
          let sum := net_transport_sum (s_family x) source (na_bytes to) 17 p in
          net_ip_send id (s_family x) source (na_bytes to) 17 (with_sum 6 p (fun _ => if sum =? 0 then 0xffff else sum)) 64
  end.

(** * Socket calls *)
Definition k_net_socket (me family type : Z) : N (Z + Z) :=
  if (negb (family =? 4) && negb (family =? 6)) || (negb (type =? K_SOCK_UDP) && negb (type =? K_SOCK_TCP)) then ret (inl K_EINVAL)
  else
    new <- net_socket_new family type me;
    s <- get;
    ret (match new with None => inl K_ENOSPC | Some i => inr (s_id (sock s i)) end).
(** A call on a socket of the caller. *)
Definition owned (me handle : Z) (f : Z -> N Z) : N Z :=
  s <- get;
  match net_socket_owned s me handle with None => ret K_EPERM | Some i => f i end.
Definition k_net_bind (me : Z) (privileged : bool) (handle : Z) (a : k_net_address) : N Z :=
  s <- get;
  if negb (net_address_ok (nt_devices_count s) a) then ret K_EINVAL
  else owned me handle (fun i =>
    let x := sock s i in
    let found := any_range 0 (nt_devices_count s) (fun j =>
      ((na_interface a =? NET_NONE) || (na_interface a =? j)) && net_local (dev s j) (na_family a) (na_bytes a)) in
    if negb (na_family a =? s_family x) || negb (is_ns (s_state x) [NS_NEW]) then ret K_EINVAL
    else if negb (na_port a =? 0) && (na_port a <? 1024) && negb privileged then ret K_EPERM
    else if negb (addr_zero (na_family a) (na_bytes a)) && negb found then ret K_ENETUNREACH
    else if negb (na_port a =? 0) && net_port_busy s i a then ret K_EADDRINUSE
    else
      put_sock i (fun x => x <| s_local := a |>);;
      e <- net_autobind i;
      (if e =? 0 then put_sock i (fun x => x <| s_state := NS_BOUND |>) else ret tt);;
      ret e).
(** The first time: a route, a port, the addresses, and a SYN. *)
Definition start_connect (i : Z) (peer : k_net_address) : N Z :=
  s <- get;
  match net_route s peer (na_interface (s_local (sock s i))) with
  | inl e => ret e
  | inr (id, source) =>
      e <- net_autobind i;
      s <- get;
      let x := sock s i in
      let f := s_family x in
      if negb (e =? 0) then ret e
      else if negb (addr_zero f (na_bytes (s_local x))) && negb (addr_equal f (na_bytes (s_local x)) source) then ret K_ENETUNREACH
      else
        put_sock i (fun x => x <| s_local := (s_local x) <| na_interface := id |> <| na_bytes := source |> |> <| s_peer := peer <| na_interface := id |> |>);;
        if s_type x =? K_SOCK_UDP then put_sock i (fun x => x <| s_state := NS_ESTABLISHED |>);; ret 0
        else
          iss <- net_random;
          put_sock i (fun x => x <| s_iss := iss |> <| s_snd_una := iss |> <| s_snd_nxt := u32 (iss + 1) |> <| s_state := NS_SYN_SENT |> <| s_sent_at := 0 |>);;
          net_tcp_pump i (nt_now s);;
          ret 0
  end.
Definition connect_once (me handle : Z) (peer : k_net_address) : N Z :=
  owned me handle (fun i =>
    s <- get;
    let x := sock s i in
    if negb (s_family x =? na_family peer) then ret K_EINVAL
    else
      e <- (if is_ns (s_state x) [NS_NEW; NS_BOUND] then start_connect i peer
            else ret (if negb (na_port (s_peer x) =? na_port peer) || negb (addr_equal (na_family peer) (na_bytes (s_peer x)) (na_bytes peer)) then K_EINVAL else 0));
      s <- get;
      let x := sock s i in
      ret (if negb (e =? 0) then e else if is_ns (s_state x) [NS_ESTABLISHED] then 0 else if is_ns (s_state x) [NS_ERROR] then s_error x else K_EINPROGRESS)).
Definition k_net_connect (me handle : Z) (peer : k_net_address) (timeout : Z) : N Z :=
  s <- get;
  if negb (net_address_ok (nt_devices_count s) peer) || (na_port peer =? 0) || addr_zero (na_family peer) (na_bytes peer) ||
     net_multicast (na_family peer) (na_bytes peer) || (30000 <? timeout)
  then ret K_EINVAL else connect_once me handle peer.
Definition k_net_listen (me handle backlog : Z) : N Z :=
  if (backlog =? 0) || (16 <? backlog) then ret K_EINVAL
  else owned me handle (fun i =>
    s <- get;
    let x := sock s i in
    if negb (s_type x =? K_SOCK_TCP) || negb (is_ns (s_state x) [NS_NEW; NS_BOUND]) then ret K_EINVAL
    else
      e <- net_autobind i;
      (if e =? 0 then put_sock i (fun x => x <| s_state := NS_LISTEN |> <| s_backlog := backlog |>) else ret tt);;
      ret e).
(** The first connection of the listener that is established; those that failed are dropped on the way. *)
Definition accept_step (listener i : Z) s : flow (net D) (net D * (Z + Z * k_net_address)) :=
  let x := sock s i in
  if negb (s_used x) || negb (s_parent x =? listener) then Next s
  else if is_ns (s_state x) [NS_ERROR] then Next (s <| nt_sockets ::= tmod i (fun x => x <| s_used := false |>) |>)
  else if negb (is_ns (s_state x) [NS_ESTABLISHED; NS_CLOSE_WAIT]) then Next s
  else Exit (s <| nt_sockets ::= tmod i (fun x => x <| s_parent := 0 |>) |>, inr (s_id x, s_peer x)).
Definition k_net_accept (me handle : Z) : N (Z + Z * k_net_address) := fun s =>
  match net_socket_owned s me handle with
  | None => (s, inl K_EPERM)
  | Some i =>
      if negb (is_ns (s_state (sock s i)) [NS_LISTEN]) then (s, inl K_EINVAL)
      else match for_range 0 K_NET_MAX_SOCKETS (accept_step (s_id (sock s i))) s with Next s => (s, inl K_EAGAIN) | Exit r => r end
  end.
(** The number of bytes taken, or an error. *)
Definition k_net_send (me : Z) (privileged : bool) (handle : Z) (bytes : list Z) (to : option k_net_address) : N Z :=
  s <- get;
  if (4096 <? zlen bytes) || negb (match to with Some a => net_address_ok (nt_devices_count s) a | None => true end) then ret K_EINVAL
  else owned me handle (fun i =>
    let x := sock s i in
    if is_ns (s_state x) [NS_ERROR] then ret (s_error x)
    else if s_type x =? K_SOCK_UDP then
      let destination := default (s_peer x) to in
      if negb (na_family destination =? s_family x) || (na_port destination =? 0) then ret K_EINVAL
      else
        e <- net_autobind i;
        if negb (e =? 0) then ret e
        else
          put_sock i (fun x => if is_ns (s_state x) [NS_NEW] then x <| s_state := NS_BOUND |> else x);;
          e <- net_udp_output privileged i bytes destination;
          ret (if e =? 0 then zlen bytes else e)
    else if bool_decide (is_Some to) || negb (is_ns (s_state x) [NS_ESTABLISHED; NS_CLOSE_WAIT]) || s_close_requested x then ret K_EINVAL
    else
      let taken := Z.min (zlen bytes) (NET_STREAM - tx_count x) in
      if (taken =? 0) && negb (zlen bytes =? 0) then ret K_EAGAIN
      else
        put_sock i (fun x => x <| s_tx ::= (fun t => t ++ take (Z.to_nat taken) bytes) |>);;
        net_tcp_pump i (nt_now s);;
        ret taken).
(** Bytes out of the receive ring. *)
Definition ring_read (head n : Z) (rx : zmap) : list Z := map (fun j => zget rx ((head + Z.of_nat j) mod NET_STREAM)) (seq 0 (Z.to_nat n)).
Definition consume (n : Z) (x : net_socket) : net_socket := x <| s_rx_head ::= (fun h => (h + n) mod NET_STREAM) |> <| s_rx_count ::= (fun c => c - n) |>.
Definition k_net_receive (me handle n : Z) : N (Z + list Z * option k_net_address) :=
  if 65536 <? n then ret (inl K_EINVAL)
  else
    s <- get;
    match net_socket_owned s me handle with
    | None => ret (inl K_EPERM)
    | Some i =>
        let x := sock s i in
        if s_type x =? K_SOCK_UDP then
          match s_datagrams x with
          | [] => put_sock i (fun x => x <| s_error := 0 |>);; ret (inl (if negb (s_error x =? 0) then s_error x else K_EAGAIN))
          | q :: rest =>
              if n <? zlen (dg_bytes q) then ret (inl K_EMSGSIZE)
              else put_sock i (fun x => x <| s_datagrams := rest |>);; ret (inr (dg_bytes q, Some (dg_from q)))
          end
        else if n =? 0 then ret (inr ([], None))
        else if negb (s_rx_count x =? 0) then
          let taken := Z.min n (s_rx_count x) in
          let data := ring_read (s_rx_head x) taken (s_rx x) in
          put_sock i (consume taken);;
          net_tcp_ack i;;
          ret (inr (data, Some (s_peer x)))
        else ret (if s_peer_fin x then inr ([], None) else inl (if is_ns (s_state x) [NS_ERROR] then s_error x else K_EAGAIN))
    end.
(** The connections that wait for a listener are reset with it. *)
Definition close_child (listener i : Z) : N unit :=
  s <- get;
  let x := sock s i in
  if s_used x && (s_parent x =? listener) then net_tcp_packet x (s_snd_nxt x) (Z.lor TCP_RST TCP_ACK) [];; drop_socket i else ret tt.
Fixpoint n_loop (n : nat) (i : Z) (f : Z -> N unit) : N unit :=
  match n with O => ret tt | S n => f i;; n_loop n (i + 1) f end.
Definition n_for (lo hi : Z) (f : Z -> N unit) : N unit := n_loop (Z.to_nat (hi - lo)) lo f.
Definition net_close_internal (i : Z) : N unit :=
  s <- get;
  let x := sock s i in
  if (s_type x =? K_SOCK_UDP) || is_ns (s_state x) [NS_NEW; NS_BOUND; NS_ERROR] then drop_socket i
  else if is_ns (s_state x) [NS_LISTEN] then n_for 0 K_NET_MAX_SOCKETS (close_child (s_id x));; drop_socket i
  else if is_ns (s_state x) [NS_SYN_SENT; NS_SYN_RCVD] then net_tcp_packet x (s_snd_nxt x) (Z.lor TCP_RST TCP_ACK) [];; drop_socket i
  else put_sock i (fun x => x <| s_detached := true |> <| s_close_requested := true |>);; net_tcp_pump i (nt_now s).
Definition k_net_close (me h : Z) : N Z := owned me h (fun i => net_close_internal i;; ret 0).
Record k_socket_info := mk_socket_info {
  si_handle : Z; si_type : Z; si_state : Z; si_owner_task : Z; si_local : k_net_address; si_peer : k_net_address; si_queued_rx : Z; si_queued_tx : Z; si_error : Z }.
Definition k_net_socket_get s (me h : Z) : Z + k_socket_info :=
  match net_socket_owned s me h with
  | None => inl K_EPERM
  | Some i =>
      let x := sock s i in
      inr (mk_socket_info (s_id x) (s_type x) (ns_code (s_state x)) (s_owner x) (s_local x) (s_peer x)
             (if s_type x =? K_SOCK_UDP then Z.of_nat (length (s_datagrams x)) else s_rx_count x) (tx_count x) (s_error x))
  end.

(** * Raw frames and pings *)
Definition k_net_raw_send (privileged : bool) (id : Z) (bytes : list Z) : N Z :=
  if negb privileged then ret K_EPERM
  else if (zlen bytes <? 14) || (1514 <? zlen bytes) then ret K_EINVAL
  else
    s <- get;
    if nt_devices_count s <=? id then ret K_ENOENT
    else if negb (equal_n 6 (drop 6 bytes) (nd_mac (dev s id))) then ret K_EINVAL
    else nic_transmit id bytes.
(** [wanted] is false for a call that ends the capture. *)
Definition k_net_raw_receive (me : Z) (privileged : bool) (id : Z) (wanted : bool) : N (Z + option k_net_frame) :=
  if negb privileged then ret (inl K_EPERM)
  else
    s <- get;
    let d := dev s id in
    if nt_devices_count s <=? id then ret (inl K_ENOENT)
    else if negb (nd_capture_owner d =? 0) && negb (nd_capture_owner d =? me) then ret (inl K_EBUSY)
    else if negb wanted then put_dev id (fun d => d <| nd_capture_owner := 0 |> <| nd_capture := [] |>);; ret (inr None)
    else
      put_dev id (fun d => d <| nd_capture_owner := me |>);;
      match nd_capture d with
      | [] => ret (inl K_EAGAIN)
      | f :: rest => put_dev id (fun d => d <| nd_capture := rest |>);; ret (inr (Some f))
      end.
(** A ping: the slot and the route that [k_net_ping] starts with. *)
Definition ping_start (me : Z) (to : k_net_address) (timeout : Z) : N (Z + Z * Z * list Z) :=
  s <- get;
  if negb (net_address_ok (nt_devices_count s) to) || (timeout =? 0) || (10000 <? timeout) || net_multicast (na_family to) (na_bytes to) then ret (inl K_EINVAL)
  else
    match find_range 0 8 (fun i => negb (pg_used (nt_pings s !!! i))) with
    | None => ret (inl K_ENOSPC)
    | Some slot =>
        match net_route s to NET_NONE with
        | inl e => ret (inl e)
        | inr (id, source) =>
            token <- net_random;
            modify_net (fun s => s <| nt_pings ::= <[slot := mk_ping true false token me (pg_ms (nt_pings s !!! slot)) (to <| na_interface := id |>) (nt_now s)]> |>);;
            ret (inr (slot, id, source))
        end
    end.
Definition ping_packet (family token start : Z) (src dst : list Z) : list Z :=
  with_sum 2 ([if family =? 4 then 8 else 128; 0; 0; 0] ++ net_put32 token ++ bytes_at (wr64 ∅ 0 start) 0 8 ++ net_put32 (Z.lxor token PING_KEY) ++ [0; 0; 0; 0]) (icmp_sum family src dst).
(** One turn of its loop: whether the packet is out, and the result, [K_EAGAIN] to sleep. *)
Definition ping_turn (to : k_net_address) (slot id : Z) (source : list Z) (start timeout : Z) (sent canceled : bool) : N (bool * (Z + Z)) :=
  s <- get;
  let family := na_family to in
  e <- (if negb sent then net_ip_send id family source (na_bytes to) (icmp_proto family) (ping_packet family (pg_token (nt_pings s !!! slot)) start source (na_bytes to)) 64
        else ret K_EAGAIN);
  s <- get;
  let g := nt_pings s !!! slot in
  let sent := sent || (e =? 0) in
  let e := if (e =? 0) || (e =? K_EAGAIN) then if pg_done g then 0 else K_EAGAIN else e in
  let e := if (e =? K_EAGAIN) && canceled then K_ECANCELED else e in
  let e := if (e =? K_EAGAIN) && (timeout <=? u64 (nt_now s - start)) then K_ETIMEDOUT else e in
  if e =? K_EAGAIN then ret (sent, inl K_EAGAIN)
  else
    modify_net (fun s => s <| nt_pings ::= tmod slot (fun g => g <| pg_used := false |>) |>);;
    ret (sent, if e =? 0 then inr (pg_ms g) else inl e).

(** * Configuration *)
Definition config_ok (c : k_net_config) : bool :=
  let ip := be32 (cf_address c) 0 in
  let mask := be32 (cf_mask c) 0 in
  let gateway := be32 (cf_gateway c) 0 in
  let inverse := u32 (Z.lnot mask) in
  let first := byte (cf_address c) 0 in
  (if negb (ip =? 0) then
     negb ((mask =? 0) || negb (Z.land inverse (u32 (inverse + 1)) =? 0) || (first =? 0) || (first =? 127) || (224 <=? first) ||
           ((1 <? inverse) && ((Z.land ip inverse =? 0) || (Z.land ip inverse =? inverse))) ||
           (negb (gateway =? 0) && (negb (Z.land gateway mask =? Z.land ip mask) || (224 <=? byte (cf_gateway c) 0))))
   else (mask =? 0) && (gateway =? 0)) &&
  negb ((byte (cf_address6 c) 0 =? 255) || (byte (cf_gateway6 c) 0 =? 255) || (byte (cf_dns6 c) 0 =? 255) || (negb (zero_n 16 (cf_address6 c)) && (cf_prefix6 c =? 0))).
Definition reconfigured (now : Z) (c : k_net_config) (d : net_device) : net_device :=
  d <| nd_flags := clear_flags (nd_flags d) (Z.lor (Z.lor K_NET_READY4 K_NET_READY6) K_NET_CONFLICT) |>
    <| nd_mtu := if bool_decide (nd_kind d = NIC_EXTERNAL) then nd_external_mtu d else 1500 |>
    <| nd_dad4 := if negb (be32 (cf_address c) 0 =? 0) then 3 else 0 |> <| nd_dad6 := 3 |> <| nd_dadglobal := if zero_n 16 (cf_address6 c) then 0 else 3 |>
    <| nd_dad_at := now |> <| nd_probe_at := now |> <| nd_auto_rs := 3 |> <| nd_router_until := 0 |> <| nd_prefix_until := 0 |> <| nd_dns_until := 0 |>.
Definition k_net_configure (privileged : bool) (c : k_net_config) : N Z :=
  s <- get;
  let id := cf_interface c in
  let now := nt_now s in
  let d := dev s id in
  if (id =? 0) || (nt_devices_count s <=? id) || negb (Z.land (cf_flags c) (Z.lnot 3) =? 0) || (128 <? cf_prefix6 c) || (604800 <? cf_lease_seconds c) then ret K_EINVAL
  else if negb privileged then ret K_EPERM
  else if negb (config_ok c) then ret K_EINVAL
  else if nd_dead d then ret (if negb (nd_error d =? 0) then nd_error d else K_ENETDOWN)
  else
    let changed := negb (equal_n 4 (cf_address c) (cf_address (nd_config d))) || negb (equal_n 16 (cf_address6 c) (cf_address6 (nd_config d))) ||
                   has_flag (Z.lxor (cf_flags c) (cf_flags (nd_config d))) K_NET_UP in
    put_dev id (fun d => d <| nd_config := c |> <| nd_flags := Z.lor (clear_flags (nd_flags d) (Z.lor K_NET_UP K_NET_AUTO6)) (cf_flags c) |>
                           <| nd_config_until := if negb (cf_lease_seconds c =? 0) then u64 (now + cf_lease_seconds c * 1000) else 0 |>);;
    (if changed then
       put_dev id (reconfigured now c);;
       modify_net (fun s => s <| nt_neighbors := fold_range 0 NET_NEIGHBORS (fun i t => if ne_interface (t !!! i) =? id then tmod i (fun e => e <| ne_used := false |>) t else t) (nt_neighbors s) |>);;
       n_for 0 K_NET_MAX_SOCKETS (fun i =>
         s <- get;
         let x := sock s i in
         if s_used x && (s_type x =? K_SOCK_TCP) && (na_interface (s_local x) =? id) then net_tcp_error i K_ENETDOWN else ret tt)
     else if has_flag (cf_flags c) K_NET_AUTO6 then put_dev id (fun d => if nd_auto_rs d =? 0 then d <| nd_auto_rs := 3 |> else d) else ret tt);;
    ret 0.

(** * The worker *)
Definition expire_device (now : Z) (d : net_device) : net_device :=
  let passed := fun until => negb (until =? 0) && (until <=? now) in
  let d := if passed (nd_config_until d)
           then d <| nd_config_until := 0 |> <| nd_flags := clear_flags (nd_flags d) K_NET_READY4 |> <| nd_dad4 := 0 |>
                  <| nd_config ::= (fun c => c <| cf_address := ZERO4 |> <| cf_mask := ZERO4 |> <| cf_gateway := ZERO4 |> <| cf_dns := ZERO4 |>) |> else d in
  let d := if passed (nd_router_until d) then d <| nd_config ::= (fun c => c <| cf_gateway6 := ZERO16 |>) |> <| nd_router_until := 0 |> else d in
  let d := if passed (nd_dns_until d) then d <| nd_config ::= (fun c => c <| cf_dns6 := ZERO16 |>) |> <| nd_dns_until := 0 |> else d in
  if passed (nd_prefix_until d) then d <| nd_config ::= (fun c => c <| cf_address6 := ZERO16 |>) |> <| nd_prefix_until := 0 |> <| nd_dadglobal := 0 |> else d.
(** Duplicate address detection: two probes, then the address is ready. *)
Definition dad_ipv4 (id : Z) : N unit :=
  s <- get;
  let d := dev s id in
  let own := cf_address (nd_config d) in
  if nd_dad4 d =? 0 then ret tt
  else if 1 <? nd_dad4 d then
    e <- net_arp_send id 1 BROADCAST ZERO4 own;
    if e =? 0 then put_dev id (fun d => d <| nd_dad4 ::= (fun n => n - 1) |>) else ret tt
  else
    put_dev id (fun d => d <| nd_dad4 := 0 |> <| nd_flags ::= (fun f => Z.lor f K_NET_READY4) |>);;
    net_arp_send id 1 BROADCAST own own;; ret tt.
Definition dad_link (id : Z) : N unit :=
  s <- get;
  let d := dev s id in
  if nd_dad6 d =? 0 then ret tt
  else if 1 <? nd_dad6 d then
    e <- nd_solicit id (nd_link_local6 d) true;
    if e =? 0 then put_dev id (fun d => d <| nd_dad6 ::= (fun n => n - 1) |>) else ret tt
  else put_dev id (fun d => d <| nd_dad6 := 0 |> <| nd_flags ::= (fun f => Z.lor f K_NET_READY6) |>).
Definition dad_global (id : Z) : N unit :=
  s <- get;
  let d := dev s id in
  if nd_dadglobal d =? 0 then ret tt
  else if 1 <? nd_dadglobal d then
    e <- nd_solicit id (cf_address6 (nd_config d)) true;
    if e =? 0 then put_dev id (fun d => d <| nd_dadglobal ::= (fun n => n - 1) |>) else ret tt
  else put_dev id (fun d => d <| nd_dadglobal := 0 |>).
Definition ALL_ROUTERS : list Z := [255; 2] ++ replicate 13 0 ++ [2].
Definition router_solicitation (id now : Z) : N unit :=
  s <- get;
  let d := dev s id in
  if negb (nd_auto_rs d =? 0) && has_flag (cf_flags (nd_config d)) K_NET_AUTO6 && has_flag (nd_flags d) K_NET_READY6 && (nd_probe_at d <=? now) then
    let p := [133; 0; 0; 0; 0; 0; 0; 0; 1; 1] ++ take 6 (nd_mac d) in
    e <- net_ip_send id 6 (nd_link_local6 d) ALL_ROUTERS 58 (with_sum 2 p (net_transport_sum 6 (nd_link_local6 d) ALL_ROUTERS 58)) 255;
    (if e =? 0 then put_dev id (fun d => d <| nd_auto_rs ::= (fun n => n - 1) |>) else ret tt);;
    put_dev id (fun d => d <| nd_probe_at := u64 (now + 4000) |>)
  else ret tt.
Definition poll_device (now id : Z) : N unit :=
  put_dev id (expire_device now);;
  s <- get;
  let d := dev s id in
  if nd_dead d || negb (Z.land (nd_flags d) (Z.lor K_NET_UP K_NET_LINK) =? Z.lor K_NET_UP K_NET_LINK) then ret tt
  else
    (if negb (has_flag (nd_flags d) K_NET_CONFLICT) && (nd_dad_at d <=? now) then
       put_dev id (fun d => d <| nd_dad_at := u64 (now + 1000) |>);;
       dad_ipv4 id;; dad_link id;; dad_global id
     else ret tt);;
    router_solicitation id now.
(** [gone] says that a task does not exist or is a zombie: its sockets are closed, its captures end. *)
Definition poll_socket (gone : Z -> bool) (gc : bool) (now i : Z) : N unit :=
  s <- get;
  let x := sock s i in
  if negb (s_used x) then ret tt
  else if gc && negb (s_detached x) && gone (s_owner x) then net_close_internal i
  else if negb (s_parent x =? 0) && is_ns (s_state x) [NS_ERROR] then drop_socket i
  else net_tcp_pump i now.
Definition net_poll_protocols (gone : Z -> bool) (now : Z) : N unit :=
  s <- get;
  n_for 1 (nt_devices_count s) (poll_device now);;
  let gc := nt_gc_at s <=? now in
  (if gc then modify_net (fun s => s <| nt_gc_at := u64 (now + 1000) |>) else ret tt);;
  n_for 0 K_NET_MAX_SOCKETS (poll_socket gone gc now);;
  if gc then
    n_for 0 (nt_devices_count s) (fun id =>
      put_dev id (fun d => if negb (nd_capture_owner d =? 0) && gone (nd_capture_owner d) then d <| nd_capture_owner := 0 |> <| nd_capture := [] |> else d))
  else ret tt.
(** At most 64 frames of the queue are taken in one round. *)
Fixpoint receive_queue (budget : nat) : N unit :=
  match budget with
  | O => ret tt
  | S budget =>
      s <- get;
      match nt_queue s with
      | [] => ret tt
      | f :: rest => modify_net (fun s => s <| nt_queue := rest |>);; net_receive_frame f;; receive_queue budget
      end
  end.
(** A round of [net_worker], after the adapters were polled. *)
Definition net_round (gone : Z -> bool) : N unit :=
  receive_queue 64;;
  s <- get;
  net_poll_protocols gone (nt_now s).
End Sockets.
