(* ===== verification/TcpStream.v ===== *)
(** What TCP receives is what the peer sent: segments in any order, repeated
    and overlapping, leave in the receive ring, and so give the reader, the
    bytes of the stream in their order and each of them once. *)
From S2P Require Import Prelude Klib Path State NetSum NetAddr Net Tcp NetInput NetSock.

(** * The receive ring *)
Lemma u32_diff a b : u32 (u32 (a + b) - u32 a) = u32 b.
Proof. unfold u32. rewrite <- Zminus_mod. f_equal. lia. Qed.
Lemma u32_sub a b c : u32 (u32 (a + b) - u32 (a + c)) = u32 (b - c).
Proof. unfold u32. rewrite <- Zminus_mod. f_equal. lia. Qed.
Lemma u32_add a b : u32 (u32 a + b) = u32 (a + b).
Proof. unfold u32. by rewrite Zplus_mod_idemp_l. Qed.
Lemma u32_small a : 0 <= a < 2 ^ 32 -> u32 a = a.
Proof. apply Z.mod_small. Qed.
Lemma u32_neg a : - 2 ^ 32 <= a < 0 -> u32 a = a + 2 ^ 32.
Proof. intros. unfold u32. symmetry. apply (Z.mod_unique _ _ (-1)); lia. Qed.

(** Sequence numbers less than 2^31 apart compare as the positions in the stream. *)
Lemma seq_before_spec base a b : - 2 ^ 31 <= a - b < 2 ^ 31 -> net_seq_before (u32 (base + a)) (u32 (base + b)) = (a <? b).
Proof.
  intros Hab. unfold net_seq_before. rewrite u32_sub.
  destruct (Z.ltb_spec a b); [rewrite u32_neg by lia|rewrite u32_small by lia]; [apply Z.leb_le|apply Z.leb_gt]; lia.
Qed.
Lemma seq_equal_spec base a b : - 2 ^ 31 <= a - b < 2 ^ 31 -> (u32 (base + a) =? u32 (base + b)) = (a =? b).
Proof.
  intros Hab. destruct (Z.eqb_spec a b) as [->|Hne]; [apply Z.eqb_refl|]. apply Z.eqb_neq. intros He.
  assert (Hz : u32 (a - b) = 0) by (rewrite <- (u32_sub base), He, Z.sub_diag; reflexivity).
  destruct (Z.lt_trichotomy a b) as [ | [ | ]]; [rewrite u32_neg in Hz by lia|lia|rewrite u32_small in Hz by lia]; lia.
Qed.
Lemma mod_slot head i j : 0 <= i < NET_STREAM -> 0 <= j < NET_STREAM -> (head + i) mod NET_STREAM = (head + j) mod NET_STREAM -> i = j.
Proof. unfold NET_STREAM. intros Hi Hj He. dlia. Qed.
Lemma ring_write_get head n data rx k :
  0 <= n -> n + zlen data <= NET_STREAM -> 0 <= k < NET_STREAM ->
  zget (ring_write head n data rx) ((head + k) mod NET_STREAM) =
  if (n <=? k) && (k <? n + zlen data) then byte data (k - n) else zget rx ((head + k) mod NET_STREAM).
Proof.
  intros Hn Hd Hk. unfold ring_write.
  apply (fold_range_inv (fun i m => zget m ((head + k) mod NET_STREAM) =
    if (n <=? k) && (k <? n + i) then byte data (k - n) else zget rx ((head + k) mod NET_STREAM))).
  - apply zlen_nonneg.
  - by destruct (Z.leb_spec n k), (Z.ltb_spec k (n + 0)); try lia.
  - intros i m Hi IH. rewrite zget_put. destruct (Z.eqb_spec ((head + n + i) mod NET_STREAM) ((head + k) mod NET_STREAM)) as [He|Hne].
    + rewrite <- Z.add_assoc in He. apply mod_slot in He; [|lia|lia]. subst k.
      rewrite (proj2 (Z.leb_le _ _)), (proj2 (Z.ltb_lt _ _)) by lia. cbn. f_equal. lia.
    + rewrite IH. destruct (Z.leb_spec n k), (Z.ltb_spec k (n + i)), (Z.ltb_spec k (n + (i + 1))); try lia; try reflexivity.
      destruct Hne. f_equal. lia.
Qed.
Lemma zlen_sub p a n : 0 <= a -> 0 <= n -> a + n <= zlen p -> zlen (sub p a n) = n.
Proof. unfold zlen, sub. intros. rewrite length_take, length_drop. lia. Qed.
Lemma byte_sub p a n i : 0 <= a -> 0 <= i < n -> byte (sub p a n) i = byte p (a + i).
Proof.
  intros Ha Hi. unfold byte, sub. rewrite !list_lookup_total_alt, lookup_take_lt, lookup_drop by lia.
  do 2 f_equal. lia.
Qed.
Lemma drop_sub p a n k : 0 <= a -> 0 <= k <= n -> drop (Z.to_nat k) (sub p a n) = sub p (a + k) (n - k).
Proof. intros Ha Hk. unfold sub. rewrite skipn_firstn_comm, drop_drop. f_equal; [lia|f_equal; lia]. Qed.
Lemma take_sub p a n k : 0 <= k <= n -> take (Z.to_nat k) (sub p a n) = sub p a k.
Proof. intros Hk. unfold sub. rewrite take_take. f_equal. lia. Qed.
Lemma sub_app p a m n : 0 <= a -> 0 <= m -> 0 <= n -> sub p a m ++ sub p (a + m) n = sub p a (m + n).
Proof.
  intros Ha Hm Hn. unfold sub. rewrite (Z2Nat.inj_add a m), (Z2Nat.inj_add m n) by lia.
  rewrite <- drop_drop. apply take_take_drop.
Qed.

(** * The stream *)

(** Of the peer's stream [S], whose first byte has sequence number [base],
    [got] bytes have arrived in order and [read] of them have been read. *)
Record streaming (S : list Z) (base got read : Z) (x : net_socket) : Prop := {
  st_read : 0 <= read <= got;
  st_got : got <= zlen S;
  st_count : s_rx_count x = got - read;
  st_room : got - read <= NET_STREAM;
  st_next : s_rcv_nxt x = u32 (base + (got + if s_peer_fin x then 1 else 0));
  st_fin : s_peer_fin x = true -> got = zlen S;
  st_ring : forall k, 0 <= k < got - read -> zget (s_rx x) ((s_rx_head x + k) mod NET_STREAM) = byte S (read + k);
}.
(** A segment of the stream, [len] bytes from the offset [off], with a FIN only
    at its end; it is not 2^31 bytes away from what the receiver waits for. *)
Record segment_of (S : list Z) (got off len : Z) (fin : bool) : Prop := {
  sg_off : 0 <= off;
  sg_len : 0 <= len;
  sg_end : off + len <= zlen S;
  sg_fin : fin = true -> off + len = zlen S;
  sg_near : - 2 ^ 31 < off - got < 2 ^ 31;
  sg_after : off + len - got < 2 ^ 31
}.
(** The bytes that are new and fit. *)
Definition news (got off len room : Z) : Z := if off <=? got then Z.max 0 (Z.min (off + len - got) room) else 0.

Lemma u32_base base a b : u32 (base + (a + b)) = u32 (u32 (base + a) + b).
Proof. rewrite u32_add. f_equal. lia. Qed.
Lemma receive_streaming S base got read n x :
  streaming S base got read x -> s_peer_fin x = false -> 0 <= n -> got + n <= zlen S -> n <= NET_STREAM - s_rx_count x ->
  streaming S base (got + n) read (receive_bytes (sub S got n) x).
Proof.
  intros [Hr Hg Hc Hroom Hnext Hfin Hring] Hopen Hn Hend Hfit. pose proof (zlen_sub S got n ltac:(lia) Hn Hend) as Hlen.
  rewrite Hopen in Hnext. unfold receive_bytes. split; cbn; rewrite ?Hlen, ?Hopen.
  - lia.
  - done.
  - rewrite Hc, u32_small; [lia|]. unfold NET_STREAM in *. lia.
  - lia.
  - rewrite Hnext, Z.add_0_r, Z.add_0_r, <- u32_base. reflexivity.
  - done.
  - intros k Hk. rewrite ring_write_get by (rewrite ?Hlen; unfold NET_STREAM in *; lia). rewrite Hlen, Hc.
    destruct (Z.leb_spec (got - read) k) as [Hge|Hlt]; cbn [andb].
    + rewrite (proj2 (Z.ltb_lt _ _)) by lia. rewrite byte_sub by lia. f_equal. lia.
    + apply Hring. lia.
Qed.
Lemma fin_streaming S base got read now x :
  streaming S base got read x -> s_peer_fin x = false -> got = zlen S -> streaming S base got read (receive_fin now x) /\ s_peer_fin (receive_fin now x) = true.
Proof.
  intros [Hr Hg Hc Hroom Hnext Hfin Hring] Hopen Hend. rewrite Hopen in Hnext.
  assert (Hx : s_peer_fin (receive_fin now x) = true /\ s_rx (receive_fin now x) = s_rx x /\ s_rx_count (receive_fin now x) = s_rx_count x /\
    s_rx_head (receive_fin now x) = s_rx_head x /\ s_rcv_nxt (receive_fin now x) = u32 (s_rcv_nxt x + 1))
    by (unfold receive_fin; cbn; destruct (s_state x); cbn; auto).
  destruct Hx as (H1 & H2 & H3 & H4 & H5). split; [|done].
  split; rewrite ?H1, ?H2, ?H3, ?H4, ?H5; try done. rewrite Hnext, Z.add_0_r, <- u32_base. reflexivity.
Qed.
Lemma accept_streaming S base got read now off len fin x :
  streaming S base got read x -> segment_of S got off len fin ->
  let r := accept_data now (u32 (base + off)) fin (sub S off len) x in
  let n := if s_peer_fin x then 0 else news got off len (NET_STREAM - s_rx_count x) in
  streaming S base (got + n) read (fst r) /\
  (off <= got -> fin = true -> off + len - got <= NET_STREAM - s_rx_count x -> s_peer_fin (fst r) = true).
Proof.
  intros Hst [Hoff Hlen Hend Hfin Hnear Hafter]. pose proof Hst as [Hr Hg Hc Hroom Hnext Hpf Hring].
  pose proof (zlen_sub S off len Hoff Hlen Hend) as Hz. unfold accept_data, news.
  assert (Hpos : 0 <= NET_STREAM - s_rx_count x) by lia.
  set (e := if s_peer_fin x then 1 else 0) in *. assert (He : 0 <= e <= 1) by (unfold e; destruct (s_peer_fin x); lia).
  rewrite Hnext, seq_before_spec, Hz by lia.
  set (trim := if off <? got + e then _ else 0).
  assert (Ht : 0 <= trim <= len /\ trim = if off <? got + e then Z.min (got + e - off) len else 0).
  { unfold trim. destruct (Z.ltb_spec off (got + e)); [|lia]. rewrite u32_sub, u32_small by lia. lia. }
  clearbody trim. destruct Ht as [Htl Ht]. rewrite u32_add, <- Z.add_assoc, seq_equal_spec by (destruct (Z.ltb_spec off (got + e)); lia).
  rewrite drop_sub, zlen_sub by lia.
  destruct (s_peer_fin x) eqn:Hopen.
  { specialize (Hpf eq_refl). subst e. replace (got + 0) with got by lia.
    destruct (Z.eqb_spec (off + trim) (got + 1)) as [Heq|]; [exfalso; destruct (Z.ltb_spec off (got + 1)); lia|].
    cbn [negb fst]. done. }
  subst e. destruct (Z.eqb_spec (off + trim) (got + 0)) as [Heq|Hne]; cbn [negb fst].
  - assert (Hle : off <= got) by lia. rewrite (proj2 (Z.leb_le _ _)) by lia.
    set (n := Z.min (len - trim) (NET_STREAM - s_rx_count x)). replace (Z.max 0 _) with n by lia.
    assert (Hn : 0 <= n /\ got + n <= zlen S /\ n <= NET_STREAM - s_rx_count x) by lia. destruct Hn as (Hn0 & Hn1 & Hn2).
    rewrite take_sub by lia. replace (off + trim) with got by lia.
    pose proof (receive_streaming S base got read n x Hst Hopen Hn0 Hn1 Hn2) as Hrec.
    assert (Ho : s_peer_fin (receive_bytes (sub S got n) x) = false) by exact Hopen. rewrite Ho. cbn [negb]. rewrite andb_true_r.
    destruct fin; cbn [andb]; [|done]. destruct (Z.eqb_spec n (len - trim)) as [Hall|Hpart].
    + destruct (fin_streaming S base (got + n) read now _ Hrec Ho ltac:(specialize (Hfin eq_refl); lia)). done.
    + split; [done|]. lia.
  - assert (Hz0 : (if off <=? got then Z.max 0 (Z.min (off + len - got) (NET_STREAM - s_rx_count x)) else 0) = 0).
    { destruct (Z.leb_spec off got); [|done]. destruct (Z.ltb_spec off (got + 0)); lia. }
    rewrite Hz0, Z.add_0_r. split; [done|]. intros Hle Hf _. specialize (Hfin Hf). destruct (Z.ltb_spec off (got + 0)); lia.
Qed.
Lemma consume_streaming S base got read n x :
  streaming S base got read x -> 0 <= n <= got - read ->
  ring_read (s_rx_head x) n (s_rx x) = sub S read n /\ streaming S base got (read + n) (consume n x).
Proof.
  intros [Hr Hg Hc Hroom Hnext Hfin Hring] Hn. split.
  - apply list_eq. intros j. unfold ring_read, sub.
    destruct (decide (j < Z.to_nat n)%nat) as [Hj|Hj].
    + rewrite list_lookup_fmap, lookup_seq_lt by lia. cbn [fmap option_fmap option_map].
      rewrite lookup_take_lt, lookup_drop by lia. rewrite Hring by lia. unfold byte, zlen in *.
      rewrite list_lookup_lookup_total_lt by lia. do 2 f_equal. lia.
    + rewrite !lookup_ge_None_2; [done| |]; rewrite ?length_take, ?length_fmap, ?length_seq; lia.
  - split; cbn; [lia|lia|lia|lia|exact Hnext|exact Hfin|].
    intros k Hk. replace (read + n + k) with (read + (n + k)) by lia. rewrite <- (Hring (n + k)) by lia. f_equal.
    unfold NET_STREAM. rewrite Zplus_mod_idemp_l. f_equal. lia.
Qed.

(** The socket and the bytes read after segments of the stream have arrived, in
    any order, and the reader has asked for any numbers of bytes. *)
Inductive received (S : list Z) (base : Z) (x0 : net_socket) : net_socket -> list Z -> Prop :=
  | received_none : received S base x0 x0 []
  | received_segment now off len fin x out :
      received S base x0 x out -> segment_of S (zlen out + s_rx_count x) off len fin ->
      received S base x0 (fst (accept_data now (u32 (base + off)) fin (sub S off len) x)) out
  | received_read n x out :
      received S base x0 x out -> 0 <= n ->
      received S base x0 (consume (Z.min n (s_rx_count x)) x) (out ++ ring_read (s_rx_head x) (Z.min n (s_rx_count x)) (s_rx x)).
Record fresh (base : Z) (x : net_socket) : Prop := { fr_count : s_rx_count x = 0; fr_next : s_rcv_nxt x = u32 base; fr_open : s_peer_fin x = false }.
Lemma fresh_streaming S base x : fresh base x -> streaming S base 0 0 x.
Proof.
  intros [Hc Hn Ho]. split; rewrite ?Ho; unfold NET_STREAM; try done; try lia.
  - apply zlen_nonneg.
  - by rewrite Hn, !Z.add_0_r.
Qed.
Lemma received_streaming S base x0 x out :
  fresh base x0 -> received S base x0 x out -> streaming S base (zlen out + s_rx_count x) (zlen out) x /\ out = sub S 0 (zlen out).
Proof.
  intros Hf. induction 1 as [|now off len fin x out Hrec [IH Hout] Hseg|n x out Hrec [IH Hout] Hn].
  - pose proof (fresh_streaming S base x0 Hf) as Hs. rewrite (fr_count _ _ Hf). split; [exact Hs|reflexivity].
  - destruct (accept_streaming _ _ _ _ now _ _ _ _ IH Hseg) as [Hs _].
    split; [|exact Hout]. pose proof (st_count _ _ _ _ _ Hs) as Hc. rewrite Hc.
    match type of Hs with streaming _ _ ?g _ _ => replace (zlen out + (g - zlen out)) with g by lia end. exact Hs.
  - pose proof (st_count _ _ _ _ _ IH) as Hc. pose proof (st_read _ _ _ _ _ IH) as Hr. pose proof (st_got _ _ _ _ _ IH) as Hg.
    set (m := Z.min n (s_rx_count x)). assert (Hm : 0 <= m <= s_rx_count x) by lia.
    destruct (consume_streaming _ _ _ _ m _ IH ltac:(lia)) as [Hread Hs]. rewrite Hread, zlen_app, zlen_sub by lia. split.
    + cbn [consume s_rx_count modify]. change (s_rx_count (consume m x)) with (s_rx_count x - m).
      replace (zlen out + m + (s_rx_count x - m)) with (zlen out + s_rx_count x) by lia. exact Hs.
    + rewrite Hout at 1. change (zlen out) with (0 + zlen out) at 2. rewrite sub_app by lia. done.
Qed.

(** C28: whatever the order in which the segments of the peer's stream arrive,
    and however often or overlapping they arrive, the bytes the reader has got
    are the beginning of the stream, and those it will get next are the ones
    that follow; the ring never holds more than it can; and a segment that
    contains the byte the receiver waits for delivers what fits of it, so that
    the end of the stream is known exactly when all of it has arrived. *)
Theorem tcp_stream_in_order S base x0 x out :
  fresh base x0 -> received S base x0 x out ->
  out ++ ring_read (s_rx_head x) (s_rx_count x) (s_rx x) = sub S 0 (zlen out + s_rx_count x) /\
  0 <= s_rx_count x <= NET_STREAM /\
  (s_peer_fin x = true -> out ++ ring_read (s_rx_head x) (s_rx_count x) (s_rx x) = S) /\
  (forall now off len fin, segment_of S (zlen out + s_rx_count x) off len fin -> off <= zlen out + s_rx_count x -> s_peer_fin x = false ->
     let y := fst (accept_data now (u32 (base + off)) fin (sub S off len) x) in
     s_rx_count y = Z.max (s_rx_count x) (Z.min (off + len - zlen out) NET_STREAM) /\
     (fin = true -> off + len - zlen out <= NET_STREAM -> s_peer_fin y = true)).
Proof.
  intros Hf Hrec. destruct (received_streaming S base x0 x out Hf Hrec) as [Hs Hout].
  pose proof (st_count _ _ _ _ _ Hs) as Hc. pose proof (st_read _ _ _ _ _ Hs) as Hr. pose proof (st_room _ _ _ _ _ Hs) as Hroom.
  destruct (consume_streaming _ _ _ _ (s_rx_count x) _ Hs ltac:(lia)) as [Hread _].
  assert (Hall : out ++ ring_read (s_rx_head x) (s_rx_count x) (s_rx x) = sub S 0 (zlen out + s_rx_count x)).
  { rewrite Hread, Hout at 1. change (zlen out) with (0 + zlen out) at 2. apply sub_app; lia. }
  split_and!; [exact Hall|lia|lia| |].
  - intros Hfin. rewrite Hall, (st_fin _ _ _ _ _ Hs Hfin). unfold sub, zlen. rewrite Nat2Z.id. apply take_ge. cbn. lia.
  - intros now off len fin Hseg Hoff Hopen. destruct (accept_streaming _ _ _ _ now _ _ _ _ Hs Hseg) as [Hs' Hfin']. rewrite Hopen in Hs'.
    split; [|intros Hf' Hfit; apply Hfin'; [exact Hoff|exact Hf'|lia]].
    rewrite (st_count _ _ _ _ _ Hs'). unfold news. rewrite (proj2 (Z.leb_le _ _)) by exact Hoff. lia.
Qed.

(** Five bytes whose sequence numbers wrap around: their end comes first and is
    lost, then three bytes, of which two are read, then everything again. *)
Definition demo_bytes : list Z := [10; 20; 30; 40; 50].
Definition demo_open : net_socket := socket0 <| s_state := NS_ESTABLISHED |> <| s_rcv_nxt := 0xfffffffe |>.
Definition demo_arrives (off len : Z) (fin : bool) (x : net_socket) : net_socket := fst (accept_data 0 (u32 (0xfffffffe + off)) fin (sub demo_bytes off len) x).
Definition demo_got : net_socket := demo_arrives 0 3 false (demo_arrives 2 3 true demo_open).
Definition demo_left : net_socket := demo_arrives 0 5 true (consume (Z.min 2 (s_rx_count demo_got)) demo_got).
Lemma demo_received : received demo_bytes 0xfffffffe demo_open demo_left ([] ++ ring_read (s_rx_head demo_got) (Z.min 2 (s_rx_count demo_got)) (s_rx demo_got)).
Proof.
  unfold demo_left, demo_got, demo_arrives. apply received_segment.
  - apply received_read; [|lia]. apply received_segment.
    + apply received_segment; [apply received_none|]. by split; vm_compute.
    + by split; vm_compute.
  - by split; vm_compute.
Qed.
Lemma tcp_stream_in_order_witness :
  (ring_read (s_rx_head demo_got) (Z.min 2 (s_rx_count demo_got)) (s_rx demo_got) = [10; 20] /\
   ring_read (s_rx_head demo_left) (s_rx_count demo_left) (s_rx demo_left) = [30; 40; 50] /\ s_peer_fin demo_left = true) /\
  0 <= s_rx_count demo_left <= NET_STREAM.
Proof.
  split; [by vm_compute|].
  refine (proj1 (proj2 (tcp_stream_in_order demo_bytes 0xfffffffe demo_open demo_left _ _ demo_received))).
  by split; vm_compute.
Defined.
