(* ===== verification/NetFragments.v ===== *)
(** Reassembly: the pieces of a datagram make up the datagram in whatever order
    they arrive, exactly when all of it is there, and a piece that overlaps
    what has arrived is refused. *)
From S2P Require Import Prelude Klib Pmm Path State NetSum NetAddr Net Tcp NetInput NetSock TcpStream.

(** A piece of the datagram [W]: its offset and its size; all but the last have more behind them. *)
Definition piece_of (W : list Z) (p : Z * Z) : Prop := 0 <= fst p /\ 0 < snd p /\ fst p + snd p <= zlen W.
Definition piece_end (p : Z * Z) : Z := fst p + snd p.
Definition apart_pieces (p q : Z * Z) : Prop := piece_end p <= fst q \/ piece_end q <= fst p.
Definition within (p : Z * Z) (i : Z) : Prop := fst p <= i < piece_end p.
Definition covers (l : list (Z * Z)) (i : Z) : Prop := Exists (fun p => within p i) l.
Definition add_piece (W : list Z) (p : Z * Z) (f : net_fragment) : option net_fragment :=
  add_fragment (fst p) (piece_end p <? zlen W) (sub W (fst p) (snd p)) f.
Fixpoint add_pieces (W : list Z) (l : list (Z * Z)) (f : net_fragment) : option net_fragment :=
  match l with
  | [] => Some f
  | p :: l => match add_piece W p f with Some f => add_pieces W l f | None => None end
  end.

(** What the table's entry knows after the pieces [l]. *)
Record assembled (W : list Z) (l : list (Z * Z)) (f : net_fragment) : Prop := {
  as_pieces : Forall (piece_of W) l;
  as_seen : forall i, bit_get (fg_seen f) i = true <-> covers l i;
  as_final : fg_final_size f = zlen W /\ Exists (fun p => piece_end p = zlen W) l \/ fg_final_size f = 0 /\ Forall (fun p => piece_end p <> zlen W) l;
  as_bytes : forall i, covers l i -> zget (fg_bytes f) i = byte W i
}.
Lemma covers_bounds W l i : Forall (piece_of W) l -> covers l i -> 0 <= i < zlen W.
Proof.
  intros Hl Hc. apply Exists_exists in Hc as (p & Hp & Hi). rewrite Forall_forall in Hl. specialize (Hl p Hp).
  unfold piece_of, within, piece_end in *. lia.
Qed.
Lemma has_seen_false seen lo hi : has_seen seen lo hi = false <-> (forall i, lo <= i < hi -> bit_get seen i = false).
Proof.
  unfold has_seen. split.
  - intros H i Hi. apply not_true_iff_false. intros Hb. apply not_true_iff_false in H. apply H, any_range_spec. by exists i.
  - intros H. apply not_true_iff_false. rewrite any_range_spec. intros (i & Hi & Hb). rewrite (H i Hi) in Hb. discriminate.
Qed.
Lemma apart_covers l p : 0 < snd p -> Forall (fun q => 0 < snd q) l -> Forall (apart_pieces p) l <-> (forall i, within p i -> ~ covers l i).
Proof.
  intros Hp Hl. unfold covers. split.
  - intros Ha i Hi Hc. apply Exists_exists in Hc as (q & Hq & Hqi). rewrite Forall_forall in Ha. specialize (Ha q Hq).
    unfold apart_pieces, within in *. lia.
  - intros Hn. apply Forall_forall. intros q Hq. rewrite Forall_forall in Hl. specialize (Hl q Hq). unfold apart_pieces.
    destruct (Z.le_gt_cases (piece_end p) (fst q)) as [ | H1]; [by left|]. destruct (Z.le_gt_cases (piece_end q) (fst p)) as [ | H2]; [by right|].
    exfalso. apply (Hn (Z.max (fst p) (fst q))); [unfold within, piece_end in *; lia|].
    apply Exists_exists. exists q. split; [exact Hq|]. unfold within, piece_end in *. lia.
Qed.
Lemma pieces_pos W l : Forall (piece_of W) l -> Forall (fun q => 0 < snd q) l.
Proof. intros H. apply (Forall_impl _ _ _ H). intros q Hq. apply Hq. Qed.
Lemma covers_seen W l f p : assembled W l f -> piece_of W p ->
  Forall (apart_pieces p) l <-> has_seen (fg_seen f) (fst p) (piece_end p) = false.
Proof.
  intros Ha Hp. rewrite (apart_covers l p) by (apply Hp || exact (pieces_pos W l (as_pieces _ _ _ Ha))).
  rewrite has_seen_false. split.
  - intros H i Hi. apply not_true_iff_false. rewrite (as_seen _ _ _ Ha). apply H, Hi.
  - intros H i Hi Hc. apply (as_seen _ _ _ Ha) in Hc. rewrite (H i Hi) in Hc. discriminate.
Qed.
Lemma add_piece_ok W l f p :
  zlen W <= NET_FRAG_BYTES -> assembled W l f -> piece_of W p -> Forall (apart_pieces p) l ->
  exists g, add_piece W p f = Some g /\ assembled W (p :: l) g.
Proof.
  intros HW Ha Hp Hapart. pose proof Ha as [Hl Hseen Hfinal Hbytes]. pose proof Hp as (Hp1 & Hp2 & Hp3).
  assert (Hlen : zlen (sub W (fst p) (snd p)) = snd p) by (apply zlen_sub; lia).
  unfold add_piece, add_fragment. rewrite Hlen. fold (piece_end p).
  assert (Hsize : fg_final_size f = 0 \/ fg_final_size f = zlen W) by (destruct Hfinal as [[]|[]]; auto).
  assert (He : piece_end p <= zlen W) by (unfold piece_end; lia).
  assert (Hg1 : (negb (fg_final_size f =? 0) && (fg_final_size f <? piece_end p)) || (negb (piece_end p <? zlen W) && negb (fg_final_size f =? 0) && negb (fg_final_size f =? piece_end p)) = false).
  { destruct Hsize as [-> | ->]; [cbn; by rewrite andb_false_r|]. destruct (Z.ltb_spec (zlen W) (piece_end p)); [lia|].
    destruct (Z.ltb_spec (piece_end p) (zlen W)); [by rewrite andb_false_r|]. replace (piece_end p) with (zlen W) by lia.
    rewrite Z.eqb_refl, !andb_false_r. reflexivity. }
  rewrite Hg1, (proj1 (covers_seen W l f p Ha Hp) Hapart).
  assert (Hg2 : negb (piece_end p <? zlen W) && has_seen (fg_seen f) (piece_end p) NET_FRAG_BYTES = false).
  { destruct (Z.ltb_spec (piece_end p) (zlen W)); [reflexivity|]. cbn [negb andb]. apply has_seen_false. intros i Hi.
    apply not_true_iff_false. rewrite Hseen. intros Hc. pose proof (covers_bounds W l i Hl Hc). lia. }
  rewrite Hg2. eexists. split; [reflexivity|]. split; cbn.
  - constructor; done.
  - intros i. unfold mark_seen. rewrite bit_set_range_get by (unfold piece_end; lia). unfold covers. rewrite Exists_cons.
    rewrite orb_true_iff, andb_true_iff, Z.leb_le, Z.ltb_lt, Hseen. reflexivity.
  - destruct (Z.ltb_spec (piece_end p) (zlen W)).
    + destruct Hfinal as [[-> Hex]|[-> Hall]]; [left|right]; split; try done; [by right|]. constructor; [lia|done].
    + left. split; [lia|]. left. lia.
  - intros i Hi. unfold covers in Hi. rewrite Exists_cons in Hi. rewrite write_bytes_get.
    replace (Z.of_nat (length (sub W (fst p) (snd p)))) with (snd p) by (unfold zlen in Hlen; lia). fold (piece_end p).
    destruct ((fst p <=? i) && (i <? piece_end p)) eqn:Hin.
    + apply andb_prop in Hin as [Hi1%Z.leb_le Hi2%Z.ltb_lt]. change (sub W (fst p) (snd p) !!! Z.to_nat (i - fst p)) with (byte (sub W (fst p) (snd p)) (i - fst p)).
      unfold piece_end in *. rewrite byte_sub by lia. f_equal. lia.
    + destruct Hi as [[Hi1 Hi2]|Hi]; [|by apply Hbytes]. rewrite (proj2 (Z.leb_le _ _) Hi1), (proj2 (Z.ltb_lt _ _) Hi2) in Hin. discriminate.
Qed.
Lemma add_piece_refused W l f p : assembled W l f -> piece_of W p -> ~ Forall (apart_pieces p) l -> add_piece W p f = None.
Proof.
  intros Ha Hp Hn. unfold add_piece, add_fragment. pose proof Hp as (Hp1 & Hp2 & Hp3). rewrite zlen_sub by lia. fold (piece_end p).
  rewrite (covers_seen W l f p Ha Hp) in Hn. apply not_false_is_true in Hn. rewrite Hn. by destruct (_ || _).
Qed.
Lemma add_pieces_ok W todo : forall done_ f,
  zlen W <= NET_FRAG_BYTES -> assembled W done_ f -> Forall (piece_of W) todo ->
  List.ForallOrdPairs apart_pieces todo -> Forall (fun p => Forall (apart_pieces p) done_) todo ->
  exists g, add_pieces W todo f = Some g /\ assembled W (rev todo ++ done_) g.
Proof.
  induction todo as [|p todo IH]; intros done_ f HW Ha Hp Hpairs Hdone; cbn [add_pieces rev app]; [by exists f|].
  inversion_clear Hp as [|? ? Hp1 Hp2]. inversion_clear Hpairs as [|? ? Hq1 Hq2]. inversion_clear Hdone as [|? ? Hd1 Hd2].
  destruct (add_piece_ok W done_ f p HW Ha Hp1 Hd1) as (g & -> & Hg). rewrite <- app_assoc. cbn [app].
  apply IH; [exact HW|exact Hg|exact Hp2|exact Hq2|].
  apply Forall_forall. intros q Hq. constructor.
  - rewrite Forall_forall in Hq1. destruct (Hq1 q Hq); [by right|by left].
  - rewrite Forall_forall in Hd2. by apply Hd2.
Qed.
Lemma assembled_empty W f : 0 < zlen W -> fg_final_size f = 0 -> fg_seen f = ∅ -> assembled W [] f.
Proof.
  intros HW Hf Hs. split.
  - constructor.
  - intros i. rewrite Hs. unfold bit_get, covers. rewrite zget_empty, Z.shiftr_0_l, Exists_nil. done.
  - right. split; [done|constructor].
  - intros i Hi. by apply Exists_nil in Hi.
Qed.
Lemma assembled_complete W l f : 0 < zlen W -> assembled W l f -> complete f = true <-> (forall i, 0 <= i < zlen W -> covers l i).
Proof.
  intros HW [Hl Hseen Hfinal Hbytes]. unfold complete. rewrite andb_true_iff, negb_true_iff, Z.eqb_neq, all_range_spec. split.
  - intros [H0 H] i Hi. destruct Hfinal as [[Hf _]|[Hf _]]; [|by rewrite Hf in H0]. rewrite Hf in H. by apply Hseen, H.
  - intros H. pose proof (H (zlen W - 1) ltac:(lia)) as Hlast. apply Exists_exists in Hlast as (p & Hp & Hi).
    rewrite Forall_forall in Hl. pose proof (Hl p Hp) as Hpo. destruct Hfinal as [[Hf _]|[_ Hn]].
    + rewrite Hf. split; [lia|]. intros i Hi'. by apply Hseen, H.
    + exfalso. rewrite Forall_forall in Hn. apply (Hn p Hp). unfold within, piece_of, piece_end in *. lia.
Qed.
Lemma assembled_bytes W l f : 0 < zlen W -> assembled W l f -> complete f = true -> fg_final_size f = zlen W /\ bytes_at (fg_bytes f) 0 (fg_final_size f) = W.
Proof.
  intros HW Ha Hc. pose proof (proj1 (assembled_complete W l f HW Ha) Hc) as Hcov. destruct Ha as [Hl Hseen Hfinal Hbytes].
  unfold complete in Hc. apply andb_prop in Hc as [H0%negb_true_iff%Z.eqb_neq _].
  destruct Hfinal as [[Hf _]|[Hf _]]; [|done]. split; [exact Hf|]. rewrite Hf. apply list_eq. intros j. unfold bytes_at, zlen in *.
  destruct (decide (j < length W)%nat) as [Hj|Hj].
  - rewrite bytes_from_lookup by lia. rewrite Hbytes by (apply Hcov; lia). unfold byte.
    rewrite list_lookup_lookup_total_lt by lia. do 2 f_equal. lia.
  - rewrite !lookup_ge_None_2; [done|lia|]. rewrite bytes_from_length. lia.
Qed.

(** C29: the pieces of a datagram, none overlapping another, are all accepted in
    whatever order they come; the datagram is complete exactly when they cover
    it, and its bytes are then those of the datagram; and from then on, or
    before, a piece that overlaps one that has come is refused, which drops the
    datagram, so that nothing is ever written over. *)
Theorem reassembly_any_order W pieces f :
  0 < zlen W <= NET_FRAG_BYTES -> fg_final_size f = 0 -> fg_seen f = ∅ ->
  Forall (piece_of W) pieces -> List.ForallOrdPairs apart_pieces pieces ->
  exists g, add_pieces W pieces f = Some g /\
    (complete g = true <-> forall i, 0 <= i < zlen W -> covers pieces i) /\
    (complete g = true -> bytes_at (fg_bytes g) 0 (fg_final_size g) = W) /\
    (forall p, piece_of W p -> ~ Forall (apart_pieces p) pieces -> add_piece W p g = None).
Proof.
  intros [HW Hmax] Hf Hs Hp Hpairs.
  destruct (add_pieces_ok W pieces [] f Hmax (assembled_empty W f HW Hf Hs) Hp Hpairs) as (g & Hg & Ha).
  { apply Forall_forall. intros q _. constructor. }
  rewrite app_nil_r in Ha. exists g.
  assert (Hrev : forall i, covers (rev pieces) i <-> covers pieces i).
  { intros i. unfold covers. rewrite !List.Exists_exists. split; intros (p & Hin & Hi); exists p; (split; [|exact Hi]); [exact (proj2 (List.in_rev _ _) Hin)|exact (proj1 (List.in_rev _ _) Hin)]. }
  split_and!; [exact Hg| | |].
  - rewrite (assembled_complete W _ g HW Ha). split; intros H i Hi; apply Hrev, H, Hi.
  - intros Hc. exact (proj2 (assembled_bytes W _ g HW Ha Hc)).
  - intros p Hpo Hn. apply (add_piece_refused W _ g p Ha Hpo). intros Hall. apply Hn. rewrite <- (rev_involutive pieces). by apply List.Forall_rev.
Qed.

(** Twenty bytes in three pieces, the last first. *)
Definition demo_datagram : list Z := bytes_from (fun i => i + 1) 0 20.
Definition demo_pieces : list (Z * Z) := [(16, 4); (0, 8); (8, 8)].
Lemma reassembly_any_order_witness : exists g, add_pieces demo_datagram demo_pieces fragment0 = Some g /\ complete g = true /\ bytes_at (fg_bytes g) 0 (fg_final_size g) = demo_datagram.
Proof.
  destruct (reassembly_any_order demo_datagram demo_pieces fragment0) as (g & Hg & Hc & Hb & _).
  - by vm_compute.
  - reflexivity.
  - reflexivity.
  - repeat constructor; by vm_compute.
  - repeat constructor; unfold apart_pieces, piece_end; cbn; lia.
  - exists g. assert (Hd : complete g = true).
    { apply Hc. intros i Hi. change (zlen demo_datagram) with 20 in Hi. unfold covers, demo_pieces, within, piece_end. rewrite !Exists_cons. cbn [fst snd]. lia. }
    split; [exact Hg|]. split; [exact Hd|exact (Hb Hd)].
Defined.
