(* ===== verification/TcpMachine.v ===== *)
(** The abstract TCP machine: the steps a socket may take, written without
    segments, adapters or timers, and what holds of a socket between them. *)
From S2P Require Import Prelude Klib Path State NetSum NetAddr Net Tcp NetInput NetSock TcpStream.

(** * The machine *)

(** What a step of the stack may change freely -- timers, windows, round-trip
    times, errors, the local address -- is what [core] leaves out. *)
Definition core (x : net_socket) :=
  ((s_used x, s_id x, s_owner x, s_type x, s_family x, s_state x, s_detached x, s_close_requested x, s_peer_fin x),
   (s_snd_una x, s_snd_nxt x, s_rcv_nxt x, s_fin_seq x),
   (s_tx x, s_rx x, s_rx_head x, s_rx_count x, s_datagrams x, s_peer x)).
Definition tunable (x : net_socket) : Prop := 0 < s_mss x <= 1460 /\ 0 < s_cwnd x <= NET_STREAM.
Definition placed_at (x : net_socket) : Prop := 0 <= na_interface (s_local x).
Definition is_tcp (x : net_socket) : Prop := s_type x = K_SOCK_TCP.
Inductive conn_step : net_socket -> net_socket -> Prop :=
  | cs_quiet x y : core y = core x -> (tunable x -> tunable y) -> (placed_at x -> placed_at y) -> conn_step x y
  | cs_drop x : conn_step x (x <| s_used := false |>)
  | cs_fail x : s_used x = true -> is_tcp x -> conn_step x (x <| s_state := NS_ERROR |>)
  | cs_bind x : s_used x = true -> s_state x = NS_NEW -> conn_step x (x <| s_state := NS_BOUND |>)
  | cs_listen x : s_used x = true -> is_tcp x -> s_state x = NS_NEW \/ s_state x = NS_BOUND -> conn_step x (x <| s_state := NS_LISTEN |>)
  | cs_udp_peer x a : s_used x = true -> ~ is_tcp x -> conn_step x (x <| s_peer := a |> <| s_state := NS_ESTABLISHED |>)
  | cs_connect x iss a : s_used x = true -> is_tcp x -> s_state x = NS_NEW \/ s_state x = NS_BOUND ->
      conn_step x (x <| s_peer := a |> <| s_snd_una := u32 iss |> <| s_snd_nxt := u32 (iss + 1) |> <| s_state := NS_SYN_SENT |>)
  | cs_passive x iss seq a : s_used x = true -> is_tcp x -> s_state x = NS_NEW ->
      conn_step x (x <| s_peer := a |> <| s_snd_una := u32 iss |> <| s_snd_nxt := u32 (iss + 1) |> <| s_rcv_nxt := u32 (seq + 1) |> <| s_state := NS_SYN_RCVD |>)
  | cs_syn_ack x seq : s_used x = true -> is_tcp x -> s_state x = NS_SYN_SENT ->
      conn_step x (x <| s_snd_una := s_snd_nxt x |> <| s_rcv_nxt := u32 (seq + 1) |> <| s_state := NS_ESTABLISHED |>)
  | cs_established x : s_used x = true -> is_tcp x -> s_state x = NS_SYN_RCVD ->
      conn_step x (x <| s_snd_una := s_snd_nxt x |> <| s_state := NS_ESTABLISHED |>)
  | cs_queue x bytes : s_used x = true -> is_tcp x -> s_state x = NS_ESTABLISHED \/ s_state x = NS_CLOSE_WAIT -> s_close_requested x = false ->
      zlen (s_tx x) + zlen bytes <= NET_STREAM -> conn_step x (x <| s_tx ::= (fun t => t ++ bytes) |>)
  | cs_send x n : s_used x = true -> is_tcp x -> s_state x = NS_ESTABLISHED \/ s_state x = NS_CLOSE_WAIT ->
      0 <= n <= zlen (s_tx x) - flight x -> conn_step x (x <| s_snd_nxt := u32 (s_snd_nxt x + n) |>)
  | cs_acked x n : s_used x = true -> is_tcp x -> s_state x = NS_ESTABLISHED \/ s_state x = NS_CLOSE_WAIT ->
      0 <= n <= flight x -> conn_step x (x <| s_tx ::= drop (Z.to_nat n) |> <| s_snd_una := u32 (s_snd_una x + n) |>)
  | cs_close x : s_used x = true -> is_tcp x -> s_state x = NS_ESTABLISHED \/ s_state x = NS_CLOSE_WAIT ->
      conn_step x (x <| s_detached := true |> <| s_close_requested := true |>)
  | cs_fin x : s_used x = true -> is_tcp x -> s_state x = NS_ESTABLISHED \/ s_state x = NS_CLOSE_WAIT -> s_close_requested x = true -> s_tx x = [] ->
      conn_step x (start_fin x)
  | cs_fin_acked now x : s_used x = true -> is_tcp x -> s_state x = NS_FIN_WAIT1 \/ s_state x = NS_CLOSING \/ s_state x = NS_LAST_ACK ->
      conn_step x (finish_ack now (s_snd_nxt x) x)
  | cs_bytes x data : s_used x = true -> is_tcp x -> s_state x = NS_ESTABLISHED \/ s_state x = NS_FIN_WAIT1 \/ s_state x = NS_FIN_WAIT2 \/ data = [] ->
      zlen data <= NET_STREAM - s_rx_count x -> conn_step x (receive_bytes data x)
  | cs_peer_fin now x : s_used x = true -> is_tcp x -> s_state x = NS_ESTABLISHED \/ s_state x = NS_FIN_WAIT1 \/ s_state x = NS_FIN_WAIT2 ->
      conn_step x (receive_fin now x)
  | cs_read x n : s_used x = true -> 0 <= n <= s_rx_count x -> conn_step x (consume n x)
  | cs_datagram x q : s_used x = true -> Z.of_nat (length (s_datagrams x)) < NET_DGRAMS -> conn_step x (x <| s_datagrams ::= (fun l => l ++ [q]) |>)
  | cs_undatagram x : conn_step x (x <| s_datagrams ::= tail |>).
Definition conn : net_socket -> net_socket -> Prop := rtc conn_step.

(** The diagram of RFC 9293, as far as this stack goes: it does not open
    simultaneously, and [NS_ERROR] stands for every way to give up. *)
Inductive tcp_edge : net_state -> net_state -> Prop :=
  | te_bind : tcp_edge NS_NEW NS_BOUND
  | te_listen s : s = NS_NEW \/ s = NS_BOUND -> tcp_edge s NS_LISTEN
  | te_connect s : s = NS_NEW \/ s = NS_BOUND -> tcp_edge s NS_SYN_SENT
  | te_passive : tcp_edge NS_NEW NS_SYN_RCVD
  | te_open s : s = NS_SYN_SENT \/ s = NS_SYN_RCVD -> tcp_edge s NS_ESTABLISHED
  | te_fin : tcp_edge NS_ESTABLISHED NS_FIN_WAIT1
  | te_peer_fin : tcp_edge NS_ESTABLISHED NS_CLOSE_WAIT
  | te_last : tcp_edge NS_CLOSE_WAIT NS_LAST_ACK
  | te_fin_acked : tcp_edge NS_FIN_WAIT1 NS_FIN_WAIT2
  | te_both : tcp_edge NS_FIN_WAIT1 NS_CLOSING
  | te_wait s : s = NS_CLOSING \/ s = NS_FIN_WAIT2 -> tcp_edge s NS_TIME_WAIT
  | te_error s : tcp_edge s NS_ERROR.

(** * The invariant of a connection *)
Definition in_states (x : net_socket) (l : list net_state) : Prop := is_ns (s_state x) l = true.
Record tcp_ok (x : net_socket) : Prop := {
  to_head : 0 <= s_rx_head x < NET_STREAM;
  to_count : 0 <= s_rx_count x <= NET_STREAM;
  to_tx : zlen (s_tx x) <= NET_STREAM;
  to_una : is_u32 (s_snd_una x);
  to_nxt : is_u32 (s_snd_nxt x);
  to_early : in_states x [NS_NEW; NS_BOUND; NS_LISTEN; NS_SYN_SENT; NS_SYN_RCVD] -> s_tx x = [] /\ s_rx_count x = 0 /\ s_detached x = false;
  to_unbound : in_states x [NS_NEW; NS_BOUND; NS_LISTEN] -> na_port (s_peer x) = 0;
  to_syn : in_states x [NS_SYN_SENT; NS_SYN_RCVD] -> flight x = 1;
  to_data : in_states x [NS_ESTABLISHED; NS_CLOSE_WAIT] -> flight x <= zlen (s_tx x);
  to_fin : in_states x [NS_FIN_WAIT1; NS_CLOSING; NS_LAST_ACK] -> s_tx x = [] /\ s_snd_una x = s_fin_seq x /\ s_snd_nxt x = u32 (s_fin_seq x + 1);
  to_done : in_states x [NS_FIN_WAIT2; NS_TIME_WAIT] -> s_tx x = [] /\ flight x = 0;
  to_closed : in_states x [NS_FIN_WAIT1; NS_FIN_WAIT2; NS_CLOSING; NS_LAST_ACK; NS_TIME_WAIT] -> s_detached x = true;
  to_detached : s_detached x = s_close_requested x;
  to_peer : s_state x <> NS_ERROR -> s_peer_fin x = is_ns (s_state x) [NS_CLOSE_WAIT; NS_CLOSING; NS_LAST_ACK; NS_TIME_WAIT]
}.
Record sock_ok (x : net_socket) : Prop := {
  so_placed : placed_at x;
  so_datagrams : Z.of_nat (length (s_datagrams x)) <= NET_DGRAMS;
  so_tunable : s_used x = true -> tunable x;
  so_type : s_used x = true -> is_tcp x \/ s_type x = K_SOCK_UDP;
  so_tcp : s_used x = true -> is_tcp x -> tcp_ok x
}.

(** The machine keeps the invariant. *)
Ltac eval_states :=
  repeat match goal with
  | H : context [is_ns ?s ?l] |- _ => let v := eval vm_compute in (is_ns s l) in (match v with true => idtac | false => idtac end); change (is_ns s l) with v in H
  | |- context [is_ns ?s ?l] => let v := eval vm_compute in (is_ns s l) in (match v with true => idtac | false => idtac end); change (is_ns s l) with v
  end.
Ltac open_socket x := destruct x; unfold in_states, flight, is_tcp, tunable, placed_at, is_u32 in *; cbn in *; subst.
Lemma u32_bounds a : 0 <= u32 a < 2 ^ 32.
Proof. unfold u32. apply Z.mod_pos_bound. lia. Qed.
#[export] Hint Resolve u32_bounds : kernel.
Lemma flight_bounds x : 0 <= flight x < 2 ^ 32.
Proof. apply u32_bounds. Qed.
Ltac tcp_cases := split; intros; eval_states; try discriminate; try (split_and!); auto with kernel; try discriminate; try congruence; try lia.

Lemma quiet_ok x y : core y = core x -> tcp_ok x -> tcp_ok y.
Proof.
  intros Hc [H1 H2 H3 H4 H5 H6 H7 H8 H9 H10 H11 H12 H13 H14]. unfold core in Hc. injection Hc as ? ? ? ? ? E1 E2 E3 E4 E5 E6 E7 E8 E9 E10 E11 E12 E13 E14.
  split; unfold in_states, flight in *; rewrite ?E1, ?E2, ?E3, ?E4, ?E5, ?E6, ?E7, ?E8, ?E9, ?E10, ?E11, ?E12, ?E13, ?E14; assumption.
Qed.
Lemma zlen_drop n (l : list Z) : 0 <= n <= zlen l -> zlen (drop (Z.to_nat n) l) = zlen l - n.
Proof. unfold zlen. intros. rewrite length_drop. lia. Qed.
Lemma conn_step_tcp x y : conn_step x y -> is_tcp x -> tcp_ok x -> s_used x = true -> s_used y = true -> tcp_ok y.
Proof.
  intros Hs Ht Hx Hu Hy. destruct Hs as [x y Hc _ _|x|x _ _|x _ He|x _ _ He|x a _ Hn|x iss a _ _ He|x iss seq a _ _ He|x seq _ _ He|x _ _ He|x bytes _ _ He Hcr Hb
    |x n _ _ He Hn|x n _ _ He Hn|x _ _ He|x _ _ He Hcr Htx|now x _ _ He|x data _ _ He Hd|now x _ _ He|x n _ Hn|x q _ Hq|x].
  1: exact (quiet_ok x y Hc Hx).
  all: destruct Hx as [H1 H2 H3 H4 H5 H6 H7 H8 H9 H10 H11 H12 H13 H14]; unfold in_states, is_u32 in *; try contradiction.
  all: repeat match goal with H : _ \/ _ |- _ => destruct H as [H|H] end.
  all: try (rewrite He in *); eval_states.
  all: repeat match goal with H : true = true -> _ |- _ => specialize (H eq_refl) | H : false = true -> _ |- _ => clear H | H : ?a <> ?b -> _ |- _ => specialize (H ltac:(discriminate)) end.
  all: destruct_and?; unfold start_fin, finish_ack, receive_bytes, receive_fin, consume in *; cbn [s_state modify] in *; rewrite ?He in *; rewrite ?H14.
  all: try (cbn in Hy; discriminate).
  all: split; unfold in_states, is_u32; cbn; rewrite ?He; intros; eval_states; try discriminate; auto with kernel; try (split_and!); try congruence; try lia.
  all: repeat match goal with H : ?P -> _ /\ _, K : ?P |- _ => specialize (H K) end; destruct_and?; auto.
  all: repeat match goal with H : s_tx ?y = [] |- _ => rewrite H in * end.
  all: try match goal with x : net_socket |- _ => pose proof (zlen_nonneg (s_tx x)) end; try match goal with d : cstr |- _ => pose proof (zlen_nonneg d) end.
  all: unfold flight in *; cbn -[u32 NET_STREAM zlen]; rewrite ?zlen_app, ?zlen_drop; change (zlen []) with 0 in *; unfold u32, NET_STREAM in *; try dlia.
Qed.

(** What a step never changes. *)
Lemma conn_step_same x y : conn_step x y -> s_used y = true ->
  s_used x = true /\ s_id y = s_id x /\ s_type y = s_type x /\ s_owner y = s_owner x /\ s_family y = s_family x.
Proof.
  intros Hs. destruct Hs as [x y Hc _ _| | | | | | | | | | | | | |x Hu _ _ _ _|now x Hu _ _|x data Hu _ _ _|now x Hu _ _|x n Hu _| |]; cbn; intros; auto; try discriminate.
  - unfold core in Hc. injection Hc as ? ? ? ? ?. split_and!; congruence.
  - unfold finish_ack in *; cbn in *; destruct (s_state x); cbn in *; split_and!; done.
  - unfold receive_fin; cbn; destruct (s_state x); cbn; done.
Qed.
Lemma conn_step_placed x y : conn_step x y -> placed_at x -> placed_at y.
Proof.
  intros Hs Hx. destruct Hs as [x y Hc _ Hp| | | | | | | | | | | | | | |now x Hu _ _| |now x Hu _ _| | |]; try exact Hx; [auto| |].
  - unfold finish_ack, placed_at in *; cbn; destruct (s_state x); exact Hx.
  - unfold receive_fin, placed_at in *; cbn; destruct (s_state x); exact Hx.
Qed.
Lemma conn_step_tunable x y : conn_step x y -> tunable x -> tunable y.
Proof.
  intros Hs Hx. destruct Hs as [x y Hc Hp _| | | | | | | | | | | | | | |now x Hu _ _| |now x Hu _ _| | |]; try exact Hx; [auto| |].
  - unfold finish_ack, tunable in *; cbn; destruct (s_state x); exact Hx.
  - unfold receive_fin, tunable in *; cbn; destruct (s_state x); exact Hx.
Qed.
Lemma conn_step_datagrams x y : conn_step x y -> Z.of_nat (length (s_datagrams x)) <= NET_DGRAMS -> Z.of_nat (length (s_datagrams y)) <= NET_DGRAMS.
Proof.
  intros Hs Hx. destruct Hs as [x y Hc Hp _| | | | | | | | | | | | | | |now x Hu _ _| |now x Hu _ _| |x q Hu Hq|x]; try exact Hx.
  - unfold core in Hc. injection Hc as ? ? ? ? ? ? ? ? ? ? ? ? ? ? ? ? ? ->. exact Hx.
  - unfold finish_ack in *; cbn; destruct (s_state x); exact Hx.
  - unfold receive_fin in *; cbn; destruct (s_state x); exact Hx.
  - cbn. rewrite length_app. cbn. lia.
  - cbn. destruct (s_datagrams x); cbn in *; lia.
Qed.
Lemma conn_step_ok x y : conn_step x y -> sock_ok x -> sock_ok y.
Proof.
  intros Hs [H1 H2 H3 H5 H4]. split.
  - exact (conn_step_placed x y Hs H1).
  - exact (conn_step_datagrams x y Hs H2).
  - intros Hu. destruct (conn_step_same x y Hs Hu) as (Hu' & _). exact (conn_step_tunable x y Hs (H3 Hu')).
  - intros Hu. destruct (conn_step_same x y Hs Hu) as (Hu' & _ & Hty & _). unfold is_tcp in *. rewrite Hty. exact (H5 Hu').
  - intros Hu Ht. destruct (conn_step_same x y Hs Hu) as (Hu' & _ & Hty & _). unfold is_tcp in *. rewrite Hty in Ht.
    exact (conn_step_tcp x y Hs Ht (H4 Hu' Ht) Hu' Hu).
Qed.
Lemma conn_ok x y : conn x y -> sock_ok x -> sock_ok y.
Proof. induction 1 as [|x y z Hs _ IH]; [done|]. intros Hx. exact (IH (conn_step_ok x y Hs Hx)). Qed.
Lemma conn_same x y : conn x y -> s_used y = true -> s_used x = true /\ s_id y = s_id x /\ s_type y = s_type x /\ s_owner y = s_owner x /\ s_family y = s_family x.
Proof.
  induction 1 as [|x y z Hs _ IH]; [done|]. intros Hu. destruct (IH Hu) as (Hy & -> & -> & -> & ->). exact (conn_step_same x y Hs Hy).
Qed.
Lemma conn_trans x y z : conn x y -> conn y z -> conn x z.
Proof. unfold conn. intros Hxy Hyz. by etrans. Qed.
Lemma conn_once x y : conn_step x y -> conn x y.
Proof. apply rtc_once. Qed.
Lemma conn_refl x : conn x x.
Proof. unfold conn. reflexivity. Qed.
#[export] Hint Resolve conn_refl conn_once : kernel.

(** A step of a connection is an edge of the diagram, or stays. *)
Lemma conn_step_edge x y : conn_step x y -> s_used y = true -> is_tcp x -> tcp_ok x -> rtc tcp_edge (s_state x) (s_state y).
Proof.
  intros Hs Hu Ht Hx. pose proof (to_peer x Hx) as Hp.
  destruct Hs as [x y Hc _ _|x|x _ _|x _ He|x _ _ He|x a _ Hn|x iss a _ _ He|x iss seq a _ _ He|x seq _ _ He|x _ _ He|x bytes _ _ He Hcr Hb
    |x n _ _ He Hn|x n _ _ He Hn|x _ _ He|x _ _ He Hcr Htx|now x _ _ He|x data _ _ He Hd|now x _ _ He|x n _ Hn|x q _ Hq|x]; try reflexivity; try contradiction.
  - unfold core in Hc. injection Hc as _ _ _ _ _ -> _. reflexivity.
  - apply rtc_once. constructor.
  - cbn. rewrite He. apply rtc_once. constructor.
  - apply rtc_once. by constructor.
  - apply rtc_once. by constructor.
  - cbn. rewrite He. apply rtc_once. constructor.
  - cbn. rewrite He. apply rtc_once. constructor. by left.
  - cbn. rewrite He. apply rtc_once. constructor. by right.
  - unfold start_fin. cbn. rewrite Hp by (destruct He as [-> | ->]; discriminate).
    destruct He as [He|He]; rewrite He; apply rtc_once; constructor.
  - unfold finish_ack in *. cbn in *. destruct He as [He|[He|He]]; rewrite He in *; cbn in *; [| |discriminate]; apply rtc_once; constructor. by left.
  - unfold receive_fin in *. cbn in *. destruct He as [He|[He|He]]; rewrite He in *; cbn in *; apply rtc_once; constructor. by right.
Qed.
Lemma conn_edge x y : conn x y -> s_used y = true -> is_tcp x -> sock_ok x -> rtc tcp_edge (s_state x) (s_state y).
Proof.
  induction 1 as [|x y z Hs Hc IH]; [reflexivity|]. intros Hu Ht Hx. destruct (conn_same y z Hc Hu) as (Hy & _).
  destruct (conn_step_same x y Hs Hy) as (Hxu & _ & Hty & _). etransitivity.
  - exact (conn_step_edge x y Hs Hy Ht (so_tcp x Hx Hxu Ht)).
  - apply IH; [exact Hu|unfold is_tcp in *; congruence|exact (conn_step_ok x y Hs Hx)].
Qed.
