(* ===== verification/NetSafe.v ===== *)
(** The invariant of the network stack and the rules with which its operations
    are shown to keep it, while every socket only takes steps of the TCP
    machine; and the lower half of the stack, which leaves the sockets alone. *)
From S2P Require Import Prelude Klib Pmm Path State NetSum NetAddr Net Tcp NetInput NetSock TcpStream TcpMachine.

Section Safe.
Context {D : Type} `{Nics D}.
Context (n : Z).
#[local] Open Scope net_scope.
#[local] Abbreviation N := (@N D).
Implicit Types (s : net D) (d : net_device).

(** * The invariant; [n] adapters are attached *)
Record dev_ok (i : Z) d : Prop := {
  do_id : nd_id d = i;
  do_mtu : 1280 <= nd_mtu d <= 1500;
  do_external : nd_kind d = NIC_EXTERNAL -> 1280 <= nd_external_mtu d <= 1500;
  do_capture : Z.of_nat (length (nd_capture d)) <= 8
}.
Definition in_range (id : Z) : Prop := 0 <= id < n.
Definition frame_ok (f : k_net_frame) : Prop := in_range (fr_interface f) /\ 14 <= zlen (fr_bytes f) <= K_NET_FRAME_MAX.
(** The least handle that no socket has had yet; after the last the counter is zero. *)
Definition next_handle s : Z := if nt_next_socket s =? 0 then 2 ^ 32 else nt_next_socket s.
Record net_ok s : Prop := {
  nk_count : nt_devices_count s = n;
  nk_devices : forall i, in_range i -> dev_ok i (dev s i);
  nk_queue : net_queued s <= NET_RXQ;
  nk_frames : Forall frame_ok (nt_queue s);
  nk_socks : forall i, sock_ok (sock s i);
  nk_next : is_u32 (nt_next_socket s);
  nk_old : forall i, s_used (sock s i) = true -> s_id (sock s i) < next_handle s;
  nk_unique : forall i j, s_used (sock s i) = true -> s_used (sock s j) = true -> s_id (sock s i) = s_id (sock s j) -> i = j
}.

(** * What an operation may do *)

(** It leaves the table of sockets alone. *)
Definition calm s s' : Prop := net_ok s' /\ nt_now s' = nt_now s /\ nt_sockets s' = nt_sockets s /\ nt_next_socket s' = nt_next_socket s.
(** A socket takes steps of the machine, or is one that was opened meanwhile. *)
Definition life (lo : Z) (x y : net_socket) : Prop :=
  conn x y \/ exists now id family type owner, lo <= id /\ conn (new_socket now id family type owner) y.
Definition reach s s' : Prop :=
  net_ok s' /\ nt_now s' = nt_now s /\ next_handle s <= next_handle s' /\ forall i, life (next_handle s) (sock s i) (sock s' i).
Definition calms {A} (m : N A) : Prop := forall s, net_ok s -> calm s (fst (m s)).
Definition moves {A} (m : N A) : Prop := forall s, net_ok s -> reach s (fst (m s)).

Lemma calm_refl s : net_ok s -> calm s s.
Proof. intros Hs. unfold calm. by split_and!. Qed.
Lemma calm_trans s1 s2 s3 : calm s1 s2 -> calm s2 s3 -> calm s1 s3.
Proof. intros (_ & H1 & H2 & H3) (H4 & H5 & H6 & H7). unfold calm. split_and!; [done|congruence..]. Qed.
Lemma life_refl lo x : life lo x x.
Proof. left. apply conn_refl. Qed.
Lemma life_trans lo lo' x y z : lo <= lo' -> life lo x y -> life lo' y z -> life lo x z.
Proof.
  intros Hlo [Hxy|(now & id & f & t & o & Hid & Hxy)] [Hyz|(now' & id' & f' & t' & o' & Hid' & Hyz)].
  - left. exact (conn_trans x y z Hxy Hyz).
  - right. exists now', id', f', t', o'. split; [lia|done].
  - right. exists now, id, f, t, o. split; [done|exact (conn_trans _ y z Hxy Hyz)].
  - right. exists now', id', f', t', o'. split; [lia|done].
Qed.
Lemma reach_refl s : net_ok s -> reach s s.
Proof. intros Hs. unfold reach. split_and!; [done|done|lia|]. intros i. apply life_refl. Qed.
Lemma reach_trans s1 s2 s3 : reach s1 s2 -> reach s2 s3 -> reach s1 s3.
Proof.
  intros (_ & H1 & H2 & H3) (H4 & H5 & H6 & H7). unfold reach. split_and!; [done|congruence|lia|]. intros i. exact (life_trans _ _ _ _ _ H2 (H3 i) (H7 i)).
Qed.
Lemma calm_reach s s' : calm s s' -> reach s s'.
Proof.
  intros (H1 & H2 & H3 & H4). unfold reach. split_and!; [done|done|unfold next_handle; rewrite H4; lia|]. intros i. unfold sock. rewrite H3. apply life_refl.
Qed.
Lemma calms_moves {A} (m : N A) : calms m -> moves m.
Proof. intros Hm s Hs. apply calm_reach, Hm, Hs. Qed.

(** ** Rules *)
Lemma calms_ret {A} (a : A) : calms (ret a).
Proof. intros s Hs. by apply calm_refl. Qed.
Lemma calms_bind {A B} (m : N A) (k : A -> N B) : calms m -> (forall a, calms (k a)) -> calms (bind m k).
Proof.
  intros Hm Hk s Hs. pose proof (Hm s Hs) as H1. unfold bind. destruct (m s) as [s1 a]. cbn in H1.
  exact (calm_trans _ _ _ H1 (Hk a s1 (proj1 H1))).
Qed.
Lemma calms_get {B} (k : net D -> N B) : (forall s, net_ok s -> calms (k s)) -> calms (bind get k).
Proof. intros Hk s Hs. exact (Hk s Hs s Hs). Qed.
Lemma calms_if {A} (b : bool) (m1 m2 : N A) : calms m1 -> calms m2 -> calms (if b then m1 else m2).
Proof. by destruct b. Qed.
Lemma moves_ret {A} (a : A) : moves (ret a).
Proof. apply calms_moves, calms_ret. Qed.
Lemma moves_bind {A B} (m : N A) (k : A -> N B) : moves m -> (forall a, moves (k a)) -> moves (bind m k).
Proof.
  intros Hm Hk s Hs. pose proof (Hm s Hs) as H1. unfold bind. destruct (m s) as [s1 a]. cbn in H1.
  exact (reach_trans _ _ _ H1 (Hk a s1 (proj1 H1))).
Qed.
Lemma moves_get {B} (k : net D -> N B) : (forall s, net_ok s -> moves (k s)) -> moves (bind get k).
Proof. intros Hk s Hs. exact (Hk s Hs s Hs). Qed.
Lemma moves_if {A} (b : bool) (m1 m2 : N A) : moves m1 -> moves m2 -> moves (if b then m1 else m2).
Proof. by destruct b. Qed.
(** In a known state, with what holds at the end. *)
Definition ends {A} (Q : net D -> A -> Prop) s (r : net D * A) : Prop := reach s (fst r) /\ Q (fst r) (snd r).
Definition any {A} : net D -> A -> Prop := fun _ _ => True.
Lemma ends_any {A} (m : N A) s : reach s (fst (m s)) -> ends any s (m s).
Proof. by split. Qed.
Lemma ends_reach {A} (Q : net D -> A -> Prop) s r : ends Q s r -> reach s (fst r).
Proof. by intros [Hr _]. Qed.
Lemma ends_get {B} Q (k : net D -> N B) s : ends Q s (k s s) -> ends Q s (bind get k s).
Proof. done. Qed.
Lemma ends_ret {A} (Q : net D -> A -> Prop) (a : A) s : net_ok s -> Q s a -> ends Q s (ret a s).
Proof. intros Hs Ha. split; [by apply reach_refl|exact Ha]. Qed.
Lemma ends_if {A} Q (b : bool) (m1 m2 : N A) s : (b = true -> ends Q s (m1 s)) -> (b = false -> ends Q s (m2 s)) -> ends Q s ((if b then m1 else m2) s).
Proof. destruct b; auto. Qed.
Lemma ends_moves {A} (m : N A) s : moves m -> net_ok s -> ends any s (m s).
Proof. intros Hm Hs. split; [exact (Hm s Hs)|done]. Qed.
Lemma ends_bind {A B} (P : net D -> A -> Prop) Q (m : N A) (k : A -> N B) s :
  ends P s (m s) -> (forall s1 a, net_ok s1 -> nt_now s1 = nt_now s -> P s1 a -> ends Q s1 (k a s1)) -> ends Q s (bind m k s).
Proof.
  intros [Hm Hp] Hk. unfold bind. destruct (m s) as [s1 a]. cbn in Hm, Hp. destruct (Hk s1 a (proj1 Hm) (proj1 (proj2 Hm)) Hp) as [Hr Hq].
  split; [exact (reach_trans _ _ _ Hm Hr)|exact Hq].
Qed.
Lemma ends_calm {A B} Q (m : N A) (k : A -> N B) s :
  calms m -> net_ok s ->
  (forall s1 a, net_ok s1 -> nt_sockets s1 = nt_sockets s -> nt_now s1 = nt_now s -> ends Q s1 (k a s1)) -> ends Q s (bind m k s).
Proof.
  intros Hm Hs Hk. pose proof (Hm s Hs) as H1. apply (ends_bind (fun s1 _ => nt_sockets s1 = nt_sockets s)).
  - split; [by apply calm_reach|exact (proj1 (proj2 (proj2 H1)))].
  - intros s1 a Hs1 Hn He. by apply Hk.
Qed.
Lemma ends_weaken {A} (P Q : net D -> A -> Prop) s r : ends P s r -> (forall s' a, P s' a -> Q s' a) -> ends Q s r.
Proof. intros [H1 H2] HPQ. split; auto. Qed.

Lemma sock_put i f s j : sock (fst (put_sock i f s)) j = if decide (i = j) then f (sock s j) else sock s j.
Proof. unfold sock, put_sock. cbn. apply tmod_lookup. Qed.
Lemma reach_put i f s : net_ok s -> conn (sock s i) (f (sock s i)) -> reach s (fst (put_sock i f s)).
Proof.
  intros Hs Hc. assert (Hall : forall j, conn (sock s j) (sock (fst (put_sock i f s)) j)).
  { intros j. rewrite sock_put. destruct (decide (i = j)) as [<-|]; [exact Hc|apply conn_refl]. }
  unfold reach. split_and!; [|done|unfold next_handle; cbn; lia|intros j; left; apply Hall].
  destruct Hs as [H1 H2 H3 H4 H5 H6 H7 H8]. split; try assumption.
  - intros j. exact (conn_ok _ _ (Hall j) (H5 j)).
  - intros j Hj. destruct (conn_same _ _ (Hall j) Hj) as (Hu & -> & _). exact (H7 j Hu).
  - intros j k Hj Hk He. destruct (conn_same _ _ (Hall j) Hj) as (Hu & He1 & _), (conn_same _ _ (Hall k) Hk) as (Hv & He2 & _).
    apply H8; [exact Hu|exact Hv|congruence].
Qed.
Lemma moves_put i f : (forall x, sock_ok x -> conn x (f x)) -> moves (put_sock i f).
Proof. intros Hf s Hs. apply reach_put; [exact Hs|]. apply Hf, (nk_socks s Hs). Qed.
Lemma ends_put_then {B} Q i f (k : unit -> N B) s :
  net_ok s -> conn (sock s i) (f (sock s i)) ->
  (forall s1, net_ok s1 -> nt_now s1 = nt_now s -> (forall j, sock s1 j = if decide (i = j) then f (sock s j) else sock s j) -> ends Q s1 (k tt s1)) ->
  ends Q s (bind (put_sock i f) k s).
Proof.
  intros Hs Hc Hk. pose proof (reach_put i f s Hs Hc) as Hr.
  destruct (Hk (fst (put_sock i f s)) (proj1 Hr) eq_refl (sock_put i f s)) as [Hr2 Hq].
  split; [exact (reach_trans _ _ _ Hr Hr2)|exact Hq].
Qed.
(** A change that the machine does not see. *)
Lemma conn_quiet x y : core y = core x -> (tunable x -> tunable y) -> (placed_at x -> placed_at y) -> conn x y.
Proof. intros. by apply conn_once, cs_quiet. Qed.
Lemma moves_quiet i f : (forall x, core (f x) = core x) -> (forall x, tunable x -> tunable (f x)) -> (forall x, placed_at x -> placed_at (f x)) -> moves (put_sock i f).
Proof. intros H1 H2 H3. apply moves_put. intros x _. apply conn_quiet; [apply H1|apply H2|apply H3]. Qed.
Lemma moves_drop i : moves (drop_socket i).
Proof. apply moves_put. intros x _. apply conn_once, cs_drop. Qed.

(** * Devices *)
Lemma calms_dev id f : (forall i d, dev_ok i d -> dev_ok i (f d)) -> calms (put_dev id f).
Proof.
  intros Hf s [H1 H2 H3 H4 H5 H6 H7 H8]. unfold calm. split_and!; try reflexivity. split; try assumption.
  intros i Hi. unfold dev. cbn. rewrite tmod_lookup. destruct (decide (id = i)); [apply Hf|]; by apply H2.
Qed.
Lemma calms_neighbor id f : calms (put_neighbor id f).
Proof. intros s [H1 H2 H3 H4 H5 H6 H7 H8]. unfold calm. split_and!; try reflexivity. by split. Qed.
(** A change of the rest of the state: counters, neighbours, fragments, pings. *)
Definition same_net s s' : Prop :=
  nt_now s' = nt_now s /\ nt_sockets s' = nt_sockets s /\ nt_next_socket s' = nt_next_socket s /\ nt_devices_count s' = nt_devices_count s /\
  nt_devices s' = nt_devices s /\ nt_queue s' = nt_queue s.
Lemma calm_same s s' : same_net s s' -> net_ok s -> calm s s'.
Proof.
  intros (H1 & H2 & H3 & H4 & H5 & H6) [G1 G2 G3 G4 G5 G6 G7 G8]. unfold calm. split_and!; try done.
  split; unfold net_queued, next_handle, sock, dev in *; rewrite ?H2, ?H3, ?H4, ?H5, ?H6; assumption.
Qed.
Lemma calms_net f : (forall s, same_net s (f s)) -> calms (modify_net f).
Proof. intros Hf s Hs. apply calm_same; [apply Hf|exact Hs]. Qed.
Lemma dev_keeps f : (forall d, nd_id (f d) = nd_id d) -> (forall d, nd_mtu (f d) = nd_mtu d) -> (forall d, nd_kind (f d) = nd_kind d) ->
  (forall d, nd_external_mtu (f d) = nd_external_mtu d) -> (forall d, nd_capture (f d) = nd_capture d) -> forall i d, dev_ok i d -> dev_ok i (f d).
Proof. intros F1 F2 F3 F4 F5 i d [H1 H2 H3 H4]. split; rewrite ?F1, ?F2, ?F3, ?F4, ?F5; assumption. Qed.
End Safe.

(** Walk through a computation: bind, get, return, conditionals, and what the
    hint database [net] knows of the operations called. *)
Create HintDb net discriminated.
#[export] Hint Resolve calms_ret moves_ret calms_neighbor moves_drop : net.
#[export] Hint Resolve calms_moves | 20 : net.
Ltac dev_same := apply dev_keeps; intros ?; reflexivity.
Ltac calm_step :=
  lazymatch goal with
  | |- forall _, _ => intros ?
  | |- calms _ (bind get _) => apply calms_get; intros ? ?; cbv beta
  | |- calms _ (bind _ _) => apply calms_bind; [|intros ?; cbv beta]
  | |- calms _ (if _ then _ else _) => apply calms_if
  | |- calms _ (match ?x with _ => _ end) => destruct x
  | |- calms _ (let _ := _ in _) => cbv zeta
  | |- calms _ (put_dev _ _) => apply calms_dev; first [solve [dev_same] | idtac]
  | |- calms _ (modify_net _) => apply calms_net; intros ?; (by split_and!)
  | |- calms _ _ => solve [eauto 3 with net]
  end.
Ltac calmly := repeat calm_step.
Ltac move_step :=
  lazymatch goal with
  | |- forall _, _ => intros ?
  | |- moves _ (bind get _) => apply moves_get; intros ? ?; cbv beta
  | |- moves _ (bind _ _) => apply moves_bind; [|intros ?; cbv beta]
  | |- moves _ (if _ then _ else _) => apply moves_if
  | |- moves _ (match ?x with _ => _ end) => destruct x
  | |- moves _ (let _ := _ in _) => cbv zeta
  | |- moves _ _ => first [solve [eauto 4 with net] | solve [apply calms_moves; repeat calm_step] | solve [apply moves_quiet; intros ?; first [reflexivity | exact (fun t => t)]]]
  end.
Ltac moving := repeat move_step.
