(* ===== verification/NetOutput.v ===== *)
(** Sending a packet leaves the sockets alone and keeps the invariant of the
    stack; the recursion between sending and address resolution ends. *)
From S2P Require Import Prelude Klib Pmm Path State NetSum NetAddr Net Tcp NetInput NetSock TcpStream TcpMachine NetSafe.

Section Output.
Context {D : Type} `{Nics D}.
Context (n : Z).
#[local] Open Scope net_scope.
#[local] Abbreviation N := (@N D).
#[local] Abbreviation calms := (@calms D).
Implicit Types (s : net D) (d : net_device).

Lemma dev_id s id : net_ok n s -> in_range n id -> nd_id (dev s id) = id.
Proof. intros Hs Hid. exact (do_id _ _ (nk_devices n s Hs id Hid)). Qed.
Lemma random_calm : calms n net_random.
Proof. intros s Hs. by apply calm_same. Qed.
Lemma enqueue_calm id p : in_range n id -> calms n (net_enqueue id p).
Proof.
  intros Hid s Hs. unfold net_enqueue. destruct (_ || _) eqn:Hsize; [|destruct (_ =? _) eqn:Hfull]; reflect_bools.
  - apply (calms_dev n id (fun d => d <| nd_errors ::= Net.count |>)); [dev_same|exact Hs].
  - apply (calms_dev n id (fun d => d <| nd_dropped ::= Net.count |>)); [dev_same|exact Hs].
  - unfold calm. split_and!; try reflexivity. destruct Hs as [G1 G2 G3 G4 G5 G6 G7 G8]. split; try assumption.
    + unfold net_queued in *. cbn. rewrite length_app. cbn. unfold NET_RXQ in *. lia.
    + cbn. apply Forall_app. split; [exact G4|]. constructor; [|constructor]. split; cbn; [exact Hid|]. unfold K_NET_FRAME_MAX in *. lia.
Qed.
Lemma transmit_calm id p : in_range n id -> calms n (nic_transmit id p).
Proof.
  intros Hid. unfold nic_transmit. calmly.
  - rewrite dev_id by assumption. by apply enqueue_calm.
  - intros s' Hs'. destruct (nic_send (nt_d s') id p). by apply calm_same.
Qed.
Lemma ether_calm id mac type p : in_range n id -> calms n (net_ether id mac type p).
Proof. intros Hid. unfold net_ether. calmly. by apply transmit_calm. Qed.
Lemma neighbor_find_calm id family a create : calms n (net_neighbor_find id family a create).
Proof. intros s Hs. unfold net_neighbor_find. destruct (for_range _ _ _ _); [destruct (_ || _)|]; by apply calm_same. Qed.
Lemma neighbor_learn_calm id family a mac solicited : calms n (net_neighbor_learn id family a mac solicited).
Proof. pose proof neighbor_find_calm. unfold net_neighbor_learn. calmly. Qed.
Lemma arp_send_calm id op mac spa tpa : in_range n id -> calms n (net_arp_send id op mac spa tpa).
Proof. intros Hid. unfold net_arp_send. calmly. by apply ether_calm. Qed.

Section Send.
Context (send : Z -> Z -> list Z -> list Z -> Z -> list Z -> Z -> N Z).
Context (Hsend : forall id family src dst proto bytes ttl, 0 <= id -> calms n (send id family src dst proto bytes ttl)).
Lemma solicit_calm id target dad : in_range n id -> calms n (net_nd_solicit send id target dad).
Proof.
  intros Hid. unfold net_nd_solicit. calmly. apply Hsend. rewrite dev_id by assumption. apply Hid.
Qed.
Lemma probe_calm id family i next : in_range n id -> calms n (probe send id family i next).
Proof. intros Hid. unfold probe. calmly; [by apply arp_send_calm|by apply solicit_calm]. Qed.
Lemma resolve_calm id family dst : in_range n id -> calms n (net_resolve_mac send id family dst).
Proof.
  intros Hid. pose proof neighbor_find_calm. unfold net_resolve_mac. calmly. by apply probe_calm.
Qed.
Lemma ip_send_calm id family src dst proto bytes ttl : 0 <= id -> calms n (ip_send send id family src dst proto bytes ttl).
Proof.
  intros Hid. unfold ip_send. apply calms_get. intros s Hs. cbv zeta. rewrite (nk_count n s Hs).
  destruct (n <=? id) eqn:Hle; reflect_bools; [calmly|]. assert (Hr : in_range n id) by (split; lia).
  pose proof (resolve_calm id family dst Hr). pose proof (fun m t p => ether_calm id m t p Hr). pose proof (fun p => enqueue_calm id p Hr).
  calmly.
Qed.
End Send.
Lemma ip_send_n_calm fuel : forall id family src dst proto bytes ttl, 0 <= id -> calms n (ip_send_n fuel id family src dst proto bytes ttl).
Proof. induction fuel as [|fuel IH]; intros id family src dst proto bytes ttl Hid; cbn [ip_send_n]; [calmly|]. by apply ip_send_calm. Qed.
Lemma net_ip_send_calm id family src dst proto bytes ttl : 0 <= id -> calms n (net_ip_send id family src dst proto bytes ttl).
Proof. apply ip_send_n_calm. Qed.
Lemma nd_solicit_calm id target dad : in_range n id -> calms n (nd_solicit id target dad).
Proof. apply solicit_calm, net_ip_send_calm. Qed.
Lemma icmp_allow_calm id : calms n (net_icmp_allow id).
Proof.
  intros s Hs. unfold net_icmp_allow. cbn [fst]. set (d := if negb _ then _ else _).
  assert (Hd : forall i, in_range n i -> id = i -> dev_ok i d).
  { intros i Hi <-. pose proof (nk_devices n s Hs id Hi) as [G1 G2 G3 G4]. unfold d.
    destruct (_ <=? _); destruct (negb _); split; assumption. }
  clearbody d. unfold calm. split_and!; try reflexivity. destruct Hs as [G1 G2 G3 G4 G5 G6 G7 G8]. split; try assumption.
  intros i Hi. unfold dev. cbn. rewrite lookup_total_insert. destruct (decide (id = i)) as [He|]; [by apply Hd|by apply G2].
Qed.
End Output.
#[export] Hint Resolve random_calm neighbor_find_calm neighbor_learn_calm icmp_allow_calm : net.
#[export] Hint Resolve enqueue_calm transmit_calm ether_calm arp_send_calm net_ip_send_calm nd_solicit_calm : net.
