(* ===== verification/TcpSteps.v ===== *)
(** Every operation of [Tcp.v] keeps the invariant of the stack and moves the
    sockets by steps of the TCP machine. *)
From S2P Require Import Prelude Klib Pmm Path State NetSum NetAddr Net Tcp NetInput NetSock TcpStream TcpMachine NetSafe NetOutput.

Section Steps.
Context {D : Type} `{Nics D}.
Context (n : Z).
#[local] Open Scope net_scope.
#[local] Abbreviation N := (@N D).
#[local] Abbreviation calms := (@calms D).
#[local] Abbreviation moves := (@moves D).
Implicit Types (s : net D) (x : net_socket).

(** * Segments out *)
Lemma tcp_packet_calm x sequence flags bytes : placed_at x -> calms n (net_tcp_packet x sequence flags bytes).
Proof. intros Hx. unfold net_tcp_packet. calmly. Qed.
Lemma socks_placed s i : net_ok n s -> placed_at (sock s i).
Proof. intros Hs. exact (so_placed _ (nk_socks n s Hs i)). Qed.
#[local] Hint Resolve tcp_packet_calm socks_placed : net.
Lemma tcp_ack_calm i : calms n (net_tcp_ack i).
Proof. unfold net_tcp_ack. calmly. Qed.
Lemma limited_ack_calm id i : calms n (limited_ack id i).
Proof. pose proof tcp_ack_calm. unfold limited_ack. calmly. Qed.

(** * The pump *)
Lemma sock_tcp s i : net_ok n s -> s_used (sock s i) = true -> is_tcp (sock s i) -> tcp_ok (sock s i).
Proof. intros Hs. exact (so_tcp _ (nk_socks n s Hs i)). Qed.
Lemma conn_then_quiet x y z : conn x y -> core z = core y -> (tunable y -> tunable z) -> (placed_at y -> placed_at z) -> conn x z.
Proof. intros Hxy H1 H2 H3. exact (conn_trans x y z Hxy (conn_quiet y z H1 H2 H3)). Qed.
Lemma error_conn e deadline x : s_used x = true -> is_tcp x ->
  conn x (x <| s_state := NS_ERROR |> <| s_error := e |> <| s_deadline := deadline |> <| s_used ::= (fun u => u && negb (s_detached x)) |>).
Proof.
  intros Hu Ht. pose proof (cs_fail x Hu Ht) as Hf.
  assert (Hq : conn x (x <| s_state := NS_ERROR |> <| s_error := e |> <| s_deadline := deadline |>)) by (apply (conn_then_quiet _ _ _ (conn_once _ _ Hf)); auto).
  destruct (s_detached x) eqn:Hd.
  - eapply conn_trans; [exact Hq|]. eapply conn_trans; [apply conn_once, cs_drop|]. apply conn_quiet; [|done|done]. unfold core. cbn. by rewrite andb_false_r.
  - eapply conn_trans; [exact Hq|]. apply conn_quiet; [|done|done]. unfold core. cbn. by rewrite andb_true_r.
Qed.
Lemma error_reach i e s : net_ok n s -> s_used (sock s i) = true -> is_tcp (sock s i) -> reach n s (fst (net_tcp_error i e s)).
Proof. intros Hs Hu Ht. unfold net_tcp_error, bind, get. cbn. by apply reach_put; [|apply error_conn]. Qed.
(** The socket of a connection, as the steps below find it. *)
Definition live s i : Prop := net_ok n s /\ s_used (sock s i) = true /\ is_tcp (sock s i).
Lemma live_calm s s1 i : live s i -> net_ok n s1 -> nt_sockets s1 = nt_sockets s -> live s1 i /\ sock s1 i = sock s i.
Proof. intros (Hs & Hu & Ht) H1 He. assert (E : sock s1 i = sock s i) by (unfold sock; by rewrite He). unfold live. by rewrite !E. Qed.
Lemma live_tcp s i : live s i -> tcp_ok (sock s i).
Proof. intros (Hs & Hu & Ht). by apply sock_tcp. Qed.
Lemma live_tunable s i : live s i -> tunable (sock s i).
Proof. intros (Hs & Hu & Ht). exact (so_tunable _ (nk_socks n s Hs i) Hu). Qed.
Lemma live_error i e s : live s i -> reach n s (fst (net_tcp_error i e s)).
Proof. intros (Hs & Hu & Ht). by apply error_reach. Qed.
Lemma quiet_moves i f : (forall x, core (f x) = core x) -> (forall x, tunable x -> tunable (f x)) -> (forall x, s_local (f x) = s_local x) -> moves n (put_sock i f).
Proof. intros H1 H2 H3. apply moves_quiet; [exact H1|exact H2|]. intros x. unfold placed_at. by rewrite H3. Qed.
Lemma backed_off_moves i : moves n (put_sock i backed_off).
Proof. apply quiet_moves; [done| |done]. intros x [Hm Hc]. unfold tunable, NET_STREAM in *. cbn. lia. Qed.
Lemma sent_at_moves i v : moves n (put_sock i (fun x => x <| s_sent_at := v |>)).
Proof. by apply quiet_moves. Qed.
Lemma live_put_then {B} Q i f (k : unit -> N B) s :
  live s i -> conn (sock s i) (f (sock s i)) -> s_used (f (sock s i)) = true ->
  (forall s1, live s1 i -> sock s1 i = f (sock s i) -> nt_now s1 = nt_now s -> ends n Q s1 (k tt s1)) ->
  ends n Q s (bind (put_sock i f) k s).
Proof.
  intros (Hs & Hu & Ht) Hc Hu' Hk. apply ends_put_then; [exact Hs|exact Hc|]. intros s1 Hs1 Hnow Hsock.
  specialize (Hsock i). rewrite decide_True in Hsock by done. apply Hk; [|exact Hsock|exact Hnow].
  unfold live. rewrite Hsock. split_and!; [exact Hs1|exact Hu'|]. destruct (conn_same _ _ Hc Hu') as (_ & _ & Hty & _). unfold is_tcp in *. congruence.
Qed.
Lemma error_ends i e s {A} (Q : net D -> A -> Prop) (a : A) : live s i -> (forall s', Q s' a) -> ends n Q s (bind (net_tcp_error i e) (fun _ => ret a) s).
Proof.
  intros Hl Ha. apply (ends_bind n (fun _ _ => True)); [split; [by apply live_error|done]|]. intros s1 [] Hs1 _ _. by apply ends_ret.
Qed.
(** The socket is still there, changed only where the machine does not look. *)
Definition unmoved i x s : Prop := live s i /\ core (sock s i) = core x.
Lemma resend_ends i now syn fin s : live s i -> ends n (fun s' stop => stop = false -> unmoved i (sock s i) s') s (resend i now syn fin s).
Proof.
  intros Hl. pose proof (proj1 Hl) as Hs. unfold resend. apply ends_get. cbv zeta. apply ends_if; intros Hdue; [|by apply ends_ret; [|split]].
  apply ends_if; intros Hretry; [by apply error_ends|].
  apply ends_calm; [by apply tcp_packet_calm, socks_placed|exact Hs|]. intros s1 e Hs1 He _. cbv beta.
  destruct (live_calm s s1 i Hl Hs1 He) as [Hl1 Hx1].
  apply ends_if; intros Hsent; [|apply ends_if; intros Hbad; [by apply error_ends|]].
  - apply (ends_bind n (fun s' _ => unmoved i (sock s i) s')).
    + apply ends_if; intros _; [|apply ends_ret; [exact Hs1|split; [exact Hl1|by rewrite Hx1]]].
      apply live_put_then; [exact Hl1| |exact (proj1 (proj2 Hl1))|].
      * apply conn_quiet; [done| |done]. intros [Hm Hc]. unfold tunable, NET_STREAM in *. cbn. lia.
      * intros s2 Hl2 Hx2 _. assert (Hd : calms n (put_dev (na_interface (s_local (sock s i))) (fun d => d <| nd_tcp_retransmits ::= Net.count |>))) by calmly.
        pose proof (Hd s2 (proj1 Hl2)) as Hc. split; [by apply calm_reach|]. destruct Hc as (Hs3 & _ & He3 & _).
        destruct (live_calm s2 _ i Hl2 Hs3 He3) as [Hl3 Hx3]. split; [exact Hl3|]. by rewrite Hx3, Hx2, Hx1.
    + intros s2 [] Hs2 _ [Hl2 Hx2]. apply live_put_then; [exact Hl2|by apply conn_quiet|exact (proj1 (proj2 Hl2))|].
      intros s3 Hl3 Hx3 _. apply ends_ret; [exact (proj1 Hl3)|]. intros _. split; [exact Hl3|]. by rewrite Hx3, <- Hx2.
  - apply ends_ret; [exact Hs1|]. intros _. split; [exact Hl1|by rewrite Hx1].
Qed.

(** ** New data: what is sent never exceeds what is queued. *)
Definition DATA : list net_state := [NS_ESTABLISHED; NS_CLOSE_WAIT].
Lemma data_states x : in_states x DATA -> s_state x = NS_ESTABLISHED \/ s_state x = NS_CLOSE_WAIT.
Proof. unfold in_states. destruct (s_state x); intros Hx; first [by left | by right | discriminate]. Qed.
Lemma core_fields x y : core x = core y ->
  s_used x = s_used y /\ s_type x = s_type y /\ s_state x = s_state y /\ s_close_requested x = s_close_requested y /\ s_snd_una x = s_snd_una y /\ s_snd_nxt x = s_snd_nxt y /\ s_tx x = s_tx y.
Proof. unfold core. intros Hc. injection Hc as E1 E2 E3 E4 E5 E6 E7 E8 E9 E10 E11 E12 E13 E14 E15 E16 E17 E18. by split_and!. Qed.
Lemma flight_add x k : 0 <= k -> flight x + k < 2 ^ 32 -> u32 (u32 (s_snd_nxt x + k) - s_snd_una x) = flight x + k.
Proof.
  intros Hk Hf. pose proof (flight_bounds x). unfold flight, u32 in *. rewrite Zminus_mod_idemp_l.
  replace (s_snd_nxt x + k - s_snd_una x) with ((s_snd_nxt x - s_snd_una x) + k) by lia. rewrite <- Zplus_mod_idemp_l. apply Z.mod_small. lia.
Qed.
Lemma send_loop_ends fuel : forall i now window s,
  live s i -> in_states (sock s i) DATA ->
  ends n (fun s' go => go = true -> live s' i /\ in_states (sock s' i) DATA) s (send_loop fuel i now window (flight (sock s i)) s).
Proof.
  induction fuel as [|fuel IH]; intros i now window s Hl Hst; cbn [send_loop]; pose proof (proj1 Hl) as Hs; [by apply ends_ret|].
  apply ends_get. cbv zeta. apply ends_if; intros Hmore; [|by apply ends_ret]. reflect_bools.
  set (x := sock s i) in *. set (k := Z.min _ _). pose proof (live_tcp s i Hl) as Htcp. pose proof (live_tunable s i Hl) as [Hmss _]. fold x in Htcp, Hmss.
  pose proof (flight_bounds x) as Hf. pose proof (to_tx x Htcp) as Htx.
  apply ends_calm; [by apply tcp_packet_calm, socks_placed|exact Hs|]. intros s1 e Hs1 He _. cbv beta.
  destruct (live_calm s s1 i Hl Hs1 He) as [Hl1 Hx1]. fold x in Hx1.
  apply ends_if; intros Herr.
  - destruct (negb (e =? K_EAGAIN)); [by apply error_ends|]. by apply ends_ret.
  - assert (Hnext : forall s2, live s2 i -> core (sock s2 i) = core x -> ends n (fun s' go => go = true -> live s' i /\ in_states (sock s' i) DATA) s2
        (bind (put_sock i (fun x => x <| s_snd_nxt ::= (fun q => u32 (q + k)) |>)) (fun _ => send_loop fuel i now window (flight x + k)) s2)).
    { intros s2 Hl2 Hc2. destruct (core_fields _ _ Hc2) as (E1 & E2 & E3 & E4 & E5 & E6 & E7). destruct Hl2 as (Hs2 & Hu2 & Ht2).
      assert (Hfl : flight (sock s2 i) = flight x) by (unfold flight; by rewrite E5, E6).
      apply live_put_then; [by split_and!| |exact Hu2|].
      - apply conn_once, (cs_send (sock s2 i) k); [exact Hu2|exact Ht2|rewrite E3; exact (data_states x Hst)|]. rewrite Hfl, E7. unfold tx_count in *. lia.
      - intros s3 Hl3 Hx3 _. replace (flight x + k) with (flight (sock s3 i)); [apply IH; [exact Hl3|]|].
        + unfold in_states. rewrite Hx3. cbn. rewrite E3. exact Hst.
        + rewrite Hx3. unfold flight at 1. cbn. rewrite <- Hfl. apply flight_add; rewrite ?Hfl; unfold tx_count, NET_STREAM in *; lia. }
    destruct (flight x =? 0).
    + apply live_put_then; [exact Hl1|by apply conn_quiet|exact (proj1 (proj2 Hl1))|]. intros s2 Hl2 Hx2 _. apply Hnext; [exact Hl2|]. by rewrite Hx2, Hx1.
    + apply Hnext; [exact Hl1|]. by rewrite Hx1.
Qed.
Lemma persist_moves i now : moves n (persist i now).
Proof.
  unfold persist. apply moves_get. intros s Hs. apply moves_if; [|moving]. apply moves_bind; [|intros _; by apply quiet_moves].
  by apply calms_moves, tcp_packet_calm, socks_placed.
Qed.
Lemma persist_ends i now s : live s i -> ends n (fun s' _ => unmoved i (sock s i) s') s (persist i now s).
Proof.
  intros Hl. pose proof (proj1 Hl) as Hs. unfold persist. apply ends_get. cbv zeta.
  apply ends_if; intros _; [|apply ends_ret; [exact Hs|by split]].
  apply ends_calm; [by apply tcp_packet_calm, socks_placed|exact Hs|]. intros s1 _ Hs1 He _. destruct (live_calm s s1 i Hl Hs1 He) as [Hl1 Hx1].
  destruct (ends_moves n (put_sock i (fun x => x <| s_persist_at := u64 (now + 1000) |>)) s1) as [Hr _]; [by apply quiet_moves|exact Hs1|].
  split; [exact Hr|]. unfold unmoved, live. rewrite sock_put, decide_True, Hx1 by done. destruct Hl1 as (_ & Hu & Ht). rewrite Hx1 in Hu, Ht.
  split_and!; [exact (proj1 Hr)|exact Hu|exact Ht|done].
Qed.
Lemma limit_mss_ends i s : live s i -> ends n (fun s' _ => unmoved i (sock s i) s') s (limit_mss i s).
Proof.
  intros Hl. pose proof Hl as (Hs & Hu & Ht). unfold limit_mss. apply ends_get. cbv zeta. apply ends_if; intros Hid; [|apply ends_ret; [exact Hs|by split]].
  reflect_bools. rewrite (nk_count n s Hs) in Hid. pose proof (socks_placed s i Hs) as Hp.
  pose proof (do_mtu _ _ (nk_devices n s Hs _ (conj Hp Hid))) as Hm. set (limit := u32 _).
  assert (Hlim : 0 < limit <= 1460) by (unfold limit; destruct (_ =? 4); rewrite u32_small by lia; lia).
  assert (Hmv : moves n (put_sock i (fun x => x <| s_mss := if limit <? s_mss x then limit else s_mss x |>))).
  { apply quiet_moves; [done| |done]. intros x [Hx1 Hx2]. split; cbn; [|exact Hx2]. destruct (limit <? s_mss x); lia. }
  split; [exact (Hmv s Hs)|]. unfold unmoved, live. rewrite sock_put, decide_True by done. split_and!; [exact (proj1 (Hmv s Hs))|exact Hu|exact Ht|done].
Qed.

Section Pump.
Context (again : Z -> Z -> N unit).
Context (Hagain : forall i now, moves n (again i now)).
Lemma pump_data_ends i now s : live s i -> ends n any s (pump_data again i now s).
Proof.
  intros Hl. pose proof (proj1 Hl) as Hs. unfold pump_data. apply ends_get. cbv zeta. fold DATA.
  apply ends_if; intros Hst; [by apply ends_ret|]. apply negb_false_iff in Hst.
  eapply ends_bind; [by apply send_loop_ends|]. intros s1 go Hs1 _ Hgo. apply ends_if; intros Hg; [by apply ends_ret|].
  apply negb_false_iff in Hg. destruct (Hgo Hg) as [Hl1 Hst1].
  eapply ends_bind; [by apply persist_ends|]. intros s2 _ Hs2 _ [Hl2 Hc2]. apply ends_get.
  destruct (core_fields _ _ Hc2) as (_ & _ & E3 & _).
  apply ends_if; intros Hfin; [|by apply ends_ret]. apply andb_prop in Hfin as [Hreq Htx]. reflect_bools. destruct Hl2 as (_ & Hu2 & Ht2).
  apply live_put_then; [by split_and!| |exact Hu2|].
  - apply conn_once, cs_fin; [exact Hu2|exact Ht2|rewrite E3; exact (data_states _ Hst1)|exact Hreq|]. unfold tx_count, zlen in Htx. destruct (s_tx (sock s2 i)); [done|cbn in Htx; lia].
  - intros s3 Hl3 _ _. exact (ends_moves n _ s3 (Hagain i now) (proj1 Hl3)).
Qed.
Lemma pump_moves i now : moves n (pump again i now).
Proof.
  intros s Hs. apply (ends_reach n any). unfold pump. apply ends_get. cbv zeta.
  apply ends_if; intros Hskip; [by apply ends_ret|]. reflect_bools.
  assert (Hl : live s i) by (by split_and!).
  apply ends_if; intros _; [apply ends_if; intros _; [by apply ends_moves, Hs; apply moves_drop|by apply ends_ret]|].
  apply ends_if; intros _; [apply ends_if; intros _; [by apply ends_moves, Hs; apply moves_drop|by apply ends_ret]|].
  apply ends_if; intros _; [by split; [apply live_error|]|].
  apply ends_if; intros _; [by split; [apply live_error|]|].
  eapply ends_bind; [by apply limit_mss_ends|]. intros s1 _ Hs1 _ [Hl1 _]. apply ends_get. cbv zeta.
  apply (ends_bind n (fun s' stop => stop = false -> live s' i)).
  - apply ends_if; intros _; [|by apply ends_ret]. eapply ends_weaken; [by apply resend_ends|]. intros s' a Ha Hf. by destruct (Ha Hf).
  - intros s2 stop Hs2 _ Hgo. destruct stop; [by apply ends_ret|]. apply pump_data_ends, Hgo. done.
Qed.
End Pump.
Lemma pump_n_moves fuel : forall i now, moves n (pump_n fuel i now).
Proof. induction fuel as [|fuel IH]; intros i now; cbn [pump_n]; [moving|]. by apply pump_moves. Qed.
Lemma tcp_pump_moves i now : moves n (net_tcp_pump i now).
Proof. apply pump_n_moves. Qed.
End Steps.
