(* ===== verification/TcpInput.v ===== *)
(** New sockets and arriving segments keep the invariant of the stack and move
    the sockets by steps of the TCP machine. *)
From S2P Require Import Prelude Klib Pmm Path State NetSum NetAddr Net Tcp NetInput NetSock TcpStream TcpMachine NetSafe NetOutput TcpSteps.

(** * What the handlers change is a step of the machine *)
Lemma options_bounds fuel p h : forall at_ mss r, 64 <= mss -> options_loop fuel p h at_ mss = Some (inr r) -> 64 <= r <= mss.
Proof.
  induction fuel as [|fuel IH]; intros at_ mss r Hm; cbn [options_loop].
  - destruct (h <=? at_); [|discriminate]. intros [= <-]. lia.
  - destruct (h <=? at_); [intros [= <-]; lia|]. destruct (byte p at_ =? 0); [intros [= <-]; lia|].
    destruct (byte p at_ =? 1); [by apply IH|]. destruct (_ || _); [discriminate|].
    destruct (byte p at_ =? 2) eqn:Ht; cbn [andb]; [|by apply IH].
    destruct (_ || _) eqn:Hok; [discriminate|]. reflect_bools. intros Hr. apply IH in Hr; lia.
Qed.
Lemma tcp_options_bounds p h mss r : 64 <= mss -> net_tcp_options p h mss = inr r -> 64 <= r <= mss.
Proof.
  intros Hm. unfold net_tcp_options. destruct (options_loop (Z.to_nat h) p h 20 mss) as [[e|v]|] eqn:Ho; cbn; [discriminate| |discriminate].
  intros [= <-]. exact (options_bounds _ _ _ _ _ _ Hm Ho).
Qed.
(** The round-trip estimator changes nothing but its own variables. *)
Definition kept (x y : net_socket) : Prop := core y = core x /\ s_mss y = s_mss x /\ s_cwnd y = s_cwnd x /\ s_local y = s_local x.
Lemma kept_if x (b : bool) y z : kept x y -> kept x z -> kept x (if b then y else z).
Proof. by destruct b. Qed.
Lemma kept_srtt x y v : kept x y -> kept x (y <| s_srtt := v |>).
Proof. done. Qed.
Lemma kept_rttvar x y v : kept x y -> kept x (y <| s_rttvar := v |>).
Proof. done. Qed.
Lemma kept_rto x y v : kept x y -> kept x (y <| s_rto := v |>).
Proof. done. Qed.
Lemma kept_times x y r b t : kept x y -> kept x (y <| s_retry := r |> <| s_retransmitted := b |> <| s_sent_at := t |>).
Proof. done. Qed.
Lemma rtt_core now x : kept x (net_tcp_rtt now x).
Proof.
  unfold net_tcp_rtt. cbv zeta. apply kept_times, kept_if; [|done]. apply kept_rto, kept_if; [by apply kept_rttvar, kept_srtt|by apply kept_srtt, kept_rttvar].
Qed.
Definition INITIAL_MSS (family : Z) : Z := if family =? 6 then 1220 else NET_MSS.
Lemma established_conn now x : s_used x = true -> is_tcp x -> s_state x = NS_SYN_RCVD ->
  conn x ((net_tcp_rtt now (x <| s_snd_una := s_snd_nxt x |> <| s_state := NS_ESTABLISHED |>)) <| s_sent_at := 0 |>).
Proof.
  intros Hu Ht He. eapply conn_trans; [apply conn_once, (cs_established x Hu Ht He)|].
  set (y := x <| s_snd_una := s_snd_nxt x |> <| s_state := NS_ESTABLISHED |>). pose proof (rtt_core now y) as Hz. revert Hz.
  generalize (net_tcp_rtt now y). intros z (H1 & H2 & H3 & H4).
  apply conn_quiet; [exact H1| |]; unfold tunable, placed_at; cbn; rewrite ?H2, ?H3, ?H4; done.
Qed.
Lemma established_same now x :
  let y := (net_tcp_rtt now (x <| s_snd_una := s_snd_nxt x |> <| s_state := NS_ESTABLISHED |>)) <| s_sent_at := 0 |> in
  s_used y = s_used x /\ s_state y = NS_ESTABLISHED.
Proof.
  set (y := x <| s_snd_una := s_snd_nxt x |> <| s_state := NS_ESTABLISHED |>). pose proof (rtt_core now y) as Hz. revert Hz.
  generalize (net_tcp_rtt now y). intros z (Hc & _). apply core_fields in Hc as (H1 & _ & H2 & _). split; [exact H1|exact H2].
Qed.
Lemma syn_ack_conn now mss seq window x : s_used x = true -> is_tcp x -> s_state x = NS_SYN_SENT -> 64 <= mss <= 1440 ->
  conn x ((net_tcp_rtt now (x <| s_mss := mss |> <| s_cwnd := u32 (mss * 2) |> <| s_peer_window := window |> <| s_snd_una := s_snd_nxt x |>
     <| s_rcv_nxt := u32 (seq + 1) |> <| s_state := NS_ESTABLISHED |>)) <| s_sent_at := 0 |>).
Proof.
  intros Hu Ht He Hm. eapply conn_trans; [apply conn_once, (cs_syn_ack x seq Hu Ht He)|].
  match goal with |- conn _ ((net_tcp_rtt now ?y) <| s_sent_at := 0 |>) => pose proof (rtt_core now y) as Hz; revert Hz; generalize (net_tcp_rtt now y) end.
  intros z (H1 & H2 & H3 & H4). apply conn_quiet; [exact H1| |]; unfold tunable, placed_at, NET_STREAM; cbn; rewrite ?H2, ?H3, ?H4; [|done].
  intros _. cbn. rewrite u32_small by lia. lia.
Qed.
Lemma seq_range una nxt ack : is_u32 ack -> net_seq_before una ack = true -> net_seq_before nxt ack = false -> 0 < u32 (ack - una) <= u32 (nxt - una).
Proof.
  unfold net_seq_before, is_u32. intros Ha Hb Hn. reflect_bools.
  assert (Hsum : u32 (nxt - una) = u32 (u32 (nxt - ack) + u32 (ack - una))) by (unfold u32; rewrite <- Zplus_mod; f_equal; lia).
  pose proof (u32_bounds (nxt - ack)). pose proof (u32_bounds (ack - una)).
  assert (Hneg : u32 (una - ack) = if u32 (ack - una) =? 0 then 0 else 2 ^ 32 - u32 (ack - una)).
  { unfold u32. replace (una - ack) with (- (ack - una)) by lia. destruct (Z.eqb_spec ((ack - una) mod 2 ^ 32) 0); [by apply Z.mod_opp_l_z|by apply Z.mod_opp_l_nz]. }
  rewrite Hneg in Hb. destruct (Z.eqb_spec (u32 (ack - una)) 0); [lia|]. rewrite Hsum, (u32_small (u32 _ + u32 _)) by lia. lia.
Qed.
Lemma data_ack_conn now ack x : s_used x = true -> is_tcp x -> s_state x = NS_ESTABLISHED \/ s_state x = NS_CLOSE_WAIT -> is_u32 ack ->
  net_seq_before (s_snd_una x) ack = true -> net_seq_before (s_snd_nxt x) ack = false -> conn x (data_ack now ack x).
Proof.
  intros Hu Ht He Hack Hb Hn. pose proof (seq_range _ _ _ Hack Hb Hn) as Hr. fold (flight x) in Hr.
  eapply conn_trans; [apply conn_once, (cs_acked x (u32 (ack - s_snd_una x)) Hu Ht He); lia|].
  unfold data_ack. cbv zeta. set (y := x <| s_tx ::= drop (Z.to_nat (u32 (ack - s_snd_una x))) |> <| s_snd_una := ack |>). pose proof (rtt_core now y) as Hz. revert Hz.
  generalize (net_tcp_rtt now y). intros z (H1 & H2 & H3 & H4). match goal with |- context [Z.min ?w NET_STREAM] => set (c := w) end.
  assert (Hc : core y = core (x <| s_tx ::= drop (Z.to_nat (u32 (ack - s_snd_una x))) |> <| s_snd_una := u32 (s_snd_una x + u32 (ack - s_snd_una x)) |>)).
  { unfold core, y. cbn. replace (u32 (s_snd_una x + u32 (ack - s_snd_una x))) with ack; [reflexivity|].
    unfold u32. rewrite Zplus_mod_idemp_r. replace (s_snd_una x + (ack - s_snd_una x)) with ack by lia. symmetry. apply Z.mod_small, Hack. }
  assert (Hcw : tunable x -> 0 < Z.min c NET_STREAM <= NET_STREAM).
  { intros [Hm Hw]. unfold c. rewrite H3, H2. unfold y, NET_STREAM in *. cbn.
    pose proof (u32_bounds (s_mss x * s_mss x)). pose proof (Z.div_pos (u32 (s_mss x * s_mss x)) (s_cwnd x) ltac:(lia) ltac:(lia)).
    pose proof (Z.div_le_upper_bound (u32 (s_mss x * s_mss x)) (s_cwnd x) (2 ^ 32 - 20000) ltac:(lia)).
    assert (Hsq : u32 (s_mss x * s_mss x) <= 1460 * 1460) by (rewrite u32_small; nia).
    destruct (s_cwnd x <? s_threshold z); rewrite u32_small; try lia. }
  destruct (_ =? _); (apply conn_quiet; [rewrite <- Hc, <- H1; reflexivity| |]).
  all: unfold tunable, placed_at; cbn; rewrite ?H2, ?H4; unfold y; cbn; auto.
  all: intros Hx; split; [apply Hx|apply Hcw, Hx].
Qed.
(** The states in which bytes may arrive, as long as the peer has not sent its FIN. *)
Definition OPENED : list net_state := [NS_ESTABLISHED; NS_FIN_WAIT1; NS_FIN_WAIT2; NS_CLOSE_WAIT; NS_CLOSING; NS_LAST_ACK; NS_TIME_WAIT].
Lemma opened_receives x : tcp_ok x -> in_states x OPENED -> s_peer_fin x = false -> s_state x = NS_ESTABLISHED \/ s_state x = NS_FIN_WAIT1 \/ s_state x = NS_FIN_WAIT2.
Proof.
  intros Hx Hs Hp. pose proof (to_peer x Hx) as H. rewrite Hp in H. unfold in_states in Hs.
  destruct (s_state x); try discriminate; auto; specialize (H ltac:(discriminate)); discriminate.
Qed.
Lemma accept_conn now seq fin data x : s_used x = true -> is_tcp x -> tcp_ok x -> in_states x OPENED -> (s_peer_fin x = true -> data = []) ->
  conn x (fst (accept_data now seq fin data x)).
Proof.
  intros Hu Ht Hx Hs Hp. unfold accept_data. cbv zeta. set (trim := if net_seq_before seq (s_rcv_nxt x) then _ else 0).
  destruct (negb _); cbn [fst]; [apply conn_refl|]. set (left := drop (Z.to_nat trim) data). set (t := Z.min (zlen left) _).
  pose proof (to_count x Hx) as Hc. assert (Hlen : zlen (take (Z.to_nat t) left) <= NET_STREAM - s_rx_count x).
  { pose proof (zlen_nonneg left). unfold zlen at 1. rewrite length_take. unfold t. lia. }
  assert (Hb : conn x (receive_bytes (take (Z.to_nat t) left) x)).
  { apply conn_once, cs_bytes; [exact Hu|exact Ht| |exact Hlen]. destruct (s_peer_fin x) eqn:Hpf.
    - right. right. right. unfold left. rewrite (Hp eq_refl), drop_nil, take_nil. reflexivity.
    - destruct (opened_receives x Hx Hs Hpf) as [Hst | [Hst | Hst]]; rewrite Hst; auto. }
  set (y := receive_bytes _ x) in *. destruct (fin && _ && _) eqn:Hf; [|exact Hb].
  apply andb_prop in Hf as [_ Hf]. apply negb_true_iff in Hf. eapply conn_trans; [exact Hb|]. apply conn_once, cs_peer_fin; [exact Hu|exact Ht|].
  exact (opened_receives x Hx Hs Hf).
Qed.
Lemma receive_fin_same now x : s_used (receive_fin now x) = s_used x.
Proof. unfold receive_fin. cbn. by destruct (s_state x). Qed.
Lemma accept_used now seq fin data x : s_used (fst (accept_data now seq fin data x)) = s_used x.
Proof.
  unfold accept_data. cbv zeta. destruct (negb _); [reflexivity|]. cbn [fst]. destruct (fin && _ && _); [by rewrite receive_fin_same|reflexivity].
Qed.
Lemma finish_conn now ack x : s_used x = true -> is_tcp x -> tcp_ok x -> in_states x [NS_FIN_WAIT1; NS_CLOSING; NS_LAST_ACK] -> ack = u32 (s_fin_seq x + 1) ->
  conn x (finish_ack now ack x).
Proof.
  intros Hu Ht Hx Hs ->. destruct (to_fin x Hx Hs) as (_ & _ & <-). apply conn_once, cs_fin_acked; [exact Hu|exact Ht|].
  unfold in_states in Hs. destruct (s_state x); try discriminate; auto.
Qed.
Lemma data_ack_used now ack x : s_used (data_ack now ack x) = s_used x.
Proof.
  unfold data_ack. cbv zeta. match goal with |- context [net_tcp_rtt now ?y] => pose proof (rtt_core now y) as Hz; revert Hz; generalize (net_tcp_rtt now y) end.
  intros z (Hc & _). apply core_fields in Hc as (Hu & _). destruct (_ =? _); cbn; exact Hu.
Qed.
Lemma data_ack_state now ack x : s_state (data_ack now ack x) = s_state x.
Proof.
  unfold data_ack. cbv zeta. match goal with |- context [net_tcp_rtt now ?y] => pose proof (rtt_core now y) as Hz; revert Hz; generalize (net_tcp_rtt now y) end.
  intros z (Hc & _). apply core_fields in Hc as (_ & _ & Hu & _). destruct (_ =? _); cbn; exact Hu.
Qed.

Section Input.
Context {D : Type} `{Nics D}.
Context (n : Z).
#[local] Open Scope net_scope.
#[local] Abbreviation N := (@N D).
#[local] Abbreviation calms := (@calms D).
#[local] Abbreviation moves := (@moves D).
#[local] Hint Resolve tcp_packet_calm socks_placed tcp_ack_calm limited_ack_calm tcp_pump_moves : net.
Implicit Types (s : net D) (x : net_socket).

(** * New sockets *)
Lemma new_sock_ok now id family type owner : type = K_SOCK_TCP \/ type = K_SOCK_UDP -> sock_ok (new_socket now id family type owner).
Proof.
  intros Ht. split; [| |intros _|intros _; exact Ht|intros _ _].
  - unfold placed_at. cbn. unfold NET_NONE. lia.
  - cbn. unfold NET_DGRAMS. lia.
  - unfold tunable, NET_STREAM, new_socket. cbn. destruct (family =? 6); lia.
  - split; unfold in_states, is_u32, NET_STREAM; cbn; intros; eval_states; try discriminate; try lia; auto.
Qed.
(** The socket that a call opened. *)
Definition opened family type owner s' (r : option Z) : Prop :=
  match r with
  | Some i => s_used (sock s' i) = true /\ exists now id, sock s' i = new_socket now id family type owner
  | None => True
  end.
Lemma socket_new_ends family type owner s : type = K_SOCK_TCP \/ type = K_SOCK_UDP -> net_ok n s -> ends n (opened family type owner) s (net_socket_new family type owner s).
Proof.
  intros Hty Hs. unfold net_socket_new. destruct (nt_next_socket s =? 0) eqn:Hz; [by split; [apply reach_refl|]|]. reflect_bools.
  destruct (find_range _ _ _) as [i|] eqn:Hf; [|by split; [apply reach_refl|]]. apply find_range_Some in Hf as (_ & Hfree & _). apply negb_true_iff in Hfree.
  set (id := nt_next_socket s). set (w := new_socket (nt_now s) id family type owner).
  assert (Hsock : forall j, sock (s <| nt_next_socket := u32 (id + 1) |> <| nt_sockets ::= <[i := w]> |>) j = if decide (i = j) then w else sock s j).
  { intros j. unfold sock. cbn. apply lookup_total_insert. }
  pose proof Hs as [G1 G2 G3 G4 G5 G6 G7 G8]. assert (Hh : next_handle s = id) by (unfold next_handle; rewrite (proj2 (Z.eqb_neq _ _) Hz); done).
  assert (Hn : id < next_handle (s <| nt_next_socket := u32 (id + 1) |> <| nt_sockets ::= <[i := w]> |>)).
  { unfold next_handle. cbn. destruct (Z.eqb_spec (u32 (id + 1)) 0); [unfold is_u32, id in *; lia|].
    unfold is_u32, u32 in *. fold id in G6. dlia. }
  split; cbn [fst snd].
  - unfold reach. split_and!; [|reflexivity|lia|].
    + split; try assumption.
      * intros j. rewrite Hsock. destruct (decide _); [by apply new_sock_ok|apply G5].
      * cbn. apply u32_bounds.
      * intros j. rewrite Hsock. destruct (decide _); [intros _; exact Hn|]. intros Hj. specialize (G7 j Hj). lia.
      * intros j k. rewrite !Hsock. destruct (decide (i = j)) as [<-|], (decide (i = k)) as [<-|]; intros Hj Hk He; auto.
        -- specialize (G7 k Hk). cbn in He. lia.
        -- specialize (G7 j Hj). cbn in He. lia.
    + intros j. rewrite Hsock. destruct (decide _); [|apply life_refl]. right. exists (nt_now s), id, family, type, owner. split; [lia|apply conn_refl].
  - unfold opened. rewrite Hsock, decide_True by done. split; [reflexivity|]. by exists (nt_now s), id.
Qed.
Lemma random_value s : is_u32 (snd (net_random s)).
Proof.
  unfold net_random, hash_value. cbn [snd]. repeat match goal with |- context [let '(_, _) := ?p in _] => destruct p end. apply u32_bounds.
Qed.
Lemma random_ends {B} Q (k : Z -> N B) s : net_ok n s ->
  (forall s1 v, net_ok n s1 -> nt_sockets s1 = nt_sockets s -> is_u32 v -> ends n Q s1 (k v s1)) -> ends n Q s (bind net_random k s).
Proof.
  intros Hs Hk. apply (ends_bind n (fun s1 v => nt_sockets s1 = nt_sockets s /\ is_u32 v)).
  - split; [apply calm_reach, random_calm, Hs|split; [reflexivity|apply random_value]].
  - intros s1 v Hs1 _ [He Hv]. by apply Hk.
Qed.
Lemma passive_conn id family src dst p iss mss listener x : 0 <= id -> s_used x = true -> is_tcp x -> s_state x = NS_NEW -> is_u32 iss -> 64 <= mss <= 1440 ->
  conn x (x <| s_parent := listener |> <| s_state := NS_SYN_RCVD |>
    <| s_local := put_addr family dst ((s_local x) <| na_interface := id |> <| na_port := be16 p 2 |>) |>
    <| s_peer := put_addr family src ((s_peer x) <| na_interface := id |> <| na_port := be16 p 0 |>) |>
    <| s_iss := iss |> <| s_snd_una := iss |> <| s_snd_nxt := u32 (iss + 1) |> <| s_rcv_nxt := u32 (be32 p 4 + 1) |>
    <| s_mss := mss |> <| s_cwnd := u32 (mss * 2) |> <| s_peer_window := be16 p 14 |>).
Proof.
  intros Hid Hu Ht He Hi Hm. eapply conn_trans; [apply conn_once, (cs_passive x iss (be32 p 4) (put_addr family src ((s_peer x) <| na_interface := id |> <| na_port := be16 p 0 |>)) Hu Ht He)|].
  apply conn_quiet.
  - unfold core. cbn. by rewrite (u32_small iss) by exact Hi.
  - intros _. unfold tunable, NET_STREAM. cbn. rewrite u32_small by lia. lia.
  - intros _. exact Hid.
Qed.
Lemma passive_open_moves id family src dst p h l : 0 <= id -> moves n (passive_open id family src dst p h l).
Proof.
  intros Hid s Hs. apply (ends_reach n any). unfold passive_open. apply ends_get. cbv zeta.
  assert (Hdrop : moves n (put_dev id (fun d => d <| nd_dropped ::= Net.count |>))) by moving.
  assert (Herr : moves n (put_dev id (fun d => d <| nd_errors ::= Net.count |>))) by moving.
  apply ends_if; intros _; [by apply ends_moves|].
  destruct (net_tcp_options p h _) as [e|mss] eqn:Ho; [by apply ends_moves|].
  assert (Hm : 64 <= mss <= 1440) by (apply tcp_options_bounds in Ho; destruct (family =? 6); unfold NET_MSS in *; lia).
  eapply ends_bind; [apply socket_new_ends; [by left|exact Hs]|]. intros s1 [i|] Hs1 _ Hnew; [|by apply ends_moves].
  destruct Hnew as (Hu & now & hid & Hx). apply random_ends; [exact Hs1|]. intros s2 iss Hs2 He Hiss.
  assert (Hx2 : sock s2 i = sock s1 i) by (unfold sock; by rewrite He).
  apply ends_put_then; [exact Hs2| |].
  - rewrite Hx2, Hx. apply passive_conn; [exact Hid|reflexivity|reflexivity|reflexivity|exact Hiss|exact Hm].
  - intros s3 Hs3 _ _. apply ends_moves; [apply tcp_pump_moves|exact Hs3].
Qed.
Lemma refuse_moves id family src dst p len : 0 <= id -> moves n (refuse id family src dst p len).
Proof. intros Hid. unfold refuse. moving. Qed.

(** * A segment for a connection *)
Lemma syn_sent_moves i family p h s : live n s i -> in_states (sock s i) [NS_SYN_SENT] -> reach n s (fst (syn_sent_input i family p h s)).
Proof.
  intros Hl Hst. pose proof Hl as (Hs & Hu & Ht). apply (ends_reach n any). unfold syn_sent_input. apply ends_get. cbv zeta.
  apply ends_if; intros _; [apply ends_if; intros _; [by split; [apply live_error|]|by apply ends_ret]|].
  apply ends_if; intros Hack; [by apply ends_ret|]. reflect_bools.
  destruct (net_tcp_options p h _) as [e|mss] eqn:Ho; [by apply ends_ret|].
  assert (Hm : 64 <= mss <= 1440) by (apply tcp_options_bounds in Ho; destruct (family =? 6); unfold NET_MSS in *; lia).
  assert (He : s_state (sock s i) = NS_SYN_SENT) by (unfold in_states in Hst; destruct (s_state (sock s i)); try discriminate; done).
  apply ends_put_then; [exact Hs| |].
  - match goal with Ha : be32 p 8 = _ |- _ => rewrite Ha end. by apply syn_ack_conn.
  - intros s1 Hs1 _ _. apply ends_moves; [apply calms_moves, (tcp_ack_calm n)|exact Hs1].
Qed.
Definition going i s' (go : bool) : Prop := go = true -> live n s' i /\ in_states (sock s' i) OPENED.
Lemma duplicate_ack_ends id i now s : live n s i -> ends n (fun s' _ => unmoved n i (sock s i) s') s (duplicate_ack id i now s).
Proof.
  intros Hl. unfold duplicate_ack. apply live_put_then; [exact Hl|by apply conn_quiet|exact (proj1 (proj2 Hl))|]. intros s1 Hl1 Hx1 _. apply ends_get.
  apply ends_if; intros _; [|apply ends_ret; [exact (proj1 Hl1)|split; [exact Hl1|by rewrite Hx1]]].
  apply live_put_then; [exact Hl1| |exact (proj1 (proj2 Hl1))|].
  - apply conn_quiet; [done| |done]. intros [Hm Hc]. unfold tunable, NET_STREAM in *. cbn. lia.
  - intros s2 Hl2 Hx2 _. apply ends_get. cbv zeta. apply ends_calm; [apply tcp_packet_calm, (socks_placed n), Hl2|exact (proj1 Hl2)|].
    intros s3 _ Hs3 He3 _. destruct (live_calm n s2 s3 i Hl2 Hs3 He3) as [Hl3 Hx3].
    assert (Hd : calms n (put_dev id (fun d => d <| nd_tcp_retransmits ::= Net.count |>))) by calmly.
    pose proof (Hd s3 Hs3) as Hc. split; [by apply calm_reach|]. destruct Hc as (Hs4 & _ & He4 & _).
    destruct (live_calm n s3 _ i Hl3 Hs4 He4) as [Hl4 Hx4]. split; [exact Hl4|]. by rewrite Hx4, Hx3, Hx2, Hx1.
Qed.
Lemma ack_input_ends id i p len s : live n s i -> in_states (sock s i) (NS_SYN_RCVD :: OPENED) -> net_seq_before (s_snd_nxt (sock s i)) (be32 p 8) = false ->
  ends n (going i) s (ack_input id i p len s).
Proof.
  intros Hl Hst Hnxt. pose proof Hl as (Hs & Hu & Ht). pose proof (live_tcp n s i Hl) as Hx. unfold ack_input. apply ends_get. cbv zeta.
  assert (Hack : is_u32 (be32 p 8)) by apply u32_bounds. set (x := sock s i) in *.
  apply ends_if; intros Hsyn.
  - apply bool_decide_eq_true in Hsyn. apply ends_if; intros Hbad; [by apply ends_ret|]. reflect_bools.
    match goal with Ha : be32 p 8 = _ |- _ => rewrite Ha end.
    apply live_put_then; [exact Hl| | |].
    + fold x. by apply established_conn.
    + fold x. rewrite (proj1 (established_same (nt_now s) x)). exact Hu.
    + intros s1 Hl1 Hx1 _. apply ends_ret; [exact (proj1 Hl1)|]. intros _. split; [exact Hl1|]. unfold in_states. rewrite Hx1. fold x.
      rewrite (proj2 (established_same (nt_now s) x)). reflexivity.
  - apply bool_decide_eq_false in Hsyn.
    assert (Hop : in_states x OPENED) by (unfold in_states in *; destruct (s_state x); try discriminate; done).
    apply ends_if; intros Hb.
    + apply ends_if; intros Hf.
      * apply ends_if; intros Hfa; [by apply ends_ret|]. reflect_bools.
        destruct (bool_decide (s_state x = NS_LAST_ACK)) eqn:Hla.
        -- apply ends_put_then; [exact Hs|fold x; by apply finish_conn|]. intros s1 Hs1 _ _. by apply ends_ret.
        -- apply bool_decide_eq_false in Hla. assert (Hfs : s_used (finish_ack (nt_now s) (be32 p 8) x) = true /\ in_states (finish_ack (nt_now s) (be32 p 8) x) OPENED).
           { unfold finish_ack, in_states. cbn. unfold in_states in Hf. destruct (s_state x); try discriminate; try done. }
           apply live_put_then; [exact Hl|fold x; by apply finish_conn|fold x; apply Hfs|]. intros s1 Hl1 Hx1 _. apply ends_ret; [exact (proj1 Hl1)|]. intros _.
           split; [exact Hl1|]. rewrite Hx1. apply Hfs.
      * apply ends_if; intros Htx; [by apply ends_ret|].
        assert (Hd : s_state x = NS_ESTABLISHED \/ s_state x = NS_CLOSE_WAIT).
        { pose proof (to_done x Hx) as Hdone. pose proof (seq_range _ _ _ Hack Hb Hnxt) as Hr. fold (flight x) in Hr. unfold in_states in *.
          destruct (s_state x); try discriminate; auto; destruct (Hdone eq_refl); lia. }
        apply live_put_then; [exact Hl|fold x; by apply data_ack_conn|fold x; rewrite data_ack_used; exact Hu|]. intros s1 Hl1 Hx1 _.
        apply ends_ret; [exact (proj1 Hl1)|]. intros _. split; [exact Hl1|]. unfold in_states. rewrite Hx1, data_ack_state. exact Hop.
    + apply ends_if; intros Hdup; [|by apply ends_ret].
      eapply ends_bind; [by apply duplicate_ack_ends|]. intros s1 _ Hs1 _ [Hl1 Hc1]. apply ends_ret; [exact Hs1|]. intros _. split; [exact Hl1|].
      apply core_fields in Hc1 as (_ & _ & Hc1 & _). unfold in_states. rewrite Hc1. exact Hop.
Qed.
Lemma data_input_reach i p h s : live n s i -> in_states (sock s i) OPENED -> reach n s (fst (data_input i p h s)).
Proof.
  intros Hl Hst. pose proof Hl as (Hs & Hu & Ht). apply (ends_reach n any). unfold data_input. apply ends_get. cbv zeta.
  set (data := drop (Z.to_nat h) p). apply ends_if; intros Hclosed; [apply ends_moves; [apply calms_moves, tcp_ack_calm|exact Hs]|].
  apply (ends_bind n any); [|intros s1 go Hs1 _ _; destruct go; [apply ends_moves; [apply tcp_pump_moves|exact Hs1]|by apply ends_ret]].
  apply ends_if; intros _; [|by apply ends_ret].
  apply ends_put_then; [exact Hs| |].
  - apply accept_conn; [exact Hu|exact Ht|by apply (live_tcp n)|exact Hst|]. intros Hpf. rewrite Hpf in Hclosed. cbn [andb] in Hclosed.
    reflect_bools. destruct data; [done|]. rewrite zlen_cons in *. pose proof (zlen_nonneg data). lia.
  - intros s1 Hs1 _ _. apply ends_moves; [|exact Hs1]. pose proof (tcp_ack_calm n i). moving.
Qed.
Lemma connection_reach id i family p h s : live n s i -> is_ns (s_state (sock s i)) [NS_NEW; NS_BOUND; NS_LISTEN] = false ->
  reach n s (fst (connection_input id i family p h s)).
Proof.
  intros Hl Hst. apply (ends_reach n any). unfold connection_input. apply ends_get.
  apply live_put_then; [exact Hl|by apply conn_quiet|exact (proj1 (proj2 Hl))|]. intros s1 Hl1 Hx1 _. apply ends_get. cbv zeta.
  assert (Hst1 : is_ns (s_state (sock s1 i)) [NS_NEW; NS_BOUND; NS_LISTEN] = false) by (rewrite Hx1; exact Hst). pose proof (proj1 Hl1) as Hs1.
  assert (Hack : moves n (net_tcp_ack i)) by apply calms_moves, tcp_ack_calm. assert (Hlim : moves n (limited_ack id i)) by apply calms_moves, limited_ack_calm.
  assert (Hpump : moves n (net_tcp_pump i (nt_now s1))) by apply tcp_pump_moves.
  apply ends_if; intros Hss; [by split; [apply syn_sent_moves|]|].
  apply ends_if; intros Htw; [apply ends_if; intros _; [|by apply ends_ret]|].
  { eapply ends_bind; [by apply ends_moves|]. intros s2 _ Hs2 _ _. apply ends_moves; [by apply quiet_moves|exact Hs2]. }
  apply ends_if; intros Herr; [by apply ends_ret|].
  apply ends_if; intros _.
  { apply live_put_then; [exact Hl1|by apply conn_quiet|exact (proj1 (proj2 Hl1))|]. intros s2 Hl2 _ _. apply ends_moves; [exact Hpump|exact (proj1 Hl2)]. }
  apply ends_if; intros _; [apply ends_if; intros _; [by apply ends_moves|by apply ends_ret]|].
  apply ends_if; intros _; [apply ends_if; intros _; [by split; [apply live_error|]|by apply ends_moves]|].
  apply ends_if; intros _; [by apply ends_moves|]. apply ends_if; intros _; [by apply ends_ret|]. apply ends_if; intros Hnxt; [by apply ends_moves|].
  eapply ends_bind; [apply ack_input_ends; [exact Hl1| |exact Hnxt]|].
  - unfold in_states. destruct (s_state (sock s1 i)); try discriminate; reflexivity.
  - intros s2 go Hs2 _ Hgo. destruct go; cbn [negb]; [|by apply ends_ret]. destruct (Hgo eq_refl) as [Hl2 Hst2].
    apply live_put_then; [exact Hl2|by apply conn_quiet|exact (proj1 (proj2 Hl2))|]. intros s3 Hl3 Hx3 _.
    split; [|done]. apply data_input_reach; [exact Hl3|]. unfold in_states. rewrite Hx3. exact Hst2.
Qed.
Lemma lookup_found s id family src dst sport dport i l : net_ok n s -> sport <> 0 -> tcp_lookup s id family src dst sport dport = (Some i, l) ->
  live n s i /\ is_ns (s_state (sock s i)) [NS_NEW; NS_BOUND; NS_LISTEN] = false.
Proof.
  intros Hs Hp Hf. unfold tcp_lookup in Hf.
  pose proof (for_range_pres (fun _ => True) (fun r => live n s (fst r) /\ is_ns (s_state (sock s (fst r))) [NS_NEW; NS_BOUND; NS_LISTEN] = false)
    (lookup_step s id family src dst sport dport) 0 K_NET_MAX_SOCKETS None I) as Hinv.
  destruct (for_range _ _ _ _) as [|[j l']]; [discriminate|]. injection Hf as -> _. apply Hinv. clear Hinv. intros j t _. unfold lookup_step.
  destruct (_ || _) eqn:Hskip; [done|]. destruct (_ && _); [done|]. destruct (_ && _); [done|]. destruct (_ && _); [done|].
  destruct (_ && _) eqn:Hpeer; [|done]. reflect_bools. assert (Hl : live n s j) by (by split_and!). split; [exact Hl|]. cbn [fst].
  apply not_true_iff_false. intros Hst. apply (to_unbound _ (live_tcp n s j Hl)) in Hst. congruence.
Qed.
Lemma tcp_input_moves id family src dst p : 0 <= id -> moves n (net_tcp_input id family src dst p).
Proof.
  intros Hid s Hs. apply (ends_reach n any). unfold net_tcp_input. apply ends_get. cbv zeta.
  apply ends_if; intros Hbad; [apply ends_moves; [moving|exact Hs]|].
  apply ends_if; intros _; [apply ends_moves; [moving|exact Hs]|].
  assert (Hsp : be16 p 0 <> 0) by (reflect_bools; assumption).
  destruct (tcp_lookup s id family src dst (be16 p 0) (be16 p 2)) as [[i|] [l|]] eqn:Hf.
  1-2: destruct (lookup_found _ _ _ _ _ _ _ _ _ Hs Hsp Hf) as [Hl Hst]; by split; [apply connection_reach|].
  - apply ends_if; intros _; apply ends_moves; [by apply passive_open_moves|exact Hs|by apply refuse_moves|exact Hs].
  - apply ends_moves; [by apply refuse_moves|exact Hs].
Qed.
End Input.
