(* ===== verification/NetHandle.v ===== *)
(** Every frame that arrives -- ARP, neighbour discovery, ICMP, UDP, fragments,
    TCP -- keeps the invariant of the stack and moves the sockets by steps of
    the TCP machine. *)
From S2P Require Import Prelude Klib Pmm Path State NetSum NetAddr Net Tcp NetInput NetSock TcpStream TcpMachine NetSafe NetOutput TcpSteps TcpInput.

Section Handle.
Context {D : Type} `{Nics D}.
Context (n : Z).
#[local] Open Scope net_scope.
#[local] Abbreviation N := (@N D).
#[local] Abbreviation calms := (@calms D).
#[local] Abbreviation moves := (@moves D).
#[local] Hint Resolve tcp_packet_calm socks_placed tcp_ack_calm tcp_pump_moves : net.
Implicit Types (s : net D) (x : net_socket) (d : net_device).

Lemma add_error_calm id : calms n (add_error id).
Proof. unfold add_error. calmly. Qed.
Lemma add_dropped_calm id : calms n (add_dropped id).
Proof. unfold add_dropped. calmly. Qed.
#[local] Hint Resolve add_error_calm add_dropped_calm : net.
(** Addresses are those of an attached adapter. *)
Ltac own_id := match goal with Hs : net_ok ?n ?s |- context [nd_id (dev ?s ?id)] => rewrite (dev_id n s id Hs) by assumption end.
Lemma range_nonneg id : in_range n id -> 0 <= id.
Proof. by intros [? _]. Qed.
#[local] Hint Resolve range_nonneg : net.

(** * ARP and neighbour discovery *)
Lemma arp_input_calm id p mac : in_range n id -> calms n (net_arp_input id p mac).
Proof. intros Hid. unfold net_arp_input. calmly. Qed.
Ltac dev_cases := repeat match goal with |- context [if ?b then _ else _] => destruct b end; match goal with Hd : dev_ok _ _ |- _ => destruct Hd; by split end.
Lemma mtu_option_ok p at_ : forall i d, dev_ok i d -> dev_ok i (mtu_option p at_ d).
Proof.
  intros i d [G1 G2 G3 G4]. unfold mtu_option. destruct (_ && _) eqn:Hm; [|by split]. reflect_bools. split; try assumption. cbn.
  destruct (bool_decide (nd_kind d = NIC_EXTERNAL)) eqn:He; [apply bool_decide_eq_true in He; specialize (G3 He)|]; lia.
Qed.
Lemma router_option_calm id src p mac o : calms n (router_option id src p mac o).
Proof.
  unfold router_option. destruct o as [at_ len]. calmly; [unfold prefix_option; dev_cases|unfold dns_option; dev_cases|by apply mtu_option_ok].
Qed.
Lemma each_calm {A} (f : A -> N unit) l : (forall a, calms n (f a)) -> calms n (each f l).
Proof. intros Hf. induction l as [|a l IH]; cbn [each]; calmly. Qed.
Lemma router_input_calm id src p mac : calms n (router_input id src p mac).
Proof.
  unfold router_input. calmly; [unfold router_lifetime; dev_cases|]. apply each_calm, router_option_calm.
Qed.
Lemma nd_input_calm id src dst p hop mac : in_range n id -> calms n (net_nd_input id src dst p hop mac).
Proof. intros Hid. pose proof router_input_calm. unfold net_nd_input. calmly. own_id. auto with net. Qed.

(** * ICMP *)
Lemma smaller_quiet family p original x y : smaller_path family p original x = Some y -> core y = core x /\ s_local y = s_local x /\ (tunable x -> tunable y).
Proof.
  unfold smaller_path. set (m := if _ && _ then _ else _). destruct (_ || _) eqn:Hb; [discriminate|]. reflect_bools.
  intros [= <-]. destruct (_ <? s_mss x) eqn:Hm; [|done]. reflect_bools. split_and!; try reflexivity. intros [Q1 Q2]. split; [cbn|exact Q2].
  destruct (family =? 4); lia.
Qed.
Lemma icmp_socket_moves id family p q source peer proto h original i : moves n (icmp_socket id family p q source peer proto h original i).
Proof.
  intros s Hs. apply (ends_reach n any). unfold icmp_socket. apply ends_get. cbv zeta.
  apply ends_if; intros Hq; [by apply ends_ret|]. unfold quoted_socket in Hq. reflect_bools.
  apply ends_if; intros Ht; [|apply ends_if; intros _; [|by apply ends_ret]].
  - reflect_bools. assert (Hl : live n s i) by (by split_and!). apply ends_if; intros _; [by apply ends_ret|].
    apply ends_if; intros _.
    + destruct (smaller_path _ _ _ _) as [y|] eqn:Hy; [|by apply ends_ret]. apply smaller_quiet in Hy as (Q1 & Q2 & Q3).
      apply ends_put_then; [exact Hs|apply conn_quiet; [exact Q1|exact Q3|unfold placed_at; by rewrite Q2]|]. intros s1 Hs1 _ _. by apply ends_ret.
    + apply (ends_bind n any); [|intros s1 _ Hs1 _ _; by apply ends_ret]. apply ends_if; intros _; [by split; [apply live_error|]|by apply ends_ret].
  - apply ends_put_then; [exact Hs|by apply conn_quiet|]. intros s1 Hs1 _ _. by apply ends_ret.
Qed.
Lemma first_socket_moves k : forall i f, (forall j, moves n (f j)) -> moves n (first_socket k i f).
Proof. induction k as [|k IH]; intros i f Hf; cbn [first_socket]; [moving|]. apply moves_bind; [apply Hf|]. intros []; [moving|by apply IH]. Qed.
Lemma icmp_failure_moves id family dst p : moves n (net_icmp_failure id family dst p).
Proof.
  unfold net_icmp_failure. apply moves_get. intros s Hs. apply moves_if; [moving|]. cbv zeta.
  destruct (quoted family (drop 8 p)) as [[[[[source peer] proto] h] original]|]; [|moving].
  apply moves_if; [moving|]. apply first_socket_moves. intros j. apply icmp_socket_moves.
Qed.
Lemma udp_unreachable_calm id family src dst p : in_range n id -> calms n (net_udp_unreachable id family src dst p).
Proof. intros Hid. unfold net_udp_unreachable. calmly. own_id. auto with net. Qed.
Lemma icmp_input_moves id family src dst p hop mac : in_range n id -> moves n (net_icmp_input id family src dst p hop mac).
Proof.
  intros Hid. pose proof icmp_failure_moves. unfold net_icmp_input. cbv zeta. apply moves_if; [moving|]. apply moves_if; [by apply calms_moves, nd_input_calm|].
  apply moves_bind; [auto|]. intros _. apply moves_get. intros s Hs. apply moves_bind; [moving|]. intros allowed.
  apply calms_moves. own_id. calmly.
Qed.

(** * UDP *)
Lemma udp_input_moves id family src dst p : in_range n id -> moves n (net_udp_input id family src dst p).
Proof.
  intros Hid s Hs. apply (ends_reach n any). unfold net_udp_input. apply ends_get. cbv zeta.
  apply ends_if; intros _; [apply ends_moves; [moving|exact Hs]|]. apply ends_if; intros _; [apply ends_moves; [moving|exact Hs]|].
  apply ends_if; intros _; [apply ends_moves; [moving|exact Hs]|].
  destruct (find_range _ _ _) as [i|] eqn:Hf.
  - apply find_range_Some in Hf as (_ & Hf & _). unfold udp_socket in Hf. reflect_bools.
    apply ends_if; intros Hq; [apply ends_moves; [moving|exact Hs]|]. reflect_bools. split; [|done]. apply reach_put; [exact Hs|].
    apply conn_once, cs_datagram; [assumption|]. pose proof (so_datagrams _ (nk_socks n s Hs i)). lia.
  - apply ends_moves; [|exact Hs]. pose proof (udp_unreachable_calm id family src dst). apply calms_moves. calmly.
Qed.

(** * Delivery, reassembly, headers, frames *)
Lemma deliver_moves id family src dst proto p hop mac : in_range n id -> moves n (net_ip_deliver id family src dst proto p hop mac).
Proof.
  intros Hid. unfold net_ip_deliver. apply moves_if; [by apply icmp_input_moves|]. apply moves_if; [by apply udp_input_moves|].
  apply moves_if; [apply tcp_input_moves, Hid|moving].
Qed.
Lemma put_fragment_calm i f : calms n (put_fragment i f).
Proof. unfold put_fragment. calmly. Qed.
#[local] Hint Resolve put_fragment_calm : net.
Lemma reassemble_moves id family src dst proto fid offset more p hop mac : in_range n id -> moves n (net_reassemble id family src dst proto fid offset more p hop mac).
Proof.
  intros Hid. pose proof (fun p => deliver_moves id family src dst proto p hop mac Hid). unfold net_reassemble. cbv zeta.
  apply moves_if; [moving|]. apply moves_get. intros s Hs. destruct (fold_range _ _ _ _) as [[t f] free].
  apply moves_bind; [moving|]. intros _. apply moves_if; [moving|]. destruct (add_fragment _ _ _ _); [|moving].
  apply moves_bind; [moving|]. intros _. apply moves_if; [|moving]. apply moves_bind; [auto|]. moving.
Qed.
Lemma ip4_input_moves id p mac : in_range n id -> moves n (ip4_input id p mac).
Proof.
  intros Hid. unfold ip4_input. apply moves_get. intros s Hs. cbv zeta. do 6 (apply moves_if; [moving|]).
  apply moves_if; [by apply reassemble_moves|by apply deliver_moves].
Qed.
Lemma ip6_fragment_moves id p mac at_ remaining : in_range n id -> moves n (ip6_fragment id p mac at_ remaining).
Proof.
  intros Hid. unfold ip6_fragment. cbv zeta. do 2 (apply moves_if; [moving|]). apply moves_if; [by apply reassemble_moves|by apply deliver_moves].
Qed.
Lemma ip6_headers_moves id p mac : in_range n id -> forall k proto at_ remaining, moves n (ip6_headers k id p mac proto at_ remaining).
Proof.
  intros Hid k. induction k as [|k IH]; intros proto at_ remaining; cbn [ip6_headers]; [moving|].
  apply moves_if; [by apply ip6_fragment_moves|]. apply moves_if; [by apply deliver_moves|]. apply moves_if; [moving|]. cbv zeta.
  apply moves_if; [moving|]. apply moves_if; (apply moves_if; [moving|apply IH]).
Qed.
Lemma ip6_input_moves id p mac : in_range n id -> moves n (ip6_input id p mac).
Proof.
  intros Hid. unfold ip6_input. apply moves_get. intros s Hs. cbv zeta. do 2 (apply moves_if; [moving|]). by apply ip6_headers_moves.
Qed.
Lemma capture_ok f : forall i d, dev_ok i d -> dev_ok i (capture f d).
Proof.
  intros i d [G1 G2 G3 G4]. unfold capture. cbv zeta. destruct (_ =? 0); [by split|]. destruct (_ <? 8) eqn:Hc; reflect_bools; [|by split].
  split; cbn in *; try assumption. rewrite length_app. cbn. lia.
Qed.
Lemma receive_frame_moves f : frame_ok n f -> moves n (net_receive_frame f).
Proof.
  intros [Hid _]. unfold net_receive_frame. cbv zeta. apply moves_bind; [apply calms_moves, calms_dev, capture_ok|]. intros _.
  apply moves_get. intros s Hs. do 2 (apply moves_if; [moving|]). apply moves_if; [by apply calms_moves, arp_input_calm|].
  apply moves_if; [by apply ip4_input_moves|]. apply moves_if; [by apply ip6_input_moves|moving].
Qed.
End Handle.
