(* ===== verification/NetCalls.v ===== *)
(** Every socket call, raw frame, ping turn and configuration, and every round
    of the worker, keeps the invariant of the stack and moves the sockets by
    steps of the TCP machine. *)
From S2P Require Import Prelude Klib Pmm Path State NetSum NetAddr Net Tcp NetInput NetSock TcpStream TcpMachine NetSafe NetOutput TcpSteps TcpInput NetHandle.

Section Calls.
Context {D : Type} `{Nics D}.
Context (n : Z).
#[local] Open Scope net_scope.
#[local] Abbreviation N := (@N D).
#[local] Abbreviation calms := (@calms D).
#[local] Abbreviation moves := (@moves D).
#[local] Hint Resolve tcp_packet_calm socks_placed tcp_ack_calm tcp_pump_moves : net.
#[local] Hint Resolve range_nonneg : net.
Implicit Types (s : net D) (x : net_socket) (d : net_device).

(** * Routes lead to attached adapters *)
Lemma route_range s to bound id source : net_ok n s -> net_route s to bound = inr (id, source) -> in_range n id.
Proof.
  intros Hs. unfold net_route. destruct (_ && _); [discriminate|]. rewrite (nk_count n s Hs).
  destruct (Z.le_gt_cases 0 n) as [Hn|Hn].
  - assert (Hstep : forall pref i fb, 0 <= i < n -> fb < n -> match route_step s to pref i fb with Next fb' => fb' < n | Exit r => in_range n (fst r) end).
    { intros pref i fb Hi Hfb. unfold route_step. destruct (_ && _); [exact Hfb|]. destruct (_ || _); [exact Hfb|].
      destruct (route_device _ _ _ _) as [[[[|] ?] [|]]|]; cbn; unfold in_range; lia. }
    match goal with |- context [route_step s to ?p] => set (pref := p) end.
    pose proof (for_range_inv (fun _ fb => fb < n) (fun r => in_range n (fst r)) (route_step s to pref) 0 n (-1) Hn ltac:(cbn; lia) (Hstep pref)) as Hinv.
    destruct (for_range 0 n _ (-1)) as [fb|[i src]]; [|intros [= <- _]; exact Hinv].
    destruct (0 <=? fb) eqn:Hz; [|discriminate]. reflect_bools. intros [= <- _]. unfold in_range. lia.
  - rewrite for_range_nil by lia. discriminate.
Qed.
Lemma udp_output_calm privileged i bytes to : calms n (net_udp_output privileged i bytes to).
Proof.
  unfold net_udp_output. apply calms_get. intros s Hs. cbv zeta. destruct (net_route s to _) as [e|[id source]] eqn:Hr; [calmly|].
  apply route_range in Hr; [|exact Hs]. calmly.
Qed.

(** * Sockets *)
Lemma owned_used s me h i : net_socket_owned s me h = Some i -> s_used (sock s i) = true /\ s_detached (sock s i) = false /\ s_id (sock s i) = h /\ s_owner (sock s i) = me.
Proof. unfold net_socket_owned. intros Hf. apply find_range_Some in Hf as (_ & Hf & _). reflect_bools. by split_and!. Qed.
Lemma owned_moves me h f s : net_ok n s -> (forall i, s_used (sock s i) = true -> s_detached (sock s i) = false -> reach n s (fst (f i s))) -> reach n s (fst (owned me h f s)).
Proof.
  intros Hs Hf. unfold owned, bind, get. cbn. destruct (net_socket_owned s me h) as [i|] eqn:Ho; [|by apply reach_refl].
  apply owned_used in Ho as (Hu & Hd & _). by apply Hf.
Qed.
(** The port changes where the machine does not look. *)
Definition port_only i s s' : Prop := reach n s s' /\ nt_now s' = nt_now s /\ core (sock s' i) = core (sock s i).
Lemma set_port_only i port s s1 : net_ok n s -> port_only i s s1 -> port_only i s (set_port i port s1).
Proof.
  intros Hs (Hr & Hn & Hc). pose proof (proj1 Hr) as Hs1.
  assert (Hq : reach n s1 (set_port i port s1)).
  { apply (reach_put n i (fun x => x <| s_local ::= (fun a => a <| na_port := port |>) |>)); [exact Hs1|]. by apply conn_quiet. }
  unfold port_only. split_and!; [exact (reach_trans n _ _ _ Hr Hq)|exact Hn|]. rewrite <- Hc. unfold sock, set_port. cbn. by rewrite tmod_eq.
Qed.
Lemma ephemeral_only i v s s1 : net_ok n s -> port_only i s s1 -> port_only i s (s1 <| nt_ephemeral := v |>).
Proof.
  intros Hs (Hr & Hn & Hc). unfold port_only. split_and!; [|exact Hn|exact Hc].
  apply (reach_trans n _ _ _ Hr). apply calm_reach, calm_same; [by split_and!|exact (proj1 Hr)].
Qed.
Lemma autobind_ends i s : net_ok n s -> ends n (fun s' _ => core (sock s' i) = core (sock s i)) s (net_autobind i s).
Proof.
  intros Hs. unfold net_autobind. apply ends_get. apply ends_if; intros _; [by apply ends_ret|].
  apply random_ends; [exact Hs|]. intros s1 r Hs1 He _. cbv beta.
  set (s2 := s1 <| nt_ephemeral := 49152 + Z.land r 16383 |>).
  assert (Hp : port_only i s1 s2) by (apply ephemeral_only; [exact Hs1|]; unfold port_only; split_and!; try reflexivity; by apply reach_refl).
  assert (Hx : sock s1 i = sock s i) by (unfold sock; by rewrite He).
  pose proof (for_range_pres (port_only i s1) (port_only i s1) (autobind_step i) 0 16384 s2 Hp) as Hinv.
  assert (Hstep : forall j t, port_only i s1 t -> match autobind_step i j t with Next t' => port_only i s1 t' | Exit r => port_only i s1 r end).
  { intros j t Ht. unfold autobind_step. cbv zeta. destruct (net_port_busy _ _ _); by apply ephemeral_only, set_port_only. }
  specialize (Hinv Hstep). generalize dependent (for_range 0 16384 (autobind_step i) s2). intros [s3|s3] Hinv.
  - destruct (set_port_only i 0 s1 s3 Hs1 Hinv) as (Hr & _ & Hc). split; cbn; [exact Hr|by rewrite Hc, Hx].
  - destruct Hinv as (Hr & _ & Hc). split; cbn; [exact Hr|by rewrite Hc, Hx].
Qed.
Lemma net_socket_moves me family type : moves n (k_net_socket me family type).
Proof.
  unfold k_net_socket. destruct (_ || _) eqn:Hok; [moving|]. apply moves_bind; [|intros new; moving].
  intros s Hs. refine (ends_reach n _ _ _ (socket_new_ends n family type me s _ Hs)).
  apply orb_false_elim in Hok as [_ Hok]. destruct (Z.eqb_spec type K_SOCK_UDP), (Z.eqb_spec type K_SOCK_TCP); auto; discriminate.
Qed.
Lemma bind_moves me privileged handle a : 0 <= na_interface a -> moves n (k_net_bind me privileged handle a).
Proof.
  intros Ha s Hs. apply (ends_reach n any). unfold k_net_bind. apply ends_get. apply ends_if; intros _; [by apply ends_ret|].
  split; [|done]. apply owned_moves; [exact Hs|]. intros i Hu _. apply (ends_reach n any). cbv zeta.
  apply ends_if; intros Hst; [by apply ends_ret|]. do 3 (apply ends_if; intros _; [by apply ends_ret|]).
  assert (He : s_state (sock s i) = NS_NEW) by (reflect_bools; destruct (s_state (sock s i)); try discriminate; done).
  apply ends_put_then; [exact Hs|by apply conn_quiet|]. intros s1 Hs1 _ Hx1. specialize (Hx1 i). rewrite decide_True in Hx1 by done.
  eapply ends_bind; [by apply autobind_ends|]. intros s2 e Hs2 _ Hc2. rewrite Hx1 in Hc2. apply core_fields in Hc2 as (U2 & _ & S2 & _).
  apply (ends_bind n any); [|intros s3 _ Hs3 _ _; by apply ends_ret]. apply ends_if; intros _; [|by apply ends_ret].
  split; [|done]. apply reach_put; [exact Hs2|]. apply conn_once, cs_bind; [rewrite U2; exact Hu|rewrite S2; exact He].
Qed.
(** Two changes of one socket in a row are one change. *)
Lemma tmod_tmod {A} `{Inhabited A} i (f g : A -> A) (t : table A) : tmod i g (tmod i f t) = tmod i (fun a => g (f a)) t.
Proof. unfold tmod. rewrite lookup_total_insert_eq. apply insert_insert_eq. Qed.
Lemma put_put {B} i f g (k : unit -> N B) s : bind (put_sock i f) (fun _ => bind (put_sock i g) k) s = bind (put_sock i (fun x => g (f x))) k s.
Proof. unfold bind, put_sock. f_equal. cbn. unfold modify. cbn. by rewrite tmod_tmod. Qed.
Lemma put_random_put {B} i f g (k : unit -> N B) s :
  bind (put_sock i f) (fun _ => bind net_random (fun v => bind (put_sock i (g v)) k)) s = bind net_random (fun v => bind (put_sock i (fun x => g v (f x))) k) s.
Proof. unfold bind, put_sock, net_random. unfold modify. cbn -[hash_value u64 tmod]. unfold modify. cbn -[hash_value u64 tmod]. rewrite tmod_tmod. reflexivity. Qed.
Lemma start_connect_moves i peer s : net_ok n s -> s_used (sock s i) = true -> s_state (sock s i) = NS_NEW \/ s_state (sock s i) = NS_BOUND ->
  reach n s (fst (start_connect i peer s)).
Proof.
  intros Hs Hu Hst. apply (ends_reach n any). unfold start_connect. apply ends_get.
  destruct (net_route s peer _) as [e|[id source]] eqn:Hr; [by apply ends_ret|]. apply route_range in Hr; [|exact Hs].
  eapply ends_bind; [by apply autobind_ends|]. intros s1 e Hs1 _ Hc. apply ends_get. cbv zeta.
  apply core_fields in Hc as (U1 & T1 & S1 & _). rewrite Hu in U1. rewrite <- S1 in Hst.
  apply ends_if; intros _; [by apply ends_ret|]. apply ends_if; intros _; [by apply ends_ret|].
  destruct (s_type (sock s1 i) =? K_SOCK_UDP) eqn:Ht; reflect_bools.
  - rewrite put_put. apply ends_put_then; [exact Hs1| |intros s2 Hs2 _ _; by apply ends_ret].
    eapply conn_trans; [apply conn_once, (cs_udp_peer _ (peer <| na_interface := id |>)); [exact U1|unfold is_tcp; rewrite Ht; discriminate]|].
    apply conn_quiet; [done|done|]. intros _. apply Hr.
  - assert (Htcp : is_tcp (sock s1 i)) by (destruct (so_type _ (nk_socks n s1 Hs1 i) U1); congruence).
    rewrite (put_random_put i _ (fun iss x => x <| s_iss := iss |> <| s_snd_una := iss |> <| s_snd_nxt := u32 (iss + 1) |> <| s_state := NS_SYN_SENT |> <| s_sent_at := 0 |>)).
    apply random_ends; [exact Hs1|]. intros s2 iss Hs2 He2 Hiss. assert (Hx2 : sock s2 i = sock s1 i) by (unfold sock; by rewrite He2).
    apply ends_put_then; [exact Hs2| |].
    + rewrite Hx2. eapply conn_trans; [apply conn_once, (cs_connect _ iss (peer <| na_interface := id |>)); [exact U1|exact Htcp|exact Hst]|].
      apply conn_quiet; [|done|intros _; apply Hr]. unfold core. cbn. by rewrite (u32_small iss) by exact Hiss.
    + intros s3 Hs3 _ _. apply (ends_bind n any); [apply ends_moves; [apply tcp_pump_moves|exact Hs3]|]. intros s4 _ Hs4 _ _. by apply ends_ret.
Qed.
Lemma fresh_states x : is_ns (s_state x) [NS_NEW; NS_BOUND] = true -> s_state x = NS_NEW \/ s_state x = NS_BOUND.
Proof. destruct (s_state x); intros Hx; first [by left | by right | discriminate]. Qed.
Lemma connect_moves me h peer timeout : moves n (k_net_connect me h peer timeout).
Proof.
  intros s Hs. apply (ends_reach n any). unfold k_net_connect. apply ends_get. apply ends_if; intros _; [by apply ends_ret|].
  split; [|done]. apply owned_moves; [exact Hs|]. intros i Hu _. apply (ends_reach n any). apply ends_get. cbv zeta.
  apply ends_if; intros _; [by apply ends_ret|]. apply (ends_bind n any).
  - apply ends_if; intros Hst; [|by apply ends_ret]. split; [|done]. apply start_connect_moves; [exact Hs|exact Hu|by apply fresh_states].
  - intros s1 e Hs1 _ _. apply ends_get. by apply ends_ret.
Qed.
Lemma listen_moves me h backlog : moves n (k_net_listen me h backlog).
Proof.
  intros s Hs. unfold k_net_listen. destruct (_ || _); [by apply reach_refl|]. apply owned_moves; [exact Hs|]. intros i Hu _.
  apply (ends_reach n any). apply ends_get. cbv zeta. apply ends_if; intros Hst; [by apply ends_ret|].
  apply orb_false_elim in Hst as [Ht%negb_false_iff Hst%negb_false_iff]. apply Z.eqb_eq in Ht.
  eapply ends_bind; [by apply autobind_ends|]. intros s1 e Hs1 _ Hc. apply core_fields in Hc as (U1 & T1 & S1 & _).
  apply (ends_bind n any); [|intros s2 _ Hs2 _ _; by apply ends_ret]. apply ends_if; intros _; [|by apply ends_ret].
  split; [|done]. apply reach_put; [exact Hs1|]. eapply conn_trans; [apply conn_once, cs_listen|by apply conn_quiet].
  - by rewrite U1.
  - unfold is_tcp. by rewrite T1.
  - rewrite S1. by apply fresh_states.
Qed.
Lemma accept_moves me h : moves n (k_net_accept me h).
Proof.
  intros s Hs. unfold k_net_accept. destruct (net_socket_owned s me h) as [i|]; [|by apply reach_refl].
  destruct (negb _); [by apply reach_refl|].
  pose proof (for_range_pres (reach n s) (fun r => reach n s (fst r)) (accept_step (s_id (sock s i))) 0 K_NET_MAX_SOCKETS s (reach_refl n s Hs)) as Hinv.
  assert (Hstep : forall j t, reach n s t -> match accept_step (s_id (sock s i)) j t with Next t' => reach n s t' | Exit r => reach n s (fst r) end).
  { intros j t Ht. pose proof (proj1 Ht) as Hst. unfold accept_step. destruct (_ || _); [exact Ht|].
    destruct (is_ns _ [NS_ERROR]); [|destruct (negb _); [exact Ht|]]; apply (reach_trans n _ _ _ Ht).
    - apply (reach_put n j (fun x => x <| s_used := false |>)); [exact Hst|]. apply conn_once, cs_drop.
    - apply (reach_put n j (fun x => x <| s_parent := 0 |>)); [exact Hst|]. by apply conn_quiet. }
  specialize (Hinv Hstep). destruct (for_range _ _ _ s) as [t|[t r]]; exact Hinv.
Qed.
Lemma send_moves me privileged h bytes to : moves n (k_net_send me privileged h bytes to).
Proof.
  intros s Hs. apply (ends_reach n any). unfold k_net_send. apply ends_get. apply ends_if; intros _; [by apply ends_ret|].
  split; [|done]. apply owned_moves; [exact Hs|]. intros i Hu _. apply (ends_reach n any). cbv zeta.
  apply ends_if; intros _; [by apply ends_ret|]. apply ends_if; intros Ht.
  - apply ends_if; intros _; [by apply ends_ret|]. eapply ends_bind; [by apply autobind_ends|]. intros s1 e Hs1 _ Hc. apply core_fields in Hc as (U1 & _).
    apply ends_if; intros _; [by apply ends_ret|]. apply ends_put_then; [exact Hs1| |].
    + destruct (is_ns _ [NS_NEW]) eqn:Hst; [|apply conn_refl]. apply conn_once, cs_bind; [by rewrite U1|]. destruct (s_state (sock s1 i)); try discriminate; done.
    + intros s2 Hs2 _ _. apply ends_moves; [|exact Hs2]. pose proof (udp_output_calm privileged i bytes (default (s_peer (sock s i)) to)). moving.
  - apply ends_if; intros Hst; [by apply ends_ret|]. apply ends_if; intros _; [by apply ends_ret|]. reflect_bools.
    assert (Htcp : is_tcp (sock s i)) by (destruct (so_type _ (nk_socks n s Hs i) Hu); [done|congruence]).
    apply ends_put_then; [exact Hs| |].
    + apply conn_once, cs_queue; [exact Hu|exact Htcp| |assumption|].
      * by apply data_states.
      * pose proof (to_tx _ (sock_tcp n s i Hs Hu Htcp)). pose proof (zlen_nonneg bytes). unfold tx_count, zlen in *. rewrite length_take. lia.
    + intros s1 Hs1 _ _. apply ends_moves; [|exact Hs1]. moving.
Qed.
Lemma receive_moves me h k : 0 <= k -> moves n (k_net_receive me h k).
Proof.
  intros Hk s Hs. apply (ends_reach n any). unfold k_net_receive. apply ends_if; intros _; [by apply ends_ret|]. apply ends_get.
  destruct (net_socket_owned s me h) as [i|] eqn:Ho; [|by apply ends_ret]. apply owned_used in Ho as (Hu & _). cbv zeta.
  apply ends_if; intros Ht.
  - destruct (s_datagrams (sock s i)) as [|q rest] eqn:Hq.
    + apply ends_put_then; [exact Hs|by apply conn_quiet|]. intros s1 Hs1 _ _. by apply ends_ret.
    + apply ends_if; intros _; [by apply ends_ret|]. apply ends_put_then; [exact Hs| |intros s1 Hs1 _ _; by apply ends_ret].
      pose proof (cs_undatagram (sock s i)) as Hc. eapply conn_trans; [apply conn_once, Hc|]. apply conn_quiet; [|done|done]. unfold core. cbn. by rewrite Hq.
  - apply ends_if; intros _; [by apply ends_ret|]. apply ends_if; intros Hc; [|by apply ends_ret]. reflect_bools.
    assert (Htcp : is_tcp (sock s i)) by (destruct (so_type _ (nk_socks n s Hs i) Hu); [done|congruence]).
    pose proof (to_count _ (sock_tcp n s i Hs Hu Htcp)). apply ends_put_then; [exact Hs|apply conn_once, cs_read; [exact Hu|lia]|].
    intros s1 Hs1 _ _. apply ends_moves; [|exact Hs1]. pose proof (tcp_ack_calm n i). moving.
Qed.
Lemma close_child_moves l i : moves n (close_child l i).
Proof. unfold close_child. apply moves_get. intros s Hs. cbv zeta. apply moves_if; [|moving]. apply moves_bind; [|intros _; apply moves_drop]. by apply calms_moves, tcp_packet_calm, (socks_placed n). Qed.
Lemma n_loop_moves k f : (forall i, moves n (f i)) -> forall i, moves n (n_loop k i f).
Proof. intros Hf. induction k as [|k IH]; intros i; cbn [n_loop]; [moving|]. apply moves_bind; [apply Hf|]. intros _. apply IH. Qed.
Lemma n_for_moves lo hi f : (forall i, moves n (f i)) -> moves n (n_for lo hi f).
Proof. intros Hf. apply n_loop_moves, Hf. Qed.
Lemma close_internal_moves i s : net_ok n s -> s_used (sock s i) = true -> s_detached (sock s i) = false -> reach n s (fst (net_close_internal i s)).
Proof.
  intros Hs Hu Hd. apply (ends_reach n any). unfold net_close_internal. apply ends_get. cbv zeta.
  assert (Hdrop : moves n (drop_socket i)) by apply moves_drop.
  apply ends_if; intros Hearly; [by apply ends_moves|].
  apply ends_if; intros Hlis.
  { apply ends_moves; [|exact Hs]. apply moves_bind; [apply n_for_moves; intros j; apply close_child_moves|]. intros _. exact Hdrop. }
  apply ends_if; intros Hsyn.
  { apply ends_calm; [by apply tcp_packet_calm, (socks_placed n)|exact Hs|]. intros s1 _ Hs1 _ _. by apply ends_moves. }
  apply orb_false_elim in Hearly as [Ht Hearly]. apply Z.eqb_neq in Ht.
  assert (Htcp : is_tcp (sock s i)) by (destruct (so_type _ (nk_socks n s Hs i) Hu); [done|congruence]).
  assert (Hst : s_state (sock s i) = NS_ESTABLISHED \/ s_state (sock s i) = NS_CLOSE_WAIT).
  { pose proof (to_closed _ (sock_tcp n s i Hs Hu Htcp)) as Hc. unfold in_states in Hc. rewrite Hd in Hc.
    destruct (s_state (sock s i)); try discriminate; auto; specialize (Hc eq_refl); discriminate. }
  apply ends_put_then; [exact Hs|by apply conn_once, cs_close|]. intros s1 Hs1 _ _. apply ends_moves; [apply tcp_pump_moves|exact Hs1].
Qed.
Lemma close_moves me h : moves n (k_net_close me h).
Proof.
  intros s Hs. apply owned_moves; [exact Hs|]. intros i Hu Hd. apply (ends_reach n any). apply (ends_bind n any); [|intros s1 _ Hs1 _ _; by apply ends_ret].
  split; [by apply close_internal_moves|done].
Qed.

(** * Raw frames, pings, configuration *)
Ltac dev_cases := repeat match goal with |- context [if ?b then _ else _] => destruct b end; match goal with Hd : dev_ok _ _ |- _ => destruct Hd; by split end.
Lemma raw_send_calm privileged id bytes : 0 <= id -> calms n (k_net_raw_send privileged id bytes).
Proof.
  intros Hid. unfold k_net_raw_send. apply calms_if; [calmly|]. apply calms_if; [calmly|]. apply calms_get. intros s Hs. rewrite (nk_count n s Hs).
  destruct (n <=? id) eqn:Hle; reflect_bools; [calmly|]. apply calms_if; [calmly|]. apply transmit_calm. by split.
Qed.
Lemma raw_receive_calm me privileged id wanted : 0 <= id -> calms n (k_net_raw_receive me privileged id wanted).
Proof.
  intros Hid. unfold k_net_raw_receive. apply calms_if; [calmly|]. apply calms_get. intros s Hs. cbv zeta. rewrite (nk_count n s Hs).
  destruct (n <=? id) eqn:Hle; reflect_bools; [calmly|]. pose proof (nk_devices n s Hs id (conj Hid Hle)) as [_ _ _ Hcap].
  apply calms_if; [calmly|]. apply calms_if; [calmly; match goal with Hd : dev_ok _ _ |- _ => destruct Hd; split; try assumption end; cbn; lia|].
  apply calms_bind; [calmly|]. intros _. destruct (nd_capture (dev s id)) as [|f rest]; [calmly|]. cbn [length] in Hcap.
  calmly. match goal with Hd : dev_ok _ _ |- _ => destruct Hd; split; try assumption end. cbn. lia.
Qed.
Lemma ping_start_calm me to timeout : calms n (ping_start me to timeout).
Proof. unfold ping_start. calmly. Qed.
Lemma ping_turn_calm to slot id source start timeout sent canceled : 0 <= id -> calms n (ping_turn to slot id source start timeout sent canceled).
Proof. intros Hid. unfold ping_turn. calmly. Qed.
Lemma configure_moves privileged c : moves n (k_net_configure privileged c).
Proof.
  unfold k_net_configure. apply moves_get. intros s Hs. cbv zeta. do 4 (apply moves_if; [moving|]).
  apply moves_bind; [moving|]. intros _. apply moves_bind; [|intros _; moving]. apply moves_if.
  - apply moves_bind; [apply calms_moves, calms_dev|].
    { intros i d [G1 G2 G3 G4]. unfold reconfigured. split; try assumption. cbn. destruct (bool_decide (nd_kind d = NIC_EXTERNAL)) eqn:He; [|lia].
      apply bool_decide_eq_true in He. exact (G3 He). }
    intros _. apply moves_bind; [moving|]. intros _. apply n_for_moves. intros i s1 Hs1. apply (ends_reach n any). apply ends_get. cbv zeta.
    apply ends_if; intros Hu; [|by apply ends_ret]. reflect_bools. split; [|done]. apply live_error. by split_and!.
  - apply moves_if; [|moving]. apply calms_moves. calmly. dev_cases.
Qed.

(** * The worker *)
Lemma n_loop_range (P : Z -> Prop) (f : Z -> N unit) k : (forall i, P i -> moves n (f i)) -> forall i, (forall j, i <= j < i + Z.of_nat k -> P j) -> moves n (n_loop k i f).
Proof.
  intros Hf. induction k as [|k IH]; intros i Hi; cbn [n_loop]; [moving|].
  apply moves_bind; [apply Hf, Hi; lia|]. intros _. apply IH. intros j Hj. apply Hi. lia.
Qed.
Lemma poll_device_calm now id : in_range n id -> calms n (poll_device now id).
Proof.
  intros Hid. unfold poll_device. apply calms_bind; [apply calms_dev; intros i d Hd; unfold expire_device; cbv zeta; dev_cases|]. intros _.
  unfold dad_ipv4, dad_link, dad_global, router_solicitation. calmly.
Qed.
Lemma poll_socket_moves gone gc now i : moves n (poll_socket gone gc now i).
Proof.
  intros s Hs. apply (ends_reach n any). unfold poll_socket. apply ends_get. cbv zeta. apply ends_if; intros Hu; [by apply ends_ret|]. reflect_bools.
  apply ends_if; intros Hgc; [|apply ends_if; intros _; apply ends_moves; auto using moves_drop, tcp_pump_moves].
  reflect_bools. split; [by apply close_internal_moves|done].
Qed.
Lemma poll_moves gone now : moves n (net_poll_protocols gone now).
Proof.
  unfold net_poll_protocols. apply moves_get. intros s Hs. rewrite (nk_count n s Hs). apply moves_bind.
  { unfold n_for. apply (n_loop_range (in_range n)); [intros i Hi; by apply calms_moves, poll_device_calm|]. unfold in_range. lia. }
  intros _. cbv zeta. apply moves_bind; [moving|]. intros _. apply moves_bind; [apply n_for_moves; intros i; apply poll_socket_moves|]. intros _.
  apply moves_if; [|moving]. apply n_for_moves. intros i. apply calms_moves. calmly.
  destruct (_ && _); match goal with Hd : dev_ok _ _ |- _ => destruct Hd; split; try assumption end. cbn. lia.
Qed.
Lemma take_frame_calm f rest s : net_ok n s -> nt_queue s = f :: rest -> frame_ok n f /\ reach n s (s <| nt_queue := rest |>).
Proof.
  intros [G1 G2 G3 G4 G5 G6 G7 G8] Hq. unfold net_queued in G3. rewrite Hq in G3, G4. inversion_clear G4 as [|? ? Hf Hr]. split; [exact Hf|].
  apply calm_reach. unfold calm. split_and!; try reflexivity. split; try assumption. unfold net_queued. cbn in *. lia.
Qed.
Lemma receive_queue_moves budget : moves n (receive_queue budget).
Proof.
  induction budget as [|budget IH]; cbn [receive_queue]; [moving|]. intros s Hs. apply (ends_reach n any). apply ends_get.
  destruct (nt_queue s) as [|f rest] eqn:Hq; [by apply ends_ret|]. destruct (take_frame_calm f rest s Hs Hq) as [Hf Hr].
  apply (ends_bind n any); [by split|]. intros s1 _ Hs1 _ _. apply ends_moves; [|exact Hs1]. pose proof (receive_frame_moves n f Hf). moving.
Qed.
Lemma round_moves gone : moves n (net_round gone).
Proof.
  unfold net_round. apply moves_bind; [apply receive_queue_moves|]. intros _. apply moves_get. intros s Hs. apply poll_moves.
Qed.
End Calls.
