(* ===== verification/NetStack.v ===== *)
(** The network stack as a whole: its boot state, the operations that the rest
    of the kernel performs on it, what holds in every state they lead to, and
    the steps that each lets a connection take. *)
From S2P Require Import Prelude Klib Pmm Path State NetSum NetAddr Net Tcp NetInput NetSock TcpStream TcpMachine NetSafe NetOutput TcpSteps TcpInput NetHandle NetCalls.

(** The loopback adapter, and the state before the other adapters are found. *)
Definition loopback : net_device :=
  device0 <| nd_kind := NIC_LOOP |> <| nd_id := 0 |> <| nd_mtu := 1500 |> <| nd_flags := Z.lor (Z.lor (Z.lor K_NET_UP K_NET_LINK) K_NET_READY4) K_NET_READY6 |>
    <| nd_mac := [2; 0; 0; 0; 0; 1] |> <| nd_link_local6 := ONE6 |>
    <| nd_config := config0 <| cf_flags := K_NET_UP |> <| cf_address := [127; 0; 0; 1] |> <| cf_mask := [255; 0; 0; 0] |> <| cf_address6 := ONE6 |> <| cf_prefix6 := 128 |> |>.

Section Stack.
Context {D : Type} `{Nics D}.
Implicit Types (s : net D).

(** The stack with the adapters of a table attached to it. *)
Definition net_boot (hardware : D) (now ticks key0 key1 : Z) (devices : table net_device) (n : Z) : net D :=
  mk_net hardware now ticks (<[0 := loopback]> devices) n ∅ ∅ ∅ ∅ [] 1 49152 0 key0 key1 0 0.

(** What may happen: a socket call of task [me], a turn of a ping, a raw frame,
    a new configuration, a frame from an adapter, a round of the worker, and
    the passing of time. *)
Inductive net_op :=
  | Socket (me family type : Z)
  | Bind (me : Z) (privileged : bool) (h : Z) (a : k_net_address)
  | Connect (me h : Z) (peer : k_net_address) (timeout : Z)
  | Listen (me h backlog : Z)
  | Accept (me h : Z)
  | Send (me : Z) (privileged : bool) (h : Z) (bytes : list Z) (to : option k_net_address)
  | Receive (me h size : Z)
  | Close (me h : Z)
  | Raw_send (privileged : bool) (id : Z) (bytes : list Z)
  | Raw_receive (me : Z) (privileged : bool) (id : Z) (wanted : bool)
  | Ping (me : Z) (to : k_net_address) (timeout : Z)
  | Ping_turn (to : k_net_address) (slot id : Z) (source : list Z) (start timeout : Z) (sent canceled : bool)
  | Configure (privileged : bool) (c : k_net_config)
  | Frame (id : Z) (bytes : list Z)
  | Round (gone : Z -> bool)
  | Tick (now ticks : Z).
Definition state_after {A} (m : @N D A) s : net D := fst (m s).
Definition exec (o : net_op) (s : net D) : net D :=
  match o with
  | Socket me family type => state_after (k_net_socket me family type) s
  | Bind me privileged h a => state_after (k_net_bind me privileged h a) s
  | Connect me h peer timeout => state_after (k_net_connect me h peer timeout) s
  | Listen me h backlog => state_after (k_net_listen me h backlog) s
  | Accept me h => state_after (k_net_accept me h) s
  | Send me privileged h bytes to => state_after (k_net_send me privileged h bytes to) s
  | Receive me h size => state_after (k_net_receive me h size) s
  | Close me h => state_after (k_net_close me h) s
  | Raw_send privileged id bytes => state_after (k_net_raw_send privileged id bytes) s
  | Raw_receive me privileged id wanted => state_after (k_net_raw_receive me privileged id wanted) s
  | Ping me to timeout => state_after (ping_start me to timeout) s
  | Ping_turn to slot id source start timeout sent canceled => state_after (ping_turn to slot id source start timeout sent canceled) s
  | Configure privileged c => state_after (k_net_configure privileged c) s
  | Frame id bytes => state_after (net_enqueue id bytes) s
  | Round gone => state_after (net_round gone) s
  | Tick now ticks => s <| nt_now := now |> <| nt_ticks := ticks |>
  end.
(** The arguments are what their C types allow, and a driver hands in frames of its own adapter. *)
Definition op_ok (n : Z) (o : net_op) : Prop :=
  match o with
  | Bind _ _ _ a => 0 <= na_interface a
  | Receive _ _ size => 0 <= size
  | Raw_send _ id _ | Raw_receive _ _ id _ | Ping_turn _ _ id _ _ _ _ _ => 0 <= id
  | Frame id _ => in_range n id
  | _ => True
  end.
Definition run (ops : list net_op) (s : net D) : net D := fold_left (fun s o => exec o s) ops s.

(** * Every operation *)
Lemma exec_moves n o s : op_ok n o -> (forall now ticks, o <> Tick now ticks) -> net_ok n s -> reach n s (exec o s).
Proof.
  intros Ho Ht Hs. destruct o; cbn [exec op_ok] in *; unfold state_after.
  - by apply net_socket_moves.
  - by apply bind_moves.
  - by apply connect_moves.
  - by apply listen_moves.
  - by apply accept_moves.
  - by apply send_moves.
  - by apply receive_moves.
  - by apply close_moves.
  - by apply (calms_moves n), Hs; apply raw_send_calm.
  - by apply (calms_moves n), Hs; apply raw_receive_calm.
  - by apply (calms_moves n), Hs; apply ping_start_calm.
  - by apply (calms_moves n), Hs; apply ping_turn_calm.
  - by apply configure_moves.
  - by apply (calms_moves n), Hs; apply enqueue_calm.
  - by apply round_moves.
  - by destruct (Ht now ticks).
Qed.
Lemma exec_ok n o s : op_ok n o -> net_ok n s ->
  net_ok n (exec o s) /\ next_handle s <= next_handle (exec o s) /\ forall i, life (next_handle s) (sock s i) (sock (exec o s) i).
Proof.
  intros Ho Hs. assert (Hc : (exists now ticks, o = Tick now ticks) \/ (forall now ticks, o <> Tick now ticks)).
  { destruct o; first [by right | left; by eexists _, _]. }
  destruct Hc as [(now & ticks & ->)|Hn].
  - cbn [exec]. split_and!; [by destruct Hs; split|unfold next_handle; cbn; lia|]. intros i. apply life_refl.
  - destruct (exec_moves n o s Ho) as (H1 & _ & H2 & H3); [exact Hn|exact Hs|by split_and!].
Qed.
Lemma boot_net_ok hardware now ticks key0 key1 devices n : 0 < n -> (forall i, 0 < i < n -> dev_ok i (devices !!! i)) -> net_ok n (net_boot hardware now ticks key0 key1 devices n).
Proof.
  intros Hn Hd. split; cbn.
  - reflexivity.
  - intros i Hi. unfold dev. cbn. rewrite lookup_total_insert. destruct (decide (0 = i)) as [<-|]; [|apply Hd; unfold in_range in Hi; lia].
    split; cbn; first [lia | discriminate | reflexivity].
  - unfold net_queued, NET_RXQ. cbn. lia.
  - constructor.
  - intros i. unfold sock. cbn. rewrite lookup_total_empty. split; cbn; try discriminate; unfold placed_at, NET_DGRAMS; cbn; lia.
  - unfold is_u32. lia.
  - intros i. unfold sock. cbn. rewrite lookup_total_empty. discriminate.
  - intros i j. unfold sock. cbn. rewrite lookup_total_empty. discriminate.
Qed.
Lemma run_ok n ops : forall s, net_ok n s -> Forall (op_ok n) ops -> net_ok n (run ops s).
Proof.
  induction ops as [|o ops IH]; intros s Hs Hops; [exact Hs|]. inversion_clear Hops as [|? ? Ho Hrest].
  apply IH; [exact (proj1 (exec_ok n o s Ho Hs))|exact Hrest].
Qed.


End Stack.

(** * An example: a connection over the loopback adapter *)
#[export] Instance no_nics : Nics unit := {| nic_send := fun d _ _ => (d, 0) |}.
Definition demo_net : net unit := net_boot tt 1000 0 1 2 ∅ 1.
Definition demo_peer : k_net_address := mk_address 4 NET_NONE 80 0 ([127; 0; 0; 1] ++ replicate 12 0).
Definition demo_listen : list net_op :=
  [Socket 7 4 K_SOCK_TCP; Bind 7 true 1 (mk_address 4 NET_NONE 80 0 ZERO16); Listen 7 1 4; Socket 8 4 K_SOCK_TCP; Connect 8 2 demo_peer 1000].
Definition still_there (task : Z) : bool := false.
Definition demo_session : list net_op := demo_listen ++ [Round still_there; Round still_there; Accept 7 1; Send 8 false 2 [1; 2; 3] None; Round still_there].
Lemma demo_session_ok : Forall (op_ok 1) demo_session.
Proof. repeat constructor; cbn; unfold NET_NONE; lia. Qed.
Lemma no_other_device i : 0 < i < 1 -> dev_ok i ((∅ : table net_device) !!! i).
Proof. lia. Qed.
Lemma demo_listen_ok : Forall (op_ok 1) demo_listen.
Proof. repeat constructor; cbn; unfold NET_NONE; lia. Qed.
