(* ===== verification/NetEnds.v ===== *)
(** The loops and recursions of the network stack end: more fuel than the model
    gives them changes nothing. *)
From S2P Require Import Prelude Klib Pmm Path State NetSum NetAddr Net Tcp NetInput NetSock TcpStream TcpMachine NetSafe NetOutput TcpSteps TcpInput NetHandle NetCalls NetStack.

Section Ends.
Context {D : Type} `{Nics D}.
#[local] Open Scope net_scope.
#[local] Abbreviation N := (@N D).
Implicit Types (s : net D) (x : net_socket).

Lemma bind_ext {A B} (m m' : N A) (k k' : A -> N B) s : m s = m' s -> (forall a s, k a s = k' a s) -> bind m k s = bind m' k' s.
Proof. intros Hm Hk. unfold bind. rewrite Hm. destruct (m' s). apply Hk. Qed.
Lemma if_ext {A} (b : bool) (m1 m2 m1' m2' : N A) s : (b = true -> m1 s = m1' s) -> (b = false -> m2 s = m2' s) -> (if b then m1 else m2) s = (if b then m1' else m2') s.
Proof. destruct b; auto. Qed.

Lemma bind_get {A} (k : net D -> N A) s : bind get k s = k s s.
Proof. reflexivity. Qed.
Lemma bind_at {A B} (m : N A) (k : A -> N B) s : bind m k s = k (snd (m s)) (fst (m s)).
Proof. unfold bind. by destruct (m s). Qed.

(** * Sending and address resolution *)
Section Resolve.
Context (send send' : Z -> Z -> list Z -> list Z -> Z -> list Z -> Z -> N Z).
(** They agree on what goes to a multicast address. *)
Context (Hsame : forall id src dst proto bytes ttl s, byte dst 0 = 255 -> send id 6 src dst proto bytes ttl s = send' id 6 src dst proto bytes ttl s).
Lemma probe_ext id family i next s : probe send id family i next s = probe send' id family i next s.
Proof.
  unfold probe. apply bind_ext; [reflexivity|]. intros s1 s2. cbv zeta. apply bind_ext; [|reflexivity].
  apply if_ext; [reflexivity|]. intros _. unfold net_nd_solicit. apply bind_ext; [reflexivity|]. intros s3 s4. by apply Hsame.
Qed.
Lemma resolve_ext id family dst s : net_resolve_mac send id family dst s = net_resolve_mac send' id family dst s.
Proof.
  unfold net_resolve_mac. apply bind_ext; [reflexivity|]. intros s1 s2. cbv zeta. do 4 (apply if_ext; [reflexivity|intros _]).
  apply bind_ext; [reflexivity|]. intros [i|] s3; [|reflexivity]. apply bind_ext; [reflexivity|]. intros s4 s5. cbv zeta.
  apply if_ext; [reflexivity|intros _]. apply bind_ext; [reflexivity|]. intros _ s6. apply bind_ext; [reflexivity|]. intros s7 s8. cbv zeta.
  apply if_ext; [reflexivity|intros _]. apply bind_ext; [|reflexivity]. apply if_ext; [intros _; apply probe_ext|reflexivity].
Qed.
Lemma ip_send_ext id family src dst proto bytes ttl s : ip_send send id family src dst proto bytes ttl s = ip_send send' id family src dst proto bytes ttl s.
Proof.
  unfold ip_send. apply bind_ext; [reflexivity|]. intros s1 s2. cbv zeta. do 2 (apply if_ext; [reflexivity|intros _]).
  apply bind_ext; [apply resolve_ext|]. reflexivity.
Qed.
End Resolve.
(** A multicast address needs no resolution. *)
Lemma multicast_ext (send send' : Z -> Z -> list Z -> list Z -> Z -> list Z -> Z -> N Z) id src dst proto bytes ttl s :
  byte dst 0 = 255 -> ip_send send id 6 src dst proto bytes ttl s = ip_send send' id 6 src dst proto bytes ttl s.
Proof.
  intros Hm. unfold ip_send. apply bind_ext; [reflexivity|]. intros s1 s2. cbv zeta. do 2 (apply if_ext; [reflexivity|intros _]).
  apply bind_ext; [|reflexivity]. unfold net_resolve_mac. apply bind_ext; [reflexivity|]. intros s3 s4. cbv zeta.
  do 2 (apply if_ext; [reflexivity|intros _]). rewrite Hm. reflexivity.
Qed.
Lemma ip_send_stable k id family src dst proto bytes ttl s : ip_send_n (2 + k) id family src dst proto bytes ttl s = net_ip_send id family src dst proto bytes ttl s.
Proof. unfold net_ip_send. cbn [Nat.add ip_send_n]. apply ip_send_ext. intros. by apply multicast_ext. Qed.

(** * The pump *)
Definition FINISHING : list net_state := [NS_FIN_WAIT1; NS_CLOSING; NS_LAST_ACK].
Lemma error_result i e {A} (a : A) s : snd (bind (net_tcp_error i e) (fun _ => ret a) s) = a.
Proof. reflexivity. Qed.
Lemma resend_stops i now syn fin s : syn || fin = true -> snd (resend i now syn fin s) = true.
Proof.
  unfold resend, bind, get. cbv zeta beta. generalize (syn || fin). intros stop Hf. destruct (_ || _); [|exact Hf]. destruct (8 <=? _); [reflexivity|].
  match goal with |- context [net_tcp_packet ?x ?q ?f ?b s] => destruct (net_tcp_packet x q f b s) as [s1 e] end.
  destruct (e =? 0); [|destruct (negb _); [reflexivity|exact Hf]]. destruct (negb (s_sent_at (sock s i) =? 0)); exact Hf.
Qed.
Lemma bind_stop {A} (m : N bool) (k1 k2 : N A) (a : N A) s : snd (m s) = true -> bind m (fun stop => if stop then a else k1) s = bind m (fun stop => if stop then a else k2) s.
Proof. unfold bind. destruct (m s) as [s1 b]. cbn. by intros ->. Qed.
Lemma limit_state i s : s_state (sock (fst (limit_mss i s)) i) = s_state (sock s i).
Proof. unfold limit_mss, bind, get. cbv zeta beta. destruct (_ <? _); [|reflexivity]. by rewrite sock_put, decide_True. Qed.
Lemma pump_finishing (again again' : Z -> Z -> N unit) i now s : is_ns (s_state (sock s i)) FINISHING = true -> pump again i now s = pump again' i now s.
Proof.
  intros Hf. unfold pump. rewrite !bind_get. cbv zeta. do 5 (apply if_ext; [reflexivity|intros _]).
  rewrite !(bind_at (limit_mss i)). pose proof (limit_state i s) as Hst. destruct (limit_mss i s) as [s1 []]. cbn [fst snd] in *.
  rewrite !bind_get. cbv zeta. fold FINISHING. rewrite Hst, Hf, orb_true_r. cbn [orb]. apply bind_stop, resend_stops, orb_true_r.
Qed.
Lemma pump_ext (again again' : Z -> Z -> N unit) i now s :
  (forall s, is_ns (s_state (sock s i)) FINISHING = true -> again i now s = again' i now s) -> pump again i now s = pump again' i now s.
Proof.
  intros Ha. unfold pump. apply bind_ext; [reflexivity|]. intros s0 s1. cbv zeta. do 5 (apply if_ext; [reflexivity|intros _]).
  apply bind_ext; [reflexivity|]. intros _ s2. apply bind_ext; [reflexivity|]. intros s3 s4. cbv zeta.
  apply bind_ext; [reflexivity|]. intros stop s5. apply if_ext; [reflexivity|intros _]. unfold pump_data.
  apply bind_ext; [reflexivity|]. intros s6 s7. cbv zeta. apply if_ext; [reflexivity|intros _].
  apply bind_ext; [reflexivity|]. intros go s8. apply if_ext; [reflexivity|intros _]. apply bind_ext; [reflexivity|]. intros _ s9.
  rewrite !bind_get. apply if_ext; [intros _|reflexivity]. rewrite !(bind_at (put_sock i start_fin)). pose proof (sock_put i start_fin s9 i) as Hx. destruct (put_sock i start_fin s9) as [s10 []]. cbn [fst] in Hx. rewrite decide_True in Hx by done.
  apply Ha. cbn [fst]. rewrite Hx. unfold start_fin. cbn. by destruct (s_peer_fin (sock s9 i)).
Qed.
Lemma pump_stable k i now s : pump_n (2 + k) i now s = net_tcp_pump i now s.
Proof. unfold net_tcp_pump. cbn [Nat.add pump_n]. apply pump_ext. intros s1 Hs1. by apply pump_finishing. Qed.

(** * Sending a window *)
Lemma send_loop_stable n i now window k : forall fuel s,
  live n s i -> in_states (sock s i) DATA -> tx_count (sock s i) - flight (sock s i) < Z.of_nat fuel ->
  send_loop (fuel + k) i now window (flight (sock s i)) s = send_loop fuel i now window (flight (sock s i)) s.
Proof.
  induction fuel as [|fuel IH]; intros s Hl Hst Hfuel; pose proof Hl as (Hs & Hu & Ht).
  { pose proof (to_data _ (live_tcp n s i Hl) Hst). unfold tx_count in *. lia. }
  cbn [Nat.add send_loop]. rewrite !bind_get. cbv zeta. apply if_ext; [intros Hmore|reflexivity]. reflect_bools.
  pose proof (live_tunable n s i Hl) as [Hmss _]. pose proof (to_tx _ (live_tcp n s i Hl)) as Htx. set (x := sock s i) in *. pose proof (flight_bounds x) as Hf.
  set (m := Z.min _ _). assert (Hm : 0 < m <= tx_count x - flight x) by lia. clearbody m.
  pose proof (tcp_packet_calm n x (s_snd_nxt x) (Z.lor TCP_ACK TCP_PSH) (sub (s_tx x) (flight x) m) (so_placed _ (nk_socks n s Hs i)) s Hs) as (Hs1 & _ & He & _).
  rewrite !(bind_at (net_tcp_packet _ _ _ _)). destruct (net_tcp_packet _ _ _ _ s) as [s1 e]. cbn [fst snd] in *.
  apply if_ext; [reflexivity|intros _]. destruct (live_calm n s s1 i Hl Hs1 He) as [Hl1 Hx1]. fold x in Hx1.
  assert (Hnext : forall s2, live n s2 i -> core (sock s2 i) = core x ->
    bind (put_sock i (fun x => x <| s_snd_nxt ::= (fun q => u32 (q + m)) |>)) (fun _ => send_loop (fuel + k) i now window (flight x + m)) s2 =
    bind (put_sock i (fun x => x <| s_snd_nxt ::= (fun q => u32 (q + m)) |>)) (fun _ => send_loop fuel i now window (flight x + m)) s2).
  { intros s2 (Hs2 & Hu2 & Ht2) Hc2. destruct (core_fields _ _ Hc2) as (E1 & E2 & E3 & E4 & E5 & E6 & E7).
    assert (Hfl : flight (sock s2 i) = flight x) by (unfold flight; by rewrite E5, E6). rewrite !(bind_at (put_sock _ _)).
    pose proof (reach_put n i (fun x => x <| s_snd_nxt ::= (fun q => u32 (q + m)) |>) s2 Hs2) as Hr.
    pose proof (sock_put i (fun x => x <| s_snd_nxt ::= (fun q => u32 (q + m)) |>) s2 i) as Hx3. rewrite decide_True in Hx3 by done.
    set (s3 := fst (put_sock _ _ s2)) in *. assert (Hs3 : net_ok n s3).
    { apply Hr. apply conn_once, (cs_send (sock s2 i) m); [exact Hu2|exact Ht2|rewrite E3; exact (data_states x Hst)|]. rewrite Hfl, E7. unfold tx_count in *. lia. }
    clearbody s3. clear Hr. assert (Hf3 : flight (sock s3 i) = flight x + m).
    { rewrite Hx3. unfold flight at 1. cbn. rewrite <- Hfl. apply flight_add; rewrite ?Hfl; unfold tx_count, NET_STREAM in *; lia. }
    rewrite <- Hf3. apply IH.
    - unfold live. rewrite Hx3. by split_and!.
    - unfold in_states. rewrite Hx3. cbn. rewrite E3. exact Hst.
    - rewrite Hf3, Hx3. unfold tx_count in *. cbn. rewrite E7. lia. }
  rewrite !(bind_at (if flight x =? 0 then _ else _)). destruct (flight x =? 0).
  - pose proof (reach_put n i (fun x => x <| s_sent_at := stamp now |> <| s_retransmitted := false |>) s1 (proj1 Hl1) ltac:(by apply conn_quiet)) as Hr.
    pose proof (sock_put i (fun x => x <| s_sent_at := stamp now |> <| s_retransmitted := false |>) s1 i) as Hx2. rewrite decide_True in Hx2 by done.
    apply Hnext; [|transitivity (core (sock s1 i)); [rewrite Hx2; reflexivity|by rewrite Hx1]]. unfold live. rewrite Hx2. destruct Hl1 as (_ & Hu1 & Ht1). by split_and!; [apply Hr| |].
  - apply Hnext; [exact Hl1|exact (f_equal core Hx1)].
Qed.
(** The options of a TCP header are read to their end. *)
Lemma options_end fuel p h : forall at_ mss, h - at_ <= Z.of_nat fuel -> options_loop fuel p h at_ mss <> None.
Proof.
  induction fuel as [|fuel IH]; intros at_ mss Hf; cbn [options_loop]; destruct (h <=? at_) eqn:Hle; try discriminate; reflect_bools; [lia|].
  destruct (byte p at_ =? 0); [discriminate|]. destruct (byte p at_ =? 1); [apply IH; lia|]. destruct (_ || _) eqn:Hbad; [discriminate|].
  destruct (_ && _); [discriminate|]. reflect_bools. apply IH. lia.
Qed.

(** C40: the recursions and loops of the stack end by themselves: the packet a
    neighbour solicitation sends never needs a solicitation, the pump calls
    itself at most once, the loop that sends a window passes each byte of the
    transmit buffer at most once, and the options of a TCP header are read to
    their end; so that no more fuel than the model gives changes any result. *)
Theorem net_recursion_ends :
  (forall k id family src dst proto bytes ttl s, ip_send_n (2 + k) id family src dst proto bytes ttl s = net_ip_send id family src dst proto bytes ttl s) /\
  (forall k i now s, pump_n (2 + k) i now s = net_tcp_pump i now s) /\
  (forall k n i now window s, live n s i -> in_states (sock s i) DATA ->
     send_loop (SEND_FUEL + k) i now window (flight (sock s i)) s = send_loop SEND_FUEL i now window (flight (sock s i)) s) /\
  (forall p h mss, options_loop (Z.to_nat h) p h 20 mss <> None).
Proof.
  split_and!.
  - apply ip_send_stable.
  - apply pump_stable.
  - intros k n i now window s Hl Hst. apply (send_loop_stable n); [exact Hl|exact Hst|].
    pose proof (to_tx _ (live_tcp n s i Hl)). pose proof (flight_bounds (sock s i)). unfold SEND_FUEL, tx_count. rewrite Z2Nat.id by done. lia.
  - intros p h mss. apply options_end. lia.
Qed.
End Ends.
(** In the open connection of the example. *)
Lemma net_recursion_ends_witness :
  send_loop (SEND_FUEL + 5) 1 1000 4096 (flight (sock (run demo_session demo_net) 1)) (run demo_session demo_net) =
  send_loop SEND_FUEL 1 1000 4096 (flight (sock (run demo_session demo_net) 1)) (run demo_session demo_net).
Proof.
  refine (proj1 (proj2 (proj2 net_recursion_ends)) 5%nat 1 1 1000 4096 (run demo_session demo_net) _ _).
  - split_and!; [|by vm_compute|by vm_compute]. apply run_ok; [|exact demo_session_ok]. apply boot_net_ok; [lia|exact no_other_device].
  - by vm_compute.
Defined.
