(* ===== verification/Native.v ===== *)
(** ext and NTFS volumes, what the two drivers share of
    [src/kernel-src/fs/fs.c] (lines 1679-1796 and 2985-3014): the record of a
    volume, its checksums, reading and writing ranges of its bytes, and the
    run tables that say where the blocks of a file are.  A computation threads
    the disks, the physical pages, the volume, the staged blocks and the
    entries listed so far; a loop that would not end is [Stuck], and
    [native_ends] of [NativeConfine] says that none is. *)
From S2P Require Import Prelude Klib Pmm PageAlloc Path Disk State Fat.

Definition NATIVE_RUNS : Z := 256.
Definition NATIVE_SCAN_MAX : Z := 32 * 1024 * 1024.
Record native_run := mk_run { run_logical : Z; run_physical : Z; run_length : Z; run_hole : bool }.
Record native_volume := mk_native {
  nv_kind : Z; nv_disk : Z; nv_sector : Z; nv_block : Z; nv_start : Z; nv_length : Z; nv_blocks : Z;
  nv_read_only : bool; nv_failed : bool; nv_wrote : bool; nv_source : cstr; nv_super : zmap;
  nv_inode_size : Z; nv_inodes : Z; nv_inodes_per_group : Z; nv_blocks_per_group : Z; nv_groups : Z; nv_desc_size : Z; nv_csum_seed : Z;
  nv_csum : bool; nv_gdt_csum : bool; nv_record_size : Z; nv_index_size : Z; nv_mft_count : Z; nv_mft_size : Z; nv_mft : list native_run }.
#[export] Instance native_updatable : Updatable native_volume := fun r =>
  mk_native (nv_kind r) (nv_disk r) (nv_sector r) (nv_block r) (nv_start r) (nv_length r) (nv_blocks r)
    (nv_read_only r) (nv_failed r) (nv_wrote r) (nv_source r) (nv_super r)
    (nv_inode_size r) (nv_inodes r) (nv_inodes_per_group r) (nv_blocks_per_group r) (nv_groups r) (nv_desc_size r) (nv_csum_seed r)
    (nv_csum r) (nv_gdt_csum r) (nv_record_size r) (nv_index_size r) (nv_mft_count r) (nv_mft_size r) (nv_mft r).
Definition native0 : native_volume := mk_native 0 0 0 0 0 0 0 false false false [] ∅ 0 0 0 0 0 0 0 false false 0 0 0 0 [].
#[export] Instance native_inhabited : Inhabited native_volume := populate native0.

(** * Checksums *)
Definition crc32c_bit (crc : Z) : Z := Z.lxor (Z.shiftr crc 1) (Z.land 0x82f63b78 (u32 (0 - Z.land crc 1))).
Definition crc32c_byte (crc b : Z) : Z := Nat.iter 8 crc32c_bit (Z.lxor crc b).
Definition crc32c_step (crc : Z) (p : list Z) : Z := foldl crc32c_byte crc p.
Definition crc16_bit (crc : Z) : Z := u16 (Z.lxor (Z.shiftr crc 1) (Z.land 0xa001 (u32 (0 - Z.land crc 1)))).
Definition crc16_byte (crc b : Z) : Z := Nat.iter 8 crc16_bit (Z.lxor crc b).
Definition crc16_step (crc : Z) (p : list Z) : Z := foldl crc16_byte crc p.
Definition le32 (x : Z) : list Z := bytes_at (wr32 ∅ 0 x) 0 4.

(** * Run tables *)
Definition run_overlap (a b : native_run) : bool :=
  negb (run_hole a) && negb (run_hole b) && overlap (run_physical a) (run_length a) (run_physical b) (run_length b).
Definition run_add (blocks : Z) (runs : list native_run) (logical physical length : Z) (hole : bool) : Z + list native_run :=
  let r := mk_run logical physical length hole in
  if (length =? 0) || (Z.of_nat (List.length runs) =? NATIVE_RUNS) || (2 ^ 64 - 1 - length <? logical) ||
     (negb hole && ((blocks <=? physical) || (blocks - physical <? length))) then inl K_EIO
  else if match last runs with Some l => logical <? u64 (run_logical l + run_length l) | None => false end then inl K_EIO
  else if existsb (run_overlap r) runs then inl K_EIO
  else inr (runs ++ [r]).
Definition run_covers (logical : Z) (r : native_run) : bool := (run_logical r <=? logical) && (logical - run_logical r <? run_length r).
Definition run_find (runs : list native_run) (logical : Z) : option native_run := List.find (run_covers logical) runs.

(** * Computations *)
Inductive outcome (A : Type) := Done (a : A) | Err (e : Z) | Stuck.
Arguments Done {A} a.
Arguments Err {A} e.
Arguments Stuck {A}.

Section Actions.
Context {St D : Type}.
(** [nx_tx] holds the blocks [ext_tx_blocks] or the sectors [nt_tx] with their
    numbers; [nx_out] the entries that the callback of a listing was given. *)
Record nx := mk_nx { nx_d : D; nx_ps : St; nx_ram : zmap; nx_v : native_volume; nx_index : Z; nx_tx : list (Z * zmap); nx_out : list k_dirent }.
#[export] Instance nx_updatable : Updatable nx := fun r => mk_nx (nx_d r) (nx_ps r) (nx_ram r) (nx_v r) (nx_index r) (nx_tx r) (nx_out r).
Definition Act (A : Type) : Type := nx -> nx * outcome A.
Definition aret {A} (a : A) : Act A := fun s => (s, Done a).
Definition fails {A} (e : Z) : Act A := fun s => (s, Err e).
Definition stuck {A} : Act A := fun s => (s, Stuck).
Definition abind {A B} (m : Act A) (k : A -> Act B) : Act B := fun s =>
  match m s with (s, Done a) => k a s | (s, Err e) => (s, Err e) | (s, Stuck) => (s, Stuck) end.
(** The error of [m] as a value, where the source stores it and goes on. *)
Definition catch {A} (m : Act A) : Act (Z + A) := fun s =>
  match m s with (s, Done a) => (s, Done (inr a)) | (s, Err e) => (s, Done (inl e)) | (s, Stuck) => (s, Stuck) end.
Definition lift {A} (r : Z + A) : Act A := match r with inl e => fails e | inr a => aret a end.
Definition refuse (b : bool) (e : Z) : Act unit := if b then fails e else aret tt.
Definition vol : Act native_volume := fun s => (s, Done (nx_v s)).
Definition on_vol (f : native_volume -> native_volume) : Act unit := fun s => (s <| nx_v ::= f |>, Done tt).
Definition volume_index : Act Z := fun s => (s, Done (nx_index s)).
Definition emit (x : k_dirent) : Act unit := fun s => (s <| nx_out ::= (fun l => l ++ [x]) |>, Done tt).
Definition staged : Act (list (Z * zmap)) := fun s => (s, Done (nx_tx s)).
Definition on_staged (f : list (Z * zmap) -> list (Z * zmap)) : Act unit := fun s => (s <| nx_tx ::= f |>, Done tt).

(** [for (i = lo; i < hi; ++i)] with a state; the body fails, goes on or leaves with a result. *)
Fixpoint a_steps {S R} (n : nat) (i : Z) (body : Z -> S -> Act (flow S R)) (s : S) : Act (flow S R) :=
  match n with
  | O => aret (Next s)
  | Datatypes.S n => abind (body i s) (fun f => match f with Next s => a_steps n (i + 1) body s | Exit r => aret (Exit r) end)
  end.
Definition a_range {S R} (lo hi : Z) (body : Z -> S -> Act (flow S R)) (s : S) : Act (flow S R) := a_steps (Z.to_nat (hi - lo)) lo body s.
Fixpoint a_iter {S} (n : nat) (i : Z) (body : Z -> S -> Act S) (s : S) : Act S :=
  match n with
  | O => aret s
  | Datatypes.S n => abind (body i s) (fun s => a_iter n (i + 1) body s)
  end.
Definition a_fold {S} (lo hi : Z) (body : Z -> S -> Act S) (s : S) : Act S := a_iter (Z.to_nat (hi - lo)) lo body s.
Definition a_for (lo hi : Z) (body : Z -> Act unit) : Act unit := a_fold lo hi (fun i _ => body i) tt.
Fixpoint a_each {A} (l : list A) (body : A -> Act unit) : Act unit :=
  match l with
  | [] => aret tt
  | x :: l => abind (body x) (fun _ => a_each l body)
  end.
(** [while] with a state, at most [fuel] rounds. *)
Fixpoint a_loop {S R} (fuel : nat) (body : S -> Act (flow S R)) (s : S) : Act R :=
  match fuel with
  | O => stuck
  | Datatypes.S fuel => abind (body s) (fun f => match f with Next s => a_loop fuel body s | Exit r => aret r end)
  end.
End Actions.
Arguments nx : clear implicits.
Arguments Act : clear implicits.

Declare Scope native_scope.
Delimit Scope native_scope with native.
Notation "x <- m ; k" := (abind m (fun x => k)) (at level 100, m at next level, k at level 200, right associativity) : native_scope.
Notation "m ;; k" := (abind m (fun _ => k)) (at level 100, k at level 200, right associativity) : native_scope.

Section Native.
Context {St D : Type} `{PageSource St} `{Disks D}.
#[local] Abbreviation Act := (Act St D).
#[local] Open Scope native_scope.

(** * Bytes of a volume *)
Definition native_bytes (offset bytes : Z) : Act (list Z) := fun s =>
  let v := nx_v s in
  if negb (span_ok offset bytes (u64 (nv_length v * nv_sector v))) then (s, Err K_EIO)
  else
    let '(d, r) := disk_bytes (nx_d s) (nv_disk v) (u64 (nv_start v * nv_sector v + offset)) bytes in
    (s <| nx_d := d |>, match r with inl e => Err e | inr data => Done data end).
Definition write_fs (lba : Z) (data : list Z) : Act unit := fun s =>
  let '(d, e) := disk_write_fs (nx_d s) (nv_disk (nx_v s)) lba data in
  (s <| nx_d := d |>, if e =? 0 then Done tt else Err e).
Definition flush_disk : Act unit := fun s =>
  let '(d, e) := disk_flush (nx_d s) (nv_disk (nx_v s)) in
  (s <| nx_d := d |>, if e =? 0 then Done tt else Err e).
(** One sector of a write: a part of one keeps its other bytes. *)
Definition write_step (x : Z * list Z) : Act (flow (Z * list Z) unit) :=
  let '(offset, data) := x in
  match data with
  | [] => aret (Exit tt)
  | _ =>
      v <- vol;
      let lba := offset / nv_sector v in
      let at_ := u32 (offset mod nv_sector v) in
      let n := u32 (Z.min (zlen data) (nv_sector v - at_)) in
      old <- (if negb (at_ =? 0) || (n <? nv_sector v) then native_bytes (u64 (lba * nv_sector v)) (nv_sector v) else aret []);
      write_fs (u64 (nv_start v + lba)) (take (Z.to_nat at_) old ++ take (Z.to_nat n) data ++ drop (Z.to_nat (at_ + n)) old);;
      aret (Next (offset + n, drop (Z.to_nat n) data))
  end.
Definition native_write_bytes (offset : Z) (data : list Z) : Act unit :=
  v <- vol;
  refuse (nv_read_only v || nv_failed v) K_EROFS;;
  refuse (negb (span_ok offset (zlen data) (u64 (nv_length v * nv_sector v)))) K_EIO;;
  r <- catch (a_loop (S (length data)) write_step (offset, data);; flush_disk);
  match r with
  | inl e => on_vol (fun v => v <| nv_failed := true |>);; fails e
  | inr _ => on_vol (fun v => v <| nv_wrote := true |>)
  end.

(** * Bytes of a file, through its run table; [write_run] refuses a hole *)
Definition run_place (v : native_volume) (r : native_run) (logical at_ : Z) : Z :=
  u64 ((run_physical r + logical - run_logical r) * nv_block v + at_).
Definition read_run_step (runs : list native_run) (x : Z * Z * list Z) : Act (flow (Z * Z * list Z) (list Z)) :=
  let '(offset, bytes, out) := x in
  if bytes =? 0 then aret (Exit out)
  else
    v <- vol;
    let logical := offset / nv_block v in
    let at_ := offset mod nv_block v in
    let n := Z.min bytes (nv_block v - at_) in
    data <- match run_find runs logical with
            | Some r => if run_hole r then aret (replicate (Z.to_nat n) 0) else native_bytes (run_place v r logical at_) n
            | None => aret (replicate (Z.to_nat n) 0)
            end;
    aret (Next (u64 (offset + n), bytes - n, out ++ data)).
Definition run_read (runs : list native_run) (offset bytes : Z) : Act (list Z) :=
  a_loop (S (Z.to_nat bytes)) (read_run_step runs) (offset, bytes, []).
Definition write_run_step (runs : list native_run) (x : Z * list Z) : Act (flow (Z * list Z) unit) :=
  let '(offset, data) := x in
  match data with
  | [] => aret (Exit tt)
  | _ =>
      v <- vol;
      let logical := offset / nv_block v in
      let at_ := offset mod nv_block v in
      let n := Z.min (zlen data) (nv_block v - at_) in
      match run_find runs logical with
      | Some r =>
          if run_hole r then fails K_ENOTSUP
          else native_write_bytes (run_place v r logical at_) (take (Z.to_nat n) data);; aret (Next (u64 (offset + n), drop (Z.to_nat n) data))
      | None => fails K_ENOTSUP
      end
  end.
Definition run_write (runs : list native_run) (offset : Z) (data : list Z) : Act unit :=
  a_loop (S (length data)) (write_run_step runs) (offset, data).

(** [pmm_alloc_page], the page freed again whatever [m] does. *)
Definition with_page {A} (m : Act A) : Act A := fun s =>
  let '(ps, ram, page) := pa_alloc (nx_ps s) (nx_ram s) 1 0 in
  let s := s <| nx_ps := ps |> <| nx_ram := ram |> in
  if page =? 0 then (s, Err K_ENOMEM)
  else let '(s, r) := m s in (s <| nx_ps ::= (fun ps => pa_free ps page 1) |>, r).
End Native.
