(* ===== verification/Ext.v ===== *)
(** Reading ext2, ext3 and ext4 volumes, [src/kernel-src/fs/fs.c] (lines
    1797-2053): block groups, inodes, the run table of a file from its extents
    or its block pointers, and directories.  The depth of an extent tree is a
    structural argument; the records of a directory block are a loop on fuel,
    each at least eight bytes long. *)
From S2P Require Import Prelude Klib Pmm PageAlloc Path Disk State Fat Native.

(** * Fields of descriptors and inodes *)
Definition desc_table (v : native_volume) : Z := (if nv_block v =? 1024 then 2 else 1) * nv_block v.
Definition ext_desc_block (v : native_volume) (d : zmap) (off : Z) : Z :=
  Z.lor (rd32 d off) (if nv_desc_size v =? 64 then Z.shiftl (rd32 d (off + 32)) 32 else 0).
Definition table_blocks (v : native_volume) : Z := u64 (nv_inodes_per_group v * nv_inode_size v + nv_block v - 1) / nv_block v.
Definition ext_size (raw : zmap) : Z := Z.lor (rd32 raw 4) (Z.shiftl (rd32 raw 108) 32).
Definition EXTENTS_FL : Z := 0x80000.
(** The checksum of a descriptor whose own checksum field is zero. *)
Definition group_sum (v : native_volume) (group : Z) (desc : zmap) : option Z :=
  if nv_csum v then Some (u16 (crc32c_step (crc32c_step (nv_csum_seed v) (le32 group)) (bytes_at desc 0 (nv_desc_size v))))
  else if nv_gdt_csum v then
    let crc := crc16_step 0xffff (bytes_at (nv_super v) 104 16) in
    let crc := crc16_step crc (le32 group) in
    let crc := crc16_step crc (bytes_at desc 0 30) in
    Some (if 32 <? nv_desc_size v then crc16_step crc (bytes_at desc 32 (nv_desc_size v - 32)) else crc)
  else None.
Definition group_bad (v : native_volume) (desc : zmap) : bool :=
  let table := ext_desc_block v desc 8 in
  let bitmap := ext_desc_block v desc 0 in
  let inodemap := ext_desc_block v desc 4 in
  let blocks := table_blocks v in
  (table =? 0) || (nv_blocks v <=? table) || (nv_blocks v - table <? blocks) || (bitmap =? 0) || (nv_blocks v <=? bitmap) ||
  (inodemap =? 0) || (nv_blocks v <=? inodemap) || (bitmap =? inodemap) || overlap bitmap 1 table blocks || overlap inodemap 1 table blocks.
Definition ext_inode_seed (v : native_volume) (inode : Z) (raw : zmap) : Z :=
  crc32c_step (crc32c_step (nv_csum_seed v) (le32 inode)) (bytes_at raw 100 4).
(** The inode with its checksum fields cleared, and whether it has the upper one. *)
Definition high_sum (v : native_volume) (raw : zmap) : bool := (132 <=? nv_inode_size v) && (4 <=? rd16 raw 128).
Definition clear_sum (v : native_volume) (raw : zmap) : zmap :=
  let raw := wr16 raw 124 0 in
  if high_sum v raw then wr16 raw 130 0 else raw.
Definition inode_sum (v : native_volume) (inode : Z) (raw : zmap) : Z :=
  crc32c_step (ext_inode_seed v inode raw) (bytes_at raw 0 (nv_inode_size v)).
Definition inode_sum_ok (v : native_volume) (inode : Z) (raw : zmap) : bool :=
  let cleared := clear_sum v raw in
  let high := high_sum v raw in
  let wanted := Z.lor (rd16 raw 124) (if high then Z.shiftl (rd16 raw 130) 16 else 0) in
  let crc := inode_sum v inode cleared in
  (if high then crc else u16 crc) =? wanted.

Section Ext.
Context {St D : Type} `{PageSource St} `{Disks D}.
#[local] Abbreviation Act := (Act St D).
#[local] Open Scope native_scope.

(** * Groups and inodes *)
Definition ext_group (group : Z) : Act zmap :=
  v <- vol;
  refuse (nv_groups v <=? group) K_EIO;;
  data <- native_bytes (u64 (desc_table v + group * nv_desc_size v)) (nv_desc_size v);
  let desc := buffer data in
  let wanted := rd16 desc 30 in
  let cleared := zput (zput desc 30 0) 31 0 in
  refuse (match group_sum v group cleared with Some crc => negb (crc =? wanted) | None => false end) K_EIO;;
  refuse (group_bad v cleared) K_EIO;;
  aret (wr16 cleared 30 wanted).
Definition ext_inode (inode : Z) : Act zmap :=
  v <- vol;
  refuse ((inode =? 0) || (nv_inodes v <? inode)) K_EIO;;
  d <- ext_group ((inode - 1) / nv_inodes_per_group v);
  let table := ext_desc_block v d 8 in
  let offset := (inode - 1) mod nv_inodes_per_group v * nv_inode_size v in
  refuse ((table =? 0) || (nv_blocks v <=? table) || (u64 ((nv_blocks v - table) * nv_block v) <? offset + nv_inode_size v)) K_EIO;;
  data <- native_bytes (u64 (table * nv_block v + offset)) (nv_inode_size v);
  let raw := buffer data in
  refuse (nv_csum v && negb (inode_sum_ok v inode raw)) K_EIO;;
  refuse ((rd16 raw 26 =? 0) || negb (rd32 raw 20 =? 0)) K_ENOENT;;
  refuse (negb (Z.land (rd32 raw 32) 0x10000804 =? 0)) K_ENOTSUP;;
  aret raw.

(** * The run table of a file *)
Definition extent_leaf (h : zmap) (at_ logical : Z) (x : list native_run * Z) : Act (list native_run * Z) :=
  v <- vol;
  let len := rd16 h (at_ + 4) in
  let hole := 32768 <? len in
  let len := if hole then len - 32768 else len in
  let physical := Z.lor (rd32 h (at_ + 8)) (Z.shiftl (rd16 h (at_ + 6)) 32) in
  runs <- lift (run_add (nv_blocks v) (fst x) logical physical len hole);
  aret (runs, snd x).
Definition extent_node (seed : Z) (below : zmap -> list native_run * Z -> Act (list native_run * Z)) (h : zmap) (at_ : Z) (x : list native_run * Z)
    : Act (list native_run * Z) :=
  v <- vol;
  let physical := Z.lor (rd32 h (at_ + 4)) (Z.shiftl (rd16 h (at_ + 8)) 32) in
  refuse ((physical =? 0) || (nv_blocks v <=? physical)) K_EIO;;
  with_page (
    data <- native_bytes (u64 (physical * nv_block v)) (nv_block v);
    let b := buffer data in
    let tail := 12 + 12 * rd16 b 4 in
    refuse (nv_csum v && ((nv_block v - 4 <? tail) || negb (crc32c_step seed (bytes_at b 0 tail) =? rd32 b tail))) K_EIO;;
    below b x).
(** One entry: their first blocks must grow. *)
Definition extent_entry (h : zmap) (use : Z -> Z -> list native_run * Z -> Act (list native_run * Z)) (i : Z) (s : Z * (list native_run * Z))
    : Act (Z * (list native_run * Z)) :=
  let '(last, x) := s in
  let at_ := 12 + i * 12 in
  let logical := rd32 h at_ in
  refuse (negb (i =? 0) && (logical <=? last)) K_EIO;;
  x <- use at_ logical x;
  aret (logical, x).
Fixpoint ext_extents (depth : nat) (seed : Z) (h : zmap) (bytes : Z) (x : list native_run * Z) : Act (list native_run * Z) :=
  let '(runs, budget) := x in
  if (budget =? 0) || (bytes <? 12) || negb (rd16 h 0 =? 0xf30a) || negb (rd16 h 6 =? Z.of_nat depth) || (5 <? Z.of_nat depth) then fails K_EIO
  else
    let entries := rd16 h 2 in
    let max := rd16 h 4 in
    refuse ((max <? entries) || ((bytes - 12) / 12 <? max) || (max =? 0)) K_EIO;;
    s <- a_fold 0 entries (extent_entry h
           (match depth with
            | O => extent_leaf h
            | Datatypes.S depth => fun at_ _ x => v <- vol; extent_node seed (fun b => ext_extents depth seed b (nv_block v)) h at_ x
            end)) (0, (runs, budget - 1));
    aret (snd s).
Definition block_run (logical p : Z) (runs : list native_run) : Act (list native_run) :=
  v <- vol;
  if p =? 0 then aret runs else lift (run_add (nv_blocks v) runs logical p 1 false).
Definition ext_map (inode : Z) (raw : zmap) : Act (list native_run) :=
  v <- vol;
  if negb (Z.land (rd32 raw 32) EXTENTS_FL =? 0) then
    x <- ext_extents (Z.to_nat (rd16 raw 46)) (ext_inode_seed v inode raw) (buffer (bytes_at raw 40 60)) 60 ([], 1024);
    aret (fst x)
  else
    refuse (negb (rd32 raw 92 =? 0) || negb (rd32 raw 96 =? 0)) K_ENOTSUP;;
    runs <- a_fold 0 12 (fun i => block_run i (rd32 raw (40 + 4 * i))) [];
    let indirect := rd32 raw 88 in
    if indirect =? 0 then aret runs
    else
      refuse (nv_blocks v <=? indirect) K_EIO;;
      data <- native_bytes (u64 (indirect * nv_block v)) (nv_block v);
      a_fold 0 (nv_block v / 4) (fun i => block_run (12 + i) (rd32 (buffer data) (4 * i))) runs.

(** * Directories *)
Definition is_directory (raw : zmap) : bool := Z.land (rd16 raw 0) 0xf000 =? 0x4000.
(** Where the records of a block end: a checksum may follow them. *)
Definition block_limit (v : native_volume) (seed : Z) (raw block : zmap) : Z + Z :=
  if negb (nv_csum v) then inr (nv_block v)
  else if (rd32 block (nv_block v - 12) =? 0) && (rd16 block (nv_block v - 8) =? 12) && (zget block (nv_block v - 5) =? 0xde) then
    if crc32c_step seed (bytes_at block 0 (nv_block v - 12)) =? rd32 block (nv_block v - 4) then inr (nv_block v - 12) else inl K_EIO
  else if Z.land (rd32 raw 32) 0x1000 =? 0 then inl K_EIO else inr (nv_block v).
(** A named record: the file that was looked for ends the walk, any other one is listed when there is no such file. *)
Definition ext_entry (ino : Z) (name : cstr) (wanted : option cstr) : Act (option k_file) :=
  match wanted with
  | Some w =>
      if negb (bool_decide (name = w)) then aret None
      else
        target <- ext_inode ino;
        let mode := Z.land (rd16 target 0) 0xf000 in
        refuse (negb (mode =? 0x4000) && negb (mode =? 0x8000)) K_ENOTSUP;;
        index <- volume_index;
        aret (Some (mk_file 4 index ino (if mode =? 0x4000 then 0x10 else 0) (ext_size target) (rd32 target 100)))
  | None =>
      target <- ext_inode ino;
      emit (mk_dirent (take (Z.to_nat K_NAME_MAX) name) (ext_size target) (is_directory target) 0 0);;
      aret None
  end.
Definition record_step (block : zmap) (limit : Z) (wanted : option cstr) (at_ : Z) : Act (flow Z (option k_file)) :=
  if limit <=? at_ then aret (Exit None)
  else
    refuse (limit - at_ <? 8) K_EIO;;
    let ino := rd32 block at_ in
    let rec := rd16 block (at_ + 4) in
    let len := zget block (at_ + 6) in
    refuse ((rec <? 8) || negb (Z.land rec 3 =? 0) || (limit - at_ <? rec) || (rec - 8 <? len)) K_EIO;;
    if negb (ino =? 0) && negb (len =? 0) && (len <=? 255) then
      let name := bytes_at block (at_ + 8) len in
      refuse (existsb is_nul name) K_EIO;;
      found <- ext_entry ino name wanted;
      match found with Some f => aret (Exit (Some f)) | None => aret (Next (at_ + rec)) end
    else aret (Next (at_ + rec)).
Definition ext_block (raw : zmap) (seed : Z) (runs : list native_run) (wanted : option cstr) (i : Z) (_ : unit) : Act (flow unit k_file) :=
  v <- vol;
  data <- run_read runs (i * nv_block v) (nv_block v);
  let block := buffer data in
  limit <- lift (block_limit v seed raw block);
  found <- a_loop (S (Z.to_nat limit)) (record_step block limit wanted) 0;
  match found with Some f => aret (Exit f) | None => aret (Next tt) end.
(** The file called [wanted], or the listing of the directory. *)
Definition ext_directory (inode : Z) (wanted : option cstr) : Act (option k_file) :=
  v <- vol;
  raw <- ext_inode inode;
  refuse (negb (is_directory raw)) K_EINVAL;;
  let size := ext_size raw in
  refuse ((NATIVE_SCAN_MAX <? size) || negb (size mod nv_block v =? 0)) K_ENOTSUP;;
  runs <- ext_map inode raw;
  r <- a_range 0 (size / nv_block v) (ext_block raw (ext_inode_seed v inode raw) runs wanted) tt;
  match r, wanted with
  | Exit f, _ => aret (Some f)
  | Next _, Some _ => fails K_ENOENT
  | Next _, None => aret None
  end.
End Ext.
