(* ===== verification/Ntfs.v ===== *)
(** Reading NTFS volumes, [src/kernel-src/fs/fs.c] (lines 2055-2181, the
    reading half of 2187-2263, and 2398-2568): the fixups that protect the
    sectors of a record, run lists, attributes, the contents of a file and the
    index of a directory.  A pointer into a record is its offset. *)
From S2P Require Import Prelude Klib Pmm PageAlloc Path Disk State Fat Native.

Definition FILE_MAGIC : list Z := [70; 73; 76; 69].
Definition INDX_MAGIC : list Z := [73; 78; 68; 88].
(** The name of the attributes of a directory's index. *)
Definition I30 : cstr := [36; 73; 51; 48].

(** * Fixups

    The last two bytes of every 512-byte unit hold the sequence number; what
    belongs there is in the array after the number. *)
Definition fixup_step (off sequence i : Z) (rec : zmap) : flow zmap Z :=
  let end_ := i * 512 - 2 in
  if negb (rd16 rec end_ =? sequence) then Exit K_EIO else Next (wr16 rec end_ (rd16 rec (off + i * 2))).
Definition ntfs_fixup (rec : zmap) (size : Z) (magic : list Z) : Z + zmap :=
  if (size <? 48) || negb (bool_decide (bytes_at rec 0 4 = magic)) then inl K_EIO
  else
    let off := rd16 rec 4 in
    let count := rd16 rec 6 in
    if negb (size mod 512 =? 0) || negb (count =? size / 512 + 1) || (off <? 8) || (size <? off) || (size - off <? count * 2) then inl K_EIO
    else match for_range 1 count (fixup_step off (rd16 rec off)) rec with Next rec => inr rec | Exit e => inl e end.

(** * Run lists *)
Fixpoint le_bytes (rec : zmap) (at_ : Z) (n : nat) : Z :=
  match n with
  | O => 0
  | S n => Z.lor (zget rec at_) (Z.shiftl (le_bytes rec (at_ + 1) n) 8)
  end.
Definition sign_extend (delta n : Z) : Z :=
  if negb (n =? 0) && (n <? 8) && negb (Z.land delta (Z.shiftl 1 (n * 8 - 1)) =? 0) then Z.lor delta (u64 (Z.shiftl (2 ^ 64 - 1) (n * 8))) else delta.
(** The next cluster after a move by [delta], a 64-bit pattern. *)
Definition move_cluster (lcn delta : Z) : Z + Z :=
  if s64 delta <? 0 then
    let sub := u64 (0 - delta) in if lcn <? sub then inl K_EIO else inr (lcn - sub)
  else if 0x7fffffffffffffff - lcn <? s64 delta then inl K_EIO
  else inr (lcn + s64 delta).
Record run_state := mk_runs { rs_at : Z; rs_vcn : Z; rs_lcn : Z; rs_runs : list native_run }.
(** One element of the list of the attribute at [a] in [rec]. *)
Definition run_step (blocks : Z) (rec : zmap) (a size : Z) (x : run_state) : Z + run_state :=
  let header := zget rec (a + rs_at x) in
  let at_ := rs_at x + 1 in
  let lenbytes := Z.land header 15 in
  let offbytes := Z.shiftr header 4 in
  if (lenbytes =? 0) || (8 <? lenbytes) || (8 <? offbytes) || (size - at_ <? lenbytes + offbytes) then inl K_EIO
  else
    let len := le_bytes rec (a + at_) (Z.to_nat lenbytes) in
    let delta := sign_extend (le_bytes rec (a + at_ + lenbytes) (Z.to_nat offbytes)) offbytes in
    match (if offbytes =? 0 then inr (rs_lcn x) else move_cluster (rs_lcn x) delta) with
    | inl e => inl e
    | inr lcn =>
        match run_add blocks (rs_runs x) (rs_vcn x) lcn len (offbytes =? 0) with
        | inl e => inl e
        | inr runs => inr (mk_runs (at_ + lenbytes + offbytes) (rs_vcn x + len) lcn runs)
        end
    end.
Fixpoint run_loop (fuel : nat) (blocks : Z) (rec : zmap) (a size : Z) (x : run_state) : option (Z + run_state) :=
  if (rs_at x <? size) && negb (zget rec (a + rs_at x) =? 0) then
    match fuel with
    | O => None
    | S fuel => match run_step blocks rec a size x with inl e => Some (inl e) | inr x => run_loop fuel blocks rec a size x end
    end
  else Some (inr x).
Definition runs_end_bad (v : native_volume) (rec : zmap) (a size : Z) (x : run_state) : bool :=
  (size <=? rs_at x) || (rs_vcn x =? 0) || ((2 ^ 64 - 1) / nv_block v <? rs_vcn x) || negb (rd64 rec (a + 24) =? rs_vcn x - 1) ||
  (rd64 rec (a + 48) <? rd64 rec (a + 56)) || (rs_vcn x * nv_block v <? rd64 rec (a + 48)).
Definition ntfs_runs (v : native_volume) (rec : zmap) (a size : Z) : option (Z + list native_run) :=
  if (size <? 64) || negb (zget rec (a + 8) =? 1) || negb (rd64 rec (a + 16) =? 0) || negb (Z.land (rd16 rec (a + 12)) 0xc001 =? 0) ||
     negb (rd16 rec (a + 34) =? 0)
  then Some (inl K_ENOTSUP)
  else
    let at_ := rd16 rec (a + 32) in
    if (at_ <? 64) || (size <=? at_) then Some (inl K_EIO)
    else
      match run_loop (Z.to_nat size) (nv_blocks v) rec a size (mk_runs at_ 0 0 []) with
      | None => None
      | Some (inl e) => Some (inl e)
      | Some (inr x) => Some (if runs_end_bad v rec a size x then inl K_EIO else inr (rs_runs x))
      end.

(** * Attributes: the only one of a type and a name, as its offset and its length *)
Definition attr_matches (rec : zmap) (a type : Z) (name : cstr) : bool :=
  let chars := zget rec (a + 9) in
  let noff := rd16 rec (a + 10) in
  (rd32 rec a =? type) && (chars =? zlen name) && all_range 0 chars (fun i => rd16 rec (a + noff + i * 2) =? name !!! Z.to_nat i).
Fixpoint attr_loop (fuel : nat) (rec : zmap) (used type : Z) (name : cstr) (at_ : Z) (seen : option (Z * Z)) : option (Z + Z * Z) :=
  if used <? at_ + 4 then Some (inl K_EIO)
  else
    let kind := rd32 rec at_ in
    if kind =? 0xffffffff then Some (match seen with Some r => inr r | None => inl K_ENOENT end)
    else if used <? at_ + 16 then Some (inl K_EIO)
    else
      let n := rd32 rec (at_ + 4) in
      if (n <? 24) || negb (Z.land n 7 =? 0) || (used - at_ <? n) || (1 <? zget rec (at_ + 8)) then Some (inl K_EIO)
      else if kind =? 0x20 then Some (inl K_ENOTSUP)
      else
        let chars := zget rec (at_ + 9) in
        let noff := rd16 rec (at_ + 10) in
        if negb (chars =? 0) && (negb (span_ok noff (chars * 2) n) || (noff <? 16)) then Some (inl K_EIO)
        else
          let found := attr_matches rec at_ type name in
          match fuel with
          | O => None
          | S fuel =>
              if found && bool_decide (seen <> None) then Some (inl K_ENOTSUP)
              else attr_loop fuel rec used type name (at_ + n) (if found then Some (at_, n) else seen)
          end.
Definition ntfs_attr (rec : zmap) (type : Z) (name : cstr) : option (Z + Z * Z) :=
  attr_loop (Z.to_nat (rd32 rec 24)) rec (rd32 rec 24) type name (rd16 rec 20) None.
(** The value of a resident attribute, as its offset in the record and its length. *)
Definition ntfs_value (rec : zmap) (a n : Z) : Z + Z * Z :=
  if negb (zget rec (a + 8) =? 0) then inl K_ENOTSUP
  else
    let at_ := rd16 rec (a + 20) in
    let len := rd32 rec (a + 16) in
    if (at_ <? 24) || negb (span_ok at_ len n) || negb (rd16 rec (a + 12) =? 0) then inl K_EIO else inr (a + at_, len).

(** * Names *)
Definition name_char_bad (c : Z) : bool := (c <? 32) || (126 <? c) || (c =? SLASH).
Definition ntfs_name (rec : zmap) (key n : Z) : Z + cstr :=
  if n <? 66 then inl K_EIO
  else
    let len := zget rec (key + 64) in
    if n <? 66 + 2 * len then inl K_EIO
    else
      let name := map (fun i => rd16 rec (key + 66 + Z.of_nat i * 2)) (seq 0 (Z.to_nat len)) in
      if existsb name_char_bad name then inl K_ENOTSUP else if len =? 0 then inl K_EIO else inr name.
Fixpoint ntfs_name_equal (a b : cstr) : bool :=
  match a, b with
  | x :: a, y :: b => (upper x =? upper y) && ntfs_name_equal a b
  | [], [] => true
  | _, _ => false
  end.

Section Ntfs.
Context {St D : Type} `{PageSource St} `{Disks D}.
#[local] Abbreviation Act := (Act St D).
#[local] Open Scope native_scope.

(** A pure loop that ran out of fuel. *)
Definition lift_loop {A} (r : option (Z + A)) : Act A := match r with None => stuck | Some r => lift r end.
Definition record_bad (v : native_volume) (rec : zmap) : bool :=
  (Z.land (rd16 rec 22) 1 =? 0) || (nv_record_size v <? rd32 rec 24) || negb (rd32 rec 28 =? nv_record_size v) || (rd16 rec 20 <? 48) ||
  (rd32 rec 24 <? rd16 rec 20) || negb (rd64 rec 32 =? 0).
Definition ntfs_record (number : Z) : Act zmap :=
  v <- vol;
  let off := number * nv_record_size v in
  refuse (negb (span_ok off (nv_record_size v) (nv_mft_size v))) K_EIO;;
  data <- run_read (nv_mft v) off (nv_record_size v);
  rec <- lift (ntfs_fixup (buffer data) (nv_record_size v) FILE_MAGIC);
  refuse (record_bad v rec) K_EIO;;
  aret rec.
Definition runs_of (rec : zmap) (a size : Z) : Act (list native_run) := v <- vol; lift_loop (ntfs_runs v rec a size).

(** * The contents of a file: its size and the bytes read *)
Definition read_value (rec : zmap) (a length offset n : Z) : Act (Z * list Z) :=
  p <- lift (ntfs_value rec a length);
  let '(at_, len) := p in
  aret (len, if len <=? offset then [] else bytes_at rec (at_ + offset) (Z.min n (len - offset))).
(** The bytes after the initialized ones are zero. *)
Definition read_clusters (rec : zmap) (a length offset n : Z) : Act (Z * list Z) :=
  runs <- runs_of rec a length;
  let size := rd64 rec (a + 48) in
  if size <=? offset then aret (size, [])
  else
    let n := Z.min n (size - offset) in
    let initialized := rd64 rec (a + 56) in
    let backed := if offset <? initialized then Z.min n (initialized - offset) else 0 in
    data <- run_read runs offset backed;
    aret (size, data ++ replicate (Z.to_nat (n - backed)) 0).
Definition ntfs_data (ino offset n : Z) : Act (Z * list Z) :=
  rec <- ntfs_record ino;
  refuse (negb (Z.land (rd16 rec 22) 2 =? 0)) K_EINVAL;;
  p <- lift_loop (ntfs_attr rec 0x80 []);
  let '(a, length) := p in
  if zget rec (a + 8) =? 0 then read_value rec a length offset n else read_clusters rec a length offset n.

(** * Directories *)
Definition entry_bad (rec : zmap) (e len keylen flags size_left : Z) : bool :=
  let tail := if Z.land flags 1 =? 0 then 0 else 8 in
  (len <? 16 + tail) || negb (Z.land len 7 =? 0) || (size_left <? len) || negb (Z.land flags 0xfffc =? 0) || (len - 16 - tail <? keylen).
(** A named entry: the one that was looked for is opened, any other one is listed when there is no such name, unless its name is a short one. *)
Definition ntfs_found (rec : zmap) (e ino reference : Z) : Act k_file :=
  raw <- ntfs_record ino;
  refuse (negb (rd16 raw 16 =? Z.shiftr reference 48)) K_EIO;;
  refuse (negb (Z.land (rd32 rec (e + 16 + 56)) 0x400 =? 0)) K_ENOTSUP;;
  index <- volume_index;
  let directory := negb (Z.land (rd16 raw 22) 2 =? 0) in
  let found := mk_file 5 index ino (if directory then 0x10 else 0) (rd64 rec (e + 16 + 48)) (Z.shiftr reference 48) in
  if directory then aret found else p <- ntfs_data ino 0 0; aret (found <| f_size := fst p |>).
Definition ntfs_entry (rec : zmap) (e : Z) (name : cstr) (wanted : option cstr) : Act (option k_file) :=
  let reference := rd64 rec e in
  let ino := Z.land reference 0xffffffffffff in
  refuse (0xffffffff <? ino) K_ENOTSUP;;
  match wanted with
  | Some w => if ntfs_name_equal name w then f <- ntfs_found rec e ino reference; aret (Some f) else aret None
  | None =>
      if zget rec (e + 16 + 65) =? 2 then aret None
      else
        emit (mk_dirent (take (Z.to_nat K_NAME_MAX) name) (rd64 rec (e + 16 + 48)) (negb (Z.land (rd32 rec (e + 16 + 56)) 0x10000000 =? 0)) 0 0);;
        aret None
  end.
Definition index_step (rec : zmap) (header size : Z) (wanted : option cstr) (at_ : Z) : Act (flow Z (option k_file)) :=
  if size <? at_ + 16 then fails K_EIO
  else
    let e := header + at_ in
    let len := rd16 rec (e + 8) in
    let keylen := rd16 rec (e + 10) in
    let flags := rd16 rec (e + 12) in
    refuse (entry_bad rec e len keylen flags (size - at_)) K_EIO;;
    if negb (Z.land flags 2 =? 0) then aret (Exit None)
    else
      match ntfs_name rec (e + 16) keylen with
      | inr name =>
          found <- ntfs_entry rec e name wanted;
          aret (match found with Some f => Exit (Some f) | None => Next (at_ + len) end)
      | inl err => if err =? K_ENOTSUP then aret (Next (at_ + len)) else fails err
      end.
(** The entries after the header at [header] of [rec]: the file that was looked for, when it is one of them. *)
Definition ntfs_index_entries (rec : zmap) (header capacity : Z) (wanted : option cstr) : Act (option k_file) :=
  refuse (capacity <? 16) K_EIO;;
  let off := rd32 rec header in
  let size := rd32 rec (header + 4) in
  let alloc := rd32 rec (header + 8) in
  refuse ((off <? 16) || (size <? off) || (alloc <? size) || (capacity <? alloc)) K_EIO;;
  a_loop (S (Z.to_nat size)) (index_step rec header size wanted) off.
(** The bitmap of the index blocks in use: its bytes. *)
Definition index_bitmap (rec : zmap) : Act (list Z) :=
  p <- lift_loop (ntfs_attr rec 0xb0 I30);
  let '(a, length) := p in
  if zget rec (a + 8) =? 0 then
    q <- lift (ntfs_value rec a length);
    let '(at_, size) := q in
    refuse (4096 <? size) K_ENOTSUP;;
    aret (bytes_at rec at_ size)
  else
    runs <- runs_of rec a length;
    refuse (4096 <? rd64 rec (a + 48)) K_ENOTSUP;;
    run_read runs 0 (rd64 rec (a + 48)).
Definition index_block (runs : list native_run) (bitmap : list Z) (wanted : option cstr) (bit : Z) (_ : unit) : Act (flow unit k_file) :=
  v <- vol;
  if Z.land (bitmap !!! Z.to_nat (bit / 8)) (Z.shiftl 1 (bit mod 8)) =? 0 then aret (Next tt)
  else
    data <- run_read runs (bit * nv_index_size v) (nv_index_size v);
    block <- lift (ntfs_fixup (buffer data) (nv_index_size v) INDX_MAGIC);
    found <- ntfs_index_entries block 24 (nv_index_size v - 24) wanted;
    aret (match found with Some f => Exit f | None => Next tt end).
Definition not_found (wanted : option cstr) : Act (option k_file) := match wanted with Some _ => fails K_ENOENT | None => aret None end.
Definition index_blocks (rec : zmap) (a length : Z) (wanted : option cstr) : Act (option k_file) :=
  v <- vol;
  runs <- runs_of rec a length;
  let size := rd64 rec (a + 48) in
  refuse ((NATIVE_SCAN_MAX <? size) || negb (size mod nv_index_size v =? 0)) K_ENOTSUP;;
  bitmap <- index_bitmap rec;
  refuse (zlen bitmap * 8 <? size / nv_index_size v) K_EIO;;
  r <- a_range 0 (size / nv_index_size v) (index_block runs bitmap wanted) tt;
  match r with Exit f => aret (Some f) | Next _ => not_found wanted end.
Definition ntfs_directory (ino : Z) (wanted : option cstr) : Act (option k_file) :=
  v <- vol;
  rec <- ntfs_record ino;
  refuse (Z.land (rd16 rec 22) 2 =? 0) K_EINVAL;;
  p <- lift_loop (ntfs_attr rec 0x90 I30);
  q <- lift (ntfs_value rec (fst p) (snd p));
  let '(value, bytes) := q in
  refuse ((bytes <? 32) || negb (rd32 rec value =? 0x30) || negb (rd32 rec (value + 4) =? 1) || negb (rd32 rec (value + 8) =? nv_index_size v)) K_ENOTSUP;;
  found <- ntfs_index_entries rec (value + 16) (bytes - 16) wanted;
  match found with
  | Some f => aret (Some f)
  | None =>
      r <- catch (lift_loop (ntfs_attr rec 0xa0 I30));
      match r with
      | inl e => if e =? K_ENOENT then not_found wanted else fails e
      | inr (a, length) => index_blocks rec a length wanted
      end
  end.
End Ntfs.
