(* ===== verification/NativeRead.v ===== *)
(** Files of ext and NTFS volumes without writing to them,
    [src/kernel-src/fs/fs.c] (lines 2569-2622, 2644-2732 and 2861-2984):
    opening a path, refreshing, reading and listing a file, the check that
    comes before a write, and recognising a volume. *)
From S2P Require Import Prelude Klib Pmm PageAlloc Path Disk State Fat Native Ext Ntfs.

Definition HIBERFIL : cstr := [104; 105; 98; 101; 114; 102; 105; 108; 46; 115; 121; 115].
Definition NTFS_ID : list Z := [78; 84; 70; 83; 32; 32; 32; 32].
Definition signed8 (x : Z) : Z := if x <? 128 then x else x - 256.
(** The size of a record or of an index block: clusters, or the power of two when negative. *)
Definition unit_size (block field : Z) : Z := let n := signed8 field in if n <? 0 then Z.shiftl 1 (- n) else u32 (n * block).

Section NativeRead.
Context {St D : Type} `{PageSource St} `{Disks D}.
#[local] Abbreviation Act := (Act St D).
#[local] Open Scope native_scope.

(** * Opening *)
Definition directory_entry (cluster : Z) (name : cstr) : Act k_file :=
  v <- vol;
  r <- (if nv_kind v =? 4 then ext_directory cluster (Some name) else ntfs_directory cluster (Some name));
  match r with Some f => aret f | None => fails K_ENOENT end.
Fixpoint walk_path (names : list cstr) (cur : k_file) : Act k_file :=
  match names with
  | [] => aret cur
  | name :: names =>
      refuse (255 <? zlen name) K_E2BIG;;
      cur <- directory_entry (f_cluster cur) name;
      walk_path names cur
  end.
Definition open_path (path : cstr) : Act k_file :=
  v <- vol;
  index <- volume_index;
  walk_path (components path) (mk_file (nv_kind v) index (if nv_kind v =? 4 then 2 else 5) 0x10 0 0).

(** * Refreshing and reading: the new size, the bytes *)
Definition refreshed_size (f : k_file) : Act Z :=
  v <- vol;
  if nv_kind v =? 4 then
    raw <- ext_inode (f_cluster f);
    refuse (negb (rd32 raw 100 =? f_directory_offset f)) K_ENOENT;;
    aret (ext_size raw)
  else
    raw <- ntfs_record (f_cluster f);
    refuse (negb (rd16 raw 16 =? f_directory_offset f)) K_ENOENT;;
    p <- ntfs_data (f_cluster f) 0 0;
    aret (fst p).
Definition read_file (f : k_file) (offset n : Z) : Act (list Z) :=
  refuse (negb (Z.land (f_attributes f) 0x10 =? 0)) K_EINVAL;;
  v <- vol;
  if nv_kind v =? 4 then
    raw <- ext_inode (f_cluster f);
    refuse (negb (rd32 raw 100 =? f_directory_offset f)) K_ENOENT;;
    let size := ext_size raw in
    if size <=? offset then aret []
    else
      runs <- ext_map (f_cluster f) raw;
      run_read runs offset (Z.min n (size - offset))
  else
    _ <- refreshed_size f;
    p <- ntfs_data (f_cluster f) offset n;
    aret (snd p).
Definition list_file (f : k_file) : Act unit :=
  v <- vol;
  _ <- (if nv_kind v =? 4 then ext_directory (f_cluster f) None else ntfs_directory (f_cluster f) None);
  aret tt.

(** * The check before a write: the volume is clean, and not hibernated *)
Definition ext_super_dirty (v : native_volume) (super : zmap) : bool :=
  negb (rd16 super 56 =? 0xef53) || negb (rd16 super 58 =? 1) || negb (Z.land (rd32 super 96) 4 =? 0) || negb (rd32 super 232 =? 0) ||
  negb (bool_decide (bytes_at super 104 16 = bytes_at (nv_super v) 104 16)).
Definition ext_clean : Act unit :=
  v <- vol;
  data <- native_bytes 1024 1024;
  let super := buffer data in
  refuse (ext_super_dirty v super) K_EROFS;;
  refuse (nv_csum v && negb (crc32c_step 0xffffffff (bytes_at super 0 1020) =? rd32 super 1020)) K_EIO.
(** The information record of an NTFS volume: the record, and where its value is. *)
Definition volume_information : Act (zmap * Z * Z) :=
  rec <- ntfs_record 3;
  p <- lift_loop (ntfs_attr rec 0x70 []);
  q <- lift (ntfs_value rec (fst p) (snd p));
  aret (rec, fst q, snd q).
Definition not_hibernated : Act unit :=
  r <- catch (ntfs_directory 5 (Some HIBERFIL));
  match r with
  | inr (Some hiber) =>
      header <- catch (read_file hiber 0 4096);
      match header with
      | inl _ => fails K_EROFS
      | inr header => refuse (existsb (fun b => negb (b =? 0)) header) K_EROFS
      end
  | inr None => fails K_EROFS
  | inl e => refuse (negb (e =? K_ENOENT)) K_EROFS
  end.
Definition ntfs_clean : Act unit :=
  x <- volume_information;
  let '(rec, value, n) := x in
  refuse ((n <? 12) || negb (rd16 rec (value + 10) =? 0)) K_EROFS;;
  not_hibernated.
Definition native_clean : Act unit :=
  v <- vol;
  refuse (nv_read_only v || nv_failed v) K_EROFS;;
  (if nv_kind v =? 4 then ext_clean else ntfs_clean);;
  flush_disk.

(** * Recognising a volume *)
Definition ntfs_geometry (boot : zmap) (v : native_volume) : option native_volume :=
  let bps := rd16 boot 11 in
  let spc := zget boot 13 in
  let sectors := rd64 boot 40 in
  let mft := rd64 boot 48 in
  if negb (bps =? nv_sector v) || negb (power2 spc) || (128 <? spc) || (sectors =? 0) || (nv_length v <? sectors) ||
     negb (zget boot 510 =? 0x55) || negb (zget boot 511 =? 0xaa) then None
  else
    let block := bps * spc in
    let blocks := sectors / spc in
    let rs := signed8 (zget boot 64) in
    let is_ := signed8 (zget boot 68) in
    if (rs =? 0) || (is_ =? 0) || (rs <? -12) || (is_ <? -12) then None
    else
      let record := unit_size block (zget boot 64) in
      let index := unit_size block (zget boot 68) in
      if negb (power2 record) || (record <? 512) || (4096 <? record) || negb (power2 index) || (index <? 512) || (4096 <? index) ||
         (mft =? 0) || (blocks <=? mft) then None
      else Some (v <| nv_block := block |> <| nv_blocks := blocks |> <| nv_record_size := record |> <| nv_index_size := index |>).
Definition probe_ntfs (boot : zmap) : Act unit :=
  on_vol (fun v => v <| nv_kind := 5 |> <| nv_super := boot |>);;
  v <- vol;
  match ntfs_geometry boot v with
  | None => fails K_ENOTSUP
  | Some w =>
      on_vol (fun _ => w);;
      data <- native_bytes (u64 (rd64 boot 48 * nv_block w)) (nv_record_size w);
      rec <- lift (ntfs_fixup (buffer data) (nv_record_size w) FILE_MAGIC);
      refuse ((nv_record_size w <? rd32 rec 24) || (rd16 rec 20 <? 48) || (rd32 rec 24 <? rd16 rec 20)) K_EIO;;
      p <- lift_loop (ntfs_attr rec 0x80 []);
      let '(a, length) := p in
      runs <- lift_loop (ntfs_runs w rec a length);
      let size := rd64 rec (a + 56) in
      on_vol (fun v => v <| nv_mft := runs |> <| nv_mft_size := size |>);;
      refuse (size <? nv_record_size w * 24) K_ENOTSUP;;
      refuse (0xffffffff <? size / nv_record_size w) K_ENOTSUP;;
      on_vol (fun v => v <| nv_mft_count := size / nv_record_size w |>)
  end.
Definition ext_fields (s : zmap) (v : native_volume) : native_volume :=
  let incompat := rd32 s 96 in
  v <| nv_kind := 4 |> <| nv_block := Z.shiftl 1024 (rd32 s 24) |>
    <| nv_blocks := Z.lor (rd32 s 4) (if Z.land incompat 0x80 =? 0 then 0 else Z.shiftl (rd32 s 336) 32) |>
    <| nv_inode_size := if rd32 s 76 =? 0 then 128 else rd16 s 88 |>
    <| nv_inodes := rd32 s 0 |> <| nv_blocks_per_group := rd32 s 32 |> <| nv_inodes_per_group := rd32 s 40 |>
    <| nv_desc_size := if Z.land incompat 0x80 =? 0 then 32 else rd16 s 254 |>
    <| nv_csum := negb (Z.land (rd32 s 100) 0x400 =? 0) |> <| nv_gdt_csum := negb (Z.land (rd32 s 100) 0x10 =? 0) |>.
Definition ext_fields_bad (s : zmap) (w : native_volume) : bool :=
  (nv_blocks w =? 0) || (u64 (nv_length w * nv_sector w) / nv_block w <? nv_blocks w) || (nv_inodes w =? 0) ||
  (nv_blocks_per_group w =? 0) || (8 * nv_block w <? nv_blocks_per_group w) || negb (nv_blocks_per_group w mod 8 =? 0) ||
  (nv_inodes_per_group w =? 0) || (8 * nv_block w <? nv_inodes_per_group w) || (nv_inode_size w <? 128) || (512 <? nv_inode_size w) ||
  negb (power2 (nv_inode_size w)) || (negb (nv_desc_size w =? 32) && negb (nv_desc_size w =? 64)) ||
  negb (rd32 s 20 =? if rd32 s 24 =? 0 then 1 else 0).
Definition ext_groups (s : zmap) (w : native_volume) : Z := u64 (nv_blocks w - rd32 s 20 + nv_blocks_per_group w - 1) / nv_blocks_per_group w.
Definition ext_seed (s : zmap) : Z := if Z.land (rd32 s 96) 0x2000 =? 0 then crc32c_step 0xffffffff (bytes_at s 104 16) else rd32 s 624.
Definition ext_sum_bad (s : zmap) (w : native_volume) : bool :=
  nv_csum w && (negb (zget s 373 =? 1) || negb (crc32c_step 0xffffffff (bytes_at s 0 1020) =? rd32 s 1020)).
Definition ext_read_only (s : zmap) : bool :=
  negb (Z.land (rd32 s 100) (u32 (Z.lnot 0x47b)) =? 0) || negb (rd16 s 58 =? 1) || negb (Z.land (rd32 s 96) 4 =? 0) || negb (rd32 s 232 =? 0).
Definition ext_geometry (s : zmap) (v : native_volume) : Z + native_volume :=
  let log := rd32 s 24 in
  if (2 <? log) || (1 <? rd32 s 76) || negb (Z.land (rd32 s 96) (u32 (Z.lnot 0x22c6)) =? 0) || negb (rd32 s 28 =? log) then inl K_ENOTSUP
  else
    let w := ext_fields s v in
    if ext_fields_bad s w then inl K_ENOTSUP
    else
      let groups := ext_groups s w in
      if (groups =? 0) || (65536 <? groups) || (groups * nv_inodes_per_group w <? nv_inodes w) then inl K_ENOTSUP
      else
        let w := w <| nv_groups := groups |> <| nv_csum_seed := ext_seed s |> in
        if ext_sum_bad s w then inl K_EIO
        else inr (if ext_read_only s then w <| nv_read_only := true |> else w).
Definition probe_ext : Act unit :=
  data <- native_bytes 1024 1024;
  let s := buffer data in
  on_vol (fun v => v <| nv_super := s |>);;
  refuse (negb (rd16 s 56 =? 0xef53)) K_ENOTSUP;;
  v <- vol;
  w <- lift (ext_geometry s v);
  on_vol (fun _ => w).
(** [native_probe] up to the volume's directory, on a fresh volume. *)
Definition probe_volume : Act unit :=
  boot <- native_bytes 0 512;
  if bool_decide (bytes_at (buffer boot) 3 8 = NTFS_ID) then probe_ntfs (buffer boot) else probe_ext.
End NativeRead.
