(* ===== verification/ExtWrite.v ===== *)
(** Writing ext4 volumes, [src/kernel-src/fs/fs.c] (lines 2985-3616).  A change
    is staged: [nx_tx] holds copies of the blocks it touches, allocation and
    metadata edits work on the copies, and [ext_commit] writes the data, then
    the staged blocks, with the superblock marked dirty meanwhile.  A pointer
    into a staged block is its slot and an offset, so that two pointers into
    one block see each other's writes. *)
From S2P Require Import Prelude Klib Pmm PageAlloc Path Disk State Fat Native Ext Ntfs NativeRead.

Definition EXT_TX_BLOCKS : Z := 128.
Definition EXT_MAX : Z := 4 * 1024 * 1024.

(** * Edits of descriptors, bitmaps and inodes *)
Definition ext_desc_checksum (v : native_volume) (group : Z) (d : zmap) (off : Z) : zmap :=
  match group_sum v group (buffer (bytes_at (wr16 d (off + 30) 0) off (nv_desc_size v))) with
  | Some crc => wr16 (wr16 d (off + 30) 0) (off + 30) crc
  | None => wr16 d (off + 30) 0
  end.
Definition bit_at (b : zmap) (bit : Z) : bool := negb (Z.land (zget b (bit / 8)) (Z.shiftl 1 (bit mod 8)) =? 0).
Definition put_bit (b : zmap) (bit : Z) (value : bool) : zmap :=
  zput b (bit / 8) (if value then Z.lor (zget b (bit / 8)) (Z.shiftl 1 (bit mod 8)) else Z.land (zget b (bit / 8)) (u8 (Z.lnot (Z.shiftl 1 (bit mod 8))))).
(** A counter of a descriptor: its upper half is there in the 64-byte form. *)
Definition desc_count (v : native_volume) (d : zmap) (off low high : Z) : Z :=
  Z.lor (rd16 d (off + low)) (if nv_desc_size v =? 64 then Z.shiftl (rd16 d (off + high)) 16 else 0).
Definition put_count (v : native_volume) (off low high n : Z) (d : zmap) : zmap :=
  let d := wr16 d (off + low) (u16 n) in
  if nv_desc_size v =? 64 then wr16 d (off + high) (u16 (Z.shiftr n 16)) else d.
Definition ext_set_size (raw : zmap) (size : Z) : zmap := wr32 (wr32 raw 4 (u32 size)) 108 (u32 (Z.shiftr size 32)).
Definition ext_inode_checksum (v : native_volume) (ino : Z) (raw : zmap) : zmap :=
  if negb (nv_csum v) then raw
  else
    let cleared := clear_sum v raw in
    let crc := inode_sum v ino cleared in
    let raw := wr16 cleared 124 (u16 crc) in
    if high_sum v cleared then wr16 raw 130 (u16 (Z.shiftr crc 16)) else raw.
Definition inline_run (raw : zmap) (i : Z) (r : native_run) : zmap :=
  let at_ := 52 + 12 * i in
  wr32 (wr16 (wr16 (wr32 raw at_ (u32 (run_logical r))) (at_ + 4) (u16 (run_length r))) (at_ + 6) (u16 (Z.shiftr (run_physical r) 32)))
    (at_ + 8) (u32 (run_physical r)).
Definition run_blocks (runs : list native_run) : Z := foldl (fun n r => n + run_length r) 0 runs.
Definition ext_inline_map (raw : zmap) (runs : list native_run) (blocksize : Z) : zmap :=
  let raw := mem_zero raw 40 60 in
  let raw := wr16 (wr16 (wr16 raw 40 0xf30a) 42 (u16 (Z.of_nat (length runs)))) 44 4 in
  let raw := fold_left (fun raw x => inline_run raw (Z.of_nat (fst x)) (snd x)) (imap pair runs) raw in
  let raw := wr32 raw 32 (Z.lor (rd32 raw 32) EXTENTS_FL) in
  let raw := wr32 raw 28 (u32 (run_blocks runs * (blocksize / 512))) in
  wr16 raw 116 0.
(** The groups that have a copy of the superblock. *)
Fixpoint divided (fuel : nat) (n base : Z) : Z :=
  match fuel with
  | O => n
  | S fuel => if (1 <? n) && (n mod base =? 0) then divided fuel (n / base) base else n
  end.
Definition ext_has_super (v : native_volume) (group : Z) : bool :=
  let compat := rd32 (nv_super v) 92 in
  let roc := rd32 (nv_super v) 100 in
  if group =? 0 then true
  else if negb (Z.land compat 0x200 =? 0) then (group =? rd32 (nv_super v) 588) || (group =? rd32 (nv_super v) 592)
  else if (Z.land roc 1 =? 0) || (group =? 1) then true
  else existsb (fun base => divided 32 group base =? 1) [3; 5; 7].

Section ExtWrite.
Context {St D : Type} `{PageSource St} `{Disks D}.
#[local] Abbreviation Act := (Act St D).
#[local] Open Scope native_scope.

(** * Staged blocks *)
Definition tx_block (slot : nat) : Act zmap := l <- staged; aret (snd (nth slot l (0, ∅))).
Definition tx_modify (slot : nat) (f : zmap -> zmap) : Act unit := on_staged (alter (fun x => (fst x, f (snd x))) slot).
Fixpoint find_staged (number : Z) (l : list (Z * zmap)) : option nat :=
  match l with
  | [] => None
  | x :: l => if fst x =? number then Some O else S <$> find_staged number l
  end.
Definition ext_tx_get (block : Z) : Act nat :=
  v <- vol;
  refuse (nv_blocks v <=? block) K_EIO;;
  l <- staged;
  match find_staged block l with
  | Some slot => aret slot
  | None =>
      refuse (Z.of_nat (length l) =? EXT_TX_BLOCKS) K_E2BIG;;
      data <- native_bytes (u64 (block * nv_block v)) (nv_block v);
      on_staged (fun l => l ++ [(block, buffer data)]);;
      aret (length l)
  end.
(** The staged copy of a descriptor, its group checked on the disk; of the superblock; of a bitmap with its descriptor. *)
Definition ext_tx_desc (group : Z) : Act (nat * Z) :=
  v <- vol;
  _ <- ext_group group;
  let at_ := u64 (desc_table v + group * nv_desc_size v) in
  slot <- ext_tx_get (at_ / nv_block v);
  aret (slot, at_ mod nv_block v).
Definition ext_tx_super : Act (nat * Z) :=
  v <- vol;
  slot <- ext_tx_get (1024 / nv_block v);
  aret (slot, 1024 mod nv_block v).
Definition per_group (v : native_volume) (inode : bool) : Z := if inode then nv_inodes_per_group v else nv_blocks_per_group v.
Definition bitmap_sum_ok (v : native_volume) (inode : bool) (d : zmap) (off : Z) (b : zmap) : bool :=
  let wanted := desc_count v d off (if inode then 26 else 24) (if inode then 58 else 56) in
  let crc := crc32c_step (nv_csum_seed v) (bytes_at b 0 (per_group v inode / 8)) in
  (if nv_desc_size v =? 64 then crc else u16 crc) =? wanted.
Definition uninitialized (d : zmap) (off : Z) (inode : bool) : bool := negb (Z.land (rd16 d (off + 18)) (if inode then 1 else 2) =? 0).
(** [ext_desc_block] of a descriptor that starts at [off]. *)
Definition desc_block_at (v : native_volume) (d : zmap) (off field : Z) : Z :=
  Z.lor (rd32 d (off + field)) (if nv_desc_size v =? 64 then Z.shiftl (rd32 d (off + field + 32)) 32 else 0).
Definition ext_tx_bitmap (group : Z) (inode : bool) : Act (nat * Z * nat) :=
  v <- vol;
  p <- ext_tx_desc group;
  let '(slot, off) := p in
  d <- tx_block slot;
  refuse (uninitialized d off inode) K_ENOTSUP;;
  bslot <- ext_tx_get (desc_block_at v d off (if inode then 4 else 0));
  b <- tx_block bslot;
  refuse (nv_csum v && negb (bitmap_sum_ok v inode d off b)) K_EIO;;
  aret (slot, off, bslot).

(** * Allocation *)
Definition tx_first (v : native_volume) (inode : bool) : Z := if inode then 1 else rd32 (nv_super v) 20.
(** The count of unused inodes shrinks when one of them is taken. *)
Definition take_unused (v : native_volume) (off now : Z) (d : zmap) : zmap :=
  let unused := desc_count v d off 28 50 in
  if now <? unused then put_count v off 28 50 now d else d.
Definition super_free (inode : bool) (off : Z) (s : zmap) : Z :=
  if inode then rd32 s (off + 16)
  else Z.lor (rd32 s (off + 12)) (if Z.land (rd32 s (off + 96)) 0x80 =? 0 then 0 else Z.shiftl (rd32 s (off + 344)) 32).
Definition put_super_free (inode : bool) (off n : Z) (s : zmap) : zmap :=
  if inode then wr32 s (off + 16) n
  else
    let s := wr32 s (off + 12) (u32 n) in
    if Z.land (rd32 s (off + 96)) 0x80 =? 0 then s else wr32 s (off + 344) (u32 (Z.shiftr n 32)).
Definition count_super (inode allocate : bool) : Act unit :=
  v <- vol;
  p <- ext_tx_super;
  let '(slot, off) := p in
  s <- tx_block slot;
  let n := super_free inode off s in
  refuse ((allocate && (n =? 0)) || (negb allocate && (n =? if inode then nv_inodes v else nv_blocks v))) K_EIO;;
  tx_modify slot (put_super_free inode off (if allocate then n - 1 else n + 1)).
Definition ext_tx_bit (number : Z) (inode allocate : bool) : Act unit :=
  v <- vol;
  let first := tx_first v inode in
  let per := per_group v inode in
  refuse (number <? first) K_EIO;;
  let group := u32 ((number - first) / per) in
  let bit := u32 ((number - first) mod per) in
  p <- ext_tx_bitmap group inode;
  let '(slot, off, bslot) := p in
  b <- tx_block bslot;
  refuse (Bool.eqb (bit_at b bit) allocate) K_EIO;;
  d <- tx_block slot;
  let low := if inode then 14 else 12 in
  let high := if inode then 46 else 44 in
  let free := desc_count v d off low high in
  refuse ((allocate && (free =? 0)) || (negb allocate && (per <=? free))) K_EIO;;
  tx_modify bslot (fun b => put_bit b bit allocate);;
  tx_modify slot (put_count v off low high (u32 (if allocate then free - 1 else free + 1)));;
  (if nv_csum v then
     b <- tx_block bslot;
     tx_modify slot (put_count v off (if inode then 26 else 24) (if inode then 58 else 56) (crc32c_step (nv_csum_seed v) (bytes_at b 0 (per / 8))))
   else aret tt);;
  (if inode && allocate then tx_modify slot (take_unused v off (u32 (per - bit - 1))) else aret tt);;
  tx_modify slot (fun d => ext_desc_checksum v group d off);;
  count_super inode allocate.
(** The first free one of a group; the search of the group ends at the last one of the volume. *)
Definition beyond (v : native_volume) (inode : bool) (n : Z) : bool := if inode then nv_inodes v <? n else nv_blocks v <=? n.
Definition group_free (v : native_volume) (inode : bool) (g : Z) (b : zmap) : option Z :=
  let number bit := u64 (g * per_group v inode + bit + tx_first v inode) in
  match find_range 0 (per_group v inode) (fun bit =>
          beyond v inode (number bit) || (negb (inode && (number bit <? rd32 (nv_super v) 84)) && negb (bit_at b bit))) with
  | Some bit => if beyond v inode (number bit) then None else Some (number bit)
  | None => None
  end.
Definition allocate_in (inode : bool) (g : Z) (_ : unit) : Act (flow unit Z) :=
  v <- vol;
  p <- ext_tx_desc g;
  let '(slot, off) := p in
  d <- tx_block slot;
  if uninitialized d off inode || (desc_count v d off (if inode then 14 else 12) (if inode then 46 else 44) =? 0) then aret (Next tt)
  else
    p <- ext_tx_bitmap g inode;
    b <- tx_block (snd p);
    match group_free v inode g b with
    | Some n => ext_tx_bit n inode true;; aret (Exit n)
    | None => aret (Next tt)
    end.
Definition ext_tx_allocate (inode : bool) : Act Z :=
  v <- vol;
  r <- a_range 0 (nv_groups v) (allocate_in inode) tt;
  match r with Exit n => aret n | Next _ => fails K_ENOSPC end.
Definition alloc_run (logical : Z) (runs : list native_run) : Act (list native_run) :=
  physical <- ext_tx_allocate false;
  let grown := match last runs with
               | Some l => if (u64 (run_physical l + run_length l) =? physical) && (run_length l <? 32768)
                           then Some (mk_run (run_logical l) (run_physical l) (run_length l + 1) (run_hole l)) else None
               | None => None
               end in
  match grown with
  | Some l => aret (take (length runs - 1) runs ++ [l])
  | None => refuse (Z.of_nat (length runs) =? 4) K_ENOSPC;; aret (runs ++ [mk_run logical physical 1 false])
  end.
Definition ext_alloc_runs (size : Z) : Act (list native_run) :=
  v <- vol;
  a_fold 0 (u64 (size + nv_block v - 1) / nv_block v) alloc_run [].
Definition ext_tx_inode (ino : Z) (raw : zmap) : Act unit :=
  v <- vol;
  p <- ext_tx_desc ((ino - 1) / nv_inodes_per_group v);
  let '(slot, off) := p in
  d <- tx_block slot;
  let pos := u64 (desc_block_at v d off 8 * nv_block v + (ino - 1) mod nv_inodes_per_group v * nv_inode_size v) in
  bslot <- ext_tx_get (pos / nv_block v);
  refuse (nv_block v - pos mod nv_block v <? nv_inode_size v) K_EIO;;
  tx_modify bslot (write_bytes (pos mod nv_block v) (bytes_at (ext_inode_checksum v ino raw) 0 (nv_inode_size v))).

(** * Where data may not be *)
Definition group_areas (v : native_volume) (g : Z) (d : zmap) : list (Z * Z) :=
  [(ext_desc_block v d 0, 1); (ext_desc_block v d 4, 1); (ext_desc_block v d 8, table_blocks v);
   (u64 (rd32 (nv_super v) 20 + g * nv_blocks_per_group v),
    if ext_has_super v g then 1 + u64 (nv_groups v * nv_desc_size v + nv_block v - 1) / nv_block v + rd16 (nv_super v) 206 else 0)].
Definition meets (start len : Z) (r : native_run) : bool := negb (run_hole r) && overlap (run_physical r) (run_length r) start len.
Definition area_bad (v : native_volume) (runs : list native_run) (a : Z * Z) : bool :=
  negb (snd a =? 0) && (negb (span_ok (fst a) (snd a) (nv_blocks v)) || existsb (meets (fst a) (snd a)) runs).
Definition journal_runs : Act (list native_run) :=
  v <- vol;
  let ino := rd32 (nv_super v) 224 in
  raw <- ext_inode ino;
  ext_map ino raw.
Definition has_journal (v : native_volume) : bool := negb (Z.land (rd32 (nv_super v) 92) 4 =? 0).
Definition ext_data_boundaries (runs : list native_run) : Act unit :=
  v <- vol;
  a_for 0 (nv_groups v) (fun g => d <- ext_group g; refuse (existsb (area_bad v runs) (group_areas v g d)) K_EIO);;
  if has_journal v then
    jr <- journal_runs;
    refuse (existsb (fun r => existsb (run_overlap r) jr) runs) K_EIO
  else aret tt.
Definition journal_busy (j : zmap) : bool :=
  negb (zget j 0 =? 0xc0) || negb (zget j 1 =? 0x3b) || negb (zget j 2 =? 0x39) || negb (zget j 3 =? 0x98) || negb (zget j 7 =? 4) || negb (rd32 j 28 =? 0).
Definition ext_prepare_metadata : Act unit :=
  native_clean;;
  v <- vol;
  refuse (negb (Z.land (rd32 (nv_super v) 92) (u32 (Z.lnot 0x23c)) =? 0) || negb (Z.land (rd32 (nv_super v) 100) (u32 (Z.lnot 0x47b)) =? 0) ||
          negb (rd32 (nv_super v) 228 =? 0) || (Z.land (rd32 (nv_super v) 96) 2 =? 0)) K_ENOTSUP;;
  (if has_journal v then
     runs <- journal_runs;
     journal <- run_read runs 0 32;
     refuse (journal_busy (buffer journal)) K_EROFS
   else aret tt);;
  on_staged (fun _ => []).

(** * Committing: the superblock is dirty while data and metadata are written *)
Definition mark_state (v : native_volume) (state : Z) (off : Z) (s : zmap) : zmap :=
  let s := wr16 s (off + 58) state in
  if nv_csum v then wr32 s (off + 1020) (crc32c_step 0xffffffff (bytes_at s off 1020)) else s.
Definition data_block (data : list Z) (offset block : Z) : list Z :=
  let n := if offset <? zlen data then Z.min (zlen data - offset) block else 0 in
  take (Z.to_nat n) (drop (Z.to_nat offset) data) ++ replicate (Z.to_nat (block - n)) 0.
Definition write_fresh (data : list Z) (r : native_run) (offset : Z) : Act Z :=
  v <- vol;
  a_fold 0 (run_length r) (fun j offset =>
    native_write_bytes (u64 ((run_physical r + j) * nv_block v)) (data_block data offset (nv_block v));;
    aret (if offset <? zlen data then offset + Z.min (zlen data - offset) (nv_block v) else offset)) offset.
Definition write_data (fresh : list native_run) (data : list Z) : Act unit :=
  _ <- a_fold 0 (Z.of_nat (length fresh)) (fun i => write_fresh data (nth (Z.to_nat i) fresh (mk_run 0 0 0 true))) 0;
  aret tt.
Definition write_staged : Act unit :=
  v <- vol;
  l <- staged;
  a_each l (fun x => native_write_bytes (u64 (fst x * nv_block v)) (bytes_at (snd x) 0 (nv_block v))).
Definition freeze {A} (e : Z) : Act A := on_vol (fun v => v <| nv_failed := true |>);; fails e.
Definition ext_commit (fresh : list native_run) (data : list Z) : Act unit :=
  v <- vol;
  p <- ext_tx_super;
  let '(slot, off) := p in
  native_write_bytes 1024 (bytes_at (mark_state v 0 0 (nv_super v)) 0 1024);;
  r <- catch (write_data fresh data;; tx_modify slot (mark_state v 0 off);; write_staged);
  match r with
  | inl e => freeze e
  | inr _ =>
      tx_modify slot (mark_state v 1 off);;
      s <- tx_block slot;
      r <- catch (native_write_bytes 1024 (bytes_at s off 1024));
      match r with
      | inl e => freeze e
      | inr _ => on_vol (fun v => v <| nv_super := buffer (bytes_at s off 1024) |>)
      end
  end.

(** * Replacing the contents of a file *)
Definition ext_fixed (v : native_volume) (f : k_file) (raw : zmap) : bool :=
  negb (Z.land (rd16 raw 0) 0xf000 =? 0x8000) || (f_cluster f <? rd32 (nv_super v) 84) || negb (rd16 raw 26 =? 1) ||
  negb (rd32 raw 100 =? f_directory_offset f) || negb (rd32 raw 32 =? EXTENTS_FL) || negb (rd16 raw 46 =? 0) || negb (rd32 raw 104 =? 0) ||
  negb (rd16 raw 118 =? 0).
Definition any_overlap (old fresh : list native_run) : bool :=
  existsb (fun o => existsb (fun n => overlap (run_physical o) (run_length o) (run_physical n) (run_length n)) fresh) old.
Definition ext_replace (f : k_file) (data : list Z) : Act unit :=
  v <- vol;
  let size := zlen data in
  refuse (EXT_MAX <? size) K_E2BIG;;
  raw <- ext_inode (f_cluster f);
  refuse (ext_fixed v f raw) K_ENOTSUP;;
  old <- ext_map (f_cluster f) raw;
  ext_data_boundaries old;;
  ext_prepare_metadata;;
  fresh <- ext_alloc_runs size;
  ext_data_boundaries fresh;;
  refuse (any_overlap old fresh) K_EIO;;
  a_each old (fun r => a_for 0 (run_length r) (fun j => ext_tx_bit (u64 (run_physical r + j)) false false));;
  ext_tx_inode (f_cluster f) (ext_set_size (ext_inline_map raw fresh (nv_block v)) size);;
  ext_commit fresh data.

(** * Creating a file *)
Definition record_size (namelen : Z) : Z := Z.land (8 + namelen + 3) (Z.lnot 3).
(** The record of a block that has room, with the bytes it uses itself. *)
Fixpoint dirent_room (fuel : nat) (b : zmap) (limit needed at_ : Z) : option (Z + option (Z * Z * Z)) :=
  if limit <=? at_ then Some (inr None)
  else if limit - at_ <? 8 then Some (inl K_EIO)
  else
    let rec := rd16 b (at_ + 4) in
    let len := zget b (at_ + 6) in
    if (rec <? 8) || negb (Z.land rec 3 =? 0) || (limit - at_ <? rec) || (rec - 8 <? len) then Some (inl K_EIO)
    else
      let used := if rd32 b at_ =? 0 then 0 else record_size len in
      if needed <=? rec - used then Some (inr (Some (at_, rec, used)))
      else match fuel with O => None | S fuel => dirent_room fuel b limit needed (at_ + rec) end.
Definition put_dirent (name : cstr) (inode : Z) (directory : bool) (at_ rec used : Z) (b : zmap) : zmap :=
  let target := at_ + used in
  let b := if used =? 0 then b else wr16 b (at_ + 4) (u16 used) in
  let b := mem_zero b target (rec - used) in
  let b := wr16 (wr32 b target inode) (target + 4) (u16 (rec - used)) in
  let b := zput (zput b (target + 6) (u8 (zlen name))) (target + 7) (if directory then 2 else 1) in
  write_bytes (target + 8) name b.
Definition tail_bad (b : zmap) (limit seed : Z) : bool :=
  negb (rd32 b limit =? 0) || negb (rd16 b (limit + 4) =? 12) || negb (zget b (limit + 7) =? 0xde) ||
  negb (crc32c_step seed (bytes_at b 0 limit) =? rd32 b (limit + 8)).
Definition add_in_block (seed : Z) (name : cstr) (inode : Z) (directory : bool) (r : native_run) (j : Z) (_ : unit) : Act (flow unit unit) :=
  v <- vol;
  refuse (run_hole r) K_EIO;;
  slot <- ext_tx_get (u64 (run_physical r + j));
  b <- tx_block slot;
  let limit := nv_block v - (if nv_csum v then 12 else 0) in
  refuse (nv_csum v && tail_bad b limit seed) K_EIO;;
  found <- lift_loop (dirent_room (Z.to_nat limit) b limit (record_size (zlen name)) 0);
  match found with
  | None => aret (Next tt)
  | Some (at_, rec, used) =>
      tx_modify slot (put_dirent name inode directory at_ rec used);;
      b <- tx_block slot;
      (if nv_csum v then tx_modify slot (fun b' => wr32 b' (limit + 8) (crc32c_step seed (bytes_at b 0 limit))) else aret tt);;
      aret (Exit tt)
  end.
Fixpoint add_in_runs (seed : Z) (name : cstr) (inode : Z) (directory : bool) (runs : list native_run) : Act unit :=
  match runs with
  | [] => fails K_ENOSPC
  | r :: runs =>
      x <- a_range 0 (run_length r) (add_in_block seed name inode directory r) tt;
      match x with Exit _ => aret tt | Next _ => add_in_runs seed name inode directory runs end
  end.
Definition ext_add_dirent (parent : Z) (raw : zmap) (name : cstr) (inode : Z) (directory : bool) : Act unit :=
  v <- vol;
  refuse ((zlen name =? 0) || (255 <? zlen name) || negb (rd32 raw 32 =? EXTENTS_FL) || negb (rd16 raw 46 =? 0)) K_ENOTSUP;;
  runs <- ext_map parent raw;
  refuse ((NATIVE_SCAN_MAX <? ext_size raw) || negb (ext_size raw mod nv_block v =? 0)) K_ENOTSUP;;
  add_in_runs (ext_inode_seed v parent raw) name inode directory runs.
(** The parent and the name of a path: what is before and after its last slash. *)
Definition split_name (path : cstr) : cstr * cstr :=
  let path := take (Z.to_nat (K_PATH_MAX - 1)) path in
  let split := after_slash path (length path) in
  (take (split - 1) path, drop split path).
Definition new_inode (v : native_volume) (directory : bool) (generation : Z) : zmap :=
  let raw := wr16 ∅ 0 (if directory then 0x41ed else 0x81a4) in
  let raw := wr16 raw 26 (if directory then 2 else 1) in
  let raw := wr32 raw 100 generation in
  if 160 <=? nv_inode_size v then wr16 raw 128 32 else raw.
(** The first block of a directory: itself and its parent. *)
Definition dot_block (v : native_volume) (inode parent : Z) (raw : zmap) : list Z :=
  let limit := nv_block v - (if nv_csum v then 12 else 0) in
  let b := wr16 (wr32 ∅ 0 (u32 inode)) 4 12 in
  let b := zput (zput (zput b 6 1) 7 2) 8 DOT in
  let b := wr16 (wr32 b 12 parent) 16 (u16 (limit - 12)) in
  let b := zput (zput (zput (zput b 18 2) 19 2) 20 DOT) 21 DOT in
  let b := if nv_csum v then
             let b := zput (wr16 b (limit + 4) 12) (limit + 7) 0xde in
             wr32 b (limit + 8) (crc32c_step (ext_inode_seed v (u32 inode) raw) (bytes_at b 0 limit))
           else b in
  bytes_at b 0 (nv_block v).
(** One more directory in the group of its inode. *)
Definition count_directory (inode : Z) : Act unit :=
  v <- vol;
  let g := (u32 inode - 1) / nv_inodes_per_group v in
  p <- ext_tx_desc g;
  let '(slot, off) := p in
  d <- tx_block slot;
  let used := desc_count v d off 16 48 in
  refuse (nv_inodes_per_group v <=? used) K_EIO;;
  tx_modify slot (put_count v off 16 48 (used + 1));;
  tx_modify slot (fun d => ext_desc_checksum v g d off).
Definition absent (look : Act (option k_file)) : Act unit :=
  r <- catch look;
  match r with inr _ => fails K_EEXIST | inl e => refuse (negb (e =? K_ENOENT)) e end.
(** [cycles] is what the processor's cycle counter reads. *)
Definition ext_create (cycles : Z) (path : cstr) (directory : bool) (data : list Z) : Act k_file :=
  refuse (EXT_MAX <? zlen data) K_EINVAL;;
  v <- vol;
  index <- volume_index;
  let '(parent_path, name) := split_name path in
  parent <- open_path parent_path;
  refuse (Z.land (f_attributes parent) 0x10 =? 0) K_EINVAL;;
  absent (ext_directory (f_cluster parent) (Some name));;
  praw <- ext_inode (f_cluster parent);
  refuse (65000 <=? rd16 praw 26) K_E2BIG;;
  ext_prepare_metadata;;
  inode <- ext_tx_allocate true;
  let raw := new_inode v directory (u32 (Z.lxor cycles inode)) in
  let stored := if directory then nv_block v else zlen data in
  fresh <- ext_alloc_runs stored;
  ext_data_boundaries fresh;;
  parent_runs <- ext_map (f_cluster parent) praw;
  refuse (any_overlap parent_runs fresh) K_EIO;;
  let raw := ext_set_size (ext_inline_map raw fresh (nv_block v)) stored in
  let initial := if directory then dot_block v inode (f_cluster parent) raw else data in
  let praw := if directory then wr16 praw 26 (u16 (rd16 praw 26 + 1)) else praw in
  (if directory then count_directory inode else aret tt);;
  ext_add_dirent (f_cluster parent) praw name (u32 inode) directory;;
  ext_tx_inode (u32 inode) raw;;
  ext_tx_inode (f_cluster parent) praw;;
  ext_commit fresh initial;;
  aret (mk_file 4 index (u32 inode) (if directory then 0x10 else 0) stored (rd32 raw 100)).
End ExtWrite.
