(* ===== verification/NtfsWrite.v ===== *)
(** Writing NTFS volumes, [src/kernel-src/fs/fs.c] (the writing half of
    2187-2263, 2264-2397 and 3618-4431).  A write within a file goes straight
    to its clusters; replacing or creating a file stages sectors ([nx_tx]) as
    [ExtWrite] stages blocks.  No record, index or MFT is extended. *)
From S2P Require Import Prelude Klib Pmm PageAlloc Path Disk State Fat Native Ext Ntfs NativeRead ExtWrite.

Definition NT_TX_SECTORS : Z := 128.

(** * Packing a record: the inverse of [ntfs_fixup] *)
Definition next_sequence (sequence : Z) : Z := let s := u16 (sequence + 1) in if (s =? 0) || (s =? 0xffff) then 1 else s.
Definition pack_step (usa sequence i : Z) (raw : zmap) : zmap := wr16 (wr16 raw (usa + i * 2) (rd16 raw (i * 512 - 2))) (i * 512 - 2) sequence.
Definition ntfs_pack (raw : zmap) (usa count : Z) : zmap :=
  let sequence := next_sequence (rd16 raw usa) in
  fold_range 1 count (pack_step usa sequence) (wr16 raw usa sequence).

(** * Attributes *)
Definition resident_offset (name : cstr) : Z := Z.land (24 + zlen name * 2 + 7) (Z.lnot 7).
(** [nt_resident_attr]: the bytes it writes. *)
Definition nt_resident_attr (type instance : Z) (name : cstr) (value : list Z) : list Z :=
  let off := resident_offset name in
  let len := Z.land (off + zlen value + 7) (Z.lnot 7) in
  let out := wr32 (wr32 ∅ 0 type) 4 len in
  let out := wr16 (zput out 9 (u8 (zlen name))) 10 (if zlen name =? 0 then 0 else 24) in
  let out := wr16 (wr32 (wr16 out 14 instance) 16 (zlen value)) 20 (u16 off) in
  let out := fold_left (fun out x => wr16 out (24 + Z.of_nat (fst x) * 2) (snd x)) (imap pair name) out in
  bytes_at (write_bytes off value out) 0 len.
(** The bytes that the length and the first cluster of a run take; the cluster is signed. *)
Fixpoint width (fuel : nat) (x shift n : Z) : Z :=
  match fuel with
  | O => n
  | S fuel => if (n <? 8) && negb (Z.shiftr x (n * 8 - shift) =? 0) then width fuel x shift (n + 1) else n
  end.
Definition put_le (at_ : Z) (n x : Z) (m : zmap) : zmap := fold_range 0 n (fun i m => zput m (at_ + i) (u8 (Z.shiftr x (8 * i)))) m.
Definition nt_data_attribute (block id : Z) (run : native_run) (size : Z) : list Z :=
  if size =? 0 then nt_resident_attr 0x80 id [] []
  else
    let len := run_length run in
    let lcn := run_physical run in
    let lb := width 7 len 0 1 in
    let ob := width 7 lcn 1 1 in
    let bytes := Z.land (64 + 1 + lb + ob + 1 + 7) (Z.lnot 7) in
    let out := zput (wr32 (wr32 ∅ 0 0x80) 4 bytes) 8 1 in
    let out := wr16 (wr64 (wr16 out 14 id) 24 (u64 (len - 1))) 32 64 in
    let out := wr64 (wr64 (wr64 out 40 (u64 (len * block))) 48 size) 56 size in
    let out := zput out 64 (u8 (Z.lor lb (Z.shiftl ob 4))) in
    bytes_at (put_le (65 + lb) ob lcn (put_le 65 lb len out)) 0 bytes.
(** The attribute at [at_] of a record replaced by [new]. *)
Definition nt_attr_replace (record_size : Z) (raw : zmap) (at_ oldlen : Z) (new : list Z) : Z + zmap :=
  let used := rd32 raw 24 in
  let newlen := zlen new in
  if (at_ <? rd16 raw 20) || (used <? at_) || (used - at_ <? oldlen) || negb (Z.land newlen 7 =? 0) || (record_size - (used - oldlen) <? newlen)
  then inl K_ENOSPC
  else
    let raw := memmove raw (at_ + newlen) (at_ + oldlen) (used - at_ - oldlen) in
    inr (wr32 (write_bytes at_ new raw) 24 (u32 (used - oldlen + newlen))).
Definition nt_record_append (record_size : Z) (raw : zmap) (attribute : list Z) : Z + zmap :=
  let used := rd32 raw 24 in
  let n := zlen attribute in
  if (used <? 4) || (record_size <? used) || (record_size - used <? n) then inl K_ENOSPC
  else if (used <? 8) || negb (rd32 raw (used - 8) =? 0xffffffff) then inl K_EIO
  else
    let raw := mem_zero (write_bytes (used - 8) attribute raw) (used - 8 + n) 8 in
    inr (wr32 (wr32 raw (used - 8 + n) 0xffffffff) 24 (used + n)).

(** * Names and index entries *)
Fixpoint nt_name_compare (a b : cstr) : Z :=
  match a, b with
  | x :: a, y :: b => if upper x =? upper y then nt_name_compare a b else if upper x <? upper y then -1 else 1
  | _ :: _, [] => 1
  | [], _ :: _ => -1
  | [], [] => 0
  end.
Inductive index_scan := At_equal (at_ keylen : Z) | At_place (at_ len flags : Z).
(** The entry of a node that ends the search for [name]: its own, or the one before which it belongs. *)
Fixpoint scan_index (fuel : nat) (rec : zmap) (header used : Z) (name : cstr) (at_ : Z) : option (Z + index_scan) :=
  if used <? at_ + 16 then Some (inl K_EIO)
  else
    let e := header + at_ in
    let n := rd16 rec (e + 8) in
    let k := rd16 rec (e + 10) in
    let flags := rd16 rec (e + 12) in
    if entry_bad rec e n k flags (used - at_) then Some (inl K_EIO)
    else if negb (Z.land flags 2 =? 0) then Some (inr (At_place at_ n flags))
    else
      match ntfs_name rec (e + 16) k with
      | inl _ => Some (inl K_ENOTSUP)
      | inr existing =>
          let cmp := nt_name_compare name existing in
          if cmp =? 0 then Some (inr (At_equal at_ k))
          else if cmp <? 0 then Some (inr (At_place at_ n flags))
          else match fuel with O => None | S fuel => scan_index fuel rec header used name (at_ + n) end
      end.
(** An entry of [need] bytes inserted at [at_] of the node at [h]. *)
Definition insert_entry (h at_ need used reference : Z) (filename : list Z) (m : zmap) : zmap :=
  let m := memmove m (h + at_ + need) (h + at_) (used - at_) in
  let m := mem_zero m (h + at_) need in
  let m := wr16 (wr16 (wr64 m (h + at_) reference) (h + at_ + 8) (u16 need)) (h + at_ + 10) (u16 (zlen filename)) in
  wr32 (write_bytes (h + at_ + 16) filename m) (h + 4) (used + need).
(** The resident index grows by an entry: the new attribute. *)
Definition grown_root (raw : zmap) (attr oldvalue size need at_ used allocated reference : Z) (filename : list Z) (newlen : Z) : list Z :=
  let h := oldvalue + 16 in
  let m := buffer (bytes_at raw attr (oldvalue + size)) in
  let m := wr32 (wr32 m 4 newlen) 16 (size + need) in
  bytes_at (wr32 (insert_entry h at_ need used reference filename m) (h + 8) (allocated + need)) 0 newlen.

Section NtfsWrite.
Context {St D : Type} `{PageSource St} `{Disks D}.
#[local] Abbreviation Act := (Act St D).
#[local] Open Scope native_scope.

(** * Storing records in place *)
Definition ntfs_store_record (ino : Z) (raw : zmap) : Act unit :=
  v <- vol;
  let usa := rd16 raw 4 in
  let count := rd16 raw 6 in
  refuse (negb (count =? nv_record_size v / 512 + 1) || (usa <? 8) || (nv_record_size v <? usa + count * 2)) K_EIO;;
  let packed := bytes_at (ntfs_pack raw usa count) 0 (nv_record_size v) in
  run_write (nv_mft v) (ino * nv_record_size v) packed;;
  if ino <? 4 then
    let mirror := rd64 (nv_super v) 56 in
    refuse ((mirror =? 0) || (nv_blocks v <=? mirror)) K_EIO;;
    native_write_bytes (u64 (mirror * nv_block v + ino * nv_record_size v)) packed
  else aret tt.
(** The flag that says a write is under way. *)
Definition ntfs_dirty (dirty : bool) : Act unit :=
  x <- volume_information;
  let '(rec, value, size) := x in
  refuse (size <? 12) K_EIO;;
  let flags := rd16 rec (value + 10) in
  refuse (negb (Z.land flags 0xfffe =? 0)) K_EROFS;;
  ntfs_store_record 3 (wr16 rec (value + 10) (if dirty then Z.lor flags 1 else Z.land flags 0xfffe)).
Definition ntfs_regular_writable (ino : Z) (rec : zmap) : Act unit :=
  refuse ((ino <? 24) || negb (rd16 rec 18 =? 1) || negb (Z.land (rd16 rec 22) 2 =? 0)) K_ENOTSUP;;
  p <- lift_loop (ntfs_attr rec 0x10 []);
  q <- lift (ntfs_value rec (fst p) (snd p));
  let '(value, size) := q in
  refuse ((size <? 36) || negb (Z.land (rd32 rec (value + 32)) 0x5e05 =? 0)) K_EROFS.

(** * Where data may not be *)
Definition runs_meet (a b : list native_run) : bool := existsb (fun r => existsb (run_overlap r) b) a.
(** The attributes of one system record; bit 15 of the flags (sparse) is let pass. *)
Definition boundary_step (rec : zmap) (used : Z) (runs : list native_run) (at_ : Z) : Act (flow Z unit) :=
  if (used <? at_ + 4) || (rd32 rec at_ =? 0xffffffff) then aret (Exit tt)
  else
    let len := rd32 rec (at_ + 4) in
    refuse ((len <? 24) || (used - at_ <? len) || negb (Z.land len 7 =? 0)) K_EIO;;
    refuse (rd32 rec at_ =? 0x20) K_ENOTSUP;;
    (if zget rec (at_ + 8) =? 0 then aret tt
     else
       protected <- runs_of (wr16 rec (at_ + 12) (Z.land (rd16 rec (at_ + 12)) 0x7fff)) at_ len;
       refuse (runs_meet runs protected) K_EIO);;
    aret (Next (at_ + len)).
Definition record_boundaries (runs : list native_run) (ino : Z) : Act unit :=
  v <- vol;
  r <- catch (ntfs_record ino);
  match r with
  | inl _ =>
      data <- run_read (nv_mft v) (ino * nv_record_size v) (nv_record_size v);
      match ntfs_fixup (buffer data) (nv_record_size v) FILE_MAGIC with
      | inl _ => fails K_EIO
      | inr rec => refuse (negb (Z.land (rd16 rec 22) 1 =? 0)) K_ENOTSUP
      end
  | inr rec => a_loop (S (Z.to_nat (rd32 rec 24))) (boundary_step rec (rd32 rec 24) runs) (rd16 rec 20)
  end.
Definition ntfs_metadata_boundaries (runs : list native_run) : Act unit :=
  v <- vol;
  a_for 0 (Z.min 24 (nv_mft_count v)) (record_boundaries runs).
Definition cluster_allocated (c : Z) : Act unit :=
  p <- ntfs_data 6 (c / 8) 1;
  refuse ((fst p <=? c / 8) || (Z.land (nth 0 (snd p) 0) (Z.shiftl 1 (c mod 8)) =? 0)) K_EIO.
Definition ntfs_data_boundaries (runs : list native_run) : Act unit :=
  ntfs_metadata_boundaries runs;;
  v <- vol;
  a_each runs (fun r =>
    refuse (run_hole r) K_ENOTSUP;;
    refuse (nv_blocks v <=? u64 (run_physical r + run_length r)) K_EIO;;
    a_for (run_physical r) (run_physical r + run_length r) cluster_allocated).

(** * Writing within a file *)
Definition write_value (ino : Z) (rec : zmap) (a length offset : Z) (data : list Z) : Act unit :=
  p <- lift (ntfs_value rec a length);
  let '(at_, len) := p in
  if len <=? offset then refuse (negb (zlen data =? 0)) K_ENOTSUP
  else
    let rec := write_bytes (at_ + offset) (take (Z.to_nat (len - offset)) data) rec in
    r <- catch (ntfs_dirty true;; ntfs_store_record ino rec;; ntfs_dirty false);
    match r with inl e => freeze e | inr _ => aret tt end.
Definition write_clusters (ino : Z) (rec : zmap) (a length offset : Z) (data : list Z) : Act unit :=
  v <- vol;
  runs <- runs_of rec a length;
  let size := rd64 rec (a + 48) in
  if size <=? offset then refuse (negb (zlen data =? 0)) K_ENOTSUP
  else
    let data := take (Z.to_nat (size - offset)) data in
    let initialized := rd64 rec (a + 56) in
    refuse ((ino <? 24) || negb (rd16 rec 18 =? 1) || (initialized <? offset) || (initialized - offset <? zlen data)) K_ENOTSUP;;
    refuse (runs_meet runs (nv_mft v)) K_EIO;;
    refuse (existsb run_hole runs) K_ENOTSUP;;
    ntfs_data_boundaries runs;;
    run_write runs offset data.
(** [ntfs_data] with [write] set. *)
Definition ntfs_data_write (ino offset : Z) (data : list Z) : Act unit :=
  rec <- ntfs_record ino;
  ntfs_regular_writable ino rec;;
  refuse (negb (Z.land (rd16 rec 22) 2 =? 0)) K_EINVAL;;
  p <- lift_loop (ntfs_attr rec 0x80 []);
  let '(a, length) := p in
  if zget rec (a + 8) =? 0 then write_value ino rec a length offset data else write_clusters ino rec a length offset data.

(** * Staged sectors *)
Definition sector_piece (v : native_volume) (offset n : Z) : Z * Z * Z :=
  let at_ := u32 (offset mod nv_sector v) in (offset / nv_sector v, at_, u32 (Z.min n (nv_sector v - at_))).
Definition stage_sector (lba : Z) : Act nat :=
  v <- vol;
  l <- staged;
  match find_staged lba l with
  | Some slot => aret slot
  | None =>
      refuse (Z.of_nat (length l) =? NT_TX_SECTORS) K_E2BIG;;
      data <- native_bytes (u64 (lba * nv_sector v)) (nv_sector v);
      on_staged (fun l => l ++ [(lba, buffer data)]);;
      aret (length l)
  end.
Definition nt_read_step (x : Z * Z * list Z) : Act (flow (Z * Z * list Z) (list Z)) :=
  let '(offset, n, out) := x in
  if n =? 0 then aret (Exit out)
  else
    v <- vol;
    let '(lba, at_, part) := sector_piece v offset n in
    l <- staged;
    data <- match find_staged lba l with
            | Some slot => b <- tx_block slot; aret (bytes_at b at_ part)
            | None => native_bytes offset part
            end;
    aret (Next (offset + part, n - part, out ++ data)).
Definition nt_write_step (x : Z * list Z) : Act (flow (Z * list Z) unit) :=
  let '(offset, data) := x in
  match data with
  | [] => aret (Exit tt)
  | _ =>
      v <- vol;
      let '(lba, at_, part) := sector_piece v offset (zlen data) in
      slot <- stage_sector lba;
      tx_modify slot (write_bytes at_ (take (Z.to_nat part) data));;
      aret (Next (offset + part, drop (Z.to_nat part) data))
  end.
Definition in_volume (offset n : Z) : Act unit := v <- vol; refuse (negb (span_ok offset n (u64 (nv_length v * nv_sector v)))) K_EIO.
(** [nt_tx_bytes], reading and writing. *)
Definition nt_tx_read (offset n : Z) : Act (list Z) := in_volume offset n;; a_loop (S (Z.to_nat n)) nt_read_step (offset, n, []).
Definition nt_tx_write (offset : Z) (data : list Z) : Act unit := in_volume offset (zlen data);; a_loop (S (length data)) nt_write_step (offset, data).
(** [nt_tx_stream], reading and writing. *)
Definition nt_place (runs : list native_run) (offset : Z) : Act Z :=
  v <- vol;
  match run_find runs (offset / nv_block v) with
  | Some r => if run_hole r then fails K_ENOTSUP else aret (run_place v r (offset / nv_block v) (offset mod nv_block v))
  | None => fails K_ENOTSUP
  end.
Definition nt_stream_read_step (runs : list native_run) (x : Z * Z * list Z) : Act (flow (Z * Z * list Z) (list Z)) :=
  let '(offset, n, out) := x in
  if n =? 0 then aret (Exit out)
  else
    v <- vol;
    let part := Z.min n (nv_block v - offset mod nv_block v) in
    place <- nt_place runs offset;
    data <- nt_tx_read place part;
    aret (Next (u64 (offset + part), n - part, out ++ data)).
Definition nt_stream_read (runs : list native_run) (offset n : Z) : Act (list Z) := a_loop (S (Z.to_nat n)) (nt_stream_read_step runs) (offset, n, []).
Definition nt_stream_write_step (runs : list native_run) (x : Z * list Z) : Act (flow (Z * list Z) unit) :=
  let '(offset, data) := x in
  match data with
  | [] => aret (Exit tt)
  | _ =>
      v <- vol;
      let part := Z.min (zlen data) (nv_block v - offset mod nv_block v) in
      place <- nt_place runs offset;
      nt_tx_write place (take (Z.to_nat part) data);;
      aret (Next (u64 (offset + part), drop (Z.to_nat part) data))
  end.
Definition nt_stream_write (runs : list native_run) (offset : Z) (data : list Z) : Act unit :=
  a_loop (S (length data)) (nt_stream_write_step runs) (offset, data).
Definition nt_tx_record (ino : Z) (raw : zmap) : Act unit :=
  v <- vol;
  let usa := rd16 raw 4 in
  let count := rd16 raw 6 in
  refuse ((usa <? 48) || negb (count =? nv_record_size v / 512 + 1) || (nv_record_size v <? usa + count * 2)) K_EIO;;
  let packed := bytes_at (ntfs_pack raw usa count) 0 (nv_record_size v) in
  nt_stream_write (nv_mft v) (ino * nv_record_size v) packed;;
  if ino <? 4 then nt_tx_write (u64 (rd64 (nv_super v) 56 * nv_block v + ino * nv_record_size v)) packed else aret tt.

(** * Bitmaps: a bit read, or changed *)
Definition byte_bit (byte bit : Z) : bool := negb (Z.land byte (Z.shiftl 1 (bit mod 8)) =? 0).
Definition byte_with (byte bit : Z) (value : bool) : Z :=
  if value then Z.lor byte (Z.shiftl 1 (bit mod 8)) else Z.land byte (u8 (Z.lnot (Z.shiftl 1 (bit mod 8)))).
(** [change] is the value that the bit gets, if any; the result is its value before. *)
Definition bit_in_clusters (rec : zmap) (a length bit : Z) (change : option bool) : Act bool :=
  runs <- runs_of rec a length;
  refuse (rd64 rec (a + 48) <=? bit / 8) K_EIO;;
  data <- nt_stream_read runs (bit / 8) 1;
  let byte := nth 0 data 0 in
  match change with
  | None => aret (byte_bit byte bit)
  | Some value =>
      refuse (Bool.eqb (byte_bit byte bit) value) K_EIO;;
      nt_stream_write runs (bit / 8) [byte_with byte bit value];;
      aret (negb value)
  end.
Definition bit_in_record (ino type : Z) (rec : zmap) (a length bit : Z) (change : option bool) : Act bool :=
  v <- vol;
  p <- lift (ntfs_value rec a length);
  refuse (snd p <=? bit / 8) K_EIO;;
  data <- nt_stream_read (nv_mft v) (ino * nv_record_size v) (nv_record_size v);
  rec <- lift (ntfs_fixup (buffer data) (nv_record_size v) FILE_MAGIC);
  q <- lift_loop (ntfs_attr rec type []);
  p <- lift (ntfs_value rec (fst q) (snd q));
  let at_ := fst p + bit / 8 in
  let byte := zget rec at_ in
  match change with
  | None => aret (byte_bit byte bit)
  | Some value =>
      refuse (Bool.eqb (byte_bit byte bit) value) K_EIO;;
      nt_tx_record ino (zput rec at_ (byte_with byte bit value));;
      aret (negb value)
  end.
Definition nt_bitmap_bit (ino type bit : Z) (change : option bool) : Act bool :=
  rec <- ntfs_record ino;
  p <- lift_loop (ntfs_attr rec type []);
  let '(a, length) := p in
  if zget rec (a + 8) =? 0 then bit_in_record ino type rec a length bit change else bit_in_clusters rec a length bit change.
End NtfsWrite.
