(* ===== verification/NtfsCreate.v ===== *)
(** Replacing and creating NTFS files, [src/kernel-src/fs/fs.c] (lines
    3821-3863, 3905-4431): allocation in the volume's bitmap, changes of a
    directory's index, new MFT records, and the commit of the staged sectors. *)
From S2P Require Import Prelude Klib Pmm PageAlloc Path Disk State Fat Native Ext Ntfs NativeRead ExtWrite NtfsWrite.

Definition NT_MAX : Z := 4 * 1024 * 1024.
Definition NO_RUN : native_run := mk_run 0 0 0 false.
(** A node of an index: the record or index block that holds it, where its header is, how many bytes it may have. *)
Record index_node := mk_node_at { nd_rec : zmap; nd_header : Z; nd_cap : Z; nd_root : bool; nd_offset : Z }.
(** The index of a directory: its record, the attribute of the root and the value in it, the attribute of the blocks and their runs. *)
Record index_place := mk_index { ix_raw : zmap; ix_attr : Z; ix_len : Z; ix_value : Z; ix_size : Z; ix_alloc : Z; ix_runs : list native_run }.

Section NtfsCreate.
Context {St D : Type} `{PageSource St} `{Disks D}.
#[local] Abbreviation Act := (Act St D).
#[local] Open Scope native_scope.

(** * Free clusters: the first run of [want] clear bits, found again from the start of the bitmap *)
Definition alloc_bit (v : native_volume) (want off : Z) (bitmap : list Z) (bit : Z) (s : Z * Z) : flow (Z * Z) Z :=
  let '(available, first) := s in
  let c := off * 8 + bit in
  if (c =? 0) || (nv_blocks v - 1 <=? c) then Next s
  else if Z.land (bitmap !!! Z.to_nat (bit / 8)) (Z.shiftl 1 (bit mod 8)) =? 0 then
    let first := if available =? 0 then c else first in
    if available + 1 =? want then Exit first else Next (available + 1, first)
  else Next (0, first).
Definition alloc_part (want total : Z) (i : Z) (s : Z * Z) : Act (flow (Z * Z) Z) :=
  v <- vol;
  let off := i * 4096 in
  let n := Z.min (total - off) 4096 in
  p <- ntfs_data 6 off n;
  aret (for_range 0 (n * 8) (alloc_bit v want off (snd p)) s).
Definition nt_alloc_data (size : Z) : Act native_run :=
  v <- vol;
  let want := u64 (size + nv_block v - 1) / nv_block v in
  if want =? 0 then aret NO_RUN
  else
    p <- ntfs_data 6 0 0;
    let total := fst p in
    refuse ((64 * 1024 * 1024 <? total) || (total <? u64 (nv_blocks v + 7) / 8)) K_ENOTSUP;;
    r <- a_range 0 ((total + 4095) / 4096) (alloc_part want total) (0, 0);
    match r with
    | Exit first =>
        a_for 0 want (fun j => _ <- nt_bitmap_bit 6 0x80 (first + j) (Some true); aret tt);;
        aret (mk_run 0 first want false)
    | Next _ => fails K_ENOSPC
    end.

(** * The index of a directory *)
Definition open_index (parent : Z) : Act index_place :=
  v <- vol;
  raw <- ntfs_record parent;
  refuse (Z.land (rd16 raw 22) 2 =? 0) K_EINVAL;;
  p <- lift_loop (ntfs_attr raw 0x90 I30);
  let '(attr, len) := p in
  q <- lift (ntfs_value raw attr len);
  let '(value, size) := q in
  refuse ((size <? 32) || negb (rd32 raw (value + 4) =? 1)) K_ENOTSUP;;
  r <- catch (lift_loop (ntfs_attr raw 0xa0 I30));
  match r with
  | inr (ia, ialen) => runs <- runs_of raw ia ialen; aret (mk_index raw attr len value size ia runs)
  | inl e => refuse (negb (e =? K_ENOENT)) e;; aret (mk_index raw attr len value size 0 [])
  end.
(** The byte of the index bitmap that has the bit of a block. *)
Definition index_bitmap_byte (raw : zmap) (bit : Z) : Act Z :=
  p <- lift_loop (ntfs_attr raw 0xb0 I30);
  let '(ba, bl) := p in
  if zget raw (ba + 8) =? 0 then
    q <- lift (ntfs_value raw ba bl);
    refuse (snd q <=? bit / 8) K_EIO;;
    aret (zget raw (fst q + bit / 8))
  else
    bm <- runs_of raw ba bl;
    refuse (rd64 raw (ba + 48) <=? bit / 8) K_EIO;;
    data <- run_read bm (bit / 8) 1;
    aret (nth 0 data 0).
(** The node below the entry at [e] of [n] bytes. *)
Definition descend (ix : index_place) (node : index_node) (e n : Z) : Act index_node :=
  v <- vol;
  refuse (bool_decide (ix_runs ix = [])) K_EIO;;
  let vcn := rd64 (nd_rec node) (e + n - 8) in
  let unit := if nv_block v <=? nv_index_size v then nv_block v else 512 in
  refuse ((2 ^ 64 - 1) / unit <? vcn) K_EIO;;
  let offset := vcn * unit in
  let size := rd64 (ix_raw ix) (ix_alloc ix + 48) in
  refuse (negb (offset mod nv_index_size v =? 0) || (size <? offset) || (size - offset <? nv_index_size v)) K_EIO;;
  let bit := offset / nv_index_size v in
  byte <- index_bitmap_byte (ix_raw ix) bit;
  refuse (negb (byte_bit byte bit)) K_EIO;;
  data <- run_read (ix_runs ix) offset (nv_index_size v);
  block <- lift (ntfs_fixup (buffer data) (nv_index_size v) INDX_MAGIC);
  refuse (negb (rd64 block 16 =? vcn)) K_EIO;;
  aret (mk_node_at block 24 (nv_index_size v - 24) false offset).
(** [store_index]. *)
Definition store_index (parent : Z) (ix : index_place) (node : index_node) (rec : zmap) : Act unit :=
  v <- vol;
  if nd_root node then nt_tx_record parent rec
  else
    let usa := rd16 rec 4 in
    let usac := rd16 rec 6 in
    refuse ((usa <? 40) || (nv_index_size v <? usa + usac * 2)) K_EIO;;
    nt_stream_write (ix_runs ix) (nd_offset node) (bytes_at (ntfs_pack rec usa usac) 0 (nv_index_size v)).
(** A new entry before the one at [at_]: the root grows, a block has room or has not. *)
Definition add_entry (parent : Z) (ix : index_place) (node : index_node) (at_ reference : Z) (filename : list Z) : Act unit :=
  v <- vol;
  let rec := nd_rec node in
  let header := nd_header node in
  let used := rd32 rec (header + 4) in
  let allocated := rd32 rec (header + 8) in
  refuse (negb (zget rec (header + 12) =? 0)) K_ENOTSUP;;
  let need := Z.land (16 + zlen filename + 7) (Z.lnot 7) in
  if nd_root node then
    let oldvalue := ix_value ix - ix_attr ix in
    let newlen := Z.land (oldvalue + ix_size ix + need + 7) (Z.lnot 7) in
    refuse ((4096 <? newlen) || (nv_record_size v <? u32 (rd32 rec 24 - ix_len ix + newlen))) K_ENOSPC;;
    raw <- lift (nt_attr_replace (nv_record_size v) rec (ix_attr ix) (ix_len ix)
                   (grown_root rec (ix_attr ix) oldvalue (ix_size ix) need at_ used allocated reference filename newlen));
    nt_tx_record parent raw
  else
    refuse (allocated - used <? need) K_ENOSPC;;
    store_index parent ix node (insert_entry header at_ need used reference filename rec).
Definition index_level (parent : Z) (ix : index_place) (name : cstr) (reference : Z) (filename : list Z) (create : bool) (node : index_node)
    : Act (flow index_node unit) :=
  let rec := nd_rec node in
  let header := nd_header node in
  refuse (nd_cap node <? 16) K_EIO;;
  let first := rd32 rec header in
  let used := rd32 rec (header + 4) in
  let allocated := rd32 rec (header + 8) in
  refuse ((first <? 16) || (used <? first) || (allocated <? used) || (nd_cap node <? allocated)) K_EIO;;
  r <- lift_loop (scan_index (Z.to_nat used) rec header used name first);
  match r with
  | At_equal at_ k =>
      refuse create K_EEXIST;;
      refuse (negb (rd64 rec (header + at_) =? reference) || negb (k =? zlen filename)) K_EIO;;
      store_index parent ix node (write_bytes (header + at_ + 16) filename rec);;
      aret (Exit tt)
  | At_place at_ n flags =>
      if negb (Z.land flags 1 =? 0) then node <- descend ix node (header + at_) n; aret (Next node)
      else
        refuse (negb create) K_ENOENT;;
        add_entry parent ix node at_ reference filename;;
        aret (Exit tt)
  end.
(** At most sixteen levels. *)
Definition nt_index_change (parent reference : Z) (filename : list Z) (create : bool) : Act unit :=
  name <- lift (ntfs_name (buffer filename) 0 (zlen filename));
  ix <- open_index parent;
  r <- a_range 0 16 (fun _ => index_level parent ix name reference filename create)
         (mk_node_at (ix_raw ix) (ix_value ix + 16) (ix_size ix - 16) true 0);
  match r with Exit _ => aret tt | Next _ => fails K_E2BIG end.

(** * Committing *)
Definition nt_prepare : Act unit :=
  native_clean;;
  v <- vol;
  let mirror := rd64 (nv_super v) 56 in
  refuse ((nv_index_size v <? nv_block v) || (mirror =? 0) || (nv_blocks v <=? mirror)) K_ENOTSUP;;
  rec <- ntfs_record 1;
  p <- lift_loop (ntfs_attr rec 0x80 []);
  runs <- runs_of rec (fst p) (snd p);
  refuse (match runs with
          | [r] => run_hole r || negb (run_logical r =? 0) || negb (run_physical r =? mirror) || (u64 (run_length r * nv_block v) <? nv_record_size v * 4)
          | _ => true
          end) K_EIO;;
  on_staged (fun _ => []).
Definition fresh_step (fresh : native_run) (data : list Z) (off : Z) : Act (flow Z unit) :=
  v <- vol;
  let allocated := u64 (run_length fresh * nv_block v) in
  if allocated <=? off then aret (Exit tt)
  else
    let n := Z.min (allocated - off) (nv_sector v) in
    native_write_bytes (u64 (run_physical fresh * nv_block v + off)) (data_block data off n);;
    aret (Next (off + n)).
Definition write_sectors : Act unit :=
  v <- vol;
  l <- staged;
  a_each l (fun x => native_write_bytes (u64 (fst x * nv_sector v)) (bytes_at (snd x) 0 (nv_sector v))).
(** The record of the volume is staged dirty with the rest, and made clean at the end. *)
Definition nt_commit (fresh : native_run) (data : list Z) : Act unit :=
  x <- volume_information;
  let '(rec, value, n) := x in
  refuse ((n <? 12) || negb (rd16 rec (value + 10) =? 0)) K_EROFS;;
  nt_tx_record 3 (wr16 rec (value + 10) 1);;
  v <- vol;
  r <- catch (ntfs_dirty true;; a_loop (S (Z.to_nat (u64 (run_length fresh * nv_block v)))) (fresh_step fresh data) 0;; write_sectors;; ntfs_dirty false);
  match r with inl e => freeze e | inr _ => aret tt end.

(** * New records *)
Definition clear_record (v : native_volume) (i sequence : Z) : zmap :=
  let raw := write_bytes 0 FILE_MAGIC ∅ in
  let raw := wr16 (wr16 (wr16 (wr16 raw 4 48) 6 (u16 (nv_record_size v / 512 + 1))) 16 sequence) 18 1 in
  let attrs := Z.land (48 + 2 * (nv_record_size v / 512 + 1) + 7) (Z.lnot 7) in
  let raw := wr32 (wr32 (wr16 (wr16 raw 20 (u16 attrs)) 22 1) 24 (attrs + 8)) 28 (nv_record_size v) in
  wr32 (wr32 raw 44 i) attrs 0xffffffff.
Definition record_sequence (v : native_volume) (data : list Z) : Z + Z :=
  if bool_decide (take 4 data = FILE_MAGIC) then
    match ntfs_fixup (buffer data) (nv_record_size v) FILE_MAGIC with
    | inl e => inl e
    | inr raw =>
        if negb (Z.land (rd16 raw 22) 1 =? 0) then inl K_EIO
        else let sequence := u16 (rd16 raw 16 + 1) in inr (if sequence =? 0 then 1 else sequence)
    end
  else if existsb (fun b => negb (b =? 0)) data then inl K_EIO
  else inr 1.
Definition try_record (i : Z) (_ : unit) : Act (flow unit (Z * zmap)) :=
  v <- vol;
  used <- nt_bitmap_bit 0 0xb0 i None;
  if used then aret (Next tt)
  else
    data <- run_read (nv_mft v) (i * nv_record_size v) (nv_record_size v);
    sequence <- lift (record_sequence v data);
    _ <- nt_bitmap_bit 0 0xb0 i (Some true);
    aret (Exit (i, clear_record v i sequence)).
Definition nt_new_record : Act (Z * zmap) :=
  v <- vol;
  r <- a_range 24 (Z.min (nv_mft_count v) 1048576) try_record tt;
  match r with Exit x => aret x | Next _ => fails K_ENOSPC end.

(** * Replacing the contents of a file *)
Definition attr_value (rec : zmap) (type : Z) : Act (Z * Z) :=
  p <- lift_loop (ntfs_attr rec type []);
  lift (ntfs_value rec (fst p) (snd p)).
Definition free_old (fresh : native_run) (r : native_run) : Act unit :=
  refuse (run_hole r) K_ENOTSUP;;
  refuse (negb (run_length fresh =? 0) && overlap (run_physical r) (run_length r) (run_physical fresh) (run_length fresh)) K_EIO;;
  a_for 0 (run_length r) (fun j => _ <- nt_bitmap_bit 6 0x80 (u64 (run_physical r + j)) (Some false); aret tt).
(** The record of the directory that a file name attribute gives, checked against the reference. *)
Definition parent_of (reference : Z) : Act Z :=
  refuse (0xffffffff <? Z.land reference 0xffffffffffff) K_ENOTSUP;;
  let parent := u32 (Z.land reference 0xffffffffffff) in
  raw <- ntfs_record parent;
  refuse (negb (rd16 raw 16 =? Z.shiftr reference 48)) K_EIO;;
  aret parent.
Definition old_runs (rec : zmap) (a length : Z) : Act (list native_run) :=
  if zget rec (a + 8) =? 0 then aret []
  else
    old <- runs_of rec a length;
    ntfs_data_boundaries old;;
    aret old.
Definition new_data (size : Z) : Act native_run :=
  fresh <- nt_alloc_data size;
  (if run_length fresh =? 0 then aret tt else ntfs_metadata_boundaries [fresh]);;
  aret fresh.
Definition ntfs_replace (f : k_file) (data : list Z) : Act unit :=
  v <- vol;
  let size := zlen data in
  refuse (NT_MAX <? size) K_E2BIG;;
  nt_prepare;;
  raw <- ntfs_record (f_cluster f);
  refuse (negb (rd16 raw 16 =? f_directory_offset f)) K_ENOENT;;
  ntfs_regular_writable (f_cluster f) raw;;
  fn <- attr_value raw 0x30;
  _ <- lift (ntfs_name raw (fst fn) (snd fn));
  parent <- parent_of (rd64 raw (fst fn));
  p <- lift_loop (ntfs_attr raw 0x80 []);
  let '(a, len) := p in
  old <- old_runs raw a len;
  fresh <- new_data size;
  a_each old (free_old fresh);;
  raw <- lift (nt_attr_replace (nv_record_size v) raw a len (nt_data_attribute (nv_block v) (rd16 raw (a + 14)) fresh size));
  fn <- attr_value raw 0x30;
  let raw := wr64 (wr64 raw (fst fn + 40) (u64 (run_length fresh * nv_block v))) (fst fn + 48) size in
  nt_index_change parent (Z.lor (f_cluster f) (Z.shiftl (rd16 raw 16) 48)) (bytes_at raw (fst fn) (snd fn)) false;;
  nt_tx_record (f_cluster f) raw;;
  nt_commit fresh data.

(** * Creating a file *)
Definition ntfs_char_bad (c : Z) : bool := existsb (Z.eqb c) [92; 58; 42; 63; 34; 60; 62; 124].
Definition ntfs_name_bad (name : cstr) : bool :=
  match last name with None => true | Some c => (c =? 32) || (c =? DOT) end || (255 <? zlen name) || existsb ntfs_char_bad name.
Definition FOLDER : Z := 0x10000000.
Definition standard_value (raw : zmap) (si : Z) (directory : bool) : list Z :=
  let m := buffer (bytes_at raw si 72) in
  bytes_at (wr64 (wr64 (wr32 (wr32 m 32 (if directory then FOLDER else 0x20)) 48 0) 56 0) 64 0) 0 72.
Definition filename_value (parentref : Z) (standard : list Z) (allocated size : Z) (directory : bool) (name : cstr) : list Z :=
  let m := write_bytes 8 (take 32 standard) (wr64 ∅ 0 parentref) in
  let m := wr32 (wr64 (wr64 m 40 allocated) 48 size) 56 (if directory then FOLDER else 0x20) in
  let m := zput (zput m 64 (u8 (zlen name))) 65 1 in
  bytes_at (fold_left (fun m x => wr16 m (66 + Z.of_nat (fst x) * 2) (snd x)) (imap pair name) m) 0 (66 + zlen name * 2).
(** The index of an empty directory. *)
Definition root_value (v : native_volume) : list Z :=
  let m := wr32 (wr32 (wr32 ∅ 0 0x30) 4 1) 8 (nv_index_size v) in
  let m := zput m 12 (u8 (if nv_block v <=? nv_index_size v then nv_index_size v / nv_block v else nv_index_size v / 512)) in
  let m := wr32 (wr32 (wr32 m 16 16) 20 32) 24 32 in
  bytes_at (wr16 (wr16 m 40 16) 44 2) 0 48.
Definition ntfs_create (path : cstr) (directory : bool) (data : list Z) : Act k_file :=
  v <- vol;
  index <- volume_index;
  let size := zlen data in
  refuse (NT_MAX <? size) K_E2BIG;;
  let '(parent_path, name) := split_name path in
  refuse (ntfs_name_bad name) K_EINVAL;;
  parent <- open_path parent_path;
  refuse (Z.land (f_attributes parent) 0x10 =? 0) K_EINVAL;;
  absent (ntfs_directory (f_cluster parent) (Some name));;
  nt_prepare;;
  parentraw <- ntfs_record (f_cluster parent);
  p <- attr_value parentraw 0x10;
  refuse ((snd p <? 72) || (rd32 parentraw (fst p + 52) =? 0)) K_ENOTSUP;;
  x <- nt_new_record;
  let '(ino, raw) := x in
  let raw := if directory then wr16 raw 22 3 else raw in
  fresh <- (if directory then aret NO_RUN else new_data size);
  let standard := standard_value parentraw (fst p) directory in
  raw <- lift (nt_record_append (nv_record_size v) raw (nt_resident_attr 0x10 0 [] standard));
  let parentref := Z.lor (f_cluster parent) (Z.shiftl (rd16 parentraw 16) 48) in
  let filename := filename_value parentref standard (u64 (run_length fresh * nv_block v)) size directory name in
  raw <- lift (nt_record_append (nv_record_size v) raw (nt_resident_attr 0x30 1 [] filename));
  let content := if directory then nt_resident_attr 0x90 2 I30 (root_value v) else nt_data_attribute (nv_block v) 2 fresh size in
  raw <- lift (nt_record_append (nv_record_size v) raw content);
  let raw := wr16 raw 40 3 in
  nt_index_change (f_cluster parent) (Z.lor ino (Z.shiftl (rd16 raw 16) 48)) filename true;;
  nt_tx_record ino raw;;
  nt_commit fresh data;;
  aret (mk_file 5 index ino (if directory then 0x10 else 0) size (rd16 raw 16)).
End NtfsCreate.
