(* ===== verification/Vfs.v ===== *)
(** The file system seen by the kernel, [src/kernel-src/fs/fs.c] (lines 20-42,
    284-513, 1431-1680, 2623-2643 and 4642-4732): every call resolves its path,
    finds the volume it is on and goes to the RAM file system, to a FAT volume
    or to an ext or NTFS one; and the mounting of volumes.  The ext and NTFS
    drivers are the class [Natives], whose instance is in [NativeFs]; a call takes the result of locking
    [vfs_mutex] as its argument [lock]. *)
From S2P Require Import Prelude Klib PageAlloc Path Disk State Process Partition Fat FatWrite RamFs.

Record mount_entry := mk_mount { mt_path : cstr; mt_volume : Z; mt_kind : Z }.
#[export] Instance mount_inhabited : Inhabited mount_entry := populate (mk_mount [] 0 0).
(** [decimal_name] of [drivers/pci/pci.c]. *)
Fixpoint digits (fuel : nat) (n : Z) (out : cstr) : cstr :=
  match fuel with
  | O => out
  | S fuel => let out := 48 + n mod 10 :: out in if n / 10 =? 0 then out else digits fuel (n / 10) out
  end.
Definition decimal_name (prefix : cstr) (n : Z) : cstr := prefix ++ digits 10 n [].
Definition DISK_NAME : cstr := [100; 105; 115; 107].
Definition VOLUMES_DIR : cstr := [47; 118; 111; 108; 117; 109; 101; 115; 47].
Definition DEVICES_DIR : cstr := [47; 100; 101; 118; 105; 99; 101; 115; 47].
Definition volume_name (disk partition : Z) : cstr := take 23 (decimal_name DISK_NAME disk ++ [112] ++ decimal_name [] partition).

(** * ext and NTFS volumes

    What the drivers do with their own tables [N], the disks, the pages and
    memory.  [native_probe_volume] of a disk, a start, a length and a partition
    recognises a volume and returns its kind (4 or 5); [native_add] adds the
    volume recognised last.  [NativeFs] has the instance. *)
Definition io (D St : Type) : Type := D * St * zmap.
Class Natives (N D St : Type) := {
  native_count : N -> Z;
  native_probe_volume : N -> io D St -> Z -> Z -> Z -> Z -> bool -> N * io D St * (Z + Z);
  native_add : N -> N;
  native_create : N -> io D St -> Z -> cstr -> bool -> N * io D St * (Z + k_file);
  native_store : N -> io D St -> Z -> cstr -> list Z -> N * io D St * Z;
  native_open : N -> io D St -> Z -> cstr -> N * io D St * (Z + k_file);
  native_refresh : N -> io D St -> k_file -> N * io D St * (k_file * Z);
  native_read : N -> io D St -> k_file -> Z -> Z -> N * io D St * (Z * list Z);
  native_list : N -> io D St -> k_file -> N * io D St * (list k_dirent * Z);
  native_write : N -> io D St -> k_file -> Z -> list Z -> N * io D St * (k_file * (Z * Z));
  native_sync_all : N -> io D St -> N * io D St * Z
}.

Section Vfs.
Context {N D St : Type} `{PageSource St} `{Disks D} `{Natives N D St}.
Record vfs := mk_vfs {
  vf_ready : bool; vf_nodes : table ram_node; vf_mounts : list mount_entry; vf_roots : list root_entry;
  vf_volumes : table fat_volume; vf_volume_count : Z; vf_scanned : table bool; vf_partitions : table k_partition_info; vf_partition_count : Z;
  vf_native : N; vf_d : D; vf_ps : St; vf_ram : zmap }.
#[export] Instance vfs_updatable : Updatable vfs := fun r =>
  mk_vfs (vf_ready r) (vf_nodes r) (vf_mounts r) (vf_roots r) (vf_volumes r) (vf_volume_count r) (vf_scanned r) (vf_partitions r)
    (vf_partition_count r) (vf_native r) (vf_d r) (vf_ps r) (vf_ram r).
Implicit Types (s : vfs).

(** * The parts of the state that the drivers work on *)
Definition ram_of s : ram_fs (St := St) := mk_ram_fs (vf_nodes s) (vf_ps s) (vf_ram s).
Definition with_ram s (r : ram_fs (St := St)) : vfs := s <| vf_nodes := rf_nodes r |> <| vf_ps := rf_ps r |> <| vf_ram := rf_ram r |>.
Definition fat_of s : fat_fs (St := St) (D := D) := mk_fat_fs (vf_d s) (vf_ps s) (vf_ram s) (vf_volumes s) (vf_volume_count s).
Definition with_fat s (f : fat_fs (St := St) (D := D)) : vfs :=
  s <| vf_d := ff_d f |> <| vf_ps := ff_ps f |> <| vf_ram := ff_ram f |> <| vf_volumes := ff_volumes f |>.
Definition on_native {A} s (f : N -> io D St -> N * io D St * A) : vfs * A :=
  let '(n, (d, ps, ram), a) := f (vf_native s) (vf_d s, vf_ps s, vf_ram s) in
  (s <| vf_native := n |> <| vf_d := d |> <| vf_ps := ps |> <| vf_ram := ram |>, a).

(** * Paths *)
Definition resolve s (path : option cstr) : Z + cstr := k_path_resolve (vf_roots s) path (Some [SLASH]) true.
(** The mount of a path, and the path on it. *)
Definition mount_of s (path : cstr) : option (mount_entry * cstr) :=
  let m := choose_mount (map mt_path (vf_mounts s)) path in
  if m <? 0 then None else let e := vf_mounts s !!! Z.to_nat m in Some (e, drop (length (mt_path e)) path).
Definition code {A} (r : Z + A) : Z := match r with inl e => e | inr _ => 0 end.

(** * The calls *)
Definition k_vfs_mkdir s (lock : Z) (path : option cstr) : vfs * Z :=
  if negb (vf_ready s) then (s, K_EINVAL)
  else
    match resolve s path with
    | inl e => (s, e)
    | inr path =>
        if negb (lock =? 0) then (s, lock)
        else
          match mount_of s path with
          | Some (m, rest) =>
              if 4 <=? mt_kind m then let '(s, r) := on_native s (fun n x => native_create n x (mt_volume m) rest true) in (s, code r)
              else let '(f, r) := fat_create_locked (fat_of s) (mt_volume m) rest true in (with_fat s f, code r)
          | None => let '(r, e) := ram_mkdir (ram_of s) path in (with_ram s r, e)
          end
    end.
Definition k_vfs_put s (lock : Z) (path : option cstr) (bytes : list Z) : vfs * Z :=
  if negb (vf_ready s) || (WRITE_MAX <? zlen bytes) then (s, K_EINVAL)
  else
    match resolve s path with
    | inl e => (s, e)
    | inr path =>
        if negb (lock =? 0) then (s, lock)
        else
          match mount_of s path with
          | Some (m, rest) =>
              if 4 <=? mt_kind m then on_native s (fun n x => native_store n x (mt_volume m) rest bytes)
              else let '(f, e) := fat_store_locked (fat_of s) (mt_volume m) rest bytes in (with_fat s f, e)
          | None => let '(r, e) := ram_put (ram_of s) path bytes in (with_ram s r, e)
          end
    end.
Definition vfs_open_locked s (path : cstr) : vfs * (Z + k_file) :=
  match mount_of s path with
  | Some (m, rest) =>
      if 4 <=? mt_kind m then on_native s (fun n x => native_open n x (mt_volume m) rest)
      else let '(d, r) := fat_open (vf_d s) (vf_volumes s) (vf_volume_count s) (mt_volume m) rest in (s <| vf_d := d |>, r)
  | None => (s, ram_open (vf_nodes s) path)
  end.
Definition k_vfs_open s (lock : Z) (path : option cstr) : vfs * (Z + k_file) :=
  if negb (vf_ready s) then (s, inl K_EINVAL)
  else
    match resolve s path with
    | inl e => (s, inl e)
    | inr path => if negb (lock =? 0) then (s, inl lock) else vfs_open_locked s path
    end.
(** The error, and the bytes that were read before it. *)
Definition k_vfs_read s (lock : Z) (file : k_file) (offset n : Z) : vfs * (Z * list Z) :=
  if negb (Z.land (f_attributes file) 0x10 =? 0) then (s, (K_EINVAL, []))
  else if negb (lock =? 0) then (s, (lock, []))
  else if f_kind file =? 1 then (s, match ram_read (ram_of s) (f_object file) offset n with inl e => (e, []) | inr data => (0, data) end)
  else if (f_kind file =? 4) || (f_kind file =? 5) then on_native s (fun k x => native_read k x file offset n)
  else if f_kind file =? 2 then
    let '(d, e, data) := fat_read (vf_d s) (vf_volumes s) (vf_volume_count s) file offset n in (s <| vf_d := d |>, (e, data))
  else if f_kind file =? 3 then
    if k_disk_count (vf_d s) <=? f_object file then (s, (K_ENOENT, []))
    else
      let size := u64 (disk_sectors (vf_d s) (f_object file) * disk_sector_size (vf_d s) (f_object file)) in
      if offset <? size then
        match disk_bytes (vf_d s) (f_object file) offset (Z.min n (size - offset)) with
        | (d, inl e) => (s <| vf_d := d |>, (e, []))
        | (d, inr data) => (s <| vf_d := d |>, (0, data))
        end
      else (s, (0, []))
  else (s, (K_ENOTSUP, [])).
Definition k_vfs_list s (lock : Z) (path : option cstr) : vfs * (list k_dirent * Z) :=
  match resolve s path with
  | inl e => (s, ([], e))
  | inr path =>
      if negb (lock =? 0) then (s, ([], lock))
      else
        match vfs_open_locked s path with
        | (s, inl e) => (s, ([], e))
        | (s, inr f) =>
            if Z.land (f_attributes f) 0x10 =? 0 then (s, ([], K_EINVAL))
            else if (f_kind f =? 4) || (f_kind f =? 5) then on_native s (fun n x => native_list n x f)
            else if f_kind f =? 2 then
              let '(d, r) := fat_list (vf_d s) (vf_volumes s) (vf_volume_count s) f in (s <| vf_d := d |>, r)
            else if f_kind f =? 1 then (s, (map (fun '(name, size, dir) => mk_dirent name size dir 0 0) (ram_list (vf_nodes s) (f_object f)), 0))
            else (s, ([], 0))
        end
  end.
Definition k_vfs_create s (lock : Z) (path : option cstr) : vfs * (Z + k_file) :=
  if negb (vf_ready s) then (s, inl K_EINVAL)
  else
    match resolve s path with
    | inl e => (s, inl e)
    | inr path =>
        if negb (lock =? 0) then (s, inl lock)
        else
          match vfs_open_locked s path with
          | (s, inr _) => (s, inl K_EEXIST)
          | (s, inl e) =>
              if negb (e =? K_ENOENT) then (s, inl e)
              else
                match mount_of s path with
                | Some (m, rest) =>
                    if 4 <=? mt_kind m then on_native s (fun n x => native_create n x (mt_volume m) rest false)
                    else let '(f, r) := fat_create_locked (fat_of s) (mt_volume m) rest false in (with_fat s f, r)
                | None => let '(r, f) := ram_create (ram_of s) path in (with_ram s r, f)
                end
          end
    end.
(** A write to a FAT file: the whole file is read, changed and stored again; the pages of the image are freed at the end. *)
Definition fat_write s (file : k_file) (offset : Z) (data : list Z) : vfs * k_file * (Z + Z) :=
  let '(d, file, e) := fat_refresh (vf_d s) (vf_volumes s) (vf_volume_count s) file in
  let s := s <| vf_d := d |> in
  if negb (e =? 0) then (s, file, inl e)
  else if negb (Z.land (f_attributes file) 0x11 =? 0) then (s, file, inl K_EROFS)
  else
    let offset := if offset =? 2 ^ 64 - 1 then f_size file else offset in
    if (FAT_WRITE_MAX <? f_size file) || (FAT_WRITE_MAX <? offset) || (FAT_WRITE_MAX - offset <? zlen data) then (s, file, inl K_E2BIG)
    else if zlen data =? 0 then (s, file, inr 0)
    else
      let size := if offset + zlen data <? f_size file then f_size file else offset + zlen data in
      let pages := data_pages size in
      let '(ps, ram, image) := pa_alloc (vf_ps s) (vf_ram s) pages 0 in
      let s := s <| vf_ps := ps |> <| vf_ram := ram |> in
      if image =? 0 then (s, file, inl K_ENOMEM)
      else
        let '(d, e, old) := fat_read (vf_d s) (vf_volumes s) (vf_volume_count s) file 0 (f_size file) in
        let s := s <| vf_d := d |> in
        let e := if (e =? 0) && negb (zlen old =? f_size file) then K_EIO else e in
        let '(s, file, r) :=
          if negb (e =? 0) then (s, file, inl e)
          else
            let '(f, file, e) := fat_replace_locked (fat_of s) file (bytes_at (write_bytes offset data (buffer old)) 0 size) in
            (with_fat s f, file, if e =? 0 then inr (zlen data) else inl e) in
        (s <| vf_ps ::= (fun ps => pa_free ps image pages) |>, file, r).
Definition k_vfs_write s (lock : Z) (file : k_file) (offset : Z) (data : list Z) : vfs * k_file * (Z + Z) :=
  if f_kind file =? 3 then (s, file, inl K_EROFS)
  else if FAT_WRITE_MAX <? zlen data then (s, file, inl K_E2BIG)
  else if negb (lock =? 0) then (s, file, inl lock)
  else if (f_kind file =? 4) || (f_kind file =? 5) then
    let '(s, (file, (e, written))) := on_native s (fun n x => native_write n x file offset data) in (s, file, if e =? 0 then inr written else inl e)
  else if f_kind file =? 2 then fat_write s file offset data
  else if f_kind file =? 1 then let '(r, file, w) := ram_write (ram_of s) file offset data in (with_ram s r, file, w)
  else (s, file, inl K_EINVAL).
Definition sync_volume (i : Z) (x : vfs * Z) : vfs * Z :=
  let '(s, e) := x in
  let v := vf_volumes s !!! i in
  let '(s, result) :=
    if v_write_failed v then (s, K_EIO)
    else if v_write_ready v then let '(f, r) := run_on (fat_of s) i volume_flush in (with_fat s f, code r)
    else (s, 0) in
  (s, if negb (result =? 0) && (e =? 0) then result else e).
Definition k_vfs_sync s (lock : Z) : vfs * Z :=
  if negb (lock =? 0) then (s, lock)
  else
    let '(s, e) := fold_range 0 (vf_volume_count s) sync_volume (s, 0) in
    let '(s, ne) := on_native s native_sync_all in
    (s, if e =? 0 then ne else e).
Definition k_vfs_stat s (lock : Z) (f : k_file) : vfs * k_file * Z :=
  if negb (lock =? 0) then (s, f, lock)
  else if f_kind f =? 1 then
    if (MAX_NODES <=? f_object f) || negb (n_used (vf_nodes s !!! f_object f)) then (s, f, K_ENOENT)
    else (s, f <| f_size := n_size (vf_nodes s !!! f_object f) |>, 0)
  else if f_kind f =? 2 then let '(d, f, e) := fat_refresh (vf_d s) (vf_volumes s) (vf_volume_count s) f in (s <| vf_d := d |>, f, e)
  else if (f_kind f =? 4) || (f_kind f =? 5) then let '(s, (f, e)) := on_native s (fun n x => native_refresh n x f) in (s, f, e)
  else (s, f, if negb (f_kind f =? 3) || (k_disk_count (vf_d s) <=? f_object f) then K_EINVAL else 0).

(** * Mounting *)

(** The new volume gets a directory under /volumes, a place in the mount table, and the names of its partition and its disk as roots. *)
Definition mount_named s (disk partition volume kind : Z) : vfs :=
  let path := take (Z.to_nat (K_PATH_MAX - 1)) (VOLUMES_DIR ++ volume_name disk partition) in
  let s := s <| vf_mounts ::= (fun l => l ++ [mk_mount path volume kind]) |> in
  let s := s <| vf_roots := fst (k_root_bind 0 (vf_roots s) (Some (volume_name disk partition)) (Some path)) |> in
  s <| vf_roots := fst (k_root_bind 0 (vf_roots s) (Some (decimal_name DISK_NAME disk)) (Some path)) |>.
Definition volume_directory s (disk partition : Z) : vfs * Z :=
  let '(nodes, e) := ram_new (vf_nodes s) (take (Z.to_nat (K_PATH_MAX - 1)) (VOLUMES_DIR ++ volume_name disk partition)) true in
  (s <| vf_nodes := nodes |>, if 0 <=? e then 0 else e).
Definition mount_count s : Z := Z.of_nat (length (vf_mounts s)).
Definition fat_mount s (disk start length partition : Z) : vfs * Z :=
  if (vf_volume_count s =? MAX_VOLUMES) || (mount_count s =? MAX_VOLUMES) || (k_disk_count (vf_d s) <=? disk) || (length =? 0) ||
     (disk_sectors (vf_d s) disk <=? start) || (disk_sectors (vf_d s) disk - start <? length)
  then (s, K_EINVAL)
  else
    match k_disk_read (vf_d s) disk start 1 with
    | (d, inl e) => (s <| vf_d := d |>, e)
    | (d, inr data) =>
        let s := s <| vf_d := d |> in
        match fat_bpb disk start length (disk_sector_size (vf_d s) disk) (volume_name disk partition) (buffer data) with
        | None => (s, K_ENOTSUP)
        | Some v =>
            let '(s, e) := volume_directory s disk partition in
            if negb (e =? 0) && negb (e =? K_EEXIST) then (s, e)
            else
              let index := vf_volume_count s in
              (mount_named (s <| vf_volumes := <[index := v]> (vf_volumes s) |> <| vf_volume_count := index + 1 |>) disk partition index 2, 0)
        end
    end.
Definition native_probe s (disk start length partition : Z) (ro : bool) : vfs * Z :=
  let index := native_count (vf_native s) in
  if (index =? MAX_VOLUMES) || (mount_count s =? MAX_VOLUMES) then (s, K_E2BIG)
  else
    match on_native s (fun n x => native_probe_volume n x disk start length partition ro) with
    | (s, inl e) => (s, e)
    | (s, inr kind) =>
        let '(s, e) := volume_directory s disk partition in
        if negb (e =? 0) && negb (e =? K_EEXIST) then (s, e) else (mount_named (s <| vf_native ::= native_add |>) disk partition index kind, 0)
    end.
(** [k_vfs_mount_ramfat] on processor [cpu]. *)
Definition k_vfs_mount_ramfat s (lock cpu id : Z) : vfs * Z :=
  if negb (cpu =? 0) || (k_disk_count (vf_d s) <=? id) || negb (disk_ram (vf_d s) id) then (s, K_EPERM)
  else if negb (lock =? 0) then (s, lock)
  else if any_range 0 (vf_volume_count s) (fun i => v_disk (vf_volumes s !!! i) =? id) then (s, K_EEXIST)
  else fat_mount s id 0 (disk_sectors (vf_d s) id) 0.
(** One partition: it is published, then tried as a FAT volume and, when nothing was mounted, as an ext or NTFS one. *)
Definition set_partition_ro (index : Z) (ro : bool) s : vfs := s <| vf_volumes ::= tmod index (fun v => v <| v_partition_ro := ro |>) |>.
Definition mount_partition (id : Z) (recovered : bool) s (p : partition_entry) : vfs :=
  let part_index := vf_partition_count s in
  let '(t, count) := publish_step id (disk_sector_size (vf_d s) id) recovered (vf_partitions s, vf_partition_count s) p in
  let s := s <| vf_partitions := t |> <| vf_partition_count := count |> in
  let before := vf_volume_count s in
  let prior := mount_count s in
  let ro := recovered || pe_read_only p in
  let '(s, e) := fat_mount s id (pe_start p) (pe_length p) (pe_number p) in
  let s := if (e =? 0) && (before <? vf_volume_count s) then set_partition_ro before ro s else s in
  let s := if prior =? mount_count s then fst (native_probe s id (pe_start p) (pe_length p) (pe_number p) ro) else s in
  if part_index <? vf_partition_count s
  then s <| vf_partitions ::= tmod part_index (fun x => x <| pt_mounted := prior <? mount_count s |>) |> else s.
(** A disk that is seen for the first time: its node under /devices, then its partitions or a volume without any. *)
Definition mount_disk (id : Z) s : vfs :=
  if (vf_scanned s !!! id) || negb (disk_online (vf_d s) id) then s
  else
    let s := s <| vf_scanned := <[id := true]> (vf_scanned s) |> in
    let '(nodes, node) := ram_new (vf_nodes s) (take (Z.to_nat (K_PATH_MAX - 1)) (DEVICES_DIR ++ disk_name (vf_d s) id)) false in
    let s := s <| vf_nodes := nodes |> in
    let s := if 0 <=? node then
               s <| vf_nodes ::= tmod node (fun r => r <| n_kind := 3 |> <| n_block_id := id |>
                                                       <| n_size := u64 (disk_sectors (vf_d s) id * disk_sector_size (vf_d s) id) |>) |> else s in
    if disk_ram (vf_d s) id then s
    else
      let '(d, t) := read_disk_table (vf_d s) id in
      let s := s <| vf_d := d |> in
      match t with
      | Unreadable _ | No_table => s
      | Table e protective recovered parts =>
          if (e =? 0) && negb (bool_decide (parts = [])) then fold_left (mount_partition id recovered) parts s
          else if negb protective then
            let before := vf_volume_count s in
            let '(s, m) := fat_mount s id 0 (disk_sectors (vf_d s) id) 0 in
            if (m =? 0) && (before <? vf_volume_count s) then set_partition_ro before (negb (e =? 0)) s else s
          else s
      end.
Definition k_vfs_mount_disks s (lock cpu : Z) : vfs * Z :=
  if negb (vf_ready s) || negb (cpu =? 0) then (s, K_EBUSY)
  else if negb (lock =? 0) then (s, lock)
  else (fold_range 0 (k_disk_count (vf_d s)) mount_disk s, 0).
End Vfs.
