(* ===== verification/NativeFs.v ===== *)
(** The ext and NTFS volumes as the file system calls them,
    [src/kernel-src/fs/fs.c] (lines 1698-1699, 2569-2622, 2644-2687,
    2733-2879, 2975 and 4433-4483): the table of volumes, writing to a file,
    and the drivers as an instance of the class [Natives] of [Vfs]. *)
From S2P Require Import Prelude Klib Pmm PageAlloc Path Disk State Fat RamFs Native Ext Ntfs NativeRead ExtWrite NtfsWrite NtfsCreate Vfs.

Section NativeWrite.
Context {St D : Type} `{PageSource St} `{Disks D}.
#[local] Abbreviation Act := (Act St D).
#[local] Open Scope native_scope.

(** * Writing into the blocks of an ext4 file *)
Definition ext_writable (v : native_volume) (f : k_file) (raw : zmap) : bool :=
  (Z.land (rd16 raw 0) 0xf000 =? 0x8000) && (rd32 (nv_super v) 84 <=? f_cluster f) && (rd16 raw 26 =? 1) && (Z.land (rd32 raw 32) 0x2104030 =? 0).
Definition backed (runs : list native_run) (logical : Z) : bool := existsb (fun r => run_covers logical r && negb (run_hole r)) runs.
(** The static metadata of a group. *)
Definition static_areas (v : native_volume) (d : zmap) : list (Z * Z) :=
  [(ext_desc_block v d 0, 1); (ext_desc_block v d 4, 1); (ext_desc_block v d 8, table_blocks v)].
(** [bitmap] is the bitmap of the group [group], read when the group changes. *)
Definition check_allocated (p : Z) (s : Z * zmap) : Act (Z * zmap) :=
  let '(oldgroup, bitmap) := s in
  v <- vol;
  let first := rd32 (nv_super v) 20 in
  refuse (p <? first) K_EIO;;
  let g := u32 ((p - first) / nv_blocks_per_group v) in
  let bit := u32 ((p - first) mod nv_blocks_per_group v) in
  bitmap <- (if g =? oldgroup then aret bitmap
             else
               d <- ext_group g;
               refuse (uninitialized d 0 false) K_EIO;;
               data <- native_bytes (u64 (ext_desc_block v d 0 * nv_block v)) (nv_block v);
               refuse (nv_csum v && negb (bitmap_sum_ok v false d 0 (buffer data))) K_EIO;;
               aret (buffer data));
  refuse (negb (bit_at bitmap bit)) K_EIO;;
  aret (g, bitmap).
Fixpoint runs_allocated (runs : list native_run) (s : Z * zmap) : Act unit :=
  match runs with
  | [] => aret tt
  | r :: runs =>
      refuse (run_hole r) K_ENOTSUP;;
      s <- a_fold (run_physical r) (run_physical r + run_length r) check_allocated s;
      runs_allocated runs s
  end.
Definition ext_write (f : k_file) (offset : Z) (data : list Z) : Act unit :=
  v <- vol;
  raw <- ext_inode (f_cluster f);
  refuse (negb (ext_writable v f raw)) K_ENOTSUP;;
  refuse (negb (rd32 raw 100 =? f_directory_offset f) || negb (ext_size raw =? f_size f)) K_ENOENT;;
  runs <- ext_map (f_cluster f) raw;
  refuse (negb (all_range (offset / nv_block v) ((offset + zlen data - 1) / nv_block v + 1) (backed runs))) K_ENOTSUP;;
  a_for 0 (nv_groups v) (fun g =>
    d <- ext_group g;
    refuse (existsb (fun a => existsb (meets (fst a) (snd a)) runs) (static_areas v d)) K_EIO);;
  runs_allocated runs (2 ^ 32 - 1, ∅);;
  run_write runs offset data.

(** * Writing to a file: a short file is replaced as a whole *)
Definition with_pages {A} (n : Z) (m : Act A) : Act A := fun s =>
  let '(ps, ram, p) := pa_alloc (nx_ps s) (nx_ram s) n 0 in
  let s := s <| nx_ps := ps |> <| nx_ram := ram |> in
  if p =? 0 then (s, Err K_ENOMEM) else let '(s, r) := m s in (s <| nx_ps ::= (fun ps => pa_free ps p n) |>, r).
Definition rewrite_file (f : k_file) (offset : Z) (data : list Z) (size : Z) : Act k_file :=
  v <- vol;
  with_pages (data_pages size) (
    old <- read_file f 0 (f_size f);
    refuse (negb (zlen old =? f_size f)) K_EIO;;
    let image := bytes_at (write_bytes offset data (buffer old)) 0 size in
    (if nv_kind v =? 4 then ext_replace f image else ntfs_replace f image);;
    aret (f <| f_size := size |>)).
Definition in_place (f : k_file) (offset : Z) (data : list Z) : Act k_file :=
  v <- vol;
  refuse ((f_size f <? offset) || (f_size f - offset <? zlen data)) K_ENOTSUP;;
  if zlen data =? 0 then aret f
  else
    native_clean;;
    (if nv_kind v =? 5 then ntfs_data_write (f_cluster f) offset data else ext_write f offset data);;
    aret f.
(** After the refresh: the file, with the size that it has after the write. *)
Definition write_file (f : k_file) (offset : Z) (data : list Z) : Act k_file :=
  v <- vol;
  let offset := if offset =? 2 ^ 64 - 1 then f_size f else offset in
  let limit := 4 * 1024 * 1024 in
  if ((nv_kind v =? 4) || (nv_kind v =? 5)) && (f_size f <=? limit) && (offset <=? limit) && (zlen data <=? limit - offset) then
    if zlen data =? 0 then aret f
    else rewrite_file f offset data (if offset + zlen data <? f_size f then f_size f else offset + zlen data)
  else in_place f offset data.
Definition store_file (cycles : Z) (path : cstr) (data : list Z) : Act unit :=
  v <- vol;
  r <- catch (open_path path);
  match r with
  | inl e =>
      if e =? K_ENOENT then
        _ <- (if nv_kind v =? 4 then ext_create cycles path false data else ntfs_create path false data); aret tt
      else fails e
  | inr f =>
      refuse (negb (Z.land (f_attributes f) 0x10 =? 0)) K_EINVAL;;
      if f_kind f =? 4 then ext_replace f data else ntfs_replace f data
  end.
Definition create_file (cycles : Z) (path : cstr) (directory : bool) : Act k_file :=
  v <- vol;
  if nv_kind v =? 4 then ext_create cycles path directory [] else ntfs_create path directory [].
End NativeWrite.

(** * The table of volumes *)
Record natives := mk_natives { na_volumes : table native_volume; na_count : Z }.
#[export] Instance natives_updatable : Updatable natives := fun r => mk_natives (na_volumes r) (na_count r).
(** [arch_cycle_count], as a function of the state of the disks. *)
Class Cycles (D : Type) := arch_cycle_count : D -> Z.

Section Table.
Context {St D : Type} `{PageSource St} `{Disks D} `{Cycles D}.
Implicit Types (t : natives) (x : io D St) (f : k_file).
(** A computation on one volume: what it lists, and its result. *)
Definition run_native {A} t x (index : Z) (m : Act St D A) : natives * io D St * (list k_dirent * outcome A) :=
  let '(d, ps, ram) := x in
  let '(s, r) := m (mk_nx d ps ram (na_volumes t !!! index) index [] []) in
  (t <| na_volumes := <[index := nx_v s]> (na_volumes t) |>, (nx_d s, nx_ps s, nx_ram s), (nx_out s, r)).
Definition result {A} (r : outcome A) : Z + A := match r with Done a => inr a | Err e => inl e | Stuck => inl K_EIO end.
Definition absent_volume t (index : Z) : bool := na_count t <=? index.
Definition run_result {A} t x (index : Z) (m : Act St D A) : natives * io D St * (Z + A) :=
  let '(t, x, (_, r)) := run_native t x index m in (t, x, result r).

Definition fresh_volume (d : D) (disk start length : Z) (source : cstr) (ro : bool) : native_volume :=
  native0 <| nv_disk := disk |> <| nv_sector := disk_sector_size d disk |> <| nv_start := start |> <| nv_length := length |>
    <| nv_read_only := ro |> <| nv_source := source |>.
(** The slot after the last volume is filled; [table_add] makes it a volume. *)
Definition table_probe t x (disk start length partition : Z) (ro : bool) : natives * io D St * (Z + Z) :=
  let '(d, ps, ram) := x in
  let index := na_count t in
  let t := t <| na_volumes := <[index := fresh_volume d disk start length (volume_name disk partition) ro]> (na_volumes t) |> in
  if (length =? 0) || (disk_sectors d disk <=? start) || (disk_sectors d disk - start <? length) then (t, x, inl K_EINVAL)
  else
    let '(t, x, r) := run_result t x index probe_volume in
    (t, x, match r with inl e => inl e | inr _ => inr (nv_kind (na_volumes t !!! index)) end).
Definition table_add t : natives := t <| na_count ::= (fun n => n + 1) |>.
Definition table_create t x (index : Z) (path : cstr) (directory : bool) : natives * io D St * (Z + k_file) :=
  if absent_volume t index then (t, x, inl K_EINVAL) else run_result t x index (create_file (arch_cycle_count (fst (fst x))) path directory).
Definition table_store t x (index : Z) (path : cstr) (data : list Z) : natives * io D St * Z :=
  if absent_volume t index then (t, x, K_EINVAL)
  else let '(t, x, r) := run_result t x index (store_file (arch_cycle_count (fst (fst x))) path data) in (t, x, code r).
Definition table_open t x (index : Z) (path : cstr) : natives * io D St * (Z + k_file) :=
  if absent_volume t index then (t, x, inl K_ENOENT) else run_result t x index (open_path path).
Definition table_refresh t x f : natives * io D St * (k_file * Z) :=
  if absent_volume t (f_object f) then (t, x, (f, K_EINVAL))
  else
    let '(t, x, r) := run_result t x (f_object f) (refreshed_size f) in
    (t, x, match r with inl e => (f, e) | inr size => (f <| f_size := size |>, 0) end).
Definition table_read t x f (offset n : Z) : natives * io D St * (Z * list Z) :=
  if absent_volume t (f_object f) then (t, x, (K_EINVAL, []))
  else
    let '(t, x, r) := run_result t x (f_object f) (read_file f offset n) in
    (t, x, match r with inl e => (e, []) | inr data => (0, data) end).
Definition table_list t x f : natives * io D St * (list k_dirent * Z) :=
  if absent_volume t (f_object f) then (t, x, ([], K_EINVAL))
  else let '(t, x, (l, r)) := run_native t x (f_object f) (list_file f) in (t, x, (l, code (result r))).
(** A write: the file, the error, the number of bytes written. *)
Definition table_write t x f (offset : Z) (data : list Z) : natives * io D St * (k_file * (Z * Z)) :=
  if absent_volume t (f_object f) || negb (Z.land (f_attributes f) 0x10 =? 0) then (t, x, (f, (K_EINVAL, 0)))
  else
    let '(t, x, (f, e)) := table_refresh t x f in
    if negb (e =? 0) then (t, x, (f, (e, 0)))
    else
      let '(t, x, r) := run_result t x (f_object f) (write_file f offset data) in
      (t, x, match r with inl e => (f, (e, 0)) | inr f => (f, (0, zlen data)) end).
Definition sync_native (i : Z) (y : natives * io D St * Z) : natives * io D St * Z :=
  let '(t, x, e) := y in
  let v := na_volumes t !!! i in
  let '(x, n) :=
    if nv_failed v then (x, K_EIO)
    else if nv_wrote v then let '(d, ps, ram) := x in let '(d, n) := disk_flush d (nv_disk v) in ((d, ps, ram), n)
    else (x, 0) in
  (t, x, if negb (n =? 0) && (e =? 0) then n else e).
Definition table_sync t x : natives * io D St * Z := fold_range 0 (na_count t) sync_native (t, x, 0).
#[export] Instance table_natives : Natives natives D St := {
  native_count := na_count;
  native_probe_volume := table_probe;
  native_add := table_add;
  native_create := table_create;
  native_store := table_store;
  native_open := table_open;
  native_refresh := table_refresh;
  native_read := table_read;
  native_list := table_list;
  native_write := table_write;
  native_sync_all := table_sync }.
End Table.
