(* ===== verification/DiskStore.v ===== *)
(** A machine with one writable disk of 512-byte sectors, kept as the bytes on
    it: the operations of [Disk] and their contract.  The examples of the
    development run on it. *)
From S2P Require Import Prelude Klib Disk.

Section Store.
Context (sectors : Z).
Definition store_sector : Z := 512.
Definition store_byte (m : zmap) (a : Z) : Z := u8 (zget m a).
Definition in_store (lba n : Z) : bool := (0 <=? lba) && (0 <=? n) && (lba + n <=? sectors).
Definition byte_ok (x : Z) : bool := (0 <=? x) && (x <? 256).
Definition store_read (m : zmap) (id lba n : Z) : zmap * (Z + list Z) :=
  (m, if (id =? 0) && in_store lba n then inr (bytes_from (store_byte m) (lba * store_sector) (n * store_sector)) else inl K_EINVAL).
Definition store_write (m : zmap) (id lba : Z) (data : list Z) : zmap * Z :=
  if (id =? 0) && in_store lba (Z.of_nat (length data) / store_sector) && forallb byte_ok data then (write_bytes (lba * store_sector) data m, 0) else (m, K_EINVAL).
Definition store_disk : Disks zmap := {|
  k_disk_count _ := 1; k_disk_get _ _ := inl K_ENOENT; disk_sectors _ _ := sectors; disk_sector_size _ _ := store_sector;
  disk_ram _ _ := false; disk_flush_command _ _ := true; disk_online _ _ := true; disk_name _ _ := [100; 105; 115; 107; 48];
  k_disk_read := store_read; disk_write_fs := store_write; disk_flush m _ := (m, 0) |}.

Lemma byte_ok_u8 x : byte_ok x = true <-> is_u8 x.
Proof. unfold byte_ok, is_u8. rewrite andb_true_iff, Z.leb_le, Z.ltb_lt. done. Qed.
Definition store_contents : @DiskContents zmap store_disk.
Proof.
  refine (@Build_DiskContents zmap store_disk (fun m id a => if id =? 0 then store_byte m a else 0) _ _ _ _ _).
  - intros m id a. destruct (id =? 0); [by apply Z.mod_pos_bound|unfold is_u8; lia].
  - intros m id lba n m' r. cbn. unfold store_read. intros [= <- <-]. split_and!; [done..|]. intros data. destruct (id =? 0); [|done]. cbn [andb].
    destruct (in_store _ _); [|done]. by intros [= <-].
  - intros m id lba n m' e. cbn. unfold store_read. destruct (_ && _); [done|]. by intros [= _ <-].
  - intros m id lba data m' e. cbn. unfold store_write. destruct (_ && _) eqn:E; [|intros [= <- <-]; by split_and!]. intros [= <- <-].
    apply andb_prop in E as [E Hu8]. apply andb_prop in E as [Hid _]. rewrite Hid. apply Z.eqb_eq in Hid as ->. split_and!; [by split| |].
    + intros i a Ha. destruct (Z.eqb_spec i 0) as [->|]; [|done]. unfold store_byte. rewrite write_bytes_get.
      destruct (_ && _) eqn:Er; [|done]. reflect_bools. destruct Ha as [|[?|?]]; lia.
    + intros _. apply list_eq_same_length with (n := length data); [done|by rewrite bytes_from_length, Nat2Z.id|]. intros i x y Hi Hx Hy.
      rewrite bytes_from_lookup in Hx by lia. injection Hx as <-. unfold store_byte. rewrite write_bytes_get.
      replace (_ && _) with true by (symmetry; apply andb_true_intro; split; [apply Z.leb_le|apply Z.ltb_lt]; lia).
      replace (Z.to_nat (lba * store_sector + Z.of_nat i - lba * store_sector)) with i by lia. rewrite (list_lookup_total_correct _ _ _ Hy).
      apply Is_true_true, forallb_True in Hu8. rewrite Forall_lookup in Hu8. specialize (Hu8 i y Hy). apply Is_true_true, byte_ok_u8 in Hu8.
      apply Z.mod_small. exact Hu8.
  - intros m id m' e. cbn. intros [= <- <-]. by split.
Defined.
End Store.
