(* ===== verification/NativeDemo.v ===== *)
(** Two small volumes for the examples of the native file systems: an ext
    volume of 25 blocks with one file, and an NTFS volume of 26 records with
    one file, each given by the fields of its metadata on a [DiskStore] disk. *)
From S2P Require Import Prelude Klib Pmm PageAlloc Path Disk DiskStore State Fat Native Ext Ntfs NativeRead ExtWrite NtfsWrite NtfsCreate Vfs NativeFs.

(** Bytes at places. *)
Definition pieces (l : list (Z * list Z)) : zmap := foldr (fun x m => write_bytes (fst x) (snd x) m) ∅ l.
Definition b16 (x : Z) : list Z := bytes_at (wr16 ∅ 0 x) 0 2.
Definition b32 (x : Z) : list Z := bytes_at (wr32 ∅ 0 x) 0 4.
Definition b64 (x : Z) : list Z := bytes_at (wr64 ∅ 0 x) 0 8.
Definition at_base (base : Z) (l : list (Z * list Z)) : list (Z * list Z) := map (fun x => (base + fst x, snd x)) l.
#[export] Instance demo_cycles : Cycles zmap := fun _ => 12345.

(** * An ext volume: blocks of 1 KiB; the file /a holds five bytes *)
Definition ext_super_fields : list (Z * list Z) := at_base 1024
  [(0, b32 16); (4, b32 25); (12, b32 16); (16, b32 4); (20, b32 1); (32, b32 24); (40, b32 16); (56, b16 0xef53); (58, b16 1); (76, b32 1);
   (84, b32 11); (88, b16 128); (96, b32 0x42)].
Definition ext_group_fields : list (Z * list Z) := at_base 2048 [(0, b32 3); (4, b32 4); (8, b32 5); (12, b16 16); (14, b16 4); (16, b16 1)].
Definition ext_inode_fields (mode size links block generation : Z) : list (Z * list Z) :=
  [(0, b16 mode); (4, b32 size); (26, b16 links); (32, b32 0x80000); (40, b16 0xf30a); (42, b16 1); (44, b16 4); (56, b16 1); (60, b32 block); (100, b32 generation)].
Definition dirent_fields (ino rec type : Z) (name : list Z) : list (Z * list Z) := [(0, b32 ino); (4, b16 rec); (6, [zlen name]); (7, [type]); (8, name)].
Definition demo_ext : zmap := pieces (
  ext_super_fields ++ ext_group_fields ++ [(3 * 1024, [0xff]); (4 * 1024, [0xff; 0x0f])] ++
  at_base (5 * 1024 + 128) (ext_inode_fields 0x41ed 1024 2 7 7) ++ at_base (5 * 1024 + 11 * 128) (ext_inode_fields 0x81a4 5 1 8 9) ++
  at_base (7 * 1024) (dirent_fields 2 12 2 [DOT]) ++ at_base (7 * 1024 + 12) (dirent_fields 2 12 2 [DOT; DOT]) ++
  at_base (7 * 1024 + 24) (dirent_fields 12 1000 1 [97]) ++ [(8 * 1024, [104; 101; 108; 108; 111])]).

(** * An NTFS volume: clusters of 512 bytes, records and index blocks of 1 KiB; the file /A.TXT has five bytes in cluster 65 *)
Definition demo_shape : native_volume := native0 <| nv_sector := 512 |> <| nv_block := 512 |> <| nv_record_size := 1024 |> <| nv_index_size := 1024 |>.
Definition appended (raw : zmap) (attribute : list Z) : zmap := match nt_record_append 1024 raw attribute with inr raw => raw | inl _ => raw end.
Definition demo_record (i flags : Z) (attrs : list (list Z)) : Z * list Z :=
  (4 * 512 + i * 1024, bytes_at (ntfs_pack (wr16 (foldl appended (clear_record demo_shape i 1) attrs) 22 flags) 48 3) 0 1024).
Definition demo_standard (attributes : Z) : list Z := bytes_at (wr32 (wr32 ∅ 32 attributes) 52 256) 0 72.
Definition NAME : cstr := [65; DOT; 84; 88; 84].
Definition demo_filename : list Z := filename_value (5 + 2 ^ 48) (demo_standard 0x20) 512 5 false NAME.
Definition demo_root_index : list Z :=
  let m := insert_entry 16 16 96 32 (24 + 2 ^ 48) demo_filename (buffer (root_value demo_shape)) in bytes_at (wr32 m 24 128) 0 144.
Definition demo_data (start len size : Z) : list Z := nt_data_attribute 512 1 (mk_run 0 start len false) size.
Definition demo_boot_fields : list (Z * list Z) :=
  [(3, NTFS_ID); (11, b16 512); (13, [1]); (40, b64 80); (48, b64 4); (56, b64 56); (64, [246]); (68, [246]); (510, [0x55; 0xaa])].
Definition demo_records : list (Z * list Z) :=
  [demo_record 0 1 [demo_data 4 52 26624; nt_resident_attr 0xb0 2 [] [0xff; 0xff; 0xff; 0x01]]; demo_record 1 1 [demo_data 56 8 4096];
   demo_record 3 1 [nt_resident_attr 0x70 1 [] (replicate 12 0)];
   demo_record 5 3 [nt_resident_attr 0x10 0 [] (demo_standard 0); nt_resident_attr 0x90 1 I30 demo_root_index];
   demo_record 6 1 [demo_data 64 1 10];
   demo_record 24 1 [nt_resident_attr 0x10 0 [] (demo_standard 0x20); nt_resident_attr 0x30 2 [] demo_filename; demo_data 65 1 5]].
Definition demo_unused (i : nat) : Z * list Z := demo_record (Z.of_nat i) 0 [].
Definition demo_ntfs : zmap := pieces (
  demo_boot_fields ++ demo_records ++ map demo_unused ([2; 4] ++ seq 7 17)%nat ++
  [(64 * 512, [0xf1; 0xff; 0xff; 0xff; 0xff; 0xff; 0xff; 0xff; 0x03; 0x80]); (65 * 512, [104; 101; 108; 108; 111])]).
