(* ===== verification/NativeLogic.v ===== *)
(** A program logic for the computations of the native file systems: [ok m Q]
    says that [m] keeps the invariant, is never stuck, and returns what [Q]
    says.  The invariant is any property of the disks that reads and flushes
    of the volume keep, with the geometry of the volume unchanged and bytes in
    the staged blocks.  Rules, and the reading half of both drivers. *)
From S2P Require Import Prelude Klib Pmm PageAlloc Path Disk State Fat Native Ext Ntfs NativeRead.

(** * Buffers of bytes *)
Create HintDb u8 discriminated.
Lemma zput_u8 m a v : bytes_ok m -> is_u8 v -> bytes_ok (zput m a v).
Proof. apply bytes_ok_put. Qed.
Lemma wr16_u8 m p v : bytes_ok m -> bytes_ok (wr16 m p v).
Proof. intros Hm. unfold wr16. repeat apply bytes_ok_put; auto using u8_range. Qed.
Lemma bytes_at_u8 m p n : bytes_ok m -> Forall is_u8 (bytes_at m p n).
Proof. intros Hm. apply bytes_from_u8, Hm. Qed.
Lemma bytes_at_length m p n : 0 <= n -> zlen (bytes_at m p n) = n.
Proof. intros Hn. unfold zlen, bytes_at. rewrite bytes_from_length. lia. Qed.
Lemma zget_u8 m a : bytes_ok m -> is_u8 (zget m a).
Proof. intros Hm. apply Hm. Qed.
Lemma if_u8 (b : bool) m m' : bytes_ok m -> bytes_ok m' -> bytes_ok (if b then m else m').
Proof. by destruct b. Qed.
Lemma app_u8 a b : Forall is_u8 a -> Forall is_u8 b -> Forall is_u8 (a ++ b).
Proof. intros Ha Hb. by apply Forall_app. Qed.
Lemma take_u8 n l : Forall is_u8 l -> Forall is_u8 (take n l).
Proof. apply Forall_take. Qed.
Lemma drop_u8 n l : Forall is_u8 l -> Forall is_u8 (drop n l).
Proof. apply Forall_drop. Qed.
Lemma zeros_u8 n : Forall is_u8 (replicate n 0).
Proof. apply Forall_replicate. unfold is_u8. lia. Qed.
Lemma nil_u8 : Forall is_u8 [].
Proof. apply Forall_nil_2. Qed.
Lemma rd16_u16 m p : bytes_ok m -> is_u16 (rd16 m p).
Proof. intros Hm. by apply rd16_range. Qed.
#[export] Hint Resolve zput_u8 wr16_u8 wr32_bytes_ok wr64_bytes_ok write_bytes_ok buffer_bytes bytes_ok_empty bytes_at_u8 zget_u8 u8_range if_u8 app_u8 take_u8 drop_u8 zeros_u8 nil_u8 : u8.
#[export] Hint Extern 2 (is_u8 (Zpos _)) => (split; reflexivity || discriminate) : u8.
#[export] Hint Extern 2 (is_u8 Z0) => (split; reflexivity || discriminate) : u8.
Lemma fold_range_u8 lo hi (body : Z -> zmap -> zmap) m : (forall i m, bytes_ok m -> bytes_ok (body i m)) -> bytes_ok m -> bytes_ok (fold_range lo hi body m).
Proof.
  intros Hb Hm. unfold fold_range. generalize (Z.to_nat (hi - lo)). intros n. revert lo m Hm.
  induction n as [|n IH]; intros i m Hm; [exact Hm|]. cbn [fold_loop]. apply IH, Hb, Hm.
Qed.

Lemma fixup_u8 rec size magic rec' : bytes_ok rec -> ntfs_fixup rec size magic = inr rec' -> bytes_ok rec'.
Proof.
  intros Hr. unfold ntfs_fixup. destruct (_ || _); [done|]. cbv zeta. destruct (_ || _); [done|].
  match goal with |- context [for_range 1 ?c ?b rec] => pose proof (for_range_pres bytes_ok (fun _ : Z => True) b 1 c rec Hr) as Hl; lapply Hl; [clear Hl; intros Hl; destruct (for_range 1 c b rec); [|done]|] end.
  - by intros [= <-].
  - intros i m Hm. unfold fixup_step. cbv zeta. destruct (negb _); [done|]. by apply wr16_u8.
Qed.

(** * Loops that only read a buffer *)
Lemma run_loop_some fuel : forall blocks rec a size x, bytes_ok rec -> size - rs_at x <= Z.of_nat fuel -> run_loop fuel blocks rec a size x <> None.
Proof.
  induction fuel as [|fuel IH]; intros blocks rec a size x Hr Hf; cbn [run_loop]; (destruct (_ && _) eqn:E; [|done]); reflect_bools; [lia|].
  destruct (run_step blocks rec a size x) as [e|y] eqn:Es; [done|]. apply IH; [done|]. unfold run_step in Es.
  destruct (_ || _) eqn:Eb in Es; [done|]. reflect_bools.
  assert (0 <= Z.shiftr (zget rec (a + rs_at x)) 4) by (apply Z.shiftr_nonneg; apply (Hr (a + rs_at x))).
  assert (0 <= Z.land (zget rec (a + rs_at x)) 15) by (apply Z.land_nonneg; lia).
  destruct (if Z.shiftr _ 4 =? 0 then _ else _) as [e|lcn]; [done|]. destruct (run_add _ _ _ _ _ _) as [e|runs]; [done|]. injection Es as <-. cbn [rs_at]. lia.
Qed.
Lemma ntfs_runs_some v rec a size : bytes_ok rec -> ntfs_runs v rec a size <> None.
Proof.
  intros Hr. unfold ntfs_runs. destruct (_ || _); [done|]. cbv zeta. destruct ((_ <? 64) || _) eqn:Eb; [done|]. reflect_bools.
  destruct (run_loop _ _ _ _ _ _) as [[e|x]|] eqn:El; [done..|]. apply run_loop_some in El; [done..|]. cbn [rs_at]. lia.
Qed.
Lemma attr_loop_some fuel : forall rec used type name at_ seen, used - at_ <= Z.of_nat fuel -> attr_loop fuel rec used type name at_ seen <> None.
Proof.
  induction fuel as [|fuel IH]; intros rec used type name at_ seen Hf; cbn [attr_loop].
  - destruct (used <? at_ + 4) eqn:E; [done|]. reflect_bools. lia.
  - destruct (used <? at_ + 4); [done|]. cbv zeta. destruct (_ =? 0xffffffff); [done|]. destruct (used <? at_ + 16); [done|].
    destruct (_ || (1 <? _)) eqn:Eb; [done|]. destruct (_ =? 0x20); [done|]. destruct (_ && (_ || _)); [done|]. destruct (_ && bool_decide _); [done|]. reflect_bools. apply IH. lia.
Qed.
Lemma ntfs_attr_some rec type name : bytes_ok rec -> ntfs_attr rec type name <> None.
Proof. intros Hr. unfold ntfs_attr. apply attr_loop_some. pose proof (rd16_u16 rec 20 Hr) as Hu. unfold is_u16 in Hu. lia. Qed.

(** * The geometry of a volume *)
Record native_ok (v : native_volume) : Prop := {
  no_sector : 0 < nv_sector v < 2 ^ 32;
  no_block : 0 < nv_block v;
  no_start : 0 <= nv_start v;
  no_length : 0 <= nv_length v;
  no_end : (nv_start v + nv_length v) * nv_sector v < 2 ^ 64;
  no_record : 0 <= nv_record_size v;
  no_index : 0 <= nv_index_size v;
  no_inode : 0 <= nv_inode_size v;
  no_desc : 0 <= nv_desc_size v;
  no_blocks : 0 <= nv_blocks v < 2 ^ 64;
  no_span : nv_blocks v * nv_block v <= nv_length v * nv_sector v
}.
(** What writing does not change. *)
Definition nshape (v : native_volume) : native_volume := v <| nv_failed := false |> <| nv_wrote := false |> <| nv_super := ∅ |>.
Definition slot_ok (x : Z * zmap) : Prop := bytes_ok (snd x).

Section Logic.
Context {St D : Type} `{PageSource St} `{Disks D} (P : D -> Prop) (v0 : native_volume).
(** [v] differs from [v0] in what writing changes only; a failed volume stays failed. *)
Definition same_native (v : native_volume) : Prop := nshape v = nshape v0 /\ (nv_failed v0 = true -> nv_failed v = true).
(** What the reading half asks of the property [P] of the disks. *)
Class Reads : Prop := {
  geometry : native_ok v0;
  read_law : forall v d offset n, same_native v -> 0 <= offset -> 0 <= n -> offset + n <= nv_length v * nv_sector v -> P d ->
    P (fst (disk_bytes d (nv_disk v) (nv_start v * nv_sector v + offset) n)) /\
    (forall data, snd (disk_bytes d (nv_disk v) (nv_start v * nv_sector v + offset) n) = inr data -> Forall is_u8 data /\ zlen data = n);
  flush_law : forall v d, same_native v -> P d -> P (fst (disk_flush d (nv_disk v)))
}.
Context {reads : Reads}.
Definition nx_ok (s : nx St D) : Prop := P (nx_d s) /\ same_native (nx_v s) /\ Forall slot_ok (nx_tx s).
Definition ok {A} (m : Act St D A) (Q : A -> Prop) : Prop :=
  forall s, nx_ok s -> nx_ok (fst (m s)) /\ match snd (m s) with Done a => Q a | Err _ => True | Stuck => False end.
#[local] Abbreviation ok_ m := (ok m (fun _ => True)).

Lemma same_native_ok v : same_native v -> native_ok v.
Proof.
  intros [E _]. assert (forall (T : Type) (f : native_volume -> T), (forall w, f (nshape w) = f w) -> f v = f v0) as Hf.
  { intros T f G. rewrite <- (G v), <- (G v0). by f_equal. }
  pose proof (geometry (Reads := reads)) as G0. destruct G0. split; rewrite ?(Hf _ nv_sector), ?(Hf _ nv_block), ?(Hf _ nv_start), ?(Hf _ nv_length), ?(Hf _ nv_record_size), ?(Hf _ nv_index_size), ?(Hf _ nv_inode_size), ?(Hf _ nv_desc_size), ?(Hf _ nv_blocks) by done; done.
Qed.

(** ** Rules *)
Lemma act_ret {A} (a : A) (Q : A -> Prop) : Q a -> ok (aret a) Q.
Proof. intros Ha s Hs. by split. Qed.
Lemma ok_fails {A} e (Q : A -> Prop) : ok (fails e) Q.
Proof. intros s Hs. by split. Qed.
Lemma act_bind {A B} (m : Act St D A) (k : A -> Act St D B) Q R : ok m Q -> (forall a, Q a -> ok (k a) R) -> ok (abind m k) R.
Proof.
  intros Hm Hk s Hs. unfold abind. destruct (Hm s Hs) as [H1 H2]. destruct (m s) as [s1 [a|e|]]; cbn [fst snd] in *; [by apply Hk|by split|done].
Qed.
Lemma act_weaken {A} (m : Act St D A) (Q R : A -> Prop) : ok m Q -> (forall a, Q a -> R a) -> ok m R.
Proof. intros Hm HQ s Hs. destruct (Hm s Hs) as [H1 H2]. split; [done|]. destruct (snd (m s)); auto. Qed.
Lemma ok_any {A} (m : Act St D A) Q : ok m Q -> ok_ m.
Proof. intros Hm. by eapply act_weaken. Qed.
Lemma ok_catch {A} (m : Act St D A) (Q : A -> Prop) : ok m Q -> ok (catch m) (fun r => match r with inr a => Q a | inl _ => True end).
Proof. intros Hm s Hs. unfold catch. destruct (Hm s Hs) as [H1 H2]. by destruct (m s) as [s1 [a|e|]]. Qed.
Lemma ok_lift {A} (r : Z + A) (Q : A -> Prop) : (forall a, r = inr a -> Q a) -> ok (lift r) Q.
Proof. intros Hr. destruct r as [e|a]; [apply ok_fails|apply act_ret; by apply Hr]. Qed.
Lemma ok_lift_loop {A} (r : option (Z + A)) (Q : A -> Prop) : r <> None -> (forall a, r = Some (inr a) -> Q a) -> ok (lift_loop r) Q.
Proof. intros Hn Hr. destruct r as [r|]; [|done]. apply ok_lift. intros a ->. by apply Hr. Qed.
Lemma ok_refuse b e (Q : unit -> Prop) : (b = false -> Q tt) -> ok (refuse b e) Q.
Proof. intros HQ. destruct b; [apply ok_fails|apply act_ret; auto]. Qed.
Lemma ok_vol (Q : native_volume -> Prop) : (forall v, same_native v -> native_ok v -> Q v) -> ok vol Q.
Proof. intros HQ s Hs. split; [done|]. cbn. destruct Hs as (_ & Hv & _). apply HQ; [done|]. by apply same_native_ok. Qed.
Lemma ok_index : ok_ volume_index.
Proof. intros s Hs. by split. Qed.
Lemma ok_emit x : ok_ (emit x).
Proof. intros s Hs. by split. Qed.
Lemma ok_staged : ok staged (Forall slot_ok).
Proof. intros s Hs. split; [done|]. apply Hs. Qed.
Lemma ok_on_staged f : (forall l, Forall slot_ok l -> Forall slot_ok (f l)) -> ok_ (on_staged f).
Proof. intros Hf s (H1 & H2 & H3). split; [|done]. split_and!; [done|done|]. by apply Hf. Qed.
Lemma ok_steps {S R} (I : S -> Prop) (Q : R -> Prop) (body : Z -> S -> Act St D (flow S R)) n : forall i s, I s ->
  (forall j s, i <= j < i + Z.of_nat n -> I s -> ok (body j s) (fun f => match f with Next s => I s | Exit r => Q r end)) ->
  ok (a_steps n i body s) (fun f => match f with Next s => I s | Exit r => Q r end).
Proof.
  induction n as [|n IH]; intros i s Hs Hb; cbn [a_steps]; [by apply act_ret|]. eapply act_bind; [apply Hb; [lia|done]|].
  intros [t|r] Ht; [|by apply act_ret]. apply IH; [done|]. intros j u Hj. apply Hb. lia.
Qed.
Lemma ok_range {S R} (I : S -> Prop) (Q : R -> Prop) lo hi (body : Z -> S -> Act St D (flow S R)) s : I s ->
  (forall j s, lo <= j < hi -> I s -> ok (body j s) (fun f => match f with Next s => I s | Exit r => Q r end)) ->
  ok (a_range lo hi body s) (fun f => match f with Next s => I s | Exit r => Q r end).
Proof. intros Hs Hb. unfold a_range. apply ok_steps; [done|]. intros j t Hj. apply Hb. lia. Qed.
Lemma ok_iter {S} (I : S -> Prop) (body : Z -> S -> Act St D S) n : forall i s, I s -> (forall j s, i <= j < i + Z.of_nat n -> I s -> ok (body j s) I) -> ok (a_iter n i body s) I.
Proof.
  induction n as [|n IH]; intros i s Hs Hb; cbn [a_iter]; [by apply act_ret|]. eapply act_bind; [apply Hb; [lia|done]|]. intros t Ht. apply IH; [done|].
  intros j u Hj. apply Hb. lia.
Qed.
Lemma ok_fold {S} (I : S -> Prop) lo hi (body : Z -> S -> Act St D S) s : I s -> (forall j s, lo <= j < hi -> I s -> ok (body j s) I) -> ok (a_fold lo hi body s) I.
Proof. intros Hs Hb. unfold a_fold. apply ok_iter; [done|]. intros j t Hj. apply Hb. lia. Qed.
Lemma act_for lo hi (body : Z -> Act St D unit) : (forall j, lo <= j < hi -> ok_ (body j)) -> ok_ (a_for lo hi body).
Proof. intros Hb. unfold a_for. apply ok_fold; [done|]. intros j [] Hj _. by apply Hb. Qed.
Lemma ok_each {A} (l : list A) (body : A -> Act St D unit) (Q : A -> Prop) : Forall Q l -> (forall x, Q x -> ok_ (body x)) -> ok_ (a_each l body).
Proof.
  intros Hl Hb. induction Hl as [|x l Hx _ IH]; cbn [a_each]; [by apply act_ret|]. eapply act_bind; [by apply Hb|]. intros _ _. exact IH.
Qed.
(** Every round that goes on makes the measure smaller. *)
Lemma act_loop {S R} (I : S -> Prop) (mu : S -> Z) (Q : R -> Prop) (body : S -> Act St D (flow S R)) fuel : forall s, I s -> mu s < Z.of_nat fuel ->
  (forall s, I s -> ok (body s) (fun f => match f with Next t => I t /\ 0 <= mu t < mu s | Exit r => Q r end)) ->
  0 <= mu s -> ok (a_loop fuel body s) Q.
Proof.
  induction fuel as [|fuel IH]; intros s Hs Hf Hb Hm; [lia|]. cbn [a_loop]. eapply act_bind; [by apply Hb|]. intros [t|r] Ht; [|by apply act_ret].
  destruct Ht as [Ht Hlt]. apply IH; [done|lia|done|lia].
Qed.
End Logic.

(** One step through a computation: the rule for its head. *)
Ltac act_step :=
  lazymatch goal with
  | |- ok _ _ (aret _) _ => apply act_ret
  | |- ok _ _ (fails _) _ => apply ok_fails
  | |- ok ?P ?w (abind vol _) _ => eapply (act_bind P w vol _ (fun v => same_native w v /\ native_ok v)); [apply (ok_vol P w); intros ?v ?Hv ?Hok; split; assumption|intros ?v [?Hv ?Hok]]
  | |- ok ?P ?w (abind (refuse ?b ?e) _) _ => eapply (act_bind P w (refuse b e) _ (fun _ => b = false)); [apply ok_refuse; intros ?Hr; assumption|intros [] ?Hr]
  | |- ok _ _ (abind _ _) _ => eapply act_bind; [solve [eauto 6 with native]|]; intros ? ?Hq
  | |- ok _ _ (refuse _ _) _ => apply ok_refuse; intros ?Hr
  | |- ok _ _ (if ?b then _ else _) _ => destruct b eqn:?Hb
  | |- ok _ _ (match (_, _) with _ => _ end) _ => cbv beta iota zeta
  | |- ok _ _ (match ?x with _ => _ end) _ => destruct x eqn:?Hm
  | |- ok _ _ (let _ := _ in _) _ => cbv zeta
  end.
Ltac act := repeat act_step.
Create HintDb native discriminated.
