(* ===== verification/NativeRuns.v ===== *)
(** Run tables: what [run_add] lets into a table, whatever the disk says.  The
    runs are not empty, follow one another in the file, end inside the volume,
    and no two of them share a block. *)
From S2P Require Import Prelude Klib Pmm PageAlloc Path Disk State Fat Native Ext Ntfs NativeRead NativeLogic.

(** * Tables *)
Record run_good (blocks : Z) (r : native_run) : Prop := {
  rg_length : 0 < run_length r;
  rg_logical : 0 <= run_logical r;
  rg_end : run_logical r + run_length r < 2 ^ 64;
  rg_place : run_hole r = false -> 0 <= run_physical r /\ run_physical r + run_length r <= blocks
}.
Definition run_follows (a b : native_run) : Prop :=
  run_logical a + run_length a <= run_logical b /\
  (run_hole a = false -> run_hole b = false -> run_physical a + run_length a <= run_physical b \/ run_physical b + run_length b <= run_physical a).
Definition runs_ok (blocks : Z) (runs : list native_run) : Prop :=
  Forall (run_good blocks) runs /\ (forall i j a b, (i < j)%nat -> runs !! i = Some a -> runs !! j = Some b -> run_follows a b).
Lemma runs_ok_nil blocks : runs_ok blocks [].
Proof. split; [apply Forall_nil_2|done]. Qed.
Lemma runs_ok_snoc blocks runs r : runs_ok blocks runs -> run_good blocks r -> Forall (fun a => run_follows a r) runs -> runs_ok blocks (runs ++ [r]).
Proof.
  intros [Hg Hf] Hr Ha. split; [by apply Forall_app; split; [|apply Forall_singleton]|]. intros i j a b Hij Hi Hj.
  destruct (decide (j < length runs)%nat) as [Hlt|Hge].
  - rewrite lookup_app_l in Hi, Hj by lia. by apply (Hf i j).
  - assert (j = length runs) as -> by (apply lookup_lt_Some in Hj; rewrite length_app in Hj; cbn in Hj; lia).
    rewrite lookup_app_r, Nat.sub_diag in Hj by lia. injection Hj as <-. rewrite lookup_app_l in Hi by lia. rewrite Forall_lookup in Ha. by apply (Ha i).
Qed.
(** The ends of the runs grow: the last one bounds them all. *)
Lemma runs_ok_last blocks runs l : runs_ok blocks runs -> last runs = Some l -> Forall (fun a => run_logical a + run_length a <= run_logical l + run_length l) runs.
Proof.
  intros [Hg Hf] Hl. rewrite last_lookup in Hl. apply Forall_lookup. intros i a Hi. pose proof (lookup_lt_Some _ _ _ Hi) as Hlt. destruct (decide (i = pred (length runs))) as [->|Hne]; [by simplify_eq|].
  destruct (Hf i (pred (length runs)) a l ltac:(lia) Hi Hl) as [H1 _]. rewrite Forall_lookup in Hg. destruct (Hg _ _ Hl). lia.
Qed.
Lemma run_overlap_apart blocks a b : blocks < 2 ^ 64 -> run_good blocks a -> run_good blocks b -> run_overlap b a = false ->
  run_hole a = false -> run_hole b = false -> run_physical a + run_length a <= run_physical b \/ run_physical b + run_length b <= run_physical a.
Proof.
  intros Hb [Ha1 _ _ Ha] [Hb1 _ _ Hb2] Ho Hha Hhb. specialize (Ha Hha). specialize (Hb2 Hhb). unfold run_overlap, overlap in Ho. rewrite Hha, Hhb in Ho. cbn [negb andb] in Ho.
  unfold u64 in Ho. rewrite !Z.mod_small in Ho by lia. rewrite (proj2 (Z.eqb_neq _ 0)), (proj2 (Z.eqb_neq _ 0)) in Ho by lia. cbn [negb andb] in Ho.
  apply andb_false_iff in Ho as [Ho|Ho]; apply Z.ltb_ge in Ho; lia.
Qed.
Lemma run_add_ok blocks runs logical physical length hole runs' : blocks < 2 ^ 64 -> 0 <= logical -> 0 <= physical -> 0 <= length ->
  runs_ok blocks runs -> run_add blocks runs logical physical length hole = inr runs' -> runs_ok blocks runs'.
Proof.
  intros Hb Hl Hp Hn Hok. unfold run_add. cbv zeta. destruct (_ || (negb hole && _)) eqn:E1; [done|]. destruct (match last runs with Some l => _ | None => _ end) eqn:E2; [done|].
  destruct (existsb _ _) eqn:E3; [done|]. intros [= <-]. apply orb_false_elim in E1 as [E1 Eh]. apply orb_false_elim in E1 as [E1 E4]. apply orb_false_elim in E1 as [E1 _].
  apply Z.eqb_neq in E1. apply Z.ltb_ge in E4.
  assert (run_good blocks (mk_run logical physical length hole)) as Hr.
  { split; cbn; [lia|done|lia|]. intros ->. cbn [negb andb] in Eh. apply orb_false_elim in Eh as [H1 H2]. apply Z.leb_gt in H1. apply Z.ltb_ge in H2. lia. }
  apply runs_ok_snoc; [done|done|]. apply Forall_forall. intros a Ha. pose proof (proj1 (Forall_forall _ _) (proj1 Hok) a Ha) as Hga. split.
  - cbn. destruct (last runs) as [l|] eqn:El; [|apply last_None in El; subst runs; by apply elem_of_nil in Ha].
    pose proof (proj1 (Forall_forall _ _) (runs_ok_last _ _ _ Hok El) a Ha) as H1. rewrite last_lookup in El. pose proof (proj1 (Forall_lookup _ _) (proj1 Hok) _ _ El) as [].
    apply Z.ltb_ge in E2. unfold u64 in E2. rewrite Z.mod_small in E2 by lia. cbv beta in H1. lia.
  - apply (run_overlap_apart blocks); [done|done|done|]. destruct (run_overlap _ a) eqn:Eo; [|done]. assert (existsb (run_overlap (mk_run logical physical length hole)) runs = true) as Hx; [|congruence].
    apply existsb_exists. exists a. split; [by apply list_elem_of_In|done].
Qed.

(** * Tables of NTFS attributes *)
Lemma le_bytes_range rec n : forall at_, bytes_ok rec -> 0 <= le_bytes rec at_ n < 2 ^ (8 * Z.of_nat n).
Proof.
  induction n as [|n IH]; intros at_ Hr; cbn [le_bytes]; [done|]. specialize (IH (at_ + 1) Hr). pose proof (zget_u8 rec at_ Hr) as Hb. unfold is_u8 in Hb.
  rewrite lor_shiftl_add by lia. replace (8 * Z.of_nat (S n)) with (8 * Z.of_nat n + 8) by lia. rewrite Z.pow_add_r by lia. lia.
Qed.
Lemma move_cluster_nonneg lcn delta lcn' : 0 <= lcn -> move_cluster lcn delta = inr lcn' -> 0 <= lcn'.
Proof.
  intros Hl. unfold move_cluster. destruct (Z.ltb_spec (s64 delta) 0) as [Hs|Hs].
  - cbv zeta. destruct (Z.ltb_spec lcn (u64 (0 - delta))); [done|]. intros [= <-]. lia.
  - destruct (_ <? _); [done|]. intros [= <-]. lia.
Qed.
Definition run_state_ok (blocks : Z) (x : run_state) : Prop := 0 <= rs_vcn x /\ 0 <= rs_lcn x /\ runs_ok blocks (rs_runs x).
Lemma run_step_ok blocks rec a size x y : blocks < 2 ^ 64 -> bytes_ok rec -> run_state_ok blocks x -> run_step blocks rec a size x = inr y -> run_state_ok blocks y.
Proof.
  intros Hb Hr (H1 & H2 & H3). unfold run_step. cbv zeta. destruct (_ || _); [done|]. set (len := le_bytes rec (a + (rs_at x + 1)) _). pose proof (le_bytes_range rec _ (a + (rs_at x + 1)) Hr : 0 <= len < _) as Hlen.
  destruct (if _ =? 0 then _ else _) as [e|lcn] eqn:El; [done|]. assert (0 <= lcn) as Hlcn.
  { destruct (_ =? 0) in El; [by injection El as <-|]. by apply move_cluster_nonneg in El. }
  destruct (run_add _ _ _ _ _ _) as [e|runs] eqn:Ea; [done|]. intros [= <-]. split_and!; cbn; [lia|done|]. eapply run_add_ok; [done| | | |exact H3|exact Ea]; lia.
Qed.
Lemma run_loop_ok fuel blocks rec a size : blocks < 2 ^ 64 -> bytes_ok rec -> forall x y, run_state_ok blocks x -> run_loop fuel blocks rec a size x = Some (inr y) -> run_state_ok blocks y.
Proof.
  intros Hb Hr. induction fuel as [|fuel IH]; intros x y Hx; cbn [run_loop]; (destruct (_ && _); [|by intros [= <-]]); [done|].
  destruct (run_step _ _ _ _ _) as [e|z] eqn:Es; [done|]. apply IH. by eapply run_step_ok.
Qed.
Lemma ntfs_runs_ok v rec a size runs : nv_blocks v < 2 ^ 64 -> bytes_ok rec -> ntfs_runs v rec a size = Some (inr runs) -> runs_ok (nv_blocks v) runs.
Proof.
  intros Hb Hr. unfold ntfs_runs. destruct (_ || _); [done|]. cbv zeta. destruct ((_ <? 64) || _); [done|]. destruct (run_loop _ _ _ _ _ _) as [[e|x]|] eqn:El; [done| |done].
  destruct (runs_end_bad _ _ _ _ _); [done|]. intros [= <-]. eapply run_loop_ok in El as (_ & _ & Hx); [exact Hx|done|done|]. split_and!; cbn; [lia|lia|apply runs_ok_nil].
Qed.
