(* ===== verification/NativeReads.v ===== *)
(** The reading half of the native file systems keeps what reads keep, ends,
    and returns bytes: one lemma per operation, in the logic of
    [NativeLogic]. *)
From S2P Require Import Prelude Klib Pmm PageAlloc Path Disk State Fat Native Ext Ntfs NativeRead NativeLogic NativeRuns.

Section Reading.
Context {St D : Type} `{PageSource St} `{Disks D} (P : D -> Prop) (v0 : native_volume) {reads : Reads P v0}.
#[local] Abbreviation ok := (ok (St := St) P v0).
#[local] Abbreviation ok_ m := (NativeLogic.ok (St := St) P v0 m (fun _ => True)).
#[local] Abbreviation u8s := (Forall is_u8).

(** * Bytes and runs *)
Lemma ok_native_bytes offset n : 0 <= offset -> 0 <= n -> ok (native_bytes offset n) (fun l => u8s l /\ zlen l = n).
Proof.
  intros Ho Hn s (HP & Hv & Ht). unfold native_bytes. pose proof (same_native_ok P v0 _ Hv) as [Hs _ Hst Hl He _ _ _ _ _ _].
  destruct (span_ok _ _ _) eqn:Es; cbn [negb]; [|by split; [split_and!|]]. apply span_ok_spec in Es as [E1 E2]. unfold u64 in *.
  rewrite (Z.mod_small (nv_length (nx_v s) * nv_sector (nx_v s))) in E2 by nia. rewrite Z.mod_small by nia.
  pose proof (read_law P v0 (nx_v s) (nx_d s) offset n Hv Ho Hn E2 HP) as [H1 H2].
  destruct (disk_bytes _ _ _ _) as [d [e|data]]; cbn [fst snd] in *; (split; [by split_and!|]); [done|]. by apply H2.
Qed.
Lemma ok_read_run_step runs x : 0 <= snd (fst x) -> u8s (snd x) ->
  ok (read_run_step runs x) (fun f => match f with
    | Next y => (u8s (snd y) /\ zlen (snd y) + snd (fst y) = zlen (snd x) + snd (fst x)) /\ 0 <= snd (fst y) < snd (fst x)
    | Exit l => u8s l /\ zlen l = zlen (snd x) + snd (fst x)
    end).
Proof.
  destruct x as [[offset bytes] out]. cbn [fst snd]. intros Hb Hout. unfold read_run_step. act_step; [act_step; split; [done|lia]|]. act_step.
  pose proof (no_block _ Hok) as Hblk. pose proof (Z.mod_pos_bound offset (nv_block v) Hblk) as Hm. cbv zeta. set (n := Z.min bytes _) in *.
  assert (0 < n <= bytes) as Hn by lia.
  eapply (act_bind _ _ _ _ (fun l => u8s l /\ zlen l = n)).
  { assert (ok (aret (replicate (Z.to_nat n) 0)) (fun l => u8s l /\ zlen l = n)) as Hz.
    { apply act_ret. split; [apply zeros_u8|]. unfold zlen. rewrite length_replicate. lia. }
    destruct (run_find _ _) as [r|]; [destruct (run_hole r)|]; [exact Hz| |exact Hz]. apply ok_native_bytes; [|lia]. by apply Z.mod_pos_bound. }
  intros data [Hd Hlen]. apply act_ret. cbn [fst snd]. split_and!; [by apply app_u8| |lia|lia].
  unfold zlen in *. rewrite length_app. lia.
Qed.
Lemma ok_run_read runs offset n : 0 <= n -> ok (run_read runs offset n) (fun l => u8s l /\ zlen l = n).
Proof.
  intros Hn. unfold run_read.
  apply (act_loop _ _ (fun x : Z * Z * list Z => u8s (snd x) /\ zlen (snd x) + snd (fst x) = n /\ 0 <= snd (fst x)) (fun x => snd (fst x))); cbn [fst snd]; [|lia| |lia].
  - split_and!; [apply nil_u8|done|done].
  - intros x (H2 & H3 & H4). eapply act_weaken; [by apply ok_read_run_step|]. intros [y|l]; cbv beta iota; intros H5; [|split; [apply H5|lia]].
    destruct H5 as ((H6 & H7) & H8). split; [split_and!; [done|lia|lia]|lia].
Qed.
Lemma ok_with_page {A} (m : Act St D A) Q : ok m Q -> ok (with_page m) Q.
Proof.
  intros Hm s Hs. unfold with_page. destruct (pa_alloc _ _ _ _) as [[ps ram] page]. destruct (page =? 0); [by split|].
  destruct (Hm (s <| nx_ps := ps |> <| nx_ram := ram |>)) as [H1 H2]; [exact Hs|]. by destruct (m _) as [s1 r].
Qed.
Lemma ok_flush_disk : ok_ flush_disk.
Proof.
  intros s (HP & Hv & Ht). unfold flush_disk. pose proof (flush_law P v0 (nx_v s) (nx_d s) Hv HP) as H1.
  destruct (disk_flush _ _) as [d e]; cbn [fst] in H1. destruct (e =? 0); (split; [by split_and!|done]).
Qed.

(** * ext *)
Lemma ok_ext_group g : ok (ext_group g) bytes_ok.
Proof.
  unfold ext_group. act_step. act_step. pose proof (no_desc _ Hok). eapply act_bind; [apply ok_native_bytes; [by apply Z.mod_pos_bound|done]|]. intros data [Hd _].
  act. auto 8 with u8.
Qed.
Lemma ok_ext_inode i : ok (ext_inode i) bytes_ok.
Proof.
  unfold ext_inode. act_step. act_step. pose proof (no_inode _ Hok). eapply act_bind; [apply ok_ext_group|]. intros d Hd. cbv zeta. act_step.
  eapply act_bind; [apply ok_native_bytes; [by apply Z.mod_pos_bound|done]|]. intros data [Hu _]. act. auto with u8.
Qed.
#[local] Abbreviation sound := (runs_ok (nv_blocks v0)).
Lemma same_blocks v : same_native v0 v -> nv_blocks v = nv_blocks v0.
Proof. intros [E _]. exact (f_equal nv_blocks E). Qed.
Lemma ok_run_add v runs l p n h : same_native v0 v -> native_ok v -> 0 <= l -> 0 <= p -> 0 <= n -> sound runs -> ok (lift (run_add (nv_blocks v) runs l p n h)) sound.
Proof.
  intros Hv Hok Hl Hp Hn Hr. apply ok_lift. intros runs' E. pose proof (no_blocks _ Hok). rewrite (same_blocks v Hv) in *. eapply run_add_ok; [|exact Hl|exact Hp|exact Hn|exact Hr|exact E]. lia.
Qed.
Lemma ok_extent_leaf h at_ l x : bytes_ok h -> 0 <= l -> sound (fst x) -> ok (extent_leaf h at_ l x) (fun x => sound (fst x)).
Proof.
  intros Hh Hl Hx. unfold extent_leaf. act_step. cbv zeta. eapply act_bind; [apply ok_run_add; try done|].
  - apply Z.lor_nonneg. split; [apply (rd32_range h _ Hh)|apply Z.shiftl_nonneg, (rd16_u16 h _ Hh)].
  - pose proof (rd16_u16 h (at_ + 4) Hh) as Hr16. unfold is_u16 in Hr16. destruct (Z.ltb_spec 32768 (rd16 h (at_ + 4))); lia.
  - intros runs Hr. by apply act_ret.
Qed.
Lemma ok_extent_node seed below h at_ x : sound (fst x) -> (forall b y, bytes_ok b -> sound (fst y) -> ok (below b y) (fun x => sound (fst x))) -> ok (extent_node seed below h at_ x) (fun x => sound (fst x)).
Proof.
  intros Hx Hb. unfold extent_node. act_step. cbv zeta. act_step. apply ok_with_page. pose proof (no_block _ Hok).
  eapply act_bind; [apply ok_native_bytes; [by apply Z.mod_pos_bound|lia]|]. intros data [Hd _]. act. apply Hb; [by apply buffer_bytes|done].
Qed.
Lemma ok_ext_extents depth : forall seed h bytes x, bytes_ok h -> sound (fst x) -> ok (ext_extents depth seed h bytes x) (fun x => sound (fst x)).
Proof.
  induction depth as [|depth IH]; intros seed h bytes [runs budget] Hh Hx; cbn [fst] in Hx; cbn [ext_extents]; (act_step; [apply ok_fails|]); cbv zeta; act_step;
    (eapply (act_bind _ _ _ _ (fun s => sound (fst (snd s)))); [apply ok_fold; [done|]; intros j [last x] Hj Hs; cbn [fst snd] in Hs; unfold extent_entry; cbv zeta; act_step; (eapply (act_bind _ _ _ _ (fun x => sound (fst x))); [|intros y Hy; by apply act_ret])|intros y Hy; by apply act_ret]).
  - apply ok_extent_leaf; [done| |done]. apply (rd32_range h _ Hh).
  - act_step. apply ok_extent_node; [done|]. intros b y. apply IH.
Qed.
Lemma ok_block_run l p runs : 0 <= l -> 0 <= p -> sound runs -> ok (block_run l p runs) sound.
Proof. intros Hl Hp Hr. unfold block_run. act_step. act_step; [by apply act_ret|by apply ok_run_add]. Qed.
Lemma ok_ext_map i raw : bytes_ok raw -> ok (ext_map i raw) sound.
Proof.
  intros Hraw. unfold ext_map. act_step. act_step.
  - eapply act_bind; [apply ok_ext_extents; [apply buffer_bytes; auto with u8|apply runs_ok_nil]|]. intros x Hx. by apply act_ret.
  - act_step. eapply act_bind; [apply (ok_fold _ _ sound); [apply runs_ok_nil|]; intros j s Hj Hs; apply ok_block_run; [lia|apply (rd32_range _ _ Hraw)|done]|]. intros runs Hruns. cbv zeta. act_step; [by apply act_ret|].
    act_step. pose proof (no_block _ Hok). eapply act_bind; [apply ok_native_bytes; [by apply Z.mod_pos_bound|lia]|]. intros data [Hd _]. apply ok_fold; [done|].
    intros j s Hj Hs. apply ok_block_run; [lia|by apply rd32_range, buffer_bytes|done].
Qed.
Lemma ok_ext_entry ino name wanted : ok_ (ext_entry ino name wanted).
Proof.
  unfold ext_entry. destruct wanted as [w|].
  - act_step; [by apply act_ret|]. eapply act_bind; [apply ok_ext_inode|]. intros t Ht. act_step. eapply act_bind; [apply ok_index|]. intros i _. by apply act_ret.
  - eapply act_bind; [apply ok_ext_inode|]. intros t Ht. eapply act_bind; [apply ok_emit|]. intros _ _. by apply act_ret.
Qed.
Lemma ok_ext_block raw seed runs wanted i u : ok_ (ext_block raw seed runs wanted i u).
Proof.
  unfold ext_block. act_step. pose proof (no_block _ Hok). eapply act_bind; [apply ok_run_read; lia|]. intros data [Hd _]. cbv zeta.
  eapply act_bind; [by apply (ok_lift _ _ _ (fun _ => True))|]. intros limit _.
  eapply (act_bind _ _ _ _ (fun _ => True)); [|intros [f|] _; by apply act_ret].
  destruct (Z.le_gt_cases 0 limit) as [Hl|Hl].
  - apply (act_loop _ _ (fun at_ => 0 <= at_) (fun at_ => Z.max 0 (limit - at_))); [done|lia| |lia]. intros at_ Hat. unfold record_step. act; try done; try (split; [|split]; lia).
    all: try (eapply act_bind; [apply ok_ext_entry|]; intros [f|] _; apply act_ret; [done|]); try (split; lia).
  - replace (S (Z.to_nat limit)) with 1%nat by lia. cbn [a_loop]. unfold record_step. rewrite (proj2 (Z.leb_le limit 0)) by lia. by apply act_ret.
Qed.
Lemma ok_ext_directory i wanted : ok_ (ext_directory i wanted).
Proof.
  unfold ext_directory. act_step. eapply act_bind; [apply ok_ext_inode|]. intros raw Hraw. act_step. cbv zeta. act_step. eapply act_bind; [by apply ok_ext_map|]. intros runs _.
  eapply act_bind; [apply (ok_range _ _ (fun _ => True) (fun _ => True)); [done|]; intros j s Hj _; eapply act_weaken; [apply ok_ext_block|]; by intros [|]|].
  intros [u|f] _; [destruct wanted; [apply ok_fails|by apply act_ret]|by apply act_ret].
Qed.

(** * NTFS *)
Lemma ok_ntfs_record i : ok (ntfs_record i) bytes_ok.
Proof.
  unfold ntfs_record. act_step. cbv zeta. act_step. pose proof (no_record _ Hok). eapply act_bind; [by apply ok_run_read|]. intros data [Hd _].
  eapply act_bind; [apply (ok_lift _ _ _ bytes_ok); intros rec Hf; eapply fixup_u8; [by apply buffer_bytes|exact Hf]|]. intros rec Hrec. by act.
Qed.
Lemma ok_runs_of rec a size : bytes_ok rec -> ok (runs_of rec a size) (runs_ok (nv_blocks v0)).
Proof.
  intros Hr. unfold runs_of. act_step. apply ok_lift_loop; [by apply ntfs_runs_some|]. intros runs E. rewrite <- (same_blocks v Hv). eapply ntfs_runs_ok; [|exact Hr|exact E]. apply (no_blocks _ Hok).
Qed.
Lemma ok_attr rec type name : bytes_ok rec -> ok_ (lift_loop (ntfs_attr rec type name)).
Proof. intros Hr. apply ok_lift_loop; [by apply ntfs_attr_some|done]. Qed.
Lemma ok_value rec a n : ok_ (lift (ntfs_value rec a n)).
Proof. by apply ok_lift. Qed.
Lemma ok_value_length rec a n : bytes_ok rec -> ok (lift (ntfs_value rec a n)) (fun q => 0 <= snd q).
Proof.
  intros Hr. apply ok_lift. intros q. unfold ntfs_value. destruct (negb _); [done|]. cbv zeta. destruct (_ || _); [done|]. intros [= <-]. apply (rd32_range rec (a + 16) Hr).
Qed.
Lemma ok_read_value rec a length offset n : bytes_ok rec -> ok (read_value rec a length offset n) (fun p => u8s (snd p) /\ 0 <= fst p).
Proof.
  intros Hr. unfold read_value. eapply act_bind; [apply (ok_value_length rec a length Hr)|]. intros [at_ len] Hlen. apply act_ret. cbn [fst snd] in *. split; [|done]. destruct (len <=? offset); [apply nil_u8|by apply bytes_at_u8].
Qed.
Lemma ok_read_clusters rec a length offset n : bytes_ok rec -> 0 <= n -> ok (read_clusters rec a length offset n) (fun p => u8s (snd p) /\ 0 <= fst p).
Proof.
  intros Hr Hn. unfold read_clusters. eapply act_bind; [by apply ok_runs_of|]. intros runs _. cbv zeta. pose proof (rd64_range rec (a + 48) Hr) as Hsize. act_step; [apply act_ret; split; [apply nil_u8|apply Hsize]|]. reflect_bools.
  set (k := if offset <? _ then _ else 0). assert (0 <= k) as Hk by (unfold k; destruct (Z.ltb_spec offset (rd64 rec (a + 56))); lia).
  eapply act_bind; [by apply ok_run_read|]. intros data [Hd _]. apply act_ret. split; [apply app_u8; [exact Hd|apply zeros_u8]|apply Hsize].
Qed.
Lemma ok_ntfs_data ino offset n : 0 <= n -> ok (ntfs_data ino offset n) (fun p => u8s (snd p) /\ 0 <= fst p).
Proof.
  intros Hn. unfold ntfs_data. eapply act_bind; [apply ok_ntfs_record|]. intros rec Hrec. act_step. eapply act_bind; [by apply ok_attr|]. intros [a length] _.
  act_step; [by apply ok_read_value|by apply ok_read_clusters].
Qed.
Lemma ok_ntfs_found rec e ino reference : ok_ (ntfs_found rec e ino reference).
Proof.
  unfold ntfs_found. eapply act_bind; [apply ok_ntfs_record|]. intros raw Hraw. act_step. act_step. eapply act_bind; [apply ok_index|]. intros i _. cbv zeta. act_step; [by apply act_ret|].
  eapply act_bind; [by apply ok_ntfs_data|]. intros p _. by apply act_ret.
Qed.
Lemma ok_ntfs_entry rec e name wanted : ok_ (ntfs_entry rec e name wanted).
Proof.
  unfold ntfs_entry. cbv zeta. act_step. destruct wanted as [w|].
  - act_step; [|by apply act_ret]. eapply act_bind; [apply ok_ntfs_found|]. intros f _. by apply act_ret.
  - act_step; [by apply act_ret|]. eapply act_bind; [apply ok_emit|]. intros _ _. by apply act_ret.
Qed.
Lemma entry_len rec e len keylen flags left : entry_bad rec e len keylen flags left = false -> 16 <= len <= left.
Proof. unfold entry_bad. intros E. destruct (Z.land flags 1 =? 0); reflect_bools; lia. Qed.
Lemma ok_ntfs_index_entries rec header capacity wanted : ok_ (ntfs_index_entries rec header capacity wanted).
Proof.
  unfold ntfs_index_entries. act_step. cbv zeta. act_step. set (size := rd32 rec (header + 4)) in *. reflect_bools.
  apply (act_loop _ _ (fun at_ => 0 <= at_) (fun at_ => Z.max 0 (size - at_))); [lia|lia| |lia]. intros at_ Hat. unfold index_step.
  act_step; [apply ok_fails|]. cbv zeta. act_step. match goal with E : entry_bad _ _ _ _ _ _ = false |- _ => apply entry_len in E end. act_step; [by apply act_ret|]. reflect_bools.
  destruct (ntfs_name _ _ _) as [err|name]; [act_step; [apply act_ret; lia|apply ok_fails]|].
  eapply act_bind; [apply ok_ntfs_entry|]. intros [f|] _; apply act_ret; [done|lia].
Qed.
Lemma ok_index_bitmap rec : bytes_ok rec -> ok_ (index_bitmap rec).
Proof.
  intros Hr. unfold index_bitmap. eapply act_bind; [by apply ok_attr|]. intros [a length] _. act_step.
  - eapply act_bind; [apply ok_value|]. intros [at_ size] _. act_step. by apply act_ret.
  - eapply act_bind; [by apply ok_runs_of|]. intros runs _. act_step. eapply act_weaken; [apply ok_run_read; apply (rd64_range rec (a + 48) Hr)|done].
Qed.
Lemma ok_not_found wanted : ok_ (not_found wanted).
Proof. destruct wanted; [apply ok_fails|by apply act_ret]. Qed.
Lemma ok_index_block runs bitmap wanted bit u : ok_ (index_block runs bitmap wanted bit u).
Proof.
  unfold index_block. act_step. act_step; [by apply act_ret|]. pose proof (no_index _ Hok). eapply act_bind; [by apply ok_run_read|]. intros data _.
  eapply act_bind; [by apply (ok_lift _ _ _ (fun _ => True))|]. intros block _. eapply act_bind; [apply ok_ntfs_index_entries|]. intros [f|] _; by apply act_ret.
Qed.
Lemma ok_index_blocks rec a length wanted : bytes_ok rec -> ok_ (index_blocks rec a length wanted).
Proof.
  intros Hr. unfold index_blocks. act_step. eapply act_bind; [by apply ok_runs_of|]. intros runs _. cbv zeta. act_step. eapply act_bind; [by apply ok_index_bitmap|]. intros bitmap _. act_step.
  eapply act_bind; [apply (ok_range _ _ (fun _ => True) (fun _ => True)); [done|]; intros j s Hj _; eapply act_weaken; [apply ok_index_block|]; by intros [|]|].
  intros [u|f] _; [apply ok_not_found|by apply act_ret].
Qed.
Lemma ok_ntfs_directory ino wanted : ok_ (ntfs_directory ino wanted).
Proof.
  unfold ntfs_directory. act_step. eapply act_bind; [apply ok_ntfs_record|]. intros rec Hrec. act_step. eapply act_bind; [by apply ok_attr|]. intros p _.
  eapply act_bind; [apply ok_value|]. intros [value bytes] _. act_step. eapply act_bind; [apply ok_ntfs_index_entries|]. intros [f|] _; [by apply act_ret|].
  eapply act_bind; [by apply ok_catch, ok_attr|]. intros [e|[a length]] _; [|by apply ok_index_blocks]. act_step; [apply ok_not_found|apply ok_fails].
Qed.

(** * Files *)
Lemma ok_directory_entry cluster name : ok_ (directory_entry cluster name).
Proof.
  unfold directory_entry. act_step. eapply (act_bind _ _ _ _ (fun _ => True)); [act_step; [apply ok_ext_directory|apply ok_ntfs_directory]|]. intros [f|] _; [by apply act_ret|apply ok_fails].
Qed.
Lemma ok_walk_path names : forall cur, ok_ (walk_path names cur).
Proof.
  induction names as [|name names IH]; intros cur; cbn [walk_path]; [by apply act_ret|]. act_step. eapply act_bind; [apply ok_directory_entry|]. intros f _. apply IH.
Qed.
Lemma ok_open_path path : ok_ (open_path path).
Proof. unfold open_path. act_step. eapply act_bind; [apply ok_index|]. intros i _. apply ok_walk_path. Qed.
Lemma ext_size_nonneg raw : bytes_ok raw -> 0 <= ext_size raw.
Proof. intros Hr. unfold ext_size. apply Z.lor_nonneg. split; [apply (rd32_range raw 4 Hr)|apply Z.shiftl_nonneg, (rd32_range raw 108 Hr)]. Qed.
Lemma ok_refreshed_size f : ok (refreshed_size f) (fun n => 0 <= n).
Proof.
  unfold refreshed_size. act_step. act_step.
  - eapply act_bind; [apply ok_ext_inode|]. intros raw Hraw. act_step. apply act_ret. apply (ext_size_nonneg raw Hraw).
  - eapply act_bind; [apply ok_ntfs_record|]. intros raw _. act_step. eapply act_bind; [by apply ok_ntfs_data|]. intros p [_ Hp]. by apply act_ret.
Qed.
Lemma ok_read_file f offset n : 0 <= n -> ok (read_file f offset n) u8s.
Proof.
  intros Hn. unfold read_file. act_step. act_step. act_step.
  - eapply act_bind; [apply ok_ext_inode|]. intros raw Hraw. act_step. cbv zeta. act_step; [apply act_ret, nil_u8|]. reflect_bools. eapply act_bind; [by apply ok_ext_map|]. intros runs _.
    eapply act_weaken; [apply ok_run_read; lia|]. by intros l [Hl _].
  - eapply act_bind; [apply ok_refreshed_size|]. intros _ _. eapply act_bind; [by apply ok_ntfs_data|]. intros p [Hp _]. by apply act_ret.
Qed.
Lemma ok_list_file f : ok_ (list_file f).
Proof.
  unfold list_file. act_step. eapply (act_bind _ _ _ _ (fun _ => True)); [act_step; [apply ok_ext_directory|apply ok_ntfs_directory]|]. intros _ _. by apply act_ret.
Qed.
Lemma ok_ext_clean : ok_ ext_clean.
Proof. unfold ext_clean. act_step. eapply act_bind; [by apply ok_native_bytes|]. intros data _. cbv zeta. by act. Qed.
Lemma ok_volume_information : ok volume_information (fun x => bytes_ok (fst (fst x))).
Proof.
  unfold volume_information. eapply act_bind; [apply ok_ntfs_record|]. intros rec Hrec. eapply act_bind; [by apply ok_attr|]. intros p _. eapply act_bind; [apply ok_value|]. intros q _. by apply act_ret.
Qed.
Lemma ok_native_clean : ok_ native_clean.
Proof.
  unfold native_clean. act_step. act_step. eapply (act_bind _ _ _ _ (fun _ => True)); [|intros _ _; apply ok_flush_disk]. act_step; [apply ok_ext_clean|].
  unfold ntfs_clean. eapply act_bind; [apply ok_volume_information|]. intros [[rec value] n] _. act_step. unfold not_hibernated.
  eapply act_bind; [apply ok_catch, ok_ntfs_directory|]. intros [e|[f|]] _; [by act| |apply ok_fails]. eapply act_bind; [by apply ok_catch, ok_read_file|]. intros [e|h] _; [apply ok_fails|by act].
Qed.
End Reading.
