(* ===== verification/NativeStage.v ===== *)
(** Staging of changes in the native file systems: the edits of [ExtWrite],
    [NtfsWrite] and [NtfsCreate] that only read the disk and change staged
    blocks keep what reads keep, end, and leave bytes in the staged blocks. *)
From S2P Require Import Prelude Klib Pmm PageAlloc Path Disk State Fat Native Ext Ntfs NativeRead ExtWrite NtfsWrite NtfsCreate NativeLogic NativeReads.

(** * Edits of buffers of bytes *)
Lemma land_255 x : is_u8 x <-> Z.land x 255 = x.
Proof.
  change 255 with (Z.ones 8). rewrite Z.land_ones by lia. unfold is_u8. split; [intros ?; by apply Z.mod_small|]. intros <-. by apply Z.mod_pos_bound.
Qed.
Lemma lor_u8 a b : is_u8 a -> is_u8 b -> is_u8 (Z.lor a b).
Proof. rewrite !land_255. intros Ha Hb. by rewrite Z.land_lor_distr_l, Ha, Hb. Qed.
Lemma land_u8 a b : is_u8 a -> is_u8 (Z.land a b).
Proof. rewrite !land_255. intros Ha. by rewrite <- Z.land_assoc, (Z.land_comm b), Z.land_assoc, Ha. Qed.
Lemma bit_u8 k : is_u8 (Z.shiftl 1 (k mod 8)).
Proof.
  pose proof (Z.mod_pos_bound k 8 ltac:(lia)) as Hk. rewrite Z.shiftl_mul_pow2, Z.mul_1_l by lia. split; [apply Z.pow_nonneg; lia|].
  apply Z.pow_lt_mono_r; lia.
Qed.
Lemma if_is_u8 (b : bool) x y : is_u8 x -> is_u8 y -> is_u8 (if b then x else y).
Proof. by destruct b. Qed.
Lemma if_list_u8 (b : bool) x y : Forall is_u8 x -> Forall is_u8 y -> Forall is_u8 (if b then x else y).
Proof. by destruct b. Qed.
#[export] Hint Resolve lor_u8 land_u8 bit_u8 if_is_u8 if_list_u8 : u8.
Lemma put_bit_u8 b bit value : bytes_ok b -> bytes_ok (put_bit b bit value).
Proof. intros Hb. unfold put_bit. auto 8 with u8. Qed.
Lemma put_count_u8 v off low high n d : bytes_ok d -> bytes_ok (put_count v off low high n d).
Proof. intros Hd. unfold put_count. cbv zeta. auto 8 with u8. Qed.
Lemma take_unused_u8 v off now d : bytes_ok d -> bytes_ok (take_unused v off now d).
Proof. intros Hd. unfold take_unused. cbv zeta. auto using put_count_u8 with u8. Qed.
Lemma put_super_free_u8 i off n s : bytes_ok s -> bytes_ok (put_super_free i off n s).
Proof. intros Hs. unfold put_super_free. cbv zeta. auto 8 with u8. Qed.
Lemma desc_checksum_u8 v g d off : bytes_ok d -> bytes_ok (ext_desc_checksum v g d off).
Proof. intros Hd. unfold ext_desc_checksum. destruct (group_sum _ _ _); auto 8 with u8. Qed.
Lemma mark_state_u8 v st off s : bytes_ok s -> bytes_ok (mark_state v st off s).
Proof. intros Hs. unfold mark_state. cbv zeta. auto 8 with u8. Qed.
Lemma clear_sum_u8 v raw : bytes_ok raw -> bytes_ok (clear_sum v raw).
Proof. intros Hr. unfold clear_sum. cbv zeta. auto 8 with u8. Qed.
Lemma inode_checksum_u8 v i raw : bytes_ok raw -> bytes_ok (ext_inode_checksum v i raw).
Proof. intros Hr. unfold ext_inode_checksum. cbv zeta. auto 8 using clear_sum_u8 with u8. Qed.
Lemma set_size_u8 raw n : bytes_ok raw -> bytes_ok (ext_set_size raw n).
Proof. intros Hr. unfold ext_set_size. auto 8 with u8. Qed.
Lemma mem_zero_u8 m p n : bytes_ok m -> bytes_ok (mem_zero m p n).
Proof. intros Hm. unfold mem_zero. apply fold_range_u8; [|done]. auto with u8. Qed.
Lemma memmove_u8 m d s n : bytes_ok m -> bytes_ok (memmove m d s n).
Proof. intros Hm. unfold memmove, memcpy, mem_copy. apply if_u8; apply fold_range_u8; auto with u8. Qed.
#[export] Hint Resolve put_bit_u8 put_count_u8 take_unused_u8 put_super_free_u8 desc_checksum_u8 mark_state_u8 clear_sum_u8 inode_checksum_u8 set_size_u8 mem_zero_u8 memmove_u8 : u8.
Lemma fold_left_u8 {A} (f : zmap -> A -> zmap) l m : (forall m x, bytes_ok m -> bytes_ok (f m x)) -> bytes_ok m -> bytes_ok (fold_left f l m).
Proof. intros Hf. revert m. induction l as [|x l IH]; intros m Hm; cbn [fold_left]; auto. Qed.
Lemma inline_map_u8 raw runs b : bytes_ok raw -> bytes_ok (ext_inline_map raw runs b).
Proof.
  intros Hr. unfold ext_inline_map. cbv zeta. apply wr16_u8, wr32_bytes_ok, wr32_bytes_ok, fold_left_u8; [|auto 8 with u8]. intros m x Hm. unfold inline_run. cbv zeta. auto 8 with u8.
Qed.
Lemma put_dirent_u8 name i dir at_ rec used b : Forall is_u8 name -> bytes_ok b -> bytes_ok (put_dirent name i dir at_ rec used b).
Proof. intros Hn Hb. unfold put_dirent. cbv zeta. auto 12 with u8. Qed.
Lemma new_inode_u8 v dir g : bytes_ok (new_inode v dir g).
Proof. unfold new_inode. cbv zeta. auto 12 with u8. Qed.
Lemma dot_block_u8 v i parent raw : Forall is_u8 (dot_block v i parent raw).
Proof. unfold dot_block, DOT. cbv zeta. auto 20 with u8. Qed.
#[export] Hint Resolve inline_map_u8 put_dirent_u8 new_inode_u8 dot_block_u8 : u8.

(** * NTFS records and attributes *)
Lemma pack_u8 raw usa count : bytes_ok raw -> bytes_ok (ntfs_pack raw usa count).
Proof. intros Hr. unfold ntfs_pack. cbv zeta. apply fold_range_u8; [|auto with u8]. intros i m Hm. unfold pack_step. auto with u8. Qed.
Lemma resident_u8 type i name value : Forall is_u8 value -> Forall is_u8 (nt_resident_attr type i name value).
Proof. intros Hv. unfold nt_resident_attr. cbv zeta. apply bytes_at_u8, write_bytes_ok; [done|]. apply fold_left_u8; auto 12 with u8. Qed.
Lemma put_le_u8 at_ n x m : bytes_ok m -> bytes_ok (put_le at_ n x m).
Proof. intros Hm. unfold put_le. apply fold_range_u8; auto with u8. Qed.
Lemma data_attribute_u8 block id run size : Forall is_u8 (nt_data_attribute block id run size).
Proof. unfold nt_data_attribute. cbv zeta. destruct (size =? 0); [apply resident_u8, nil_u8|]. apply bytes_at_u8, put_le_u8, put_le_u8. auto 16 with u8. Qed.
Lemma attr_replace_u8 n raw at_ oldlen new raw' : bytes_ok raw -> Forall is_u8 new -> nt_attr_replace n raw at_ oldlen new = inr raw' -> bytes_ok raw'.
Proof. intros Hr Hn. unfold nt_attr_replace. cbv zeta. destruct (_ || _); [done|]. intros [= <-]. auto 8 with u8. Qed.
Lemma record_append_u8 n raw a raw' : bytes_ok raw -> Forall is_u8 a -> nt_record_append n raw a = inr raw' -> bytes_ok raw'.
Proof. intros Hr Ha. unfold nt_record_append. cbv zeta. destruct (_ || _); [done|]. destruct (_ || _); [done|]. intros [= <-]. auto 8 with u8. Qed.
Lemma insert_entry_u8 h at_ need used r f m : Forall is_u8 f -> bytes_ok m -> bytes_ok (insert_entry h at_ need used r f m).
Proof. intros Hf Hm. unfold insert_entry. cbv zeta. auto 12 with u8. Qed.
Lemma grown_root_u8 raw attr o size need at_ used al r f n : Forall is_u8 f -> bytes_ok raw -> Forall is_u8 (grown_root raw attr o size need at_ used al r f n).
Proof. intros Hf Hr. unfold grown_root. cbv zeta. apply bytes_at_u8, wr32_bytes_ok, insert_entry_u8; auto 8 with u8. Qed.
Lemma clear_record_u8 v i s : bytes_ok (clear_record v i s).
Proof. unfold clear_record, FILE_MAGIC. cbv zeta. repeat (apply wr32_bytes_ok || apply wr16_u8). apply write_bytes_ok; [|auto with u8]. repeat constructor; done. Qed.
Lemma standard_value_u8 raw si d : bytes_ok raw -> Forall is_u8 (standard_value raw si d).
Proof. intros Hr. unfold standard_value. cbv zeta. auto 12 with u8. Qed.
Lemma filename_value_u8 r st al size d name : Forall is_u8 st -> Forall is_u8 (filename_value r st al size d name).
Proof. intros Hs. unfold filename_value. cbv zeta. apply bytes_at_u8, fold_left_u8; [auto with u8|]. auto 14 with u8. Qed.
Lemma root_value_u8 v : Forall is_u8 (root_value v).
Proof. unfold root_value. cbv zeta. auto 16 with u8. Qed.
#[export] Hint Resolve pack_u8 resident_u8 data_attribute_u8 insert_entry_u8 grown_root_u8 clear_record_u8 standard_value_u8 filename_value_u8 root_value_u8 : u8.
Lemma byte_with_u8 byte bit value : is_u8 byte -> is_u8 (byte_with byte bit value).
Proof. intros Hb. unfold byte_with. auto with u8. Qed.
#[export] Hint Resolve byte_with_u8 : u8.

(** * Loops over a staged block *)
Lemma dirent_room_some fuel : forall b limit needed at_, limit - at_ <= Z.of_nat fuel -> dirent_room fuel b limit needed at_ <> None.
Proof.
  induction fuel as [|fuel IH]; intros b limit needed at_ Hf; cbn [dirent_room]; destruct (Z.leb_spec limit at_); try done; [lia|].
  destruct (_ <? 8); [done|]. cbv zeta. destruct (_ || _) eqn:E; [done|]. destruct (needed <=? _); [done|]. reflect_bools. apply IH. lia.
Qed.
Lemma scan_index_some fuel : forall rec header used name at_, used - at_ <= Z.of_nat fuel -> scan_index fuel rec header used name at_ <> None.
Proof.
  induction fuel as [|fuel IH]; intros rec header used name at_ Hf; cbn [scan_index]; destruct (Z.ltb_spec used (at_ + 16)); try done; [lia|].
  cbv zeta. destruct (entry_bad _ _ _ _ _ _) eqn:E; [done|]. apply entry_len in E. destruct (negb _); [done|]. destruct (ntfs_name _ _ _) as [e|existing]; [done|]. cbv zeta.
  destruct (_ =? 0); [done|]. destruct (_ <? 0); [done|]. apply IH. lia.
Qed.

Section Staging.
Context {St D : Type} `{PageSource St} `{Disks D} (P : D -> Prop) (v0 : native_volume) {reads : Reads P v0}.
#[local] Abbreviation ok := (ok (St := St) P v0).
#[local] Abbreviation ok_ m := (NativeLogic.ok (St := St) P v0 m (fun _ => True)).
#[local] Abbreviation u8s := (Forall is_u8).

(** * Staged blocks *)
Lemma ok_tx_block slot : ok (tx_block slot) bytes_ok.
Proof.
  unfold tx_block. eapply act_bind; [apply ok_staged|]. intros l Hl. apply act_ret. unfold slot_ok in Hl.
  destruct (nth_in_or_default slot l (0, ∅)) as [Hin| ->]; [|apply bytes_ok_empty]. rewrite Forall_forall in Hl. by apply Hl, list_elem_of_In.
Qed.
Lemma ok_tx_modify slot f : (forall m, bytes_ok m -> bytes_ok (f m)) -> ok_ (tx_modify slot f).
Proof.
  intros Hf. apply ok_on_staged. intros l Hl. apply Forall_lookup. intros i x. destruct (decide (slot = i)) as [->|Hne].
  - rewrite list_lookup_alter_eq. intros (y & Hy & ->)%fmap_Some_1. unfold slot_ok. cbn. apply Hf. exact (proj1 (Forall_lookup _ _) Hl _ _ Hy).
  - rewrite list_lookup_alter_ne by done. apply (proj1 (Forall_lookup _ _) Hl).
Qed.
Lemma ok_stage number data : u8s data -> ok_ (on_staged (fun l => l ++ [(number, buffer data)])).
Proof. intros Hd. apply ok_on_staged. intros l Hl. apply Forall_app. split; [done|]. apply Forall_singleton. by apply buffer_bytes. Qed.
Lemma ok_clear_staged : ok_ (on_staged (fun _ => [])).
Proof. apply ok_on_staged. intros l _. apply Forall_nil_2. Qed.
Lemma ok_tx_get block : ok_ (ext_tx_get block).
Proof.
  unfold ext_tx_get. act_step. act_step. eapply act_bind; [apply ok_staged|]. intros l Hl. destruct (find_staged _ _); [by apply act_ret|]. act_step. pose proof (no_block _ Hok).
  eapply act_bind; [apply (ok_native_bytes P v0); [by apply Z.mod_pos_bound|lia]|]. intros data [Hd _]. eapply act_bind; [by apply ok_stage|]. intros _ _. by apply act_ret.
Qed.
Lemma ok_tx_desc g : ok_ (ext_tx_desc g).
Proof.
  unfold ext_tx_desc. act_step. eapply act_bind; [apply (ok_ext_group P v0)|]. intros _ _. cbv zeta. eapply act_bind; [apply ok_tx_get|]. intros slot _. by apply act_ret.
Qed.
Lemma ok_tx_super : ok_ ext_tx_super.
Proof. unfold ext_tx_super. act_step. eapply act_bind; [apply ok_tx_get|]. intros slot _. by apply act_ret. Qed.
Lemma ok_tx_bitmap g i : ok_ (ext_tx_bitmap g i).
Proof.
  unfold ext_tx_bitmap. act_step. eapply act_bind; [apply ok_tx_desc|]. intros [slot off] _. eapply act_bind; [apply ok_tx_block|]. intros d _. act_step.
  eapply act_bind; [apply ok_tx_get|]. intros bslot _. eapply act_bind; [apply ok_tx_block|]. intros b _. act_step. by apply act_ret.
Qed.

(** * Allocation *)
Lemma ok_count_super i a : ok_ (count_super i a).
Proof.
  unfold count_super. act_step. eapply act_bind; [apply ok_tx_super|]. intros [slot off] _. eapply act_bind; [apply ok_tx_block|]. intros s _. cbv zeta. act_step.
  apply ok_tx_modify. auto with u8.
Qed.
Lemma ok_tx_bit n i a : ok_ (ext_tx_bit n i a).
Proof.
  unfold ext_tx_bit. act_step. cbv zeta. act_step. eapply act_bind; [apply ok_tx_bitmap|]. intros [[slot off] bslot] _. eapply act_bind; [apply ok_tx_block|]. intros b _. act_step.
  eapply act_bind; [apply ok_tx_block|]. intros d _. act_step. do 2 (eapply act_bind; [apply ok_tx_modify; auto with u8|]; intros _ _).
  eapply (act_bind _ _ _ _ (fun _ => True)). { act_step; [|by apply act_ret]. eapply act_bind; [apply ok_tx_block|]. intros b1 _. apply ok_tx_modify. auto with u8. }
  intros _ _. eapply (act_bind _ _ _ _ (fun _ => True)). { act_step; [|by apply act_ret]. apply ok_tx_modify. auto with u8. }
  intros _ _. eapply act_bind; [apply ok_tx_modify; auto with u8|]. intros _ _. apply ok_count_super.
Qed.
Lemma ok_allocate_in i g u : ok_ (allocate_in i g u).
Proof.
  unfold allocate_in. act_step. eapply act_bind; [apply ok_tx_desc|]. intros [slot off] _. eapply act_bind; [apply ok_tx_block|]. intros d _. act_step; [by apply act_ret|].
  eapply act_bind; [apply ok_tx_bitmap|]. intros p _. eapply act_bind; [apply ok_tx_block|]. intros b _. destruct (group_free _ _ _ _); [|by apply act_ret].
  eapply act_bind; [apply ok_tx_bit|]. intros _ _. by apply act_ret.
Qed.
Lemma ok_tx_allocate i : ok_ (ext_tx_allocate i).
Proof.
  unfold ext_tx_allocate. act_step. eapply act_bind; [apply (ok_range _ _ (fun _ => True) (fun _ => True)); [done|]; intros j s _ _; eapply act_weaken; [apply ok_allocate_in|]; by intros [|]|].
  intros [u|n] _; [apply ok_fails|by apply act_ret].
Qed.
Lemma ok_alloc_runs n : ok_ (ext_alloc_runs n).
Proof.
  unfold ext_alloc_runs. act_step. apply ok_fold; [done|]. intros j runs _ _. unfold alloc_run. eapply act_bind; [apply ok_tx_allocate|]. intros p _. cbv zeta.
  match goal with |- context [match ?x with Some l => _ | None => _ end] => destruct x end; [by apply act_ret|]. act_step. by apply act_ret.
Qed.
Lemma ok_tx_inode i raw : bytes_ok raw -> ok_ (ext_tx_inode i raw).
Proof.
  intros Hr. unfold ext_tx_inode. act_step. eapply act_bind; [apply ok_tx_desc|]. intros [slot off] _. eapply act_bind; [apply ok_tx_block|]. intros d _. cbv zeta.
  eapply act_bind; [apply ok_tx_get|]. intros bslot _. act_step. apply ok_tx_modify. auto with u8.
Qed.
Lemma ok_journal_runs : ok_ journal_runs.
Proof. unfold journal_runs. act_step. cbv zeta. eapply act_bind; [apply (ok_ext_inode P v0)|]. intros raw Hraw. eapply act_weaken; [by apply (ok_ext_map P v0)|done]. Qed.
Lemma ok_data_boundaries runs : ok_ (ext_data_boundaries runs).
Proof.
  unfold ext_data_boundaries. act_step. eapply act_bind; [apply act_for; intros g _; eapply act_bind; [apply (ok_ext_group P v0)|]; intros d _; by act|]. intros _ _. act_step; [|by apply act_ret].
  eapply act_bind; [apply ok_journal_runs|]. intros jr _. by act.
Qed.
Lemma ok_prepare_metadata : ok_ ext_prepare_metadata.
Proof.
  unfold ext_prepare_metadata. eapply act_bind; [apply (ok_native_clean P v0)|]. intros _ _. act_step. act_step.
  eapply (act_bind _ _ _ _ (fun _ => True)); [|intros _ _; apply ok_clear_staged]. act_step; [|by apply act_ret]. eapply act_bind; [apply ok_journal_runs|]. intros runs _.
  eapply act_bind; [by apply (ok_run_read P v0)|]. intros j _. by act.
Qed.

(** * Directory records *)
Lemma ok_add_in_block seed name i dir r j u : u8s name -> ok_ (add_in_block seed name i dir r j u).
Proof.
  intros Hn. unfold add_in_block. act_step. act_step. eapply act_bind; [apply ok_tx_get|]. intros slot _. eapply act_bind; [apply ok_tx_block|]. intros b _. cbv zeta. act_step.
  eapply act_bind; [apply (ok_lift_loop _ _ _ (fun _ => True)); [apply dirent_room_some; lia|done]|]. intros [[[at_ rec] used]|] _; [|by apply act_ret].
  eapply act_bind; [apply ok_tx_modify; auto with u8|]. intros _ _. eapply act_bind; [apply ok_tx_block|]. intros b1 _.
  eapply (act_bind _ _ _ _ (fun _ => True)); [act_step; [apply ok_tx_modify; auto with u8|by apply act_ret]|]. intros _ _. by apply act_ret.
Qed.
Lemma ok_add_dirent parent raw name i dir : u8s name -> bytes_ok raw -> ok_ (ext_add_dirent parent raw name i dir).
Proof.
  intros Hn Hraw. unfold ext_add_dirent. act_step. act_step. eapply act_bind; [by apply (ok_ext_map P v0)|]. intros runs _. act_step. generalize (ext_inode_seed v parent raw). intros seed.
  induction runs as [|r runs IH]; cbn [add_in_runs]; [apply ok_fails|].
  eapply act_bind; [apply (ok_range _ _ (fun _ => True) (fun _ => True)); [done|]; intros j s _ _; eapply act_weaken; [by apply ok_add_in_block|]; by intros [|]|].
  intros [u|u] _; [exact IH|by apply act_ret].
Qed.
Lemma ok_count_directory i : ok_ (count_directory i).
Proof.
  unfold count_directory. act_step. cbv zeta. eapply act_bind; [apply ok_tx_desc|]. intros [slot off] _. eapply act_bind; [apply ok_tx_block|]. intros d _. cbv zeta. act_step.
  eapply act_bind; [apply ok_tx_modify; auto with u8|]. intros _ _. apply ok_tx_modify. auto with u8.
Qed.
Lemma ok_absent (look : Act St D (option k_file)) : ok_ look -> ok_ (absent look).
Proof. intros Hl. unfold absent. eapply act_bind; [by apply ok_catch|]. intros [e|f] _; [by act|apply ok_fails]. Qed.

(** * Where NTFS data may not be *)
Lemma ok_boundary_step rec used runs at_ : bytes_ok rec -> ok (boundary_step rec used runs at_) (fun f => match f with Next t => 24 <= t - at_ /\ t <= used | Exit _ => True end).
Proof.
  intros Hr. unfold boundary_step. act_step; [by apply act_ret|]. cbv zeta. act_step. act_step. reflect_bools.
  eapply (act_bind _ _ _ _ (fun _ => True)); [act_step; [by apply act_ret|]; eapply act_bind; [apply (ok_runs_of P v0), wr16_u8, Hr|]; intros p _; by act|].
  intros _ _. apply act_ret. lia.
Qed.
Lemma ok_record_boundaries runs ino : ok_ (record_boundaries runs ino).
Proof.
  unfold record_boundaries. act_step. eapply act_bind; [apply ok_catch, (ok_ntfs_record P v0)|]. intros [e|rec] Hrec.
  - pose proof (no_record _ Hok). eapply act_bind; [by apply (ok_run_read P v0)|]. intros data _. destruct (ntfs_fixup _ _ _); [apply ok_fails|by act].
  - pose proof (rd16_u16 rec 20 Hrec) as H20. unfold is_u16 in H20.
    apply (act_loop _ _ (fun at_ => 0 <= at_) (fun at_ => Z.max 0 (rd32 rec 24 - at_))); [lia|lia| |lia]. intros at_ Hat.
    eapply act_weaken; [by apply ok_boundary_step|]. intros [t|u]; [lia|done].
Qed.
Lemma ok_metadata_boundaries runs : ok_ (ntfs_metadata_boundaries runs).
Proof. unfold ntfs_metadata_boundaries. act_step. apply act_for. intros j _. apply ok_record_boundaries. Qed.
Lemma ok_ntfs_boundaries runs : ok_ (ntfs_data_boundaries runs).
Proof.
  unfold ntfs_data_boundaries. eapply act_bind; [apply ok_metadata_boundaries|]. intros _ _. act_step. apply (ok_each _ _ _ _ (fun _ => True)); [by apply Forall_true|].
  intros r _. act_step. act_step. apply act_for. intros c _. unfold cluster_allocated. eapply act_bind; [by apply (ok_ntfs_data P v0)|]. intros p _. by act.
Qed.
Lemma ok_regular_writable ino rec : bytes_ok rec -> ok_ (ntfs_regular_writable ino rec).
Proof.
  intros Hr. unfold ntfs_regular_writable. act_step. eapply act_bind; [by apply (ok_attr P v0)|]. intros p _. eapply act_bind; [apply (ok_value P v0)|]. intros [value size] _. by act.
Qed.

(** * Staged sectors *)
Lemma piece_bounds v offset n lba at_ part : native_ok v -> 0 < n -> sector_piece v offset n = (lba, at_, part) -> 0 < part <= n.
Proof.
  intros Hok Hn. unfold sector_piece. pose proof (no_sector v Hok) as Hs. pose proof (Z.mod_pos_bound offset (nv_sector v) ltac:(lia)). unfold u32. cbv zeta.
  rewrite (Z.mod_small (offset mod nv_sector v)) by lia. intros [= <- <- <-]. rewrite Z.mod_small by lia. lia.
Qed.
Lemma ok_stage_sector lba : ok_ (stage_sector lba).
Proof.
  unfold stage_sector. act_step. eapply act_bind; [apply ok_staged|]. intros l _. destruct (find_staged _ _); [by apply act_ret|]. act_step. pose proof (no_sector _ Hok).
  eapply act_bind; [apply (ok_native_bytes P v0); [by apply Z.mod_pos_bound|lia]|]. intros data [Hd _]. eapply act_bind; [by apply ok_stage|]. intros _ _. by apply act_ret.
Qed.
Lemma ok_in_volume offset n : ok_ (in_volume offset n).
Proof. unfold in_volume. act_step. by act. Qed.
Lemma ok_nt_tx_read offset n : 0 <= offset -> 0 <= n -> ok (nt_tx_read offset n) u8s.
Proof.
  intros Ho Hn. unfold nt_tx_read. eapply act_bind; [apply ok_in_volume|]. intros _ _.
  apply (act_loop _ _ (fun x : Z * Z * list Z => 0 <= fst (fst x) /\ 0 <= snd (fst x) /\ u8s (snd x)) (fun x => snd (fst x))); cbn [fst snd]; [auto using nil_u8|lia| |lia].
  intros [[o k] out]; cbn [fst snd]; intros (H1 & H2 & H3). unfold nt_read_step. act_step; [by apply act_ret|]. reflect_bools. act_step.
  destruct (sector_piece v o k) as [[lba at_] part] eqn:Ep. apply piece_bounds in Ep as Hp; [|done|lia].
  eapply act_bind; [apply ok_staged|]. intros l _. eapply (act_bind _ _ _ _ u8s).
  { destruct (find_staged _ _) as [slot|]; [eapply act_bind; [apply ok_tx_block|]; intros b Hb0; by apply act_ret, bytes_at_u8|].
    eapply act_weaken; [apply (ok_native_bytes P v0); lia|]. by intros data [Hd _]. }
  intros data Hd. apply act_ret. cbn [fst snd]. split_and!; [lia|lia|by apply app_u8|lia|lia].
Qed.
Lemma drop_shorter (n : nat) (l : list Z) : (0 < n)%nat -> l <> [] -> (length (drop n l) < length l)%nat.
Proof. intros Hn Hl. rewrite length_drop. destruct l; [done|]. cbn [length]. lia. Qed.
Lemma ok_nt_tx_write offset data : u8s data -> ok_ (nt_tx_write offset data).
Proof.
  intros Hd. unfold nt_tx_write. eapply act_bind; [apply ok_in_volume|]. intros _ _.
  apply (act_loop _ _ (fun x : Z * list Z => u8s (snd x)) (fun x => zlen (snd x))); cbn [fst snd]; [done|unfold zlen; lia| |unfold zlen; lia].
  intros [o l]; cbn [fst snd]; intros Hl. unfold nt_write_step. destruct l as [|x l]; [by apply act_ret|]. act_step. set (w := x :: l) in *. assert (0 < zlen w) as Hw by (subst w; unfold zlen; cbn; lia).
  destruct (sector_piece v o (zlen w)) as [[lba at_] part] eqn:Ep. apply piece_bounds in Ep as Hp; [|done|done].
  eapply act_bind; [apply ok_stage_sector|]. intros slot _. eapply act_bind; [apply ok_tx_modify; intros m Hm0; apply write_bytes_ok; [by apply take_u8|done]|]. intros _ _. apply act_ret. cbn [fst snd].
  split; [by apply drop_u8|]. pose proof (drop_shorter (Z.to_nat part) w ltac:(lia) ltac:(done)). unfold zlen in *. lia.
Qed.
Lemma ok_nt_place runs offset : ok (nt_place runs offset) (fun p => 0 <= p).
Proof. unfold nt_place. act_step. destruct (run_find _ _) as [r|]; [|apply ok_fails]. act_step; [apply ok_fails|]. apply act_ret. by apply Z.mod_pos_bound. Qed.
Lemma ok_stream_read runs offset n : 0 <= n -> ok (nt_stream_read runs offset n) u8s.
Proof.
  intros Hn. unfold nt_stream_read.
  apply (act_loop _ _ (fun x : Z * Z * list Z => 0 <= snd (fst x) /\ u8s (snd x)) (fun x => snd (fst x))); cbn [fst snd]; [auto using nil_u8|lia| |lia].
  intros [[o k] out]; cbn [fst snd]; intros (H2 & H3). unfold nt_stream_read_step. act_step; [by apply act_ret|]. reflect_bools. act_step. cbv zeta. pose proof (no_block _ Hok) as Hblk.
  pose proof (Z.mod_pos_bound o (nv_block v) Hblk). eapply act_bind; [apply ok_nt_place|]. intros place Hp. eapply act_bind; [apply ok_nt_tx_read; [done|lia]|]. intros data Hd. apply act_ret. cbn [fst snd].
  split_and!; [lia|by apply app_u8|lia|lia].
Qed.
Lemma ok_stream_write runs offset data : u8s data -> ok_ (nt_stream_write runs offset data).
Proof.
  intros Hd. unfold nt_stream_write.
  apply (act_loop _ _ (fun x : Z * list Z => u8s (snd x)) (fun x => zlen (snd x))); cbn [fst snd]; [done|unfold zlen; lia| |unfold zlen; lia].
  intros [o l]; cbn [fst snd]; intros Hl. unfold nt_stream_write_step. destruct l as [|x l]; [by apply act_ret|]. act_step. set (w := x :: l) in *. assert (0 < zlen w) as Hw by (subst w; unfold zlen; cbn; lia).
  cbv zeta. pose proof (no_block _ Hok) as Hblk. pose proof (Z.mod_pos_bound o (nv_block v) Hblk). eapply act_bind; [apply ok_nt_place|]. intros place _.
  eapply act_bind; [by apply ok_nt_tx_write, take_u8|]. intros _ _. apply act_ret. cbn [fst snd]. split; [by apply drop_u8|].
  set (part := Z.min _ _). pose proof (drop_shorter (Z.to_nat part) w ltac:(lia) ltac:(done)). unfold zlen in *. lia.
Qed.
Lemma ok_nt_tx_record ino raw : bytes_ok raw -> ok_ (nt_tx_record ino raw).
Proof.
  intros Hr. unfold nt_tx_record. act_step. cbv zeta. act_step. eapply act_bind; [apply ok_stream_write; auto with u8|]. intros _ _. act_step; [|by apply act_ret]. apply ok_nt_tx_write. auto with u8.
Qed.

(** * Bitmaps and indexes *)
Lemma nth_u8 l i : u8s l -> is_u8 (nth i l 0).
Proof. intros Hl. destruct (nth_in_or_default i l 0) as [Hin| ->]; [|unfold is_u8; lia]. rewrite Forall_forall in Hl. by apply Hl, list_elem_of_In. Qed.
Lemma ok_bitmap_bit ino type bit change : ok_ (nt_bitmap_bit ino type bit change).
Proof.
  unfold nt_bitmap_bit. eapply act_bind; [apply (ok_ntfs_record P v0)|]. intros rec Hrec. eapply act_bind; [by apply (ok_attr P v0)|]. intros [a length] _. act_step.
  - unfold bit_in_record. act_step. eapply act_bind; [apply (ok_value P v0)|]. intros p _. act_step. pose proof (no_record _ Hok). eapply act_bind; [by apply ok_stream_read|]. intros data Hd.
    eapply act_bind; [apply (ok_lift _ _ _ bytes_ok); intros rec1 Hf; eapply fixup_u8; [by apply buffer_bytes|exact Hf]|]. intros rec1 Hrec1.
    eapply act_bind; [by apply (ok_attr P v0)|]. intros q _. eapply act_bind; [apply (ok_value P v0)|]. intros p1 _. cbv zeta. destruct change as [value|]; [|by apply act_ret]. act_step.
    eapply act_bind; [apply ok_nt_tx_record; auto with u8|]. intros _ _. by apply act_ret.
  - unfold bit_in_clusters. eapply act_bind; [by apply (ok_runs_of P v0)|]. intros runs _. act_step. eapply act_bind; [by apply ok_stream_read|]. intros data Hd. cbv zeta.
    destruct change as [value|]; [|by apply act_ret]. act_step. eapply act_bind; [apply ok_stream_write; apply Forall_singleton, byte_with_u8; by apply nth_u8|]. intros _ _. by apply act_ret.
Qed.
Lemma ok_alloc_data size : ok_ (nt_alloc_data size).
Proof.
  unfold nt_alloc_data. act_step. cbv zeta. act_step; [by apply act_ret|]. eapply act_bind; [by apply (ok_ntfs_data P v0)|]. intros p _. act_step.
  eapply act_bind; [apply (ok_range _ _ (fun _ => True) (fun _ => True)); [done|]|].
  - intros j s Hj _. unfold alloc_part. act_step. cbv zeta. eapply act_bind; [apply (ok_ntfs_data P v0); dlia|]. intros q _. apply act_ret. by destruct (for_range _ _ _ _).
  - intros [s|first] _; [apply ok_fails|]. eapply act_bind; [apply act_for; intros j _; eapply act_bind; [apply ok_bitmap_bit|]; intros b _; by apply act_ret|]. intros _ _. by apply act_ret.
Qed.
Lemma ok_open_index parent : ok (open_index parent) (fun ix => bytes_ok (ix_raw ix)).
Proof.
  unfold open_index. act_step. eapply act_bind; [apply (ok_ntfs_record P v0)|]. intros raw Hraw. act_step. eapply act_bind; [by apply (ok_attr P v0)|]. intros [attr len] _.
  eapply act_bind; [apply (ok_value P v0)|]. intros [value size] _. act_step. eapply act_bind; [by apply ok_catch, (ok_attr P v0)|]. intros [e|[ia ialen]] _.
  - act_step. by apply act_ret.
  - eapply act_bind; [by apply (ok_runs_of P v0)|]. intros runs _. by apply act_ret.
Qed.
Lemma ok_bitmap_byte raw bit : bytes_ok raw -> ok_ (index_bitmap_byte raw bit).
Proof.
  intros Hr. unfold index_bitmap_byte. eapply act_bind; [by apply (ok_attr P v0)|]. intros [ba bl] _. act_step.
  - eapply act_bind; [apply (ok_value P v0)|]. intros q _. act_step. by apply act_ret.
  - eapply act_bind; [by apply (ok_runs_of P v0)|]. intros bm _. act_step. eapply act_bind; [by apply (ok_run_read P v0)|]. intros data _. by apply act_ret.
Qed.
Lemma ok_descend ix node e n : bytes_ok (ix_raw ix) -> ok (descend ix node e n) (fun x => bytes_ok (nd_rec x)).
Proof.
  intros Hr. unfold descend. act_step. act_step. cbv zeta. act_step. act_step. eapply act_bind; [by apply ok_bitmap_byte|]. intros byte _. act_step. pose proof (no_index _ Hok).
  eapply act_bind; [by apply (ok_run_read P v0)|]. intros data [Hd _]. eapply act_bind; [apply (ok_lift _ _ _ bytes_ok); intros rec Hf; eapply fixup_u8; [by apply buffer_bytes|exact Hf]|].
  intros block Hblock. act_step. by apply act_ret.
Qed.
Lemma ok_store_index parent ix node rec : bytes_ok rec -> ok_ (store_index parent ix node rec).
Proof. intros Hr. unfold store_index. act_step. act_step; [by apply ok_nt_tx_record|]. cbv zeta. act_step. apply ok_stream_write. auto with u8. Qed.
Lemma ok_add_entry parent ix node at_ reference filename : u8s filename -> bytes_ok (nd_rec node) -> ok_ (add_entry parent ix node at_ reference filename).
Proof.
  intros Hf Hr. unfold add_entry. act_step. cbv zeta. act_step. act_step.
  - act_step. eapply act_bind; [apply (ok_lift _ _ _ bytes_ok); intros raw E; eapply attr_replace_u8; [exact Hr| |exact E]; by apply grown_root_u8|]. intros raw Hraw. by apply ok_nt_tx_record.
  - act_step. apply ok_store_index. by apply insert_entry_u8.
Qed.
Lemma ok_index_level parent ix name reference filename create node : u8s filename -> bytes_ok (ix_raw ix) -> bytes_ok (nd_rec node) ->
  ok (index_level parent ix name reference filename create node) (fun f => match f with Next x => bytes_ok (nd_rec x) | Exit _ => True end).
Proof.
  intros Hf Hx Hr. unfold index_level. cbv zeta. act_step. act_step. reflect_bools. eapply act_bind; [apply (ok_lift_loop _ _ _ (fun _ => True)); [apply scan_index_some; lia|done]|].
  intros [at_ k|at_ n flags] _.
  - act_step. act_step. eapply act_bind; [by apply ok_store_index, write_bytes_ok|]. intros _ _. by apply act_ret.
  - act_step; [eapply act_bind; [by apply ok_descend|]; intros x Hx1; by apply act_ret|]. act_step. eapply act_bind; [by apply ok_add_entry|]. intros _ _. by apply act_ret.
Qed.
Lemma ok_index_change parent reference filename create : u8s filename -> ok_ (nt_index_change parent reference filename create).
Proof.
  intros Hf. unfold nt_index_change. eapply act_bind; [by apply (ok_lift _ _ _ (fun _ => True))|]. intros name _. eapply act_bind; [apply ok_open_index|]. intros ix Hix.
  eapply act_bind; [apply (ok_range _ _ (fun x => bytes_ok (nd_rec x)) (fun _ => True)); [exact Hix|]; intros j x _ Hx; by apply ok_index_level|]. intros [x|u] _; [apply ok_fails|by apply act_ret].
Qed.
Lemma ok_nt_prepare : ok_ nt_prepare.
Proof.
  unfold nt_prepare. eapply act_bind; [apply (ok_native_clean P v0)|]. intros _ _. act_step. cbv zeta. act_step. eapply act_bind; [apply (ok_ntfs_record P v0)|]. intros rec Hrec.
  eapply act_bind; [by apply (ok_attr P v0)|]. intros p _. eapply act_bind; [by apply (ok_runs_of P v0)|]. intros runs _. act_step. apply ok_clear_staged.
Qed.

(** * New records *)
Lemma ok_new_record : ok nt_new_record (fun x => bytes_ok (snd x)).
Proof.
  unfold nt_new_record. act_step. eapply act_bind; [apply (ok_range _ _ (fun _ => True) (fun x : Z * zmap => bytes_ok (snd x))); [done|]|intros [u|x] Hx; [apply ok_fails|by apply act_ret]].
  intros j u _ _. unfold try_record. act_step. eapply act_bind; [apply ok_bitmap_bit|]. intros used _. act_step; [by apply act_ret|]. pose proof (no_record _ Hok0).
  eapply act_bind; [by apply (ok_run_read P v0)|]. intros data _. eapply act_bind; [by apply (ok_lift _ _ _ (fun _ => True))|]. intros sequence _.
  eapply act_bind; [apply ok_bitmap_bit|]. intros _ _. apply act_ret. apply clear_record_u8.
Qed.
Lemma ok_attr_value rec type : bytes_ok rec -> ok_ (attr_value rec type).
Proof. intros Hr. unfold attr_value. eapply act_bind; [by apply (ok_attr P v0)|]. intros p _. apply (ok_value P v0). Qed.
Lemma ok_free_old fresh r : ok_ (free_old fresh r).
Proof. unfold free_old. act_step. act_step. apply act_for. intros j _. eapply act_bind; [apply ok_bitmap_bit|]. intros b _. by apply act_ret. Qed.
Lemma ok_parent_of reference : ok_ (parent_of reference).
Proof. unfold parent_of. act_step. cbv zeta. eapply act_bind; [apply (ok_ntfs_record P v0)|]. intros raw _. act_step. by apply act_ret. Qed.
Lemma ok_old_runs rec a length : bytes_ok rec -> ok_ (old_runs rec a length).
Proof.
  intros Hr. unfold old_runs. act_step; [by apply act_ret|]. eapply act_bind; [by apply (ok_runs_of P v0)|]. intros old _. eapply act_bind; [apply ok_ntfs_boundaries|]. intros _ _. by apply act_ret.
Qed.
Lemma ok_new_data size : ok_ (new_data size).
Proof.
  unfold new_data. eapply act_bind; [apply ok_alloc_data|]. intros fresh _. eapply (act_bind _ _ _ _ (fun _ => True)); [act_step; [by apply act_ret|apply ok_metadata_boundaries]|]. intros _ _. by apply act_ret.
Qed.
End Staging.
