(* ===== verification/NativeSafe.v ===== *)
(** Writing ext and NTFS volumes, in the logic of [NativeLogic]: whatever
    property of the disks the reads, the flushes and the writes of whole
    sectors inside the volume keep, every operation of the two drivers keeps;
    and none of them is stuck. *)
From S2P Require Import Prelude Klib Pmm PageAlloc Path Disk State Fat Native Ext Ntfs NativeRead ExtWrite NtfsWrite NtfsCreate RamFs Vfs NativeFs NativeLogic NativeReads NativeStage.

(** What the writing half asks of the property: writes of one sector of the
    volume, while the volume may be written. *)
Class Writes {D : Type} `{Disks D} (P : D -> Prop) (v0 : native_volume) : Prop :=
  write_law : forall v d lba data, same_native v0 v -> nv_read_only v = false -> nv_failed v = false -> 0 <= lba < nv_length v -> zlen data = nv_sector v -> P d ->
    P (fst (disk_write_fs d (nv_disk v) (nv_start v + lba) data)).

Section Writing.
Context {St D : Type} `{PageSource St} `{Disks D} (P : D -> Prop) (v0 : native_volume) {reads : Reads P v0} {writes : Writes P v0}.
#[local] Abbreviation ok := (ok (St := St) P v0).
#[local] Abbreviation ok_ m := (NativeLogic.ok (St := St) P v0 m (fun _ => True)).
#[local] Abbreviation u8s := (Forall is_u8).

(** * Sectors *)
Lemma ok_on_vol f : (forall v, nshape (f v) = nshape v /\ (nv_failed v = true -> nv_failed (f v) = true)) -> ok_ (on_vol f).
Proof.
  intros Hf s (HP & [Hv Hfail] & Ht). split; [|done]. split_and!; [done| |done]. cbn. destruct (Hf (nx_v s)) as [H1 H2]. split; [by rewrite H1|]. intros Hw. auto.
Qed.
Lemma ok_freeze {A} e (Q : A -> Prop) : ok (freeze e) Q.
Proof. unfold freeze. eapply act_bind; [by apply ok_on_vol|]. intros _ _. apply ok_fails. Qed.
Lemma native_bytes_v offset n (s : nx St D) : nx_v (fst (native_bytes offset n s)) = nx_v s.
Proof. unfold native_bytes. destruct (negb _); [done|]. by destruct (disk_bytes _ _ _ _) as [d r]. Qed.
(** Within a write the volume does not change. *)
Definition held (v : native_volume) {A} (m : Act St D A) (Q : A -> Prop) : Prop :=
  forall s, nx_ok P v0 s -> nx_v s = v -> nx_ok P v0 (fst (m s)) /\ nx_v (fst (m s)) = v /\ match snd (m s) with Done a => Q a | Err _ => True | Stuck => False end.
Lemma held_bind v {A B} (m : Act St D A) (k : A -> Act St D B) Q R : held v m Q -> (forall a, Q a -> held v (k a) R) -> held v (abind m k) R.
Proof.
  intros Hm Hk s Hs Hv. unfold abind. destruct (Hm s Hs Hv) as (H1 & H2 & H3). destruct (m s) as [s1 [a|e|]]; cbn [fst snd] in *; [by apply Hk|by split_and!|done].
Qed.
Lemma held_ret v {A} (a : A) (Q : A -> Prop) : Q a -> held v (aret a) Q.
Proof. intros Ha s Hs Hv. by split_and!. Qed.
Lemma held_bytes v offset n : 0 <= offset -> 0 <= n -> held v (native_bytes offset n) (fun l => zlen l = n).
Proof.
  intros Ho Hn s Hs Hv. destruct (ok_native_bytes P v0 offset n Ho Hn s Hs) as [H1 H2]. split_and!; [done|by rewrite native_bytes_v|]. destruct (snd _); [apply H2|done..].
Qed.
Lemma held_write v lba data : nv_read_only v = false -> nv_failed v = false -> 0 <= lba < nv_length v -> zlen data = nv_sector v ->
  held v (write_fs (u64 (nv_start v + lba)) data) (fun _ => True).
Proof.
  intros Hr Hf Hl Hd s (HP & Hv0 & Ht) Hv. unfold write_fs. rewrite Hv. rewrite Hv in Hv0. pose proof (same_native_ok P v0 _ Hv0) as [Hs _ Hst _ He _ _ _ _ _ _].
  unfold u64. rewrite Z.mod_small by nia. pose proof (write_law v (nx_d s) lba data Hv0 Hr Hf Hl Hd HP) as H1.
  destruct (disk_write_fs _ _ _ _) as [d e]. cbn [fst] in H1. destruct (e =? 0); cbn; rewrite ?Hv; (split_and!; [|done|done]); unfold nx_ok; cbn; rewrite Hv; by split_and!.
Qed.
Lemma held_step v x : nv_read_only v = false -> nv_failed v = false -> 0 <= fst x -> fst x + zlen (snd x) <= nv_length v * nv_sector v -> native_ok v ->
  held v (write_step x) (fun f => match f with Next y => 0 <= fst y /\ fst y + zlen (snd y) <= nv_length v * nv_sector v /\ zlen (snd y) < zlen (snd x) | Exit _ => True end).
Proof.
  destruct x as [offset data]. cbn [fst snd]. intros Hr Hf Ho Hlen [Hsec _ Hst Hl He _ _ _ _ _ _]. unfold write_step. destruct data as [|b data]; [by apply held_ret|].
  set (w := b :: data) in *. assert (0 < zlen w) as Hw by (subst w; unfold zlen; cbn; lia).
  eapply (held_bind _ _ _ (fun u => u = v)); [by intros s Hs <-|]. intros ? ->. cbv zeta.
  pose proof (Z.mod_pos_bound offset (nv_sector v) ltac:(lia)) as Hm. pose proof (Z.div_mod offset (nv_sector v) ltac:(lia)) as Hd.
  assert (0 <= offset / nv_sector v) as Hq by (apply Z.div_pos; lia).
  assert (u32 (offset mod nv_sector v) = offset mod nv_sector v) as -> by (apply Z.mod_small; lia).
  set (at_ := offset mod nv_sector v) in *. set (lba := offset / nv_sector v) in *.
  assert (u32 (Z.min (zlen w) (nv_sector v - at_)) = Z.min (zlen w) (nv_sector v - at_)) as -> by (apply Z.mod_small; lia).
  set (n := Z.min (zlen w) (nv_sector v - at_)) in *. assert (0 < n <= zlen w) as Hn by lia. assert (lba < nv_length v) as Hlba by nia.
  eapply (held_bind _ _ _ (fun old => zlen old = nv_sector v \/ (at_ = 0 /\ n = nv_sector v /\ old = []))).
  { destruct (_ || _) eqn:E.
    - intros s Hs Hv. destruct (held_bytes v (u64 (lba * nv_sector v)) (nv_sector v) ltac:(by apply Z.mod_pos_bound) ltac:(lia) s Hs Hv) as (H1 & H2 & H3). split_and!; [done..|].
      destruct (snd _); [by left|done..].
    - apply held_ret. right. reflect_bools. split_and!; [lia|lia|done]. }
  intros old Hold. eapply held_bind; [apply held_write; try done|].
  { unfold zlen in *. rewrite !length_app, length_take, length_take, length_drop. destruct Hold as [Hold|(H1 & H2 & ->)]; cbn [length]; lia. }
  intros _ _. apply held_ret. cbn [fst snd]. assert (zlen (drop (Z.to_nat n) w) = zlen w - n) as -> by (unfold zlen in *; rewrite length_drop; lia). lia.
Qed.
Lemma held_loop v fuel : forall x, nv_read_only v = false -> nv_failed v = false -> native_ok v -> 0 <= fst x -> fst x + zlen (snd x) <= nv_length v * nv_sector v -> zlen (snd x) < Z.of_nat fuel ->
  held v (a_loop fuel write_step x) (fun _ => True).
Proof.
  induction fuel as [|fuel IH]; intros x Hr Hf Hok Ho Hl Hz; [unfold zlen in Hz; lia|]. cbn [a_loop]. eapply held_bind; [by apply held_step|].
  intros [y|u] Hy; [|by apply held_ret]. apply IH; try tauto. lia.
Qed.
(** The same for computations that may change the volume at the end. *)
Definition from (v : native_volume) {A} (m : Act St D A) (Q : A -> Prop) : Prop :=
  forall s, nx_ok P v0 s -> nx_v s = v -> nx_ok P v0 (fst (m s)) /\ match snd (m s) with Done a => Q a | Err _ => True | Stuck => False end.
Lemma from_vol {A} (k : native_volume -> Act St D A) Q : (forall v, same_native v0 v -> native_ok v -> from v (k v) Q) -> ok (abind vol k) Q.
Proof. intros Hk s Hs. apply (Hk (nx_v s)); [apply Hs|apply (same_native_ok P v0), Hs|done|done]. Qed.
Lemma from_refuse v {A} b e (k : unit -> Act St D A) Q : (b = false -> from v (k tt) Q) -> from v (abind (refuse b e) k) Q.
Proof. intros Hk s Hs Hv. destruct b; [by split|]. by apply Hk. Qed.
Lemma from_bind v {A B} (m : Act St D A) (k : A -> Act St D B) Q R : held v m Q -> (forall a, Q a -> ok (k a) R) -> from v (abind m k) R.
Proof.
  intros Hm Hk s Hs Hv. unfold abind. destruct (Hm s Hs Hv) as (H1 & H2 & H3). destruct (m s) as [s1 [a|e|]]; cbn [fst snd] in *; [by apply Hk|by split|done].
Qed.
Lemma held_catch v {A} (m : Act St D A) Q : held v m Q -> held v (catch m) (fun _ => True).
Proof. intros Hm s Hs Hv. unfold catch. destruct (Hm s Hs Hv) as (H1 & H2 & H3). by destruct (m s) as [s1 [a|e|]]. Qed.
Lemma held_flush v : held v flush_disk (fun _ => True).
Proof.
  intros s Hs Hv. destruct (ok_flush_disk P v0 s Hs) as [H1 H2]. split_and!; [done| |done]. unfold flush_disk. destruct (disk_flush _ _) as [d e]. by destruct (e =? 0).
Qed.
(** The only place where the drivers write. *)
Lemma ok_write_bytes offset data : 0 <= offset -> ok_ (native_write_bytes offset data).
Proof.
  intros Ho. unfold native_write_bytes. apply from_vol. intros v _ Hok. apply from_refuse. intros E1. apply from_refuse. intros E2. apply orb_false_elim in E1 as [Hr Hf].
  pose proof Hok as [Hsec _ Hst Hl He _ _ _ _ _ _]. apply negb_false_iff, span_ok_spec in E2 as [E2 E3]. unfold u64 in E3. rewrite Z.mod_small in E3 by nia.
  eapply from_bind; [eapply held_catch, held_bind; [apply (held_loop v); cbn [fst snd]; try done; unfold zlen in *; lia|intros _ _; apply held_flush]|].
  intros [e|u] _; [apply ok_freeze|by apply ok_on_vol].
Qed.
Lemma ok_write_u64 x data : ok_ (native_write_bytes (u64 x) data).
Proof. apply ok_write_bytes. by apply Z.mod_pos_bound. Qed.
Lemma ok_run_write runs offset data : ok_ (run_write runs offset data).
Proof.
  unfold run_write. apply (act_loop _ _ (fun _ => True) (fun x => zlen (snd x))); cbn [fst snd]; [done|unfold zlen; lia| |unfold zlen; lia].
  intros [o l] _. cbn [fst snd]. unfold write_run_step. destruct l as [|x l]; [by apply act_ret|]. act_step. set (w := x :: l) in *. assert (0 < zlen w) as Hw by (subst w; unfold zlen; cbn; lia).
  cbv zeta. pose proof (no_block _ Hok) as Hblk. pose proof (Z.mod_pos_bound o (nv_block v) Hblk). destruct (run_find _ _) as [r|]; [|apply ok_fails]. act_step; [apply ok_fails|].
  eapply act_bind; [apply ok_write_u64|]. intros _ _. apply act_ret. cbn [fst snd]. split; [done|].
  set (part := Z.min _ _). pose proof (drop_shorter (Z.to_nat part) w ltac:(lia) ltac:(done)). unfold zlen in *. lia.
Qed.

(** * ext *)
Lemma ok_fresh_data fresh data : ok_ (write_data fresh data).
Proof.
  unfold write_data. eapply act_bind; [apply (ok_fold _ _ (fun _ => True)); [done|]|intros _ _; by apply act_ret].
  intros i offset _ _. unfold write_fresh. act_step. apply (ok_fold _ _ (fun _ => True)); [done|]. intros j o _ _. eapply act_bind; [apply ok_write_u64|]. intros _ _. by apply act_ret.
Qed.
Lemma ok_write_staged : ok_ write_staged.
Proof.
  unfold write_staged. act_step. eapply act_bind; [apply ok_staged|]. intros l Hl. apply (ok_each _ _ _ _ slot_ok Hl). intros x _. apply ok_write_u64.
Qed.
Lemma ok_commit fresh data : ok_ (ext_commit fresh data).
Proof.
  unfold ext_commit. act_step. eapply act_bind; [apply (ok_tx_super P v0)|]. intros [slot off] _. eapply act_bind; [by apply ok_write_bytes|]. intros _ _.
  eapply act_bind; [apply ok_catch; eapply act_bind; [apply ok_fresh_data|]; intros _ _; eapply act_bind; [apply (ok_tx_modify P v0); auto with u8|]; intros _ _; apply ok_write_staged|].
  intros [e|u] _; [apply ok_freeze|]. eapply act_bind; [apply (ok_tx_modify P v0); auto with u8|]. intros _ _. eapply act_bind; [apply (ok_tx_block P v0)|]. intros s _.
  eapply act_bind; [by apply ok_catch, ok_write_bytes|]. intros [e|u1] _; [apply ok_freeze|by apply ok_on_vol].
Qed.
Lemma ok_replace f data : ok_ (ext_replace f data).
Proof.
  unfold ext_replace. act_step. cbv zeta. act_step. eapply act_bind; [apply (ok_ext_inode P v0)|]. intros raw Hraw. act_step. eapply act_bind; [by apply (ok_ext_map P v0)|]. intros old _.
  eapply act_bind; [apply (ok_data_boundaries P v0)|]. intros _ _. eapply act_bind; [apply (ok_prepare_metadata P v0)|]. intros _ _. eapply act_bind; [apply (ok_alloc_runs P v0)|]. intros fresh _.
  eapply act_bind; [apply (ok_data_boundaries P v0)|]. intros _ _. act_step.
  eapply act_bind; [apply (ok_each _ _ _ _ (fun _ => True)); [by apply Forall_true|]; intros r _; apply act_for; intros j _; apply (ok_tx_bit P v0)|]. intros _ _.
  eapply act_bind; [apply (ok_tx_inode P v0); auto with u8|]. intros _ _. apply ok_commit.
Qed.
Lemma split_name_u8 path : u8s path -> u8s (snd (split_name path)).
Proof. intros Hp. unfold split_name. cbn. auto with u8. Qed.
Lemma ok_ext_create cycles path directory data : u8s path -> ok_ (ext_create cycles path directory data).
Proof.
  intros Hp. unfold ext_create. act_step. act_step. eapply act_bind; [apply ok_index|]. intros index _. pose proof (split_name_u8 path Hp) as Hname. destruct (split_name path) as [parent_path name]. cbn in Hname.
  eapply act_bind; [apply (ok_open_path P v0)|]. intros parent _. act_step. eapply act_bind; [apply (ok_absent P v0), (ok_ext_directory P v0)|]. intros _ _.
  eapply act_bind; [apply (ok_ext_inode P v0)|]. intros praw Hpraw. act_step. eapply act_bind; [apply (ok_prepare_metadata P v0)|]. intros _ _. eapply act_bind; [apply (ok_tx_allocate P v0)|]. intros inode _.
  cbv zeta. eapply act_bind; [apply (ok_alloc_runs P v0)|]. intros fresh _. eapply act_bind; [apply (ok_data_boundaries P v0)|]. intros _ _. eapply act_bind; [by apply (ok_ext_map P v0)|]. intros pruns _. act_step.
  eapply (act_bind _ _ _ _ (fun _ => True)); [destruct directory; [apply (ok_count_directory P v0)|by apply act_ret]|]. intros _ _.
  eapply act_bind; [apply (ok_add_dirent P v0); [done|destruct directory; auto with u8]|]. intros _ _. eapply act_bind; [apply (ok_tx_inode P v0); auto with u8|]. intros _ _.
  eapply act_bind; [apply (ok_tx_inode P v0); destruct directory; auto with u8|]. intros _ _. eapply act_bind; [apply ok_commit|]. intros _ _. by apply act_ret.
Qed.

(** * NTFS *)
Lemma ok_store_record ino raw : ok_ (ntfs_store_record ino raw).
Proof.
  unfold ntfs_store_record. act_step. cbv zeta. act_step. eapply act_bind; [apply ok_run_write|]. intros _ _. act_step; [|by apply act_ret]. act_step. apply ok_write_u64.
Qed.
Lemma ok_dirty b : ok_ (ntfs_dirty b).
Proof.
  unfold ntfs_dirty. eapply act_bind; [apply (ok_volume_information P v0)|]. intros [[rec value] size] _. act_step. cbv zeta. act_step. apply ok_store_record.
Qed.
Lemma ok_frozen_unless {A} (r : Z + A) : ok_ (match r with inl e => freeze e | inr _ => aret tt end).
Proof. destruct r; [apply ok_freeze|by apply act_ret]. Qed.
Lemma ok_write_value ino rec a length offset data : ok_ (write_value ino rec a length offset data).
Proof.
  unfold write_value. eapply act_bind; [apply (ok_value P v0)|]. intros [at_ len] _. act_step; [by act|]. cbv zeta.
  eapply act_bind; [apply ok_catch; eapply act_bind; [apply ok_dirty|]; intros _ _; eapply act_bind; [apply ok_store_record|]; intros _ _; apply ok_dirty|]. intros r _. apply ok_frozen_unless.
Qed.
Lemma ok_write_clusters ino rec a length offset data : bytes_ok rec -> ok_ (write_clusters ino rec a length offset data).
Proof.
  intros Hr. unfold write_clusters. act_step. eapply act_bind; [by apply (ok_runs_of P v0)|]. intros runs _. act_step; [by act|]. cbv zeta. do 3 act_step.
  eapply act_bind; [apply (ok_ntfs_boundaries P v0)|]. intros _ _. apply ok_run_write.
Qed.
Lemma ok_data_write ino offset data : ok_ (ntfs_data_write ino offset data).
Proof.
  unfold ntfs_data_write. eapply act_bind; [apply (ok_ntfs_record P v0)|]. intros rec Hrec. eapply act_bind; [by apply (ok_regular_writable P v0)|]. intros _ _. act_step.
  eapply act_bind; [by apply (ok_attr P v0)|]. intros [a length] _. act_step; [apply ok_write_value|by apply ok_write_clusters].
Qed.
Lemma same_block v w : same_native v0 v -> same_native v0 w -> nv_block v = nv_block w.
Proof. intros [Hv _] [Hw _]. exact (f_equal nv_block (eq_trans Hv (eq_sym Hw))). Qed.
Lemma ok_nt_commit fresh data : ok_ (nt_commit fresh data).
Proof.
  unfold nt_commit. eapply act_bind; [apply (ok_volume_information P v0)|]. intros [[rec value] n] Hrec. act_step. eapply act_bind; [apply (ok_nt_tx_record P v0); auto with u8|]. intros _ _. act_step.
  eapply act_bind; [apply ok_catch|intros r _; apply ok_frozen_unless]. eapply act_bind; [apply ok_dirty|]. intros _ _. pose proof (no_sector _ Hok) as Hsec.
  eapply act_bind; [|intros _ _; eapply act_bind; [|intros _ _; apply ok_dirty]].
  - set (allocated := u64 (run_length fresh * nv_block v)). apply (act_loop _ _ (fun off => 0 <= off) (fun off => Z.max 0 (allocated - off)) (fun _ => True)); [done|lia| |lia].
    intros off Hoff. unfold fresh_step. act_step. cbv zeta. rewrite (same_block v1 v) by done. fold allocated. pose proof (no_sector _ Hok0) as Hsec1. act_step; [by apply act_ret|]. reflect_bools.
    eapply act_bind; [apply ok_write_u64|]. intros _ _. apply act_ret. lia.
  - unfold write_sectors. act_step. eapply act_bind; [apply ok_staged|]. intros l Hl. apply (ok_each _ _ _ _ slot_ok Hl). intros x _. apply ok_write_u64.
Qed.
Lemma ok_ntfs_replace f data : ok_ (ntfs_replace f data).
Proof.
  unfold ntfs_replace. act_step. cbv zeta. act_step. eapply act_bind; [apply (ok_nt_prepare P v0)|]. intros _ _. eapply act_bind; [apply (ok_ntfs_record P v0)|]. intros raw Hraw. act_step.
  eapply act_bind; [by apply (ok_regular_writable P v0)|]. intros _ _. eapply act_bind; [by apply (ok_attr_value P v0)|]. intros fn _. eapply act_bind; [by apply (ok_lift _ _ _ (fun _ => True))|]. intros name _.
  eapply act_bind; [apply (ok_parent_of P v0)|]. intros parent _. eapply act_bind; [by apply (ok_attr P v0)|]. intros [a len] _. eapply act_bind; [by apply (ok_old_runs P v0)|]. intros old _.
  eapply act_bind; [apply (ok_new_data P v0)|]. intros fresh _. eapply act_bind; [apply (ok_each _ _ _ _ (fun _ => True)); [by apply Forall_true|]; intros r _; apply (ok_free_old P v0)|]. intros _ _.
  eapply act_bind; [apply (ok_lift _ _ _ bytes_ok); intros raw1 E; eapply attr_replace_u8; [exact Hraw| |exact E]; auto with u8|]. intros raw1 Hraw1.
  eapply act_bind; [by apply (ok_attr_value P v0)|]. intros fn1 _. eapply act_bind; [apply (ok_index_change P v0); auto with u8|]. intros _ _. eapply act_bind; [apply (ok_nt_tx_record P v0); auto with u8|]. intros _ _. apply ok_nt_commit.
Qed.
Lemma ok_append n raw a : bytes_ok raw -> u8s a -> ok (lift (nt_record_append n raw a)) bytes_ok.
Proof. intros Hr Ha. apply ok_lift. intros raw1 E. by eapply record_append_u8. Qed.
Lemma ok_ntfs_create path directory data : ok_ (ntfs_create path directory data).
Proof.
  unfold ntfs_create. act_step. eapply act_bind; [apply ok_index|]. intros index _. cbv zeta. act_step. destruct (split_name path) as [parent_path name]. act_step.
  eapply act_bind; [apply (ok_open_path P v0)|]. intros parent _. act_step. eapply act_bind; [apply (ok_absent P v0), (ok_ntfs_directory P v0)|]. intros _ _. eapply act_bind; [apply (ok_nt_prepare P v0)|]. intros _ _.
  eapply act_bind; [apply (ok_ntfs_record P v0)|]. intros praw Hpraw. eapply act_bind; [by apply (ok_attr_value P v0)|]. intros p _. act_step. eapply act_bind; [apply (ok_new_record P v0)|]. intros [ino raw] Hraw. cbn [snd] in Hraw.
  eapply (act_bind _ _ _ _ (fun _ => True)); [destruct directory; [by apply act_ret|apply (ok_new_data P v0)]|]. intros fresh _.
  eapply act_bind; [apply ok_append; [destruct directory; auto with u8|auto with u8]|]. intros raw1 Hraw1. eapply act_bind; [apply ok_append; [done|auto with u8]|]. intros raw2 Hraw2.
  eapply act_bind; [apply ok_append; [done|destruct directory; auto with u8]|]. intros raw3 Hraw3. eapply act_bind; [apply (ok_index_change P v0); auto with u8|]. intros _ _.
  eapply act_bind; [apply (ok_nt_tx_record P v0); auto with u8|]. intros _ _. eapply act_bind; [apply ok_nt_commit|]. intros _ _. by apply act_ret.
Qed.

(** * Writing to files, and the table's operations *)
Lemma ok_runs_allocated runs : forall s, ok_ (runs_allocated runs s).
Proof.
  induction runs as [|r runs IH]; intros s; cbn [runs_allocated]; [by apply act_ret|]. act_step. eapply act_bind; [apply (ok_fold _ _ (fun _ => True)); [done|]|intros t _; apply IH].
  intros p [oldgroup bitmap] _ _. unfold check_allocated. act_step. cbv zeta. act_step. pose proof (no_block _ Hok) as Hblk.
  eapply (act_bind _ _ _ _ (fun _ => True)); [|intros b _; act_step; by apply act_ret]. act_step; [by apply act_ret|]. eapply act_bind; [apply (ok_ext_group P v0)|]. intros d _. act_step.
  eapply act_bind; [apply (ok_native_bytes P v0); [by apply Z.mod_pos_bound|lia]|]. intros data _. act_step. by apply act_ret.
Qed.
Lemma ok_ext_write f offset data : ok_ (ext_write f offset data).
Proof.
  unfold ext_write. act_step. eapply act_bind; [apply (ok_ext_inode P v0)|]. intros raw Hraw. act_step. act_step. eapply act_bind; [by apply (ok_ext_map P v0)|]. intros runs _. act_step.
  eapply act_bind; [apply act_for; intros g _; eapply act_bind; [apply (ok_ext_group P v0)|]; intros d _; by act|]. intros _ _. eapply act_bind; [apply ok_runs_allocated|]. intros _ _. apply ok_run_write.
Qed.
Lemma ok_with_pages {A} n (m : Act St D A) Q : ok m Q -> ok (with_pages n m) Q.
Proof.
  intros Hm s Hs. unfold with_pages. destruct (pa_alloc _ _ _ _) as [[ps ram] page]. destruct (page =? 0); [by split|].
  destruct (Hm (s <| nx_ps := ps |> <| nx_ram := ram |>)) as [H1 H2]; [exact Hs|]. by destruct (m _) as [s1 r].
Qed.
Lemma ok_write_file f offset data : 0 <= f_size f -> ok_ (write_file f offset data).
Proof.
  intros Hs. unfold write_file. act_step. cbv zeta. act_step; [act_step; [by apply act_ret|]|].
  - unfold rewrite_file. act_step. apply ok_with_pages. eapply act_bind; [by apply (ok_read_file P v0)|]. intros old _. act_step. cbv zeta.
    eapply (act_bind _ _ _ _ (fun _ => True)); [act_step; [apply ok_replace|apply ok_ntfs_replace]|]. intros _ _. by apply act_ret.
  - unfold in_place. act_step. act_step. act_step; [by apply act_ret|]. eapply act_bind; [apply (ok_native_clean P v0)|]. intros _ _.
    eapply (act_bind _ _ _ _ (fun _ => True)); [act_step; [apply ok_data_write|apply ok_ext_write]|]. intros _ _. by apply act_ret.
Qed.
Lemma ok_store_file cycles path data : u8s path -> ok_ (store_file cycles path data).
Proof.
  intros Hp. unfold store_file. act_step. eapply act_bind; [apply ok_catch, (ok_open_path P v0)|]. intros [e|f] _.
  - act_step; [|apply ok_fails]. eapply (act_bind _ _ _ _ (fun _ => True)); [act_step; [by apply ok_ext_create|apply ok_ntfs_create]|]. intros _ _. by apply act_ret.
  - act_step. act_step; [apply ok_replace|apply ok_ntfs_replace].
Qed.
Lemma ok_create_file cycles path directory : u8s path -> ok_ (create_file cycles path directory).
Proof. intros Hp. unfold create_file. act_step. act_step; [by apply ok_ext_create|apply ok_ntfs_create]. Qed.
End Writing.
