(* ===== verification/NativeConfine.v ===== *)
(** What the logic of [NativeLogic] gives the table of volumes: every operation
    ends, none uses a sector outside its volume, and a volume that is
    read-only or that has failed is never written again. *)
From S2P Require Import Prelude Klib Pmm PageAlloc Path Disk DiskStore State Fat RamFs Native Ext Ntfs NativeRead ExtWrite NtfsWrite NtfsCreate Vfs NativeFs NativeDemo NativeLogic NativeReads NativeStage NativeSafe.

(** A volume whose geometry is that of its disk. *)
Definition native_on {D} `{Disks D} (d : D) (v : native_volume) : Prop := native_ok v /\ nv_sector v = disk_sector_size d (nv_disk v).
Lemma same_native_disk v0 v : same_native v0 v -> nv_disk v = nv_disk v0 /\ nv_start v = nv_start v0 /\ nv_length v = nv_length v0 /\ nv_sector v = nv_sector v0 /\ nv_read_only v = nv_read_only v0.
Proof. intros [E _]. split_and!; [exact (f_equal nv_disk E)|exact (f_equal nv_start E)|exact (f_equal nv_length E)|exact (f_equal nv_sector E)|exact (f_equal nv_read_only E)]. Qed.
Lemma same_native_refl v : same_native v v.
Proof. by split. Qed.

(** * Properties that the laws of the disks give *)
Section Laws.
Context {D : Type} `{DiskContents D} (v0 : native_volume).
(** A read of the volume's bytes. *)
Lemma volume_read d v offset n : native_on d v0 -> same_native v0 v -> 0 <= offset -> 0 <= n ->
  let r := disk_bytes d (nv_disk v) (nv_start v * nv_sector v + offset) n in
  native_on (fst r) v0 /\ disk_byte (fst r) = disk_byte d /\ (forall data, snd r = inr data ->
    data = bytes_from (disk_byte d (nv_disk v0)) (nv_start v0 * nv_sector v0 + offset) n /\ Forall is_u8 data /\ zlen data = n).
Proof.
  intros [Hok Hs] Hv Ho Hn. pose proof (same_native_disk _ _ Hv) as (-> & -> & _ & -> & _). destruct (disk_bytes d _ _ n) as [d' r] eqn:E. cbn. pose proof Hok as [Hsec _ Hst Hl He _ _ _ _ _ _].
  pose proof E as E'. apply disk_bytes_spec in E as (G & B & R); [|lia|nia|done]. split_and!; [split; [done|by rewrite (same_sector_size _ _ G)]|done|].
  intros data ->. rewrite Hs in E' |- *. apply disk_bytes_u8 in E' as [H1 H2]; [|lia|nia|done]. split_and!; [rewrite Hs in R; by apply R|done|unfold zlen; lia].
Qed.
Lemma volume_flush_on d v : native_on d v0 -> same_native v0 v -> native_on (fst (disk_flush d (nv_disk v))) v0 /\ disk_byte (fst (disk_flush d (nv_disk v))) = disk_byte d.
Proof. intros [Hok Hs] Hv. destruct (disk_flush d (nv_disk v)) as [d' e] eqn:E. apply disk_flush_law in E as [G B]. split; [|done]. split; [done|]. by rewrite (same_sector_size _ _ G). Qed.
Lemma volume_write_on d v lba data : native_on d v0 -> native_on (fst (disk_write_fs d (nv_disk v) lba data)) v0.
Proof. intros [Hok Hs]. destruct (disk_write_fs d _ _ _) as [d' e] eqn:E. apply disk_write_law in E as [G _]. split; [done|]. by rewrite (same_sector_size _ _ G). Qed.

(** The geometry alone. *)
Definition stays_on (d : D) : Prop := native_on d v0.
#[local] Instance stays_reads : native_ok v0 -> Reads stays_on v0.
Proof.
  intros Hok. split; [done| |].
  - intros v d offset n Hv Ho Hn _ Hd. destruct (volume_read d v offset n Hd Hv Ho Hn) as (H1 & _ & H2). split; [done|]. intros data Hr. by apply H2.
  - intros v d Hv Hd. by apply volume_flush_on.
Qed.
#[local] Instance stays_writes : Writes stays_on v0.
Proof. intros v d lba data _ _ _ _ _ Hd. by apply volume_write_on. Qed.

(** The bytes of a volume that may not be written. *)
Definition unwritten (B : Z -> Z -> Z) (d : D) : Prop := native_on d v0 /\ disk_byte d = B.
Definition frozen (v : native_volume) : bool := nv_read_only v || nv_failed v.
#[local] Instance unwritten_reads B : native_ok v0 -> Reads (unwritten B) v0.
Proof.
  intros Hok. split; [done| |].
  - intros v d offset n Hv Ho Hn _ [Hd HB]. destruct (volume_read d v offset n Hd Hv Ho Hn) as (H1 & H3 & H2). split; [split; [done|congruence]|]. intros data Hr. by apply H2.
  - intros v d Hv [Hd HB]. destruct (volume_flush_on d v Hd Hv) as [H1 H2]. split; [done|congruence].
Qed.
Lemma unwritten_writes B : frozen v0 = true -> Writes (unwritten B) v0.
Proof.
  intros Hf v d lba data Hv Hr Hnf _ _ _. pose proof (same_native_disk _ _ Hv) as (_ & _ & _ & _ & Hro). unfold frozen in Hf. apply orb_prop in Hf as [Hf|Hf]; [congruence|]. apply (proj2 Hv) in Hf. congruence.
Qed.

End Laws.

(** The window of the volume. *)
Section Window.
Context {D : Type} `{DiskContents D} (v0 : native_volume).
#[local] Instance native_window : Disks (D * bool) := guarded (nv_disk v0) (nv_start v0) (nv_start v0 + nv_length v0).
#[local] Instance native_window_contents : DiskContents (D * bool) := guarded_contents (nv_disk v0) (nv_start v0) (nv_start v0 + nv_length v0).
Definition inside (d : D * bool) : Prop := snd d = true /\ native_on d v0.
Lemma inside_reads : native_ok v0 -> Reads inside v0.
Proof.
  intros Hok. split; [done| |].
  - intros v d offset n Hv Ho Hn He [Hf Hd]. destruct (volume_read v0 d v offset n Hd Hv Ho Hn) as (H1 & _ & H2). split; [split; [|done]|intros data Hr; by apply H2].
    pose proof (same_native_disk _ _ Hv) as (-> & -> & Hl & Hs & _). rewrite Hl, Hs in *. destruct Hok as [Hsec _ Hst _ _ _ _ _ _ _ _]. destruct d as [d b]. cbn in Hf. subst b. destruct Hd as [_ Hd].
    apply (guarded_bytes (nv_disk v0) (nv_start v0) (nv_start v0 + nv_length v0) (nv_sector v0)); [done|done|exact Hd|nia|done|nia].
  - intros v d Hv [Hf Hd]. destruct (volume_flush_on v0 d v Hd Hv) as [H1 _]. split; [|done].
    pose proof (same_native_disk _ _ Hv) as (-> & _). cbn. destruct (disk_flush (fst d) _) as [d1 e]. cbn. by rewrite Hf, Z.eqb_refl.
Qed.
Lemma inside_writes : Writes inside v0.
Proof.
  intros v d lba data Hv _ _ Hl Hz [Hf Hd]. split; [|by apply (volume_write_on v0)]. pose proof (same_native_disk _ _ Hv) as (-> & -> & Hlen & Hs & _). destruct Hd as [Hok Hd].
  pose proof (no_sector _ Hok) as Hsec. cbn in Hd |- *. destruct (disk_write_fs (fst d) _ _ data) as [d1 e]. cbn. rewrite Hf. cbn [andb]. unfold in_window.
  rewrite Z.eqb_refl, <- Hd. unfold zlen in Hz. rewrite Hz, Hs, Z.div_same by lia. cbn [andb]. apply andb_true_intro. split; apply Z.leb_le; lia.
Qed.
End Window.

(** * Calls of the table *)
Inductive native_call := Call_open (path : cstr) | Call_refresh (f : k_file) | Call_read (f : k_file) (offset n : Z) | Call_list (f : k_file)
  | Call_write (f : k_file) (offset : Z) (data : list Z) | Call_create (path : cstr) (directory : bool) | Call_store (path : cstr) (data : list Z).
(** Calls on the volume [index], with bytes in the paths and lengths that are not negative. *)
Definition call_ok (index : Z) (c : native_call) : Prop :=
  match c with
  | Call_open _ => True
  | Call_refresh f | Call_list f => f_object f = index
  | Call_read f _ n => f_object f = index /\ 0 <= n
  | Call_write f _ _ => f_object f = index /\ 0 <= f_size f
  | Call_create path _ | Call_store path _ => Forall is_u8 path
  end.

Section Calls.
Context {St D : Type} `{PageSource St} `{Disks D} `{Cycles D}.
Definition native_call_step (index : Z) (y : natives * io D St) (c : native_call) : natives * io D St :=
  let '(t, x) := y in
  match c with
  | Call_open path => fst (table_open t x index path)
  | Call_refresh f => fst (table_refresh t x f)
  | Call_read f offset n => fst (table_read t x f offset n)
  | Call_list f => fst (table_list t x f)
  | Call_write f offset data => fst (table_write t x f offset data)
  | Call_create path directory => fst (table_create t x index path directory)
  | Call_store path data => fst (table_store t x index path data)
  end.
Definition disk_of (y : natives * io D St) : D := fst (fst (snd y)).
Section Kept.
Context (P : D -> Prop) (v0 : native_volume) (index : Z) {reads : Reads P v0} {writes : Writes P v0}.
(** What a call keeps. *)
Definition table_ok (y : natives * io D St) : Prop := P (disk_of y) /\ same_native v0 (na_volumes (fst y) !!! index).
Lemma run_native_ok {A} t x (m : Act St D A) Q : ok P v0 m Q -> table_ok (t, x) ->
  table_ok (fst (run_native t x index m)) /\ match snd (snd (run_native t x index m)) with Done a => Q a | Err _ => True | Stuck => False end.
Proof.
  intros Hm [HP Hv]. unfold run_native. destruct x as [[d ps] ram]. destruct (Hm (mk_nx d ps ram (na_volumes t !!! index) index [] [])) as [(Hp1 & Hp2 & _) Hp4].
  { split_and!; [exact HP|exact Hv|apply Forall_nil_2]. }
  destruct (m _) as [s r]. cbn in *. split; [|done]. split; [done|]. cbn. by rewrite lookup_total_insert_eq.
Qed.
Lemma run_result_ok {A} t x (m : Act St D A) Q : ok P v0 m Q -> table_ok (t, x) -> table_ok (fst (run_result t x index m)) /\ (forall a, snd (run_result t x index m) = inr a -> Q a).
Proof.
  intros Hm Ht. unfold run_result. destruct (run_native_ok t x m Q Hm Ht) as [Hk Hq]. destruct (run_native t x index m) as [[t1 x1] [l r]]. cbn in *. split; [done|].
  intros a. destruct r; cbn; intros [= <-]; done.
Qed.
Lemma table_refresh_ok t x f : f_object f = index -> table_ok (t, x) ->
  table_ok (fst (table_refresh t x f)) /\ f_object (fst (snd (table_refresh t x f))) = index /\ (0 <= f_size f -> 0 <= f_size (fst (snd (table_refresh t x f)))).
Proof.
  intros Hf Ht. unfold table_refresh. rewrite Hf. destruct (absent_volume t index) eqn:Ea; [done|]. destruct (run_result_ok t x _ _ (ok_refreshed_size P v0 f) Ht) as [Hk Hq].
  destruct (run_result t x index _) as [[t1 x1] [e|n]]; cbn in *; split_and!; try done. intros _. by apply Hq.
Qed.
Lemma table_write_ok t x f offset data : f_object f = index -> 0 <= f_size f -> table_ok (t, x) -> table_ok (fst (table_write t x f offset data)).
Proof.
  intros Hf Hs Ht. unfold table_write. destruct (_ || _); [done|]. destruct (table_refresh_ok t x f Hf Ht) as (Hk & Ho & Hsize). destruct (table_refresh t x f) as [[t1 x1] [f1 e]]. cbn [fst snd] in *.
  destruct (negb _); [done|]. rewrite Ho. destruct (run_result_ok t1 x1 _ _ (ok_write_file P v0 f1 offset data (Hsize Hs)) Hk) as [Hk1 _]. by destruct (run_result _ _ _ _) as [[t2 x2] [e2|f2]].
Qed.
Lemma call_keeps c y : call_ok index c -> table_ok y -> table_ok (native_call_step index y c).
Proof.
  intros Hc Ht. destruct y as [t x]. destruct c; cbn [native_call_step call_ok] in *.
  - unfold table_open. destruct (absent_volume _ _); [done|]. apply (run_result_ok t x _ _ (ok_open_path P v0 path) Ht).
  - by apply table_refresh_ok.
  - destruct Hc as [Hf Hn]. unfold table_read. rewrite Hf. destruct (absent_volume _ _); [done|].
    destruct (run_result_ok t x _ _ (ok_read_file P v0 f offset n Hn) Ht) as [Hk _]. by destruct (run_result _ _ _ _) as [[t1 x1] [e|data]].
  - unfold table_list. rewrite Hc. destruct (absent_volume _ _); [done|]. destruct (run_native_ok t x _ _ (ok_list_file P v0 f) Ht) as [Hk _]. by destruct (run_native _ _ _ _) as [[t1 x1] [l r]].
  - destruct Hc as [Hf Hn]. by apply table_write_ok.
  - unfold table_create. destruct (absent_volume _ _); [done|]. apply (run_result_ok t x _ _ (ok_create_file P v0 (arch_cycle_count (fst (fst x))) path directory Hc) Ht).
  - unfold table_store. destruct (absent_volume _ _); [done|]. destruct (run_result_ok t x _ _ (ok_store_file P v0 (arch_cycle_count (fst (fst x))) path data Hc) Ht) as [Hk _].
    by destruct (run_result _ _ _ _) as [[t1 x1] r].
Qed.
Lemma calls_keep cs : forall y, Forall (call_ok index) cs -> table_ok y -> table_ok (foldl (native_call_step index) y cs).
Proof. induction cs as [|c cs IH]; intros y Hcs Hy; cbn; [done|]. apply Forall_cons in Hcs as [Hc Hcs]. apply IH; [done|]. by apply call_keeps. Qed.
End Kept.
End Calls.

(** * The volumes of the demos *)
Definition demo_natives : natives := mk_natives ∅ 0.
Definition demo_probed (image : zmap) (sectors : Z) (ro : bool) : natives :=
  table_add (fst (fst (table_probe (St := pmm) (H0 := store_disk sectors) demo_natives (image, demo_pmm, ∅) 0 0 sectors 0 ro))).
Definition demo_calls : list native_call :=
  [Call_open [SLASH; 97]; Call_write (mk_file 4 0 12 0 5 9) 1 [69]; Call_create [SLASH; 98] true; Call_store [SLASH; 99] [1; 2; 3]].
Lemma demo_calls_ok : Forall (call_ok 0) demo_calls.
Proof. repeat constructor; vm_compute; congruence. Qed.
Definition demo_ext_volume : native_volume := Eval vm_compute in na_volumes (demo_probed demo_ext 50 false) !!! 0.
Definition demo_ntfs_volume : native_volume := Eval vm_compute in na_volumes (demo_probed demo_ntfs 80 true) !!! 0.
Lemma demo_ext_on : native_on (H := store_disk 50) demo_ext demo_ext_volume.
Proof. split; [split; vm_compute; repeat split; congruence|reflexivity]. Qed.
Lemma demo_ntfs_on : native_on (H := store_disk 80) demo_ntfs demo_ntfs_volume.
Proof. split; [split; vm_compute; repeat split; congruence|reflexivity]. Qed.
Definition demo_table (v : native_volume) : natives := mk_natives {[ 0 := v ]} 1.
Lemma demo_table_volume v : na_volumes (demo_table v) !!! 0 = v.
Proof. apply lookup_total_singleton_eq. Qed.

(** C13: the ext and NTFS drivers use no other disk than the volume's and no sector outside the volume: with disks that record where they
    are used, any sequence of opening, refreshing, reading, listing, writing, creating and storing keeps the record clean, whatever the
    disk holds. *)
Theorem native_confined {St D} `{PageSource St} `{DiskContents D} `{Cycles (D * bool)} (t : natives) (d : D) (ps : St) (ram : zmap) (index : Z) (cs : list native_call) :
  let v := na_volumes t !!! index in
  native_on d v -> Forall (call_ok index) cs ->
  let G := guarded (nv_disk v) (nv_start v) (nv_start v + nv_length v) in
  snd (disk_of (foldl (native_call_step (H0 := G) index) (t, ((d, true), ps, ram)) cs)) = true.
Proof.
  intros v Hv Hcs. pose proof (inside_reads v (proj1 Hv)) as HR. pose proof (inside_writes v) as HW. intros G.
  apply (calls_keep (D := D * bool) (H0 := G) (inside (D := D) v) v index (reads := HR) (writes := HW) cs); [done|]. repeat split; done || apply Hv.
Qed.
Lemma native_confined_witness :
  snd (disk_of (foldl (native_call_step (St := pmm) (H0 := guarded (H := store_disk 50) 0 0 50) (H1 := fun _ => 1) 0) (demo_table demo_ext_volume, ((demo_ext, true), demo_pmm, ∅)) demo_calls)) = true.
Proof.
  pose proof (native_confined (St := pmm) (H1 := store_contents 50) (H2 := fun _ => 1) (demo_table demo_ext_volume) demo_ext demo_pmm ∅ 0 demo_calls) as HP. cbv zeta in HP.
  rewrite demo_table_volume in HP. exact (HP demo_ext_on demo_calls_ok).
Defined.

(** C22: a volume that was mounted read-only, or on which a write has failed, is never written again: no sequence of calls on it changes
    a byte of any disk. *)
Theorem native_frozen {St D} `{PageSource St} `{DiskContents D} `{Cycles D} (t : natives) (d : D) (ps : St) (ram : zmap) (index : Z) (cs : list native_call) :
  let v := na_volumes t !!! index in
  native_on d v -> frozen v = true -> Forall (call_ok index) cs ->
  disk_byte (disk_of (foldl (native_call_step index) (t, (d, ps, ram)) cs)) = disk_byte d.
Proof.
  intros v Hv Hf Hcs. pose proof (unwritten_reads v (disk_byte d) (proj1 Hv)) as HR. pose proof (unwritten_writes v (disk_byte d) Hf) as HW.
  apply (calls_keep (unwritten v (disk_byte d)) v index (reads := HR) (writes := HW) cs); [done|]. repeat split; done || apply Hv.
Qed.
Lemma native_frozen_witness :
  disk_byte (DiskContents := store_contents 80) (disk_of (foldl (native_call_step (St := pmm) (H0 := store_disk 80) (H1 := demo_cycles) 0) (demo_table demo_ntfs_volume, (demo_ntfs, demo_pmm, ∅)) demo_calls)) =
  disk_byte (DiskContents := store_contents 80) demo_ntfs.
Proof.
  pose proof (native_frozen (St := pmm) (H1 := store_contents 80) (H2 := demo_cycles) (demo_table demo_ntfs_volume) demo_ntfs demo_pmm ∅ 0 demo_calls) as HP. cbv zeta in HP.
  rewrite demo_table_volume in HP. exact (HP demo_ntfs_on eq_refl demo_calls_ok).
Defined.

(** C25: whatever a disk holds, every operation of the ext and NTFS drivers ends: none of its loops over extents, run lists, attributes,
    directory records, index entries, staged sectors or data runs out of the rounds that the model gives it. *)
Theorem native_ends {St D} `{PageSource St} `{DiskContents D} (s : nx St D) :
  native_on (nx_d s) (nx_v s) -> Forall slot_ok (nx_tx s) ->
  (forall path, snd (open_path path s) <> Stuck) /\ (forall f, snd (refreshed_size f s) <> Stuck) /\
  (forall f offset n, 0 <= n -> snd (read_file f offset n s) <> Stuck) /\ (forall f, snd (list_file f s) <> Stuck) /\
  (forall f offset data, 0 <= f_size f -> snd (write_file f offset data s) <> Stuck) /\
  (forall cycles path directory, Forall is_u8 path -> snd (create_file cycles path directory s) <> Stuck) /\
  (forall cycles path data, Forall is_u8 path -> snd (store_file cycles path data s) <> Stuck).
Proof.
  intros Hv Ht. set (v := nx_v s) in *. pose proof (stays_reads v (proj1 Hv)) as HR. pose proof (stays_writes v) as HW.
  assert (forall A (m : Act St D A) Q, ok (stays_on v) v m Q -> snd (m s) <> Stuck) as Hn.
  { intros A m Q Hm. destruct (Hm s) as [_ H3]; [split_and!; [exact Hv|apply same_native_refl|done]|]. by destruct (snd (m s)). }
  split_and!; intros; (eapply Hn; [apply ok_open_path || apply ok_refreshed_size || apply ok_read_file || apply ok_list_file || apply ok_write_file || apply ok_create_file || apply ok_store_file; assumption]).
Qed.
Lemma native_ends_witness :
  let s := mk_nx (St := pmm) demo_ext demo_pmm ∅ demo_ext_volume 0 [] [] in snd (open_path (H0 := store_disk 50) [SLASH; 97] s) <> Stuck.
Proof. exact (proj1 (native_ends (H1 := store_contents 50) (mk_nx (St := pmm) demo_ext demo_pmm ∅ demo_ext_volume 0 [] []) demo_ext_on (Forall_nil_2 _)) [SLASH; 97]). Defined.
