(* ===== verification/NativeData.v ===== *)
(** The bytes that the native file systems read and write: ranges of a volume,
    and ranges of a file through its run table. *)
From S2P Require Import Prelude Klib Pmm PageAlloc Path Disk State Fat Native Ext Ntfs NativeRead NativeLogic NativeRuns.

(** Where a volume is: what a probe starts from. *)
Record placed {D} `{Disks D} (d : D) (v : native_volume) : Prop := {
  pl_size : nv_sector v = disk_sector_size d (nv_disk v);
  pl_sector : 0 < nv_sector v < 2 ^ 32;
  pl_start : 0 <= nv_start v;
  pl_length : 0 <= nv_length v;
  pl_end : (nv_start v + nv_length v) * nv_sector v < 2 ^ 64
}.
Lemma placed_same {D} `{Disks D} (d d' : D) v : same_geometry d d' -> placed d v -> placed d' v.
Proof. intros G []. by split; rewrite ?(same_sector_size _ _ G). Qed.

(** * Contents as functions *)
Definition contents_with (M : Z -> Z -> Z) (id base : Z) (data : list Z) : Z -> Z -> Z := fun i a =>
  if (i =? id) && (base <=? a) && (a <? base + zlen data) then data !!! Z.to_nat (a - base) else M i a.
Lemma contents_with_in M id base data a : base <= a < base + zlen data -> contents_with M id base data id a = data !!! Z.to_nat (a - base).
Proof. intros Ha. unfold contents_with. rewrite Z.eqb_refl, (proj2 (Z.leb_le _ _)), (proj2 (Z.ltb_lt _ _)) by lia. done. Qed.
Lemma contents_with_out M id base data i a : i <> id \/ a < base \/ base + zlen data <= a -> contents_with M id base data i a = M i a.
Proof.
  intros Ha. unfold contents_with. destruct (Z.eqb_spec i id); [|done]. destruct (Z.leb_spec base a); [|done]. destruct (Z.ltb_spec a (base + zlen data)); [|done]. exfalso. destruct Ha as [?|[?|?]]; [done|lia|lia].
Qed.
Lemma contents_with_nil M id base i a : contents_with M id base [] i a = M i a.
Proof. apply contents_with_out. unfold zlen. cbn. lia. Qed.
Lemma contents_with_app M id base x y i a : contents_with (contents_with M id base x) id (base + zlen x) y i a = contents_with M id base (x ++ y) i a.
Proof.
  unfold contents_with. unfold zlen. rewrite length_app, Nat2Z.inj_add. destruct (Z.eqb_spec i id) as [->|]; [|done]. cbn [andb].
  destruct (Z.leb_spec (base + Z.of_nat (length x)) a) as [Hx|Hx].
  - rewrite (proj2 (Z.leb_le base a)) by lia. rewrite Z.add_assoc. cbn [andb]. destruct (Z.ltb_spec a (base + Z.of_nat (length x) + Z.of_nat (length y))) as [Hy|Hy].
    + rewrite lookup_total_app_r by lia. f_equal. lia.
    + by rewrite (proj2 (Z.ltb_ge _ _)) by lia.
  - cbn [andb]. destruct (Z.leb_spec base a); [|done]. cbn [andb]. rewrite (proj2 (Z.ltb_lt _ _)), (proj2 (Z.ltb_lt _ _)) by lia. by rewrite lookup_total_app_l by lia.
Qed.
Lemma bytes_from_shift f p q n : bytes_from (fun a => f (p + a)) q n = bytes_from f (p + q) n.
Proof.
  apply list_eq_same_length with (n := Z.to_nat n); [by rewrite bytes_from_length|by rewrite bytes_from_length|]. intros i x y Hi Hx Hy.
  rewrite bytes_from_lookup in Hx, Hy by done. injection Hx as <-. injection Hy as <-. f_equal. lia.
Qed.
Lemma bytes_from_total f p n k : 0 <= k < n -> bytes_from f p n !!! Z.to_nat k = f (p + k).
Proof. intros Hk. apply list_lookup_total_correct. rewrite bytes_from_lookup by lia. do 2 f_equal. lia. Qed.

Section Data.
Context {St D : Type} `{PageSource St} `{DiskContents D}.
Definition volume_base (v : native_volume) : Z := nv_start v * nv_sector v.
Definition volume_byte (d : D) (v : native_volume) (a : Z) : Z := disk_byte d (nv_disk v) (volume_base v + a).

(** * Reading *)
Lemma native_bytes_spec offset n (s : nx St D) : placed (nx_d s) (nx_v s) -> 0 <= offset -> 0 <= n ->
  let r := native_bytes offset n s in
  fst r = s <| nx_d := nx_d (fst r) |> /\ placed (nx_d (fst r)) (nx_v s) /\ disk_byte (nx_d (fst r)) = disk_byte (nx_d s) /\
  match snd r with
  | Done data => offset + n <= nv_length (nx_v s) * nv_sector (nx_v s) /\ data = bytes_from (volume_byte (nx_d s) (nx_v s)) offset n
  | Err _ => True
  | Stuck => False
  end.
Proof.
  intros Hp Ho Hn. pose proof Hp as [Hsize Hsec Hst Hl He]. unfold native_bytes. destruct (span_ok _ _ _) eqn:Es; cbn [negb]; [|by destruct s].
  apply span_ok_spec in Es as [E1 E2]. unfold u64 in *. rewrite (Z.mod_small (nv_length (nx_v s) * nv_sector (nx_v s))) in E2 by nia. rewrite Z.mod_small by nia.
  destruct (disk_bytes _ _ _ _) as [d r] eqn:E. apply disk_bytes_spec in E as (G & B & R); [|lia|nia|done]. cbn [fst snd]. split_and!; [done|by apply (placed_same (nx_d s))|done|].
  destruct r as [e|data]; [done|]. split; [done|]. rewrite (R data eq_refl). unfold volume_byte, volume_base. by rewrite bytes_from_shift.
Qed.

(** * Writing *)
Lemma disk_write_contents d id lba data d' : disk_write_fs d id lba data = (d', 0) ->
  same_geometry d d' /\ (forall i a, disk_byte d' i a = contents_with (disk_byte d) id (lba * disk_sector_size d id) data i a).
Proof.
  intros E. apply disk_write_law in E as (G & Ho & Hi). split; [done|]. intros i a. specialize (Hi eq_refl).
  destruct (decide (i = id /\ lba * disk_sector_size d id <= a < lba * disk_sector_size d id + zlen data)) as [[-> Ha]|Hn].
  - rewrite contents_with_in by done. rewrite <- Hi. unfold zlen in Ha. rewrite bytes_from_total by lia. f_equal. lia.
  - assert (i <> id \/ a < lba * disk_sector_size d id \/ lba * disk_sector_size d id + zlen data <= a) as Hx by lia. rewrite contents_with_out by done. apply Ho. exact Hx.
Qed.
(** The sector that a round writes, by bytes. *)
Lemma sector_patch M id base at_ n old data sector : 0 <= at_ -> 0 < n <= zlen data -> at_ + n <= sector ->
  (old = bytes_from (M id) base sector \/ (at_ = 0 /\ n = sector /\ old = [])) ->
  let w := take (Z.to_nat at_) old ++ take (Z.to_nat n) data ++ drop (Z.to_nat (at_ + n)) old in
  zlen w = sector /\ (forall i a, contents_with M id base w i a = contents_with M id (base + at_) (take (Z.to_nat n) data) i a).
Proof.
  intros Ha Hn Hs Hold w. assert (zlen (take (Z.to_nat n) data) = n) as Hz by (unfold zlen in *; rewrite length_take; lia).
  destruct Hold as [->|(-> & -> & ->)].
  - assert (zlen w = sector) as Hw by (unfold w, zlen in *; rewrite !length_app, length_take, length_drop, bytes_from_length; lia). split; [done|].
    intros i a. unfold contents_with. rewrite Hz, Hw. destruct (Z.eqb_spec i id) as [->|]; [|done]. cbn [andb].
    destruct (Z.leb_spec base a) as [Hb|Hb]; [|by rewrite (proj2 (Z.leb_gt _ _)) by lia]. cbn [andb]. set (k := a - base). assert (length (take (Z.to_nat at_) (bytes_from (M id) base sector)) = Z.to_nat at_) as Ht by (rewrite length_take, bytes_from_length; lia).
    destruct (Z.ltb_spec a (base + sector)) as [Hc|Hc]; [|by rewrite (proj2 (Z.ltb_ge _ _)), andb_false_r by lia].
    destruct (Z.leb_spec (base + at_) a) as [Hd|Hd]; cbn [andb].
    + unfold w. rewrite lookup_total_app_r by lia. rewrite Ht. destruct (Z.ltb_spec a (base + at_ + n)) as [He|He].
      * rewrite lookup_total_app_l by (unfold zlen in Hz; lia). f_equal. lia.
      * rewrite lookup_total_app_r by (unfold zlen in Hz; lia). rewrite lookup_total_drop. transitivity (bytes_from (M id) base sector !!! Z.to_nat k); [f_equal; unfold zlen in Hz; lia|]. rewrite bytes_from_total by lia. f_equal. subst k. lia.
    + unfold w. rewrite lookup_total_app_l by lia. rewrite lookup_total_take by lia. rewrite decide_True by lia. fold k. rewrite bytes_from_total by lia. f_equal. lia.
  - subst w. rewrite take_nil, drop_nil, app_nil_l, app_nil_r. split; [done|]. by rewrite Z.add_0_r.
Qed.
(** [s'] differs from [s] in its disks only, which hold [data] at [offset] of the volume. *)
Definition only_disks (s s' : nx St D) : Prop := s' = s <| nx_d := nx_d s' |> /\ placed (nx_d s') (nx_v s).
Definition holds_data (s s' : nx St D) (offset : Z) (data : list Z) : Prop :=
  only_disks s s' /\ forall i a, disk_byte (nx_d s') i a = contents_with (disk_byte (nx_d s)) (nv_disk (nx_v s)) (volume_base (nx_v s) + offset) data i a.
Lemma only_disks_trans s1 s2 s3 : only_disks s1 s2 -> only_disks s2 s3 -> only_disks s1 s3.
Proof. unfold only_disks. intros [E1 Q1] [E2 Q2]. rewrite E1 in Q2. cbn in Q2. split; [|done]. rewrite E2, E1. done. Qed.
Lemma only_disks_v s s' : only_disks s s' -> nx_v s' = nx_v s.
Proof. by intros [-> _]. Qed.
Lemma holds_nil s offset : placed (nx_d s) (nx_v s) -> holds_data s s offset [].
Proof. intros Hp. split; [split; [by destruct s|done]|]. intros i a. by rewrite contents_with_nil. Qed.
Lemma holds_app s1 s2 s3 offset x y : holds_data s1 s2 offset x -> holds_data s2 s3 (offset + zlen x) y -> holds_data s1 s3 offset (x ++ y).
Proof.
  intros [O1 B1] [O2 B2]. split; [by eapply only_disks_trans|]. intros i a. rewrite B2, (only_disks_v _ _ O1). rewrite <- contents_with_app, Z.add_assoc.
  unfold contents_with. destruct (_ && _); [done|]. apply B1.
Qed.
Lemma abind_vol {A} (k : native_volume -> Act St D A) s : abind vol k s = k (nx_v s) s.
Proof. done. Qed.
Definition write_place (v : native_volume) (offset : Z) (data : list Z) : Prop := 0 <= offset /\ offset + zlen data <= nv_length v * nv_sector v.
Lemma write_step_spec offset data (s : nx St D) : placed (nx_d s) (nx_v s) -> write_place (nx_v s) offset data ->
  let r := write_step (offset, data) s in
  match snd r with
  | Done (Exit _) => data = [] /\ fst r = s
  | Done (Next (offset', data')) => exists chunk, chunk <> [] /\ data = chunk ++ data' /\ offset' = offset + zlen chunk /\ holds_data s (fst r) offset chunk
  | Err _ => only_disks s (fst r)
  | Stuck => False
  end.
Proof.
  intros Hp [Ho Hlen]. pose proof Hp as [Hsize Hsec Hst Hl He]. cbv zeta. unfold write_step. destruct data as [|b rest]; [by split|]. set (data := b :: rest) in *.
  assert (0 < zlen data) as Hw by (subst data; unfold zlen; cbn; lia). set (v := nx_v s) in *. rewrite abind_vol. fold v. cbv beta zeta.
  pose proof (Z.mod_pos_bound offset (nv_sector v) ltac:(lia)) as Hm. pose proof (Z.div_mod offset (nv_sector v) ltac:(lia)) as Hd. assert (0 <= offset / nv_sector v) as Hq by (apply Z.div_pos; lia).
  assert (u32 (offset mod nv_sector v) = offset mod nv_sector v) as -> by (apply Z.mod_small; lia). set (at_ := offset mod nv_sector v) in *. set (lba := offset / nv_sector v) in *.
  assert (u32 (Z.min (zlen data) (nv_sector v - at_)) = Z.min (zlen data) (nv_sector v - at_)) as -> by (apply Z.mod_small; lia). set (n := Z.min (zlen data) (nv_sector v - at_)) in *.
  assert (0 < n <= zlen data) as Hn by lia. assert (lba < nv_length v) as Hlba by nia. assert (u64 (lba * nv_sector v) = lba * nv_sector v) as -> by (apply Z.mod_small; nia).
  assert (u64 (nv_start v + lba) = nv_start v + lba) as -> by (apply Z.mod_small; nia).
  pose proof (native_bytes_spec (lba * nv_sector v) (nv_sector v) s Hp ltac:(nia) ltac:(lia)) as Hread. cbv zeta in Hread.
  set (reading := if _ || _ then _ else _).
  assert (exists s1, only_disks s s1 /\ disk_byte (nx_d s1) = disk_byte (nx_d s) /\ (fst (reading s) = s1) /\ match snd (reading s) with
    | Done old => old = bytes_from (disk_byte (nx_d s) (nv_disk v)) (volume_base v + lba * nv_sector v) (nv_sector v) \/ (at_ = 0 /\ n = nv_sector v /\ old = [])
    | Err _ => True | Stuck => False end) as (s1 & O1 & B1 & E1 & R1).
  { unfold reading. destruct (_ || _) eqn:Eb.
    - destruct Hread as (E & P1 & B & R). eexists. split; [split; [exact E|exact P1]|]. split; [exact B|]. split; [done|]. destruct (snd _); [|done..]. left. destruct R as [_ ->]. apply bytes_from_shift.
    - exists s. split; [split; [by destruct s|done]|]. split_and!; [done..|]. right. reflect_bools. split_and!; [lia|lia|done]. }
  unfold abind. cbv beta. destruct (reading s) as [s1' [old|e|]]; cbn [fst snd] in E1, R1; subst s1'; [|exact O1|done].
  pose proof (only_disks_v _ _ O1) as Hv1. fold v in Hv1. unfold write_fs. cbv beta. rewrite Hv1.
  destruct (sector_patch (disk_byte (nx_d s1)) (nv_disk v) (volume_base v + lba * nv_sector v) at_ n old data (nv_sector v) ltac:(lia) Hn ltac:(lia)) as [Hz Hc]; [by rewrite B1|].
  set (w := take (Z.to_nat at_) old ++ _) in *. destruct (disk_write_fs _ _ _ w) as [d2 e] eqn:Ew. pose proof Ew as Ew'. apply disk_write_law in Ew' as (G & _ & _).
  assert (only_disks s (s1 <| nx_d := d2 |>)) as O2.
  { destruct O1 as [E1 P1]. split; [rewrite E1; done|]. cbn. by eapply placed_same. }
  destruct (Z.eqb_spec e 0) as [->|]; [|exact O2]. cbn [fst snd]. exists (take (Z.to_nat n) data).
  assert (zlen (take (Z.to_nat n) data) = n) as Hzn by (unfold zlen in *; rewrite length_take; lia).
  split_and!; [intros E; rewrite E in Hzn; unfold zlen in Hzn; cbn in Hzn; lia|by rewrite take_drop|by rewrite Hzn|split; [exact O2|]].
  intros i a. cbn. apply disk_write_contents in Ew as [_ Ew]. rewrite Ew. fold v. destruct O1 as [_ [Hsize1 _ _ _ _]]. fold v in Hsize1. rewrite <- Hsize1.
  replace ((nv_start v + lba) * nv_sector v) with (volume_base v + lba * nv_sector v) by (unfold volume_base; lia). rewrite Hc, B1. f_equal. unfold volume_base. lia.
Qed.
Lemma write_loop_spec fuel : forall offset data (s : nx St D), placed (nx_d s) (nx_v s) -> write_place (nx_v s) offset data -> (length data < fuel)%nat ->
  let r := a_loop fuel write_step (offset, data) s in
  match snd r with Done _ => holds_data s (fst r) offset data | Err _ => only_disks s (fst r) | Stuck => False end.
Proof.
  induction fuel as [|fuel IH]; intros offset data s Hp Hw Hf; [lia|]. cbn [a_loop]. unfold abind. pose proof (write_step_spec offset data s Hp Hw) as Hs. cbv zeta in Hs.
  destruct (write_step (offset, data) s) as [s1 [[[offset' data']|[]]|e|]]; cbn [fst snd] in Hs |- *; [| |exact Hs|done].
  - destruct Hs as (chunk & Hne & -> & -> & Hh). pose proof (only_disks_v _ _ (proj1 Hh)) as Hv. destruct Hw as [Hw1 Hw2]. unfold zlen in Hw2. rewrite length_app in Hw2, Hf.
    assert (0 < length chunk)%nat as Hc by (destruct chunk; [done|cbn; lia]).
    assert (placed (nx_d s1) (nx_v s1)) as Hp1 by (rewrite Hv; apply Hh). specialize (IH (offset + zlen chunk) data' s1 Hp1). rewrite Hv in IH.
    specialize (IH ltac:(unfold write_place, zlen; lia) ltac:(lia)). cbv zeta in IH.
    destruct (snd (a_loop fuel write_step _ s1)); [by eapply holds_app|by eapply only_disks_trans; [apply Hh|]|done].
  - destruct Hs as [-> ->]. by apply holds_nil.
Qed.
Lemma flush_spec (s : nx St D) : placed (nx_d s) (nx_v s) -> let r := flush_disk s in only_disks s (fst r) /\ disk_byte (nx_d (fst r)) = disk_byte (nx_d s) /\ snd r <> Stuck.
Proof.
  intros Hp. unfold flush_disk. destruct (disk_flush _ _) as [d e] eqn:E. apply disk_flush_law in E as [G B]. cbn. destruct (e =? 0); (split_and!; [split; [done|by eapply placed_same]|done|done]).
Qed.
(** A write of the drivers: refused with nothing changed, done, or failed with the volume marked so. *)
Lemma write_bytes_spec offset data (s : nx St D) : placed (nx_d s) (nx_v s) -> 0 <= offset ->
  let v := nx_v s in
  let r := native_write_bytes offset data s in
  match snd r with
  | Done _ => nv_read_only v = false /\ nv_failed v = false /\ write_place v offset data /\ fst r = s <| nx_d := nx_d (fst r) |> <| nx_v := v <| nv_wrote := true |> |> /\ placed (nx_d (fst r)) v /\
      (forall i a, disk_byte (nx_d (fst r)) i a = contents_with (disk_byte (nx_d s)) (nv_disk v) (volume_base v + offset) data i a)
  | Err e => (fst r = s /\ (e = K_EROFS /\ nv_read_only v || nv_failed v = true \/ e = K_EIO /\ ~ write_place v offset data)) \/ nx_v (fst r) = v <| nv_failed := true |>
  | Stuck => False
  end.
Proof.
  intros Hp Ho. cbv zeta. unfold native_write_bytes. rewrite abind_vol. destruct (nv_read_only (nx_v s) || nv_failed (nx_v s)) eqn:E1; [left; split; [done|by left]|]. apply orb_false_elim in E1 as [Hr Hf].
  destruct (span_ok _ _ _) eqn:E2.
  2: { left. split; [done|right]. split; [done|]. intros [_ Hw]. pose proof Hp as [_ Hsec Hst Hl He]. assert (span_ok offset (zlen data) (u64 (nv_length (nx_v s) * nv_sector (nx_v s))) = true) as Hx; [|congruence].
       apply span_ok_spec. unfold u64. rewrite Z.mod_small by nia. unfold zlen in *. lia. }
  assert (write_place (nx_v s) offset data) as Hw.
  { pose proof Hp as [_ Hsec Hst Hl He]. apply span_ok_spec in E2 as [E2 E3]. unfold u64 in E3. rewrite Z.mod_small in E3 by nia. by split. }
  cbn [negb refuse]. unfold abind, aret, catch. pose proof (write_loop_spec (S (length data)) offset data s Hp Hw ltac:(lia)) as Hl. cbv zeta in Hl.
  destruct (a_loop _ write_step _ s) as [s1 [u|e|]]; cbn [fst snd] in Hl; [| |done].
  - destruct Hl as [O1 B1]. pose proof (only_disks_v _ _ O1) as Hv1. assert (placed (nx_d s1) (nx_v s1)) as Hp1 by (rewrite Hv1; apply O1). destruct (flush_spec s1 Hp1) as (O2 & B2 & Hn).
    destruct (flush_disk s1) as [s2 [u2|e2|]]; cbn [fst snd] in O2, B2, Hn; [| |done].
    + pose proof (only_disks_trans _ _ _ O1 O2) as O3. cbn. split_and!; [done..| |apply O3|]; [|intros i a; by rewrite B2].
      destruct O3 as [E3 _]. rewrite E3. by destruct s.
    + right. cbn. by rewrite (only_disks_v _ _ O2), Hv1.
  - right. cbn. by rewrite (only_disks_v _ _ Hl).
Qed.

(** * Files: the bytes that a run table maps *)
Definition file_block (runs : list native_run) (q : Z) : option Z :=
  match run_find runs q with Some r => if run_hole r then None else Some (run_physical r + q - run_logical r) | None => None end.
(** A byte of a file: zero where no block is mapped. *)
Definition file_byte (d : D) (v : native_volume) (runs : list native_run) (o : Z) : Z :=
  match file_block runs (o / nv_block v) with Some b => volume_byte d v (b * nv_block v + o mod nv_block v) | None => 0 end.
(** A table of the volume's blocks. *)
Definition mapped (v : native_volume) (runs : list native_run) : Prop :=
  runs_ok (nv_blocks v) runs /\ 0 < nv_block v /\ nv_blocks v * nv_block v <= nv_length v * nv_sector v.
Lemma run_find_some runs q r : run_find runs q = Some r -> exists i, runs !! i = Some r /\ run_logical r <= q < run_logical r + run_length r.
Proof.
  intros E. apply find_some in E as [Hin Hc]. apply list_elem_of_In, list_elem_of_lookup in Hin as [i Hi]. exists i. split; [done|]. unfold run_covers in Hc. reflect_bools. lia.
Qed.
Lemma file_block_in blocks runs q b : runs_ok blocks runs -> file_block runs q = Some b -> 0 <= b < blocks.
Proof.
  intros [Hg _]. unfold file_block. destruct (run_find runs q) as [r|] eqn:E; [|done]. destruct (run_hole r) eqn:Eh; [done|]. intros [= <-]. apply run_find_some in E as (i & Hi & Hq).
  rewrite Forall_lookup in Hg. destruct (Hg i r Hi) as [_ _ _ Hp]. specialize (Hp Eh). lia.
Qed.
(** Two blocks of a file are not the same block of the volume. *)
Lemma file_block_inj blocks runs q1 q2 b : runs_ok blocks runs -> file_block runs q1 = Some b -> file_block runs q2 = Some b -> q1 = q2.
Proof.
  intros [Hg Hf]. unfold file_block. destruct (run_find runs q1) as [r1|] eqn:E1; [|done]. destruct (run_find runs q2) as [r2|] eqn:E2; [|done]. destruct (run_hole r1) eqn:Eh1; [done|]. destruct (run_hole r2) eqn:Eh2; [done|].
  intros [= <-] [= Hb]. apply run_find_some in E1 as (i & Hi & Hq1). apply run_find_some in E2 as (j & Hj & Hq2). destruct (Nat.lt_total i j) as [Hlt|[->|Hlt]].
  - destruct (Hf i j r1 r2 Hlt Hi Hj) as [_ Ha]. specialize (Ha Eh1 Eh2). lia.
  - rewrite Hi in Hj. injection Hj as <-. lia.
  - destruct (Hf j i r2 r1 Hlt Hj Hi) as [_ Ha]. specialize (Ha Eh2 Eh1). lia.
Qed.
(** Within a block. *)
Lemma in_block block offset k : 0 < block -> 0 <= k -> offset mod block + k < block -> (offset + k) / block = offset / block /\ (offset + k) mod block = offset mod block + k.
Proof.
  intros Hb Hk Hm. pose proof (Z.mod_pos_bound offset block Hb). pose proof (Z.div_mod offset block ltac:(lia)) as Hd.
  assert ((offset + k) / block = offset / block) as Hq by (symmetry; apply (Z.div_unique_pos _ _ _ (offset mod block + k)); lia). split; [done|].
  pose proof (Z.div_mod (offset + k) block ltac:(lia)). rewrite Hq in *. lia.
Qed.
Lemma run_place_small d v runs q at_ r : placed d v -> mapped v runs -> run_find runs q = Some r -> run_hole r = false -> 0 <= at_ < nv_block v ->
  file_block runs q = Some (run_physical r + q - run_logical r) /\ run_place v r q at_ = (run_physical r + q - run_logical r) * nv_block v + at_ /\ 0 <= run_place v r q at_.
Proof.
  intros [_ Hsec Hst Hl He] (Hr & Hb & Hspan) E Eh Ha. assert (file_block runs q = Some (run_physical r + q - run_logical r)) as Hf by (unfold file_block; by rewrite E, Eh).
  pose proof (file_block_in _ _ _ _ Hr Hf) as Hin. split; [done|]. unfold run_place, u64. rewrite Z.mod_small by nia. split; [done|nia].
Qed.
Lemma file_bytes_mapped d v runs offset n b : 0 < nv_block v -> file_block runs (offset / nv_block v) = Some b -> offset mod nv_block v + n <= nv_block v ->
  bytes_from (volume_byte d v) (b * nv_block v + offset mod nv_block v) n = bytes_from (file_byte d v runs) offset n.
Proof.
  intros Hb Hf Hn. apply list_eq_same_length with (n := Z.to_nat n); [by rewrite bytes_from_length|by rewrite bytes_from_length|]. intros i x y Hi Hx Hy.
  rewrite bytes_from_lookup in Hx, Hy by done. injection Hx as <-. injection Hy as <-. unfold file_byte. destruct (in_block (nv_block v) offset (Z.of_nat i)) as [-> ->]; [lia..|].
  rewrite Hf. f_equal. lia.
Qed.
Lemma file_bytes_unmapped d v runs offset n : 0 < nv_block v -> file_block runs (offset / nv_block v) = None -> offset mod nv_block v + n <= nv_block v ->
  replicate (Z.to_nat n) 0 = bytes_from (file_byte d v runs) offset n.
Proof.
  intros Hb Hf Hn. apply list_eq_same_length with (n := Z.to_nat n); [by rewrite bytes_from_length|by rewrite length_replicate|]. intros i x y Hi Hx Hy.
  rewrite bytes_from_lookup in Hy by done. rewrite lookup_replicate_2 in Hx by done. injection Hx as <-. injection Hy as <-. unfold file_byte. destruct (in_block (nv_block v) offset (Z.of_nat i)) as [-> ->]; [lia..|].
  by rewrite Hf.
Qed.
(** A step that only reads. *)
Definition reads_only (s s' : nx St D) : Prop := only_disks s s' /\ disk_byte (nx_d s') = disk_byte (nx_d s).
Lemma reads_only_refl s : placed (nx_d s) (nx_v s) -> reads_only s s.
Proof. intros Hp. split; [split; [by destruct s|done]|done]. Qed.
Lemma reads_only_trans s1 s2 s3 : reads_only s1 s2 -> reads_only s2 s3 -> reads_only s1 s3.
Proof. intros [O1 B1] [O2 B2]. split; [by eapply only_disks_trans|congruence]. Qed.
Lemma file_byte_same d d' v runs : disk_byte d' = disk_byte d -> file_byte d' v runs = file_byte d v runs.
Proof. intros E. unfold file_byte, volume_byte. by rewrite E. Qed.
Lemma read_run_step_spec runs offset n out (s : nx St D) : placed (nx_d s) (nx_v s) -> mapped (nx_v s) runs -> 0 <= offset -> 0 <= n -> offset + n < 2 ^ 64 ->
  let r := read_run_step runs (offset, n, out) s in reads_only s (fst r) /\
  match snd r with
  | Done (Exit l) => n = 0 /\ l = out
  | Done (Next (offset', n', out')) => exists k, 0 < k <= n /\ offset' = offset + k /\ n' = n - k /\ out' = out ++ bytes_from (file_byte (nx_d s) (nx_v s) runs) offset k
  | Err _ => True
  | Stuck => False
  end.
Proof.
  intros Hp Hm Ho Hn Hlim. cbv zeta. unfold read_run_step. destruct (Z.eqb_spec n 0) as [->|Hn0]; [by split; [apply reads_only_refl|]|]. rewrite abind_vol. cbv beta zeta. pose proof Hm as (Hr & Hb & _).
  set (v := nx_v s) in *. pose proof (Z.mod_pos_bound offset (nv_block v) Hb) as Hmod. set (k := Z.min n (nv_block v - offset mod nv_block v)). assert (0 < k <= n) as Hk by lia.
  assert (u64 (offset + k) = offset + k) as -> by (apply Z.mod_small; lia).
  match goal with |- context [abind ?m _] => set (reading := m) end.
  assert (reads_only s (fst (reading s)) /\ match snd (reading s) with Done l => l = bytes_from (file_byte (nx_d s) v runs) offset k | Err _ => True | Stuck => False end) as [R1 R2].
  { unfold reading. destruct (run_find runs (offset / nv_block v)) as [r|] eqn:E; [destruct (run_hole r) eqn:Eh|].
    - split; [by apply reads_only_refl|]. apply file_bytes_unmapped; [done| |lia]. unfold file_block. by rewrite E, Eh.
    - destruct (run_place_small _ _ _ _ (offset mod nv_block v) _ Hp Hm E Eh Hmod) as (Hf & Hpl & H0'). destruct (native_bytes_spec _ k s Hp H0' ltac:(lia)) as (Es & P1 & B1 & R1).
      split; [split; [by split|done]|]. destruct (snd _); [|done..]. destruct R1 as [_ ->]. fold v. rewrite Hpl. apply file_bytes_mapped; [done|done|lia].
    - split; [by apply reads_only_refl|]. apply file_bytes_unmapped; [done| |lia]. unfold file_block. by rewrite E. }
  unfold abind. destruct (reading s) as [s1 [l|e|]]; cbn [fst snd] in *; [|by split|done]. split; [exact R1|]. cbn. exists k. split_and!; [lia|lia|done|done|by rewrite R2].
Qed.
Lemma read_loop_spec runs fuel : forall offset n out (s : nx St D), placed (nx_d s) (nx_v s) -> mapped (nx_v s) runs -> 0 <= offset -> 0 <= n < Z.of_nat fuel -> offset + n < 2 ^ 64 ->
  let r := a_loop fuel (read_run_step runs) (offset, n, out) s in reads_only s (fst r) /\
  match snd r with Done l => l = out ++ bytes_from (file_byte (nx_d s) (nx_v s) runs) offset n | Err _ => True | Stuck => False end.
Proof.
  induction fuel as [|fuel IH]; intros offset n out s Hp Hm Ho Hn Hlim; [lia|]. cbn [a_loop]. unfold abind. destruct (read_run_step_spec runs offset n out s Hp Hm Ho ltac:(lia) Hlim) as [R1 Hs].
  destruct (read_run_step runs (offset, n, out) s) as [s1 [[[[offset' n'] out']|l]|e|]]; cbn [fst snd] in R1, Hs |- *; [| |by split|done].
  - destruct Hs as (k & Hk & -> & -> & ->). destruct R1 as [O1 B1]. pose proof (only_disks_v _ _ O1) as Hv.
    destruct (IH (offset + k) (n - k) (out ++ bytes_from (file_byte (nx_d s) (nx_v s) runs) offset k) s1) as [R2 Hl]; [rewrite Hv; apply O1|by rewrite Hv|lia|lia|lia|].
    split; [eapply reads_only_trans; [by split|exact R2]|]. destruct (snd _); [|done..]. rewrite Hl, Hv, (file_byte_same (nx_d s) (nx_d s1)) by done. rewrite <- app_assoc. f_equal.
    replace n with (k + (n - k)) at 2 by lia. by rewrite bytes_from_app by lia.
  - destruct Hs as [-> ->]. split; [done|]. unfold bytes_from. cbn. by rewrite app_nil_r.
Qed.
Lemma run_read_spec runs offset n (s : nx St D) : placed (nx_d s) (nx_v s) -> mapped (nx_v s) runs -> 0 <= offset -> 0 <= n -> offset + n < 2 ^ 64 ->
  let r := run_read runs offset n s in reads_only s (fst r) /\
  match snd r with Done l => l = bytes_from (file_byte (nx_d s) (nx_v s) runs) offset n | Err _ => True | Stuck => False end.
Proof. intros Hp Hm Ho Hn Hlim. unfold run_read. apply (read_loop_spec runs (S (Z.to_nat n)) offset n [] s); try done. lia. Qed.

(** A file with [data] at [offset]. *)
Definition file_with (F : Z -> Z) (offset : Z) (data : list Z) (o : Z) : Z := contents_with (fun _ => F) 0 offset data 0 o.
Lemma file_with_nil F offset o : file_with F offset [] o = F o.
Proof. apply contents_with_nil. Qed.
Lemma file_with_app F offset x y o : file_with (file_with F offset x) (offset + zlen x) y o = file_with F offset (x ++ y) o.
Proof. unfold file_with. rewrite <- contents_with_app. unfold contents_with. by destruct (_ && _). Qed.
Lemma file_with_ext F F' offset data o : (forall o, F o = F' o) -> file_with F offset data o = file_with F' offset data o.
Proof. intros E. unfold file_with, contents_with. by destruct (_ && _). Qed.
(** The bytes of the blocks of a file on its disk. *)
Definition file_area (v : native_volume) (runs : list native_run) (i a : Z) : Prop :=
  i = nv_disk v /\ exists q b, file_block runs q = Some b /\ volume_base v + b * nv_block v <= a < volume_base v + (b + 1) * nv_block v.
Lemma file_write_block d d' v runs offset chunk b : mapped v runs -> file_block runs (offset / nv_block v) = Some b -> offset mod nv_block v + zlen chunk <= nv_block v ->
  (forall i a, disk_byte d' i a = contents_with (disk_byte d) (nv_disk v) (volume_base v + (b * nv_block v + offset mod nv_block v)) chunk i a) ->
  (forall o, file_byte d' v runs o = file_with (file_byte d v runs) offset chunk o) /\ (forall i a, ~ file_area v runs i a -> disk_byte d' i a = disk_byte d i a).
Proof.
  intros (Hr & Hb & _) Hf Hlen Hc. pose proof (Z.mod_pos_bound offset (nv_block v) Hb) as Hm. pose proof (Z.div_mod offset (nv_block v) ltac:(lia)) as Hd. pose proof (zlen_nonneg chunk) as Hz. split.
  - intros o. unfold file_byte at 1. destruct (decide (offset <= o < offset + zlen chunk)) as [Hin|Hout].
    + destruct (in_block (nv_block v) offset (o - offset)) as [E1 E2]; [lia..|]. replace (offset + (o - offset)) with o in E1, E2 by lia. rewrite E1, E2, Hf. unfold volume_byte. rewrite Hc.
      rewrite contents_with_in by lia. unfold file_with. rewrite contents_with_in by lia. f_equal. lia.
    + unfold file_with. rewrite contents_with_out by lia. unfold file_byte. destruct (file_block runs (o / nv_block v)) as [c|] eqn:Ec; [|done]. unfold volume_byte. rewrite Hc. apply contents_with_out. right.
      pose proof (Z.mod_pos_bound o (nv_block v) Hb) as Hmo. pose proof (Z.div_mod o (nv_block v) ltac:(lia)) as Hdo. destruct (Z.eq_dec c b) as [->|Hcb]; [|nia].
      pose proof (file_block_inj _ _ _ _ _ Hr Ec Hf) as E. rewrite E in Hdo. lia.
  - intros i a Hn. rewrite Hc. apply contents_with_out. destruct (decide (i = nv_disk v)) as [->|]; [|by left]. right. apply Decidable.not_not; [unfold Decidable.decidable; lia|].
    intros Hx. apply Hn. split; [done|]. exists (offset / nv_block v), b. split; [done|]. lia.
Qed.
Definition still (v v' : native_volume) : Prop := exists w, v' = v <| nv_wrote := w |>.
Lemma still_refl v : still v v.
Proof. exists (nv_wrote v). by destruct v. Qed.
Lemma write_run_step_spec runs offset data (s : nx St D) : placed (nx_d s) (nx_v s) -> mapped (nx_v s) runs -> 0 <= offset -> offset + zlen data < 2 ^ 64 ->
  let v := nx_v s in let r := write_run_step runs (offset, data) s in
  match snd r with
  | Done (Exit _) => data = [] /\ fst r = s
  | Done (Next (offset', data')) => exists chunk, chunk <> [] /\ data = chunk ++ data' /\ offset' = offset + zlen chunk /\ placed (nx_d (fst r)) v /\ still v (nx_v (fst r)) /\
      (forall o, file_byte (nx_d (fst r)) v runs o = file_with (file_byte (nx_d s) v runs) offset chunk o) /\ (forall i a, ~ file_area v runs i a -> disk_byte (nx_d (fst r)) i a = disk_byte (nx_d s) i a)
  | Err _ => True
  | Stuck => False
  end.
Proof.
  intros Hp Hm Ho Hlim. cbv zeta. unfold write_run_step. destruct data as [|x rest]; [by split|]. set (data := x :: rest) in *. assert (0 < zlen data) as Hw by (subst data; unfold zlen; cbn; lia).
  rewrite abind_vol. cbv beta zeta. pose proof Hm as (Hr & Hb & _). set (v := nx_v s) in *. pose proof (Z.mod_pos_bound offset (nv_block v) Hb) as Hmod.
  set (k := Z.min (zlen data) (nv_block v - offset mod nv_block v)). assert (0 < k <= zlen data) as Hk by lia. assert (u64 (offset + k) = offset + k) as -> by (apply Z.mod_small; lia).
  destruct (run_find runs (offset / nv_block v)) as [r|] eqn:E; [|done]. destruct (run_hole r) eqn:Eh; [done|].
  destruct (run_place_small _ _ _ _ (offset mod nv_block v) _ Hp Hm E Eh Hmod) as (Hf & Hpl & H0'). pose proof (write_bytes_spec (run_place v r (offset / nv_block v) (offset mod nv_block v)) (take (Z.to_nat k) data) s Hp H0') as Hs. cbv zeta in Hs.
  unfold abind. destruct (native_write_bytes _ _ s) as [s1 [u|e|]]; cbn [fst snd] in Hs |- *; [|done|done]. destruct Hs as (_ & _ & _ & Es & P1 & C1). cbn.
  assert (zlen (take (Z.to_nat k) data) = k) as Hzk by (unfold zlen in *; rewrite length_take; lia).
  exists (take (Z.to_nat k) data). split_and!; [intros E0; rewrite E0 in Hzk; unfold zlen in Hzk; cbn in Hzk; lia|by rewrite take_drop|by rewrite Hzk|exact P1|rewrite Es; by exists true|..].
  all: rewrite Hpl in C1; apply (file_write_block (nx_d s) (nx_d s1) v runs offset (take (Z.to_nat k) data) _ Hm Hf ltac:(lia) C1).
Qed.
Lemma still_trans v1 v2 v3 : still v1 v2 -> still v2 v3 -> still v1 v3.
Proof. intros [w1 ->] [w2 ->]. by exists w2. Qed.
(** What a write through a run table does. *)
Definition file_written (runs : list native_run) (s s' : nx St D) (offset : Z) (data : list Z) : Prop :=
  placed (nx_d s') (nx_v s) /\ still (nx_v s) (nx_v s') /\
  (forall o, file_byte (nx_d s') (nx_v s) runs o = file_with (file_byte (nx_d s) (nx_v s) runs) offset data o) /\
  (forall i a, ~ file_area (nx_v s) runs i a -> disk_byte (nx_d s') i a = disk_byte (nx_d s) i a).
Lemma file_written_app runs s1 s2 s3 offset x y : file_written runs s1 s2 offset x -> file_written runs s2 s3 (offset + zlen x) y -> file_written runs s1 s3 offset (x ++ y).
Proof.
  intros (P1 & S1 & B1 & A1) (P2 & S2 & B2 & A2). destruct S1 as [w1 E1]. rewrite E1 in P2, S2, B2, A2. split_and!.
  - destruct P2. by split.
  - destruct S2 as [w2 E2]. exists w2. rewrite E2. done.
  - intros o. rewrite <- file_with_app. etransitivity; [exact (B2 o)|]. apply file_with_ext. exact B1.
  - intros i a Hn. etransitivity; [by apply A2|by apply A1].
Qed.
Lemma write_runs_loop runs fuel : forall offset data (s : nx St D), placed (nx_d s) (nx_v s) -> mapped (nx_v s) runs -> 0 <= offset -> offset + zlen data < 2 ^ 64 -> (length data < fuel)%nat ->
  let r := a_loop fuel (write_run_step runs) (offset, data) s in
  match snd r with Done _ => file_written runs s (fst r) offset data | Err _ => True | Stuck => False end.
Proof.
  induction fuel as [|fuel IH]; intros offset data s Hp Hm Ho Hlim Hf; [lia|]. cbn [a_loop]. unfold abind. pose proof (write_run_step_spec runs offset data s Hp Hm Ho Hlim) as Hs. cbv zeta in Hs.
  destruct (write_run_step runs (offset, data) s) as [s1 [[[offset' data']|[]]|e|]]; cbn [fst snd] in Hs |- *; [| |done|done].
  - destruct Hs as (chunk & Hne & -> & -> & P1 & S1 & B1 & A1). assert (file_written runs s s1 offset chunk) as Hw by (split_and!; done). unfold zlen in Hlim. rewrite length_app in Hlim, Hf.
    assert (0 < length chunk)%nat as Hc by (destruct chunk; [done|cbn; lia]). destruct S1 as [w1 E1].
    assert (placed (nx_d s1) (nx_v s1)) as Hp1 by (rewrite E1; destruct P1; by split). assert (mapped (nx_v s1) runs) as Hm1 by (rewrite E1; exact Hm).
    specialize (IH (offset + zlen chunk) data' s1 Hp1 Hm1 ltac:(unfold zlen; lia) ltac:(unfold zlen; lia) ltac:(lia)). cbv zeta in IH.
    destruct (snd (a_loop fuel _ _ s1)); [by eapply file_written_app|done|done].
  - destruct Hs as [-> ->]. split_and!; [done|apply still_refl|intros o; by rewrite file_with_nil|done].
Qed.
Lemma run_write_spec runs offset data (s : nx St D) : placed (nx_d s) (nx_v s) -> mapped (nx_v s) runs -> 0 <= offset -> offset + zlen data < 2 ^ 64 ->
  let r := run_write runs offset data s in match snd r with Done _ => file_written runs s (fst r) offset data | Err _ => True | Stuck => False end.
Proof. intros Hp Hm Ho Hlim. unfold run_write. apply write_runs_loop; try done. lia. Qed.
End Data.

Lemma native_ok_placed {D} `{Disks D} (d : D) v : native_ok v -> nv_sector v = disk_sector_size d (nv_disk v) -> placed d v.
Proof. intros [] E. by split. Qed.
Lemma native_ok_mapped v runs : native_ok v -> runs_ok (nv_blocks v) runs -> mapped v runs.
Proof. intros [] Hr. by split_and!. Qed.
