(* ===== verification/NativeSpec.v ===== *)
(** What the ext and NTFS drivers do to the bytes of a volume: a write of a
    range, reading and writing a file through its run table, and reading an
    ext file from its inode. *)
From S2P Require Import Prelude Klib Pmm PageAlloc Path Disk DiskStore State Fat Native Ext Ntfs NativeRead NativeDemo NativeLogic NativeRuns NativeReads NativeData NativeConfine.

Section Actions.
Context {St D : Type} `{PageSource St} `{DiskContents D}.
Lemma native_on_placed (d : D) v : native_on d v -> placed d v.
Proof. intros [Hok E]. by apply native_ok_placed. Qed.
(** Reading operations leave the bytes of the disks and the place of the volume. *)
Lemma reading_keeps {A} (m : Act St D A) Q (s : nx St D) : (Reads (unwritten (nx_v s) (disk_byte (nx_d s))) (nx_v s) -> ok (unwritten (nx_v s) (disk_byte (nx_d s))) (nx_v s) m Q) ->
  native_on (nx_d s) (nx_v s) -> Forall slot_ok (nx_tx s) ->
  let r := m s in native_on (nx_d (fst r)) (nx_v s) /\ disk_byte (nx_d (fst r)) = disk_byte (nx_d s) /\ same_native (nx_v s) (nx_v (fst r)) /\ Forall slot_ok (nx_tx (fst r)) /\ (forall a, snd r = Done a -> Q a).
Proof.
  intros Hm Hv Ht. pose proof (unwritten_reads (nx_v s) (disk_byte (nx_d s)) (proj1 Hv)) as HR. destruct (Hm HR s) as [((H1' & H2') & H3' & H4') H5']; [split_and!; [by split|apply same_native_refl|done]|].
  cbv zeta. split_and!; try done. intros a Ha. by rewrite Ha in H5'.
Qed.
Lemma file_byte_place (d d' : D) v v' runs : disk_byte d' = disk_byte d -> same_native v v' -> file_byte d' v' runs = file_byte d v runs.
Proof.
  intros B E. pose proof (same_native_disk _ _ E) as (E1 & E2 & _ & E4 & _). unfold file_byte, volume_byte, volume_base. rewrite E1, E2, E4, B. destruct E as [E _].
  by rewrite (f_equal nv_block E : nv_block v' = nv_block v).
Qed.
Lemma bind_done {A B} (m : Act St D A) (k : A -> Act St D B) s s' b : abind m k s = (s', Done b) -> exists s1 a, m s = (s1, Done a) /\ k a s1 = (s', Done b).
Proof. unfold abind. destruct (m s) as [s1 [a|e|]] eqn:E; intros Hk; simplify_eq. by exists s1, a. Qed.
Lemma refuse_done b e (s s' : nx St D) (u : unit) : refuse b e s = (s', Done u) -> b = false /\ s' = s.
Proof. unfold refuse, fails, aret. destruct b; intros E; by simplify_eq. Qed.
(** The state after a reading step is as good as the one before. *)
Definition after (s s' : nx St D) : Prop :=
  native_on (nx_d s') (nx_v s') /\ disk_byte (nx_d s') = disk_byte (nx_d s) /\ same_native (nx_v s) (nx_v s') /\ Forall slot_ok (nx_tx s').
Lemma reading_after {A} (m : Act St D A) (Q : native_volume -> A -> Prop) (s s' : nx St D) a : m s = (s', Done a) -> (forall P v0, Reads P v0 -> ok P v0 m (Q v0)) ->
  native_on (nx_d s) (nx_v s) -> Forall slot_ok (nx_tx s) -> after s s' /\ Q (nx_v s) a.
Proof.
  intros E Hm Hv Ht. destruct (reading_keeps m (Q (nx_v s)) s (Hm _ _) Hv Ht) as (H1' & H2' & H3' & H4' & H5'). rewrite E in *. cbn [fst snd] in *. split; [|by apply H5'].
  split_and!; [|done..]. destruct H1' as [Hok Hs]. pose proof (same_native_disk _ _ H3') as (E1 & _ & _ & E4 & _). split; [|by rewrite E1, E4].
  pose proof (unwritten_reads (nx_v s) (disk_byte (nx_d s)) (proj1 Hv)) as HR. by apply (same_native_ok _ _ (reads := HR)).
Qed.
Lemma after_trans s1 s2 s3 : after s1 s2 -> after s2 s3 -> after s1 s3.
Proof.
  intros (A1 & B1 & [C1 F1] & D1) (A2 & B2 & [C2 F2] & D2). split_and!; [done|congruence| |done]. split; [congruence|auto].
Qed.
Lemma same_nv_blocks v v' : same_native v v' -> nv_blocks v' = nv_blocks v.
Proof. intros [E _]. exact (f_equal nv_blocks E). Qed.
Lemma ext_size_u64 raw : bytes_ok raw -> is_u64 (ext_size raw).
Proof.
  intros Hr. pose proof (rd32_range raw 4 Hr) as H1'. pose proof (rd32_range raw 108 Hr) as H2'. unfold ext_size, is_u64, is_u32 in *. rewrite lor_shiftl_add by lia. lia.
Qed.
End Actions.

(** C16: a write by the ext and NTFS drivers is refused with nothing changed (a read-only or failed volume, a range outside the volume), or
    leaves exactly the given bytes at the given place and every other byte of every disk as it was, whatever sectors the range cuts, or marks
    the volume as failed. *)
Theorem native_write_exact {St D} `{PageSource St} `{DiskContents D} (s : nx St D) (offset : Z) (data : list Z) :
  let v := nx_v s in let r := native_write_bytes offset data s in
  native_on (nx_d s) v -> 0 <= offset ->
  match snd r with
  | Done _ => nv_read_only v = false /\ nv_failed v = false /\ offset + zlen data <= nv_length v * nv_sector v /\ nx_v (fst r) = v <| nv_wrote := true |> /\
      (forall i a, disk_byte (nx_d (fst r)) i a = if (i =? nv_disk v) && (volume_base v + offset <=? a) && (a <? volume_base v + offset + zlen data) then data !!! Z.to_nat (a - (volume_base v + offset)) else disk_byte (nx_d s) i a)
  | Err e => (fst r = s /\ (e = K_EROFS /\ nv_read_only v || nv_failed v = true \/ e = K_EIO /\ ~ write_place v offset data)) \/ nx_v (fst r) = v <| nv_failed := true |>
  | Stuck => False
  end.
Proof.
  intros v r Hv Ho. pose proof (write_bytes_spec offset data s (native_on_placed _ _ Hv) Ho) as Hs. cbv zeta in Hs. fold r v in Hs.
  destruct (snd r); [|exact Hs..]. destruct Hs as (H1' & H2' & [_ H3'] & H4' & _ & H5'). split_and!; try done. by rewrite H4'.
Qed.
Lemma native_write_exact_witness :
  let s := mk_nx (St := pmm) demo_ext demo_pmm ∅ demo_ext_volume 0 [] [] in
  let r := native_write_bytes (H0 := store_disk 50) 8300 [7; 7; 7] s in
  match snd r with
  | Done _ => nx_v (fst r) = demo_ext_volume <| nv_wrote := true |>
  | _ => True
  end.
Proof.
  intros s r. pose proof (native_write_exact (H1 := store_contents 50) s 8300 [7; 7; 7] demo_ext_on ltac:(lia)) as HP. cbv zeta in HP. fold r in HP.
  destruct (snd r); [|done..]. destruct HP as (_ & _ & _ & HP & _). exact HP.
Defined.

(** C15: what is written to a file through a sound run table is what is read back: the bytes of the range become the data, every other
    byte of the file stays, no byte of a disk outside the blocks of the file changes, and a read of the range returns the data. *)
Theorem run_write_read {St D} `{PageSource St} `{DiskContents D} (s : nx St D) (runs : list native_run) (offset : Z) (data : list Z) :
  let v := nx_v s in
  native_on (nx_d s) v -> runs_ok (nv_blocks v) runs -> 0 <= offset -> offset + zlen data < 2 ^ 64 ->
  forall s', run_write runs offset data s = (s', Done tt) ->
  (forall o, file_byte (nx_d s') v runs o = if (offset <=? o) && (o <? offset + zlen data) then data !!! Z.to_nat (o - offset) else file_byte (nx_d s) v runs o) /\
  (forall i a, ~ file_area v runs i a -> disk_byte (nx_d s') i a = disk_byte (nx_d s) i a) /\
  (forall s2 out, run_read runs offset (zlen data) s' = (s2, Done out) -> out = data).
Proof.
  intros v Hv Hr Ho Hlim s' E. pose proof (native_ok_mapped _ _ (proj1 Hv) Hr) as Hm. pose proof (run_write_spec runs offset data s (native_on_placed _ _ Hv) Hm Ho Hlim) as Hs. rewrite E in Hs.
  destruct Hs as (P1 & [w E1] & B1 & A1). fold v in P1, E1, B1, A1. cbn [fst] in E1. split_and!; [exact B1|exact A1|]. intros s2 out E2.
  assert (placed (nx_d s') (nx_v s')) as P2 by (rewrite E1; destruct P1; by split). assert (mapped (nx_v s') runs) as M2 by (rewrite E1; exact Hm).
  pose proof (run_read_spec runs offset (zlen data) s' P2 M2 Ho (zlen_nonneg _) Hlim) as [_ Hread]. rewrite E2 in Hread. cbn in Hread. rewrite Hread, E1.
  apply list_eq_same_length with (n := length data); [done|unfold zlen; by rewrite bytes_from_length, Nat2Z.id|]. intros i x y Hi Hx Hy.
  rewrite bytes_from_lookup in Hx by (unfold zlen; lia). injection Hx as <-. change (file_byte (nx_d s') v runs (offset + Z.of_nat i) = y). rewrite B1. unfold file_with, zlen. rewrite contents_with_in by (unfold zlen; lia).
  apply list_lookup_total_correct. by replace (Z.to_nat (offset + Z.of_nat i - offset)) with i by lia.
Qed.
Definition demo_runs : list native_run := [mk_run 0 8 1 false; mk_run 3 20 2 false].
Lemma demo_runs_ok : runs_ok 25 demo_runs.
Proof.
  split; [repeat constructor; vm_compute; congruence|]. intros [|[|i]] [|[|j]] a b Hij Ha Hb; try lia; try done. cbn in Ha, Hb. injection Ha as <-. injection Hb as <-. split; vm_compute; [congruence|intros; left; congruence].
Qed.
Lemma run_write_read_witness :
  let s := mk_nx (St := pmm) demo_ext demo_pmm ∅ demo_ext_volume 0 [] [] in
  let s' := fst (run_write (H0 := store_disk 50) demo_runs 4090 [1; 2; 3; 4; 5; 6; 7; 8; 9] s) in
  match snd (run_read (H0 := store_disk 50) demo_runs 4090 9 s') with Done out => out = [1; 2; 3; 4; 5; 6; 7; 8; 9] | _ => True end.
Proof.
  intros s s'. assert (snd (run_write (H0 := store_disk 50) demo_runs 4090 [1; 2; 3; 4; 5; 6; 7; 8; 9] s) = Done tt) as E by (vm_compute; reflexivity).
  assert (run_write (H0 := store_disk 50) demo_runs 4090 [1; 2; 3; 4; 5; 6; 7; 8; 9] s = (s', Done tt)) as E' by (unfold s'; rewrite <- E; apply surjective_pairing).
  clearbody s'. pose proof (run_write_read (H1 := store_contents 50) s demo_runs 4090 [1; 2; 3; 4; 5; 6; 7; 8; 9]) as HP. cbv zeta in HP.
  destruct (run_read (H0 := store_disk 50) demo_runs 4090 9 s') as [s2 [out|e|]] eqn:E2; [|done..]. refine (proj2 (proj2 (HP demo_ext_on demo_runs_ok _ _ s' E')) s2 out E2); [lia|vm_compute; reflexivity].
Defined.

(** C23: reading a file of an ext volume returns the bytes that its inode maps: of the range asked for, the part before the size in the
    inode, each byte from the block of the volume that the sound run table of the inode gives, and zero in a hole. *)
Theorem ext_read_correct {St D} `{PageSource St} `{DiskContents D} (s : nx St D) (f : k_file) (offset n : Z) s' data :
  let v := nx_v s in
  native_on (nx_d s) v -> Forall slot_ok (nx_tx s) -> nv_kind v = 4 -> 0 <= offset -> 0 <= n -> read_file f offset n s = (s', Done data) ->
  exists s1 raw, ext_inode (f_cluster f) s = (s1, Done raw) /\ rd32 raw 100 = f_directory_offset f /\ disk_byte (nx_d s') = disk_byte (nx_d s) /\
    (ext_size raw <= offset /\ data = [] \/ exists s2 runs, ext_map (f_cluster f) raw s1 = (s2, Done runs) /\ runs_ok (nv_blocks v) runs /\
      offset < ext_size raw /\ data = bytes_from (file_byte (nx_d s) v runs) offset (Z.min n (ext_size raw - offset))).
Proof.
  intros v Hv Ht Hk Ho Hn E. unfold read_file in E. apply bind_done in E as (s0 & [] & E0 & E). apply refuse_done in E0 as [_ ->]. rewrite abind_vol in E. fold v in E. rewrite Hk in E. change (4 =? 4) with true in E. cbv iota in E.
  apply bind_done in E as (s1 & raw & E1 & E). apply bind_done in E as (s1' & [] & E2 & E). apply refuse_done in E2 as [E2 ->]. apply negb_false_iff, Z.eqb_eq in E2. cbv zeta in E.
  exists s1, raw. destruct (reading_after _ (fun _ => bytes_ok) _ _ _ E1 (fun P v0 R => ok_ext_inode P v0 _) Hv Ht) as [A1 Hraw]. split; [exact E1|]. split; [exact E2|].
  destruct (Z.leb_spec (ext_size raw) offset) as [Hs|Hs]; [injection E as <- <-; split; [apply A1|by left]|].
  apply bind_done in E as (s2 & runs & E3 & E). pose proof A1 as (Hv1 & B1 & S1 & Ht1).
  destruct (reading_after _ (fun w => runs_ok (nv_blocks w)) _ _ _ E3 (fun P v0 R => ok_ext_map P v0 _ _ Hraw) Hv1 Ht1) as [A2 Hruns]. pose proof (after_trans _ _ _ A1 A2) as (Hv2 & B2 & S2 & Ht2).
  pose proof (ext_size_u64 raw Hraw) as Hsize. rewrite (same_nv_blocks _ _ S1) in Hruns.
  assert (mapped (nx_v s2) runs) as Hm by (apply native_ok_mapped; [apply Hv2|by rewrite (same_nv_blocks _ _ S2)]).
  pose proof (run_read_spec runs offset (Z.min n (ext_size raw - offset)) s2 (native_on_placed _ _ Hv2) Hm Ho ltac:(lia) ltac:(unfold is_u64 in Hsize; lia)) as [[_ B3] Hread]. rewrite E in B3, Hread. cbn [fst snd] in B3, Hread.
  split; [by rewrite B3|]. right. exists s2, runs. split_and!; [exact E3|exact Hruns|lia|]. by rewrite Hread, (file_byte_place (nx_d s) (nx_d s2) (nx_v s)).
Qed.
Lemma ext_read_correct_witness :
  let s := mk_nx (St := pmm) demo_ext demo_pmm ∅ demo_ext_volume 0 [] [] in
  exists s1 raw, ext_inode (H0 := store_disk 50) 12 s = (s1, Done raw) /\ ext_size raw = 5.
Proof.
  intros s. assert (snd (read_file (H0 := store_disk 50) (mk_file 4 0 12 0 5 9) 1 3 s) = Done [101; 108; 108]) as E by (vm_compute; reflexivity).
  destruct (read_file (H0 := store_disk 50) (mk_file 4 0 12 0 5 9) 1 3 s) as [s' r] eqn:E'. cbn in E. subst r.
  destruct (ext_read_correct (H1 := store_contents 50) s (mk_file 4 0 12 0 5 9) 1 3 s' [101; 108; 108] demo_ext_on (Forall_nil_2 _) eq_refl ltac:(lia) ltac:(lia) E') as (s1 & raw & E1 & _).
  exists s1, raw. split; [exact E1|]. assert (match snd (ext_inode (H0 := store_disk 50) 12 s) with Done raw => ext_size raw | _ => 5 end = 5) as Hs by (vm_compute; reflexivity). cbn [f_cluster] in E1. by rewrite E1 in Hs.
Defined.

Lemma ntfs_runs_same v v' rec a n : same_native v v' -> ntfs_runs v' rec a n = ntfs_runs v rec a n.
Proof.
  intros S. pose proof (same_nv_blocks _ _ S) as Eb. destruct S as [S _]. unfold ntfs_runs, runs_end_bad. by rewrite Eb, (f_equal nv_block S : nv_block v' = nv_block v).
Qed.
Lemma lift_loop_done {St D A} (r : option (Z + A)) (s s' : nx St D) a : lift_loop r s = (s', Done a) -> r = Some (inr a) /\ s' = s.
Proof. destruct r as [[e|b]|]; cbn; unfold fails, stuck, aret; intros E; by simplify_eq. Qed.
Lemma lift_done {St D A} (r : Z + A) (s s' : nx St D) a : lift r s = (s', Done a) -> r = inr a /\ s' = s.
Proof. destruct r as [e|b]; cbn; unfold fails, aret; intros E; by simplify_eq. Qed.
(** The bytes of a stream: those after the initialized ones are zero. *)
Definition stream_byte (initialized : Z) (F : Z -> Z) (o : Z) : Z := if o <? initialized then F o else 0.
Lemma stream_bytes initialized F offset n : 0 <= n ->
  let backed := if offset <? initialized then Z.min n (initialized - offset) else 0 in
  bytes_from F offset backed ++ replicate (Z.to_nat (n - backed)) 0 = bytes_from (stream_byte initialized F) offset n.
Proof.
  intros Hn backed. assert (0 <= backed <= n) as Hb by (unfold backed; destruct (Z.ltb_spec offset initialized); lia).
  replace n with (backed + (n - backed)) at 2 by lia. rewrite bytes_from_app by lia. f_equal.
  - apply bytes_from_ext. intros a Ha. unfold stream_byte. rewrite (proj2 (Z.ltb_lt _ _)); [done|]. unfold backed in Ha. destruct (Z.ltb_spec offset initialized); lia.
  - apply list_eq_same_length with (n := Z.to_nat (n - backed)); [by rewrite bytes_from_length|by rewrite length_replicate|]. intros i x y Hi Hx Hy. rewrite bytes_from_lookup in Hy by done. rewrite lookup_replicate_2 in Hx by done.
    injection Hx as <-. injection Hy as <-. unfold stream_byte. rewrite (proj2 (Z.ltb_ge _ _)); [done|]. unfold backed in *. destruct (Z.ltb_spec offset initialized); lia.
Qed.
