(* ===== verification/NativeProbe.v ===== *)
(** Recognising a volume: whatever bytes a disk has, a volume that the probe of
    the ext and NTFS drivers accepts has a geometry that fits its partition,
    which is what every other theorem about the drivers starts from. *)
From S2P Require Import Prelude Klib Pmm PageAlloc Path Disk DiskStore State Fat RamFs Native Ext Ntfs NativeRead ExtWrite NtfsWrite NtfsCreate Vfs NativeFs NativeDemo NativeLogic NativeRuns NativeReads NativeData NativeConfine.

(** * Geometry *)
Definition here (v w : native_volume) : Prop :=
  nv_disk w = nv_disk v /\ nv_sector w = nv_sector v /\ nv_start w = nv_start v /\ nv_length w = nv_length v /\ (nv_read_only v = true -> nv_read_only w = true) /\ nv_failed w = nv_failed v /\ nv_wrote w = nv_wrote v.
(** The fields that the probe of one kind does not set. *)
Definition unset (v : native_volume) : Prop := 0 <= nv_record_size v /\ 0 <= nv_index_size v /\ 0 <= nv_inode_size v /\ 0 <= nv_desc_size v /\ nv_mft v = [].
Lemma ext_fields_here s v : bytes_ok s ->
  here v (ext_fields s v) /\ nv_kind (ext_fields s v) = 4 /\ nv_block (ext_fields s v) = Z.shiftl 1024 (rd32 s 24) /\ 0 <= nv_blocks (ext_fields s v) /\
  nv_record_size (ext_fields s v) = nv_record_size v /\ nv_index_size (ext_fields s v) = nv_index_size v /\ nv_mft (ext_fields s v) = nv_mft v.
Proof.
  intros Hs. split_and!; try done. cbn. apply Z.lor_nonneg. split; [apply (rd32_range s 4 Hs)|]. case_match; [done|]. apply Z.shiftl_nonneg, (rd32_range s 336 Hs).
Qed.
Lemma ext_geometry_ok {D} `{Disks D} (d : D) s v w : placed d v -> unset v -> bytes_ok s -> ext_geometry s v = inr w -> native_ok w /\ here v w /\ nv_kind w = 4 /\ nv_mft w = nv_mft v.
Proof.
  intros [_ Hsec Hst Hl He] (Hu1 & Hu2 & _) Hs. unfold ext_geometry. cbv zeta. destruct ((2 <? _) || _ || _ || _) eqn:E1; [done|].
  pose proof (ext_fields_here s v Hs) as (Hh & Hk & Hb & Hn & Hr & Hi & Hmft). generalize dependent (ext_fields s v). intros w1 Hh Hk Hb Hn Hr Hi Hmft. destruct (ext_fields_bad s w1) eqn:E2; [done|].
  generalize (ext_groups s w1), (ext_seed s), (ext_read_only s). intros groups seed ro. destruct ((groups =? 0) || _ || _); [done|]. destruct (ext_sum_bad _ _); [done|]. intros [= <-].
  pose proof (rd32_range s 24 Hs) as H24. unfold is_u32 in H24. unfold ext_fields_bad in E2. reflect_bools. destruct Hh as (D1 & D2 & D3 & D4 & D5 & D6 & D7).
  assert (0 < nv_block w1) as Hblock by (rewrite Hb, Z.shiftl_mul_pow2 by lia; apply Z.mul_pos_pos; [lia|apply Z.pow_pos_nonneg; lia]).
  assert (u64 (nv_length w1 * nv_sector w1) = nv_length w1 * nv_sector w1) as Eu by (apply Z.mod_small; rewrite D2, D4; nia).
  assert (nv_blocks w1 * nv_block w1 <= nv_length w1 * nv_sector w1) as Hspan.
  { match goal with Hx : nv_blocks w1 <= u64 _ / _ |- _ => rewrite Eu in Hx; pose proof (Z.mul_div_le (nv_length w1 * nv_sector w1) (nv_block w1) Hblock); nia end. }
  assert (native_ok w1) as Hok.
  { split; rewrite ?D1, ?D2, ?D3, ?D4; try done; try lia; rewrite ?D2, ?D4 in Hspan; try nia. }
  split; [|by destruct ro; split_and!]. destruct Hok. by destruct ro; split.
Qed.
Lemma unit_size_nonneg block field : 0 <= unit_size block field.
Proof. unfold unit_size. cbv zeta. case_match; [by apply Z.shiftl_nonneg|by apply Z.mod_pos_bound]. Qed.
Lemma ntfs_geometry_ok {D} `{Disks D} (d : D) boot v w : placed d v -> unset v -> bytes_ok boot -> ntfs_geometry boot v = Some w -> native_ok w /\ here v w /\ nv_kind w = nv_kind v.
Proof.
  intros [_ Hsec Hst Hl He] (_ & _ & Hu3 & Hu4 & _) Hs. unfold ntfs_geometry. cbv zeta. destruct (negb (rd16 boot 11 =? nv_sector v) || _ || _ || _ || _ || _ || _) eqn:E1; [done|]. destruct (_ || (_ <? -12) || _) eqn:E2; [done|].
  set (block := rd16 boot 11 * zget boot 13). pose proof (unit_size_nonneg block (zget boot 64)) as Hr. pose proof (unit_size_nonneg block (zget boot 68)) as Hi.
  generalize dependent (unit_size block (zget boot 64)). intros record Hr. generalize dependent (unit_size block (zget boot 68)). intros index Hi.
  destruct (negb (power2 record) || _ || _ || _ || _ || _ || _ || _) eqn:E3; [done|]. intros [= <-]. reflect_bools.
  pose proof (rd64_range boot 40 Hs) as Hs40. unfold is_u64 in Hs40. pose proof (zget_u8 boot 13 Hs) as Hs13. unfold is_u8 in Hs13.
  assert (zget boot 13 <> 0) as Hspc. { match goal with Hp : power2 (zget boot 13) = true |- _ => unfold power2 in Hp end. reflect_bools. lia. }
  pose proof (Z.mul_div_le (rd64 boot 40) (zget boot 13) ltac:(lia)) as Hd. assert (0 <= rd64 boot 40 / zget boot 13) as Hq by (apply Z.div_pos; lia).
  assert (0 < block) as Hblock by (unfold block; nia). assert (rd64 boot 40 / zget boot 13 <= rd64 boot 40) as Hq2 by nia.
  split_and!; [|split_and!; done|done]. split; cbn -[Z.pow Z.div]; try done; try lia. unfold block. nia.
Qed.

(** * The probe *)
Section Probe.
Context {St D : Type} `{PageSource St} `{DiskContents D}.
Definition probed (s s' : nx St D) (kind : Z) : Prop :=
  native_on (nx_d s') (nx_v s') /\ here (nx_v s) (nx_v s') /\ nv_kind (nx_v s') = kind /\ disk_byte (nx_d s') = disk_byte (nx_d s) /\ runs_ok (nv_blocks (nx_v s')) (nv_mft (nx_v s')).
Lemma here_on (d : D) v w : placed d v -> here v w -> native_ok w -> native_on d w.
Proof. intros [Hs _ _ _ _] (E1 & E2 & _) Hok. split; [done|]. by rewrite E1, E2. Qed.
Lemma volume_bytes_u8 (d : D) v offset n : Forall is_u8 (bytes_from (volume_byte d v) offset n).
Proof. apply bytes_from_u8. intros a. apply disk_byte_u8. Qed.
(** [m] from [s] is not stuck, and what it returns satisfies [Q]. *)
Definition returns {A} (m : Act St D A) (s : nx St D) (Q : nx St D -> A -> Prop) : Prop :=
  match m s with (s', Done a) => Q s' a | (_, Err _) => True | (_, Stuck) => False end.
Lemma returns_bind {A B} (m : Act St D A) (k : A -> Act St D B) s Q : returns m s (fun s' a => returns (k a) s' Q) -> returns (abind m k) s Q.
Proof. unfold returns, abind. by destruct (m s) as [s' [a|e|]]. Qed.
Lemma returns_weaken {A} (m : Act St D A) s (P Q : nx St D -> A -> Prop) : returns m s P -> (forall s' a, P s' a -> Q s' a) -> returns m s Q.
Proof. unfold returns. intros Hm HQ. destruct (m s) as [s' [a|e|]]; auto. Qed.
Lemma returns_refuse b e s Q : (b = false -> Q s tt) -> returns (refuse b e) s Q.
Proof. unfold returns, refuse. destruct b; [done|]. intros HQ. by apply HQ. Qed.
Lemma returns_lift {A} (r : Z + A) s (Q : nx St D -> A -> Prop) : (forall a, r = inr a -> Q s a) -> returns (lift r) s Q.
Proof. unfold returns, lift. destruct r; [done|]. intros HQ. by apply HQ. Qed.
Lemma returns_loop {A} (r : option (Z + A)) s (Q : nx St D -> A -> Prop) : r <> None -> (forall a, r = Some (inr a) -> Q s a) -> returns (lift_loop r) s Q.
Proof. intros Hn HQ. destruct r as [r|]; [|done]. apply returns_lift. intros a ->. by apply HQ. Qed.
(** A read of the probe: the bytes, and a state that differs in its disks. *)
Lemma returns_bytes offset n s Q : placed (nx_d s) (nx_v s) -> 0 <= offset -> 0 <= n ->
  (forall s' data, nx_v s' = nx_v s -> placed (nx_d s') (nx_v s) -> disk_byte (nx_d s') = disk_byte (nx_d s) -> Forall is_u8 data -> Q s' data) -> returns (native_bytes offset n) s Q.
Proof.
  intros Hp Ho Hn HQ. unfold returns. destruct (native_bytes_spec offset n s Hp Ho Hn) as (E1 & P1 & B1 & R1). destruct (native_bytes offset n s) as [s1 [data|e|]]; cbn [fst snd] in *; [|done..].
  destruct R1 as [_ ->]. apply HQ; [by rewrite E1|done|done|apply volume_bytes_u8].
Qed.
Lemma probe_ext_returns s : placed (nx_d s) (nx_v s) -> unset (nx_v s) -> returns probe_ext s (fun s' _ => probed s s' 4).
Proof.
  intros Hp Hu. unfold probe_ext. apply returns_bind, returns_bytes; [done|lia|lia|]. intros s1 data E1 P1 B1 Hd. cbv zeta. set (super := buffer data). assert (bytes_ok super) as Hs by by apply buffer_bytes.
  apply returns_bind. unfold on_vol, returns at 1. apply returns_bind, returns_refuse. intros _. apply returns_bind. unfold vol, returns at 1. apply returns_bind, returns_lift. intros w Ew. unfold returns. cbn in Ew |- *. rewrite E1 in Ew.
  assert (placed (nx_d s1) ((nx_v s) <| nv_super := super |>)) as P2 by (destruct P1; by split).
  destruct (ext_geometry_ok (nx_d s1) super ((nx_v s) <| nv_super := super |>) w P2 Hu Hs Ew) as (Hok & Hh & Hk & Hm). split_and!; cbn; [|exact Hh|done|done|].
  - exact (here_on _ _ _ P2 Hh Hok).
  - rewrite Hm. destruct Hu as (_ & _ & _ & _ & Hu). cbn. rewrite Hu. apply runs_ok_nil.
Qed.
Lemma probe_ntfs_returns boot s : placed (nx_d s) (nx_v s) -> unset (nx_v s) -> bytes_ok boot -> returns (probe_ntfs boot) s (fun s' _ => probed s s' 5).
Proof.
  intros Hp Hu Hb. unfold probe_ntfs. apply returns_bind. unfold on_vol at 1, returns at 1. apply returns_bind. unfold vol, returns at 1. set (v1 := (nx_v s) <| nv_kind := 5 |> <| nv_super := boot |>).
  change (nx_v (s <| nx_v ::= _ |>)) with v1. assert (placed (nx_d s) v1) as P1 by (destruct Hp; by split). destruct (ntfs_geometry boot v1) as [w|] eqn:Ew; [|done].
  destruct (ntfs_geometry_ok (nx_d s) boot v1 w P1 Hu Hb Ew) as (Hok & Hh & Hk). pose proof (here_on _ _ _ P1 Hh Hok) as Hon. pose proof (no_record _ Hok) as Hr0. pose proof (no_blocks _ Hok) as Hblocks.
  apply returns_bind. unfold on_vol at 1, returns at 1. apply returns_bind, returns_bytes; [by apply native_ok_placed; [|apply Hon]|by apply Z.mod_pos_bound|exact Hr0|]. intros s1 data E1 P2 B1 Hd. cbn in E1, B1.
  apply returns_bind, returns_lift. intros rec Er. assert (bytes_ok rec) as Hrec by (eapply fixup_u8; [by apply buffer_bytes|exact Er]). apply returns_bind, returns_refuse. intros _.
  apply returns_bind, returns_loop; [by apply ntfs_attr_some|]. intros [a length] Ea. apply returns_bind, returns_loop; [by apply ntfs_runs_some|]. intros runs Eruns. cbv zeta.
  pose proof (ntfs_runs_ok w rec a length runs ltac:(lia) Hrec Eruns) as Hruns.
  apply returns_bind. unfold on_vol at 1, returns at 1. do 2 (apply returns_bind, returns_refuse; intros _). unfold on_vol, returns. unfold probed. cbn. rewrite E1.
  destruct Hh as (D1 & D2 & D3 & D4 & D5 & D6 & D7). split_and!; cbn; try done.
  cbn in P2. destruct P2 as [Hsize _ _ _ _]. destruct Hok. by split; [split|].
Qed.
Lemma probe_returns s : placed (nx_d s) (nx_v s) -> unset (nx_v s) -> returns probe_volume s (fun s' _ => probed s s' 4 \/ probed s s' 5).
Proof.
  intros Hp Hu. unfold probe_volume. apply returns_bind, returns_bytes; [done|lia|lia|]. intros s1 boot E1 P1 B1 Hd. assert (bytes_ok (buffer boot)) as Hb by by apply buffer_bytes.
  assert (forall s', forall k, probed s1 s' k -> probed s s' k) as Hs by (intros s' k (Q1 & Q2 & Q3 & Q4 & Q5); rewrite E1 in Q2; rewrite B1 in Q4; by split_and!).
  rewrite <- E1 in P1, Hu. case_match.
  - eapply returns_weaken; [by apply probe_ntfs_returns|]. intros s' u Hq. right. by apply Hs.
  - eapply returns_weaken; [by apply probe_ext_returns|]. intros s' u Hq. left. by apply Hs.
Qed.
End Probe.

(** C14: a volume that the probe accepts is sound, whatever bytes the disk has: its geometry is that of the partition it was probed on and
    fits its disk, its block count fits its sectors, the run table of an NTFS volume's records is sound, a read-only probe gives a read-only
    volume; the probe ends, and changes no byte of a disk and no other volume. *)
Theorem native_probe_sound {St D} `{PageSource St} `{DiskContents D} (t : natives) (d : D) (ps : St) (ram : zmap) (disk start length partition : Z) (ro : bool) :
  0 < disk_sector_size d disk < 2 ^ 32 -> disk_sectors d disk * disk_sector_size d disk < 2 ^ 64 -> 0 <= start -> 0 <= length ->
  (forall source index, start + length <= disk_sectors d disk -> snd (probe_volume (mk_nx d ps ram (fresh_volume d disk start length source ro) index [] [])) <> Stuck) /\
  forall t' x' kind, table_probe t (d, ps, ram) disk start length partition ro = (t', x', inr kind) ->
    let v := na_volumes t' !!! na_count t in
    native_on (fst (fst x')) v /\ runs_ok (nv_blocks v) (nv_mft v) /\ nv_kind v = kind /\ (kind = 4 \/ kind = 5) /\
    nv_disk v = disk /\ nv_start v = start /\ nv_length v = length /\ start + length <= disk_sectors d disk /\ (ro = true -> nv_read_only v = true) /\ nv_failed v = false /\
    disk_byte (fst (fst x')) = disk_byte d /\ (forall j, j <> na_count t -> na_volumes t' !!! j = na_volumes t !!! j).
Proof.
  intros Hsec Hbytes Hst Hl.
  assert (forall source index, start + length <= disk_sectors d disk -> let s := mk_nx d ps ram (fresh_volume d disk start length source ro) index [] [] in returns probe_volume s (fun s' _ => probed s s' 4 \/ probed s s' 5)) as Hp.
  { intros source index Hin s. apply probe_returns; [|by split_and!]. split; cbn; try done. nia. }
  split. { intros source index Hin. specialize (Hp source index Hin). unfold returns in Hp. by destruct (probe_volume _) as [s' [u|e|]]. }
  intros t' x' kind E. unfold table_probe in E. destruct ((length =? 0) || _ || _) eqn:Eb; [done|]. reflect_bools. specialize (Hp (volume_name disk partition) (na_count t) ltac:(lia)).
  unfold run_result, run_native in E. match type of E with context [mk_nx _ _ _ ?v _ _ _] => assert (v = fresh_volume d disk start length (volume_name disk partition) ro) as Ef by apply lookup_total_insert_eq; rewrite Ef in E end.
  unfold returns in Hp. destruct (probe_volume _) as [s' [u|e|]]; [|done|done]. cbn in E.
  injection E as <- <- <-. cbn. rewrite lookup_total_insert_eq. 
  assert (exists k, (k = 4 \/ k = 5) /\ probed (mk_nx d ps ram (fresh_volume d disk start length (volume_name disk partition) ro) (na_count t) [] []) s' k) as (k & Hk & Q1 & (D1 & D2 & D3 & D4 & D5 & D6 & D7) & <- & Q4 & Q5)
    by (destruct Hp as [Hp|Hp]; eexists; (split; [|exact Hp]; auto)).
  split_and!; try done; [lia|]. intros j Hj. by rewrite !lookup_total_insert_ne by done.
Qed.
(** The probe of the NTFS volume of the examples, at its place on the disk. *)
Definition demo_probed : natives * io zmap pmm * (Z + Z) := table_probe (St := pmm) (H0 := store_disk 80) demo_natives (demo_ntfs, demo_pmm, ∅) 0 0 80 0 true.
Lemma demo_probed_kind : snd demo_probed = inr 5.
Proof. vm_compute. reflexivity. Qed.
Lemma native_probe_sound_witness :
  let v := na_volumes (fst (fst demo_probed)) !!! na_count demo_natives in
  nv_kind v = 5 /\ nv_read_only v = true /\ nv_failed v = false /\ runs_ok (nv_blocks v) (nv_mft v) /\ disk_byte (DiskContents := store_contents 80) (disk_of (fst demo_probed)) = disk_byte (DiskContents := store_contents 80) demo_ntfs.
Proof.
  pose proof demo_probed_kind as E. destruct demo_probed as [[t' x'] r] eqn:Ep. cbn in E. subst r.
  pose proof (proj2 (native_probe_sound (H1 := store_contents 80) demo_natives demo_ntfs demo_pmm ∅ 0 0 80 0 true ltac:(vm_compute; split; reflexivity) ltac:(vm_compute; reflexivity) ltac:(lia) ltac:(lia)) t' x' 5 Ep) as Hs.
  cbv zeta in Hs. destruct Hs as (_ & Hr & Hk & _ & _ & _ & _ & _ & Hro & Hf & Hd & _). split_and!; [exact Hk|exact (Hro eq_refl)|exact Hf|exact Hr|exact Hd].
Defined.
