(* ===== verification/NtfsCodec.v ===== *)
(** What the NTFS driver encodes, it decodes: run lists and protected records. *)
From S2P Require Import Prelude Klib Pmm PageAlloc Path Disk State Fat Native Ext Ntfs NativeRead ExtWrite NtfsWrite NativeLogic NativeRuns NativeStage.

(** * Integers of variable width *)
Lemma width_spec fuel x shift : forall n, n + Z.of_nat fuel = 8 -> let r := width fuel x shift n in n <= r <= 8 /\ (r < 8 -> Z.shiftr x (r * 8 - shift) = 0).
Proof.
  induction fuel as [|fuel IH]; intros n Hn; cbn [width]; [lia|]. destruct (_ && _) eqn:E.
  - reflect_bools. specialize (IH (n + 1) ltac:(lia)). cbv zeta in IH. lia.
  - cbv zeta. split; [lia|]. intros _. apply andb_false_iff in E as [E|E]; [apply Z.ltb_ge in E; lia|]. by apply negb_false_iff, Z.eqb_eq in E.
Qed.
Lemma shiftr_zero_lt x k : 0 <= x -> 0 <= k -> Z.shiftr x k = 0 -> x < 2 ^ k.
Proof. intros Hx Hk. rewrite Z.shiftr_div_pow2 by done. intros E. apply Z.div_small_iff in E; [|pose proof (Z.pow_pos_nonneg 2 k); lia]. lia. Qed.
Lemma le_bytes_value rec x n : forall at_, 0 <= x -> (forall i, 0 <= i < Z.of_nat n -> zget rec (at_ + i) = u8 (Z.shiftr x (8 * i))) -> le_bytes rec at_ n = x mod 2 ^ (8 * Z.of_nat n).
Proof.
  revert x. induction n as [|n IH]; intros x at_ Hx Hb; cbn [le_bytes]; [by rewrite Z.mod_1_r|].
  assert (zget rec at_ = x mod 2 ^ 8) as -> by (rewrite <- (Z.add_0_r at_), Hb, Z.shiftr_0_r by lia; done).
  rewrite (IH (Z.shiftr x 8)); [|by apply Z.shiftr_nonneg|].
  - rewrite lor_shiftl_add by (try lia; apply Z.mod_pos_bound; lia). rewrite Z.shiftr_div_pow2 by lia. replace (8 * Z.of_nat (S n)) with (8 + 8 * Z.of_nat n) by lia.
    rewrite Z.pow_add_r by lia. rewrite Z.rem_mul_r by (try lia; apply Z.pow_pos_nonneg; lia). lia.
  - intros i Hi. replace (at_ + 1 + i) with (at_ + (i + 1)) by lia. rewrite Hb by lia. rewrite Z.shiftr_shiftr by lia. do 2 f_equal. lia.
Qed.
Lemma put_le_get at_ n x m a : 0 <= n -> zget (put_le at_ n x m) a = if (at_ <=? a) && (a <? at_ + n) then u8 (Z.shiftr x (8 * (a - at_))) else zget m a.
Proof. intros Hn. unfold put_le. by rewrite (fold_put_spec m at_ n (fun i => u8 (Z.shiftr x (8 * i)))). Qed.
Lemma wr16_byte m p v a : zget (wr16 m p v) a = if a =? p then u8 v else if a =? p + 1 then u8 (Z.shiftr v 8) else zget m a.
Proof.
  unfold wr16. rewrite !zget_put, (Z.eqb_sym (p + 1)), (Z.eqb_sym p). destruct (Z.eqb_spec a p), (Z.eqb_spec a (p + 1)); done || lia.
Qed.

(** * Run lists *)
(** The bytes of the attribute of one run. *)
Section Attribute.
Context (block id : Z) (r : native_run) (size : Z).
Definition attr_lb : Z := width 7 (run_length r) 0 1.
Definition attr_ob : Z := width 7 (run_physical r) 1 1.
Definition attr_bytes : Z := Z.land (64 + 1 + attr_lb + attr_ob + 1 + 7) (Z.lnot 7).
Lemma attr_widths : 1 <= attr_lb <= 8 /\ 1 <= attr_ob <= 8.
Proof. split; [apply (width_spec 7 (run_length r) 0 1)|apply (width_spec 7 (run_physical r) 1 1)]; lia. Qed.
Lemma attr_room : 65 + attr_lb + attr_ob < attr_bytes <= 88.
Proof.
  pose proof attr_widths as [H1 H2]. unfold attr_bytes. revert H1 H2. generalize attr_lb, attr_ob. intros lb ob Hl Ho.
  assert (forall x, Z.land x (Z.lnot 7) = x - x mod 8) as Hm.
  { intros x. change (Z.lnot 7) with (Z.lnot (Z.ones 3)). rewrite <- Z.ldiff_land, Z.ldiff_ones_r by lia. rewrite Z.shiftl_mul_pow2, Z.shiftr_div_pow2 by lia. pose proof (Z.div_mod x 8 ltac:(lia)). change (2 ^ 3) with 8. lia. }
  rewrite Hm. pose proof (Z.mod_pos_bound (64 + 1 + lb + ob + 1 + 7) 8 ltac:(lia)). pose proof (Z.div_mod (64 + 1 + lb + ob + 1 + 7) 8 ltac:(lia)). lia.
Qed.
(** What is in the bytes. *)
Definition attr_map : zmap :=
  put_le (65 + attr_lb) attr_ob (run_physical r) (put_le 65 attr_lb (run_length r)
    (zput (wr64 (wr64 (wr64 (wr16 (wr64 (wr16 (zput (wr32 (wr32 ∅ 0 0x80) 4 attr_bytes) 8 1) 14 id) 24 (u64 (run_length r - 1))) 32 64) 40 (u64 (run_length r * block))) 48 size) 56 size)
       64 (u8 (Z.lor attr_lb (Z.shiftl attr_ob 4))))).
Lemma data_attribute_map : size <> 0 -> nt_data_attribute block id r size = bytes_at attr_map 0 attr_bytes.
Proof. intros Hs. unfold nt_data_attribute. by rewrite (proj2 (Z.eqb_neq _ _) Hs). Qed.
Lemma data_attribute_length : size <> 0 -> zlen (nt_data_attribute block id r size) = attr_bytes.
Proof. intros Hs. rewrite data_attribute_map by done. pose proof attr_room. pose proof attr_widths. apply bytes_at_length. lia. Qed.
Lemma attr_map_low a : 0 <= a < 64 -> zget attr_map a = zget (wr64 (wr64 (wr64 (wr16 (wr64 (wr16 (zput (wr32 (wr32 ∅ 0 0x80) 4 attr_bytes) 8 1) 14 id) 24 (u64 (run_length r - 1))) 32 64) 40 (u64 (run_length r * block))) 48 size) 56 size) a.
Proof.
  intros Ha. pose proof attr_widths as [H1 H2]. unfold attr_map. rewrite put_le_get, (proj2 (Z.leb_gt _ _)) by lia. cbn [andb]. rewrite put_le_get, (proj2 (Z.leb_gt _ _)) by lia. cbn [andb].
  rewrite zget_put, (proj2 (Z.eqb_neq _ _)) by lia. done.
Qed.
Lemma attr_map_header : zget attr_map 64 = u8 (Z.lor attr_lb (Z.shiftl attr_ob 4)).
Proof.
  pose proof attr_widths as [H1 H2]. unfold attr_map. rewrite put_le_get, (proj2 (Z.leb_gt _ _)) by lia. cbn [andb]. rewrite put_le_get, (proj2 (Z.leb_gt _ _)) by lia. cbn [andb]. by rewrite zget_put.
Qed.
Lemma attr_map_length i : 0 <= i < attr_lb -> zget attr_map (65 + i) = u8 (Z.shiftr (run_length r) (8 * i)).
Proof.
  intros Hi. pose proof attr_widths as [H1 H2]. unfold attr_map. rewrite put_le_get, (proj2 (Z.leb_gt _ _)) by lia. cbn [andb]. rewrite put_le_get, (proj2 (Z.leb_le _ _)), (proj2 (Z.ltb_lt _ _)) by lia. cbn [andb]. do 3 f_equal. lia.
Qed.
Lemma attr_map_place i : 0 <= i < attr_ob -> zget attr_map (65 + attr_lb + i) = u8 (Z.shiftr (run_physical r) (8 * i)).
Proof.
  intros Hi. pose proof attr_widths as [H1 H2]. unfold attr_map. rewrite put_le_get, (proj2 (Z.leb_le _ _)), (proj2 (Z.ltb_lt _ _)) by lia. cbn [andb]. do 3 f_equal. lia.
Qed.
Lemma attr_map_end : zget attr_map (65 + attr_lb + attr_ob) = 0.
Proof.
  pose proof attr_widths as [H1 H2]. unfold attr_map. rewrite put_le_get, (proj2 (Z.leb_le _ _)), (proj2 (Z.ltb_ge _ _)) by lia. cbn [andb]. rewrite put_le_get, (proj2 (Z.leb_le _ _)), (proj2 (Z.ltb_ge _ _)) by lia. cbn [andb].
  rewrite zget_put, (proj2 (Z.eqb_neq _ _)) by lia. rewrite !wr64_get. rewrite wr16_byte. rewrite wr64_get, wr16_byte, zget_put, !wr32_get, zget_empty.
  repeat match goal with |- context [?x <? ?y] => rewrite (proj2 (Z.ltb_ge x y)) by lia; rewrite andb_false_r | |- context [?x =? ?y] => rewrite (proj2 (Z.eqb_neq x y)) by lia end. done.
Qed.
(** One byte of the fixed part. *)
Ltac fixed_byte :=
  rewrite attr_map_low by lia; repeat (first [rewrite wr64_get | rewrite wr16_byte | rewrite wr32_get | rewrite zget_put | rewrite zget_empty]);
  repeat match goal with
  | |- context [?x <=? ?y] => first [rewrite (proj2 (Z.leb_gt x y)) by lia; cbn [andb] | rewrite (proj2 (Z.leb_le x y)) by lia; cbn [andb]]
  | |- context [?x <? ?y] => first [rewrite (proj2 (Z.ltb_ge x y)) by lia; cbn [andb] | rewrite (proj2 (Z.ltb_lt x y)) by lia; cbn [andb]]
  | |- context [?x =? ?y] => first [rewrite (proj2 (Z.eqb_neq x y)) by lia | rewrite (proj2 (Z.eqb_eq x y)) by lia]
  end.
Lemma attr_kind : zget attr_map 8 = 1.
Proof. fixed_byte. done. Qed.
Lemma attr_zeros a : 12 <= a < 14 \/ 16 <= a < 24 \/ 34 <= a < 36 -> zget attr_map a = 0.
Proof. intros Ha. destruct Ha as [Ha|[Ha|Ha]]; fixed_byte; done. Qed.
Lemma attr_rd64 p v : bytes_ok attr_map -> (forall i, 0 <= i < 8 -> zget attr_map (p + i) = u8 (Z.shiftr v (i * 8))) -> rd64 attr_map p = u64 v.
Proof.
  intros Hm Hb. rewrite <- (rd64_wr64 ∅ p v) by apply bytes_ok_empty. apply rd64_ext. intros i Hi. rewrite Hb by lia. rewrite wr64_get. rewrite (proj2 (Z.leb_le _ _)), (proj2 (Z.ltb_lt _ _)) by lia. cbn [andb]. do 3 f_equal. lia.
Qed.
Lemma attr_map_u8 : bytes_ok attr_map.
Proof. apply put_le_u8, put_le_u8. auto 16 with u8. Qed.
Lemma attr_last : rd64 attr_map 24 = u64 (u64 (run_length r - 1)).
Proof. apply attr_rd64; [apply attr_map_u8|]. intros i Hi. fixed_byte. do 3 f_equal. lia. Qed.
Lemma attr_size : rd64 attr_map 48 = u64 size.
Proof. apply attr_rd64; [apply attr_map_u8|]. intros i Hi. fixed_byte. do 3 f_equal. lia. Qed.
Lemma attr_initialized : rd64 attr_map 56 = u64 size.
Proof. apply attr_rd64; [apply attr_map_u8|]. intros i Hi. fixed_byte. do 3 f_equal. lia. Qed.
Lemma attr_list : rd16 attr_map 32 = 64.
Proof. unfold rd16. assert (zget attr_map 32 = 64) as -> by (fixed_byte; done). assert (zget attr_map (32 + 1) = 0) as -> by (fixed_byte; done). done. Qed.
End Attribute.

(** A record that holds the attribute at [at_] decodes to the run. *)
Section Decode.
Context (v : native_volume) (id : Z) (r : native_run) (size : Z) (rec : zmap) (at_ : Z).
#[local] Abbreviation m := (attr_map (nv_block v) id r size).
Hypothesis record_bytes : bytes_ok rec.
Hypothesis holds : forall i, 0 <= i < attr_bytes r -> zget rec (at_ + i) = zget m i.
Hypothesis run_range : 0 < run_length r /\ 0 <= run_physical r /\ run_physical r + run_length r <= nv_blocks v /\ nv_blocks v <= 2 ^ 63.
Hypothesis run_shape : run_logical r = 0 /\ run_hole r = false.
Hypothesis size_range : 0 < size <= run_length r * nv_block v /\ run_length r * nv_block v < 2 ^ 64 /\ 0 < nv_block v.
Lemma held_rd64 p : 0 <= p -> p + 8 <= attr_bytes r -> rd64 rec (at_ + p) = rd64 m p.
Proof. intros Hp Hq. unfold rd64, rd32, rd16. rewrite <- !Z.add_assoc. by rewrite !holds by lia. Qed.
Lemma held_rd16 p : 0 <= p -> p + 2 <= attr_bytes r -> rd16 rec (at_ + p) = rd16 m p.
Proof. intros Hp Hq. unfold rd16. rewrite <- !Z.add_assoc. by rewrite !holds by lia. Qed.
Lemma header_nibbles : zget m 64 = Z.lor (attr_lb r) (Z.shiftl (attr_ob r) 4) /\ Z.land (zget m 64) 15 = attr_lb r /\ Z.shiftr (zget m 64) 4 = attr_ob r.
Proof.
  pose proof (attr_widths r) as [H1 H2]. rewrite attr_map_header. rewrite lor_shiftl_add by lia. change (2 ^ 4) with 16. unfold u8. rewrite Z.mod_small by lia. split_and!; [done| |].
  - change 15 with (Z.ones 4). rewrite Z.land_ones by lia. change (2 ^ 4) with 16. rewrite Z.mod_add by lia. apply Z.mod_small. lia.
  - rewrite Z.shiftr_div_pow2 by lia. change (2 ^ 4) with 16. rewrite Z.div_add by lia. rewrite Z.div_small by lia. lia.
Qed.
Lemma decoded_length : le_bytes rec (at_ + 65) (Z.to_nat (attr_lb r)) = run_length r.
Proof.
  pose proof (attr_widths r) as [H1 H2]. pose proof (attr_room r). rewrite (le_bytes_value rec (run_length r)); [|lia|].
  - apply Z.mod_small. split; [lia|]. destruct (width_spec 7 (run_length r) 0 1 ltac:(lia)) as [_ Hz]. fold (attr_lb r) in Hz. rewrite Z2Nat.id by lia. destruct (Z.eq_dec (attr_lb r) 8) as [E|Hne]; [rewrite E; change (8 * 8) with 64; lia|].
    apply shiftr_zero_lt; [lia|lia|]. rewrite <- (Hz ltac:(lia)). f_equal. lia.
  - intros i Hi. rewrite <- Z.add_assoc, holds by lia. apply attr_map_length. lia.
Qed.
Lemma decoded_place : let n := attr_ob r in sign_extend (le_bytes rec (at_ + 65 + attr_lb r) (Z.to_nat n)) n = run_physical r.
Proof.
  pose proof (attr_widths r) as [H1 H2]. pose proof (attr_room r). cbv zeta. destruct (width_spec 7 (run_physical r) 1 1 ltac:(lia)) as [_ Hz]. fold (attr_ob r) in Hz.
  assert (run_physical r < 2 ^ (8 * attr_ob r - 1)) as Hlt.
  { destruct (Z.eq_dec (attr_ob r) 8) as [E|Hne]; [rewrite E; change (8 * 8 - 1) with 63; lia|]. apply shiftr_zero_lt; [lia|lia|]. rewrite <- (Hz ltac:(lia)). f_equal. lia. }
  assert (2 ^ (8 * attr_ob r) = 2 * 2 ^ (8 * attr_ob r - 1)) as Hpow by (rewrite <- Z.pow_succ_r by lia; f_equal; lia).
  rewrite (le_bytes_value rec (run_physical r)); [|lia|].
  - rewrite Z2Nat.id by lia. rewrite Z.mod_small by lia. unfold sign_extend. assert (Z.land (run_physical r) (Z.shiftl 1 (attr_ob r * 8 - 1)) = 0) as ->; [|by rewrite andb_false_r].
    rewrite Z.shiftl_1_l. apply Z.bits_inj'. intros k Hk. rewrite Z.land_spec, Z.pow2_bits_eqb, Z.bits_0 by lia. destruct (Z.eqb_spec (attr_ob r * 8 - 1) k) as [<-|]; [|apply andb_false_r].
    rewrite (testbit_high (run_physical r) (8 * attr_ob r - 1)); [done|lia|lia].
  - intros i Hi. rewrite <- !Z.add_assoc, holds by lia. rewrite (Z.add_assoc 65). apply attr_map_place. lia.
Qed.
Lemma held_runs : ntfs_runs v rec at_ (attr_bytes r) = Some (inr [r]).
Proof.
  pose proof (attr_widths r) as [H1 H2]. pose proof (attr_room r) as H3. destruct run_shape as [Hlog Hhole]. unfold ntfs_runs.
  assert (zget rec (at_ + 8) = 1) as -> by (rewrite holds by lia; apply attr_kind). rewrite !held_rd64, !held_rd16 by lia.
  assert (rd64 m 16 = 0) as -> by (unfold rd64, rd32, rd16; by rewrite !attr_zeros by lia). assert (rd16 m 12 = 0) as -> by (unfold rd16; by rewrite !attr_zeros by lia).
  assert (rd16 m 34 = 0) as -> by (unfold rd16; by rewrite !attr_zeros by lia). rewrite attr_list. rewrite (proj2 (Z.ltb_ge _ _)) by lia. cbn [orb negb Z.eqb Z.land Pos.eqb]. cbv zeta.
  rewrite (proj2 (Z.leb_gt _ _)) by lia. cbn [orb Z.ltb Z.compare Pos.compare Pos.compare_cont].
  destruct (Z.to_nat (attr_bytes r)) as [|[|fuel]] eqn:Ef; [lia|lia|]. cbn [run_loop rs_at]. rewrite (proj2 (Z.ltb_lt _ _)) by lia. rewrite holds by lia. destruct header_nibbles as (Hh & Hlb & Hob).
  assert (zget m 64 <> 0) as Hne by (intros E; rewrite E, Z.land_0_l in Hlb; lia). rewrite (proj2 (Z.eqb_neq _ _) Hne). cbn [andb negb].
  unfold run_step at 1. cbn [rs_at rs_lcn rs_vcn rs_runs]. rewrite holds by lia. rewrite Hlb, Hob. rewrite (proj2 (Z.eqb_neq (attr_lb r) 0)), (proj2 (Z.ltb_ge 8 (attr_lb r))), (proj2 (Z.ltb_ge 8 (attr_ob r))) by lia.
  cbn [orb]. rewrite (proj2 (Z.ltb_ge _ _)) by lia. change (64 + 1) with 65. rewrite decoded_length, decoded_place. rewrite (proj2 (Z.eqb_neq (attr_ob r) 0)) by lia.
  assert (move_cluster 0 (run_physical r) = inr (run_physical r)) as ->.
  { unfold move_cluster. assert (s64 (run_physical r) = run_physical r) as ->. { unfold s64, u64. cbv zeta. rewrite Z.mod_small by lia. by rewrite (proj2 (Z.ltb_lt _ _)) by lia. } rewrite (proj2 (Z.ltb_ge _ _)) by lia. rewrite (proj2 (Z.ltb_ge _ _)) by lia. f_equal. }
  assert (run_add (nv_blocks v) [] 0 (run_physical r) (run_length r) false = inr [r]) as ->.
  { unfold run_add, NATIVE_RUNS. cbn [last existsb length app]. rewrite (proj2 (Z.eqb_neq (run_length r) 0)), (proj2 (Z.ltb_ge _ _)), (proj2 (Z.leb_gt _ _)), (proj2 (Z.ltb_ge _ (run_length r))) by lia. cbn.
    destruct r as [lo ph le ho]. cbn in *. by subst. }
  cbv beta iota. cbn [run_loop rs_at]. replace (65 + attr_lb r + attr_ob r <? attr_bytes r) with true by (symmetry; apply Z.ltb_lt; lia). rewrite <- !Z.add_assoc, holds, Z.add_assoc, attr_map_end by lia. cbn [Z.eqb negb andb].
  unfold runs_end_bad. cbn [rs_at rs_vcn rs_runs]. rewrite !held_rd64 by lia. rewrite attr_last, attr_size, attr_initialized. assert (u64 (u64 (run_length r - 1)) = run_length r - 1) as -> by (unfold u64; rewrite Z.mod_mod by lia; apply Z.mod_small; lia). assert (u64 size = size) as -> by (apply Z.mod_small; lia).
  assert (run_length r <= (2 ^ 64 - 1) / nv_block v) as Hq by (apply Z.div_le_lower_bound; lia).
  change (negb (Z.land 0 49153 =? 0) || false) with false. cbv iota. rewrite !Z.add_0_l, Z.eqb_refl, (proj2 (Z.leb_gt _ _)), (proj2 (Z.eqb_neq (run_length r) 0)), (proj2 (Z.ltb_ge _ _) Hq), (proj2 (Z.ltb_ge size size)), (proj2 (Z.ltb_ge _ size)) by lia. done.
Qed.
End Decode.

(** C19: what the NTFS driver writes about the clusters of a file, it reads back: the data attribute that it encodes for a run of clusters,
    put in place of any attribute of a record, decodes to exactly that run, and gives the size of the file. *)
Theorem ntfs_runs_roundtrip (v : native_volume) (id : Z) (r : native_run) (size : Z) (raw : zmap) (at_ oldlen : Z) (raw' : zmap) :
  bytes_ok raw -> 0 < run_length r -> 0 <= run_physical r -> run_physical r + run_length r <= nv_blocks v -> nv_blocks v <= 2 ^ 63 ->
  run_logical r = 0 -> run_hole r = false -> 0 < nv_block v -> 0 < size <= run_length r * nv_block v -> run_length r * nv_block v < 2 ^ 64 -> 28 <= at_ ->
  nt_attr_replace (nv_record_size v) raw at_ oldlen (nt_data_attribute (nv_block v) id r size) = inr raw' ->
  let n := zlen (nt_data_attribute (nv_block v) id r size) in
  ntfs_runs v raw' at_ n = Some (inr [r]) /\ rd64 raw' (at_ + 48) = size /\ rd64 raw' (at_ + 56) = size.
Proof.
  intros Hraw Hl Hp Hpl Hb Hlog Hhole Hblk Hs Hmax Hat E n. pose proof (attr_room r) as Hroom. pose proof (attr_widths r) as Hwid. assert (n = attr_bytes r) as En by (apply data_attribute_length; lia).
  assert (bytes_ok raw') as Hraw' by (eapply attr_replace_u8; [exact Hraw| |exact E]; apply data_attribute_u8).
  assert (forall i, 0 <= i < attr_bytes r -> zget raw' (at_ + i) = zget (attr_map (nv_block v) id r size) i) as Hh.
  { intros i Hi. unfold nt_attr_replace in E. destruct (_ || _); [done|]. injection E as <-. rewrite wr32_get, (proj2 (Z.leb_le _ _)), (proj2 (Z.ltb_ge _ _)) by lia. cbn [andb].
    rewrite write_bytes_get, (proj2 (Z.leb_le _ _)), (proj2 (Z.ltb_lt _ _)) by (unfold n, zlen in En; lia). cbn [andb]. rewrite data_attribute_map by lia. unfold bytes_at.
    replace (at_ + i - at_) with i by lia. apply list_lookup_total_correct. rewrite bytes_from_lookup by lia. do 2 f_equal. lia. }
  rewrite En. split; [by apply (held_runs v id r size)|]. rewrite !(held_rd64 v id r size raw' at_ Hh) by lia. rewrite attr_size, attr_initialized. split; apply Z.mod_small; lia.
Qed.
Definition codec_volume : native_volume := native0 <| nv_block := 512 |> <| nv_blocks := 1000 |> <| nv_record_size := 1024 |>.
Definition codec_record : zmap := wr32 (wr16 ∅ 20 48) 24 200.
Definition codec_run : native_run := mk_run 0 300 70 false.
Definition codec_replaced : zmap := match nt_attr_replace 1024 codec_record 56 24 (nt_data_attribute 512 3 codec_run 34000) with inr raw => raw | inl _ => ∅ end.
Lemma codec_record_u8 : bytes_ok codec_record.
Proof. unfold codec_record. auto with u8. Qed.
Lemma ntfs_runs_roundtrip_witness : ntfs_runs codec_volume codec_replaced 56 (zlen (nt_data_attribute 512 3 codec_run 34000)) = Some (inr [codec_run]).
Proof.
  assert (nt_attr_replace 1024 codec_record 56 24 (nt_data_attribute 512 3 codec_run 34000) = inr codec_replaced) as E by (vm_compute; reflexivity).
  refine (proj1 (ntfs_runs_roundtrip codec_volume 3 codec_run 34000 codec_record 56 24 codec_replaced codec_record_u8 _ _ _ _ eq_refl eq_refl _ _ _ _ E)); vm_compute; try split; congruence.
Defined.

(** * Protected records *)
Lemma wr16_copy m p v m' q : bytes_ok m' -> v = rd16 m' q -> forall k, 0 <= k < 2 -> zget (wr16 m p v) (p + k) = zget m' (q + k).
Proof.
  intros Hm -> k Hk. rewrite wr16_byte, rd16_add by apply Hm. pose proof (Hm q) as H0. pose proof (Hm (q + 1)) as H1. unfold is_u8 in H0, H1. change (2 ^ 8) with 256.
  assert (k = 0 \/ k = 1) as [-> | ->] by lia; rewrite ?Z.add_0_r.
  - rewrite Z.eqb_refl. unfold u8. change (2 ^ 8) with 256. rewrite Z.mod_add, Z.mod_small by lia. done.
  - rewrite (proj2 (Z.eqb_neq _ _)), Z.eqb_refl by lia. rewrite Z.shiftr_div_pow2 by lia. change (2 ^ 8) with 256. rewrite Z.div_add, Z.div_small by lia. apply Z.mod_small. change (2 ^ 8) with 256. lia.
Qed.
Lemma wr16_other m p v a : ~ (p <= a < p + 2) -> zget (wr16 m p v) a = zget m a.
Proof. intros Ha. rewrite wr16_byte, !(proj2 (Z.eqb_neq _ _)) by lia. done. Qed.
Definition seq_byte (sequence k : Z) : Z := u8 (Z.shiftr sequence (8 * k)).
Lemma wr16_seq m p v k : 0 <= k < 2 -> zget (wr16 m p v) (p + k) = seq_byte v k.
Proof.
  intros Hk. rewrite wr16_byte. unfold seq_byte. assert (k = 0 \/ k = 1) as [-> | ->] by lia; [by rewrite Z.add_0_r, Z.eqb_refl, Z.shiftr_0_r|].
  by rewrite (proj2 (Z.eqb_neq _ _)), Z.eqb_refl by lia.
Qed.
Lemma rd16_seq m p v : is_u16 v -> (forall k, 0 <= k < 2 -> zget m (p + k) = seq_byte v k) -> rd16 m p = v.
Proof.
  intros Hv Hb. rewrite (rd16_wr m 0 v p); [rewrite Z.shiftr_0_r; by apply Z.mod_small| | |lia].
  - rewrite <- (Z.add_0_r p), Hb by lia. done.
  - rewrite Hb by lia. done.
Qed.
Lemma next_sequence_u16 x : is_u16 (next_sequence x).
Proof. unfold next_sequence. cbv zeta. case_match; [unfold is_u16; lia|]. by apply Z.mod_pos_bound. Qed.
Section Fixups.
Context (raw : zmap) (usa count sequence : Z).
Hypothesis raw_bytes : bytes_ok raw.
Hypothesis sequence_u16 : is_u16 sequence.
Hypothesis array_fits : 8 <= usa /\ usa + 2 * count <= 510 /\ 1 <= count.
(** After the units before [i]. *)
Record packed_to (i : Z) (x : zmap) : Prop := {
  pk_bytes : bytes_ok x;
  pk_first : forall k, 0 <= k < 2 -> zget x (usa + k) = seq_byte sequence k;
  pk_array : forall j k, 1 <= j < i -> 0 <= k < 2 -> zget x (usa + j * 2 + k) = zget raw (j * 512 - 2 + k);
  pk_ends : forall j k, 1 <= j < i -> 0 <= k < 2 -> zget x (j * 512 - 2 + k) = seq_byte sequence k;
  pk_rest : forall a, ~ (usa <= a < usa + 2 * i) -> (forall j, 1 <= j < i -> ~ (j * 512 - 2 <= a < j * 512)) -> zget x a = zget raw a
}.
Lemma pack_loop : packed_to count (fold_range 1 count (pack_step usa sequence) (wr16 raw usa sequence)).
Proof.
  apply (fold_range_inv packed_to); [lia| |].
  - split; [by apply wr16_u8|intros k Hk; by apply wr16_seq|lia|lia|]. intros a Ha _. apply wr16_other. lia.
  - intros i x Hi [Hx P1 P2 P3 P4]. unfold pack_step. assert (forall k, 0 <= k < 2 -> zget x (i * 512 - 2 + k) = zget raw (i * 512 - 2 + k)) as He by (intros k Hk; apply P4; [lia|intros j Hj; lia]).
    split.
    + by apply wr16_u8, wr16_u8.
    + intros k Hk. rewrite !wr16_other by lia. by apply P1.
    + intros j k Hj Hk. rewrite wr16_other by lia. destruct (Z.eq_dec j i) as [->|Hne]; [|rewrite wr16_other by lia; apply P2; lia]. rewrite (wr16_copy x _ _ x (i * 512 - 2)) by done. by apply He.
    + intros j k Hj Hk. destruct (Z.eq_dec j i) as [->|Hne]; [by apply wr16_seq|]. rewrite !wr16_other by lia. apply P3; lia.
    + intros a Ha Hends. pose proof (Hends i ltac:(lia)). rewrite !wr16_other by lia. apply P4; [lia|]. intros j Hj. apply Hends. lia.
Qed.
Record unpacked_to (p : zmap) (i : Z) (x : zmap) : Prop := {
  un_ends : forall j k, 1 <= j < i -> 0 <= k < 2 -> zget x (j * 512 - 2 + k) = zget raw (j * 512 - 2 + k);
  un_rest : forall a, (forall j, 1 <= j < i -> ~ (j * 512 - 2 <= a < j * 512)) -> zget x a = zget p a
}.
Lemma fixup_loop p : packed_to count p ->
  match for_range 1 count (fixup_step usa sequence) p with Next x => unpacked_to p count x | Exit _ => False end.
Proof.
  intros [Hp P1 P2 P3 P4]. apply (for_range_inv (unpacked_to p) (fun _ => False)); [lia|split; [lia|done]|]. intros i x Hi [U1 U2]. unfold fixup_step. cbv zeta.
  assert (rd16 x (i * 512 - 2) = sequence) as Es by (apply rd16_seq; [done|]; intros k Hk; rewrite U2 by (intros j Hj; lia); apply P3; lia). rewrite Es, Z.eqb_refl. cbn [negb].
  assert (rd16 x (usa + i * 2) = rd16 raw (i * 512 - 2)) as Ea.
  { assert (forall k, 0 <= k < 2 -> zget x (usa + i * 2 + k) = zget raw (i * 512 - 2 + k)) as Hb by (intros k Hk; rewrite U2 by (intros j Hj; lia); apply P2; lia).
    pose proof (Hb 0 ltac:(lia)) as Hb0. rewrite !Z.add_0_r in Hb0. unfold rd16. by rewrite Hb0, Hb by lia. }
  rewrite Ea. split.
  - intros j k Hj Hk. destruct (Z.eq_dec j i) as [->|Hne]; [by apply (wr16_copy x _ _ raw)|]. rewrite wr16_other by lia. apply U1; lia.
  - intros a Ha. pose proof (Ha i ltac:(lia)). rewrite wr16_other by lia. apply U2. intros j Hj. apply Ha. lia.
Qed.
(** A buffer whose unit [i] does not end with the number in its array. *)
Lemma torn_loop p i : 1 <= i < count -> rd16 p (i * 512 - 2) <> sequence -> for_range 1 count (fixup_step usa sequence) p = Exit K_EIO.
Proof.
  intros Hi Ht.
  pose proof (for_range_inv (fun n x => n <= i /\ rd16 x (i * 512 - 2) = rd16 p (i * 512 - 2)) (fun e => e = K_EIO) (fixup_step usa sequence) 1 count p ltac:(lia) ltac:(split; [lia|done])) as Hl.
  lapply Hl; [clear Hl; intros Hl; destruct (for_range _ _ _ _); [lia|congruence]|].
  intros n x Hn [Hle Hx]. unfold fixup_step. cbv zeta.
  destruct (Z.eqb_spec (rd16 x (n * 512 - 2)) sequence) as [E|E]; cbn [negb]; [|done].
  destruct (Z.eq_dec n i) as [->|Hne]; [congruence|]. split; [lia|]. rewrite <- Hx. unfold rd16. by rewrite !wr16_other by lia.
Qed.
End Fixups.
(** The checks that come before the units: they see the first bytes of the record only. *)
Lemma fixup_header rec usa count units sequence magic :
  1 <= units -> count = units + 1 -> 8 <= usa -> usa + 2 * count <= 510 ->
  bytes_at rec 0 4 = magic -> rd16 rec 4 = usa -> rd16 rec 6 = count -> rd16 rec usa = sequence ->
  ntfs_fixup rec (units * 512) magic = match for_range 1 count (fixup_step usa sequence) rec with Next rec => inr rec | Exit e => inl e end.
Proof.
  intros Hu Hc Ha Hb Em E4 E6 Es. unfold ntfs_fixup. cbv zeta. rewrite E4, E6, Es, bool_decide_true by done. rewrite Z.mod_mul, Z.div_mul by lia.
  rewrite (proj2 (Z.ltb_ge _ 48)), Hc, !Z.eqb_refl by lia. cbn [negb orb]. by rewrite (proj2 (Z.ltb_ge usa 8)), (proj2 (Z.ltb_ge _ usa)), (proj2 (Z.ltb_ge _ (_ * 2))) by lia.
Qed.
Lemma bytes_at_ext m m' p n : (forall k, 0 <= k < n -> zget m (p + k) = zget m' (p + k)) -> bytes_at m p n = bytes_at m' p n.
Proof.
  intros E. unfold bytes_at. apply list_eq. intros i. destruct (decide (i < Z.to_nat n)%nat) as [Hi|Hi].
  - rewrite !bytes_from_lookup by lia. f_equal. apply E. lia.
  - rewrite !lookup_ge_None_2; [done| |]; rewrite bytes_from_length; lia.
Qed.
Lemma head_agrees m m' usa (Hu : 8 <= usa) : (forall a, 0 <= a < usa -> zget m a = zget m' a) ->
  bytes_at m 0 4 = bytes_at m' 0 4 /\ rd16 m 4 = rd16 m' 4 /\ rd16 m 6 = rd16 m' 6.
Proof. intros E. split; [apply bytes_at_ext; intros k Hk; apply E; lia|]. unfold rd16. rewrite !E by lia. done. Qed.

(** C20: packing a record and undoing it. *)
Theorem ntfs_fixup_roundtrip (raw : zmap) (usa units : Z) (magic : list Z) :
  let count := units + 1 in let size := units * 512 in let packed := ntfs_pack raw usa count in
  bytes_ok raw -> 1 <= units -> 8 <= usa -> usa + 2 * count <= 510 -> bytes_at raw 0 4 = magic -> rd16 raw 4 = usa -> rd16 raw 6 = count ->
  (exists rec, ntfs_fixup packed size magic = inr rec /\ rd16 rec usa = next_sequence (rd16 raw usa) /\
     forall a, 0 <= a < size -> ~ (usa <= a < usa + 2 * count) -> zget rec a = zget raw a) /\
  (forall torn i, (forall a, 0 <= a < usa + 2 -> zget torn a = zget packed a) -> 1 <= i <= units ->
     rd16 torn (i * 512 - 2) <> next_sequence (rd16 raw usa) -> ntfs_fixup torn size magic = inl K_EIO).
Proof.
  intros count size packed Hraw Hu Ha Hb Em E4 E6. set (sequence := next_sequence (rd16 raw usa)). pose proof (next_sequence_u16 (rd16 raw usa)) as Hs. fold sequence in Hs.
  pose proof (pack_loop raw usa count sequence Hraw ltac:(lia)) as Hp. change (packed_to raw usa sequence count packed) in Hp. pose proof Hp as [Pb P1 P2 P3 P4].
  assert (forall a, 0 <= a < usa -> zget packed a = zget raw a) as Hh by (intros a Hx; apply P4; [lia|intros j Hj; lia]).
  assert (forall torn, (forall a, 0 <= a < usa + 2 -> zget torn a = zget packed a) ->
    ntfs_fixup torn size magic = match for_range 1 count (fixup_step usa sequence) torn with Next rec => inr rec | Exit e => inl e end) as Hd.
  { intros torn Ht. destruct (head_agrees torn raw usa Ha) as (F1 & F2 & F3); [intros a Hx; rewrite Ht by lia; by apply Hh|].
    apply (fixup_header torn usa count units); [lia|done..|congruence|congruence|congruence|].
    apply rd16_seq; [done|]. intros k Hk. rewrite Ht by lia. by apply P1. }
  split.
  - rewrite (Hd packed) by done. pose proof (fixup_loop raw usa count sequence Hraw Hs ltac:(lia) packed Hp) as Hf.
    destruct (for_range _ _ _ _) as [rec|]; [|done]. destruct Hf as [U1 U2]. exists rec. split; [done|]. split.
    + apply rd16_seq; [done|]. intros k Hk. rewrite U2 by (intros j Hj; lia). by apply P1.
    + intros a Hx Hn. pose proof (Z.div_mod a 512 ltac:(lia)). pose proof (Z.mod_pos_bound a 512 ltac:(lia)). destruct (Z_lt_dec (a mod 512) 510) as [Hm|Hm].
      * rewrite U2 by (intros j Hj; lia). apply P4; [lia|intros j Hj; lia].
      * pose proof (U1 (a / 512 + 1) (a mod 512 - 510) ltac:(lia) ltac:(lia)) as He. by replace ((a / 512 + 1) * 512 - 2 + (a mod 512 - 510)) with a in He by lia.
  - intros torn i Ht Hi Hne. rewrite (Hd torn) by done. by rewrite (torn_loop usa count sequence ltac:(lia) torn i) by (lia || done).
Qed.
(** A record of two units, and the same with the last bytes of its second unit not written. *)
Definition fixup_record : zmap := write_bytes 0 FILE_MAGIC (wr16 (wr16 (wr16 (wr16 (wr16 ∅ 4 48) 6 3) 48 7) 510 0x1234) 1022 0x5678).
Definition fixup_torn : zmap := wr16 (ntfs_pack fixup_record 48 3) 1022 0x5678.
Lemma ntfs_fixup_roundtrip_witness :
  (exists rec, ntfs_fixup (ntfs_pack fixup_record 48 3) 1024 FILE_MAGIC = inr rec /\ rd16 rec 48 = 8 /\ zget rec 1022 = 0x78) /\ ntfs_fixup fixup_torn 1024 FILE_MAGIC = inl K_EIO.
Proof.
  assert (bytes_ok fixup_record) as Hb by (unfold fixup_record; apply write_bytes_ok; [repeat constructor; unfold is_u8; lia|auto 10 with u8]).
  destruct (ntfs_fixup_roundtrip fixup_record 48 2 FILE_MAGIC Hb) as [(rec & E & Es & Hr) Ht]; try (vm_compute; congruence); [reflexivity..|].
  split.
  - exists rec. split; [exact E|]. split; [rewrite Es; reflexivity|]. rewrite Hr by lia. reflexivity.
  - apply (Ht fixup_torn 2); [|lia|vm_compute; congruence]. intros a Ha. apply wr16_other. lia.
Defined.
